(* ===== verification/_CoqProject ===== *)
-Q . S2P
Prelude.v
Memory.v
CInt.v
CStr.v
CirQueue.v
LinkList.v
Rtt.v
Reliable.v
UnpIo.v
NonBlock.v
InetAddr.v
SockAddr.v
Kernel.v
UnpSock.v
AddrInfo.v
AddrLookup.v
NameInfo.v
Interfaces.v
IfWalk.v
IfMemory.v
HwStart.v
OdrWire.v
Odr.v
OdrNet.v
OdrProps.v
OdrLoop.v
Api.v
OdrNode.v
OdrDeliver.v
OdrStart.v
FileServer.v
FileTypes.v
FileClient.v
FileDatagrams.v
FileTransfer.v
FileProgress.v
FileWire.v
FileStart.v
Arp.v
Tour.v
TourHosts.v
TourRun.v
TourStart.v
Echo.v
EchoStart.v
