(* ===== verification/Prelude.v ===== *)
(** * CSE533: network-programming projects in C, modelled and verified

    The repository holds four course projects on Unix sockets.  This development
    models their own code: the echo and time services of Assignment 1, the reliable
    file transfer over UDP of Assignment 2, the on-demand routing protocol (ODR) with
    its time client and server of Assignment 3, and the ARP service and the tour program
    of Assignment 4.

    ** Method

    A C function or handler is a Rocq function in a state monad [M] whose result is a
    value and a next state ([Done]), a call of [exit] ([Exited]), or undefined
    behaviour ([Undefined], with its reason).  Array bounds, null and dangling
    pointers, buffer sizes, signed overflow, division by zero and missing terminators
    are checked where the C code relies on them, so "no undefined behaviour" is a
    theorem and not an assumption.  Integers keep their width ([CInt]): unsigned
    arithmetic wraps, signed arithmetic is checked, and the byte-order functions are
    byte swaps.  Structures that are copied into frames with [memcpy] have their layout
    in bytes.  What the kernel does is an argument: which datagrams it takes, what
    [select] and [recv] report, the clock, the contents of uninitialised memory.  A
    server is a handler per input; a run is any sequence of inputs, so loss,
    duplication, reordering and the interleaving of threads and signals are all
    covered by quantifying over the sequence or by a step relation.

    ** Files

    In dependency order; every theorem stands in the file of the part it is about.

    - [Prelude] (this file): the monad, weakest preconditions ([wpx] with its total and
      partial forms), invariants ([preserves], hint database of the same name), arrays,
      reachability.
    - [Memory]: memory as a finite map of blocks, linked lists of structures that own
      blocks, what linking and freeing does to them.
    - [CInt], [CStr]: C integers and byte order; C strings, [strcpy], [sprintf] and
      [sscanf] with %s and %d, with the lemmas that reading inverts printing.
    - [CirQueue] (CirQueue.c, CirQueue.h): the server's send queue; a bounded FIFO is
      its specification and [cirqueue_refines_fifo] the refinement.
    - [LinkList] (LinkList.c, LinkList.h): sorted singly linked lists in a heap.  The
      class [Allocator] is [malloc], whose blocks contain anything; [zeroed] is the same
      allocator with NULL where the code leaves [next] unset, which runs are compared
      with.  [Pure] holds the specification on finite lists.
    - [Rtt] (unpv13e/lib/rtt.c, which the repository changed): the round-trip timer in
      milliseconds.
    - Parts of the library unpv13e: [UnpIo] (writen.c, readn.c, readline.c,
      str_echo.c, in_cksum.c), [InetAddr] (inet_ntop.c, inet_pton.c), [SockAddr] (the
      functions sock_*.c on socket addresses).
    - [Reliable] (unpv13e/rtt): requests over UDP that are sent again until the answer
      comes, on the timer of [Rtt], and client and server on an unreliable network.
    - [NonBlock] (unpv13e/nonblock/strclinonb.c): the client with non-blocking input and
      output, one turn of its loop at a time.
    - [Kernel]: the calls the start-up code makes, as a trace; what the kernel answers
      is a function of the calls so far.  [stops]: code that goes on only while its
      calls succeed; [serve]: running code on a kernel that serves every call.
    - [UnpSock] (unpv13e/lib tcp_*.c, udp_*.c, connect_*.c, mcast_*.c and small ones):
      the library's functions that make sockets from names, and those for multicasting.
    - [AddrInfo], [AddrLookup] (unpv13e/libgai): the library's own getaddrinfo, which
      those functions call on systems without one: the list it builds in memory, and the
      list as a function of names and hints ([addresses_of]).  [NameInfo]: getnameinfo,
      host_serv, and the functions of [UnpSock] on this getaddrinfo.
    - [Interfaces] (get_hw_addrs.c of Assignments 3 and 4, get_ifi_info_plus.c of
      Assignment 2): the lists of interfaces the programs start from.  [IfWalk]: which
      requests of the table get_ifi_info_plus reads on a 64-bit platform.  [IfMemory]:
      the structures of the lists as blocks of memory, how they are linked, and the
      functions that free them.  [HwStart]: how a program finds out which of the ten
      machines it runs on.
    - [OdrWire], [Odr] (Assignment 3 ODR.c): frames as bytes; tables, start-up and
      every handler of the event loop.
    - [OdrNet]: a network of ODR services as a step relation and its invariant.
      [OdrProps]: the network properties, scripts of steps that are played in a network,
      and a concrete line of three nodes.  [OdrLoop]: hop counts go down along next
      hops.  [OdrNode]: the properties of a single service.  [OdrDeliver]: a request is
      played through the network to the server of the destination.
    - [Api] (Assignment 3 API.c, client.c, server.c): the text lines between the
      service and the two programs, and the loops of both.
    - [FileServer] (Assignment 2 server.c): requests and the table of clients, the
      handshake of a child, and the child's sender as a state machine over [input].
    - [FileClient] (Assignment 2 client.c): address choice, request loop, receive loop
      and printing thread as a state machine over [event], where a header and its data
      are one event.  [FileDatagrams]: the same client on single datagrams.
    - [FileTypes]: the C types of the sender's variables as an invariant.
    - [FileTransfer]: server and client of Assignment 2 on events, as one step relation
      ([transfer_step]): the server is handed acknowledgements the client sent, the
      client pairs of header and data the server sent, at any time and any number of
      times.  Its lemmas on the sender ([core], [queue_ok]) are the inductive invariant
      of the window.  [FileProgress]: rounds of the sender and the client in lock step.
      [FileWire]: server and client on a network that treats every datagram on its own
      ([wire_step]), with memory that contains anything; its runs are those of
      FileTransfer until one of two things goes wrong ([goes_wrong]), and the theorems on
      the transfer are stated there.
    - [Arp] (Assignment 4 arp.c): cache, handlers, frames, and a network of services.
    - [Tour] (Assignment 4 tour.c): source-route packets, pinging, end of a tour.
    - [TourHosts]: ten hosts of Assignment 4, each with both programs, on one Ethernet.
      [occur] is what an event does to the hosts and [enabled] when it can happen; the
      handler of a packet is cut where [areq] waits for the ARP service.  [TourRun]: a
      whole tour, from the first packet to the exit of the last program.
    - [Echo] (Assignment 1, all programs): server, threads, both clients, menu, and an
      echo session between a client and a thread as a step relation ([session_step]), in
      which reads and writes may fail and either process may die.
    - [OdrStart], [FileStart], [TourStart], [EchoStart]: what the programs of
      Assignments 3, 2, 4 and 1 do before their loops: parameter files, interfaces,
      sockets and their options, [fork], [pipe] and [execlp], the multicast group.

    A definition has the name of the C function it models; a part of a long [main] is
    named after what it does, and its comment quotes or describes the statements.

    ** What is shown

    - Assignment 1.  An address the user types reaches the program of the service, which
      connects to it at the port the server listens on.  In every interleaving, for
      every way the streams are cut and whatever fails, an echo session prints a
      beginning of what was typed; when the client returns without the server having
      failed that is all of it; and a session in which nothing fails can be finished.
    - Assignment 2.  End to end: for every loss, repetition and reordering of single
      datagrams and every interleaving of handlers, the client has printed a beginning of
      the server's file, and when the server ends the client has all of it, as long as
      the client keeps header and data in step and finds NULL in the [next] of new nodes
      (the code takes care of neither), and the file has no NUL; and every such file has
      a run that gets it through.  The parts: the queue is a FIFO of at most [MAX_QSIZE]-1 datagrams; list
      insertion keeps the order and [NextAck] is the first gap.  The sender sends new
      data in order with consecutive numbers, resends and slides as specified, halves
      and resets its windows on a timeout, and its windows stay at least 1.  The client
      prints exactly a prefix of the lines, under the same two conditions, and
      acknowledges only what it has.  Timer: bounds of the timeout and the number
      of attempts.  The table of
      interfaces is complete, the lists made of it are a filter and map of what is read
      of it (on a 64-bit platform get_ifi_info_plus misses interfaces), and the lists in
      memory are what the functions that free them give back.  On single datagrams the
      client does what it does on the events they are read as; a lost datagram of data
      leaves an empty line in the file.  The server opens one socket per interface; the
      port the kernel gives a child is the one the client connects to.
    - Assignment 3.  In every reachable state of every network all routes are sound
      (neighbour, next hop and hop count belong to a real path), and no frame a node
      sends leads a receiver into undefined behaviour; without forced discovery the hop
      count falls along next hops, so they lead to the destination without loops, and a
      request with a route can be brought to the server in as many steps as it has
      hops, if the service read the path of the client in full: [recvfrom] is given the
      length of the path before ([client_path_cut]).  The answer comes back in the same
      way, but its port matches no process, and it goes to whatever path is in localaddr.  For one service: what each kind of request and frame does
      to the tables and which frames leave, that duplicates are ignored, and that the
      port table is stable.  On a line of three nodes the discovery, the delivery and
      the routes are computed.
    - Assignment 4.  ARP caches are sound in every network, an exchange gives the asker
      the right hardware address; a tour visits the nodes in order, never leaves its
      arrays, and is ended by its last node.  Both programs together: whatever is lost,
      delayed or fails, nothing is undefined and [areq] reads from a living service only
      the address it asked for ([hosts_sound]); and when nothing goes wrong a tour gets
      around and every program of its group ends ([tour_completes]).
    - Start-ups.  On a kernel that serves every call, the calls made are listed; for any
      kernel, the programs go on only while their calls succeed and the first failure
      ends them with 1.
    - Library.  Printing and reading an IPv6 address are inverse, IPv4 parsing accepts
      exactly the dotted quads, lines and records are read whole however the stream is
      cut, and a packet with its checksum filled in verifies.  A socket made from a name
      is connected or bound to the first address that takes it, and the sockets of the
      addresses before it are closed.  getaddrinfo leaves in memory exactly the list it
      stands for, whatever the allocator does; freeaddrinfo gives it back; and the
      numeric names of an address lead back to it.  The non-blocking client passes on
      what it is given in both directions and the end of its input, whatever the kernel
      answers; what waits for standard output when the server ends is lost.  Over a network
      that loses, repeats, delays and reorders datagrams, [dg_cli] prints the lines it
      read, once and in order, and a line that waits can be finished; a SIGALRM before the
      jump buffer is set is the one way to undefined behaviour.
    - Theorems of kind error state where the code does not do what it means to; each is
      about the same definitions as the others.

    ** Bounds and fuel

    List walks take the size of the heap plus one as fuel: the lemmas show that a list
    of distinct nodes is shorter, so [Diverges] is never the result on a well-formed
    list.  The other loops of the code are bounded ([for_]) or recursive on the input.
    The loop that reads the table of interfaces has a fuel computed from the table.
    The loops of [writen], [readn] and [readline] take one turn per answer of the
    kernel; the theorems ask for no more answers than the bytes and interruptions need.
    Where a counter is an [int], the theorems ask that the run is short enough for it
    (fewer than 2^31 events), and say so; hop counts fall along next hops in runs of
    fewer than 2^31-1 steps without forced discovery.

    ** Not modelled

    Output that is not data of the protocol (the lines the programs print), except the
    listing of interfaces; of the library unpv13e everything but the files named above:
    the programs call its wrappers, which report an error and exit, and none of the
    other files.  The resolver (gethostbyname, gethostbyaddr, the getaddrinfo the
    programs are linked with) and inet_addr of the C library are parameters.  Of
    the %lf of fscanf only decimal constants are read.  Signals and threads interleave between handlers,
    not inside one; only [areq], which waits in [read], is interrupted by SIGALRM, and
    [dg_send_recv] between alarm and sigsetjmp.  In
    [TourHosts] the Ethernet does not repeat frames: [repeated_reply_misdirected] shows
    what the ARP service makes of a repeated reply.  The runs of [FileWire] end where the
    client takes text for a header, or the data of another header for its own, and where
    it inserts a node whose [next] is garbage; what happens then is shown by example
    ([lost_data_empties_line], [InsertLinkList_append_unterminated]).  The list of received
    datagrams is changed by two threads without a lock; the runs do not interleave inside
    an insertion, and [unlocked_insert_uses_freed] shows what can happen when they do. *)

From Stdlib Require Export ZArith Lia.
From stdpp Require Export base tactics numbers list gmap strings.

#[global] Open Scope Z_scope.

(** * Undefined behaviour, program exit, and the error-state monad *)

(** The ways a C statement of the modelled programs can have no meaning. *)
Inductive ub :=
  | OutOfBounds       (* array index outside the array (or its initialised part) *)
  | NullDeref         (* dereference of a null pointer *)
  | BadPointer        (* dereference of a dangling or indeterminate pointer *)
  | BufferOverflow    (* a string copied into a smaller array *)
  | SignedOverflow    (* a signed result outside [int] *)
  | DivByZero         (* division or remainder by 0 *)
  | NoTerminator      (* a string operation on bytes with no NUL *)
  | Diverges.         (* a loop that never ends *)

(** The result of running a piece of a program from a state: a value and the
    next state, a call of [exit], or undefined behaviour. *)
Inductive res (St A : Type) : Type :=
  | Done (a : A) (s : St)
  | Exited (code : Z) (s : St)
  | Undefined (u : ub).
Arguments Done {St A} a s.
Arguments Exited {St A} code s.
Arguments Undefined {St A} u.

Definition M (St A : Type) : Type := St → res St A.

#[export] Instance M_ret {St} : MRet (M St) := λ A a s, Done a s.
#[export] Instance M_bind {St} : MBind (M St) := λ A B k m s,
  match m s with
  | Done a s' => k a s'
  | Exited c s' => Exited c s'
  | Undefined u => Undefined u
  end.

Definition get {St} : M St St := λ s, Done s s.
Definition gets {St A} (f : St → A) : M St A := λ s, Done (f s) s.
Definition modify {St} (f : St → St) : M St unit := λ s, Done tt (f s).
Definition exit {St A} (code : Z) : M St A := λ s, Exited code s.
Definition undef {St A} (u : ub) : M St A := λ _, Undefined u.

(** [from_option u o]: the value of [o], undefined behaviour [u] without one. *)
Definition of_opt {St A} (u : ub) (o : option A) : M St A :=
  match o with Some a => mret a | None => undef u end.

Definition when {St} (b : bool) (m : M St unit) : M St unit :=
  if b then m else mret tt.

(** Array access with a C index: a negative or too large index is undefined. *)
Definition arr_at {A} (l : list A) (i : Z) : option A :=
  if i <? 0 then None else l !! Z.to_nat i.
Definition rd {St A} (l : list A) (i : Z) : M St A := of_opt OutOfBounds (arr_at l i).
Definition arr_set {A} (l : list A) (i : Z) (x : A) : option (list A) :=
  if (0 <=? i) && (i <? Z.of_nat (length l)) then Some (<[Z.to_nat i := x]> l) else None.

(** [for_ i n body]: [for (k = i; k < i + n; k++) body k]. *)
Fixpoint for_ {St} (i n : nat) (body : nat → M St unit) : M St unit :=
  match n with
  | O => mret tt
  | S n' => body i;; for_ (S i) n' body
  end.

(** [first_index p l]: the value of the counter after
    [for (i = 0; i < n; i++) if (p (l[i])) break;] where [n] is the length of [l]. *)
Fixpoint first_index {A} (p : A → bool) (l : list A) : nat :=
  match l with
  | [] => O
  | x :: l' => if p x then O else S (first_index p l')
  end.

(** * Weakest preconditions *)

(** [wpx U E m Q s]: running [m] from [s] ends in [Q] if it returns, in [E] if it
    exits and in [U] if it is undefined. *)
Definition wpx {St A} (U : ub → Prop) (E : Z → St → Prop) (m : M St A)
    (Q : A → St → Prop) (s : St) : Prop :=
  match m s with
  | Done a s' => Q a s'
  | Exited c s' => E c s'
  | Undefined u => U u
  end.

(** Total form: no undefined behaviour.  Partial form: undefinedness is allowed. *)
Abbreviation wp := (wpx (λ _, False)).
Abbreviation wlp := (wpx (λ _, True)).

Create Rewrite HintDb cwp.

Section wpx_rules.
Context {St : Type} (U : ub → Prop) (E : Z → St → Prop).

Lemma wpx_ret {A} (a : A) (Q : A → St → Prop) s : wpx U E (mret a) Q s ↔ Q a s.
Proof. done. Qed.

Lemma wpx_bind {A B} (m : M St A) (k : A → M St B) (Q : B → St → Prop) s :
  wpx U E (m ≫= k) Q s ↔ wpx U E m (λ a, wpx U E (k a) Q) s.
Proof. unfold wpx, mbind, M_bind. by destruct (m s). Qed.

Lemma wpx_get (Q : St → St → Prop) s : wpx U E get Q s ↔ Q s s.
Proof. done. Qed.

Lemma wpx_gets {A} (f : St → A) (Q : A → St → Prop) s : wpx U E (gets f) Q s ↔ Q (f s) s.
Proof. done. Qed.

Lemma wpx_modify f (Q : unit → St → Prop) s : wpx U E (modify f) Q s ↔ Q tt (f s).
Proof. done. Qed.

Lemma wpx_exit {A} c (Q : A → St → Prop) s : wpx U E (exit c) Q s ↔ E c s.
Proof. done. Qed.

Lemma wpx_undef {A} u (Q : A → St → Prop) s : wpx U E (undef u) Q s ↔ U u.
Proof. done. Qed.

Lemma wpx_of_opt {A} u (o : option A) (Q : A → St → Prop) s :
  wpx U E (of_opt u o) Q s ↔ match o with Some a => Q a s | None => U u end.
Proof. by destruct o. Qed.

Lemma wpx_if {A} (b : bool) (m1 m2 : M St A) (Q : A → St → Prop) s :
  wpx U E (if b then m1 else m2) Q s ↔
    (b = true → wpx U E m1 Q s) ∧ (b = false → wpx U E m2 Q s).
Proof. destruct b; naive_solver. Qed.

Lemma wpx_when (b : bool) (m : M St unit) (Q : unit → St → Prop) s :
  wpx U E (when b m) Q s ↔ (b = true → wpx U E m Q s) ∧ (b = false → Q tt s).
Proof. unfold when. rewrite wpx_if. done. Qed.

Lemma wpx_mono {A} (m : M St A) (Q Q' : A → St → Prop) s :
  (∀ a s', Q a s' → Q' a s') → wpx U E m Q s → wpx U E m Q' s.
Proof. unfold wpx. intros H. destruct (m s); eauto. Qed.

(** Sequence rule: what holds between two statements. *)
Lemma wpx_seq {A B} (P : A → St → Prop) (m : M St A) (k : A → M St B) (Q : B → St → Prop) s :
  wpx U E m P s → (∀ a s', P a s' → wpx U E (k a) Q s') → wpx U E (m ≫= k) Q s.
Proof. intros Hm Hk. rewrite wpx_bind. eapply wpx_mono; [|exact Hm]. exact Hk. Qed.

(** Two statements that run the same. *)
Lemma wpx_eq {A} (m m' : M St A) (Q : A → St → Prop) s : m s = m' s → wpx U E m' Q s → wpx U E m Q s.
Proof. unfold wpx. by intros ->. Qed.

(** A statement whose result is known. *)
Lemma wpx_run {A B} (m : M St A) (k : A → M St B) (Q : B → St → Prop) s a s' :
  m s = Done a s' → wpx U E (k a) Q s' → wpx U E (m ≫= k) Q s.
Proof. intros Hm Hk. rewrite wpx_bind. unfold wpx at 1. by rewrite Hm. Qed.

(** Loop rule: an invariant indexed by the counter. *)
Lemma wpx_for (I : nat → St → Prop) i n body (Q : unit → St → Prop) s :
  I i s →
  (∀ k s', (i ≤ k < i + n)%nat → I k s' → wpx U E (body k) (λ _, I (S k)) s') →
  (∀ s', I (i + n)%nat s' → Q tt s') →
  wpx U E (for_ i n body) Q s.
Proof.
  revert i s. induction n as [|n IH]; intros i s HI Hbody HQ; simpl.
  - apply HQ. by rewrite Nat.add_0_r.
  - rewrite wpx_bind. eapply wpx_mono; [|apply Hbody; [lia|done]].
    intros [] s' Hs'. apply IH; [done| |].
    + intros k s'' Hk. apply Hbody. lia.
    + intros s''. replace (S i + n)%nat with (i + S n)%nat by lia. apply HQ.
Qed.
End wpx_rules.

#[export] Hint Rewrite @wpx_ret @wpx_bind @wpx_get @wpx_gets @wpx_modify @wpx_exit
  @wpx_undef @wpx_of_opt @wpx_when : cwp.

(** [wp_run H]: symbolic execution of the first statement by the equation [H]. *)
Tactic Notation "wp_run" uconstr(H) := (eapply wpx_run; [eapply H|]; cbv beta iota).

(** * Invariants of a state *)

(** [m] keeps [I], whether it returns or exits. *)
Definition preserves {St A} (I : St → Prop) (m : M St A) : Prop :=
  ∀ s, I s → wpx (λ _, True) (λ _, I) m (λ _, I) s.

Section preserves_rules.
Context {St : Type} (I : St → Prop).

Lemma preserves_ret {A} (a : A) : preserves I (mret a).
Proof. by intros s Hs. Qed.

Lemma preserves_get : preserves I get.
Proof. by intros s Hs. Qed.

Lemma preserves_exit {A} c : preserves I (exit (A:=A) c).
Proof. by intros s Hs. Qed.

Lemma preserves_undef {A} u : preserves I (undef (A:=A) u).
Proof. by intros s Hs. Qed.

Lemma preserves_of_opt {A} u (o : option A) : preserves I (of_opt u o).
Proof. destruct o; [apply preserves_ret|apply preserves_undef]. Qed.

Lemma preserves_rd {A} (l : list A) i : preserves I (rd l i).
Proof. apply preserves_of_opt. Qed.

Lemma preserves_modify f : (∀ s, I s → I (f s)) → preserves I (modify f).
Proof. intros Hf s Hs. by apply Hf. Qed.

Lemma preserves_bind {A B} (m : M St A) (k : A → M St B) :
  preserves I m → (∀ a, preserves I (k a)) → preserves I (m ≫= k).
Proof. intros Hm Hk s Hs. rewrite wpx_bind. eapply wpx_mono; [|by apply Hm]. intros a s' Hs'. by apply Hk. Qed.

(** After [s ← get], the rest may use that [I] holds of the state read. *)
Lemma preserves_read {B} (k : St → M St B) :
  (∀ s, I s → wpx (λ _, True) (λ _, I) (k s) (λ _, I) s) → preserves I (get ≫= k).
Proof. intros Hk s Hs. rewrite wpx_bind. by apply Hk. Qed.

Lemma preserves_if {A} (b : bool) (m1 m2 : M St A) :
  preserves I m1 → preserves I m2 → preserves I (if b then m1 else m2).
Proof. by destruct b. Qed.

Lemma preserves_when b m : preserves I m → preserves I (when b m).
Proof. intros Hm. destruct b; [done|apply preserves_ret]. Qed.

Lemma preserves_for i n body : (∀ k, preserves I (body k)) → preserves I (for_ i n body).
Proof.
  intros Hb. revert i. induction n as [|n IH]; intros i; simpl; [apply preserves_ret|].
  apply preserves_bind; auto.
Qed.
End preserves_rules.

Create HintDb preserves.
#[export] Hint Resolve preserves_ret preserves_get preserves_exit preserves_undef preserves_of_opt
  preserves_rd preserves_bind preserves_if preserves_when preserves_for : preserves.

Lemma preserves_Done {St A} (I : St → Prop) (m : M St A) s a s' :
  preserves I m → I s → m s = Done a s' → I s'.
Proof. intros Hm Hs Hr. specialize (Hm s Hs). unfold wpx in Hm. by rewrite Hr in Hm. Qed.

(** Running a sequence whose first part is known. *)
Lemma bind_Done {St A B} (m : M St A) (k : A → M St B) s a s' :
  m s = Done a s' → (m ≫= k) s = k a s'.
Proof. unfold mbind, M_bind. by intros ->. Qed.

Lemma bind_Done_inv {St A B} (m : M St A) (k : A → M St B) s b s' :
  (m ≫= k) s = Done b s' → ∃ a s1, m s = Done a s1 ∧ k a s1 = Done b s'.
Proof. unfold mbind, M_bind. destruct (m s) as [a s1|? ?|?]; [by eexists _, _|done..]. Qed.

Lemma bind_get {St B} (k : St → M St B) s : (get ≫= k) s = k s s.
Proof. done. Qed.
Lemma bind_modify {St B} f (k : unit → M St B) s : (modify f ≫= k) s = k tt (f s).
Proof. done. Qed.
Lemma bind_ret {St A B} (a : A) (k : A → M St B) s : (mret a ≫= k) s = k a s.
Proof. done. Qed.

Lemma bind_ext {St A B} (m : M St A) (f g : A → M St B) s :
  (∀ a s', f a s' = g a s') → (m ≫= f) s = (m ≫= g) s.
Proof. unfold mbind, M_bind. intros Hfg. destruct (m s); [apply Hfg|done..]. Qed.

Lemma bind_eq {St A B} (m m' : M St A) (f : A → M St B) s : m s = m' s → (m ≫= f) s = (m' ≫= f) s.
Proof. unfold mbind, M_bind. by intros ->. Qed.

Lemma bind_Undefined {St A B} (m : M St A) (k : A → M St B) s u :
  m s = Undefined u → (m ≫= k) s = Undefined u.
Proof. unfold mbind, M_bind. by intros ->. Qed.

Lemma bind_Exited {St A B} (m : M St A) (k : A → M St B) s c s' :
  m s = Exited c s' → (m ≫= k) s = Exited c s'.
Proof. unfold mbind, M_bind. by intros ->. Qed.

Lemma bind_cong {St A B} (m : M St A) (k k' : A → M St B) s :
  (∀ a s', k a s' = k' a s') → (m ≫= k) s = (m ≫= k') s.
Proof. intros H. unfold mbind, M_bind. by destruct (m s). Qed.

(** [run_step H]: execute the first statement of a sequence by the equation [H]. *)
Tactic Notation "run_step" uconstr(H) :=
  (rewrite (bind_Done _ _ _ _ _ H) || erewrite (bind_Done _ _ _ _ _) by (eapply H; eauto));
  cbv beta iota.

Lemma wpx_Done {St A} U E (m : M St A) Q s a s' :
  wpx U E m Q s → m s = Done a s' → Q a s'.
Proof. unfold wpx. intros H Hm. by rewrite Hm in H. Qed.

Lemma wp_not_undefined {St A} E (m : M St A) Q s u : wp E m Q s → m s ≠ Undefined u.
Proof. unfold wpx. intros H Heq. by rewrite Heq in H. Qed.

(** * Lists and arrays *)

Lemma first_index_le {A} (p : A → bool) l : (first_index p l ≤ length l)%nat.
Proof. induction l as [|x l IH]; simpl; [lia|]. destruct (p x); simpl; lia. Qed.

Lemma first_index_lookup {A} (p : A → bool) l :
  (first_index p l < length l)%nat →
  ∃ x, l !! first_index p l = Some x ∧ p x = true.
Proof.
  induction l as [|x l IH]; simpl; [lia|]. destruct (p x) eqn:Hp; [eauto|].
  intros H. apply IH. lia.
Qed.

Lemma first_index_not {A} (p : A → bool) l :
  first_index p l = length l ↔ ∀ x, x ∈ l → p x = false.
Proof.
  induction l as [|x l IH]; simpl; [set_solver|].
  destruct (p x) eqn:Hp.
  - split; [done|]. intros H. rewrite H in Hp; [done|left].
  - split.
    + intros H y [->|Hy]%elem_of_cons; [done|]. apply IH; [lia|done].
    + intros H. f_equal. apply IH. intros y Hy. apply H. set_solver.
Qed.

Lemma first_index_lt {A} (p : A → bool) l x :
  x ∈ l → p x = true → (first_index p l < length l)%nat.
Proof.
  intros Hx Hp. pose proof (first_index_le p l).
  destruct (decide (first_index p l = length l)) as [Heq|]; [|lia].
  pose proof (proj1 (first_index_not p l) Heq x Hx). congruence.
Qed.

Lemma first_index_min {A} (p : A → bool) l j x :
  (j < first_index p l)%nat → l !! j = Some x → p x = false.
Proof.
  revert j. induction l as [|y l IH]; intros j Hj Hx; simpl in *; [lia|].
  destruct (p y) eqn:Hp; [lia|]. destruct j as [|j]; [naive_solver|].
  simpl in Hx. eapply IH; [|done]. lia.
Qed.

Lemma first_index_unique {A} (p : A → bool) l j x :
  l !! j = Some x → p x = true →
  (∀ k y, l !! k = Some y → p y = true → k = j) → first_index p l = j.
Proof.
  intros Hx Hp Hu. assert (Hlt : (first_index p l < length l)%nat).
  { eapply first_index_lt; [by eapply list_elem_of_lookup_2|done]. }
  destruct (first_index_lookup _ _ Hlt) as (y & Hy & Hpy). by eapply Hu.
Qed.

Lemma arr_at_Some {A} (l : list A) i x :
  arr_at l i = Some x ↔ 0 ≤ i ∧ l !! Z.to_nat i = Some x.
Proof.
  unfold arr_at. destruct (Z.ltb_spec i 0); split; intros Hi; try lia; naive_solver lia.
Qed.

Lemma arr_at_nat {A} (l : list A) (i : nat) : arr_at l (Z.of_nat i) = l !! i.
Proof. unfold arr_at. destruct (Z.ltb_spec (Z.of_nat i) 0); [lia|]. by rewrite Nat2Z.id. Qed.

Lemma arr_set_nat {A} (l : list A) (i : nat) x :
  (i < length l)%nat → arr_set l (Z.of_nat i) x = Some (<[i := x]> l).
Proof.
  intros. unfold arr_set.
  destruct (Z.leb_spec 0 (Z.of_nat i)); [|lia].
  destruct (Z.ltb_spec (Z.of_nat i) (Z.of_nat (length l))); [|lia].
  simpl. by rewrite Nat2Z.id.
Qed.

Lemma arr_set_None {A} (l : list A) i x :
  arr_set l i x = None ↔ i < 0 ∨ Z.of_nat (length l) ≤ i.
Proof.
  unfold arr_set. destruct (Z.leb_spec 0 i), (Z.ltb_spec i (Z.of_nat (length l)));
    simpl; split; intros; (done || lia || naive_solver lia).
Qed.

(** Array accesses inside the bounds. *)
Lemma wpx_rd {St A B} U E (l : list A) (i : nat) x (k : A → M St B) Q s :
  l !! i = Some x → wpx U E (k x) Q s → wpx U E (rd l (Z.of_nat i) ≫= k) Q s.
Proof. intros Hi Hk. rewrite wpx_bind. unfold rd. by rewrite arr_at_nat, Hi. Qed.

Lemma wpx_arr_set {St A B} U E u (l : list A) (i : nat) x (k : list A → M St B) Q s :
  (i < length l)%nat → wpx U E (k (<[i := x]> l)) Q s →
  wpx U E (of_opt u (arr_set l (Z.of_nat i) x) ≫= k) Q s.
Proof. intros Hi Hk. rewrite wpx_bind. by rewrite arr_set_nat. Qed.

(** * Reachability *)

(** Reflexive transitive closure, steps added at the end. *)
Inductive reach {A} (R : A → A → Prop) (a : A) : A → Prop :=
  | reach_refl : reach R a a
  | reach_step b c : reach R a b → R b c → reach R a c.

Lemma reach_invariant {A} (R : A → A → Prop) (I : A → Prop) a b :
  I a → (∀ x y, I x → R x y → I y) → reach R a b → I b.
Proof. intros Ha Hstep H. induction H; eauto. Qed.

Lemma reach_trans {A} (R : A → A → Prop) a b c : reach R a b → reach R b c → reach R a c.
Proof. intros Hab Hbc. induction Hbc; [done|]. by eapply reach_step. Qed.

Lemma bind_assoc_M {St A B C} (m : M St A) (k : A → M St B) (k' : B → M St C) s :
  (m ≫= λ a, k a ≫= k') s = ((m ≫= k) ≫= k') s.
Proof. unfold mbind, M_bind. by destruct (m s). Qed.

Lemma for_app {St} i n1 n2 (body : nat → M St unit) s :
  for_ i (n1 + n2) body s = (for_ i n1 body;; for_ (i + n1) n2 body) s.
Proof.
  revert i s. induction n1 as [|n1 IH]; intros i s; cbn [for_ Nat.add].
  - by rewrite Nat.add_0_r.
  - rewrite <- bind_assoc_M. unfold mbind, M_bind. destruct (body i s) as [a s'|c s'|u]; [|done..].
    rewrite IH. by replace (S i + n1)%nat with (i + S n1)%nat by lia.
Qed.
