(* ===== verification/Memory.v ===== *)
(** Memory as a finite map of blocks, and linked lists in it: structures with the blocks
    they own and a pointer to the next one.  [IfMemory] builds the lists of interfaces
    there, [AddrInfo] those of getaddrinfo. *)

From S2P Require Export Prelude.

(** A block holds bytes or a structure; structures are of a type [N]. *)
Inductive block (N : Type) :=
  | Bytes (bs : list Z)
  | Node (n : N).
Arguments Bytes {N} bs.
Arguments Node {N} n.

Abbreviation mem N := (gmap nat (block N)).

Section memory.
Context {N : Type}.
Abbreviation block := (block N).
Abbreviation mem := (mem N).

Definition block_at (a : nat) : M mem block := h ← get; of_opt BadPointer (h !! a).
Definition set_block (a : nat) (b : block) : M mem unit := block_at a;; modify (λ h, <[a := b]> h).

Definition free_block (p : option nat) : M mem unit :=
  match p with
  | None => mret tt
  | Some a => block_at a;; modify (λ h, delete a h)
  end.

Lemma block_at_run a b (h : mem) : h !! a = Some b → block_at a h = Done b h.
Proof. unfold block_at. rewrite bind_get. by intros ->. Qed.

Lemma set_block_run a b b' (h : mem) : h !! a = Some b → set_block a b' h = Done tt (<[a := b']> h).
Proof. intros Hb. unfold set_block. by rewrite (bind_Done _ _ _ _ _ (block_at_run a b h Hb)). Qed.

Lemma free_block_run a b (h : mem) : h !! a = Some b → free_block (Some a) h = Done tt (delete a h).
Proof. intros Hb. unfold free_block. by rewrite (bind_Done _ _ _ _ _ (block_at_run a b h Hb)). Qed.

(** * Lists in memory *)

(** [owns fields ptrs m]: the pointers point to the addresses of the fields, in
    blocks of their own; a field that is not there is NULL. *)
Inductive owns : list (option (list Z)) → list (option nat) → mem → Prop :=
  | owns_nil : owns [] [] ∅
  | owns_null fs ps m : owns fs ps m → owns (None :: fs) (None :: ps) m
  | owns_bytes fs ps m a bs :
      owns fs ps m → m !! a = None → owns (Some bs :: fs) (Some a :: ps) (<[a := Bytes bs]> m).

Lemma owns_snoc_null fs ps m : owns fs ps m → owns (fs ++ [None]) (ps ++ [None]) m.
Proof. induction 1; cbn [app]; repeat (done || constructor). Qed.

Lemma owns_snoc fs ps m a bs :
  owns fs ps m → m !! a = None → owns (fs ++ [Some bs]) (ps ++ [Some a]) (<[a := Bytes bs]> m).
Proof.
  induction 1 as [|fs ps m Ho IH|fs ps m b bs' Ho IH Hb]; intros Ha; cbn [app]; [repeat constructor|constructor; auto|].
  apply lookup_insert_None in Ha as [Ha Hne]. rewrite insert_insert_ne by done. constructor; [auto|].
  by rewrite lookup_insert_ne.
Qed.

Section lists.
(** A structure with the addresses it owns and the pointer to the next one. *)
Context {A : Type} (node : A → list (option nat) → option nat → block) (fields : A → list (option (list Z))).

(** The structures of [l], linked from [p] to [q], and nothing else are the blocks of [m]. *)
Inductive seg : list A → option nat → option nat → mem → Prop :=
  | seg_nil p : seg [] p p ∅
  | seg_cons x l a q r ps mf m :
      owns (fields x) ps mf → seg l q r m → mf ##ₘ m → (mf ∪ m) !! a = None →
      seg (x :: l) (Some a) r (<[a := node x ps q]> (mf ∪ m)).

(** A list the loop works on: the member it writes next is that of the last structure. *)
Inductive opened : list A → option nat → option nat → mem → Prop :=
  | opened_nil : opened [] None None ∅
  | opened_snoc l x head a ps mf m :
      seg l head (Some a) m → owns (fields x) ps mf → m ##ₘ mf → (m ∪ mf) !! a = None →
      opened (l ++ [x]) head (Some a) (<[a := node x ps None]> (m ∪ mf)).

Lemma seg_snoc l x p a ps q mf m :
  seg l p (Some a) m → owns (fields x) ps mf → m ##ₘ mf → (m ∪ mf) !! a = None →
  seg (l ++ [x]) p q (<[a := node x ps q]> (m ∪ mf)).
Proof.
  remember (Some a) as sa. intros Hs. induction Hs as [p|y l b q' r ps' mf' m Ho Hs IH Hd Hb]; intros Hx Hdx Ha; subst.
  - rewrite map_empty_union, <- (map_union_empty mf). cbn [app]. constructor; [done|constructor|solve_map_disjoint|].
    rewrite map_union_empty. by rewrite map_empty_union in Ha.
  - cbn [app]. apply map_disjoint_insert_l in Hdx as [Hbx Hdx]. apply map_disjoint_union_l in Hdx as [Hdx1 Hdx2].
    apply lookup_union_None in Ha as [Ha Hax]. apply lookup_insert_None in Ha as [Ha Hne].
    apply lookup_union_None in Ha as [Ha1 Ha2]. apply lookup_union_None in Hb as [Hb1 Hb2].
    rewrite <- insert_union_l, insert_insert_ne, <- (map_union_assoc mf' m mf), insert_union_r by done.
    constructor; [done|apply IH; [done|done|done|by rewrite lookup_union_None]| |].
    + apply map_disjoint_insert_r. split; [done|]. by apply map_disjoint_union_r.
    + rewrite lookup_union_None, lookup_insert_ne, lookup_union_None by done. done.
Qed.

Lemma opened_seg l head slot m : opened l head slot m → seg l head None m.
Proof. intros [|l' x hd a ps mf m' Hs Ho Hd Ha]; [constructor|by apply seg_snoc]. Qed.

(** The structure of [x] at [a] with the blocks it owns. *)
Definition cell (x : A) (a : nat) (q : option nat) (c : mem) : Prop :=
  ∃ ps mf, owns (fields x) ps mf ∧ mf !! a = None ∧ c = <[a := node x ps q]> mf.

Lemma seg_cell x l a q r c m : cell x a q c → seg l q r m → c ##ₘ m → seg (x :: l) (Some a) r (c ∪ m).
Proof.
  intros (ps & mf & Ho & Ha & ->) Hs [Hm Hd]%map_disjoint_insert_l. rewrite <- insert_union_l.
  constructor; [done..|by rewrite lookup_union_None].
Qed.

Lemma seg_cons_inv x l p r M :
  seg (x :: l) p r M → ∃ a q c m, p = Some a ∧ cell x a q c ∧ seg l q r m ∧ c ##ₘ m ∧ M = c ∪ m.
Proof.
  inversion 1 as [|x' l' a q r' ps mf m Ho Hs Hd Ha]; subst. apply lookup_union_None in Ha as [Ha1 Ha2].
  exists a, q, (<[a := node x ps q]> mf), m. split_and!; [done|by exists ps, mf|done| |].
  - by apply map_disjoint_insert_l.
  - by rewrite insert_union_l.
Qed.

Lemma opened_cell l x head a c m :
  seg l head (Some a) m → cell x a None c → m ##ₘ c → opened (l ++ [x]) head (Some a) (m ∪ c).
Proof.
  intros Hs (ps & mf & Ho & Ha & ->) [Hm Hd]%map_disjoint_insert_r. rewrite <- insert_union_r by done.
  constructor; [done..|by rewrite lookup_union_None].
Qed.

Lemma seg_size l p q m : seg l p q m → (length l ≤ size m)%nat.
Proof.
  induction 1 as [|x l a q r ps mf m Ho Hs IH Hd Ha]; [done|]. cbn [length].
  rewrite map_size_insert_None by done. rewrite map_size_disj_union by done. lia.
Qed.
End lists.

Section link.
Context {A : Type} (node : A → list (option nat) → option nat → block) (fields : A → list (option (list Z))).

(** Linking the structure at [b] behind the last one, through the variable or the member. *)
Lemma opened_link l head slot m b :
  opened node fields l head slot m →
  match slot with
  | None => m = ∅ ∧ seg node fields l (Some b) (Some b) ∅
  | Some a => ∃ x ps, m !! a = Some (node x ps None) ∧ seg node fields l head (Some b) (<[a := node x ps (Some b)]> m)
  end.
Proof.
  intros [|l' x hd a ps mf m' Hs Ho Hd Ha]; [split; [done|constructor]|].
  exists x, ps. rewrite lookup_insert_eq, insert_insert_eq. split; [done|]. by apply seg_snoc.
Qed.

Lemma opened_last l x head a ps mf m h :
  seg node fields l head (Some a) m → owns (fields x) ps mf → m ##ₘ mf → (m ∪ mf) ##ₘ h → (m ∪ mf ∪ h) !! a = None →
  let m' := <[a := node x ps None]> (m ∪ mf) in
  <[a := node x ps None]> (m ∪ mf ∪ h) = m' ∪ h ∧ m' ##ₘ h ∧ opened node fields (l ++ [x]) head (Some a) m'.
Proof.
  intros Hs Ho Hd Hh Ha. apply lookup_union_None in Ha as [Ha Hah]. cbn zeta. rewrite insert_union_l. split; [done|]. split.
  - by apply map_disjoint_insert_l.
  - by constructor.
Qed.
End link.

Section link_at.
Context {A : Type} (node : A → list (option nat) → option nat → block) (fields : A → list (option (list Z))).

(** The member of the last structure is written while the new one is at [a]. *)
Lemma link_at l head b m h a n :
  opened node fields l head (Some b) m → m ##ₘ h → (m ∪ h) !! a = None →
  ∃ x ps, (<[a := n]> (m ∪ h)) !! b = Some (node x ps None) ∧
  ∃ m', <[b := node x ps (Some a)]> (<[a := n]> (m ∪ h)) = <[a := n]> (m' ∪ h) ∧
        seg node fields l head (Some a) m' ∧ m' ##ₘ h ∧ (m' ∪ h) !! a = None.
Proof.
  intros Ho Hd Ha. destruct (opened_link node fields l head (Some b) m a Ho) as (x & ps & Hb & Hs).
  assert (Hbh : h !! b = None) by (eapply map_disjoint_Some_l; eauto).
  assert (Hba : b ≠ a) by (intros ->; by rewrite (lookup_union_Some_l _ _ _ _ Hb) in Ha).
  exists x, ps. split; [rewrite lookup_insert_ne by done; by apply lookup_union_Some_l|].
  exists (<[b := node x ps (Some a)]> m). split_and!; [|done| |].
  - by rewrite insert_insert_ne, insert_union_l by done.
  - by apply map_disjoint_insert_l.
  - rewrite <- insert_union_l. by rewrite lookup_insert_ne.
Qed.
End link_at.

(** Freeing the first of the addresses the structure at [a] owns. *)
Lemma free_owned f fs p ps mf a n (h : mem) :
  owns (f :: fs) (p :: ps) mf → mf ##ₘ h → (mf ∪ h) !! a = None →
  ∃ mf', free_block p (<[a := n]> (mf ∪ h)) = Done tt (<[a := n]> (mf' ∪ h)) ∧
         owns fs ps mf' ∧ mf' ##ₘ h ∧ (mf' ∪ h) !! a = None.
Proof.
  intros Ho Hd Ha. inversion Ho as [|fs' ps' m' Ho'|fs' ps' m' b bs Ho' Hb]; subst; [by exists mf|].
  apply map_disjoint_insert_l in Hd as [Hbh Hd]. apply lookup_union_None in Ha as [Ha Hah].
  apply lookup_insert_None in Ha as [Ha Hne]. exists m'. split_and!; [|done|done|by rewrite lookup_union_None].
  rewrite <- insert_union_l, insert_insert_ne by done. rewrite (free_block_run b (Bytes bs)) by apply lookup_insert_eq.
  rewrite delete_insert_id; [done|]. by rewrite lookup_insert_ne, lookup_union_None by done.
Qed.

Lemma owns_inv f fs ps m : owns (f :: fs) ps m → ∃ p ps', ps = p :: ps'.
Proof. inversion 1; subst; eauto. Qed.
Lemma owns_nil_inv ps m : owns [] ps m → ps = [] ∧ m = ∅.
Proof. by inversion 1. Qed.

Lemma seg_inv {A} (node : A → list (option nat) → option nat → block) fields x l p m (h : mem) :
  seg node fields (x :: l) p None m → m ##ₘ h →
  ∃ a ps q mf m', p = Some a ∧ m ∪ h = <[a := node x ps q]> (mf ∪ (m' ∪ h)) ∧ owns (fields x) ps mf ∧
    seg node fields l q None m' ∧ m' ##ₘ h ∧ mf ##ₘ m' ∪ h ∧ (mf ∪ (m' ∪ h)) !! a = None.
Proof.
  inversion 1 as [|x' l' a q r ps mf m' Ho Hs Hd Ha]; subst. intros Hh.
  apply map_disjoint_insert_l in Hh as [Hah Hh]. apply map_disjoint_union_l in Hh as [Hh1 Hh2].
  apply lookup_union_None in Ha as [Ha1 Ha2]. exists a, ps, q, mf, m'. split_and!; try done.
  - by rewrite <- insert_union_l, map_union_assoc.
  - by apply map_disjoint_union_r.
  - by rewrite !lookup_union_None.
Qed.

End memory.
