(* ===== verification/CInt.v ===== *)
(** C integers of the programs' platform (x86, gcc): 16- and 32-bit widths with
    their wrap-around, little-endian byte order, and the byte-order functions
    [htons], [ntohs], [htonl], [ntohl] of <arpa/inet.h>. *)

From S2P Require Export Prelude.

(** * Widths *)

Definition u8 (x : Z) : Z := x mod 2 ^ 8.
Definition u16 (x : Z) : Z := x mod 2 ^ 16.
Definition u32 (x : Z) : Z := x mod 2 ^ 32.

(** Conversion to [int] (two's complement, as gcc defines it). *)
Definition s32 (x : Z) : Z :=
  if u32 x <? 2 ^ 31 then u32 x else u32 x - 2 ^ 32.

Definition INT_MAX : Z := 2 ^ 31 - 1.
Definition INT_MIN : Z := - 2 ^ 31.
Definition is_int (x : Z) : bool := (INT_MIN <=? x) && (x <=? INT_MAX).

(** A signed operation: its exact result, undefined when it is not an [int]. *)
Definition int_op {St} (x : Z) : M St Z :=
  if is_int x then mret x else undef SignedOverflow.

(** * Little-endian bytes *)

Fixpoint le_split (n : nat) (z : Z) : list Z :=
  match n with
  | O => []
  | S n' => z mod 256 :: le_split n' (z / 256)
  end.

Fixpoint le_combine (bs : list Z) : Z :=
  match bs with
  | [] => 0
  | b :: bs' => b + 256 * le_combine bs'
  end.

Definition is_byte (b : Z) : Prop := 0 ≤ b < 256.

(** An [int] and a [short] in memory. *)
Definition st32 (x : Z) : list Z := le_split 4 (u32 x).
Definition st16 (x : Z) : list Z := le_split 2 (u16 x).

(** * Network byte order *)

Definition bswap (n : nat) (z : Z) : Z := le_combine (rev (le_split n z)).

Definition htons (x : Z) : Z := bswap 2 (u16 x).
Definition ntohs (x : Z) : Z := bswap 2 (u16 x).
Definition htonl (x : Z) : Z := bswap 4 (u32 x).
Definition ntohl (x : Z) : Z := bswap 4 (u32 x).

(** An [int] object that is assigned [htonl(x)]. *)
Definition htonl_int (x : Z) : Z := s32 (htonl x).

(** * Lemmas *)

Lemma u32_range x : 0 ≤ u32 x < 2 ^ 32.
Proof. unfold u32. apply Z.mod_pos_bound. lia. Qed.
Lemma u16_range x : 0 ≤ u16 x < 2 ^ 16.
Proof. unfold u16. apply Z.mod_pos_bound. lia. Qed.
Lemma u32_small x : 0 ≤ x < 2 ^ 32 → u32 x = x.
Proof. apply Z.mod_small. Qed.
Lemma u16_small x : 0 ≤ x < 2 ^ 16 → u16 x = x.
Proof. apply Z.mod_small. Qed.
Lemma u32_idem x : u32 (u32 x) = u32 x.
Proof. apply Z.mod_mod. lia. Qed.

Lemma s32_range x : INT_MIN ≤ s32 x ≤ INT_MAX.
Proof.
  unfold s32, INT_MIN, INT_MAX. pose proof (u32_range x).
  destruct (Z.ltb_spec (u32 x) (2 ^ 31)); lia.
Qed.

Lemma s32_int x : INT_MIN ≤ x ≤ INT_MAX → s32 x = x.
Proof.
  unfold INT_MIN, INT_MAX, s32, u32. intros H.
  destruct (decide (0 ≤ x)).
  - rewrite Z.mod_small by lia. destruct (Z.ltb_spec x (2 ^ 31)); lia.
  - assert (x mod 2 ^ 32 = x + 2 ^ 32) as ->.
    { rewrite <- (Z.mod_small (x + 2 ^ 32) (2 ^ 32)) by lia.
      by rewrite <- (Z.mod_add x 1 (2 ^ 32)) by lia. }
    destruct (Z.ltb_spec (x + 2 ^ 32) (2 ^ 31)); lia.
Qed.

Lemma u32_s32 x : u32 (s32 x) = u32 x.
Proof.
  unfold s32. destruct (Z.ltb_spec (u32 x) (2 ^ 31)); [apply u32_idem|].
  unfold u32 at 1. rewrite <- (Z.mod_add (u32 x - 2 ^ 32) 1 (2 ^ 32)) by lia.
  replace (u32 x - 2 ^ 32 + 1 * 2 ^ 32) with (u32 x) by lia. apply u32_idem.
Qed.

Lemma s32_u32 x : s32 (u32 x) = s32 x.
Proof. unfold s32. by rewrite u32_idem. Qed.

Lemma u32_add_l x y : u32 (u32 x + y) = u32 (x + y).
Proof. unfold u32. by rewrite Zplus_mod_idemp_l. Qed.

Lemma s32_eq x y : u32 x = u32 y → s32 x = s32 y.
Proof. unfold s32. by intros ->. Qed.

Lemma length_le_split n z : length (le_split n z) = n.
Proof. revert z. induction n; intros; simpl; auto. Qed.

Lemma le_split_bytes n z : Forall is_byte (le_split n z).
Proof.
  revert z. induction n; intros; simpl; constructor; auto.
  apply Z.mod_pos_bound. lia.
Qed.

Lemma le_combine_range bs :
  Forall is_byte bs → 0 ≤ le_combine bs < 256 ^ Z.of_nat (length bs).
Proof.
  induction 1 as [|b bs Hb Hbs IH]; simpl; [lia|].
  rewrite Nat2Z.inj_succ, Z.pow_succ_r by lia. unfold is_byte in Hb. lia.
Qed.

Lemma le_combine_split n z : le_combine (le_split n z) = z mod 256 ^ Z.of_nat n.
Proof.
  revert z. induction n as [|n IH]; intros z; simpl.
  - by rewrite Z.mod_1_r.
  - rewrite IH, Nat2Z.inj_succ, Z.pow_succ_r by lia.
    rewrite Z.rem_mul_r by (try apply Z.pow_nonzero; lia). lia.
Qed.

Lemma le_split_combine bs : Forall is_byte bs → le_split (length bs) (le_combine bs) = bs.
Proof.
  induction 1 as [|b bs Hb Hbs IH]; simpl; [done|]. unfold is_byte in Hb.
  rewrite Z.mul_comm, Z_mod_plus_full, Z.mod_small by lia.
  rewrite Z.div_add, Z.div_small, Z.add_0_l by lia. by rewrite IH.
Qed.

Lemma bswap_range n z : 0 ≤ bswap n z < 256 ^ Z.of_nat n.
Proof.
  unfold bswap. pose proof (le_combine_range (rev (le_split n z))) as H.
  rewrite length_rev, length_le_split in H. apply H.
  apply List.Forall_rev, le_split_bytes.
Qed.

Lemma bswap_involutive n z : bswap n (bswap n z) = z mod 256 ^ Z.of_nat n.
Proof.
  unfold bswap. set (l := rev (le_split n z)).
  assert (Hn : n = length l) by (unfold l; by rewrite length_rev, length_le_split).
  rewrite Hn at 1. rewrite le_split_combine.
  - unfold l. rewrite rev_involutive. apply le_combine_split.
  - unfold l. apply List.Forall_rev, le_split_bytes.
Qed.

Lemma bswap_combine bs : Forall is_byte bs → bswap (length bs) (le_combine bs) = le_combine (rev bs).
Proof. intros Hb. unfold bswap. by rewrite le_split_combine. Qed.

Lemma htonl_range x : 0 ≤ htonl x < 2 ^ 32.
Proof. apply (bswap_range 4). Qed.
Lemma ntohl_range x : 0 ≤ ntohl x < 2 ^ 32.
Proof. apply (bswap_range 4). Qed.
Lemma htons_range x : 0 ≤ htons x < 2 ^ 16.
Proof. apply (bswap_range 2). Qed.
Lemma ntohs_range x : 0 ≤ ntohs x < 2 ^ 16.
Proof. apply (bswap_range 2). Qed.

Lemma ntohl_htonl x : ntohl (htonl x) = u32 x.
Proof.
  unfold ntohl. rewrite u32_small by apply htonl_range. unfold htonl.
  rewrite bswap_involutive. apply u32_idem.
Qed.

Lemma ntohs_htons x : ntohs (htons x) = u16 x.
Proof.
  unfold ntohs. rewrite u16_small by apply htons_range. unfold htons.
  rewrite bswap_involutive. apply (Z.mod_mod _ (2 ^ 16)). lia.
Qed.

Lemma ntohl_s32 x : ntohl (s32 x) = ntohl x.
Proof. unfold ntohl. by rewrite u32_s32. Qed.

Lemma ntohl_htonl_int x : ntohl (htonl_int x) = u32 x.
Proof. unfold htonl_int. by rewrite ntohl_s32, ntohl_htonl. Qed.

Lemma htonl_int_range x : INT_MIN ≤ htonl_int x ≤ INT_MAX.
Proof. apply s32_range. Qed.

(** The 16-bit swap, written out. *)
Lemma htons_bytes x : htons x = (u16 x mod 256) * 256 + u16 x / 256.
Proof.
  unfold htons, bswap. simpl. pose proof (u16_range x).
  rewrite (Z.mod_small (u16 x / 256)); [lia|].
  split; [apply Z.div_pos; lia|apply Z.div_lt_upper_bound; lia].
Qed.

Lemma htons_small x : 0 ≤ x < 256 → htons x = 256 * x.
Proof.
  intros. rewrite htons_bytes, u16_small by lia.
  rewrite Z.mod_small, Z.div_small by lia. lia.
Qed.

Lemma ntohs_bytes x : ntohs x = (u16 x mod 256) * 256 + u16 x / 256.
Proof. apply htons_bytes. Qed.

(** The swap moves a port number out of the range of port numbers. *)
Lemma htonl_port p : 1 ≤ p < 65536 → 65536 ≤ htonl p.
Proof.
  intros Hp. unfold htonl, bswap. rewrite u32_small by lia. simpl.
  pose proof (Z.div_mod p 256 ltac:(lia)) as Hdm.
  pose proof (Z.mod_pos_bound p 256 ltac:(lia)).
  assert (0 ≤ p / 256 < 256).
  { split; [apply Z.div_pos; lia|apply Z.div_lt_upper_bound; lia]. }
  rewrite (Z.div_small (p / 256) 256) by lia. rewrite (Z.mod_small (p / 256)) by lia.
  rewrite Z.div_small, Z.mod_small by lia. lia.
Qed.

#[global] Opaque bswap.

Create Rewrite HintDb cint.
#[export] Hint Rewrite u32_idem u32_s32 s32_u32 ntohl_htonl ntohl_s32 ntohl_htonl_int
  ntohs_htons : cint.

Lemma int_op_ok {St} x (s : St) : INT_MIN ≤ x ≤ INT_MAX → int_op x s = Done x s.
Proof.
  unfold int_op, is_int. intros. destruct (Z.leb_spec INT_MIN x), (Z.leb_spec x INT_MAX); try lia.
  done.
Qed.

Lemma preserves_int_op {St} (I : St → Prop) x : preserves I (int_op x).
Proof. unfold int_op. destruct (is_int x); [apply preserves_ret|apply preserves_undef]. Qed.
#[export] Hint Resolve preserves_int_op : preserves.

Lemma wpx_int_op {St B} U E x (k : Z → M St B) Q s :
  INT_MIN ≤ x ≤ INT_MAX → wpx U E (k x) Q s → wpx U E (int_op x ≫= k) Q s.
Proof.
  intros Hx Hk. rewrite wpx_bind. unfold int_op, is_int.
  by rewrite (proj2 (Z.leb_le _ _) (proj1 Hx)), (proj2 (Z.leb_le _ _) (proj2 Hx)).
Qed.
