(* ===== verification/CStr.v ===== *)
(** NUL-terminated C strings, the character arrays that hold them, and the parts of
    the C library the programs use on them: [strcpy], [strcmp], [sprintf] and
    [sscanf] with the conversions %s and %d.

    A C string is a Coq [string] (its bytes before the terminator).  The bytes of an
    array after the terminator are written as 0 when a structure is laid out in
    memory; no operation of the programs reads them. *)

From S2P Require Export CInt.
From Stdlib Require Import DecimalString DecimalZ DecimalPos DecimalFacts.
From Stdlib Require Export Ascii.

(** * Copies and comparisons *)

(** [strcpy] into an array of [cap] characters. *)
Definition strcpy {St} (cap : nat) (s : string) : M St string :=
  if (String.length s <? cap)%nat then mret s else undef BufferOverflow.

(** [strcmp(s, t) == 0]. *)
Definition streq (s t : string) : bool := String.eqb s t.

(** * Character arrays in memory *)

Definition char_byte (c : ascii) : Z := Z.of_N (N_of_ascii c).
Definition byte_char (b : Z) : ascii := ascii_of_N (Z.to_N b).

Fixpoint str_bytes (s : string) : list Z :=
  match s with
  | EmptyString => []
  | String c s' => char_byte c :: str_bytes s'
  end.

(** The array of [cap] bytes that holds the string [s]. *)
Definition enc_str (cap : nat) (s : string) : list Z :=
  str_bytes s ++ replicate (cap - String.length s) 0.

(** The string an array holds, if it has a terminator. *)
Fixpoint dec_str (bs : list Z) : option string :=
  match bs with
  | [] => None
  | b :: bs' => if b =? 0 then Some EmptyString
                else String (byte_char b) <$> dec_str bs'
  end.

(** Memory used as a receive buffer: [recvfrom] overwrites a prefix and writes no
    terminator, the bytes behind it stay. *)
Fixpoint overlay (msg buf : string) : string :=
  match msg, buf with
  | String c m, String _ b => String c (overlay m b)
  | EmptyString, _ => buf
  | _, EmptyString => EmptyString
  end.

(** The C string that starts at the beginning of a buffer. *)
Fixpoint until_nul (buf : string) : option string :=
  match buf with
  | EmptyString => None
  | String c b => if Ascii.eqb c Ascii.zero then Some EmptyString
                  else String c <$> until_nul b
  end.

(** * Formatted output and input *)

Definition is_space (c : ascii) : bool :=
  let n := nat_of_ascii c in ((9 <=? n) && (n <=? 13) || (n =? 32))%nat.

(** %d of [printf]. *)
Definition print_d (z : Z) : string :=
  match Z.to_int z with
  | Decimal.Pos d => NilEmpty.string_of_uint d
  | Decimal.Neg d => String "-" (NilEmpty.string_of_uint d)
  end.

Fixpoint skip_space (s : string) : string :=
  match s with
  | String c s' => if is_space c then skip_space s' else s
  | EmptyString => EmptyString
  end.

(** The longest prefix without white space, and the rest. *)
Fixpoint span_word (s : string) : string * string :=
  match s with
  | EmptyString => (EmptyString, EmptyString)
  | String c s' => if is_space c then (EmptyString, s)
                   else let '(w, r) := span_word s' in (String c w, r)
  end.

(** The longest prefix of digits, and the rest. *)
Fixpoint span_uint (s : string) : Decimal.uint * string :=
  match s with
  | EmptyString => (Decimal.Nil, EmptyString)
  | String c s' =>
      let '(d, r) := span_uint s' in
      match uint_of_char c (Some d) with
      | Some d' => (d', r)
      | None => (Decimal.Nil, s)
      end
  end.

(** %s of [sscanf]: the item and the input left, [None] on an input failure. *)
Definition scan_s (s : string) : option (string * string) :=
  match span_word (skip_space s) with
  | (EmptyString, _) => None
  | p => Some p
  end.

(** %d of [sscanf]. *)
Definition scan_d (s : string) : option (Z * string) :=
  let t := skip_space s in
  let '(neg, t') := match t with
                    | String c t1 => if Ascii.eqb c "-" then (true, t1)
                                     else if Ascii.eqb c "+" then (false, t1) else (false, t)
                    | EmptyString => (false, t)
                    end in
  match span_uint t' with
  | (Decimal.Nil, _) => None
  | (d, r) => Some (if neg then - Z.of_uint d else Z.of_uint d, r)
  end.

(** * Lemmas *)

(** A word: what one %s reads back. *)
Fixpoint no_space (s : string) : bool :=
  match s with
  | EmptyString => true
  | String c s' => negb (is_space c) && no_space s'
  end.
Definition is_word (s : string) : bool := no_space s && negb (streq s EmptyString).

Fixpoint no_nul (s : string) : bool :=
  match s with
  | EmptyString => true
  | String c s' => negb (Ascii.eqb c Ascii.zero) && no_nul s'
  end.

(** The input [r] does not continue a number. *)
Definition ends_number (r : string) : bool :=
  match r with
  | EmptyString => true
  | String c _ => match uint_of_char c (Some Decimal.Nil) with Some _ => false | None => true end
  end.

Definition starts_space (r : string) : bool :=
  match r with EmptyString => true | String c _ => is_space c end.

Lemma strcpy_run {St} cap s (st : St) :
  (String.length s < cap)%nat → strcpy cap s st = Done s st.
Proof. intros. unfold strcpy. by destruct (Nat.ltb_spec (String.length s) cap); [|lia]. Qed.

Lemma streq_eq s t : streq s t = true ↔ s = t.
Proof. apply String.eqb_eq. Qed.
Lemma streq_neq s t : streq s t = false ↔ s ≠ t.
Proof. apply String.eqb_neq. Qed.
Lemma streq_refl s : streq s s = true.
Proof. by apply streq_eq. Qed.

Lemma str_app_nil_r s : s +:+ EmptyString = s.
Proof. induction s as [|c s IH]; [done|]. change (String c (s +:+ EmptyString) = String c s). by rewrite IH. Qed.
Lemma str_app_assoc s t u : (s +:+ t) +:+ u = s +:+ (t +:+ u).
Proof.
  induction s as [|c s IH]; [done|].
  change (String c ((s +:+ t) +:+ u) = String c (s +:+ (t +:+ u))). by rewrite IH.
Qed.

Lemma char_byte_range c : is_byte (char_byte c).
Proof.
  unfold is_byte, char_byte. pose proof (N_ascii_bounded c). lia.
Qed.

Lemma byte_char_byte c : byte_char (char_byte c) = c.
Proof. unfold byte_char, char_byte. by rewrite N2Z.id, ascii_N_embedding. Qed.

Lemma length_str_bytes s : length (str_bytes s) = String.length s.
Proof. induction s; simpl; auto. Qed.

Lemma length_enc_str cap s :
  (String.length s ≤ cap)%nat → length (enc_str cap s) = cap.
Proof.
  intros. unfold enc_str. rewrite length_app, length_replicate, length_str_bytes. lia.
Qed.

Lemma enc_str_bytes cap s : Forall is_byte (enc_str cap s).
Proof.
  unfold enc_str. apply Forall_app. split.
  - induction s; simpl; constructor; auto using char_byte_range.
  - apply Forall_replicate. unfold is_byte. lia.
Qed.

Lemma dec_enc_str cap s rest :
  (String.length s < cap)%nat → no_nul s = true →
  dec_str (enc_str cap s ++ rest) = Some s.
Proof.
  unfold enc_str. revert cap. induction s as [|c s IH]; intros cap Hlen Hnul; simpl in *.
  - destruct cap as [|cap]; [lia|]. done.
  - apply andb_true_iff in Hnul as [Hc Hnul].
    destruct (Z.eqb_spec (char_byte c) 0) as [H0|_].
    + rewrite <- (byte_char_byte c), H0 in Hc. done.
    + destruct cap as [|cap]; [lia|]. rewrite Nat.sub_succ, IH by (done || lia).
      simpl. by rewrite byte_char_byte.
Qed.

Lemma skip_space_word w r : is_word w = true → skip_space (w +:+ r) = w +:+ r.
Proof.
  unfold is_word. destruct w as [|c w]; [done|]. simpl.
  destruct (is_space c); [done|]. done.
Qed.

Lemma span_word_app w r :
  no_space w = true → starts_space r = true → span_word (w +:+ r) = (w, r).
Proof.
  intros Hw Hr. induction w as [|c w IH]; simpl in *.
  - destruct r as [|c r]; simpl in *; [done|]. by rewrite Hr.
  - apply andb_true_iff in Hw as [Hc%negb_true_iff Hw]. rewrite Hc, IH by done. done.
Qed.

Lemma scan_s_word w r :
  is_word w = true → starts_space r = true → scan_s (w +:+ r) = Some (w, r).
Proof.
  intros Hw Hr. unfold scan_s. rewrite skip_space_word by done.
  apply andb_true_iff in Hw as [Hs Hne]. rewrite span_word_app by done.
  by destruct w.
Qed.

Lemma scan_s_space s : scan_s (String " " s) = scan_s s.
Proof. done. Qed.
Lemma scan_d_space s : scan_d (String " " s) = scan_d s.
Proof. done. Qed.

Lemma span_uint_app d r :
  ends_number r = true → span_uint (NilEmpty.string_of_uint d +:+ r) = (d, r).
Proof.
  intros Hr. induction d; simpl; [|by rewrite IHd..].
  destruct r as [|c r]; [done|]. simpl in *. destruct (span_uint r) as [d r'].
  destruct c as [[][][][][][][][]]; simpl in *; done.
Qed.

Lemma print_d_head d :
  d ≠ Decimal.Nil →
  ∃ c s, NilEmpty.string_of_uint d = String c s ∧
         is_space c = false ∧ Ascii.eqb c "-" = false ∧ Ascii.eqb c "+" = false.
Proof. destruct d; intros; [done|eexists _, _; split; [reflexivity|done]..]. Qed.

Lemma to_int_nonnil z :
  match Z.to_int z with Decimal.Pos d | Decimal.Neg d => d ≠ Decimal.Nil end.
Proof. destruct z; simpl; try done; apply Unsigned.to_uint_nonnil. Qed.

Lemma scan_d_print z r :
  ends_number r = true → scan_d (print_d z +:+ r) = Some (z, r).
Proof.
  intros Hr. unfold print_d. pose proof (to_int_nonnil z) as Hn.
  pose proof (DecimalZ.of_to z) as Hz. destruct (Z.to_int z) as [d|d].
  - destruct (print_d_head d Hn) as (c & s & Hs & H1 & H2 & H3).
    unfold scan_d. rewrite Hs. simpl. rewrite H1, H2, H3.
    change (String c (s +:+ r)) with (String c s +:+ r). rewrite <- Hs, span_uint_app by done.
    destruct d; [done|by rewrite <- Hz..].
  - unfold scan_d. simpl. rewrite span_uint_app by done.
    destruct d; [done|by rewrite <- Hz..].
Qed.

Lemma length_str_app s t : String.length (s +:+ t) = (String.length s + String.length t)%nat.
Proof.
  induction s as [|c s IH]; [done|].
  change (S (String.length (s +:+ t)) = S (String.length s) + String.length t)%nat. lia.
Qed.

Lemma length_print_pos p : (String.length (NilEmpty.string_of_uint (Pos.to_uint p)) ≤ Pos.size_nat p)%nat.
Proof.
  assert (H1 : ∀ d, String.length (NilEmpty.string_of_uint d) = Decimal.nb_digits d)
    by (induction d; simpl; congruence).
  assert (H2 : ∀ d, (Decimal.nb_digits (Decimal.Little.double d) ≤ S (Decimal.nb_digits d) ∧
                    Decimal.nb_digits (Decimal.Little.succ_double d) ≤ S (Decimal.nb_digits d))%nat)
    by (induction d; simpl; lia).
  rewrite H1. unfold Pos.to_uint. rewrite DecimalFacts.nb_digits_rev.
  induction p as [p IH|p IH|]; simpl; [| |lia]; pose proof (H2 (Pos.to_little_uint p)); lia.
Qed.

(** A printed [int] fits into 34 characters. *)
Lemma length_print_d z : INT_MIN ≤ z ≤ INT_MAX → (String.length (print_d z) ≤ 34)%nat.
Proof.
  intros Hz. assert (Hs : ∀ p, (p < 2 ^ 32)%positive → (Pos.size_nat p ≤ 33)%nat)
    by (intros p Hp; by apply Pos.size_nat_monotone in Hp).
  unfold print_d. destruct z as [|p|p]; simpl; [lia|..];
    pose proof (length_print_pos p); unfold INT_MIN, INT_MAX in Hz; specialize (Hs p ltac:(lia)); lia.
Qed.

Lemma scan_d_print_end z : scan_d (print_d z) = Some (z, EmptyString).
Proof. rewrite <- (str_app_nil_r (print_d z)). by apply scan_d_print. Qed.

Lemma no_space_uint d : no_space (NilEmpty.string_of_uint d) = true.
Proof. induction d; simpl; auto. Qed.

Lemma print_d_word z : is_word (print_d z) = true.
Proof.
  unfold is_word, print_d. pose proof (to_int_nonnil z) as Hn.
  destruct (Z.to_int z) as [d|d]; [|simpl; by rewrite no_space_uint].
  rewrite no_space_uint. by destruct (print_d_head d Hn) as (c & s & -> & _).
Qed.

Lemma no_nul_app s t : no_nul (s +:+ t) = no_nul s && no_nul t.
Proof. induction s; simpl; [done|]. by rewrite IHs, andb_assoc. Qed.

Lemma until_nul_nul s r : no_nul s = true → until_nul (s +:+ String Ascii.zero r) = Some s.
Proof.
  induction s as [|c s IH]; simpl; [done|]. intros [Hc%negb_true_iff Hs]%andb_true_iff.
  by rewrite Hc, IH.
Qed.

Lemma until_nul_no_nul buf s : until_nul buf = Some s → no_nul s = true.
Proof.
  revert s. induction buf as [|c buf IH]; intros s; simpl; [done|].
  destruct (Ascii.eqb c Ascii.zero) eqn:Hc; [by intros [= <-]|].
  destruct (until_nul buf) as [t|]; [|done]. intros [= <-]. simpl. by rewrite Hc, IH.
Qed.

Lemma skip_space_no_nul s : no_nul s = true → no_nul (skip_space s) = true.
Proof.
  induction s as [|c s IH]; simpl; [done|]. intros [Hc Hs]%andb_true_iff.
  destruct (is_space c); [by apply IH|]. simpl. by rewrite Hc.
Qed.

Lemma span_word_no_nul s w r :
  no_nul s = true → span_word s = (w, r) → no_nul w = true ∧ no_nul r = true.
Proof.
  revert w r. induction s as [|c s IH]; intros w r; simpl; [by intros _ [= <- <-]|].
  intros [Hc Hs]%andb_true_iff. destruct (is_space c).
  - intros [= <- <-]. simpl. by rewrite Hc.
  - destruct (span_word s) as [w' r']. intros [= <- <-]. simpl. rewrite Hc. by apply IH.
Qed.

Lemma scan_s_no_nul s w r :
  no_nul s = true → scan_s s = Some (w, r) → no_nul w = true ∧ no_nul r = true.
Proof.
  unfold scan_s. intros Hs. destruct (span_word (skip_space s)) as [w' r'] eqn:Hsp.
  apply span_word_no_nul in Hsp; [|by apply skip_space_no_nul].
  destruct w'; [done|]. by intros [= <- <-].
Qed.

Lemma span_uint_no_nul s d r : no_nul s = true → span_uint s = (d, r) → no_nul r = true.
Proof.
  revert d r. induction s as [|c s IH]; intros d r; cbn [span_uint no_nul]; [by intros _ [= <- <-]|].
  intros [Hc Hs]%andb_true_iff. destruct (span_uint s) as [d' r'].
  specialize (IH d' r' Hs eq_refl).
  destruct (uint_of_char c (Some d')); intros [=]; subst; [done|]. cbn [no_nul]. by rewrite Hc.
Qed.

Lemma scan_d_no_nul s z r : no_nul s = true → scan_d s = Some (z, r) → no_nul r = true.
Proof.
  unfold scan_d. intros Hs%skip_space_no_nul. destruct (skip_space s) as [|c t]; [done|].
  assert (Ht : no_nul t = true) by (simpl in Hs; by apply andb_true_iff in Hs as [_ ?]).
  destruct (Ascii.eqb c "-"); [|destruct (Ascii.eqb c "+")].
  all: match goal with |- context [span_uint ?x] => destruct (span_uint x) as [d r'] eqn:Hsp end.
  all: apply span_uint_no_nul in Hsp; [|done].
  all: destruct d; intros [=]; by subst.
Qed.

Lemma substring_all n s : (String.length s ≤ n)%nat → String.substring 0 n s = s.
Proof. revert n. induction s as [|c s IH]; intros [|n] H; simpl in *; try done; [lia|]. rewrite IH; [done|lia]. Qed.
