(* ===== verification/CirQueue.v ===== *)
(** The circular queue of the file server's send window
    (Assignment 2/Code/CirQueue.c and CirQueue.h): the structure, its seven
    operations, and their refinement of a bounded FIFO. *)

From S2P Require Export CStr.

Definition MAXLINE : nat := 4096.

(** One datagram of the window.  [sendline] is the whole array of MAXLINE bytes. *)
Record data := mk_data {
  seq : Z; (* uint32_t *)
  ts : Z; (* uint32_t *)
  sendline : string;
  ack : Z
}.

Record CirQueue := mk_queue {
  base : option (list data); (* NULL, or the block it points to *)
  front : Z;
  rear : Z;
  MAX_QSIZE : Z
}.

Definition set_front (f : Z) (q : CirQueue) : CirQueue :=
  mk_queue (base q) f (rear q) (MAX_QSIZE q).
Definition set_rear (r : Z) (q : CirQueue) : CirQueue :=
  mk_queue (base q) (front q) r (MAX_QSIZE q).
Definition set_base (b : option (list data)) (q : CirQueue) : CirQueue :=
  mk_queue b (front q) (rear q) (MAX_QSIZE q).

(** [mem] is what [malloc] returns: NULL, or a block of [size] elements with
    arbitrary contents. *)
Definition InitCirQueue (mem : option (list data)) (size : Z) : M CirQueue unit :=
  modify (λ q, mk_queue (base q) (front q) (rear q) size);;
  modify (set_base mem);;
  match mem with
  | None => exit 1
  | Some _ => modify (λ q, set_front 0 (set_rear 0 q))
  end.

Definition DestroyCirQueue : M CirQueue unit :=
  modify (set_base None);;
  modify (λ q, set_front 0 (set_rear 0 q)).

Definition ClearCirQueue : M CirQueue unit :=
  modify (λ q, set_front 0 (set_rear 0 q)).

Definition IsEmptyCirQueue : M CirQueue Z :=
  q ← get; mret (if front q =? rear q then 1 else 0).

(** [a % n] of C. *)
Definition c_rem {St} (a n : Z) : M St Z :=
  if n =? 0 then undef DivByZero else mret (Z.rem a n).

Definition CirQueueLength : M CirQueue Z :=
  q ← get;
  d ← int_op (rear q - front q);
  n ← int_op (d + MAX_QSIZE q);
  c_rem n (MAX_QSIZE q).

(** The element [base[i]], and an assignment to it. *)
Definition base_at (i : Z) : M CirQueue data :=
  q ← get; b ← of_opt NullDeref (base q); rd b i.
Definition base_set (i : Z) (x : data) : M CirQueue unit :=
  q ← get; b ← of_opt NullDeref (base q);
  b' ← of_opt OutOfBounds (arr_set b i x); modify (set_base (Some b')).

Definition EnCirQueue (input : data) : M CirQueue unit :=
  q ← get;
  base_set (rear q) input;;
  r1 ← int_op (rear q + 1);
  r ← c_rem r1 (MAX_QSIZE q);
  modify (set_rear r).

Definition DeCirQueue : M CirQueue unit :=
  q ← get;
  f1 ← int_op (front q + 1);
  f ← c_rem f1 (MAX_QSIZE q);
  modify (set_front f).

(** * The bounded FIFO it implements *)

Module Spec.
Abbreviation fifo := (list data).
Definition push (x : data) (l : fifo) : fifo := l ++ [x].
Definition pop (l : fifo) : fifo := tail l.
End Spec.

(** The largest size with which no sum of indices overflows an [int]. *)
Definition QSIZE_BOUND : Z := 2 ^ 30.

(** A queue whose block has [MAX_QSIZE] elements and whose indices are inside it. *)
Definition queue_wf (q : CirQueue) : Prop :=
  ∃ b, base q = Some b ∧ Z.of_nat (length b) = MAX_QSIZE q ∧
       0 ≤ front q < MAX_QSIZE q ∧ (0 ≤ rear q < MAX_QSIZE q ∧ MAX_QSIZE q ≤ QSIZE_BOUND).

Definition q_len (q : CirQueue) : Z := (rear q - front q) mod MAX_QSIZE q.

(** The element [i] places behind the front. *)
Definition q_nth (q : CirQueue) (i : Z) : option data :=
  b ← base q; b !! Z.to_nat ((front q + i) mod MAX_QSIZE q).

(** [q] holds exactly the datagrams [l], oldest first. *)
Definition q_repr (q : CirQueue) (l : Spec.fifo) : Prop :=
  queue_wf q ∧ q_len q = Z.of_nat (length l) ∧
  ∀ i, (i < length l)%nat → q_nth q (Z.of_nat i) = l !! i.

(** * Lemmas *)

Lemma q_len_range q : queue_wf q → 0 ≤ q_len q < MAX_QSIZE q.
Proof. intros (b & _ & _ & Hf & _). apply Z.mod_pos_bound. lia. Qed.

Lemma queue_wf_intro b f r n :
  Z.of_nat (length b) = n → 0 ≤ f < n → 0 ≤ r < n ∧ n ≤ QSIZE_BOUND → queue_wf (mk_queue (Some b) f r n).
Proof. intros. exists b. done. Qed.

(** Moving an index one place round the block. *)
Lemma mod_succ_round x n : 0 ≤ x < n → (x + 1) mod n = if x + 1 =? n then 0 else x + 1.
Proof.
  intros. destruct (Z.eqb_spec (x + 1) n) as [->|].
  - apply Z.mod_same. lia.
  - apply Z.mod_small. lia.
Qed.

Lemma sub_mod_cases x y n :
  0 ≤ x < n → 0 ≤ y < n → (x - y) mod n = if y <=? x then x - y else x - y + n.
Proof.
  intros. destruct (Z.leb_spec y x).
  - apply Z.mod_small. lia.
  - rewrite <- (Z.mod_add _ 1) by lia. rewrite Z.mod_small by lia. lia.
Qed.

Lemma add_mod_cases x i n :
  0 ≤ x < n → 0 ≤ i < n → (x + i) mod n = if x + i <? n then x + i else x + i - n.
Proof.
  intros. destruct (Z.ltb_spec (x + i) n).
  - apply Z.mod_small. lia.
  - rewrite <- (Z.mod_add _ (-1)) by lia. rewrite Z.mod_small by lia. lia.
Qed.

Ltac ring_index :=
  repeat first
    [ progress rewrite ?mod_succ_round, ?sub_mod_cases, ?add_mod_cases in * by lia
    | match goal with
      | |- context [?a <=? ?b] => destruct (Z.leb_spec a b)
      | |- context [?a <? ?b] => destruct (Z.ltb_spec a b)
      | |- context [?a =? ?b] => destruct (Z.eqb_spec a b)
      | H : context [?a <=? ?b] |- _ => destruct (Z.leb_spec a b)
      | H : context [?a <? ?b] |- _ => destruct (Z.ltb_spec a b)
      | H : context [?a =? ?b] |- _ => destruct (Z.eqb_spec a b)
      end ].

Lemma CirQueueLength_run q : queue_wf q → CirQueueLength q = Done (q_len q) q.
Proof.
  intros (b & _ & _ & Hf & Hr & Hn). unfold QSIZE_BOUND in Hn. unfold CirQueueLength. rewrite bind_get.
  run_step (int_op_ok (rear q - front q) q ltac:(unfold INT_MIN, INT_MAX; lia)).
  run_step (int_op_ok (rear q - front q + MAX_QSIZE q) q ltac:(unfold INT_MIN, INT_MAX; lia)). unfold c_rem.
  destruct (Z.eqb_spec (MAX_QSIZE q) 0); [lia|]. unfold mret, M_ret, q_len. f_equal.
  rewrite Z.rem_mod_nonneg by lia.
  rewrite <- (Z.mod_add (rear q - front q) 1) by lia. f_equal. lia.
Qed.

Lemma IsEmpty_run q :
  queue_wf q → IsEmptyCirQueue q = Done (if q_len q =? 0 then 1 else 0) q.
Proof.
  intros (b & _ & _ & Hf & Hr). unfold IsEmptyCirQueue, get, mbind, M_bind, mret, M_ret, q_len.
  do 2 f_equal. ring_index; try (done || lia).
Qed.

(** The queue after [EnCirQueue]. *)
Lemma EnCirQueue_run q b x :
  queue_wf q → base q = Some b →
  EnCirQueue x q = Done tt (mk_queue (Some (<[Z.to_nat (rear q) := x]> b)) (front q)
                              ((rear q + 1) mod MAX_QSIZE q) (MAX_QSIZE q)).
Proof.
  intros (b' & Hb' & Hlen & Hf & Hr & Hn) Hb. rewrite Hb in Hb'. injection Hb' as <-. unfold QSIZE_BOUND in Hn.
  destruct q as [bq f r n]; simpl in *. subst bq n. unfold EnCirQueue, base_set, c_rem, get, modify, of_opt, mbind, M_bind. simpl.
  unfold arr_set. destruct (Z.leb_spec 0 r), (Z.ltb_spec r (Z.of_nat (length b))); try lia.
  simpl. rewrite int_op_ok by (unfold INT_MIN, INT_MAX; lia). destruct (Z.eqb_spec (Z.of_nat (length b)) 0); [lia|]. simpl.
  rewrite Z.rem_mod_nonneg by lia. done.
Qed.

Lemma DeCirQueue_run q :
  queue_wf q → DeCirQueue q = Done tt (set_front ((front q + 1) mod MAX_QSIZE q) q).
Proof.
  intros (b & Hb & Hlen & Hf & Hr & Hn). unfold QSIZE_BOUND in Hn. unfold DeCirQueue, c_rem, get, modify, mbind, M_bind.
  rewrite int_op_ok by (unfold INT_MIN, INT_MAX; lia). destruct (Z.eqb_spec (MAX_QSIZE q) 0); [lia|]. simpl. rewrite Z.rem_mod_nonneg by lia. done.
Qed.

Lemma q_repr_push q l x :
  q_repr q l → Z.of_nat (length l) + 1 < MAX_QSIZE q →
  ∃ q', EnCirQueue x q = Done tt q' ∧ q_repr q' (Spec.push x l) ∧
        MAX_QSIZE q' = MAX_QSIZE q ∧ front q' = front q.
Proof.
  intros (Hwf & Hlen & Hnth) Hroom. pose proof Hwf as (b & Hb & Hlb & Hf & Hr).
  eexists. split; [by apply EnCirQueue_run|]. split; [|done].
  unfold q_len in Hlen. split; [|split]; simpl.
  - apply queue_wf_intro; [by rewrite length_insert|done|split; [apply Z.mod_pos_bound|]; lia].
  - unfold q_len, Spec.push. simpl. rewrite length_app. simpl. ring_index; lia.
  - unfold Spec.push. rewrite length_app. simpl. intros i Hi. unfold q_nth; simpl.
    destruct (decide (i = length l)) as [->|Hne].
    + rewrite lookup_app_r, Nat.sub_diag by lia. simpl.
      replace ((front q + Z.of_nat (length l)) mod MAX_QSIZE q) with (rear q)
        by (ring_index; lia).
      apply list_lookup_insert_eq. lia.
    + rewrite lookup_app_l by lia. rewrite <- Hnth by lia. unfold q_nth. rewrite Hb. simpl.
      apply list_lookup_insert_ne. intros Heq. ring_index; lia.
Qed.

Lemma q_repr_pop q x l :
  q_repr q (x :: l) →
  ∃ q', DeCirQueue q = Done tt q' ∧ q_repr q' l ∧
        MAX_QSIZE q' = MAX_QSIZE q ∧ rear q' = rear q.
Proof.
  intros (Hwf & Hlen & Hnth). pose proof Hwf as (b & Hb & Hlb & Hf & Hr).
  eexists. split; [by apply DeCirQueue_run|]. split; [|done].
  unfold q_len in Hlen. simpl in Hlen. split; [|split]; simpl.
  - unfold set_front. rewrite Hb.
    apply queue_wf_intro; [done|apply Z.mod_pos_bound; lia|done].
  - unfold q_len. simpl. ring_index; lia.
  - intros i Hi. specialize (Hnth (S i)). simpl in Hnth. rewrite <- Hnth by lia.
    unfold q_nth. simpl. rewrite Hb. simpl. f_equal. f_equal.
    rewrite Zplus_mod_idemp_l. f_equal. lia.
Qed.

Lemma q_repr_init b n :
  0 < n ≤ QSIZE_BOUND → Z.of_nat (length b) = n → ∀ q, ∃ q',
  InitCirQueue (Some b) n q = Done tt q' ∧ q_repr q' [] ∧ MAX_QSIZE q' = n.
Proof.
  intros. eexists. split; [reflexivity|]. simpl. split; [|done].
  split; [|split]; simpl.
  - unfold set_front, set_rear. simpl. apply queue_wf_intro; (done || lia).
  - unfold q_len. simpl. apply Z.mod_0_l. lia.
  - intros i Hi. lia.
Qed.

(** * Properties *)

Inductive q_op := Enq (x : data) | Deq.

Definition run_op (o : q_op) : M CirQueue unit :=
  match o with Enq x => EnCirQueue x | Deq => DeCirQueue end.

Fixpoint run_ops (os : list q_op) : M CirQueue unit :=
  match os with [] => mret tt | o :: os' => run_op o;; run_ops os' end.

(** The FIFO side; [None] when it would pop nothing or hold [cap] datagrams. *)
Definition spec_op (cap : Z) (o : q_op) (l : list data) : option (list data) :=
  match o with
  | Enq x => if Z.of_nat (length l) + 1 <? cap then Some (Spec.push x l) else None
  | Deq => match l with [] => None | _ :: _ => Some (Spec.pop l) end
  end.

Fixpoint spec_ops (cap : Z) (os : list q_op) (l : list data) : option (list data) :=
  match os with
  | [] => Some l
  | o :: os' => l' ← spec_op cap o l; spec_ops cap os' l'
  end.

Lemma run_ops_repr os q l l' :
  q_repr q l → spec_ops (MAX_QSIZE q) os l = Some l' →
  ∃ q', run_ops os q = Done tt q' ∧ q_repr q' l' ∧ MAX_QSIZE q' = MAX_QSIZE q.
Proof.
  revert q l. induction os as [|o os IH]; intros q l Hq Hs; simpl in *; [naive_solver|].
  unfold mbind, M_bind. destruct (spec_op (MAX_QSIZE q) o l) as [l1|] eqn:Ho; [|done].
  assert (∃ q1, run_op o q = Done tt q1 ∧ q_repr q1 l1 ∧ MAX_QSIZE q1 = MAX_QSIZE q)
    as (q1 & Hrun & Hq1 & Hmax).
  { destruct o as [x|]; simpl in *.
    - destruct (Z.ltb_spec (Z.of_nat (length l) + 1) (MAX_QSIZE q)); simplify_eq.
      destruct (q_repr_push q l x) as (q1 & ? & ? & ? & _); eauto.
    - destruct l as [|x l]; simplify_eq.
      destruct (q_repr_pop q x l) as (q1 & ? & ? & ? & _); eauto. }
  rewrite Hrun. rewrite <- Hmax in Hs. simpl in Hs.
  destruct (IH q1 l1 Hq1 Hs) as (q' & ? & ? & ?). exists q'. split_and!; congruence.
Qed.

(** C17: a queue created by [InitCirQueue] with room for 1 to 2^30 datagrams and used by
    any sequence of [EnCirQueue] and [DeCirQueue] calls that a FIFO of at most [n - 1]
    datagrams allows runs with no undefined behaviour and no overflow of the [int]
    indices; [CirQueueLength], [IsEmptyCirQueue] and every element of the block from the
    front on, going round its end, agree with that FIFO. *)
Theorem cirqueue_refines_fifo (b : list data) (n : Z) (q0 : CirQueue) os l :
  0 < n ≤ QSIZE_BOUND → Z.of_nat (length b) = n → spec_ops n os [] = Some l →
  ∃ q, (InitCirQueue (Some b) n;; run_ops os) q0 = Done tt q ∧
       CirQueueLength q = Done (Z.of_nat (length l)) q ∧
       IsEmptyCirQueue q = Done (if Z.of_nat (length l) =? 0 then 1 else 0) q ∧
       (∀ i x, l !! i = Some x → base_at ((front q + Z.of_nat i) mod n) q = Done x q).
Proof.
  intros Hn Hb Hs. destruct (q_repr_init b n Hn Hb q0) as (q1 & Hi & Hq1 & Hmax).
  rewrite <- Hmax in Hs. destruct (run_ops_repr os q1 [] l Hq1 Hs) as (q & Hr & Hq & Hmax').
  exists q. unfold mbind at 1, M_bind at 1. rewrite Hi. split; [done|].
  destruct Hq as (Hwf & Hlen & Hnth).
  rewrite CirQueueLength_run, IsEmpty_run, Hlen by done. split_and!; [done..|].
  intros i x Hx. pose proof (lookup_lt_Some _ _ _ Hx) as Hi'. specialize (Hnth i Hi'). rewrite Hx in Hnth.
  unfold q_nth in Hnth. rewrite Hmax', Hmax in Hnth. destruct Hwf as (b' & Hb' & _).
  unfold base_at. rewrite bind_get, Hb' in *. cbn [of_opt]. rewrite bind_ret. unfold rd, arr_at.
  pose proof (Z.mod_pos_bound (front q + Z.of_nat i) n ltac:(lia)).
  destruct (Z.ltb_spec ((front q + Z.of_nat i) mod n) 0); [lia|]. cbn in Hnth. by rewrite Hnth.
Qed.

Definition data0 (k : Z) : data := mk_data k 0 "" 0.

Lemma cirqueue_refines_fifo_witness :
  ∃ q, (InitCirQueue (Some [data0 0; data0 0; data0 0]) 3;;
        run_ops [Enq (data0 1); Enq (data0 2); Deq; Enq (data0 3)])
         (mk_queue None 7 7 7) = Done tt q ∧ CirQueueLength q = Done 2 q ∧
       base_at ((front q + 1) mod 3) q = Done (data0 3) q.
Proof.
  destruct (cirqueue_refines_fifo [data0 0; data0 0; data0 0] 3 (mk_queue None 7 7 7)
              [Enq (data0 1); Enq (data0 2); Deq; Enq (data0 3)] [data0 2; data0 3])
    as (q & H1 & H2 & _ & H3); [unfold QSIZE_BOUND; lia|reflexivity|vm_compute; reflexivity|].
  exists q. split; [exact H1|]. split; [exact H2|]. apply (H3 1%nat). reflexivity.
Defined.

(** The queue cannot tell full from empty.  Enqueuing into a queue that already
    holds [MAX_QSIZE - 1] datagrams leaves a queue that reports length 0 and empty:
    all [MAX_QSIZE] datagrams of the window are forgotten. *)
Theorem EnCirQueue_full_is_empty q l x :
  q_repr q l → Z.of_nat (length l) = MAX_QSIZE q - 1 →
  ∃ q', EnCirQueue x q = Done tt q' ∧ CirQueueLength q' = Done 0 q' ∧
        IsEmptyCirQueue q' = Done 1 q' ∧ q_repr q' [].
Proof.
  intros (Hwf & Hlen & Hnth) Hfull. pose proof Hwf as (b & Hb & Hlb & Hf & Hr).
  eexists. split; [by apply EnCirQueue_run|]. unfold q_len in Hlen.
  set (q' := mk_queue _ _ _ _). assert (Hwf' : queue_wf q').
  { apply queue_wf_intro; [by rewrite length_insert|done|split; [apply Z.mod_pos_bound|]; lia]. }
  assert (Hlen' : q_len q' = 0).
  { unfold q_len, q'. simpl. ring_index; lia. }
  rewrite CirQueueLength_run, IsEmpty_run, Hlen' by done. split_and!; [done..|].
  split_and!; [done..|]. simpl. intros i Hi. lia.
Qed.

Lemma EnCirQueue_full_is_empty_witness :
  ∃ q', EnCirQueue (data0 2) (mk_queue (Some [data0 1; data0 0]) 0 1 2) = Done tt q' ∧
        CirQueueLength q' = Done 0 q'.
Proof.
  destruct (EnCirQueue_full_is_empty (mk_queue (Some [data0 1; data0 0]) 0 1 2) [data0 1] (data0 2))
    as (q' & H1 & H2 & _).
  - split; [|split].
    + apply queue_wf_intro; unfold QSIZE_BOUND; (reflexivity || lia).
    + reflexivity.
    + intros [|i] Hi; [reflexivity|simpl in Hi; lia].
  - reflexivity.
  - exists q'. split; [exact H1|exact H2].
Defined.
