(* ===== verification/LinkList.v ===== *)
(** The singly linked lists of Assignment 2 (LinkList.c, LinkList.h): the receive
    buffer of the client and the table of connected clients of the server.

    Nodes live in a heap, and [malloc] hands out memory whose old contents stay in
    the fields that are not assigned, so the model keeps the pointers the code
    follows, writes and leaves unwritten. *)

From S2P Require Export CStr.

(** * Heap *)

Inductive ptr := Null | Ptr (a : nat).

Record node := mk_node {
  nseq : Z; (* uint32_t seq *)
  recvline : string; (* char recvline[MAXLINE+3] *)
  next : ptr
}.

Abbreviation heap := (gmap nat node).

#[export] Instance ptr_eq_dec : EqDecision ptr.
Proof. solve_decision. Defined.
#[export] Instance node_eq_dec : EqDecision node.
Proof. solve_decision. Defined.

(** The C allocator: a fresh address and the bytes that are found there. *)
Class Allocator := {
  malloc_at : heap → nat * node;
  malloc_fresh : ∀ h, h !! (malloc_at h).1 = None
}.

(** C does not say what the bytes are.  The same allocator with zeros in every block is
    what runs on it are compared with; [ZeroedAllocator] is what holds of such a one. *)
Definition zeroed (A : Allocator) : Allocator :=
  {| malloc_at := λ h, ((malloc_at h).1, mk_node 0 EmptyString Null); malloc_fresh := malloc_fresh |}.

Class ZeroedAllocator `{A : Allocator} :=
  malloc_zeroed : ∀ h, next (malloc_at h).2 = Null.

#[export] Instance zeroed_zeroed (A : Allocator) : @ZeroedAllocator (zeroed A) := λ _, eq_refl.

Definition RECVLINE : nat := 4096 + 3.

Definition deref (p : ptr) : M heap node :=
  match p with
  | Null => undef NullDeref
  | Ptr a => h ← get; of_opt BadPointer (h !! a)
  end.

Definition store (p : ptr) (n : node) : M heap unit :=
  match p with
  | Null => undef NullDeref
  | Ptr a => _ ← deref p; modify (λ h, <[a := n]> h)
  end.

Definition set_next (p q : ptr) : M heap unit :=
  n ← deref p; store p (mk_node (nseq n) (recvline n) q).

Definition malloc `{Allocator} : M heap ptr :=
  h ← get;
  let '(a, junk) := malloc_at h in
  modify (λ h, <[a := junk]> h);; mret (Ptr a).

Definition free (p : ptr) : M heap unit :=
  match p with
  | Null => mret tt
  | Ptr a => _ ← deref p; modify (λ h, delete a h)
  end.

Definition is_null (p : ptr) : bool := match p with Null => true | Ptr _ => false end.

(** * Operations of LinkList.c *)

Section ops.
Context `{Allocator}.

(** [new_node = malloc(..); new_node->seq = seq; strcpy(new_node->recvline, ..)]:
    the [next] field keeps what was in memory. *)
Definition new_node (seq : Z) (line : string) : M heap ptr :=
  p ← malloc;
  n ← deref p;
  line' ← strcpy RECVLINE line;
  store p (mk_node seq line' (next n));;
  mret p.

(** [while (head->next != NULL && head->next->seq < seq) head = head->next;] *)
Fixpoint insert_walk (fuel : nat) (seq : Z) (head : ptr) : M heap ptr :=
  match fuel with
  | O => undef Diverges
  | S fuel' =>
      n ← deref head;
      if is_null (next n) then mret head
      else n' ← deref (next n);
           if nseq n' <? seq then insert_walk fuel' seq (next n) else mret head
  end.

(** After the walk: append behind the last node, or link a new node in front of
    the first one with a larger number; a number already there is left alone. *)
Definition insert_after (seq : Z) (line : string) (head : ptr) : M heap unit :=
  n ← deref head;
  if is_null (next n) then
    p ← new_node seq line;
    set_next head p
  else
    n' ← deref (next n);
    when (negb (nseq n' =? seq))
      (p ← new_node seq line;
       set_next head p;;
       set_next p (next n)).

Definition InsertLinkList (L : ptr) (seq : Z) (line : string) : M heap unit :=
  l ← deref L;
  if is_null (next l) then
    p ← new_node seq line;
    set_next p Null;;
    set_next L p
  else
    h ← get;
    head ← insert_walk (S (size h)) seq L;
    insert_after seq line head.
End ops.

Definition DeleteLinkList (L : ptr) : M heap unit :=
  l ← deref L;
  let temp := next l in
  t ← deref temp;
  set_next L (next t);;
  free temp.

(** The search loop of [DeleteSelectedNode] and [DuplicateNode]: the node before the
    match and the match (NULL without one). *)
Fixpoint find_walk (fuel : nat) (port : Z) (ip_addr : string) (front rear : ptr)
    : M heap (ptr * ptr) :=
  match fuel with
  | O => undef Diverges
  | S fuel' =>
      if is_null rear then mret (front, rear)
      else
        n ← deref rear;
        if negb (nseq n =? port) || negb (streq (recvline n) ip_addr)
        then find_walk fuel' port ip_addr rear (next n)
        else mret (front, rear)
  end.

Definition DeleteSelectedNode (L : ptr) (port : Z) (ip_addr : string) : M heap unit :=
  h ← get;
  l ← deref L;
  '(front, rear) ← find_walk (S (size h)) port ip_addr L (next l);
  when (negb (is_null rear))
    (r ← deref rear;
     set_next front (next r);;
     free rear).

Definition DuplicateNode (L : ptr) (port : Z) (ip_addr : string) : M heap Z :=
  h ← get;
  l ← deref L;
  '(front, rear) ← find_walk (S (size h)) port ip_addr L (next l);
  mret (if negb (is_null rear) then 1 else 0).

Fixpoint length_walk (fuel : nat) (temp : ptr) (len : Z) : M heap Z :=
  match fuel with
  | O => undef Diverges
  | S fuel' =>
      if is_null temp then mret len
      else n ← deref temp; len' ← int_op (len + 1); length_walk fuel' (next n) len'
  end.

Definition LinkListLength (L : ptr) : M heap Z :=
  h ← get; l ← deref L; length_walk (S (size h)) (next l) 0.

(** [temp->seq == Ack + 1] compares an unsigned with a converted [int]. *)
Fixpoint ack_walk (fuel : nat) (temp : ptr) (Ack : Z) : M heap Z :=
  match fuel with
  | O => undef Diverges
  | S fuel' =>
      if is_null temp then mret Ack
      else
        n ← deref temp;
        Ack1 ← int_op (Ack + 1);
        if nseq n =? u32 Ack1 then ack_walk fuel' (next n) (s32 (nseq n)) else mret Ack
  end.

Definition NextAck (L : ptr) (start : Z) : M heap Z :=
  h ← get;
  l ← deref L;
  Ack ← ack_walk (S (size h)) (next l) start;
  int_op (Ack + 1).

(** * What they compute: a finite list of (seq, line) pairs *)

Module Pure.
Abbreviation entry := (Z * string)%type.

Fixpoint insert (s : Z) (d : string) (l : list entry) : list entry :=
  match l with
  | [] => [(s, d)]
  | (s', d') :: l' =>
      if s' <? s then (s', d') :: insert s d l'
      else if s' =? s then l else (s, d) :: l
  end.

Definition matches (port : Z) (ip : string) (e : entry) : bool :=
  (e.1 =? port) && streq e.2 ip.

Fixpoint remove (port : Z) (ip : string) (l : list entry) : list entry :=
  match l with
  | [] => []
  | e :: l' => if matches port ip e then l' else e :: remove port ip l'
  end.

(** The first sequence number after [start] that the list does not continue. *)
Fixpoint next_ack (start : Z) (l : list entry) : Z :=
  match l with
  | [] => start + 1
  | (s, _) :: l' => if s =? start + 1 then next_ack s l' else start + 1
  end.
End Pure.

(** [chain h p xs]: from [p], following [next] to NULL, the heap [h] holds the nodes
    with the addresses and contents [xs]. *)
Fixpoint chain (h : heap) (p : ptr) (xs : list (nat * Pure.entry)) : Prop :=
  match xs with
  | [] => p = Null
  | (a, (s, d)) :: xs' => p = Ptr a ∧ ∃ nx, h !! a = Some (mk_node s d nx) ∧ chain h nx xs'
  end.

(** [L] is a header node followed by a list of distinct nodes with contents [l]. *)
Definition list_at (h : heap) (L : ptr) (l : list Pure.entry) : Prop :=
  ∃ a0 n0 xs, L = Ptr a0 ∧ h !! a0 = Some n0 ∧ chain h (next n0) xs ∧
              NoDup (a0 :: xs.*1) ∧ xs.*2 = l.

(** The same for a list whose last node points to [q]. *)
Fixpoint chain_to (h : heap) (p : ptr) (xs : list (nat * Pure.entry)) (q : ptr) : Prop :=
  match xs with
  | [] => p = q
  | (a, (s, d)) :: xs' => p = Ptr a ∧ ∃ nx, h !! a = Some (mk_node s d nx) ∧ chain_to h nx xs' q
  end.

Definition list_to (h : heap) (L : ptr) (l : list Pure.entry) (q : ptr) : Prop :=
  ∃ a0 n0 xs, L = Ptr a0 ∧ h !! a0 = Some n0 ∧ chain_to h (next n0) xs q ∧
              NoDup (a0 :: xs.*1) ∧ xs.*2 = l.

(** All numbers of the list are below [s]. *)
Definition all_below (s : Z) (l : list Pure.entry) : bool := forallb (λ e, e.1 <? s) l.

Definition entry_ok (e : Pure.entry) : Prop :=
  0 ≤ e.1 < 2 ^ 32 ∧ (String.length e.2 < RECVLINE)%nat.

(** Strictly increasing sequence numbers. *)
Fixpoint increasing (l : list Pure.entry) : Prop :=
  match l with
  | [] => True
  | e :: l' => Forall (λ e', e.1 < e'.1) l' ∧ increasing l'
  end.

(** * Lemmas *)

Lemma deref_run h a n : h !! a = Some n → deref (Ptr a) h = Done n h.
Proof. intros Ha. unfold deref, get, of_opt, mbind, M_bind. by rewrite Ha. Qed.

Lemma set_next_run h a n q :
  h !! a = Some n →
  set_next (Ptr a) q h = Done tt (<[a := mk_node (nseq n) (recvline n) q]> h).
Proof.
  intros Ha. unfold set_next. run_step (deref_run _ _ _ Ha). unfold store.
  by run_step (deref_run _ _ _ Ha).
Qed.

Lemma free_run h a n : h !! a = Some n → free (Ptr a) h = Done tt (delete a h).
Proof. intros Ha. unfold free. by run_step (deref_run _ _ _ Ha). Qed.

Lemma malloc_run `{Allocator} h :
  malloc h = Done (Ptr (malloc_at h).1) (<[(malloc_at h).1 := (malloc_at h).2]> h).
Proof. unfold malloc, get, mbind, M_bind. by destruct (malloc_at h). Qed.

Lemma new_node_run `{Allocator} h s d :
  (String.length d < RECVLINE)%nat →
  new_node s d h = Done (Ptr (malloc_at h).1)
                        (<[(malloc_at h).1 := mk_node s d (next (malloc_at h).2)]> h).
Proof.
  intros Hd. unfold new_node. run_step (malloc_run h).
  assert (Hf := lookup_insert_eq h (malloc_at h).1 (malloc_at h).2).
  run_step (deref_run _ _ _ Hf). run_step (strcpy_run _ _ _ Hd). unfold store.
  erewrite bind_Done; [|by run_step (deref_run _ _ _ Hf)]. simpl.
  by rewrite insert_insert_eq.
Qed.

Lemma chain_frame h h' p xs :
  (∀ a, a ∈ xs.*1 → h' !! a = h !! a) → chain h p xs → chain h' p xs.
Proof.
  revert p. induction xs as [|[a [s d]] xs IH]; intros p Hag; simpl; [done|].
  intros (-> & nx & Ha & Hxs). split; [done|]. exists nx. split.
  - rewrite Hag; [done|]. set_solver.
  - apply IH; [|done]. intros b Hb. apply Hag. set_solver.
Qed.

Lemma chain_dom h p xs a : chain h p xs → a ∈ xs.*1 → is_Some (h !! a).
Proof.
  revert p. induction xs as [|[b [s d]] xs IH]; intros p; simpl; [set_solver|].
  intros (-> & nx & Hb & Hxs) [->|Ha]%elem_of_cons; eauto.
Qed.

Lemma chain_size h p xs : chain h p xs → NoDup xs.*1 → (length xs ≤ size h)%nat.
Proof.
  intros Hc Hnd. rewrite <- (length_fmap fst xs), <- (size_list_to_set (C:=gset nat) xs.*1 Hnd).
  rewrite <- (size_dom (D:=gset nat) h). apply subseteq_size. intros a Ha.
  apply elem_of_dom. eapply chain_dom; [done|]. set_solver.
Qed.

Lemma chain_null h p xs : chain h p xs → is_null p = match xs with [] => true | _ => false end.
Proof. destruct xs as [|[a [s d]] xs]; simpl; [by intros ->|by intros [-> _]]. Qed.

Definition segment (h : heap) (a : nat) (n : node) (xs : list (nat * Pure.entry)) : Prop :=
  h !! a = Some n ∧ chain h (next n) xs ∧ NoDup (a :: xs.*1).

(** What a list operation at the node [a] leaves behind: the same node with a new
    chain behind it, every other node untouched. *)
Definition relinked (h h' : heap) (a : nat) (n : node) (xs' : list (nat * Pure.entry)) : Prop :=
  (∃ q, segment h' a (mk_node (nseq n) (recvline n) q) xs') ∧
  ∀ b, b ∉ a :: xs'.*1 → is_Some (h !! b) → h' !! b = h !! b.

Lemma segment_cons h a n b s d xs :
  segment h a n ((b, (s, d)) :: xs) →
  ∃ q, next n = Ptr b ∧ a ≠ b ∧ a ∉ xs.*1 ∧ segment h b (mk_node s d q) xs.
Proof.
  intros (Ha & (Hn & q & Hb & Hc) & Hnd). exists q. simpl in Hnd.
  apply NoDup_cons in Hnd as [Hna Hnd]. split_and!; [done|set_solver..|]. done.
Qed.

Lemma chain_to_Null h p xs : chain_to h p xs Null ↔ chain h p xs.
Proof.
  revert p. induction xs as [|[a [s d]] xs IH]; intros p; [done|]. simpl.
  split; intros (-> & nx & Ha & Hc); (split; [done|]); exists nx; (split; [done|]); by apply IH.
Qed.

(** [relinked] for a chain that ends in [q]. *)
Definition relinked_to (h h' : heap) (a : nat) (n : node) (xs' : list (nat * Pure.entry)) (q : ptr) : Prop :=
  (∃ p, h' !! a = Some (mk_node (nseq n) (recvline n) p) ∧ chain_to h' p xs' q ∧ NoDup (a :: xs'.*1)) ∧
  ∀ b, b ∉ a :: xs'.*1 → is_Some (h !! b) → h' !! b = h !! b.

Lemma relinked_to_Null h h' a n xs' : relinked_to h h' a n xs' Null ↔ relinked h h' a n xs'.
Proof.
  unfold relinked_to, relinked, segment. split; intros [(p & H1 & H2 & H3) H4]; (split; [|done]); exists p;
    cbn [next] in *; (split; [done|]); (split; [|done]); by apply chain_to_Null.
Qed.

Lemma insert_after_append `{Allocator} h a n s d :
  segment h a n [] → (String.length d < RECVLINE)%nat →
  ∃ h', insert_after s d (Ptr a) h = Done tt h' ∧
        relinked_to h h' a n [((malloc_at h).1, (s, d))] (next (malloc_at h).2).
Proof.
  intros (Ha & Hc & _) Hd. simpl in Hc. unfold insert_after.
  set (f := (malloc_at h).1). pose proof (malloc_fresh h) as Hf. fold f in Hf.
  assert (Hfa : f ≠ a) by congruence.
  run_step (deref_run _ _ _ Ha). rewrite Hc. cbn [is_null].
  run_step (new_node_run h s d Hd).
  erewrite set_next_run by (rewrite lookup_insert_ne; done).
  eexists. split; [reflexivity|]. split.
  - exists (Ptr f). split_and!; [by rewrite lookup_insert_eq| |].
    + simpl. split; [done|]. eexists. fold f.
      by rewrite lookup_insert_ne, lookup_insert_eq.
    + simpl. apply NoDup_cons. split; [set_solver|apply NoDup_singleton].
  - intros b Hb _. simpl in Hb. rewrite !lookup_insert_ne; set_solver.
Qed.

Lemma insert_after_link `{Allocator} h a n b s' d' xs s d :
  segment h a n ((b, (s', d')) :: xs) → (String.length d < RECVLINE)%nat →
  ∃ h' xs', insert_after s d (Ptr a) h = Done tt h' ∧ relinked h h' a n xs' ∧
        xs'.*2 = (if s' =? s then (s', d') :: xs.*2 else (s, d) :: (s', d') :: xs.*2) ∧
        (∀ x, x ∈ xs'.*1 → x = (malloc_at h).1 ∨ x ∈ b :: xs.*1).
Proof.
  intros Hseg Hd. pose proof (segment_cons _ _ _ _ _ _ _ Hseg) as (q & Hn & Hab & Hax & Hb & Hxs & Hndb).
  pose proof Hseg as (Ha & Hc & Hnd). unfold insert_after.
  set (f := (malloc_at h).1). pose proof (malloc_fresh h) as Hf. fold f in Hf.
  assert (f ≠ a ∧ f ≠ b) as [Hfa Hfb] by (split; congruence).
  run_step (deref_run _ _ _ Ha). rewrite Hn. cbn [is_null].
  run_step (deref_run _ _ _ Hb). cbn [nseq]. destruct (Z.eqb_spec s' s) as [->|Hne]; cbn [negb].
  - exists h, ((b, (s, d')) :: xs). split; [done|]. split; [|split; [done|]].
    + split; [|done]. exists (next n). by destruct n.
    + simpl. auto.
  - unfold when. run_step (new_node_run h s d Hd). fold f.
    assert (Hff : ∀ x, x ∈ b :: xs.*1 → x ≠ f).
    { intros x Hx ->. destruct (chain_dom h (next n) ((b, (s', d')) :: xs) f); [|done|congruence].
      by destruct Hseg as (? & ? & ?). }
    assert (Ha1 : <[f:=mk_node s d (next (malloc_at h).2)]> h !! a = Some n)
      by (rewrite lookup_insert_ne; done).
    run_step (set_next_run _ _ _ (Ptr f) Ha1).
    erewrite set_next_run by (rewrite lookup_insert_ne, lookup_insert_eq by done; reflexivity).
    cbn [nseq recvline].
    eexists _, ((f, (s, d)) :: (b, (s', d')) :: xs). split; [reflexivity|]. split; [|split; [done|]].
    + split.
      * exists (Ptr f). split_and!.
        -- by rewrite lookup_insert_ne, lookup_insert_eq.
        -- split; [done|]. exists (Ptr b). split; [by rewrite lookup_insert_eq|].
           change (chain (<[f:=mk_node s d (Ptr b)]> (<[a:=mk_node (nseq n) (recvline n) (Ptr f)]>
             (<[f:=mk_node s d (next (malloc_at h).2)]> h))) (Ptr b) ((b, (s', d')) :: xs)).
           rewrite <- Hn. eapply chain_frame; [|exact Hc]. intros x Hx.
           rewrite !lookup_insert_ne; [done|..]; set_solver.
        -- simpl. simpl in Hnd. apply NoDup_cons in Hnd as [Hnd1 Hnd2].
           apply NoDup_cons; split; [set_solver|]. apply NoDup_cons; split; [|done].
           intros Hx. by apply (Hff f Hx).
      * intros x Hx _. simpl in Hx. rewrite !lookup_insert_ne; set_solver.
    + simpl. set_solver.
Qed.

(** The walk of [InsertLinkList] followed by the insertion, from any node. *)
Lemma insert_walk_spec `{Allocator} fuel h a n xs s d :
  segment h a n xs → (length xs < fuel)%nat → (String.length d < RECVLINE)%nat →
  ∃ h' xs', (insert_walk fuel s (Ptr a) ≫= insert_after s d) h = Done tt h' ∧
        relinked_to h h' a n xs' (if all_below s xs.*2 then next (malloc_at h).2 else Null) ∧ xs'.*2 = Pure.insert s d xs.*2 ∧
        (∀ x, x ∈ xs'.*1 → x = (malloc_at h).1 ∨ x ∈ xs.*1).
Proof.
  revert a n xs. induction fuel as [|fuel IH]; intros a n xs Hseg Hfuel Hd; [lia|].
  simpl insert_walk. pose proof Hseg as (Ha & Hc & Hnd).
  rewrite <- bind_assoc_M. run_step (deref_run _ _ _ Ha).
  destruct xs as [|[b [s' d']] xs].
  - simpl in Hc. rewrite Hc. cbn [is_null]. run_step (eq_refl (Done (Ptr a) h)).
    destruct (insert_after_append h a n s d Hseg Hd) as (h' & Hrun & Hrel).
    exists h', [((malloc_at h).1, (s, d))]. split_and!; [done..|]. set_solver.
  - destruct (segment_cons _ _ _ _ _ _ _ Hseg) as (q & Hn & Hab & Hax & Hsegb).
    rewrite Hn. cbn [is_null]. pose proof Hsegb as (Hb & _).
    rewrite <- bind_assoc_M. run_step (deref_run _ _ _ Hb). cbn [nseq].
    simpl Pure.insert. unfold all_below. cbn [fmap list_fmap snd forallb fst]. fold (all_below s xs.*2).
    destruct (Z.ltb_spec s' s) as [Hlt|Hge]; cbn [andb].
    + simpl in Hfuel. destruct (IH b _ xs Hsegb ltac:(lia) Hd) as (h' & ys & Hrun & Hrel & Hys & Hadr).
      destruct Hrel as [(q' & Hb' & Hc' & Hnd') Hfr]. cbn [nseq recvline] in *.
      exists h', ((b, (s', d')) :: ys). split; [done|]. pose proof (malloc_fresh h) as Hf.
      assert (Ha' : a ∉ b :: ys.*1).
      { intros [->|Hin]%elem_of_cons; [done|]. destruct (Hadr a Hin) as [->|]; [congruence|done]. }
      split_and!.
      * split.
        -- exists (Ptr b). split_and!.
           ++ rewrite Hfr by (done || by eexists). rewrite Ha, <- Hn. by destruct n.
           ++ simpl. split; [done|]. by exists q'.
           ++ simpl. by apply NoDup_cons.
        -- intros x Hx. apply Hfr. set_solver.
      * simpl. f_equal. exact Hys.
      * intros x. simpl. set_solver.
    + run_step (eq_refl (Done (Ptr a) h)).
      destruct (insert_after_link h a n b s' d' xs s d Hseg Hd)
        as (h' & xs' & Hrun & Hrel & Hxs' & Hadr).
      exists h', xs'. split_and!; [done|by apply relinked_to_Null|done..].
Qed.

Lemma list_at_segment h L l :
  list_at h L l ↔ ∃ a n xs, L = Ptr a ∧ segment h a n xs ∧ xs.*2 = l.
Proof. unfold list_at, segment. naive_solver. Qed.

Lemma segment_size h a n xs : segment h a n xs → (length xs < S (size h))%nat.
Proof.
  intros (_ & Hc & Hnd%NoDup_cons). pose proof (chain_size _ _ _ Hc ltac:(by destruct Hnd)). lia.
Qed.

Lemma list_to_Null h L l : list_to h L l Null ↔ list_at h L l.
Proof.
  unfold list_to, list_at. split; intros (a & n & xs & H1 & H2 & H3 & H4); exists a, n, xs;
    (split; [done|]); (split; [done|]); (split; [|done]); by apply chain_to_Null.
Qed.

(** Where the list ends after an insertion: a node that is appended to a list with other
    nodes keeps what [malloc] left in its [next]. *)
Definition end_of `{Allocator} (h : heap) (s : Z) (l : list Pure.entry) : ptr :=
  match l with [] => Null | _ => if all_below s l then next (malloc_at h).2 else Null end.

Lemma InsertLinkList_any `{Allocator} h L l s d :
  list_at h L l → (String.length d < RECVLINE)%nat →
  ∃ h', InsertLinkList L s d h = Done tt h' ∧ list_to h' L (Pure.insert s d l) (end_of h s l).
Proof.
  intros (a & n & xs & -> & Hseg & <-)%list_at_segment Hd.
  pose proof Hseg as (Ha & Hc & Hnd). unfold InsertLinkList.
  run_step (deref_run _ _ _ Ha). rewrite (chain_null _ _ _ Hc).
  destruct xs as [|x xs].
  - pose proof (malloc_fresh h) as Hf. set (f := (malloc_at h).1) in *.
    assert (Hfa : f ≠ a) by congruence.
    run_step (new_node_run h s d Hd). fold f. unfold new_node.
    run_step (set_next_run _ _ _ Null (lookup_insert_eq h f (mk_node s d (next (malloc_at h).2)))).
    cbn [nseq recvline]. rewrite insert_insert_eq.
    erewrite set_next_run by (rewrite lookup_insert_ne; done).
    eexists. split; [done|]. apply list_to_Null, list_at_segment. eexists a, _, [(f, (s, d))].
    split; [done|]. split; [|done]. split_and!; [apply lookup_insert_eq| |].
    + simpl. split; [done|]. exists Null. by rewrite lookup_insert_ne, lookup_insert_eq.
    + simpl. apply NoDup_cons. split; [set_solver|apply NoDup_singleton].
  - run_step (eq_refl (Done h h)).
    destruct (insert_walk_spec (S (size h)) h a n (x :: xs) s d Hseg) as (h' & xs' & Hrun & Hrel & Hxs & _);
      [by apply segment_size in Hseg|done|].
    exists h'. split; [exact Hrun|]. destruct Hrel as [(q & Ha' & Hc' & Hnd') _].
    by eexists a, _, xs'.
Qed.

Lemma InsertLinkList_run `{ZeroedAllocator} h L l s d :
  list_at h L l → (String.length d < RECVLINE)%nat →
  ∃ h', InsertLinkList L s d h = Done tt h' ∧ list_at h' L (Pure.insert s d l).
Proof.
  intros Hl Hd. destruct (InsertLinkList_any h L l s d Hl Hd) as (h' & Hrun & Hl').
  exists h'. split; [done|]. apply list_to_Null. unfold end_of in Hl'. rewrite malloc_zeroed in Hl'.
  destruct l; [done|]. by destruct (all_below s _).
Qed.

(** The bytes of a block matter only in the [next] of an appended node. *)
Lemma deref_state p h n h' : deref p h = Done n h' → h' = h.
Proof. destruct p as [|a]; [done|]. unfold deref. rewrite bind_get. by destruct (h !! a) as [x|]; [intros [= _ <-]|]. Qed.

Lemma insert_walk_state fuel s p h q h' : insert_walk fuel s p h = Done q h' → h' = h.
Proof.
  revert p. induction fuel as [|fuel IH]; intros p; [done|]. cbn [insert_walk].
  intros (n & h1 & Hn & Hrun)%bind_Done_inv. apply deref_state in Hn as ->.
  destruct (is_null (next n)); [by injection Hrun as _ <-|].
  apply bind_Done_inv in Hrun as (n' & h2 & Hn' & Hrun). apply deref_state in Hn' as ->.
  destruct (nseq n' <? s); [by eapply IH|by injection Hrun as _ <-].
Qed.

Lemma new_node_zeroed (A : Allocator) s d h :
  next (malloc_at h).2 = Null → @new_node A s d h = @new_node (zeroed A) s d h.
Proof.
  intros Hn. destruct (decide (String.length d < RECVLINE)%nat) as [Hd|Hd].
  - rewrite (@new_node_run A h s d Hd), (@new_node_run (zeroed A) h s d Hd). cbn. by rewrite Hn.
  - unfold new_node. rewrite (bind_Done _ _ _ _ _ (@malloc_run A h)), (bind_Done _ _ _ _ _ (@malloc_run (zeroed A) h)).
    rewrite (bind_Done _ _ _ _ _ (deref_run _ _ _ (lookup_insert_eq h (@malloc_at A h).1 (@malloc_at A h).2))).
    rewrite (bind_Done _ _ _ _ _ (deref_run _ _ _ (lookup_insert_eq h (@malloc_at (zeroed A) h).1 (@malloc_at (zeroed A) h).2))).
    unfold strcpy. destruct (Nat.ltb_spec (String.length d) RECVLINE); [lia|done].
Qed.

Lemma InsertLinkList_zeroed `{A : Allocator} L s d h :
  next (malloc_at h).2 = Null → @InsertLinkList A L s d h = @InsertLinkList (zeroed A) L s d h.
Proof.
  intros Hn. pose proof (new_node_zeroed A s d h Hn) as Hnew. unfold InsertLinkList, mbind, M_bind, get.
  destruct (deref L h) as [l h1|? ?|?] eqn:Hl; [|done..]. apply deref_state in Hl as ->.
  destruct (is_null (next l)); [by rewrite Hnew|].
  destruct (insert_walk _ s L h) as [p h1|? ?|?] eqn:Hw; [|done..]. apply insert_walk_state in Hw as ->.
  unfold insert_after, mbind, M_bind. destruct (deref p h) as [n h1|? ?|?] eqn:Hp; [|done..]. apply deref_state in Hp as ->.
  destruct (is_null (next n)); [by rewrite Hnew|].
  destruct (deref (next n) h) as [n' h1|? ?|?] eqn:Hp'; [|done..]. apply deref_state in Hp' as ->.
  destruct (negb _); [|done]. cbn [when]. by rewrite Hnew.
Qed.

Lemma length_walk_run fuel h p xs k :
  chain h p xs → (length xs < fuel)%nat → 0 ≤ k → k + Z.of_nat (length xs) ≤ INT_MAX →
  length_walk fuel p k h = Done (k + Z.of_nat (length xs)) h.
Proof.
  unfold INT_MAX.
  revert p xs k. induction fuel as [|fuel IH]; intros p xs k Hc Hf Hk Hb; [lia|].
  simpl. rewrite (chain_null _ _ _ Hc). destruct xs as [|[b [s d]] xs]; simpl in *.
  - unfold mret, M_ret. f_equal. lia.
  - destruct Hc as (-> & q & Hlk & Hc). run_step (deref_run _ _ _ Hlk).
    unfold int_op, is_int, INT_MIN, INT_MAX.
    destruct (Z.leb_spec (- 2 ^ 31) (k + 1)), (Z.leb_spec (k + 1) (2 ^ 31 - 1)); try lia.
    simpl. run_step (eq_refl (Done (k + 1) h)). rewrite (IH _ xs) by (done || lia).
    f_equal. lia.
Qed.

Lemma find_walk_run fuel h port ip f p xs :
  chain h p xs → (length xs < fuel)%nat →
  ∃ f' r, find_walk fuel port ip f p h = Done (f', r) h ∧
          is_null r = negb (existsb (Pure.matches port ip) xs.*2).
Proof.
  revert f p xs. induction fuel as [|fuel IH]; intros f p xs Hc Hf; [lia|].
  cbn [find_walk]. rewrite (chain_null _ _ _ Hc). destruct xs as [|[b [s d]] xs]; simpl in Hc, Hf.
  - subst p. by exists f, Null.
  - destruct Hc as (-> & q & Hb & Hc). run_step (deref_run _ _ _ Hb). cbn [nseq recvline].
    change (((b, (s, d)) :: xs).*2) with ((s, d) :: xs.*2). cbn [existsb].
    unfold Pure.matches at 1. cbn [fst snd].
    destruct (s =? port), (streq d ip); cbn [negb andb orb].
    1: by exists f, (Ptr b).
    all: by apply IH; [|lia].
Qed.

(** The search loop followed by the unlinking of what it found. *)
Definition unlink (fr : ptr * ptr) : M heap unit :=
  let '(front, rear) := fr in
  when (negb (is_null rear)) (r ← deref rear; set_next front (next r);; free rear).

Lemma unlink_spec fuel h port ip a n xs :
  segment h a n xs → (length xs < fuel)%nat →
  ∃ h' q xs', (find_walk fuel port ip (Ptr a) (next n) ≫= unlink) h = Done tt h' ∧
     segment h' a (mk_node (nseq n) (recvline n) q) xs' ∧
     xs'.*2 = Pure.remove port ip xs.*2 ∧
     (∀ x, x ∈ xs'.*1 → x ∈ xs.*1) ∧ (∀ b, b ∉ a :: xs.*1 → h' !! b = h !! b).
Proof.
  revert a n xs. induction fuel as [|fuel IH]; intros a n xs Hseg Hf; [lia|].
  cbn [find_walk]. pose proof Hseg as (Ha & Hc & Hnd). rewrite (chain_null _ _ _ Hc).
  destruct xs as [|[b [s d]] xs].
  - run_step (eq_refl (Done (Ptr a, next n) h)). simpl in Hc.
    exists h, (next n), []. rewrite Hc at 1. split_and!; try done. by destruct n.
  - destruct (segment_cons _ _ _ _ _ _ _ Hseg) as (q & Hn & Hab & Hax & Hsegb).
    pose proof Hsegb as (Hb & Hcb & Hndb). rewrite Hn.
    rewrite <- bind_assoc_M. run_step (deref_run _ _ _ Hb). cbn [nseq recvline next].
    change (((b, (s, d)) :: xs).*2) with ((s, d) :: xs.*2). cbn [Pure.remove].
    destruct (Pure.matches port ip (s, d)) eqn:Hm; unfold Pure.matches in Hm; cbn [fst snd] in Hm.
    + apply andb_true_iff in Hm as [-> ->]. cbn [negb orb]. run_step (eq_refl (Done (Ptr a, Ptr b) h)).
      unfold unlink. cbn [is_null negb when]. run_step (deref_run _ _ _ Hb). cbn [next].
      run_step (set_next_run _ _ _ q Ha).
      erewrite free_run by (rewrite lookup_insert_ne; done).
      eexists _, q, xs. split; [done|]. split_and!; try done.
      * split_and!; [by rewrite lookup_delete_ne, lookup_insert_eq by done| |].
        -- eapply chain_frame; [|exact Hcb]. intros x Hx. apply NoDup_cons in Hndb as [Hxb _].
           rewrite lookup_delete_ne, lookup_insert_ne; [done|..]; intros ->; done.
        -- by apply NoDup_cons; apply NoDup_cons in Hndb as [_ ?].
      * intros x. simpl. set_solver.
      * intros x Hx. simpl in Hx. rewrite lookup_delete_ne, lookup_insert_ne; set_solver.
    + assert (negb (s =? port) || negb (streq d ip) = true) as ->.
      { by rewrite <- negb_andb, Hm. }
      simpl in Hf. destruct (IH b _ xs Hsegb ltac:(lia)) as (h' & q' & ys & Hrun & Hseg' & Hys & Hadr & Hfr).
      cbn [next nseq recvline] in *. exists h', (Ptr b), ((b, (s, d)) :: ys).
      destruct Hseg' as (Hb' & Hc' & Hnd'). assert (Ha' : a ∉ b :: xs.*1) by set_solver.
      split; [exact Hrun|]. split_and!.
      * split_and!.
        -- rewrite Hfr by done. rewrite Ha, <- Hn. by destruct n.
        -- simpl. split; [done|]. by exists q'.
        -- simpl. apply NoDup_cons. split; [set_solver|done].
      * simpl. f_equal. exact Hys.
      * intros x. simpl. set_solver.
      * intros x. simpl. set_solver.
Qed.

Lemma ack_walk_run fuel h p xs k :
  chain h p xs → (length xs < fuel)%nat → Forall entry_ok xs.*2 → 0 ≤ k →
  k + Z.of_nat (length xs) + 1 ≤ INT_MAX →
  ack_walk fuel p k h = Done (Pure.next_ack k xs.*2 - 1) h ∧
  k + 1 ≤ Pure.next_ack k xs.*2 ≤ k + Z.of_nat (length xs) + 1.
Proof.
  unfold INT_MAX. revert p xs k.
  induction fuel as [|fuel IH]; intros p xs k Hc Hf Hok Hk Hb; [lia|].
  cbn [ack_walk]. rewrite (chain_null _ _ _ Hc). destruct xs as [|[b [s d]] xs].
  - simpl. unfold mret, M_ret. split; [f_equal|]; lia.
  - destruct Hc as (-> & q & Hlk & Hc). simpl length in *. run_step (deref_run _ _ _ Hlk).
    cbn [nseq next]. change (((b, (s, d)) :: xs).*2) with ((s, d) :: xs.*2) in *.
    cbn [Pure.next_ack]. inversion_clear Hok as [|? ? [Hs _] Hok'].
    unfold int_op, is_int, INT_MIN, INT_MAX. cbn [fst] in Hs.
    destruct (Z.leb_spec (- 2 ^ 31) (k + 1)), (Z.leb_spec (k + 1) (2 ^ 31 - 1)); try lia.
    cbn [andb]. run_step (eq_refl (Done (k + 1) h)). rewrite u32_small by lia.
    destruct (Z.eqb_spec s (k + 1)) as [->|].
    + rewrite s32_int by (unfold INT_MIN, INT_MAX; lia).
      destruct (IH q xs (k + 1) Hc ltac:(lia) Hok' ltac:(lia) ltac:(lia)) as [-> Hr]. split; [done|lia].
    + unfold mret, M_ret. split; [f_equal|]; lia.
Qed.

(** Sorted insertion on finite lists. *)
Lemma elem_of_insert s d l e :
  increasing l → e ∈ Pure.insert s d l ↔ e ∈ l ∨ (e = (s, d) ∧ s ∉ l.*1).
Proof.
  induction l as [|[s' d'] l IH]; simpl; [set_solver|]. intros [Hall Hinc].
  rewrite Forall_forall in Hall. assert (Hnot : ∀ x, x ∈ l.*1 → s' < x).
  { intros x (y & -> & Hy)%list_elem_of_fmap. apply (Hall y Hy). }
  destruct (Z.ltb_spec s' s); [|destruct (Z.eqb_spec s' s)].
  - rewrite elem_of_cons, IH, !elem_of_cons by done.
    split; [naive_solver lia|]. intros [[?|?]|[? ?]]; [naive_solver..|]. set_solver.
  - subst. split; [naive_solver|]. set_solver.
  - rewrite !elem_of_cons. split; [|naive_solver].
    intros [->|?]; [|naive_solver]. right. split; [done|].
    intros [?|Hs]; [lia|]. specialize (Hnot s Hs). lia.
Qed.

Lemma increasing_insert s d l : increasing l → increasing (Pure.insert s d l).
Proof.
  induction l as [|[s' d'] l IH]; simpl; [done|]. intros [Hall Hinc].
  destruct (Z.ltb_spec s' s); [|destruct (Z.eqb_spec s' s)]; simpl; split_and!; try done.
  - rewrite Forall_forall in Hall |- *. intros e [He|[-> _]]%elem_of_insert; [|done|done].
    by apply Hall.
  - by apply IH.
  - rewrite Forall_forall in Hall |- *. intros e [->|He]%elem_of_cons; simpl; [lia|].
    specialize (Hall e He). simpl in Hall. lia.
Qed.

Lemma increasing_lt s (l : list Pure.entry) x : Forall (λ e', s < e'.1) l → x ∈ l.*1 → s < x.
Proof.
  rewrite Forall_forall. intros H (y & -> & Hy)%list_elem_of_fmap. by apply H.
Qed.

(** [next_ack] is the first gap behind [start]. *)
Lemma next_ack_gap start (l : list Pure.entry) :
  increasing l → (∀ e, e ∈ l → start < e.1) →
  start < Pure.next_ack start l ∧ Pure.next_ack start l ∉ l.*1 ∧
  ∀ k, start < k < Pure.next_ack start l → k ∈ l.*1.
Proof.
  revert start. induction l as [|[s d] l IH]; intros start Hinc Hgt.
  - simpl. split_and!; [lia|set_solver|lia].
  - change (((s, d) :: l).*1) with (s :: l.*1). cbn [Pure.next_ack].
    destruct Hinc as [Hall Hinc]. destruct (Z.eqb_spec s (start + 1)) as [->|Hne].
    + destruct (IH (start + 1) Hinc) as (H1 & H2 & H3).
      { intros e He. rewrite Forall_forall in Hall. by apply Hall. }
      split_and!; [lia| |].
      * rewrite not_elem_of_cons. split; [lia|done].
      * intros k Hk. rewrite elem_of_cons. destruct (decide (k = start + 1)); [by left|].
        right. apply H3. lia.
    + pose proof (Hgt (s, d) ltac:(by left)) as Hs. simpl in Hs. split_and!; [lia| |lia].
      rewrite not_elem_of_cons. split; [lia|]. intros Hin.
      apply (increasing_lt s) in Hin; [lia|done].
Qed.

Lemma remove_not_matches port ip l :
  NoDup (l : list Pure.entry) → existsb (Pure.matches port ip) (Pure.remove port ip l) = false.
Proof.
  induction l as [|[s d] l IH]; intros Hnd; [done|]. apply NoDup_cons in Hnd as [Hx Hnd].
  simpl. destruct (Pure.matches port ip (s, d)) eqn:Hm.
  - unfold Pure.matches in Hm. simpl in Hm.
    apply andb_true_iff in Hm as [->%Z.eqb_eq ->%streq_eq]. clear IH Hnd. induction l as [|[s' d'] l IH]; [done|]. simpl.
    apply not_elem_of_cons in Hx as [Hne Hx]. rewrite (IH Hx), orb_false_r.
    unfold Pure.matches. simpl. apply andb_false_iff.
    destruct (Z.eqb_spec s' port) as [->|]; [|by left]. right. apply streq_neq. congruence.
  - simpl. rewrite Hm. simpl. by apply IH.
Qed.

Lemma increasing_NoDup l : increasing l → NoDup l.
Proof.
  induction l as [|e l IH]; [constructor|]. intros [Hall Hinc]. apply NoDup_cons. split; [|by apply IH].
  intros Hin. rewrite Forall_forall in Hall. specialize (Hall e Hin). lia.
Qed.

Lemma remove_subset port ip l e : e ∈ Pure.remove port ip l → e ∈ (l : list Pure.entry).
Proof.
  induction l as [|x l IH]; simpl; [done|]. destruct (Pure.matches port ip x); set_solver.
Qed.

(** Looking behind the header, and taking the first node off the list. *)
Lemma first_run h L l :
  list_at h L l →
  ∃ n, deref L h = Done n h ∧
  match l with
  | [] => next n = Null
  | (s, d) :: l' => ∃ b n' h1 h2, next n = Ptr b ∧ deref (Ptr b) h = Done n' h ∧
      nseq n' = s ∧ recvline n' = d ∧ set_next L (next n') h = Done tt h1 ∧
      free (Ptr b) h1 = Done tt h2 ∧ list_at h2 L l'
  end.
Proof.
  intros (a & n & xs & -> & Hseg & <-)%list_at_segment. pose proof Hseg as (Ha & Hc & _).
  exists n. split; [by apply deref_run|]. destruct xs as [|[b [s d]] xs]; [done|].
  destruct (segment_cons _ _ _ _ _ _ _ Hseg) as (q & Hn & Hab & Hax & Hsegb).
  pose proof Hsegb as (Hb & Hcb & Hndb). pose proof (set_next_run _ _ _ q Ha) as Hset.
  eexists b, (mk_node s d q), _, _. split; [done|]. split; [by apply deref_run|]. split; [done|].
  split; [done|]. split; [exact Hset|].
  split; [eapply free_run; rewrite lookup_insert_ne by done; exact Hb|].
  apply list_at_segment. exists a, (mk_node (nseq n) (recvline n) q), xs.
  apply NoDup_cons in Hndb as [Hbx Hnd]. split; [done|]. split; [|done]. split_and!.
  - by rewrite lookup_delete_ne, lookup_insert_eq by done.
  - eapply chain_frame; [|exact Hcb]. intros x Hx.
    rewrite lookup_delete_ne, lookup_insert_ne; [done|..]; intros ->; done.
  - by apply NoDup_cons.
Qed.

Lemma list_at_size h L l : list_at h L l → (length l < S (size h))%nat.
Proof. intros (a & n & xs & -> & Hseg & <-)%list_at_segment. rewrite length_fmap. by eapply segment_size. Qed.

Lemma increasing_length lo hi l :
  increasing l → Forall (λ e, lo < e.1 ≤ hi) l → lo ≤ hi → Z.of_nat (length l) ≤ hi - lo.
Proof.
  revert lo. induction l as [|[s d] l IH]; intros lo Hinc Hall Hle; simpl; [lia|].
  destruct Hinc as [Hs Hinc]. apply Forall_cons in Hall as [Hb Hall]. cbn [fst] in *.
  specialize (IH s Hinc). assert (Forall (λ e, s < e.1 ≤ hi) l) as Hall'.
  { rewrite Forall_forall in *. intros e He. specialize (Hs e He). specialize (Hall e He). simpl in *. lia. }
  specialize (IH Hall'). lia.
Qed.

(** * Concrete allocators *)

Definition fresh_addr (h : heap) : nat := S (foldr Nat.max 0%nat (map_to_list h).*1).
Lemma fresh_addr_free h : h !! fresh_addr h = None.
Proof.
  destruct (h !! fresh_addr h) as [n|] eqn:Hn; [|done].
  apply elem_of_map_to_list, (list_elem_of_fmap_2 fst) in Hn. simpl in Hn. exfalso.
  unfold fresh_addr in Hn. revert Hn. generalize ((map_to_list h).*1). intros l Hin.
  assert (∀ x, x ∈ l → (x ≤ foldr Nat.max 0 l)%nat) as Hle.
  { clear Hin. induction l; intros x; simpl; [set_solver|]. intros [->|Hx]%elem_of_cons; [lia|].
    specialize (IHl x Hx). lia. }
  specialize (Hle _ Hin). lia.
Qed.

(** Memory whose bytes are all zero. *)
Definition zero_alloc : Allocator :=
  {| malloc_at := λ h, (fresh_addr h, mk_node 0 "" Null); malloc_fresh := fresh_addr_free |}.

(** Memory whose last word still holds the pointer [p]. *)
Definition junk_alloc (p : ptr) : Allocator :=
  {| malloc_at := λ h, (fresh_addr h, mk_node 0 "" p); malloc_fresh := fresh_addr_free |}.

#[export] Instance zero_alloc_zeroed : @ZeroedAllocator zero_alloc := λ _, eq_refl.

(** A header node at address 0 with the nodes 1, 2, ... behind it. *)
Fixpoint nodes_from (a : nat) (l : list Pure.entry) : heap :=
  match l with
  | [] => ∅
  | (s, d) :: l' =>
      <[a := mk_node s d (match l' with [] => Null | _ => Ptr (S a) end)]> (nodes_from (S a) l')
  end.

(** * Properties *)

(** C18: [InsertLinkList] on a sorted list, for any allocator and whatever its blocks
    contain: it has no undefined behaviour, leaves the list sorted strictly by sequence
    number, adds the pair exactly when its number was not there yet, and ends the list
    in NULL; but when the new number is larger than those of a list that is not empty,
    the list ends in the bytes that [malloc] left in the [next] of the new node. *)
Theorem InsertLinkList_refines `{Allocator} h L l s d :
  list_at h L l → increasing l → (String.length d < RECVLINE)%nat →
  ∃ h', InsertLinkList L s d h = Done tt h' ∧
        list_to h' L (Pure.insert s d l)
          (if bool_decide (l ≠ []) && all_below s l then next (malloc_at h).2 else Null) ∧
        increasing (Pure.insert s d l) ∧
        ∀ e, e ∈ Pure.insert s d l ↔ e ∈ l ∨ (e = (s, d) ∧ s ∉ l.*1).
Proof.
  intros Hl Hinc Hd. destruct (InsertLinkList_any h L l s d Hl Hd) as (h' & Hrun & Hl').
  exists h'. split_and!; [done|by destruct l|by apply increasing_insert|].
  intros e. by apply elem_of_insert.
Qed.

Definition heap2 : heap := nodes_from 0 [(0, ""); (2, "b"); (5, "e")]%string.

Lemma heap2_list : list_at heap2 (Ptr 0) [(2, "b"); (5, "e")]%string.
Proof.
  exists 0%nat, (mk_node 0 "" (Ptr 1)), [(1%nat, (2, "b")); (2%nat, (5, "e"))]%string.
  split_and!; [reflexivity|reflexivity| |apply (bool_decide_unpack _); vm_compute; exact I|reflexivity].
  simpl. split; [done|]. eexists. split; [reflexivity|]. split; [done|]. by eexists.
Defined.

Lemma InsertLinkList_refines_witness :
  (∃ h', @InsertLinkList (junk_alloc (Ptr 99)) (Ptr 0) 3 "c" heap2 = Done tt h' ∧
         list_to h' (Ptr 0) [(2, "b"); (3, "c"); (5, "e")]%string Null) ∧
  (∃ h', @InsertLinkList (junk_alloc (Ptr 99)) (Ptr 0) 7 "g" heap2 = Done tt h' ∧
         list_to h' (Ptr 0) [(2, "b"); (5, "e"); (7, "g")]%string (Ptr 99)).
Proof.
  assert (Hinc : increasing [(2, "b"); (5, "e")]%string) by (simpl; split_and!; repeat constructor; simpl; lia).
  split.
  - destruct (@InsertLinkList_refines (junk_alloc (Ptr 99)) heap2 (Ptr 0) _ 3 "c" heap2_list Hinc ltac:(vm_compute; lia))
      as (h' & H1 & H2 & _). exists h'. split; [exact H1|exact H2].
  - destruct (@InsertLinkList_refines (junk_alloc (Ptr 99)) heap2 (Ptr 0) _ 7 "g" heap2_list Hinc ltac:(vm_compute; lia))
      as (h' & H1 & H2 & _). exists h'. split; [exact H1|exact H2].
Defined.

(** [InsertLinkList] does not assign [next] of a node it appends behind the last
    one.  When the memory [malloc] returns still holds a stale pointer there, the
    list it leaves has no end: the next [LinkListLength] follows the stale pointer. *)
Theorem InsertLinkList_append_unterminated :
  ∃ (A : Allocator) (h h' : heap) L,
    list_at h L [(2, "b"); (5, "e")]%string ∧
    InsertLinkList L 7 "g" h = Done tt h' ∧
    LinkListLength L h = Done 2 h ∧ LinkListLength L h' = Undefined BadPointer.
Proof.
  exists (junk_alloc (Ptr 99)), heap2, (<[2%nat := mk_node 5 "e" (Ptr 3)]>
    (<[3%nat := mk_node 7 "g" (Ptr 99)]> heap2)), (Ptr 0).
  split; [exact heap2_list|]. split_and!; vm_compute; reflexivity.
Qed.

Lemma LinkListLength_run h L l :
  list_at h L l → Z.of_nat (length l) ≤ INT_MAX → LinkListLength L h = Done (Z.of_nat (length l)) h.
Proof.
  intros (a & n & xs & -> & Hseg & <-)%list_at_segment Hb. rewrite length_fmap in *.
  pose proof Hseg as (Ha & Hc & Hnd). pose proof (segment_size _ _ _ _ Hseg).
  unfold LinkListLength. run_step (eq_refl (Done h h)). run_step (deref_run _ _ _ Ha).
  rewrite (length_walk_run _ _ _ xs) by (done || lia). done.
Qed.

Lemma NextAck_run h L l start :
  list_at h L l → Forall entry_ok l → 0 ≤ start → start + Z.of_nat (length l) + 1 ≤ INT_MAX →
  NextAck L start h = Done (Pure.next_ack start l) h ∧
  start + 1 ≤ Pure.next_ack start l ≤ start + Z.of_nat (length l) + 1.
Proof.
  intros (a & n & xs & -> & Hseg & <-)%list_at_segment Hok Hst Hb. rewrite length_fmap in *.
  pose proof Hseg as (Ha & Hc & Hnd). pose proof (segment_size _ _ _ _ Hseg).
  destruct (ack_walk_run (S (size h)) h _ xs start Hc) as [Hrun Hr]; [done..|].
  split; [|done]. unfold NextAck. run_step (eq_refl (Done h h)). run_step (deref_run _ _ _ Ha).
  run_step Hrun. unfold INT_MAX in *. rewrite Z.sub_add. unfold int_op, is_int, INT_MIN, INT_MAX.
  destruct (Z.leb_spec (- 2 ^ 31) (Pure.next_ack start xs.*2)),
    (Z.leb_spec (Pure.next_ack start xs.*2) (2 ^ 31 - 1)); try lia. done.
Qed.

(** [LinkListLength] counts the list, and on a sorted list of numbers above
    [start] [NextAck] returns the first number after [start] that is missing: every
    number between is buffered, the result is not. *)
Theorem NextAck_first_gap h L l start :
  list_at h L l → increasing l → Forall entry_ok l → 0 ≤ start →
  (∀ e, e ∈ l → start < e.1) → start + Z.of_nat (length l) + 1 ≤ INT_MAX →
  LinkListLength L h = Done (Z.of_nat (length l)) h ∧
  ∃ r, NextAck L start h = Done r h ∧
       start < r ∧ r ∉ l.*1 ∧ ∀ k, start < k < r → k ∈ l.*1.
Proof.
  intros Hl Hinc Hok Hst Hgt Hb. split; [apply LinkListLength_run; [done|lia]|].
  exists (Pure.next_ack start l). split; [by apply (NextAck_run h L l start)|by apply next_ack_gap].
Qed.

Lemma NextAck_first_gap_witness :
  LinkListLength (Ptr 0) heap2 = Done 2 heap2 ∧ ∃ r, NextAck (Ptr 0) 1 heap2 = Done r heap2 ∧ 1 < r.
Proof.
  destruct (NextAck_first_gap heap2 (Ptr 0) _ 1 heap2_list) as (H1 & r & H2 & H3 & _).
  - simpl. split_and!; repeat constructor; simpl; lia.
  - repeat constructor; vm_compute; (lia || done).
  - lia.
  - intros e. rewrite !elem_of_cons. intros [->|[->|?%not_elem_of_nil]]; [simpl; lia..|done].
  - vm_compute. done.
  - split; [exact H1|]. exists r. split; [exact H2|exact H3].
Defined.

Lemma DeleteSelectedNode_run h L l port ip :
  list_at h L l → ∃ h', DeleteSelectedNode L port ip h = Done tt h' ∧ list_at h' L (Pure.remove port ip l).
Proof.
  intros (a & n & xs & -> & Hseg & <-)%list_at_segment.
  pose proof Hseg as (Ha & _ & _). pose proof (segment_size _ _ _ _ Hseg) as Hsz.
  destruct (unlink_spec (S (size h)) h port ip a n xs Hseg Hsz) as (h' & q & ys & Hrun & Hseg' & Hys & _ & _).
  exists h'. split.
  - unfold DeleteSelectedNode. run_step (eq_refl (Done h h)). run_step (deref_run _ _ _ Ha). exact Hrun.
  - apply list_at_segment. eexists a, _, ys. split_and!; [done| |done]. exact Hseg'.
Qed.

(** [DeleteSelectedNode] removes the first node with this port and address and
    nothing else, and afterwards [DuplicateNode] no longer finds the client. *)
Theorem DeleteSelectedNode_then_unknown h L l port ip :
  list_at h L l → increasing l →
  ∃ h', DeleteSelectedNode L port ip h = Done tt h' ∧
        list_at h' L (Pure.remove port ip l) ∧
        DuplicateNode L port ip h' = Done 0 h' ∧
        (∀ e, e ∈ l → Pure.matches port ip e = false → e ∈ Pure.remove port ip l).
Proof.
  intros Hl Hinc. destruct (DeleteSelectedNode_run h L l port ip Hl) as (h' & Hrun & Hl').
  exists h'. split_and!; [done|done| |].
  - destruct (proj1 (list_at_segment _ _ _) Hl') as (a & n & ys & -> & Hseg' & Hys).
    pose proof Hseg' as (Ha' & Hc' & _). pose proof (segment_size _ _ _ _ Hseg') as Hsz'.
    unfold DuplicateNode. run_step (eq_refl (Done h' h')). run_step (deref_run _ _ _ Ha').
    destruct (find_walk_run (S (size h')) h' port ip (Ptr a) _ ys Hc' Hsz') as (f & r & Hf & Hr).
    run_step Hf. rewrite Hr, Hys, remove_not_matches by by apply increasing_NoDup. done.
  - intros e He Hm. clear -He Hm. induction l as [|x l IH]; [set_solver|]. simpl.
    destruct (Pure.matches port ip x) eqn:Hx; apply elem_of_cons in He as [->|He]; try congruence;
      set_solver.
Qed.

Definition heap_clients : heap :=
  nodes_from 0 [(0, ""); (4000, "10.0.0.1"); (5000, "10.0.0.2")]%string.

Lemma heap_clients_list :
  list_at heap_clients (Ptr 0) [(4000, "10.0.0.1"); (5000, "10.0.0.2")]%string.
Proof.
  exists 0%nat, (mk_node 0 "" (Ptr 1)), [(1%nat, (4000, "10.0.0.1")); (2%nat, (5000, "10.0.0.2"))]%string.
  split_and!; [reflexivity|reflexivity| |apply (bool_decide_unpack _); vm_compute; exact I|reflexivity].
  simpl. split; [done|]. eexists. split; [reflexivity|]. split; [done|]. by eexists.
Defined.

Lemma DeleteSelectedNode_then_unknown_witness :
  ∃ h', DeleteSelectedNode (Ptr 0) 4000 "10.0.0.1" heap_clients = Done tt h' ∧
        DuplicateNode (Ptr 0) 4000 "10.0.0.1" h' = Done 0 h'.
Proof.
  destruct (DeleteSelectedNode_then_unknown heap_clients (Ptr 0) _ 4000 "10.0.0.1" heap_clients_list)
    as (h' & H1 & _ & H3 & _).
  - simpl. split_and!; repeat constructor; simpl; lia.
  - exists h'. split; [exact H1|exact H3].
Defined.

(** The table of connected clients is keyed by port alone.  Inserting a client
    whose port another host already uses changes nothing, and [DuplicateNode] keeps
    answering that this client is new. *)
Theorem same_port_client_not_recorded `{ZeroedAllocator} h L l port ip ip' :
  list_at h L l → increasing l → (port, ip') ∈ l → ip ≠ ip' → (String.length ip < RECVLINE)%nat →
  ∃ h', InsertLinkList L port ip h = Done tt h' ∧ list_at h' L l ∧
        DuplicateNode L port ip h' = Done 0 h'.
Proof.
  intros Hl Hinc Hin Hne Hlen. destruct (InsertLinkList_run h L l port ip Hl Hlen) as (h' & Hrun & Hl').
  assert (Hsame : Pure.insert port ip l = l).
  { clear -Hinc Hin. induction l as [|[s d] l IH]; [set_solver|]. simpl. destruct Hinc as [Hall Hinc].
    apply elem_of_cons in Hin as [[= -> ->]|Hin].
    - by rewrite Z.ltb_irrefl, Z.eqb_refl.
    - rewrite Forall_forall in Hall. specialize (Hall _ Hin). simpl in Hall.
      destruct (Z.ltb_spec s port); [|lia]. by rewrite IH. }
  rewrite Hsame in Hl'. exists h'. split_and!; [done..|].
  apply list_at_segment in Hl' as (a & n & xs & -> & Hseg & <-).
  pose proof Hseg as (Ha & Hc & _). pose proof (segment_size _ _ _ _ Hseg) as Hsz.
  unfold DuplicateNode. run_step (eq_refl (Done h' h')). run_step (deref_run _ _ _ Ha).
  destruct (find_walk_run (S (size h')) h' port ip (Ptr a) _ xs Hc Hsz) as (f & r & Hf & Hr).
  run_step Hf. rewrite Hr. assert (existsb (Pure.matches port ip) xs.*2 = false) as ->; [|done].
  clear -Hinc Hin Hne. induction (xs.*2) as [|[s d] l IH]; [done|]. simpl.
  destruct Hinc as [Hall Hinc]. apply orb_false_iff. rewrite Forall_forall in Hall.
  apply elem_of_cons in Hin as [[= <- <-]|Hin].
  - split; [unfold Pure.matches; simpl; apply andb_false_iff; right; by apply streq_neq, not_eq_sym|].
    apply not_true_iff_false. intros ([s' d'] & Hx & Hm)%existsb_exists.
    apply andb_true_iff in Hm as [Hm%Z.eqb_eq _]. apply list_elem_of_In, Hall in Hx. simpl in *. lia.
  - split; [|by apply IH]. specialize (Hall _ Hin). simpl in Hall. unfold Pure.matches. simpl.
    apply andb_false_iff. left. apply Z.eqb_neq. lia.
Qed.

Lemma same_port_client_not_recorded_witness :
  ∃ h', @InsertLinkList zero_alloc (Ptr 0) 4000 "10.0.0.9" heap_clients = Done tt h' ∧
        DuplicateNode (Ptr 0) 4000 "10.0.0.9" h' = Done 0 h'.
Proof.
  destruct (@same_port_client_not_recorded zero_alloc zero_alloc_zeroed heap_clients (Ptr 0) _ 4000
              "10.0.0.9" "10.0.0.1" heap_clients_list) as (h' & H1 & _ & H3).
  - simpl. split_and!; repeat constructor; simpl; lia.
  - left.
  - done.
  - vm_compute. lia.
  - exists h'. split; [exact H1|exact H3].
Defined.
