(* ===== verification/Rtt.v ===== *)
(** The retransmission timer of the file server: unpv13e/lib/rtt.c and unprtt.h as
    this repository modified them (integer fields, RTO between 1 and 3 seconds). *)

From S2P Require Export CInt.

Record rtt_info := mk_rtt {
  rtt_rtt : Z;
  rtt_srtt : Z;
  rtt_rttvar : Z;
  rtt_rto : Z;
  rtt_nrexmt : Z;
  rtt_base : Z (* uint32_t *)
}.

Definition RTT_RXTMIN : Z := 1.
Definition RTT_RXTMAX : Z := 3.
Definition RTT_MAXNREXMT : Z := 12.

Definition set_rtt (x : Z) (p : rtt_info) : rtt_info :=
  mk_rtt x (rtt_srtt p) (rtt_rttvar p) (rtt_rto p) (rtt_nrexmt p) (rtt_base p).
Definition set_srtt (x : Z) (p : rtt_info) : rtt_info :=
  mk_rtt (rtt_rtt p) x (rtt_rttvar p) (rtt_rto p) (rtt_nrexmt p) (rtt_base p).
Definition set_rttvar (x : Z) (p : rtt_info) : rtt_info :=
  mk_rtt (rtt_rtt p) (rtt_srtt p) x (rtt_rto p) (rtt_nrexmt p) (rtt_base p).
Definition set_rto (x : Z) (p : rtt_info) : rtt_info :=
  mk_rtt (rtt_rtt p) (rtt_srtt p) (rtt_rttvar p) x (rtt_nrexmt p) (rtt_base p).
Definition set_nrexmt (x : Z) (p : rtt_info) : rtt_info :=
  mk_rtt (rtt_rtt p) (rtt_srtt p) (rtt_rttvar p) (rtt_rto p) x (rtt_base p).
Definition set_rtt_base (x : Z) (p : rtt_info) : rtt_info :=
  mk_rtt (rtt_rtt p) (rtt_srtt p) (rtt_rttvar p) (rtt_rto p) (rtt_nrexmt p) x.

(** RTT_RTOCALC: [((ptr)->rtt_srtt + (4 * (ptr)->rtt_rttvar)) / 8]. *)
Definition RTT_RTOCALC : M rtt_info Z :=
  p ← get;
  v ← int_op (4 * rtt_rttvar p);
  t ← int_op (rtt_srtt p + v);
  mret (Z.quot t 8).

Definition rtt_minmax (rto : Z) : Z :=
  if rto <? RTT_RXTMIN then RTT_RXTMIN
  else if rto >? RTT_RXTMAX then RTT_RXTMAX
  else rto.

(** [tv_sec] is the clock at the call. *)
Definition rtt_init (tv_sec : Z) : M rtt_info unit :=
  modify (set_rtt_base (u32 tv_sec));;
  modify (set_rtt 0);;
  modify (set_srtt 0);;
  modify (set_rttvar 6);;
  r ← RTT_RTOCALC;
  modify (set_rto (rtt_minmax r)).

(** Milliseconds since [rtt_init], as a uint32_t. *)
Definition rtt_ts (tv_sec tv_usec : Z) (p : rtt_info) : Z :=
  u32 ((tv_sec - rtt_base p) * 1000 + Z.quot tv_usec 1000).

Definition rtt_newpack : M rtt_info unit := modify (set_nrexmt 0).

Definition rtt_start : M rtt_info Z := gets rtt_rto.

(** The estimators are updated in double precision and truncated to [int]; the
    doubles are multiples of 1/8 below 2^31, hence exact. *)
Definition rtt_stop (ms : Z) : M rtt_info unit :=
  modify (set_rtt (u32 (ms * 8) / 1000));;
  p ← get;
  delta ← int_op (rtt_rtt p - rtt_srtt p);
  s ← int_op (Z.quot (8 * rtt_srtt p + delta) 8);
  modify (set_srtt s);;
  let delta := if delta <? 0 then - delta else delta in
  v ← int_op (Z.quot (4 * rtt_rttvar p + (delta - rtt_rttvar p)) 4);
  modify (set_rttvar v);;
  r ← RTT_RTOCALC;
  modify (set_rto (rtt_minmax r)).

Definition rtt_timeout : M rtt_info Z :=
  p ← get;
  r ← int_op (rtt_rto p * 2);
  modify (set_rto (rtt_minmax r));;
  n ← int_op (rtt_nrexmt p + 1);
  modify (set_nrexmt n);;
  mret (if n >? RTT_MAXNREXMT then -1 else 0).

(** * Invariant *)

(** The largest measured round trip: [(2^32 - 1) / 1000], in eighths of a second. *)
Definition RTT_MAX : Z := 4294967.

Definition rtt_ok (p : rtt_info) : Prop :=
  RTT_RXTMIN ≤ rtt_rto p ≤ RTT_RXTMAX ∧
  0 ≤ rtt_srtt p ≤ RTT_MAX ∧ 0 ≤ rtt_rttvar p ≤ RTT_MAX.

(** * Lemmas *)

Lemma rtt_minmax_range x : RTT_RXTMIN ≤ rtt_minmax x ≤ RTT_RXTMAX.
Proof.
  unfold rtt_minmax, RTT_RXTMIN, RTT_RXTMAX. destruct (Z.ltb_spec x 1); [lia|].
  destruct (Z.gtb_spec x 3); lia.
Qed.

Ltac int_range := unfold INT_MIN, INT_MAX, RTT_MAX in *; lia.

Lemma RTOCALC_run p :
  0 ≤ rtt_srtt p ≤ RTT_MAX → 0 ≤ rtt_rttvar p ≤ RTT_MAX →
  RTT_RTOCALC p = Done ((rtt_srtt p + 4 * rtt_rttvar p) / 8) p.
Proof.
  intros H1 H2. unfold RTT_RTOCALC. run_step (eq_refl (Done p p)).
  run_step (int_op_ok (4 * rtt_rttvar p) p ltac:(int_range)).
  run_step (int_op_ok (rtt_srtt p + 4 * rtt_rttvar p) p ltac:(int_range)).
  unfold mret, M_ret. f_equal. apply Z.quot_div_nonneg; lia.
Qed.

(** The estimators after a measured round trip of [r] eighths of a second. *)
Definition next_srtt (s r : Z) : Z := (7 * s + r) / 8.
Definition next_rttvar (v s r : Z) : Z := (3 * v + Z.abs (r - s)) / 4.

Lemma next_srtt_range s r : 0 ≤ s ≤ RTT_MAX → 0 ≤ r ≤ RTT_MAX → 0 ≤ next_srtt s r ≤ RTT_MAX.
Proof.
  unfold next_srtt, RTT_MAX. intros. split; [apply Z.div_pos; lia|].
  apply Z.div_le_upper_bound; lia.
Qed.

Lemma next_rttvar_range v s r :
  0 ≤ v ≤ RTT_MAX → 0 ≤ s ≤ RTT_MAX → 0 ≤ r ≤ RTT_MAX → 0 ≤ next_rttvar v s r ≤ RTT_MAX.
Proof.
  unfold next_rttvar, RTT_MAX. intros. split; [apply Z.div_pos; lia|].
  apply Z.div_le_upper_bound; lia.
Qed.

Lemma measured_range ms : 0 ≤ u32 (ms * 8) / 1000 ≤ RTT_MAX.
Proof.
  pose proof (u32_range (ms * 8)). unfold RTT_MAX. split; [apply Z.div_pos; lia|].
  apply Z.lt_succ_r, Z.div_lt_upper_bound; lia.
Qed.

Lemma rtt_stop_run p ms :
  rtt_ok p →
  let r := u32 (ms * 8) / 1000 in
  let s := next_srtt (rtt_srtt p) r in
  let v := next_rttvar (rtt_rttvar p) (rtt_srtt p) r in
  rtt_stop ms p = Done tt (mk_rtt r s v (rtt_minmax ((s + 4 * v) / 8)) (rtt_nrexmt p) (rtt_base p)).
Proof.
  intros (Hrto & Hs & Hv). cbv zeta. pose proof (measured_range ms) as Hr.
  set (r := u32 (ms * 8) / 1000) in *.
  pose proof (next_srtt_range _ _ Hs Hr) as Hs'.
  pose proof (next_rttvar_range _ _ _ Hv Hs Hr) as Hv'.
  unfold rtt_stop. fold r. set (p1 := set_rtt r p).
  run_step (eq_refl (Done tt p1)). run_step (eq_refl (Done p1 p1)).
  subst p1. cbn [rtt_rtt rtt_srtt set_rtt].
  run_step (int_op_ok (r - rtt_srtt p) (set_rtt r p) ltac:(int_range)).
  assert (Z.quot (8 * rtt_srtt p + (r - rtt_srtt p)) 8 = next_srtt (rtt_srtt p) r) as Hsr.
  { unfold next_srtt. rewrite Z.quot_div_nonneg by lia. f_equal. lia. }
  cbn [rtt_rttvar rtt_srtt set_rtt].
  rewrite Hsr. run_step (int_op_ok (next_srtt (rtt_srtt p) r) (set_rtt r p) ltac:(int_range)).
  set (p2 := set_srtt (next_srtt (rtt_srtt p) r) (set_rtt r p)). run_step (eq_refl (Done tt p2)).
  cbv zeta. replace (if r - rtt_srtt p <? 0 then - (r - rtt_srtt p) else r - rtt_srtt p)
    with (Z.abs (r - rtt_srtt p)) by (destruct (Z.ltb_spec (r - rtt_srtt p) 0); lia).
  assert (Z.quot (4 * rtt_rttvar p + (Z.abs (r - rtt_srtt p) - rtt_rttvar p)) 4 =
          next_rttvar (rtt_rttvar p) (rtt_srtt p) r) as Hvr.
  { unfold next_rttvar. rewrite Z.quot_div_nonneg by lia. f_equal. lia. }
  rewrite Hvr. run_step (int_op_ok (next_rttvar (rtt_rttvar p) (rtt_srtt p) r) p2 ltac:(int_range)).
  set (p3 := set_rttvar (next_rttvar (rtt_rttvar p) (rtt_srtt p) r) p2).
  run_step (eq_refl (Done tt p3)). run_step (RTOCALC_run p3 Hs' Hv'). done.
Qed.

Lemma rtt_init_run sec p :
  rtt_init sec p = Done tt (mk_rtt 0 0 6 3 (rtt_nrexmt p) (u32 sec)).
Proof. reflexivity. Qed.

Lemma rtt_timeout_run p :
  RTT_RXTMIN ≤ rtt_rto p ≤ RTT_RXTMAX → 0 ≤ rtt_nrexmt p < INT_MAX →
  rtt_timeout p = Done (if rtt_nrexmt p + 1 >? RTT_MAXNREXMT then -1 else 0)
    (set_nrexmt (rtt_nrexmt p + 1) (set_rto (Z.min 3 (2 * rtt_rto p)) p)).
Proof.
  intros Hr Hn. unfold rtt_timeout, RTT_RXTMIN, RTT_RXTMAX in *. run_step (eq_refl (Done p p)).
  run_step (int_op_ok (rtt_rto p * 2) p ltac:(int_range)).
  assert (rtt_minmax (rtt_rto p * 2) = Z.min 3 (2 * rtt_rto p)) as ->.
  { unfold rtt_minmax, RTT_RXTMIN, RTT_RXTMAX. destruct (Z.ltb_spec (rtt_rto p * 2) 1); [lia|].
    destruct (Z.gtb_spec (rtt_rto p * 2) 3); lia. }
  set (p1 := set_rto _ p). run_step (eq_refl (Done tt p1)).
  by run_step (int_op_ok (rtt_nrexmt p + 1) p1 ltac:(int_range)).
Qed.

(** [n] consecutive timeouts of one packet: the result of the last one. *)
Fixpoint timeouts (n : nat) : M rtt_info Z :=
  match n with
  | O => mret 0
  | S n' => timeouts n';; rtt_timeout
  end.

Lemma timeouts_run n p :
  RTT_RXTMIN ≤ rtt_rto p ≤ RTT_RXTMAX → rtt_nrexmt p = 0 → Z.of_nat n < INT_MAX →
  ∃ r p', timeouts n p = Done r p' ∧ (n ≠ O → r = if Z.of_nat n >? RTT_MAXNREXMT then -1 else 0) ∧
          rtt_nrexmt p' = Z.of_nat n ∧ rtt_rto p' = Z.min 3 (2 ^ Z.of_nat n * rtt_rto p).
Proof.
  intros Hr H0. induction n as [|n IH]; intros Hn.
  - unfold RTT_RXTMIN, RTT_RXTMAX in *.
    exists 0, p. split_and!; [done|done|done|]. simpl Z.of_nat. lia.
  - destruct IH as (r & p' & Hrun & _ & Hn' & Hr'); [int_range|]. cbn [timeouts].
    run_step Hrun. unfold RTT_RXTMIN, RTT_RXTMAX in *.
    assert (Hpos : 1 ≤ 2 ^ Z.of_nat n) by (apply Z.pow_le_mono_r with (b := 0); lia).
    assert (Hge : 1 ≤ 2 ^ Z.of_nat n * rtt_rto p) by nia.
    rewrite rtt_timeout_run by (unfold RTT_RXTMIN, RTT_RXTMAX; lia).
    eexists _, _. split; [done|]. rewrite Hn', Nat2Z.inj_succ.
    cbn [rtt_nrexmt rtt_rto set_nrexmt set_rto]. unfold Z.succ. split_and!; [done|done|].
    rewrite Hr', Z.pow_add_r, Z.pow_1_r by lia. lia.
Qed.

(** * Properties *)

(** C35: the timer never leaves the window of 1 to 3 seconds: [rtt_init] establishes
    the invariant, [rtt_stop] with any measured time and [rtt_timeout] preserve it,
    and none of them overflows an [int]. *)
Theorem rtt_bounds p sec ms :
  (∃ q, rtt_init sec p = Done tt q ∧ rtt_ok q ∧ rtt_start q = Done 3 q) ∧
  (rtt_ok p → ∃ q, rtt_stop ms p = Done tt q ∧ rtt_ok q) ∧
  (rtt_ok p → 0 ≤ rtt_nrexmt p < INT_MAX → ∃ r q, rtt_timeout p = Done r q ∧ rtt_ok q).
Proof.
  split_and!.
  - rewrite rtt_init_run. eexists. split; [reflexivity|]. split; [|reflexivity].
    unfold rtt_ok, RTT_MAX, RTT_RXTMIN, RTT_RXTMAX. cbn. lia.
  - intros Hp. rewrite rtt_stop_run by done. eexists. split; [done|].
    pose proof (measured_range ms). destruct Hp as (_ & Hs & Hv).
    split; [apply rtt_minmax_range|]. split; [by apply next_srtt_range|by apply next_rttvar_range].
  - intros (Hr & Hs & Hv) Hn. rewrite rtt_timeout_run by done. eexists _, _. split; [done|].
    unfold rtt_ok, RTT_RXTMIN, RTT_RXTMAX in *. simpl. split_and!; (done || lia).
Qed.

Lemma rtt_bounds_witness :
  ∃ q, rtt_stop 2500 (mk_rtt 0 0 6 3 0 77) = Done tt q ∧ rtt_ok q.
Proof.
  destruct (rtt_bounds (mk_rtt 0 0 6 3 0 77) 0 2500) as (_ & H & _). apply H.
  vm_compute. split_and!; intros [=].
Defined.

(** A packet is given up exactly at its 13th timeout: after [rtt_newpack] the
    first 12 timeouts return 0, the 13th returns -1, and the timeout doubles from
    its start value up to 3 seconds on the way. *)
Theorem rtt_gives_up_after_13 p n :
  rtt_ok p → (1 ≤ n ≤ 13)%nat →
  ∃ q, (rtt_newpack;; timeouts n) p = Done (if (n =? 13)%nat then -1 else 0) q ∧
       rtt_nrexmt q = Z.of_nat n ∧ rtt_rto q = Z.min 3 (2 ^ Z.of_nat n * rtt_rto p).
Proof.
  intros (Hr & _) Hn. run_step (eq_refl (Done tt (set_nrexmt 0 p))).
  destruct (timeouts_run n (set_nrexmt 0 p)) as (r & q & -> & Hret & Hn' & Hr'); [done|done|int_range|].
  exists q. split; [|done]. rewrite Hret by lia. unfold RTT_MAXNREXMT.
  destruct (Nat.eqb_spec n 13) as [->|]; [done|]. destruct (Z.gtb_spec (Z.of_nat n) 12); [lia|done].
Qed.

Lemma rtt_gives_up_after_13_witness :
  ∃ q, (rtt_newpack;; timeouts 13) (mk_rtt 0 0 6 1 5 77) = Done (-1) q ∧ rtt_rto q = 3.
Proof.
  destruct (rtt_gives_up_after_13 (mk_rtt 0 0 6 1 5 77) 13) as (q & H1 & _ & H2).
  - vm_compute. split_and!; intros [=].
  - lia.
  - exists q. split; [exact H1|exact H2].
Defined.

(** The difference of two time stamps is the elapsed time in milliseconds, also
    when the 32-bit counter wraps between them (below 2^32 ms). *)
Theorem rtt_ts_difference p sec1 ms1 sec2 ms2 :
  0 ≤ ms1 → 0 ≤ ms2 →
  0 ≤ (sec2 * 1000 + ms2) - (sec1 * 1000 + ms1) < 2 ^ 32 →
  u32 (rtt_ts sec2 (ms2 * 1000) p - rtt_ts sec1 (ms1 * 1000) p) =
    (sec2 * 1000 + ms2) - (sec1 * 1000 + ms1).
Proof.
  intros H1 H2 Hd. unfold rtt_ts, u32. rewrite !Z.quot_mul by lia.
  rewrite <- Zminus_mod. rewrite <- (Z.mod_small _ (2 ^ 32) Hd). f_equal. lia.
Qed.

Lemma rtt_ts_difference_witness :
  u32 (rtt_ts 4294970 (5 * 1000) (mk_rtt 0 0 6 3 0 0) - rtt_ts 4294960 (1 * 1000) (mk_rtt 0 0 6 3 0 0))
    = 10004.
Proof. rewrite rtt_ts_difference; lia. Defined.
