(* ===== verification/Reliable.v ===== *)
(** Requests onto UDP that are sent again until their answer comes: dg_send_recv.c and
    dg_cli.c of unpv13e/rtt, on the timer of [Rtt], and the server dg_echo.c there; at
    the end, a client and a server on a network that loses, repeats, delays and reorders
    datagrams.  The functions of the timer are those of lib/rtt.c with its own unprtt.h;
    rtt/unprtt.h has other constants, which dg_send_recv.c does not use.  SIGALRM comes at
    any time between alarm(n) and alarm(0), also before the jump buffer is set. *)

From S2P Require Export Rtt.

Definition DG_MAXLINE : nat := 4096.

(** ** The header *)

(** struct hdr in memory: two uint32_t. *)
Definition sizeof_dghdr : nat := 8.
Definition dg_hdr (seq ts : Z) : list Z := st32 seq ++ st32 ts.
Definition seq_of (h : list Z) : Z := le_combine (take 4 h).
Definition ts_of (h : list Z) : Z := le_combine (take 4 (drop 4 h)).

(** ** dg_send_recv *)

(** The static variables of dg_send_recv.c ([recvhdr] as bytes), the arrays of its
    caller, and what it did: datagrams sent, seconds the alarm clock is set to (0: off),
    lines printed. *)
Record dg := mk_dg {
  rttinfo : rtt_info;
  rttinit : bool;
  send_seq : Z;
  recvhdr : list Z;
  sendline : list Z;  (* the characters before the NUL *)
  recvline : list Z;
  dg_sent : list (list Z);
  dg_alarm : Z;
  dg_printed : list (list Z)
}.

Definition put_rttinfo (p : rtt_info) (s : dg) : dg :=
  mk_dg p (rttinit s) (send_seq s) (recvhdr s) (sendline s) (recvline s) (dg_sent s) (dg_alarm s) (dg_printed s).
(** A function of rtt.c is called with &rttinfo. *)
Definition with_rtt {A} (m : M rtt_info A) : M dg A := λ s,
  match m (rttinfo s) with
  | Done a p => Done a (put_rttinfo p s)
  | Exited c p => Exited c (put_rttinfo p s)
  | Undefined u => Undefined u
  end.
Definition put_rttinit (b : bool) (s : dg) : dg :=
  mk_dg (rttinfo s) b (send_seq s) (recvhdr s) (sendline s) (recvline s) (dg_sent s) (dg_alarm s) (dg_printed s).
Definition put_seq (n : Z) (s : dg) : dg :=
  mk_dg (rttinfo s) (rttinit s) n (recvhdr s) (sendline s) (recvline s) (dg_sent s) (dg_alarm s) (dg_printed s).
Definition put_received (h l : list Z) (s : dg) : dg :=
  mk_dg (rttinfo s) (rttinit s) (send_seq s) h (sendline s) l (dg_sent s) (dg_alarm s) (dg_printed s).
Definition put_sendline (l : list Z) (s : dg) : dg :=
  mk_dg (rttinfo s) (rttinit s) (send_seq s) (recvhdr s) l (recvline s) (dg_sent s) (dg_alarm s) (dg_printed s).
Definition add_sent (d : list Z) (s : dg) : dg :=
  mk_dg (rttinfo s) (rttinit s) (send_seq s) (recvhdr s) (sendline s) (recvline s) (dg_sent s ++ [d]) (dg_alarm s) (dg_printed s).
Definition put_alarm (n : Z) (s : dg) : dg :=
  mk_dg (rttinfo s) (rttinit s) (send_seq s) (recvhdr s) (sendline s) (recvline s) (dg_sent s) n (dg_printed s).
Definition add_printed (l : list Z) (s : dg) : dg :=
  mk_dg (rttinfo s) (rttinit s) (send_seq s) (recvhdr s) (sendline s) (recvline s) (dg_sent s) (dg_alarm s) (dg_printed s ++ [l]).

(** What gettimeofday answers. *)
Record timeval := mk_timeval { tv_sec : Z; tv_usec : Z }.

(** From [sendagain] to the alarm. *)
Definition sendagain (now : timeval) : M dg unit :=
  s ← get;
  let ts := rtt_ts (tv_sec now) (tv_usec now) (rttinfo s) in
  modify (add_sent (dg_hdr (send_seq s) ts ++ sendline s));;
  t ← with_rtt rtt_start;
  modify (put_alarm t).

(** The call, until it waits for an answer.  [early]: SIGALRM comes between alarm and
    sigsetjmp; the handler jumps to a jmpbuf that was never set, or to one of an earlier
    call.  (When the datagram is sent again, jmpbuf is that of the same call and still
    good: there it is a timeout like any other.) *)
Definition dg_call (start now : timeval) (early : bool) : M dg unit :=
  s ← get;
  when (negb (rttinit s)) (with_rtt (rtt_init (tv_sec start));; modify (put_rttinit true));;
  modify (put_seq (u32 (send_seq s + 1)));;
  with_rtt rtt_newpack;;
  sendagain now;;
  if early then undef BadPointer else mret tt.

(** While it waits: the signal SIGALRM, a datagram, or a datagram and then SIGALRM before
    the alarm clock is off. *)
Inductive dg_event :=
  | Alarm (now : timeval)
  | Datagram (d : list Z) (now : timeval)
  | DatagramAlarm (d : list Z) (now : timeval).

(** recvmsg into the header and the array of the caller; what does not fit is lost. *)
Definition onto (new old : list Z) : list Z := new ++ drop (length new) old.
Definition recv_parts (d : list Z) (s : dg) : dg :=
  put_received (onto (take sizeof_dghdr d) (recvhdr s)) (onto (take DG_MAXLINE (drop sizeof_dghdr d)) (recvline s)) s.

(** sigsetjmp returns 1. *)
Definition timed_out (now : timeval) : M dg (option Z) :=
  r ← with_rtt rtt_timeout;
  if r <? 0 then modify (put_rttinit false);; mret (Some (-1))
  else sendagain now;; mret None.

(** [None]: it waits on; otherwise the value returned. *)
Definition dg_wait (e : dg_event) : M dg (option Z) :=
  match e with
  | Alarm now => timed_out now
  | DatagramAlarm d now => modify (recv_parts d);; timed_out now
  | Datagram d now =>
      modify (recv_parts d);;
      s ← get;
      let n := Z.of_nat (length d `min` (sizeof_dghdr + DG_MAXLINE)) in
      if (n <? Z.of_nat sizeof_dghdr) || negb (seq_of (recvhdr s) =? send_seq s) then mret None
      else
        modify (put_alarm 0);;
        with_rtt (rtt_stop (u32 (rtt_ts (tv_sec now) (tv_usec now) (rttinfo s) - ts_of (recvhdr s))));;
        mret (Some (n - Z.of_nat sizeof_dghdr))
  end.

Fixpoint dg_waits (es : list dg_event) : M dg (option Z) :=
  match es with
  | [] => mret None
  | e :: es' => r ← dg_wait e; match r with None => dg_waits es' | Some n => mret (Some n) end
  end.

(** The whole call, for what happens while it waits. *)
Definition dg_send_recv (start now : timeval) (early : bool) (es : list dg_event) : M dg (option Z) :=
  dg_call start now early;; dg_waits es.

(** ** dg_cli *)

(** Fgets and the call of Dg_send_recv. *)
Definition cli_line (line : list Z) (start now : timeval) (early : bool) : M dg unit :=
  modify (put_sendline line);; dg_call start now early.

(** The characters before the first NUL. *)
Fixpoint c_string (bs : list Z) : option (list Z) :=
  match bs with
  | [] => None
  | b :: bs' => if b =? 0 then Some [] else cons b <$> c_string bs'
  end.

(** Dg_send_recv goes on waiting, ends the program, or returns a size; then the line is
    ended with a NUL and printed.  [true]: the next line is read. *)
Definition cli_event (e : dg_event) : M dg bool :=
  r ← dg_wait e;
  match r with
  | None => mret false
  | Some n =>
      if n <? 0 then exit 1
      else
        s ← get;
        l ← of_opt OutOfBounds (arr_set (recvline s) n 0);
        modify (put_received (recvhdr s) l);;
        t ← of_opt NoTerminator (c_string l);
        modify (add_printed t);; mret true
  end.

(** ** dg_echo *)

Definition dg_echo (d : list Z) : list Z := take DG_MAXLINE d.

(** ** A client and a server *)

(** Every datagram ever sent may arrive, at any time and any number of times; those of
    the client are in [dg_sent]. *)
Record dg_net := mk_dg_net {
  dg_client : dg;
  dg_busy : bool; (* it waits in dg_send_recv *)
  dg_typed : list (list Z);
  dg_answers : list (list Z)
}.

Inductive dg_act :=
  | Types (line : list Z) (start now : timeval) (early : bool)
  | TimesOut (now : timeval)
  | Echoes (i : nat)
  | Arrives (i : nat) (now : timeval)
  | ArrivesLate (i : nat) (now : timeval). (* the timer goes off just behind it *)

(** A line as Fgets and strlen take it. *)
Definition is_line (l : list Z) : bool := (length l <? DG_MAXLINE)%nat && forallb (λ b, (1 <=? b) && (b <? 256)) l.

Definition cli_waits (e : dg_event) : M dg_net unit := λ w,
  if dg_busy w then
    match cli_event e (dg_client w) with
    | Done b s => Done tt (mk_dg_net s (negb b) (dg_typed w) (dg_answers w))
    | Exited c s => Exited c (mk_dg_net s false (dg_typed w) (dg_answers w))
    | Undefined u => Undefined u
    end
  else Done tt w.

(** What cannot happen in a state does nothing. *)
Definition dg_play (a : dg_act) : M dg_net unit := λ w,
  match a with
  | Types line start now early =>
      if negb (dg_busy w) && is_line line then
        match cli_line line start now early (dg_client w) with
        | Done _ s => Done tt (mk_dg_net s true (dg_typed w ++ [line]) (dg_answers w))
        | Exited c s => Exited c (mk_dg_net s false (dg_typed w ++ [line]) (dg_answers w))
        | Undefined u => Undefined u
        end
      else Done tt w
  | TimesOut now => cli_waits (Alarm now) w
  | Echoes i =>
      match dg_sent (dg_client w) !! i with
      | Some d => Done tt (mk_dg_net (dg_client w) (dg_busy w) (dg_typed w) (dg_answers w ++ [dg_echo d]))
      | None => Done tt w
      end
  | Arrives i now => match dg_answers w !! i with Some d => cli_waits (Datagram d now) w | None => Done tt w end
  | ArrivesLate i now => match dg_answers w !! i with Some d => cli_waits (DatagramAlarm d now) w | None => Done tt w end
  end.

Fixpoint dg_run (acts : list dg_act) : M dg_net unit :=
  match acts with
  | [] => mret tt
  | a :: acts' => dg_play a;; dg_run acts'
  end.

(** Static variables start with zeros; the array of dg_cli with anything. *)
Definition dg_init (junk : list Z) : dg :=
  mk_dg (mk_rtt 0 0 0 0 0 0) false 0 (replicate sizeof_dghdr 0) [] junk [] 0 [].
Definition dg_start (junk : list Z) : dg_net := mk_dg_net (dg_init junk) false [] [].

(** * The header *)

Lemma seq_of_hdr seq ts rest : seq_of (dg_hdr seq ts ++ rest) = u32 seq.
Proof. unfold seq_of, dg_hdr, st32. change (take 4 _) with (le_split 4 (u32 seq)). rewrite le_combine_split. apply u32_idem. Qed.

Lemma length_dg_hdr seq ts : length (dg_hdr seq ts) = sizeof_dghdr.
Proof. done. Qed.

Lemma length_onto new old : (length new ≤ length old)%nat → length (onto new old) = length old.
Proof. intros H. unfold onto. rewrite length_app, length_drop. lia. Qed.

Lemma c_string_run l rest : forallb (λ b, (1 <=? b) && (b <? 256)) l = true → c_string (l ++ 0 :: rest) = Some l.
Proof.
  induction l as [|b l IH]; intros H; [done|]. cbn [forallb] in H. apply andb_prop in H as [Hb Hl].
  cbn [app c_string]. destruct (Z.eqb_spec b 0) as [->|]; [done|]. by rewrite IH.
Qed.

Lemma set_nul l rest n : n = Z.of_nat (length l) → rest ≠ [] → arr_set (l ++ rest) n 0 = Some (l ++ 0 :: drop 1 rest).
Proof.
  intros -> Hr. destruct rest as [|x rest]; [done|]. unfold arr_set. rewrite length_app. cbn [length].
  destruct (Z.leb_spec 0 (Z.of_nat (length l))); [|lia].
  destruct (Z.ltb_spec (Z.of_nat (length l)) (Z.of_nat (length l + S (length rest)))); [|lia]. cbn [andb].
  rewrite Nat2Z.id. by rewrite insert_app_r_alt, Nat.sub_diag by lia.
Qed.

(** * A call *)

(** The variables of the timer while a call waits. *)
Definition timer_ok (p : rtt_info) : Prop := rtt_ok p ∧ 0 ≤ rtt_nrexmt p ≤ RTT_MAXNREXMT.

(** The state after a datagram is sent at [now]. *)
Definition sent_at (now : timeval) (s : dg) : dg :=
  put_alarm (rtt_rto (rttinfo s))
    (add_sent (dg_hdr (send_seq s) (rtt_ts (tv_sec now) (tv_usec now) (rttinfo s)) ++ sendline s) s).

Lemma sendagain_run now s : sendagain now s = Done tt (sent_at now s).
Proof. done. Qed.

Lemma dg_call_run start now s :
  (rttinit s = true → rtt_ok (rttinfo s)) →
  ∃ p, dg_call start now false s = Done tt (sent_at now (put_seq (u32 (send_seq s + 1)) (put_rttinit true (put_rttinfo p s)))) ∧
       timer_ok p ∧ rtt_nrexmt p = 0.
Proof.
  intros Hp. destruct s as [p [] n h l r o a t]; cbn in Hp.
  - exists (set_nrexmt 0 p). split; [reflexivity|]. split; [|done]. split; [by apply Hp|]. cbn. unfold RTT_MAXNREXMT. lia.
  - exists (mk_rtt 0 0 6 3 0 (u32 (tv_sec start))). split; [reflexivity|]. split; [|done]. split; [|cbn; unfold RTT_MAXNREXMT; lia].
    unfold rtt_ok, RTT_RXTMIN, RTT_RXTMAX, RTT_MAX. cbn. lia.
Qed.

Lemma dg_call_early start now s : dg_call start now true s = Undefined BadPointer.
Proof. by destruct s as [p [] n h l r o a t]. Qed.

Lemma dg_wait_alarm now s :
  timer_ok (rttinfo s) →
  ∃ p, rtt_ok p ∧ rtt_nrexmt p = rtt_nrexmt (rttinfo s) + 1 ∧
    dg_wait (Alarm now) s =
      if rtt_nrexmt (rttinfo s) =? RTT_MAXNREXMT then Done (Some (-1)) (put_rttinit false (put_rttinfo p s))
      else Done None (sent_at now (put_rttinfo p s)).
Proof.
  intros [(Hr & Hs & Hv) Hn]. unfold dg_wait, timed_out, with_rtt, mbind, M_bind. unfold RTT_MAXNREXMT in *.
  rewrite rtt_timeout_run by (try done; int_range).
  exists (set_nrexmt (rtt_nrexmt (rttinfo s) + 1) (set_rto (Z.min 3 (2 * rtt_rto (rttinfo s))) (rttinfo s))). split; [|split; [done|]].
  - unfold rtt_ok, RTT_RXTMIN, RTT_RXTMAX in *. cbn. split_and!; (done || lia).
  - unfold RTT_MAXNREXMT. destruct (Z.gtb_spec (rtt_nrexmt (rttinfo s) + 1) 12), (Z.eqb_spec (rtt_nrexmt (rttinfo s)) 12);
      (lia || reflexivity).
Qed.

(** A datagram with another number, or none, is skipped. *)
Lemma dg_wait_other d now s :
  (length d < sizeof_dghdr)%nat ∨ seq_of (recvhdr (recv_parts d s)) ≠ send_seq s →
  dg_wait (Datagram d now) s = Done None (recv_parts d s).
Proof.
  intros H. unfold dg_wait. rewrite bind_modify, bind_get. cbv zeta.
  destruct (Z.ltb_spec (Z.of_nat (length d `min` (sizeof_dghdr + DG_MAXLINE))) (Z.of_nat sizeof_dghdr)) as [|Hl]; [done|].
  destruct (Z.eqb_spec (seq_of (recvhdr (recv_parts d s))) (send_seq (recv_parts d s))) as [He|]; [|done].
  destruct H as [H|H]; [unfold sizeof_dghdr in *; lia|]. by destruct H.
Qed.

Lemma dg_wait_answer d now s :
  rtt_ok (rttinfo s) → (sizeof_dghdr ≤ length d)%nat → seq_of (recvhdr (recv_parts d s)) = send_seq s →
  ∃ p, rtt_ok p ∧ rtt_nrexmt p = rtt_nrexmt (rttinfo s) ∧
    dg_wait (Datagram d now) s =
      Done (Some (Z.of_nat ((length d - sizeof_dghdr) `min` DG_MAXLINE))) (put_rttinfo p (put_alarm 0 (recv_parts d s))).
Proof.
  intros Hok Hl He. unfold dg_wait. rewrite bind_modify, bind_get. cbv zeta.
  destruct (Z.ltb_spec (Z.of_nat (length d `min` (sizeof_dghdr + DG_MAXLINE))) (Z.of_nat sizeof_dghdr)) as [|_]; [lia|].
  change (send_seq (recv_parts d s)) with (send_seq s). rewrite He, Z.eqb_refl. cbn [negb orb]. rewrite bind_modify.
  set (ms := u32 _). unfold with_rtt, mbind, M_bind. change (rttinfo (put_alarm 0 (recv_parts d s))) with (rttinfo s).
  rewrite rtt_stop_run by done. eexists. split; [|split; [|]].
  3: { unfold mret, M_ret. do 2 f_equal. lia. }
  - pose proof (measured_range ms). destruct Hok as (_ & Hs & Hv).
    split; [apply rtt_minmax_range|]. split; [by apply next_srtt_range|by apply next_rttvar_range].
  - done.
Qed.

(** * The network *)

(** What is left of a line that the server sends back. *)
Definition cut (line : list Z) : list Z := take (DG_MAXLINE - sizeof_dghdr) line.

(** A datagram of the client, and one of the server. *)
Definition msg_of (typed : list (list Z)) (d : list Z) : Prop :=
  ∃ i line ts, typed !! i = Some line ∧ d = dg_hdr (Z.of_nat (S i)) ts ++ line.
Definition answer_of (typed : list (list Z)) (d : list Z) : Prop :=
  ∃ i line ts, typed !! i = Some line ∧ d = dg_hdr (Z.of_nat (S i)) ts ++ cut line.

Lemma msg_of_app typed line d : msg_of typed d → msg_of (typed ++ [line]) d.
Proof. intros (i & l & ts & Hi & ->). exists i, l, ts. split; [by apply lookup_app_l_Some|done]. Qed.
Lemma answer_of_app typed line d : answer_of typed d → answer_of (typed ++ [line]) d.
Proof. intros (i & l & ts & Hi & ->). exists i, l, ts. split; [by apply lookup_app_l_Some|done]. Qed.

Lemma dg_echo_hdr seq ts line : dg_echo (dg_hdr seq ts ++ line) = dg_hdr seq ts ++ cut line.
Proof.
  unfold dg_echo, cut. rewrite take_app, length_dg_hdr, (take_ge (dg_hdr seq ts)) by (rewrite length_dg_hdr; unfold sizeof_dghdr, DG_MAXLINE; lia).
  done.
Qed.

Lemma msg_echo typed d : msg_of typed d → answer_of typed (dg_echo d).
Proof. intros (i & l & ts & Hi & ->). exists i, l, ts. split; [done|apply dg_echo_hdr]. Qed.

(** The state of the two; [pend]: the last line is not printed. *)
Record dg_ok (pend : bool) (w : dg_net) : Prop := {
  dgo_timer : rttinit (dg_client w) = true → timer_ok (rttinfo (dg_client w));
  dgo_seq : send_seq (dg_client w) = Z.of_nat (length (dg_typed w));
  dgo_hdr : length (recvhdr (dg_client w)) = sizeof_dghdr;
  dgo_line : length (recvline (dg_client w)) = S DG_MAXLINE;
  dgo_lines : Forall (λ l, is_line l = true) (dg_typed w);
  dgo_sent : Forall (msg_of (dg_typed w)) (dg_sent (dg_client w));
  dgo_answers : Forall (answer_of (dg_typed w)) (dg_answers w);
  dgo_printed : dg_printed (dg_client w) = cut <$> take (length (dg_typed w) - if pend then 1 else 0) (dg_typed w);
  dgo_busy : dg_busy w = true →
    rttinit (dg_client w) = true ∧ last (dg_typed w) = Some (sendline (dg_client w)) ∧
    ∃ ts, dg_hdr (send_seq (dg_client w)) ts ++ sendline (dg_client w) ∈ dg_sent (dg_client w)
}.

Lemma is_line_cut l : is_line l = true → forallb (λ b, (1 <=? b) && (b <? 256)) (cut l) = true.
Proof.
  intros H. apply andb_prop in H as [_ H]. unfold cut. rewrite <- (take_drop (DG_MAXLINE - sizeof_dghdr) l) in H.
  rewrite forallb_app in H. by apply andb_prop in H as [H _].
Qed.

Lemma recvhdr_into seq ts l s :
  length (recvhdr s) = sizeof_dghdr → recvhdr (recv_parts (dg_hdr seq ts ++ l) s) = dg_hdr seq ts ++ [].
Proof.
  intros H. cbn [recv_parts put_received recvhdr]. rewrite take_app_length' by done. unfold onto.
  rewrite drop_ge by (rewrite length_dg_hdr; lia). done.
Qed.

Lemma recvline_into seq ts line s :
  recvline (recv_parts (dg_hdr seq ts ++ cut line) s) = cut line ++ drop (length (cut line)) (recvline s).
Proof.
  cbn [recv_parts put_received recvline]. rewrite drop_app_length' by done. unfold onto, cut.
  rewrite (take_ge (take _ line)); [done|]. rewrite length_take. unfold DG_MAXLINE, sizeof_dghdr. lia.
Qed.

Lemma length_cut line : (length (cut line) ≤ DG_MAXLINE - sizeof_dghdr)%nat.
Proof. unfold cut. rewrite length_take. lia. Qed.

(** The answer to the line that waits is printed. *)
Lemma cli_answer seq ts line now s :
  timer_ok (rttinfo s) → length (recvhdr s) = sizeof_dghdr → length (recvline s) = S DG_MAXLINE →
  is_line line = true → u32 seq = send_seq s →
  ∃ p h l, cli_event (Datagram (dg_hdr seq ts ++ cut line) now) s =
      Done true (add_printed (cut line) (put_received h l (put_rttinfo p (put_alarm 0 s)))) ∧
    timer_ok p ∧ length h = sizeof_dghdr ∧ length l = S DG_MAXLINE.
Proof.
  intros [Hok Hn] Hh Hl Hline Hseq. set (d := dg_hdr seq ts ++ cut line). pose proof (length_cut line) as Hcut.
  assert (Hd : length d = (sizeof_dghdr + length (cut line))%nat) by (unfold d; by rewrite length_app, length_dg_hdr).
  destruct (dg_wait_answer d now s Hok) as (p & Hp & Hnp & Hrun); [lia|unfold d; by rewrite recvhdr_into, seq_of_hdr|].
  assert (Hmin : ((length d - sizeof_dghdr) `min` DG_MAXLINE = length (cut line))%nat) by lia. rewrite Hmin in Hrun.
  unfold cli_event. rewrite (bind_Done _ _ _ _ _ Hrun). destruct (Z.ltb_spec (Z.of_nat (length (cut line))) 0); [lia|].
  rewrite bind_get. change (recvline (put_rttinfo p (put_alarm 0 (recv_parts d s)))) with (recvline (recv_parts d s)).
  assert (Hrl : recvline (recv_parts d s) = cut line ++ drop (length (cut line)) (recvline s)) by apply recvline_into.
  rewrite Hrl, (set_nul _ _ _ eq_refl).
  2: { intros Hd0%(f_equal length). rewrite length_drop in Hd0. unfold DG_MAXLINE in *. simpl in Hd0. lia. }
  cbn [of_opt]. rewrite bind_ret, bind_modify, (c_string_run _ _ (is_line_cut line Hline)). cbn [of_opt]. rewrite bind_ret, bind_modify.
  eexists p, _, _. split; [reflexivity|]. split; [by rewrite <- Hnp in Hn|]. split.
  - change (length (recvhdr (recv_parts d s)) = sizeof_dghdr). unfold d. by rewrite recvhdr_into.
  - rewrite length_app. cbn [length]. rewrite !length_drop. unfold DG_MAXLINE, sizeof_dghdr in *. lia.
Qed.

Lemma cli_alarm now s :
  timer_ok (rttinfo s) →
  ∃ p, rtt_ok p ∧ rtt_nrexmt p = rtt_nrexmt (rttinfo s) + 1 ∧
    cli_event (Alarm now) s =
      if rtt_nrexmt (rttinfo s) =? RTT_MAXNREXMT then Exited 1 (put_rttinit false (put_rttinfo p s))
      else Done false (sent_at now (put_rttinfo p s)).
Proof.
  intros Hok. destruct (dg_wait_alarm now s Hok) as (p & Hp & Hn & Hrun). exists p. split_and!; [done..|].
  unfold cli_event. destruct (_ =? _); by rewrite (bind_Done _ _ _ _ _ Hrun).
Qed.

(** An answer that comes with the timer is received and forgotten. *)
Lemma cli_late d now s : cli_event (DatagramAlarm d now) s = cli_event (Alarm now) (recv_parts d s).
Proof. done. Qed.

Lemma parts_lengths seq ts line s :
  length (recvhdr s) = sizeof_dghdr → length (recvline s) = S DG_MAXLINE →
  length (recvhdr (recv_parts (dg_hdr seq ts ++ cut line) s)) = sizeof_dghdr ∧
  length (recvline (recv_parts (dg_hdr seq ts ++ cut line) s)) = S DG_MAXLINE.
Proof.
  intros Hh Hl. split; [by rewrite recvhdr_into|]. rewrite recvline_into, length_app, length_drop.
  pose proof (length_cut line). unfold DG_MAXLINE, sizeof_dghdr in *. lia.
Qed.

Lemma cli_skip seq ts line now s :
  length (recvhdr s) = sizeof_dghdr → length (recvline s) = S DG_MAXLINE → u32 seq ≠ send_seq s →
  ∃ h l, cli_event (Datagram (dg_hdr seq ts ++ cut line) now) s = Done false (put_received h l s) ∧
    length h = sizeof_dghdr ∧ length l = S DG_MAXLINE.
Proof.
  intros Hh Hl Hne. set (d := dg_hdr seq ts ++ cut line).
  assert (Hhd : recvhdr (recv_parts d s) = dg_hdr seq ts ++ []) by (by apply recvhdr_into).
  eexists (recvhdr (recv_parts d s)), (recvline (recv_parts d s)). split; [|split].
  - unfold cli_event. rewrite (bind_Done _ _ _ _ _ (dg_wait_other d now s ltac:(right; by rewrite Hhd, seq_of_hdr))). done.
  - by rewrite Hhd.
  - unfold d. rewrite recvline_into, length_app, length_drop. pose proof (length_cut line).
    unfold DG_MAXLINE, sizeof_dghdr in *. lia.
Qed.

(** The invariant is kept by each kind of change of the client's variables. *)
Lemma dg_ok_types line p now w :
  dg_ok false w → is_line line = true → timer_ok p → Z.of_nat (length (dg_typed w)) < 2 ^ 32 - 1 →
  let s := put_sendline line (dg_client w) in
  dg_ok true (mk_dg_net (sent_at now (put_seq (u32 (send_seq s + 1)) (put_rttinit true (put_rttinfo p s)))) true
    (dg_typed w ++ [line]) (dg_answers w)).
Proof.
  intros [Ht Hq Hh Hl Hls Hs Ha Hp _] Hline Htp Hlen s.
  assert (Hseq : u32 (send_seq s + 1) = Z.of_nat (S (length (dg_typed w)))) by (unfold s; cbn; rewrite Hq, u32_small; lia).
  rewrite Hseq. set (n := length (dg_typed w)) in *.
  assert (Hm : ∀ ts, msg_of (dg_typed w ++ [line]) (dg_hdr (Z.of_nat (S n)) ts ++ line)).
  { intros ts. exists n, line, ts. split; [by apply list_lookup_middle|done]. }
  split; cbn; try done.
  - rewrite length_app. cbn. f_equal. unfold n. lia.
  - apply Forall_app. split; [done|by constructor].
  - apply Forall_app. split; [eapply Forall_impl; [exact Hs|intros d; apply msg_of_app]|]. constructor; [apply Hm|done].
  - eapply Forall_impl; [exact Ha|intros d; apply answer_of_app].
  - rewrite Hp, length_app. cbn. f_equal. rewrite take_app_le by lia. f_equal. unfold n. lia.
  - intros _. split; [done|]. split; [by rewrite last_snoc|]. eexists. apply list_elem_of_In, in_or_app. right. by left.
Qed.

Lemma dg_ok_again p now w :
  dg_ok true w → dg_busy w = true → timer_ok p →
  dg_ok true (mk_dg_net (sent_at now (put_rttinfo p (dg_client w))) true (dg_typed w) (dg_answers w)).
Proof.
  intros [Ht Hq Hh Hl Hls Hs Ha Hp Hb] Hbusy Htp. destruct (Hb Hbusy) as (Hi & Hlast & ts & Hin).
  split; cbn; try done.
  - apply Forall_app. split; [done|]. constructor; [|done]. rewrite Hq. rewrite last_lookup in Hlast.
    assert (0 < length (dg_typed w))%nat by (apply lookup_lt_Some in Hlast; lia).
    eexists (pred (length (dg_typed w))), _, _. split; [done|]. by replace (S (pred _)) with (length (dg_typed w)) by lia.
  - intros _. split_and!; [done..|]. exists ts. apply list_elem_of_In, in_or_app. left. by apply list_elem_of_In.
Qed.

Lemma dg_ok_received pend h l w :
  dg_ok pend w → length h = sizeof_dghdr → length l = S DG_MAXLINE →
  dg_ok pend (mk_dg_net (put_received h l (dg_client w)) (dg_busy w) (dg_typed w) (dg_answers w)).
Proof. intros [Ht Hq Hh Hl Hls Hs Ha Hp Hb] Hh' Hl'. by split. Qed.

Lemma dg_ok_printed h l p w :
  dg_ok true w → dg_busy w = true → length h = sizeof_dghdr → length l = S DG_MAXLINE → timer_ok p →
  dg_ok false (mk_dg_net (add_printed (cut (sendline (dg_client w))) (put_received h l (put_rttinfo p (put_alarm 0 (dg_client w)))))
    false (dg_typed w) (dg_answers w)).
Proof.
  intros [Ht Hq Hh Hl Hls Hs Ha Hp Hb] Hbusy Hh' Hl' Htp. destruct (Hb Hbusy) as (Hi & Hlast & _).
  split; cbn; try done. rewrite Hp. apply last_Some in Hlast as [typed ->]. rewrite length_app. cbn.
  rewrite Nat.sub_0_r, Nat.add_sub, take_app_length, (take_ge (typed ++ _)) by (rewrite length_app; simpl; lia).
  by rewrite fmap_app.
Qed.

Lemma dg_ok_gives_up p w :
  dg_ok true w → dg_ok true (mk_dg_net (put_rttinit false (put_rttinfo p (dg_client w))) false (dg_typed w) (dg_answers w)).
Proof. intros [Ht Hq Hh Hl Hls Hs Ha Hp Hb]. by split. Qed.

Lemma answer_of_last typed d seq line :
  answer_of typed d → last typed = Some line → seq = Z.of_nat (length typed) → seq < 2 ^ 32 →
  (∃ ts, d = dg_hdr seq ts ++ cut line) ∨ ∃ n ts l, d = dg_hdr n ts ++ cut l ∧ u32 n ≠ seq.
Proof.
  intros (i & l & ts & Hi & ->) Hlast -> Hlen. pose proof (lookup_lt_Some _ _ _ Hi) as Hlt.
  destruct (decide (S i = length typed)) as [He|Hne].
  - left. exists ts. rewrite last_lookup in Hlast. rewrite <- He in Hlast |- *. cbn in Hlast.
    rewrite Hi in Hlast. by injection Hlast as ->.
  - right. exists (Z.of_nat (S i)), ts, l. split; [done|]. rewrite u32_small; lia.
Qed.

(** Running keeps the invariant: [dg_ok] for the state the client is in, and for one in
    which it gives up, with the last line unprinted; unless [early]. *)
Definition dg_keeps (early : Prop) (m : M dg_net unit) (n : Z) (w : dg_net) : Prop :=
  wpx (λ _, early) (λ c w', c = 1 ∧ dg_ok true w' ∧ Z.of_nat (length (dg_typed w')) ≤ n)
    m (λ _ w', dg_ok (dg_busy w') w' ∧ Z.of_nat (length (dg_typed w')) ≤ n) w.

(** A timeout. *)
Lemma cli_timeout_ok early now n w :
  dg_ok true w → dg_busy w = true → Z.of_nat (length (dg_typed w)) ≤ n →
  dg_keeps early (cli_waits (Alarm now)) n w.
Proof.
  intros Hok Hbusy Hlen. unfold dg_keeps, wpx, cli_waits. rewrite Hbusy.
  pose proof Hok as [Ht _ _ _ _ _ _ _ Hb]. destruct (Hb Hbusy) as (Hi & _). specialize (Ht Hi).
  destruct (cli_alarm now (dg_client w) Ht) as (p & Hrp & Hnp & ->).
  destruct (Z.eqb_spec (rtt_nrexmt (rttinfo (dg_client w))) RTT_MAXNREXMT) as [_|Hne].
  - split_and!; [done|by apply dg_ok_gives_up|done].
  - split; [|done]. apply dg_ok_again; [done..|]. split; [done|]. destruct Ht as [_ Ht]. lia.
Qed.

Definition event_of_answers (e : dg_event) (w : dg_net) : Prop :=
  match e with Alarm _ => True | Datagram d _ | DatagramAlarm d _ => d ∈ dg_answers w end.

Lemma cli_waits_ok early e n w :
  dg_ok (dg_busy w) w → Z.of_nat (length (dg_typed w)) ≤ n → n < 2 ^ 32 →
  event_of_answers e w → dg_keeps early (cli_waits e) n w.
Proof.
  intros Hok Hlen Hn Hd. destruct (dg_busy w) eqn:Hbusy; [|unfold dg_keeps, wpx, cli_waits; by rewrite Hbusy, Hbusy].
  pose proof Hok as [Ht Hq Hh Hl Hls Hs Ha Hp Hb]. destruct (Hb Hbusy) as (Hi & Hlast & _).
  specialize (Ht Hi). destruct e as [now|d now|d now]; cbn [event_of_answers] in Hd.
  - by apply cli_timeout_ok.
  - unfold dg_keeps, wpx, cli_waits. rewrite Hbusy. rewrite Forall_forall in Ha. specialize (Ha d Hd).
    destruct (answer_of_last _ _ _ _ Ha Hlast Hq) as [(ts & ->)|(k & ts & l & -> & Hne)]; [lia|..].
    + destruct (cli_answer (send_seq (dg_client w)) ts (sendline (dg_client w)) now (dg_client w)) as (p & h & l & -> & Htp & Hh' & Hl');
        [done..| |rewrite Hq; apply u32_small; lia|].
      { rewrite Forall_forall in Hls. apply Hls. by apply last_Some_elem_of. }
      split; [by apply dg_ok_printed|done].
    + destruct (cli_skip k ts l now (dg_client w) Hh Hl Hne) as (h & l' & -> & Hh' & Hl').
      split; [|done]. pose proof (dg_ok_received true h l' w Hok Hh' Hl') as H. by rewrite Hbusy in H.
  - rewrite Forall_forall in Ha. destruct (Ha d Hd) as (i & line & ts & _ & ->).
    destruct (parts_lengths (Z.of_nat (S i)) ts line (dg_client w) Hh Hl) as [Hh' Hl'].
    set (w1 := mk_dg_net (recv_parts (dg_hdr (Z.of_nat (S i)) ts ++ cut line) (dg_client w)) (dg_busy w) (dg_typed w) (dg_answers w)).
    assert (Hw1 : dg_ok true w1) by exact (dg_ok_received true _ _ w Hok Hh' Hl').
    pose proof (cli_timeout_ok early now n w1 Hw1 Hbusy Hlen) as H. unfold dg_keeps, wpx, cli_waits in *.
    cbn [dg_busy w1] in H. rewrite Hbusy in *. by rewrite cli_late.
Qed.

(** A line is typed with the early signal. *)
Definition early_type (a : dg_act) : Prop := match a with Types _ _ _ early => early = true | _ => False end.


Lemma dg_play_ok a n w :
  dg_ok (dg_busy w) w → Z.of_nat (length (dg_typed w)) ≤ n → n < 2 ^ 32 - 1 →
  dg_keeps (early_type a) (dg_play a) (n + 1) w.
Proof.
  intros Hok Hlen Hn. destruct a as [line start now early|now|i|i now|i now]; unfold dg_keeps.
  - unfold wpx, dg_play. destruct (dg_busy w) eqn:Hbusy; cbn [negb andb]; [rewrite Hbusy; split; [done|lia]|].
    destruct (is_line line) eqn:Hline; [|rewrite Hbusy; split; [done|lia]]. unfold cli_line. rewrite bind_modify.
    destruct early.
    { rewrite dg_call_early. done. }
    destruct (dg_call_run start now (put_sendline line (dg_client w))) as (p & -> & Htp & _).
    { intros Hi. by apply (dgo_timer _ _ Hok). }
    cbn [dg_busy dg_typed]. split; [|rewrite length_app; simpl; lia]. apply (dg_ok_types line p now w); [done..|lia].
  - apply cli_waits_ok; [done|lia|lia|done].
  - unfold wpx, dg_play. destruct (dg_sent (dg_client w) !! i) as [d|] eqn:Hi; [|split; [done|lia]].
    split; [|cbn; lia]. destruct Hok as [Ht Hq Hh Hl Hls Hs Ha Hp Hb]. split; cbn; try done.
    apply Forall_app. split; [done|]. constructor; [|done]. apply msg_echo. rewrite Forall_lookup in Hs. by eapply Hs.
  - unfold wpx, dg_play. destruct (dg_answers w !! i) as [d|] eqn:Hi; [|split; [done|lia]].
    apply cli_waits_ok; [done|lia|lia|]. by eapply list_elem_of_lookup_2.
  - unfold wpx, dg_play. destruct (dg_answers w !! i) as [d|] eqn:Hi; [|split; [done|lia]].
    apply cli_waits_ok; [done|lia|lia|]. by eapply list_elem_of_lookup_2.
Qed.

Lemma dg_run_ok acts n w :
  dg_ok (dg_busy w) w → Z.of_nat (length (dg_typed w)) ≤ n → n + Z.of_nat (length acts) < 2 ^ 32 →
  dg_keeps (Exists early_type acts) (dg_run acts) (n + Z.of_nat (length acts)) w.
Proof.
  revert n w. induction acts as [|a acts IH]; intros n w Hok Hlen Hn; cbn [dg_run].
  - split; [done|cbn; lia].
  - unfold dg_keeps. rewrite wpx_bind. cbn [length] in *. replace (n + Z.of_nat (S (length acts))) with (n + 1 + Z.of_nat (length acts)) by lia.
    pose proof (dg_play_ok a n w Hok Hlen ltac:(lia)) as H. unfold dg_keeps, wpx in H |- *.
    destruct (dg_play a w) as [[] w'|c w'|u]; [|destruct H as (-> & H & ?); split_and!; [done..|lia]|by constructor].
    destruct H as [H1 H2]. pose proof (IH (n + 1) w' H1 H2 ltac:(lia)) as H. unfold dg_keeps, wpx in H.
    destruct (dg_run acts w') as [[] w2|c w2|u]; [done..|]. by constructor.
Qed.

Lemma dg_start_ok junk : length junk = S DG_MAXLINE → dg_ok false (dg_start junk).
Proof. intros H. by split. Qed.

(** Timeouts of one call, below the limit and up to it. *)
Lemma dg_waits_alarms ts s :
  timer_ok (rttinfo s) → rtt_nrexmt (rttinfo s) + Z.of_nat (length ts) ≤ RTT_MAXNREXMT →
  ∃ s' stamps, dg_waits (Alarm <$> ts) s = Done None s' ∧ timer_ok (rttinfo s') ∧
    rtt_nrexmt (rttinfo s') = rtt_nrexmt (rttinfo s) + Z.of_nat (length ts) ∧
    send_seq s' = send_seq s ∧ sendline s' = sendline s ∧ length stamps = length ts ∧
    dg_sent s' = dg_sent s ++ ((λ t, dg_hdr (send_seq s) t ++ sendline s) <$> stamps).
Proof.
  revert s. induction ts as [|now ts IH]; intros s Hok Hn; cbn [length fmap list_fmap dg_waits] in *.
  - exists s, []. rewrite app_nil_r. split_and!; try done. lia.
  - destruct (dg_wait_alarm now s Hok) as (p & Hp & Hnp & Hrun).
    destruct (Z.eqb_spec (rtt_nrexmt (rttinfo s)) RTT_MAXNREXMT) as [|Hne]; [lia|].
    rewrite (bind_Done _ _ _ _ _ Hrun). destruct Hok as [_ Hs].
    destruct (IH (sent_at now (put_rttinfo p s))) as (s' & stamps & -> & Hok' & Hn' & Hq & Hl & Hlen & Hsent).
    { split; [done|]. cbn. lia. }
    { cbn. lia. }
    eexists s', (_ :: stamps). cbn in Hn', Hq, Hl, Hsent. split_and!; try done; [lia|cbn; lia|].
    rewrite Hsent, <- app_assoc. done.
Qed.

Lemma dg_waits_app es es' s s' :
  dg_waits es s = Done None s' → dg_waits (es ++ es') s = dg_waits es' s'.
Proof.
  revert s. induction es as [|e es IH]; intros s; cbn [app dg_waits]; [by intros [= ->]|].
  unfold mbind, M_bind. destruct (dg_wait e s) as [[n|] s1|c s1|u]; [done| |done..]. apply IH.
Qed.

(** * Properties *)

(** C11: What the user sees is what the user typed.  However the network loses, repeats,
    delays and reorders datagrams and whenever the timer goes off, in a run of fewer than
    2^32 steps: every line but the one that waits has been printed once and in order, as
    far as the array of the server has room for it (4088 bytes), and the client ends early
    only with 1.  Nothing is undefined but for one thing: SIGALRM between alarm and
    sigsetjmp in the first transmission of a line, where the handler jumps to a jump buffer
    that was not set, or whose function has returned. *)
Theorem dg_lines_come_back (acts : list dg_act) (junk : list Z)
    (Hjunk : length junk = S DG_MAXLINE) (Hacts : Z.of_nat (length acts) < 2 ^ 32) :
  let answered w n := dg_printed (dg_client w) = cut <$> take (length (dg_typed w) - n) (dg_typed w) in
  match dg_run acts (dg_start junk) with
  | Done _ w => answered w (if dg_busy w then 1%nat else 0%nat)
  | Exited code w => code = 1 ∧ answered w 1%nat
  | Undefined _ => Exists early_type acts
  end.
Proof.
  pose proof (dg_run_ok acts 0 (dg_start junk) (dg_start_ok junk Hjunk) ltac:(done) ltac:(lia)) as H.
  unfold dg_keeps, wpx in H. destruct (dg_run acts (dg_start junk)) as [[] w|c w|u]; [| |done].
  - by apply (dgo_printed (dg_busy w) w), H.
  - destruct H as (-> & Hw & _). split; [done|]. by apply (dgo_printed true w).
Qed.

Definition at_sec (n : Z) : timeval := mk_timeval n 0.
Definition dg_session : list dg_act :=
  [Types [104; 105; 10] (at_sec 0) (at_sec 0) false; TimesOut (at_sec 3); Echoes 0; Arrives 0 (at_sec 4);
   Types [111; 107; 10] (at_sec 5) (at_sec 5) false; Echoes 1; ArrivesLate 1 (at_sec 6); Echoes 2; Arrives 2 (at_sec 7);
   Arrives 2 (at_sec 8)].

Lemma dg_lines_come_back_witness :
  match dg_run dg_session (dg_start (replicate (S DG_MAXLINE) 0)) with
  | Done _ w => dg_busy w = false ∧ dg_typed w = [[104; 105; 10]; [111; 107; 10]] ∧
                dg_printed (dg_client w) = cut <$> take (length (dg_typed w) - 0) (dg_typed w)
  | _ => False
  end.
Proof.
  pose proof (dg_lines_come_back dg_session (replicate (S DG_MAXLINE) 0) (length_replicate _ _) ltac:(vm_compute; reflexivity)) as H.
  assert (Hrun : match dg_run dg_session (dg_start (replicate (S DG_MAXLINE) 0)) with
    | Done _ w => dg_busy w = false ∧ dg_typed w = [[104; 105; 10]; [111; 107; 10]] | _ => False end)
    by (vm_compute; split; reflexivity).
  destruct (dg_run dg_session _) as [u w|c w|u]; [|destruct Hrun|destruct Hrun].
  destruct Hrun as [Hb Ht]. cbv zeta in H. rewrite Hb in H. split; [exact Hb|]. split; [exact Ht|exact H].
Defined.

(** From every state in which a line waits it takes two steps to finish it: the server
    answers one of the datagrams sent for it, and the answer arrives. *)
Theorem dg_line_can_finish (acts : list dg_act) (junk : list Z) (w : dg_net) (now : timeval)
    (Hjunk : length junk = S DG_MAXLINE) (Hacts : Z.of_nat (length acts) < 2 ^ 32)
    (Hrun : dg_run acts (dg_start junk) = Done tt w) (Hbusy : dg_busy w = true) :
  ∃ i j w', dg_run [Echoes i; Arrives j now] w = Done tt w' ∧ dg_busy w' = false ∧
    dg_typed w' = dg_typed w ∧ dg_printed (dg_client w') = cut <$> dg_typed w.
Proof.
  pose proof (dg_run_ok acts 0 (dg_start junk) (dg_start_ok junk Hjunk) ltac:(done) ltac:(lia)) as H.
  unfold dg_keeps, wpx in H. rewrite Hrun, Hbusy in H. destruct H as [Hok Hlen].
  pose proof Hok as [Ht Hq Hh Hl Hls Hs Ha Hp Hb]. destruct (Hb Hbusy) as (Hi & Hlast & ts & Hin).
  apply list_elem_of_lookup in Hin as [i Hin]. exists i, (length (dg_answers w)).
  destruct (cli_answer (send_seq (dg_client w)) ts (sendline (dg_client w)) now (dg_client w)) as (p & h & l & Hcli & Htp & Hh' & Hl');
    [by apply Ht|done..| |rewrite Hq; apply u32_small; lia|].
  { rewrite Forall_forall in Hls. apply Hls. by apply last_Some_elem_of. }
  set (d := dg_hdr _ ts ++ cut (sendline (dg_client w))) in Hcli. set (w1 := mk_dg_net (dg_client w) (dg_busy w) (dg_typed w) (dg_answers w ++ [d])).
  assert (H1 : dg_play (Echoes i) w = Done tt w1) by (unfold dg_play; by rewrite Hin, dg_echo_hdr).
  assert (H2 : dg_play (Arrives (length (dg_answers w)) now) w1 = cli_waits (Datagram d now) w1)
    by (unfold dg_play, w1; cbn [dg_answers]; by rewrite list_lookup_middle).
  eexists. cbn [dg_run]. rewrite (bind_Done _ _ _ _ _ H1). unfold mbind, M_bind. rewrite H2. unfold cli_waits, w1. cbn [dg_busy dg_client].
  rewrite Hbusy, Hcli. split; [reflexivity|].
  cbn [dg_busy dg_typed dg_client negb]. split; [done|]. split; [done|].
  pose proof (dgo_printed _ _ (dg_ok_printed h l p w Hok Hbusy Hh' Hl' Htp)) as H. cbn [dg_client dg_typed] in H.
  by rewrite Nat.sub_0_r, firstn_all in H.
Qed.

(** The call is given up exactly at its 13th timeout; until then every timeout sends the
    same number and line again. *)
Theorem dg_gives_up_at_13 (s : dg) (start now : timeval) (ts : list timeval)
    (Hok : rttinit s = true → rtt_ok (rttinfo s)) (Hlen : (length ts ≤ 13)%nat) :
  ∃ s' stamps, dg_send_recv start now false (Alarm <$> ts) s = Done (if (length ts =? 13)%nat then Some (-1) else None) s' ∧
    length stamps = S (length ts `min` 12) ∧
    dg_sent s' = dg_sent s ++ ((λ t, dg_hdr (u32 (send_seq s + 1)) t ++ sendline s) <$> stamps).
Proof.
  destruct (dg_call_run start now s Hok) as (p & Hcall & Htp & Hn0). unfold dg_send_recv. rewrite (bind_Done _ _ _ _ _ Hcall).
  set (s1 := sent_at now _). assert (Hok1 : timer_ok (rttinfo s1)) by done. assert (Hn1 : rtt_nrexmt (rttinfo s1) = 0) by done.
  destruct (dg_waits_alarms (take 12 ts) s1 Hok1) as (s2 & stamps & Hrun & Hok2 & Hn2 & Hq2 & Hl2 & Hst & Hsent);
    [rewrite Hn1, length_take; unfold RTT_MAXNREXMT; lia|].
  rewrite length_take in Hn2, Hst.
  assert (Hsent2 : ∃ t0, dg_sent s2 = dg_sent s ++ ((λ t, dg_hdr (u32 (send_seq s + 1)) t ++ sendline s) <$> (t0 :: stamps)))
    by (eexists; rewrite Hsent; cbn; by rewrite <- app_assoc).
  destruct Hsent2 as [t0 Hsent2]. pose proof (dg_waits_app _ (Alarm <$> drop 12 ts) _ _ Hrun) as Hw0.
  rewrite <- fmap_app, take_drop in Hw0. rewrite Hw0.
  destruct (drop 12 ts) as [|x [|? ?]] eqn:Hdrop; apply (f_equal length) in Hdrop as Hd; rewrite length_drop in Hd; cbn in Hd; [| |lia].
  - exists s2, (t0 :: stamps). destruct (Nat.eqb_spec (length ts) 13); [lia|]. split; [done|]. split; [cbn; lia|done].
  - destruct (dg_wait_alarm x s2 Hok2) as (p2 & _ & _ & Hw). rewrite Hn2, Hn1 in Hw.
    destruct (Z.eqb_spec (0 + Z.of_nat (12 `min` length ts)) RTT_MAXNREXMT) as [_|Hne]; [|unfold RTT_MAXNREXMT in Hne; lia].
    cbn [fmap list_fmap dg_waits]. rewrite (bind_Done _ _ _ _ _ Hw). eexists _, (t0 :: stamps).
    destruct (Nat.eqb_spec (length ts) 13); [|lia]. split; [reflexivity|]. split; [cbn; lia|done].
Qed.

Lemma dg_gives_up_at_13_witness :
  ∃ s', dg_send_recv (at_sec 0) (at_sec 0) false (Alarm <$> replicate 13 (at_sec 9)) (dg_init []) = Done (Some (-1)) s' ∧
    length (dg_sent s') = 13%nat.
Proof.
  destruct (dg_gives_up_at_13 (dg_init []) (at_sec 0) (at_sec 0) (replicate 13 (at_sec 9))) as (s' & stamps & Hrun & Hl & Hs).
  - discriminate.
  - rewrite length_replicate. lia.
  - exists s'. split; [exact Hrun|]. rewrite Hs, length_app, length_fmap, Hl. reflexivity.
Defined.

Lemma dg_line_can_finish_witness :
  ∃ w i j w', dg_run (take 1 dg_session) (dg_start (replicate (S DG_MAXLINE) 0)) = Done tt w ∧
    dg_run [Echoes i; Arrives j (at_sec 9)] w = Done tt w' ∧ dg_printed (dg_client w') = cut <$> dg_typed w.
Proof.
  destruct (dg_run (take 1 dg_session) (dg_start (replicate (S DG_MAXLINE) 0))) as [[] w|c w|u] eqn:Hrun;
    [|vm_compute in Hrun; discriminate|vm_compute in Hrun; discriminate].
  assert (Hbusy : dg_busy w = true) by (vm_compute in Hrun; injection Hrun as <-; reflexivity).
  destruct (dg_line_can_finish (take 1 dg_session) (replicate (S DG_MAXLINE) 0) w (at_sec 9) (length_replicate _ _)
    ltac:(vm_compute; reflexivity) Hrun Hbusy) as (i & j & w' & H & _ & _ & Hp).
  exists w, i, j, w'. split; [reflexivity|]. split; [exact H|exact Hp].
Defined.

(** A line of more than 4088 bytes comes back without its end: the server's array has
    MAXLINE bytes for the line and the header. *)
Theorem dg_long_line_cut :
  let line := replicate 4094 120 ++ [10] in
  is_line line = true ∧
  match dg_run [Types line (at_sec 0) (at_sec 0) false; Echoes 0; Arrives 0 (at_sec 1)] (dg_start (replicate (S DG_MAXLINE) 0)) with
  | Done _ w => dg_busy w = false ∧ dg_printed (dg_client w) = [replicate 4088 120]
  | _ => False
  end.
Proof. vm_compute. done. Qed.

(** The jump to nowhere happens. *)
Theorem early_alarm_jumps :
  dg_run [Types [104; 105; 10] (at_sec 0) (at_sec 0) true] (dg_start (replicate (S DG_MAXLINE) 0)) = Undefined BadPointer.
Proof. vm_compute. reflexivity. Qed.
