(* ===== verification/UnpIo.v ===== *)
(** Input and output of the library: unpv13e/lib/writen.c, readn.c and readline.c on a
    byte stream that the kernel cuts as it likes, and the Internet checksum of
    unpv13e/libfree/in_cksum.c. *)

From S2P Require Export CInt.

(** * The kernel's side *)

(** What the calls of [read] will meet. *)
Inductive arrival :=
  | Bytes (bs : list Z)   (* this much has arrived in one piece *)
  | ReadIntr              (* -1, EINTR *)
  | ReadErr.              (* -1, another error *)

(** What a call of [write] does. *)
Inductive acceptance :=
  | Accept (n : nat)      (* takes at most [n] bytes *)
  | WriteIntr
  | WriteErr.

Record io := mk_io {
  arrivals : list arrival;        (* then: end of file *)
  acceptances : list acceptance;  (* then: everything is taken *)
  written : list Z;
  line_buf : list Z               (* read_ptr[0 .. read_cnt), static in readline.c *)
}.

Definition set_arrivals (x : list arrival) (s : io) : io := mk_io x (acceptances s) (written s) (line_buf s).
Definition set_written (a : list acceptance) (w : list Z) (s : io) : io := mk_io (arrivals s) a w (line_buf s).
Definition set_line_buf (x : list Z) (s : io) : io := mk_io (arrivals s) (acceptances s) (written s) x.

Inductive io_result := Got (bs : list Z) | Interrupted | Failed.

(** [read(fd, ptr, n)]: 0 bytes are the end of file. *)
Definition read (n : nat) : M io io_result :=
  s ← get;
  match arrivals s with
  | [] => mret (Got [])
  | Bytes bs :: rest =>
      if (length bs <=? n)%nat then modify (set_arrivals rest);; mret (Got bs)
      else modify (set_arrivals (Bytes (drop n bs) :: rest));; mret (Got (take n bs))
  | ReadIntr :: rest => modify (set_arrivals rest);; mret Interrupted
  | ReadErr :: rest => modify (set_arrivals rest);; mret Failed
  end.

(** [write(fd, ptr, n)] of the [n] bytes [bs]: [Got] of the bytes taken. *)
Definition write (bs : list Z) : M io io_result :=
  s ← get;
  match acceptances s with
  | [] => modify (set_written [] (written s ++ bs));; mret (Got bs)
  | Accept k :: rest => modify (set_written rest (written s ++ take k bs));; mret (Got (take k bs))
  | WriteIntr :: rest => modify (set_written rest (written s));; mret Interrupted
  | WriteErr :: rest => modify (set_written rest (written s));; mret Failed
  end.

(** * writen.c, readn.c *)

(** The loop of [writen] with the bytes at [ptr] left: [false] is the return of -1. *)
Fixpoint writen_loop (fuel : nat) (left_ : list Z) : M io bool :=
  match left_ with
  | [] => mret true
  | _ =>
      match fuel with
      | O => undef Diverges
      | S f =>
          r ← write left_;
          match r with
          | Got [] => mret false
          | Got bs => writen_loop f (drop (length bs) left_)
          | Interrupted => writen_loop f left_
          | Failed => mret false
          end
      end
  end.

Definition writen (fuel : nat) (bs : list Z) : M io Z :=
  ok ← writen_loop fuel bs; mret (if ok : bool then Z.of_nat (length bs) else -1).

(** [err_sys] ends the process. *)
Definition Writen (fuel : nat) (bs : list Z) : M io unit :=
  n ← writen fuel bs; when (negb (n =? Z.of_nat (length bs))) (exit 1).

(** The loop of [readn] with [got] in the buffer: [None] is the return of -1. *)
Fixpoint readn_loop (fuel nleft : nat) (got : list Z) : M io (option (list Z)) :=
  match nleft with
  | O => mret (Some got)
  | S _ =>
      match fuel with
      | O => undef Diverges
      | S f =>
          r ← read nleft;
          match r with
          | Got [] => mret (Some got)
          | Got bs => readn_loop f (nleft - length bs) (got ++ bs)
          | Interrupted => readn_loop f nleft got
          | Failed => mret None
          end
      end
  end.

(** The bytes in the buffer; their number is the return value. *)
Definition readn (fuel n : nat) : M io (option (list Z)) := readn_loop fuel n [].

Definition Readn (fuel n : nat) : M io (list Z) :=
  r ← readn fuel n; match r with Some bs => mret bs | None => exit 1 end.

(** * str_echo.c *)

(** [again: while ((n = read(..)) > 0) Writen(..);], and again after an interruption. *)
Fixpoint str_echo (fuel wfuel : nat) : M io unit :=
  match fuel with
  | O => undef Diverges
  | S f =>
      r ← read 4096;
      match r with
      | Got [] => mret tt
      | Got bs => Writen wfuel bs;; str_echo f wfuel
      | Interrupted => str_echo f wfuel
      | Failed => exit 1
      end
  end.

(** * readline.c *)

Definition BUF : nat := 4096. (* sizeof(read_buf), MAXLINE *)

(** [again: read(..)] until it is not interrupted. *)
Fixpoint fill (fuel : nat) : M io io_result :=
  match fuel with
  | O => undef Diverges
  | S f =>
      r ← read BUF;
      match r with
      | Interrupted => fill f
      | r => mret r
      end
  end.

(** [Got [c]]: returns 1; [Got []]: 0; [Failed]: -1. *)
Definition my_read (fuel : nat) : M io io_result :=
  s ← get;
  match line_buf s with
  | c :: rest => modify (set_line_buf rest);; mret (Got [c])
  | [] =>
      r ← fill fuel;
      match r with
      | Got (c :: rest) => modify (set_line_buf rest);; mret (Got [c])
      | r => mret r
      end
  end.

Definition newline : Z := 10.

(** What [readline] leaves in the caller's array, before the terminator, and its return
    value; [None] is the return of -1.  [todo] is [maxlen - n]. *)
Fixpoint readline_loop (fuel todo : nat) (n : Z) (line : list Z) : M io (option (list Z * Z)) :=
  match todo with
  | O => mret (Some (line, n))
  | S t =>
      r ← my_read fuel;
      match r with
      | Got (c :: _) =>
          if c =? newline then mret (Some (line ++ [c], n))
          else readline_loop fuel t (n + 1) (line ++ [c])
      | Got [] => mret (Some (line, n - 1))
      | _ => mret None
      end
  end.

(** The terminator needs a place: [maxlen] is at least 1. *)
Definition readline (fuel maxlen : nat) : M io (option (list Z * Z)) :=
  match maxlen with
  | O => undef OutOfBounds
  | S t => readline_loop fuel t 1 []
  end.

Definition Readline (fuel maxlen : nat) : M io (list Z * Z) :=
  r ← readline fuel maxlen; match r with Some x => mret x | None => exit 1 end.

(** The bytes that were read ahead. *)
Definition readlinebuf : M io (list Z) := s ← get; mret (line_buf s).

(** * in_cksum.c *)

(** 16-bit words in the byte order of the machine (little endian), added in 32 bits; an
    odd byte is the low byte of a last word. *)
Fixpoint cksum_sum (bs : list Z) (sum : Z) : Z :=
  match bs with
  | a :: b :: rest => cksum_sum rest (u32 (sum + le_combine [a; b]))
  | [a] => u32 (sum + a)
  | [] => sum
  end.

Definition in_cksum (bs : list Z) : Z :=
  let sum := cksum_sum bs 0 in
  let sum := u32 (Z.shiftr sum 16 + Z.land sum 65535) in
  let sum := u32 (sum + Z.shiftr sum 16) in
  u16 (Z.lnot sum).

(** * The stream *)

(** The bytes that arrive, in order, up to the first error. *)
Fixpoint stream (a : list arrival) : list Z :=
  match a with
  | [] => []
  | Bytes bs :: r => bs ++ stream r
  | ReadIntr :: r => stream r
  | ReadErr :: _ => []
  end.

(** A piece is not empty, and there is no error. *)
Definition arrival_ok (a : arrival) : Prop :=
  match a with Bytes bs => bs ≠ [] | ReadIntr => True | ReadErr => False end.
Definition incoming_ok (s : io) : Prop := Forall arrival_ok (arrivals s).

(** Everything that is still to be read with [readline]. *)
Definition unread (s : io) : list Z := line_buf s ++ stream (arrivals s).

Lemma stream_nil s : incoming_ok s → stream (arrivals s) = [] → Forall (λ a, a = ReadIntr) (arrivals s).
Proof.
  unfold incoming_ok. induction 1 as [|a l Ha Hl IH]; [done|]. destruct a as [bs| |]; simpl in *; [|by constructor; auto|done].
  intros [-> _]%app_nil. done.
Qed.

(** One call of [read]. *)
Lemma read_spec n s :
  incoming_ok s → (0 < n)%nat →
  (∃ bs s', read n s = Done (Got bs) s' ∧ stream (arrivals s) = bs ++ stream (arrivals s') ∧ (length bs ≤ n)%nat ∧
            (bs = [] → s' = s ∧ arrivals s = []) ∧ incoming_ok s' ∧ line_buf s' = line_buf s ∧
            (length (arrivals s') ≤ length (arrivals s))%nat ∧
            (bs ≠ [] → length bs = n ∨ (length (arrivals s') < length (arrivals s))%nat)) ∨
  (∃ s', read n s = Done Interrupted s' ∧ stream (arrivals s) = stream (arrivals s') ∧ incoming_ok s' ∧
         line_buf s' = line_buf s ∧ (length (arrivals s') < length (arrivals s))%nat).
Proof.
  intros Hok Hn. unfold read, incoming_ok in *. cbn [mbind M_bind get]. unfold mbind, M_bind, get.
  destruct (arrivals s) as [|[bs| |] rest] eqn:Ha.
  - left. exists [], s. rewrite Ha. split_and!; try done; simpl; try lia.
  - inversion Hok as [|? ? Hbs Hrest]; subst. simpl in Hbs. left. destruct (Nat.leb_spec (length bs) n).
    + exists bs, (set_arrivals rest s). simpl. split_and!; try done; try lia.
    + exists (take n bs), (set_arrivals (Bytes (drop n bs) :: rest) s). simpl. split_and!; try done; try lia.
      * by rewrite app_assoc, take_drop.
      * rewrite length_take. lia.
      * intros Htake. apply (f_equal length) in Htake. rewrite length_take in Htake. simpl in Htake. lia.
      * constructor; [|done]. simpl. intros Hd. apply (f_equal length) in Hd. rewrite length_drop in Hd. simpl in Hd. lia.
      * intros _. left. rewrite length_take. lia.
  - inversion Hok; subst. right. exists (set_arrivals rest s). simpl. split_and!; try done. lia.
  - by inversion Hok.
Qed.

Lemma readn_loop_spec fuel nleft got s :
  incoming_ok s → (length (arrivals s) < fuel)%nat →
  ∃ s', readn_loop fuel nleft got s = Done (Some (got ++ take nleft (stream (arrivals s)))) s' ∧
        stream (arrivals s') = drop nleft (stream (arrivals s)) ∧ incoming_ok s'.
Proof.
  revert nleft got s. induction fuel as [|f IH]; intros nleft got s Hok Hf; [lia|].
  destruct nleft as [|nl]; cbn [readn_loop]; [exists s; simpl; by rewrite app_nil_r|].
  set (n := S nl). destruct (read_spec n s Hok ltac:(lia)) as
    [(bs & s' & Hr & Hst & Hl & Hnil & Hok' & _ & Hlen & Hdec)|(s' & Hr & Hst & Hok' & _ & Hlen)].
  - rewrite (bind_Done _ _ _ _ _ Hr), Hst. destruct bs as [|b bs].
    + destruct (Hnil eq_refl) as [-> Harr]. exists s. rewrite Harr. simpl. by rewrite app_nil_r.
    + cbv beta iota. assert (take n ((b :: bs) ++ stream (arrivals s')) = (b :: bs) ++ take (n - length (b :: bs)) (stream (arrivals s')) ∧
                      drop n ((b :: bs) ++ stream (arrivals s')) = drop (n - length (b :: bs)) (stream (arrivals s'))) as [-> ->].
      { split; [rewrite take_app_ge by done|rewrite drop_app_ge by done]; done. }
      rewrite app_assoc. destruct (Hdec ltac:(done)) as [Hfull|Hlt]; [|apply IH; [done|lia]].
      rewrite Hfull, Nat.sub_diag. destruct f; exists s'; simpl; by rewrite app_nil_r.
  - rewrite (bind_Done _ _ _ _ _ Hr), Hst. cbv beta iota. apply IH; [done|lia].
Qed.

(** [readn] is independent of how the stream is cut.  With no error, however the
    bytes arrive and however often the call is interrupted, it returns the next [n]
    bytes of the stream, fewer only at its end, and leaves exactly the rest; a loop
    turn for every arrival is enough. *)
Theorem readn_any_chunks (fuel n : nat) (s : io)
    (Hok : incoming_ok s) (Hfuel : (length (arrivals s) < fuel)%nat) :
  ∃ s', readn fuel n s = Done (Some (take n (stream (arrivals s)))) s' ∧
        stream (arrivals s') = drop n (stream (arrivals s)) ∧ incoming_ok s'.
Proof. exact (readn_loop_spec fuel n [] s Hok Hfuel). Qed.

(** * [writen] *)

Definition accept_ok (a : acceptance) : Prop :=
  match a with Accept k => (0 < k)%nat | WriteIntr => True | WriteErr => False end.

Lemma writen_loop_spec fuel bs s :
  (length (acceptances s) < fuel)%nat →
  ∃ ok s' k, writen_loop fuel bs s = Done ok s' ∧ written s' = written s ++ take k bs ∧
    (if ok : bool then k = length bs else (k < length bs)%nat) ∧
    (Forall accept_ok (acceptances s) → ok = true) ∧ arrivals s' = arrivals s.
Proof.
  revert bs s. induction fuel as [|f IH]; intros bs s Hf; [lia|].
  destruct bs as [|b bs]; cbn [writen_loop]; [exists true, s, O; simpl; by rewrite app_nil_r|].
  unfold write, mbind at 1, M_bind at 1, mbind at 1, M_bind at 1, get. set (all := b :: bs).
  destruct (acceptances s) as [|[[|k]| |] rest] eqn:Ha; unfold mbind, M_bind, modify, mret, M_ret; cbv beta iota.
  - unfold all at 2. cbv iota. fold all. rewrite drop_all.
    destruct f; exists true; eexists _, (length all); (split; [reflexivity|]); simpl; by rewrite firstn_all.
  - exists false. eexists _, O. split; [reflexivity|]. simpl. rewrite app_nil_r. split_and!; [done|lia| |done].
    intros Hacc. inversion Hacc as [|? ? Hk]. simpl in Hk. lia.
  - set (s1 := set_written rest (written s ++ take (S k) all) s).
    change (take (S k) all) with (b :: take k bs). cbv iota.
    destruct (IH (drop (length (b :: take k bs)) all) s1) as (ok & s' & k' & Hr & Hw & Hk' & Hacc & Harr); [simpl in *; lia|].
    exists ok, s', (length (b :: take k bs) + k')%nat. split; [exact Hr|].
    assert (Htk : take (length (b :: take k bs)) all = b :: take k bs).
    { unfold all. simpl. f_equal. rewrite length_take. destruct (decide (k ≤ length bs)%nat); [by rewrite Nat.min_l by lia|].
      rewrite Nat.min_r by lia. by rewrite !take_ge by lia. }
    assert (Hle : (length (b :: take k bs) ≤ length all)%nat) by (unfold all; simpl; rewrite length_take; lia).
    split_and!.
    + rewrite Hw. unfold s1. cbn [written set_written]. rewrite <- app_assoc. f_equal.
      by rewrite <- take_take_drop, Htk.
    + rewrite length_drop in Hk'. destruct ok; lia.
    + intros Hall. apply Hacc. unfold s1. simpl. by inversion Hall.
    + rewrite Harr. done.
  - destruct (IH all (set_written rest (written s) s)) as (ok & s' & k' & Hr & Hw & Hk' & Hacc & Harr); [simpl in *; lia|].
    exists ok, s', k'. split_and!; [exact Hr|exact Hw|exact Hk'| |exact Harr].
    intros Hall. apply Hacc. simpl. by inversion Hall.
  - exists false. eexists _, O. split; [reflexivity|]. simpl. rewrite app_nil_r. split_and!; [done|lia| |done].
    intros Hacc. by inversion Hacc.
Qed.

(** [writen] writes everything or says so.  Whatever the kernel accepts per call and
    however often it interrupts, the call ends; what was written is a prefix of the
    data; it returns the number of bytes when all of them were written and -1
    otherwise; and it does return the number of bytes when no call fails. *)
Theorem writen_all_or_error (fuel : nat) (bs : list Z) (s : io)
    (Hfuel : (length (acceptances s) < fuel)%nat) :
  ∃ r s' k, writen fuel bs s = Done r s' ∧ written s' = written s ++ take k bs ∧ (k ≤ length bs)%nat ∧
    (r = Z.of_nat (length bs) ∧ k = length bs ∨ r = -1 ∧ (k < length bs)%nat) ∧
    (Forall accept_ok (acceptances s) → r = Z.of_nat (length bs)).
Proof.
  destruct (writen_loop_spec fuel bs s Hfuel) as (ok & s' & k & Hr & Hw & Hk & Hacc & _).
  unfold writen. run_step Hr. eexists _, s', k. split; [reflexivity|]. split; [exact Hw|].
  destruct ok; simpl in Hk; (split_and!; [lia|naive_solver|]); intros H; [done|by specialize (Hacc H)].
Qed.

(** * [str_echo] *)

Lemma writen_loop_acceptances fuel bs s ok s' :
  writen_loop fuel bs s = Done ok s' → acceptances s' `suffix_of` acceptances s.
Proof.
  revert bs s. induction fuel as [|f IH]; intros bs s; destruct bs as [|b bs]; cbn [writen_loop]; try done;
    [by intros [= _ <-]|by intros [= _ <-]|].
  unfold write, mbind, M_bind, get, modify, mret, M_ret.
  destruct (acceptances s) as [|[[|k]| |] rest] eqn:Ha; cbv beta iota.
  - intros Hr. apply IH in Hr. simpl in Hr. exact Hr.
  - simpl. intros [= _ <-]. simpl. by apply suffix_cons_r.
  - intros Hr. apply IH in Hr. simpl in Hr. by apply suffix_cons_r.
  - intros Hr. apply IH in Hr. simpl in Hr. by apply suffix_cons_r.
  - intros [= _ <-]. simpl. by apply suffix_cons_r.
Qed.

Lemma read_frame n s r s' : read n s = Done r s' → written s' = written s ∧ acceptances s' = acceptances s.
Proof.
  unfold read, mbind, M_bind, get, modify, mret, M_ret. destruct (arrivals s) as [|[bs| |] rest]; [by intros [= _ <-]| |by intros [= _ <-]..].
  destruct (length bs <=? n)%nat; by intros [= _ <-].
Qed.

(** The turns a stream needs: one per arrival, and one per byte for those that are longer
    than the buffer. *)
Lemma str_echo_run fuel wfuel s :
  incoming_ok s → Forall accept_ok (acceptances s) → (length (acceptances s) < wfuel)%nat →
  (length (arrivals s) + length (stream (arrivals s)) < fuel)%nat →
  ∃ s', str_echo fuel wfuel s = Done tt s' ∧ written s' = written s ++ stream (arrivals s) ∧ stream (arrivals s') = [].
Proof.
  revert s. induction fuel as [|f IH]; intros s Hok Hacc Hw Hf; [lia|]. cbn [str_echo].
  destruct (read_spec 4096 s Hok ltac:(lia)) as
    [(bs & s1 & Hr & Hst & Hl & Hnil & Hok1 & _ & Hlen & _)|(s1 & Hr & Hst & Hok1 & _ & Hlen)];
    destruct (read_frame _ _ _ _ Hr) as [Hwr Hac]; rewrite (bind_Done _ _ _ _ _ Hr), Hst.
  - destruct bs as [|b bs].
    + destruct (Hnil eq_refl) as [-> Harr]. exists s. rewrite Harr. simpl. by rewrite app_nil_r.
    + rewrite <- Hac in Hacc, Hw. destruct (writen_loop_spec wfuel (b :: bs) s1 Hw) as (ok & s2 & k & Hr2 & Hw2 & Hk & Hall & Harr).
      rewrite (Hall Hacc) in *. pose proof (writen_loop_acceptances _ _ _ _ _ Hr2) as Hsuf.
      assert (HW : Writen wfuel (b :: bs) s1 = Done tt s2).
      { unfold Writen, writen. rewrite <- bind_assoc_M, (bind_Done _ _ _ _ _ Hr2), bind_ret, Z.eqb_refl. done. }
      rewrite (bind_Done _ _ _ _ _ HW). destruct (IH s2) as (s' & Hrun & Hwr' & Hend).
      * unfold incoming_ok. by rewrite Harr.
      * destruct Hsuf as [pre Hpre]. rewrite Hpre in Hacc. by apply Forall_app in Hacc as [_ Hacc].
      * apply suffix_length in Hsuf. lia.
      * rewrite Harr. rewrite Hst, length_app in Hf. simpl in Hf. lia.
      * exists s'. split; [exact Hrun|]. rewrite Hwr', Hw2, Hwr, Hk, firstn_all, Harr, app_assoc. by split.
  - destruct (IH s1) as (s' & Hrun & Hwr' & Hend); [done|by rewrite Hac|by rewrite Hac|rewrite Hst in Hf; lia|].
    exists s'. rewrite Hrun, Hwr', Hwr. by split.
Qed.

(** [str_echo] sends back everything.  With no error, however the stream is cut, the
    calls are interrupted and the kernel takes the bytes, it returns at the end of the
    stream and has written exactly the bytes that arrived, in order. *)
Theorem str_echo_sends_everything (fuel wfuel : nat) (s : io)
    (Hok : incoming_ok s) (Hacc : Forall accept_ok (acceptances s)) (Hw : (length (acceptances s) < wfuel)%nat)
    (Hf : (length (arrivals s) + length (stream (arrivals s)) < fuel)%nat) :
  ∃ s', str_echo fuel wfuel s = Done tt s' ∧ written s' = written s ++ stream (arrivals s).
Proof. destruct (str_echo_run fuel wfuel s Hok Hacc Hw Hf) as (s' & H1 & H2 & _). by exists s'. Qed.

(** * [readline] *)

Fixpoint line_of (t : nat) (bs : list Z) : list Z :=
  match t, bs with
  | S t', c :: bs' => if c =? newline then [c] else c :: line_of t' bs'
  | _, _ => []
  end.

(** The line ended: at a newline or with the stream. *)
Definition complete (t : nat) (bs : list Z) : bool :=
  existsb (Z.eqb newline) (take t bs) || (length bs <? t)%nat.

Lemma fill_spec fuel s :
  incoming_ok s → (length (arrivals s) < fuel)%nat →
  ∃ bs s', fill fuel s = Done (Got bs) s' ∧ stream (arrivals s) = bs ++ stream (arrivals s') ∧
           (bs = [] → stream (arrivals s') = []) ∧ incoming_ok s' ∧ line_buf s' = line_buf s ∧
           (length (arrivals s') ≤ length (arrivals s))%nat.
Proof.
  revert s. induction fuel as [|f IH]; intros s Hok Hf; [lia|]. cbn [fill].
  destruct (read_spec BUF s Hok ltac:(unfold BUF; lia)) as
    [(bs & s' & Hr & Hst & _ & Hnil & Hok' & Hlb & Hlen & _)|(s' & Hr & Hst & Hok' & Hlb & Hlen)];
    rewrite (bind_Done _ _ _ _ _ Hr); cbv beta iota.
  - exists bs, s'. split_and!; try done. intros Hb. destruct (Hnil Hb) as [-> ->]. done.
  - destruct (IH s' Hok' ltac:(lia)) as (bs & s2 & Hr2 & Hst2 & Hnil2 & Hok2 & Hlb2 & Hlen2).
    exists bs, s2. split_and!; try done; [by rewrite Hst|by rewrite Hlb2|lia].
Qed.

(** [my_read] hands out the unread bytes one by one. *)
Lemma my_read_spec fuel s :
  incoming_ok s → (length (arrivals s) < fuel)%nat →
  ∃ s', my_read fuel s = Done (Got (take 1 (unread s))) s' ∧ unread s' = drop 1 (unread s) ∧
        incoming_ok s' ∧ (length (arrivals s') ≤ length (arrivals s))%nat.
Proof.
  intros Hok Hf. unfold my_read, unread. rewrite bind_get. destruct (line_buf s) as [|c rest] eqn:Hlb.
  - destruct (fill_spec fuel s Hok Hf) as (bs & s' & Hr & Hst & Hnil & Hok' & Hlb' & Hlen).
    rewrite (bind_Done _ _ _ _ _ Hr). destruct bs as [|b bs]; cbv beta iota.
    + specialize (Hnil eq_refl). simpl in Hst. rewrite Hst, Hnil. exists s'. simpl.
      rewrite Hlb', Hlb, Hnil. split_and!; done.
    + exists (set_line_buf bs s'). rewrite Hst. simpl. split_and!; done.
  - exists (set_line_buf rest s). simpl. split_and!; done.
Qed.

Lemma complete_cons t c rest : c ≠ newline → complete (S t) (c :: rest) = complete t rest.
Proof. intros Hc. unfold complete. cbn [take existsb]. by destruct (Z.eqb_spec newline c). Qed.

Lemma readline_loop_spec fuel t n line s :
  incoming_ok s → (length (arrivals s) < fuel)%nat →
  ∃ s', readline_loop fuel t n line s
        = Done (Some (line ++ line_of t (unread s),
                      n + Z.of_nat (length (line_of t (unread s))) - (if complete t (unread s) then 1 else 0))) s' ∧
        unread s' = drop (length (line_of t (unread s))) (unread s) ∧ incoming_ok s'.
Proof.
  revert n line s. induction t as [|t IH]; intros n line s Hok Hf; cbn [readline_loop].
  - exists s. simpl. unfold complete. simpl. rewrite app_nil_r. split_and!; [|done..].
    unfold mret, M_ret. do 3 f_equal. destruct (Nat.ltb_spec (length (unread s)) 0); simpl; lia.
  - destruct (my_read_spec fuel s Hok Hf) as (s1 & Hr & Hu & Hok1 & Hlen). rewrite (bind_Done _ _ _ _ _ Hr).
    destruct (unread s) as [|c rest] eqn:Hun; cbn [take drop] in *; cbv beta iota.
    + exists s1. simpl. unfold complete. simpl. rewrite app_nil_r. split_and!; [|done..].
      unfold mret, M_ret. do 3 f_equal. lia.
    + cbn [line_of]. destruct (Z.eqb_spec c newline) as [->|Hne].
      * exists s1. simpl. split_and!; [|done..]. unfold mret, M_ret. do 3 f_equal. unfold complete. simpl. lia.
      * destruct (IH (n + 1) (line ++ [c]) s1 Hok1 ltac:(lia)) as (s2 & Hr2 & Hu2 & Hok2).
        rewrite Hu, drop_0 in Hr2, Hu2. exists s2. rewrite complete_cons by done.
        split_and!; [|exact Hu2|done]. rewrite Hr2, <- app_assoc.
        assert (∀ b : Z, n + 1 + Z.of_nat (length (line_of t rest)) - b = n + Z.of_nat (length (c :: line_of t rest)) - b) as ->
          by (simpl length; lia). done.
Qed.

(** [readline] hands out the lines of the stream.  With no error, however the
    bytes arrive, each call puts the next line (up to its newline, the end of the
    stream, or [maxlen]-1 bytes) into the array and leaves exactly the rest for the next
    call, the bytes read ahead included.  It returns the length of the line when the
    line is complete, and one too much when the array was too small for it. *)
Theorem readline_next_line (fuel t : nat) (s : io)
    (Hok : incoming_ok s) (Hfuel : (length (arrivals s) < fuel)%nat) :
  ∃ s', readline fuel (S t) s
        = Done (Some (line_of t (unread s),
                      Z.of_nat (length (line_of t (unread s))) + (if complete t (unread s) then 0 else 1))) s' ∧
        unread s' = drop (length (line_of t (unread s))) (unread s) ∧ incoming_ok s'.
Proof.
  destruct (readline_loop_spec fuel t 1 [] s Hok Hfuel) as (s' & Hr & Hu & Hok'). exists s'.
  split; [|done]. unfold readline. rewrite Hr. do 3 f_equal. destruct (complete t (unread s)); lia.
Qed.

(** Lines of a stream: what repeated calls return. *)
Lemma line_of_prefix t bs : line_of t bs = take (length (line_of t bs)) bs.
Proof.
  revert bs. induction t as [|t IH]; intros [|c bs]; try done. simpl. destruct (c =? newline); [done|].
  simpl. f_equal. apply IH.
Qed.

(** * The checksum *)

(** The exact sum of the words. *)
Fixpoint word_sum (bs : list Z) : Z :=
  match bs with a :: b :: rest => le_combine [a; b] + word_sum rest | [a] => a | [] => 0 end.

(** Induction over the words of a packet. *)
Lemma words_ind (P : list Z → Prop) :
  P [] → (∀ a, P [a]) → (∀ a b l, P l → P (a :: b :: l)) → ∀ l, P l.
Proof.
  intros H0 H1 H2 l. assert (P l ∧ ∀ a, P (a :: l)) as [? _]; [|done].
  induction l as [|b l [IH1 IH2]]; [auto|]. split; [apply IH2|]. intros a. by apply H2.
Qed.

Lemma word_sum_bound bs :
  Forall is_byte bs → 0 ≤ word_sum bs ≤ 65535 * ((Z.of_nat (length bs) + 1) / 2).
Proof.
  revert bs. apply (words_ind (λ bs, Forall is_byte bs → 0 ≤ word_sum bs ≤ 65535 * ((Z.of_nat (length bs) + 1) / 2))).
  - intros _. by vm_compute.
  - intros a Ha. inversion Ha as [|? ? Hab _]. unfold is_byte in Hab. cbn [word_sum length].
    change ((Z.of_nat 1 + 1) / 2) with 1. lia.
  - intros a b l IH Hl. rewrite !Forall_cons in Hl. destruct Hl as (Ha & Hb & Hl). specialize (IH Hl).
    unfold is_byte in *. cbn [word_sum length le_combine].
    replace (Z.of_nat (S (S (length l))) + 1) with (Z.of_nat (length l) + 1 + 1 * 2) by lia.
    rewrite Z.div_add by lia. lia.
Qed.

Lemma cksum_sum_exact bs acc :
  Forall is_byte bs → 0 ≤ acc → acc + word_sum bs < 2 ^ 32 → cksum_sum bs acc = acc + word_sum bs.
Proof.
  revert bs acc. apply (words_ind (λ bs, ∀ acc, Forall is_byte bs → 0 ≤ acc → acc + word_sum bs < 2 ^ 32 →
    cksum_sum bs acc = acc + word_sum bs)).
  - intros acc _ _ _. simpl. lia.
  - intros a acc Ha H0 H. inversion Ha as [|? ? Hab _]. unfold is_byte in Hab. simpl in *. by rewrite u32_small by lia.
  - intros a b l IH acc Hl H0 H. rewrite !Forall_cons in Hl. destruct Hl as (Ha & Hb & Hl).
    pose proof (word_sum_bound l Hl). unfold is_byte in *. cbn [word_sum cksum_sum le_combine] in *.
    rewrite u32_small by lia. rewrite IH by (done || lia). lia.
Qed.

(** Two folds are the residue modulo 65535 that is 0 only for 0. *)
Lemma cksum_fold x :
  0 ≤ x < 2 ^ 32 →
  ∃ f, u16 (Z.lnot (let y := u32 (Z.shiftr x 16 + Z.land x 65535) in u32 (y + Z.shiftr y 16))) = 65535 - f ∧
       0 ≤ f ≤ 65535 ∧ (∃ q, x = 65535 * q + f) ∧ (f = 0 ↔ x = 0).
Proof.
  intros Hx. cbv zeta. change 65535 with (Z.ones 16) at 1 2. rewrite !Z.land_ones by lia.
  rewrite !Z.shiftr_div_pow2 by lia. change (2 ^ 16) with 65536.
  pose proof (Z.div_mod x 65536 ltac:(lia)) as Hdm. pose proof (Z.mod_pos_bound x 65536 ltac:(lia)).
  assert (0 ≤ x / 65536 < 65536) by (split; [apply Z.div_pos; lia|apply Z.div_lt_upper_bound; lia]).
  set (q := x / 65536) in *. set (r := x mod 65536) in *. rewrite !(u32_small (q + r)) by lia.
  assert (Hnot : ∀ z k, 65536 * k ≤ z < 65536 * (k + 1) → u16 (Z.lnot z) = 65535 - (z - 65536 * k)).
  { intros z k Hz. unfold u16, Z.lnot. change (2 ^ 16) with 65536.
    rewrite <- (Z.mod_add _ (k + 1)) by lia. rewrite Z.mod_small by lia. lia. }
  destruct (Z.lt_ge_cases (q + r) 65536) as [Hlt|Hge].
  - rewrite (Z.div_small (q + r)), u32_small by lia. exists (q + r). rewrite (Hnot _ 0) by lia.
    split_and!; [lia..|exists q; lia|lia].
  - assert ((q + r) / 65536 = 1) as -> by (symmetry; apply (Z.div_unique _ _ _ (q + r - 65536)); lia).
    rewrite u32_small by lia. exists (q + r - 65535). rewrite (Hnot _ 1) by lia.
    split_and!; [lia..|exists (q + 1); lia|lia].
Qed.

Lemma word_sum_app pre bs :
  Nat.even (length pre) = true → word_sum (pre ++ bs) = word_sum pre + word_sum bs.
Proof.
  revert pre. apply (words_ind (λ pre, Nat.even (length pre) = true → word_sum (pre ++ bs) = word_sum pre + word_sum bs));
    [done..|]. intros a b l IH Hl. cbn [Datatypes.app word_sum]. rewrite IH by done. lia.
Qed.

(** The checksum of a packet that carries its checksum is 0.  For a packet of at
    most 65535 bytes, with the two bytes of the checksum field at an even offset: with
    [in_cksum] computed over the packet with an empty field and stored there, the
    check of the receiver gives 0.  The 32-bit accumulator does not overflow. *)
Theorem in_cksum_verifies (pre post : list Z)
    (Heven : Nat.even (length pre) = true) (Hpre : Forall is_byte pre) (Hpost : Forall is_byte post)
    (Hlen : Z.of_nat (length pre) + 2 + Z.of_nat (length post) ≤ 65535) :
  0 ≤ in_cksum (pre ++ [0; 0] ++ post) ≤ 65535 ∧
  in_cksum (pre ++ le_split 2 (in_cksum (pre ++ [0; 0] ++ post)) ++ post) = 0.
Proof.
  assert (Hsum : ∀ f, Forall is_byte f → length f = 2%nat →
            0 ≤ word_sum (pre ++ f ++ post) < 2 ^ 32 ∧
            cksum_sum (pre ++ f ++ post) 0 = word_sum (pre ++ f ++ post) ∧
            word_sum (pre ++ f ++ post) = word_sum pre + (le_combine f + word_sum post)).
  { intros f Hf Hl. assert (Hall : Forall is_byte (pre ++ f ++ post)) by by rewrite !Forall_app.
    pose proof (word_sum_bound _ Hall) as Hb. rewrite !length_app, Hl in Hb.
    assert ((Z.of_nat (length pre + (2 + length post)) + 1) / 2 ≤ 32768) by (apply Z.div_le_upper_bound; lia).
    split_and!; [lia..|rewrite cksum_sum_exact; [lia|done|lia|lia]|].
    rewrite word_sum_app by done. destruct f as [|a [|b [|]]]; try done. }
  assert (H0 : Forall is_byte [0; 0]) by (unfold is_byte; repeat constructor; lia).
  destruct (Hsum [0; 0] H0 eq_refl) as (Hr & Hc & Hs).
  destruct (cksum_fold _ Hr) as (f & Hf & Hfr & (q & Hq) & Hf0).
  assert (Hck : in_cksum (pre ++ [0; 0] ++ post) = 65535 - f) by (unfold in_cksum; by rewrite Hc).
  rewrite Hck. split; [lia|]. set (field := le_split 2 (65535 - f)).
  assert (Hle : le_combine field = 65535 - f).
  { unfold field. rewrite le_combine_split. apply Z.mod_small. simpl. lia. }
  destruct (Hsum field (le_split_bytes _ _) (length_le_split _ _)) as (Hr' & Hc' & Hs').
  unfold in_cksum. rewrite Hc'. destruct (cksum_fold _ Hr') as (f' & Hf' & Hfr' & (q' & Hq') & Hf0').
  cbv zeta in Hf' |- *. rewrite Hf'. rewrite Hle in Hs'. change (le_combine [0; 0]) with 0 in Hs. lia.
Qed.

(** * Witnesses *)

Lemma in_cksum_verifies_witness :
  in_cksum ([69; 0; 0; 20] ++ le_split 2 (in_cksum ([69; 0; 0; 20] ++ [0; 0] ++ [1; 2; 3])) ++ [1; 2; 3]) = 0.
Proof.
  destruct (in_cksum_verifies [69; 0; 0; 20] [1; 2; 3]) as [_ H].
  - reflexivity.
  - unfold is_byte. repeat constructor; lia.
  - unfold is_byte. repeat constructor; lia.
  - simpl. lia.
  - exact H.
Defined.

(** "ab\ncd" in three pieces with interruptions. *)
Definition pieces : io := mk_io [Bytes [97]; ReadIntr; Bytes [98; 10; 99]; ReadIntr; Bytes [100]] [] [] [].

Lemma pieces_ok : incoming_ok pieces.
Proof. unfold incoming_ok, pieces. simpl. repeat constructor; discriminate. Qed.

Lemma readn_any_chunks_witness : ∃ s', readn 6 4 pieces = Done (Some [97; 98; 10; 99]) s' ∧ stream (arrivals s') = [100].
Proof.
  destruct (readn_any_chunks 6 4 pieces pieces_ok) as (s' & Hr & Hs & _).
  - simpl. lia.
  - exists s'. split; [exact Hr|exact Hs].
Defined.

Lemma writen_all_or_error_witness :
  ∃ s', writen 4 [1; 2; 3] (mk_io [] [Accept 1; WriteIntr; Accept 5] [] []) = Done 3 s' ∧ written s' = [1; 2; 3].
Proof.
  destruct (writen_all_or_error 4 [1; 2; 3] (mk_io [] [Accept 1; WriteIntr; Accept 5] [] []))
    as (r & s' & k & Hr & Hw & _ & Hk & Hall); [simpl; lia|].
  assert (Hr3 : r = 3) by (apply Hall; repeat constructor).
  exists s'. split; [rewrite Hr, Hr3; reflexivity|]. rewrite Hw.
  destruct Hk as [[_ ->]|[Hneg _]]; [reflexivity|]. rewrite Hr3 in Hneg. discriminate.
Defined.

Lemma readline_next_line_witness :
  ∃ s', readline 6 100 pieces = Done (Some ([97; 98; 10], 3)) s' ∧ unread s' = [99; 100].
Proof.
  destruct (readline_next_line 6 99 pieces pieces_ok) as (s' & Hr & Hu & _).
  - simpl. lia.
  - exists s'. split; [exact Hr|exact Hu].
Defined.
