(* ===== verification/NonBlock.v ===== *)
(** The client of unpv13e/nonblock/strclinonb.c: str_cli with non-blocking input and
    output on standard input, standard output and the socket, and two buffers whose
    pointers move as the kernel takes and gives bytes.  [turn] is one turn of its loop;
    what select, read and write answer is its argument. *)

From S2P Require Export CInt.

Definition MAXLINE : Z := 4096.

(** A buffer: the array, and the pointers where to read into and to write from. *)
Record buffer := mk_buffer { arr : list Z; iptr : Z; optr : Z }.

(** The variables, and what went through the descriptors so far. *)
Record endpoints := mk_client {
  to : buffer;
  fr : buffer;
  stdineof : bool;
  typed : list Z;    (* read from standard input *)
  sent : list Z;     (* written to the socket *)
  received : list Z; (* read from the socket *)
  printed : list Z;  (* written to standard output *)
  fins : nat         (* calls of Shutdown *)
}.

(** Results of [read] (an empty list is the end of the input) and of [write]. *)
Inductive reading := ReadBlock | ReadError | ReadBytes (bs : list Z).
Inductive writing := WriteBlock | WriteError | Wrote (n : nat).

(** What the kernel does in one turn: the sets of select, and the results. *)
Record answers := mk_answers {
  in_ready : bool;
  sock_ready : bool;
  sock_writable : bool;
  out_writable : bool;
  in_read : reading;
  sock_read : reading;
  out_write : writing;
  sock_write : writing
}.

Definition set_to (b : buffer) (c : endpoints) : endpoints :=
  mk_client b (fr c) (stdineof c) (typed c) (sent c) (received c) (printed c) (fins c).
Definition set_fr (b : buffer) (c : endpoints) : endpoints :=
  mk_client (to c) b (stdineof c) (typed c) (sent c) (received c) (printed c) (fins c).
Definition set_eof (c : endpoints) : endpoints :=
  mk_client (to c) (fr c) true (typed c) (sent c) (received c) (printed c) (fins c).
Definition log_typed (bs : list Z) (c : endpoints) : endpoints :=
  mk_client (to c) (fr c) (stdineof c) (typed c ++ bs) (sent c) (received c) (printed c) (fins c).
Definition log_sent (bs : list Z) (c : endpoints) : endpoints :=
  mk_client (to c) (fr c) (stdineof c) (typed c) (sent c ++ bs) (received c) (printed c) (fins c).
Definition log_received (bs : list Z) (c : endpoints) : endpoints :=
  mk_client (to c) (fr c) (stdineof c) (typed c) (sent c) (received c ++ bs) (printed c) (fins c).
Definition log_printed (bs : list Z) (c : endpoints) : endpoints :=
  mk_client (to c) (fr c) (stdineof c) (typed c) (sent c) (received c) (printed c ++ bs) (fins c).
Definition Shutdown : M endpoints unit :=
  modify (λ c, mk_client (to c) (fr c) (stdineof c) (typed c) (sent c) (received c) (printed c) (S (fins c))).

(** [read(fd, iptr, &a[MAXLINE] - iptr); iptr += n;]: at most as many bytes as asked for. *)
Definition given_bytes (b : buffer) (bs : list Z) : list Z := take (Z.to_nat (MAXLINE - iptr b)) bs.
Definition read_into {St} (b : buffer) (bs : list Z) : M St buffer :=
  if (0 <=? iptr b) && (iptr b + Z.of_nat (length bs) <=? Z.of_nat (length (arr b))) then
    mret (mk_buffer (take (Z.to_nat (iptr b)) (arr b) ++ bs ++ drop (Z.to_nat (iptr b) + length bs) (arr b))
            (iptr b + Z.of_nat (length bs)) (optr b))
  else undef OutOfBounds.

(** The bytes from [optr] to [iptr]. *)
Definition unsent (b : buffer) : list Z := take (Z.to_nat (iptr b - optr b)) (drop (Z.to_nat (optr b)) (arr b)).
(** [optr += n; if (optr == iptr) optr = iptr = a;] *)
Definition wrote (b : buffer) (n : nat) : buffer :=
  let o := optr b + Z.of_nat n in
  if o =? iptr b then mk_buffer (arr b) 0 0 else mk_buffer (arr b) (iptr b) o.
(** The kernel takes at most as many bytes as it is given; they lie in the array. *)
Definition write_from {St} (b : buffer) (n : nat) : M St (list Z) :=
  if (0 <=? optr b) && (iptr b <=? Z.of_nat (length (arr b))) then mret (take n (unsent b)) else undef OutOfBounds.

(** Standard input; whether bytes were read, so that the socket is tried below. *)
Definition read_stdin (r : reading) : M endpoints bool :=
  match r with
  | ReadBlock => mret false
  | ReadError => exit 1
  | ReadBytes bs =>
      c ← get;
      let bs := given_bytes (to c) bs in
      if (length bs =? 0)%nat then
        modify set_eof;;
        when (optr (to c) =? iptr (to c)) Shutdown;;
        mret false
      else
        b ← read_into (to c) bs;
        modify (log_typed bs);; modify (set_to b);; mret true
  end.

(** The socket: whether the function returns, and whether bytes were read. *)
Definition read_socket (r : reading) : M endpoints (bool * bool) :=
  match r with
  | ReadBlock => mret (false, false)
  | ReadError => exit 1
  | ReadBytes bs =>
      c ← get;
      let bs := given_bytes (fr c) bs in
      if (length bs =? 0)%nat then if stdineof c then mret (true, false) else exit 1
      else
        b ← read_into (fr c) bs;
        modify (log_received bs);; modify (set_fr b);; mret (false, true)
  end.

Definition write_stdout (r : writing) : M endpoints unit :=
  c ← get;
  if 0 <? iptr (fr c) - optr (fr c) then
    match r with
    | WriteBlock => mret tt
    | WriteError => exit 1
    | Wrote n =>
        bs ← write_from (fr c) n;
        modify (log_printed bs);; modify (set_fr (wrote (fr c) (length bs)))
    end
  else mret tt.

Definition write_socket (r : writing) : M endpoints unit :=
  c ← get;
  if 0 <? iptr (to c) - optr (to c) then
    match r with
    | WriteBlock => mret tt
    | WriteError => exit 1
    | Wrote n =>
        bs ← write_from (to c) n;
        modify (log_sent bs);; modify (set_to (wrote (to c) (length bs)));;
        when (optr (to c) + Z.of_nat (length bs) =? iptr (to c)) (when (stdineof c) Shutdown)
    end
  else mret tt.

(** One turn; [true]: the function returns. *)
Definition turn (a : answers) : M endpoints bool :=
  c ← get;
  let rset_in := in_ready a && (negb (stdineof c) && (iptr (to c) <? MAXLINE)) in
  let rset_sock := sock_ready a && (iptr (fr c) <? MAXLINE) in
  let wset_sock := sock_writable a && negb (optr (to c) =? iptr (to c)) in
  let wset_out := out_writable a && negb (optr (fr c) =? iptr (fr c)) in
  just_typed ← (if rset_in then read_stdin (in_read a) else mret false);
  '(returns, just_received) ← (if rset_sock then read_socket (sock_read a) else mret (false, false));
  if returns : bool then mret true
  else
    when (wset_out || just_received) (write_stdout (out_write a));;
    when (wset_sock || just_typed) (write_socket (sock_write a));;
    mret false.

(** The loop, for as many turns as the kernel answers; [false]: still running. *)
Fixpoint str_cli (turns : list answers) : M endpoints bool :=
  match turns with
  | [] => mret false
  | a :: turns' => r ← turn a; if r : bool then mret true else str_cli turns'
  end.

Definition init (junk_to junk_fr : list Z) : endpoints :=
  mk_client (mk_buffer junk_to 0 0) (mk_buffer junk_fr 0 0) false [] [] [] [] 0.

(** * Buffers *)

(** The pointers are inside the array, which has MAXLINE bytes. *)
Definition buffer_ok (b : buffer) : Prop :=
  length (arr b) = Z.to_nat MAXLINE ∧ 0 ≤ optr b ≤ iptr b ∧ iptr b ≤ MAXLINE ∧ (optr b = iptr b → iptr b = 0).

Lemma unsent_length b : buffer_ok b → Z.of_nat (length (unsent b)) = iptr b - optr b.
Proof.
  intros (Hl & Ho & Hi & _). unfold unsent. rewrite length_take, length_drop. unfold MAXLINE in *. lia.
Qed.

Lemma unsent_nil b : buffer_ok b → unsent b = [] ↔ optr b = iptr b.
Proof.
  intros Hok. pose proof (unsent_length b Hok). split; [intros Hp; rewrite Hp in H; simpl in H; lia|].
  intros He. apply nil_length_inv. lia.
Qed.

(** Bytes that are read go behind those that wait. *)
Lemma read_into_run {St} b bs (s : St) :
  buffer_ok b → bs ≠ [] → Z.of_nat (length bs) ≤ MAXLINE - iptr b →
  ∃ b', read_into b bs s = Done b' s ∧ buffer_ok b' ∧ unsent b' = unsent b ++ bs.
Proof.
  intros (Hl & Ho & Hi & He) Hne Hbs. unfold read_into. unfold MAXLINE in *.
  destruct (Z.leb_spec 0 (iptr b)); [|lia]. destruct (Z.leb_spec (iptr b + Z.of_nat (length bs)) (Z.of_nat (length (arr b)))); [|lia].
  eexists. split; [reflexivity|]. destruct bs as [|x bs]; [done|]. set (l := x :: bs) in *.
  assert (Hpos : (0 < length l)%nat) by (simpl; lia). split.
  - unfold buffer_ok. cbn [arr iptr optr]. rewrite !length_app, length_take, length_drop. unfold MAXLINE. split_and!; lia.
  - unfold unsent. cbn [arr iptr optr].
    replace (iptr b + Z.of_nat (length l) - optr b) with ((iptr b - optr b) + Z.of_nat (length l)) by lia.
    rewrite Z2Nat.inj_add, Nat2Z.id by lia. rewrite (drop_app_le _ _ (Z.to_nat (optr b))) by (rewrite length_take; lia).
    rewrite take_app_add'; [|rewrite length_drop, length_take; lia]. f_equal.
    + by rewrite skipn_firstn_comm, Z2Nat.inj_sub by lia.
    + by rewrite take_app_length.
Qed.

(** Bytes that are written are the first of those that wait. *)
Lemma write_from_run {St} b n (s : St) :
  buffer_ok b → write_from b n s = Done (take n (unsent b)) s.
Proof.
  intros (Hl & Ho & Hi & He). unfold write_from, MAXLINE in *.
  destruct (Z.leb_spec 0 (optr b)); [|lia]. by destruct (Z.leb_spec (iptr b) (Z.of_nat (length (arr b)))); [|lia].
Qed.

Lemma wrote_ok b n :
  buffer_ok b → (n ≤ length (unsent b))%nat → buffer_ok (wrote b n) ∧ unsent (wrote b n) = drop n (unsent b).
Proof.
  intros Hok Hn. pose proof (unsent_length b Hok) as Hlen. destruct Hok as (Hl & Ho & Hi & He). unfold wrote.
  destruct (Z.eqb_spec (optr b + Z.of_nat n) (iptr b)) as [Heq|Hne].
  - split; [by unfold buffer_ok, MAXLINE in *; cbn; split_and!; try lia|].
    rewrite drop_ge by lia. unfold unsent. done.
  - split; [unfold buffer_ok; cbn; split_and!; lia|]. unfold unsent. cbn [arr iptr optr].
    rewrite skipn_firstn_comm, drop_drop. f_equal; [lia|]. f_equal. lia.
Qed.

(** * The streams *)

(** What was typed was sent or waits, what was received was printed or waits; the end
    of the input is passed on once, when nothing waits. *)
Definition streams_ok (c : endpoints) : Prop :=
  buffer_ok (to c) ∧ buffer_ok (fr c) ∧
  typed c = sent c ++ unsent (to c) ∧ received c = printed c ++ unsent (fr c) ∧
  fins c = (if stdineof c && bool_decide (unsent (to c) = []) then 1 else 0)%nat.

Abbreviation safe m := (wpx (λ _, False) (λ code c, code = 1 ∧ streams_ok c) m).

Lemma given_ok b bs : buffer_ok b → Z.of_nat (length (given_bytes b bs)) ≤ MAXLINE - iptr b.
Proof. intros (Hl & Ho & Hi & He). unfold given_bytes. rewrite length_take. lia. Qed.

Lemma nonempty {A} (l : list A) : (length l =? 0)%nat = false → l ≠ [].
Proof. by destruct l. Qed.

Lemma read_stdin_safe r c :
  streams_ok c → stdineof c = false → safe (read_stdin r) (λ _, streams_ok) c.
Proof.
  intros (Hto & Hfr & Ht & Hr & Hf) He. destruct r as [| |bs]; cbn [read_stdin]; [by split_and!..|].
  rewrite wpx_bind, wpx_get. cbv zeta. set (l := given_bytes (to c) bs).
  destruct (length l =? 0)%nat eqn:Hl.
  - unfold wpx, mbind, M_bind, modify. rewrite He in Hf. cbn [andb] in Hf.
    destruct (Z.eqb_spec (optr (to c)) (iptr (to c))) as [Hp|Hp]; cbn; split_and!; try done; cbn;
      [rewrite bool_decide_true by (by apply unsent_nil); lia|].
    rewrite bool_decide_false; [done|]. intros Hn. by apply Hp, unsent_nil.
  - apply nonempty in Hl. destruct (read_into_run (to c) l c Hto Hl (given_ok (to c) bs Hto)) as (b & Hb & Hok & Hp).
    eapply wpx_run; [exact Hb|]. unfold wpx, mbind, M_bind, modify. cbn. split_and!; try done; cbn.
    + by rewrite Hp, app_assoc, Ht.
    + by rewrite He in *.
Qed.

Lemma read_socket_safe r c :
  streams_ok c → safe (read_socket r) (λ _, streams_ok) c.
Proof.
  intros (Hto & Hfr & Ht & Hr & Hf). destruct r as [| |bs]; cbn [read_socket]; [by split_and!..|].
  rewrite wpx_bind, wpx_get. cbv zeta. set (l := given_bytes (fr c) bs).
  destruct (length l =? 0)%nat eqn:Hl.
  { assert (Hok : streams_ok c) by done. by destruct (stdineof c). }
  apply nonempty in Hl. destruct (read_into_run (fr c) l c Hfr Hl (given_ok (fr c) bs Hfr)) as (b & Hb & Hok & Hp).
  eapply wpx_run; [exact Hb|]. unfold wpx, mbind, M_bind, modify. cbn. split_and!; try done; cbn.
  by rewrite Hp, app_assoc, Hr.
Qed.

Lemma write_stdout_safe r c : streams_ok c → safe (write_stdout r) (λ _, streams_ok) c.
Proof.
  intros (Hto & Hfr & Ht & Hr & Hf). unfold write_stdout. rewrite wpx_bind, wpx_get.
  destruct (0 <? _); [|by split_and!]. destruct r as [| |n]; [by split_and!..|].
  eapply wpx_run; [by apply write_from_run|]. unfold wpx, mbind, M_bind, modify. cbn.
  destruct (wrote_ok (fr c) (length (take n (unsent (fr c)))) Hfr) as [Hok Hp]; [rewrite length_take; lia|].
  split_and!; try done; cbn. rewrite Hp, length_take, <- app_assoc, Hr. f_equal.
  rewrite <- (take_drop (n `min` length (unsent (fr c))) (unsent (fr c))) at 1. f_equal.
  destruct (Nat.min_spec n (length (unsent (fr c)))) as [[Hn ->]|[Hn ->]]; [done|]. by rewrite !take_ge by lia.
Qed.

Lemma write_socket_safe r c : streams_ok c → safe (write_socket r) (λ _, streams_ok) c.
Proof.
  intros (Hto & Hfr & Ht & Hr & Hf). unfold write_socket. rewrite wpx_bind, wpx_get.
  destruct (Z.ltb_spec 0 (iptr (to c) - optr (to c))) as [Hpos|]; [|by split_and!]. destruct r as [| |n]; [by split_and!..|].
  eapply wpx_run; [by apply write_from_run|]. set (k := length (take n (unsent (to c)))).
  pose proof (unsent_length (to c) Hto) as Hlen.
  destruct (wrote_ok (to c) k Hto) as [Hok Hp]; [unfold k; rewrite length_take; lia|].
  assert (Hsent : typed c = (sent c ++ take n (unsent (to c))) ++ unsent (wrote (to c) k)).
  { rewrite Hp, <- app_assoc, Ht. f_equal. unfold k. rewrite length_take.
    destruct (Nat.min_spec n (length (unsent (to c)))) as [[Hn ->]|[Hn ->]]; [by rewrite take_drop|].
    by rewrite take_ge, drop_ge, app_nil_r by lia. }
  assert (Hf0 : fins c = 0%nat).
  { rewrite Hf, (bool_decide_false (unsent (to c) = [])); [by rewrite andb_false_r|]. intros Hn. apply unsent_nil in Hn; [lia|done]. }
  assert (Hend : bool_decide (unsent (wrote (to c) k) = []) = (optr (to c) + Z.of_nat k =? iptr (to c))).
  { rewrite Hp. destruct (Z.eqb_spec (optr (to c) + Z.of_nat k) (iptr (to c))).
    - apply bool_decide_true, drop_ge. lia.
    - apply bool_decide_false. intros Hn%(f_equal length). rewrite length_drop in Hn. unfold k in *.
      rewrite length_take in *. simpl in Hn. lia. }
  unfold wpx, mbind, M_bind, modify. cbn. rewrite <- Hend.
  destruct (bool_decide (unsent (wrote (to c) k) = [])) eqn:Hb, (stdineof c) eqn:He; cbn; unfold streams_ok;
    (split_and!; [done..|]); cbn; by rewrite ?He, ?Hb, Hf0.
Qed.

Lemma turn_safe a c : streams_ok c → safe (turn a) (λ _, streams_ok) c.
Proof.
  intros Hok. unfold turn. rewrite wpx_bind, wpx_get. cbv zeta.
  eapply wpx_seq with (P := λ _, streams_ok).
  { destruct (in_ready a && (negb (stdineof c) && _)) eqn:Hin; [|done]. apply andb_prop in Hin as [_ Hin].
    apply andb_prop in Hin as [He _]. apply read_stdin_safe; [done|]. by apply negb_true_iff. }
  intros jt c1 H1. eapply wpx_seq with (P := λ _, streams_ok); [destruct (sock_ready a && _); [by apply read_socket_safe|done]|].
  intros [ret jr] c2 H2. destruct ret; [done|]. eapply wpx_seq with (P := λ _, streams_ok).
  { destruct (_ || jr); [by apply write_stdout_safe|done]. }
  intros [] c3 H3. eapply wpx_seq with (P := λ _, streams_ok); [|done].
  destruct (_ || jt); [by apply write_socket_safe|done].
Qed.

Lemma str_cli_safe turns c : streams_ok c → safe (str_cli turns) (λ _, streams_ok) c.
Proof.
  revert c. induction turns as [|a turns IH]; intros c Hok; [done|]. cbn [str_cli].
  eapply wpx_seq; [by apply turn_safe|]. intros [] c' H; [done|by apply IH].
Qed.

Lemma init_ok j1 j2 : length j1 = Z.to_nat MAXLINE → length j2 = Z.to_nat MAXLINE → streams_ok (init j1 j2).
Proof.
  intros H1 H2. assert (Hb : ∀ j, length j = Z.to_nat MAXLINE → buffer_ok (mk_buffer j 0 0))
    by (intros j Hj; unfold buffer_ok, MAXLINE in *; cbn; split_and!; (done || lia)).
  split_and!; [by apply Hb..|done|done|done].
Qed.

(** * Progress *)

(** The kernel takes bytes for the socket, has none from it, and standard output does not
    fail. *)
Definition takes (a : answers) : Prop :=
  sock_writable a = true ∧ sock_ready a = false ∧ out_write a ≠ WriteError ∧ ∃ n, (0 < n)%nat ∧ sock_write a = Wrote n.

Lemma write_stdout_keeps r c :
  streams_ok c → r ≠ WriteError →
  ∃ c', write_stdout r c = Done tt c' ∧ streams_ok c' ∧ to c' = to c ∧ stdineof c' = stdineof c ∧ typed c' = typed c.
Proof.
  intros Hok Hr. pose proof (write_stdout_safe r c Hok) as Hsafe. unfold wpx, write_stdout in *. rewrite bind_get in *.
  destruct (0 <? _); [|by exists c]. destruct r as [| |n]; [by exists c|done|].
  destruct Hok as (_ & Hfr & _). rewrite (bind_Done _ _ _ _ _ (write_from_run (fr c) n c Hfr)) in *.
  eexists. split; [reflexivity|]. by split.
Qed.

Lemma write_socket_takes n c :
  streams_ok c → stdineof c = true → optr (to c) ≠ iptr (to c) → (0 < n)%nat →
  ∃ c', write_socket (Wrote n) c = Done tt c' ∧ streams_ok c' ∧ stdineof c' = true ∧ typed c' = typed c ∧
        (length (unsent (to c')) < length (unsent (to c)))%nat.
Proof.
  intros Hok He Hne Hn. pose proof (write_socket_safe (Wrote n) c Hok) as Hsafe. assert (Hto : buffer_ok (to c)) by apply Hok.
  pose proof (unsent_length (to c) Hto) as Hlen. unfold wpx, write_socket in *. rewrite bind_get in *.
  assert (Hpos : (0 <? iptr (to c) - optr (to c)) = true) by (destruct Hto; lia). rewrite Hpos in *.
  rewrite (bind_Done _ _ _ _ _ (write_from_run (to c) n c Hto)) in *.
  set (k := length (take n (unsent (to c)))) in *.
  assert (Hk : (1 ≤ k ≤ length (unsent (to c)))%nat) by (unfold k; rewrite length_take; destruct Hto; lia).
  destruct (wrote_ok (to c) k Hto) as [_ Hp]; [lia|]. unfold mbind, M_bind, modify in *. cbn in Hsafe |- *.
  rewrite He in *. destruct (optr (to c) + Z.of_nat k =? iptr (to c)); cbn in Hsafe |- *;
    (eexists; split; [reflexivity|]; split_and!; [exact Hsafe|done|done|cbn; rewrite Hp, length_drop; lia]).
Qed.

Lemma turn_takes a c :
  streams_ok c → stdineof c = true → takes a →
  ∃ c', turn a c = Done false c' ∧ streams_ok c' ∧ stdineof c' = true ∧ typed c' = typed c ∧
        (length (unsent (to c')) ≤ pred (length (unsent (to c))))%nat.
Proof.
  intros Hok He (Hw & Hr & Ho & n & Hn & Hs). unfold turn. rewrite bind_get. cbv zeta. rewrite Hr, Hw, He.
  cbn [negb andb]. rewrite andb_false_r, !bind_ret.
  assert (∃ c1, when (out_writable a && negb (optr (fr c) =? iptr (fr c)) || false) (write_stdout (out_write a)) c = Done tt c1 ∧
    streams_ok c1 ∧ to c1 = to c ∧ stdineof c1 = true ∧ typed c1 = typed c) as (c1 & H1 & Hok1 & Hto1 & He1 & Ht1).
  { destruct (out_writable a && _); [|by exists c].
    destruct (write_stdout_keeps (out_write a) c Hok Ho) as (c1 & ? & ? & ? & He1 & ?). exists c1. cbn [orb when].
    by rewrite He1. }
  rewrite (bind_Done _ _ _ _ _ H1). rewrite orb_false_r, Hs, <- Ht1, <- Hto1.
  destruct (Z.eqb_spec (optr (to c1)) (iptr (to c1))) as [Heq|Hne]; cbn [negb when].
  - exists c1. split_and!; [done..|]. destruct Hok1 as [Hto _]. rewrite (proj2 (unsent_nil (to c1) Hto) Heq). simpl. lia.
  - destruct (write_socket_takes n c1 Hok1 He1 Hne Hn) as (c2 & H2 & Hok2 & He2 & Ht2 & Hl2).
    rewrite (bind_Done _ _ _ _ _ H2). exists c2. split_and!; [done..|lia].
Qed.

(** * Properties *)

(** C36: The non-blocking client passes on what it is given, whatever the kernel does.  For
    every sequence of answers of select, read and write, and every contents the two
    arrays start with: the pointers never leave the arrays and no byte is read that was
    not written, the bytes on the socket are a beginning of what was typed and the
    printed bytes a beginning of what was received, and the end of the input is passed on
    (once) exactly when everything typed is on the socket. *)
Theorem strcli_nonb_faithful (turns : list answers) (junk_to junk_fr : list Z)
    (Hto : length junk_to = Z.to_nat MAXLINE) (Hfr : length junk_fr = Z.to_nat MAXLINE) :
  let passed c :=
    sent c `prefix_of` typed c ∧ printed c `prefix_of` received c ∧
    fins c = (if stdineof c && bool_decide (sent c = typed c) then 1 else 0)%nat in
  match str_cli turns (init junk_to junk_fr) with
  | Done _ c => passed c
  | Exited code c => code = 1 ∧ passed c
  | Undefined _ => False
  end.
Proof.
  intros passed. pose proof (str_cli_safe turns _ (init_ok junk_to junk_fr Hto Hfr)) as Hsafe.
  assert (Hp : ∀ c, streams_ok c → passed c).
  { intros c (_ & _ & Ht & Hr & Hf). split_and!; [by eexists|by eexists|]. rewrite Hf.
    assert (bool_decide (unsent (to c) = []) = bool_decide (sent c = typed c)) as ->; [|done].
    apply bool_decide_ext. rewrite Ht. split; [intros ->; by rewrite app_nil_r|].
    intros Heq. rewrite <- (app_nil_r (sent c)) in Heq at 1. by apply app_inv_head in Heq. }
  unfold wpx in Hsafe. destruct (str_cli turns _) as [r c|code c|u] eqn:Hrun; [by apply Hp| |done].
  destruct Hsafe as [-> Hok]. split; [done|by apply Hp].
Qed.

Definition first_turn : answers :=
  mk_answers true true false true (ReadBytes [104; 105; 10]) ReadBlock WriteBlock (Wrote 2).
Definition second_turn : answers :=
  mk_answers true true true true (ReadBytes []) (ReadBytes [104; 105]) WriteBlock (Wrote 1).

Lemma strcli_nonb_faithful_witness :
  match str_cli [first_turn; second_turn] (init (replicate (Z.to_nat MAXLINE) 0) (replicate (Z.to_nat MAXLINE) 0)) with
  | Done r c => r = false ∧ sent c = [104; 105; 10] ∧ typed c = [104; 105; 10] ∧ received c = [104; 105] ∧ printed c = [] ∧
                sent c `prefix_of` typed c
  | _ => False
  end.
Proof.
  pose proof (strcli_nonb_faithful [first_turn; second_turn] (replicate (Z.to_nat MAXLINE) 0) (replicate (Z.to_nat MAXLINE) 0)
    (length_replicate _ _) (length_replicate _ _)) as H.
  destruct (str_cli _ _) as [r c|code c|u] eqn:Hrun; [|vm_compute in Hrun; discriminate|vm_compute in Hrun; discriminate].
  destruct H as (Hpre & _). revert Hpre. vm_compute in Hrun. injection Hrun as <- <-. intros Hpre.
  split; [reflexivity|]. split; [reflexivity|]. split; [reflexivity|]. split; [reflexivity|]. split; [reflexivity|exact Hpre].
Defined.

(** After the end of the input, everything typed gets to the socket, and then the FIN: it
    takes at most as many turns as there are bytes unsent. *)
Theorem strcli_nonb_sends_all (turns : list answers) (c : endpoints)
    (Hok : streams_ok c) (Heof : stdineof c = true) (Htakes : Forall takes turns)
    (Hlen : (length (unsent (to c)) ≤ length turns)%nat) :
  ∃ c', str_cli turns c = Done false c' ∧ sent c' = typed c ∧ fins c' = 1%nat.
Proof.
  revert c Hok Heof Hlen. induction Htakes as [|a turns Ha Hturns IH]; intros c Hok Heof Hlen.
  - exists c. destruct Hok as (Hto & Hfr & Ht & Hr & Hf). destruct (unsent (to c)); [|simpl in Hlen; lia].
    split_and!; [done|by rewrite Ht, app_nil_r|]. by rewrite Hf, Heof.
  - destruct (turn_takes a c Hok Heof Ha) as (c1 & H1 & Hok1 & He1 & Ht1 & Hl1). cbn [str_cli].
    rewrite (bind_Done _ _ _ _ _ H1), <- Ht1. apply IH; [done..|simpl in Hlen; lia].
Qed.

Lemma strcli_nonb_sends_all_witness :
  let c := set_eof (set_to (mk_buffer ([104; 105; 10] ++ replicate 4093 0) 3 0) (log_typed [104; 105; 10]
    (init (replicate (Z.to_nat MAXLINE) 0) (replicate (Z.to_nat MAXLINE) 0)))) in
  let a := mk_answers false false true false ReadBlock ReadBlock WriteBlock (Wrote 1) in
  ∃ c', str_cli [a; a; a] c = Done false c' ∧ sent c' = [104; 105; 10] ∧ fins c' = 1%nat.
Proof.
  intros c a. apply (strcli_nonb_sends_all [a; a; a] c).
  - unfold streams_ok, buffer_ok, MAXLINE. cbn [c to fr set_eof set_to log_typed init arr iptr optr typed sent received printed fins stdineof].
    rewrite length_app, !length_replicate. split; [|split; [|split; [|split]]].
    + split; [reflexivity|lia].
    + split; [reflexivity|lia].
    + vm_compute. reflexivity.
    + reflexivity.
    + vm_compute. reflexivity.
  - reflexivity.
  - assert (Ha : takes a) by (split; [reflexivity|split; [reflexivity|split; [discriminate|exists 1%nat; split; [lia|reflexivity]]]]).
    constructor; [exact Ha|]. constructor; [exact Ha|]. constructor; [exact Ha|constructor].
  - vm_compute. lia.
Defined.

(** What was received but not yet printed is lost when the server ends the connection:
    the function returns as soon as the socket is at its end, while standard output has
    not taken the bytes of the buffer. *)
Theorem strcli_nonb_loses_output :
  let blocked_out := mk_answers true true true true in
  match str_cli
    [blocked_out (ReadBytes [104; 10]) ReadBlock WriteBlock (Wrote 2);
     blocked_out (ReadBytes []) (ReadBytes [104; 10]) WriteBlock WriteBlock;
     blocked_out ReadBlock (ReadBytes []) (Wrote 2) WriteBlock]
    (init (replicate (Z.to_nat MAXLINE) 0) (replicate (Z.to_nat MAXLINE) 0)) with
  | Done r c => r = true ∧ sent c = [104; 10] ∧ received c = [104; 10] ∧ printed c = []
  | _ => False
  end.
Proof. vm_compute. done. Qed.
