(* ===== verification/InetAddr.v ===== *)
(** Presentation and network format of addresses: unpv13e/libfree/inet_ntop.c and
    inet_pton.c, which the repository builds into its library, and
    unpv13e/lib/sock_ntop_host.c on top of them.  IPv4 and IPv6. *)

From S2P Require Export CStr.

(** * %u and %x of [sprintf], [strchr] *)

Fixpoint digits_of (base : Z) (fuel : nat) (n : Z) : list Z :=
  match fuel with
  | O => []
  | S f => if n <? base then [n] else digits_of base f (n / base) ++ [n mod base]
  end.

Definition digits : string := "0123456789".
Definition xdigits_l : string := "0123456789abcdef".
Definition xdigits_u : string := "0123456789ABCDEF".

Definition digit_char (d : Z) : ascii := default Ascii.zero (String.get (Z.to_nat d) xdigits_l).
Fixpoint of_digits (ds : list Z) : string :=
  match ds with [] => EmptyString | d :: ds' => String (digit_char d) (of_digits ds') end.

(** 32 bits are at most 10 decimal and 8 hexadecimal digits. *)
Definition print_u (n : Z) : string := of_digits (digits_of 10 10 n).
Definition print_x (n : Z) : string := of_digits (digits_of 16 8 n).

(** [strchr(s, c) - s] for a character [c] other than the terminator. *)
Fixpoint strchr (s : string) (c : ascii) : option Z :=
  match s with
  | EmptyString => None
  | String c' s' => if Ascii.eqb c' c then Some 0 else Z.succ <$> strchr s' c
  end.

Definition AF_UNIX : Z := 1.
Definition AF_INET : Z := 2.
Definition AF_INET6 : Z := 10.

Section inet.
Context {St : Type}.

(** * inet_ntop.c *)

(** [dst] has room for [size] bytes; [None] is the return of [NULL]. *)
Definition inet_ntop4 (src : list Z) (size : nat) : M St (option string) :=
  a ← rd src 0; b ← rd src 1; c ← rd src 2; d ← rd src 3;
  tmp ← strcpy 16 (print_u a +:+ String "." (print_u b +:+ String "." (print_u c +:+ String "." (print_u d))));
  if (size <? String.length tmp)%nat then mret None
  else dst ← strcpy size tmp; mret (Some dst).

(** [words[i / 2] |= (src[i] << ((1 - (i % 2)) << 3))] for [i] from 0 to 15. *)
Definition pack_byte (src : list Z) (words : list Z) (i : nat) : list Z :=
  alter (λ w, u32 (Z.lor w (Z.shiftl (nth i src 0) (Z.shiftl (1 - Z.of_nat i mod 2) 3)))) (i / 2)%nat words.
Definition pack_words (src : list Z) : list Z :=
  foldl (pack_byte src) (replicate 8 0) (seq 0 16).

(** A run of zero words; base -1: none. *)
Record zrun := mk_zrun { base : Z; len : Z }.

(** One turn of the search: [best] and [cur]. *)
Definition scan_word (runs : zrun * zrun) (i w : Z) : zrun * zrun :=
  let '(best, cur) := runs in
  if w =? 0 then
    if base cur =? -1 then (best, mk_zrun i 1) else (best, mk_zrun (base cur) (len cur + 1))
  else if negb (base cur =? -1) then
    (if (base best =? -1) || (len cur >? len best) then cur else best, mk_zrun (-1) (len cur))
  else (best, cur).

Fixpoint scan_words (runs : zrun * zrun) (i : Z) (ws : list Z) : zrun * zrun :=
  match ws with
  | [] => runs
  | w :: ws' => scan_words (scan_word runs i w) (i + 1) ws'
  end.

Definition best_run (words : list Z) : zrun :=
  let '(best, cur) := scan_words (mk_zrun (-1) 0, mk_zrun (-1) 0) 0 words in
  let best := if negb (base cur =? -1) && ((base best =? -1) || (len cur >? len best)) then cur else best in
  if negb (base best =? -1) && (len best <? 2) then mk_zrun (-1) (len best) else best.

(** [char tmp[46]] *)
Definition TMP6 : nat := 46.

(** [*tp++ = c] *)
Definition put_char (tmp : string) (c : ascii) : M St string :=
  if (String.length tmp <? TMP6)%nat then mret (tmp +:+ String c EmptyString) else undef OutOfBounds.

(** [sprintf(tp, "%x", w); tp += strlen(tp);] *)
Definition put_hex (tmp : string) (w : Z) : M St string :=
  if (String.length tmp + String.length (print_x w) <? TMP6)%nat then mret (tmp +:+ print_x w)
  else undef BufferOverflow.

(** The loop that formats the words; [None] is the return of [NULL]. *)
Fixpoint format_words (src words : list Z) (best : zrun) (i : Z) (ws : list Z) (tmp : string)
    : M St (option string) :=
  match ws with
  | [] => mret (Some tmp)
  | w :: ws' =>
      if negb (base best =? -1) && (i >=? base best) && (i <? base best + len best) then
        tmp ← (if i =? base best then put_char tmp ":" else mret tmp);
        format_words src words best (i + 1) ws' tmp
      else
        tmp ← (if negb (i =? 0) then put_char tmp ":" else mret tmp);
        if (i =? 6) && (base best =? 0)
           && ((len best =? 6) || ((len best =? 5) && (nth 5 words 0 =? 65535))) then
          r ← inet_ntop4 (drop 12 src) (TMP6 - String.length tmp);
          match r with None => mret None | Some s => mret (Some (tmp +:+ s)) end
        else
          tmp ← put_hex tmp w;
          format_words src words best (i + 1) ws' tmp
  end.

Definition inet_ntop6 (src : list Z) (size : nat) : M St (option string) :=
  src ← of_opt OutOfBounds (if (length src <? 16)%nat then None else Some (take 16 src));
  let words := pack_words src in
  let best := best_run words in
  r ← format_words src words best 0 words EmptyString;
  match r with
  | None => mret None
  | Some tmp =>
      tmp ← (if negb (base best =? -1) && (base best + len best =? 8) then put_char tmp ":" else mret tmp);
      put_char tmp Ascii.zero;;
      if (size <? S (String.length tmp))%nat then mret None
      else dst ← strcpy size tmp; mret (Some dst)
  end.

(** [None]: NULL, with [errno] EAFNOSUPPORT or ENOSPC. *)
Definition inet_ntop (af : Z) (src : list Z) (size : nat) : M St (option string) :=
  if af =? AF_INET then inet_ntop4 src size
  else if af =? AF_INET6 then inet_ntop6 src size
  else mret None.

(** * inet_pton.c *)

(** The loop of [inet_pton4]; [tmp] is the part of the array that is initialised,
    [tp] points to its last byte; [None] is the return of 0. *)
Fixpoint pton4_loop (src : string) (saw_digit : bool) (octets : Z) (tmp : list Z)
    : M St (option (Z * list Z)) :=
  match src with
  | EmptyString => mret (Some (octets, tmp))
  | String ch src' =>
      match strchr digits ch with
      | Some d =>
          v ← rd tmp (Z.of_nat (length tmp) - 1);
          let new := u32 (v * 10 + d) in
          if new >? 255 then mret None
          else
            tmp ← of_opt OutOfBounds (arr_set tmp (Z.of_nat (length tmp) - 1) new);
            if saw_digit then pton4_loop src' true octets tmp
            else if octets + 1 >? 4 then mret None
            else pton4_loop src' true (octets + 1) tmp
      | None =>
          if Ascii.eqb ch "." && saw_digit then
            if octets =? 4 then mret None
            else if (length tmp <? 4)%nat then pton4_loop src' false octets (tmp ++ [0])
            else undef OutOfBounds
          else mret None
      end
  end.

Definition inet_pton4 (src : string) : M St (option (list Z)) :=
  r ← pton4_loop src false 0 [0];
  match r with
  | None => mret None
  | Some (octets, tmp) =>
      if octets <? 4 then mret None
      else if (length tmp <? 4)%nat then undef OutOfBounds else mret (Some tmp)
  end.

(** Variables of [inet_pton6]; pointers into [tmp] are indices. *)
Record pton6 := mk_pton6 {
  p6_tmp : list Z;
  p6_tp : Z;
  p6_colonp : option Z;
  p6_saw : bool;
  p6_val : Z
}.

(** [*tp++ = (u_char) (val >> 8) & 0xff; *tp++ = (u_char) val & 0xff;] *)
Definition store_word (tmp : list Z) (tp val : Z) : M St (list Z) :=
  tmp ← of_opt OutOfBounds (arr_set tmp tp (Z.land (u8 (Z.shiftr val 8)) 255));
  of_opt OutOfBounds (arr_set tmp (tp + 1) (Z.land (u8 val) 255)).

(** [memcpy] of [bs] to [tmp + tp]. *)
Fixpoint store_bytes (tmp : list Z) (tp : Z) (bs : list Z) : M St (list Z) :=
  match bs with
  | [] => mret tmp
  | b :: bs' => tmp ← of_opt OutOfBounds (arr_set tmp tp b); store_bytes tmp (tp + 1) bs'
  end.

Definition xdigit (ch : ascii) : option Z :=
  match strchr xdigits_l ch with Some d => Some d | None => strchr xdigits_u ch end.

Fixpoint pton6_loop (src curtok : string) (p : pton6) : M St (option pton6) :=
  match src with
  | EmptyString => mret (Some p)
  | String ch src' =>
      match xdigit ch with
      | Some d =>
          let val := Z.lor (u32 (Z.shiftl (p6_val p) 4)) d in
          if val >? 65535 then mret None
          else pton6_loop src' curtok (mk_pton6 (p6_tmp p) (p6_tp p) (p6_colonp p) true val)
      | None =>
          if Ascii.eqb ch ":" then
            if negb (p6_saw p) then
              match p6_colonp p with
              | Some _ => mret None
              | None => pton6_loop src' src'
                          (mk_pton6 (p6_tmp p) (p6_tp p) (Some (p6_tp p)) (p6_saw p) (p6_val p))
              end
            else if p6_tp p + 2 >? 16 then mret None
            else
              tmp ← store_word (p6_tmp p) (p6_tp p) (p6_val p);
              pton6_loop src' src' (mk_pton6 tmp (p6_tp p + 2) (p6_colonp p) false 0)
          else if Ascii.eqb ch "." && (p6_tp p + 4 <=? 16) then
            r ← inet_pton4 curtok;
            match r with
            | None => mret None
            | Some bs =>
                tmp ← store_bytes (p6_tmp p) (p6_tp p) bs;
                mret (Some (mk_pton6 tmp (p6_tp p + 4) (p6_colonp p) false (p6_val p)))
            end
          else mret None
      end
  end.

(** [for (i = 1; i <= n; i++) { endp[-i] = colonp[n-i]; colonp[n-i] = 0; }] *)
Fixpoint shift_tail (colonp n : Z) (steps : list Z) (tmp : list Z) : M St (list Z) :=
  match steps with
  | [] => mret tmp
  | i :: rest =>
      x ← rd tmp (colonp + n - i);
      tmp ← of_opt OutOfBounds (arr_set tmp (16 - i) x);
      tmp ← of_opt OutOfBounds (arr_set tmp (colonp + n - i) 0);
      shift_tail colonp n rest tmp
  end.

(** What follows the loop. *)
Definition pton6_end (p : pton6) : M St (option (list Z)) :=
  let full := p6_saw p && (p6_tp p + 2 >? 16) in
  if full then mret None
  else
    tmp ← (if p6_saw p then store_word (p6_tmp p) (p6_tp p) (p6_val p) else mret (p6_tmp p));
    let tp := if p6_saw p then p6_tp p + 2 else p6_tp p in
    match p6_colonp p with
    | Some c =>
        let n := tp - c in
        tmp ← shift_tail c n (seqZ 1 n) tmp;
        mret (Some tmp)
    | None => if tp =? 16 then mret (Some tmp) else mret None
    end.

(** A leading colon must be one of two; the first is skipped. *)
Definition skip_colon (src : string) : option string :=
  match src with
  | String c src' =>
      if Ascii.eqb c ":" then
        match src' with
        | String c' _ => if Ascii.eqb c' ":" then Some src' else None
        | EmptyString => None
        end
      else Some src
  | EmptyString => Some src
  end.

Definition inet_pton6 (src : string) : M St (option (list Z)) :=
  match skip_colon src with
  | None => mret None
  | Some src =>
      r ← pton6_loop src src (mk_pton6 (replicate 16 0) 0 None false 0);
      match r with None => mret None | Some p => pton6_end p end
  end.

(** The return value, and [dst] after the call. *)
Definition stored (r : option (list Z)) (dst : list Z) : Z * list Z :=
  match r with Some bs => (1, bs ++ drop (length bs) dst) | None => (0, dst) end.

Definition inet_pton (af : Z) (src : string) (dst : list Z) : M St (Z * list Z) :=
  if af =? AF_INET then r ← inet_pton4 src; mret (stored r dst)
  else if af =? AF_INET6 then r ← inet_pton6 src; mret (stored r dst)
  else mret (-1, dst).
End inet.

(** A try: the result on an empty state. *)
Definition run_inet {A} (m : M unit A) : option A :=
  match m tt with Done a _ => Some a | _ => None end.

(** * Digits *)

(** The number a list of digits denotes, behind the digits of [v]. *)
Definition value (base v : Z) (ds : list Z) : Z := foldl (λ v d, v * base + d) v ds.

Lemma value_app base v ds es : value base v (ds ++ es) = value base (value base v ds) es.
Proof. apply foldl_app. Qed.

Lemma digits_of_spec base fuel n :
  2 ≤ base → 0 ≤ n < base ^ Z.of_nat fuel → (0 < fuel)%nat →
  value base 0 (digits_of base fuel n) = n ∧ digits_of base fuel n ≠ [] ∧
  Forall (λ d, 0 ≤ d < base) (digits_of base fuel n).
Proof.
  intros Hb. revert n. induction fuel as [|f IH]; intros n Hn Hf; [lia|]. cbn [digits_of].
  destruct (Z.ltb_spec n base) as [Hlt|Hge].
  - split_and!; [unfold value; simpl; lia|done|]. constructor; [lia|constructor].
  - rewrite Nat2Z.inj_succ, Z.pow_succ_r in Hn by lia.
    assert (Hf' : (0 < f)%nat) by (destruct f; [simpl in Hn; lia|lia]).
    destruct (IH (n / base)) as (Hv & _ & Hds); [|done|].
    { split; [apply Z.div_pos; lia|apply Z.div_lt_upper_bound; lia]. }
    pose proof (Z.mod_pos_bound n base ltac:(lia)). split_and!.
    + rewrite value_app, Hv. unfold value. simpl. pose proof (Z.div_mod n base ltac:(lia)). lia.
    + intros [_ [=]]%app_eq_nil.
    + apply Forall_app. split; [done|]. by constructor.
Qed.

Lemma length_digits_of base fuel n k :
  2 ≤ base → 0 ≤ n < base ^ Z.of_nat k → (0 < k)%nat → (length (digits_of base fuel n) ≤ k)%nat.
Proof.
  intros Hb. revert n k. induction fuel as [|f IH]; intros n k Hn Hk; cbn [digits_of]; [simpl; lia|].
  destruct (Z.ltb_spec n base) as [|Hge]; [simpl; lia|]. rewrite length_app. simpl.
  destruct k as [|k]; [lia|]. rewrite Nat2Z.inj_succ, Z.pow_succ_r in Hn by lia.
  assert (0 < k)%nat by (destruct k; [simpl in Hn; lia|lia]).
  assert (0 ≤ n / base < base ^ Z.of_nat k) by (split; [apply Z.div_pos; lia|apply Z.div_lt_upper_bound; lia]).
  specialize (IH (n / base) k ltac:(done) ltac:(done)). lia.
Qed.

Lemma value_ge base v ds : 1 ≤ base → 0 ≤ v → Forall (λ d, 0 ≤ d) ds → v ≤ value base v ds.
Proof.
  intros Hb. revert v. induction ds as [|d ds IH]; intros v Hv Hds; unfold value; simpl; [lia|].
  inversion Hds; subst. etransitivity; [|apply IH; [nia|done]]. nia.
Qed.

Lemma length_of_digits ds : String.length (of_digits ds) = length ds.
Proof. induction ds; simpl; auto. Qed.

Ltac digit_cases d :=
  assert (d = 0 ∨ d = 1 ∨ d = 2 ∨ d = 3 ∨ d = 4 ∨ d = 5 ∨ d = 6 ∨ d = 7 ∨ d = 8 ∨ d = 9 ∨
          d = 10 ∨ d = 11 ∨ d = 12 ∨ d = 13 ∨ d = 14 ∨ d = 15) as Hcases by lia;
  repeat (destruct Hcases as [->|Hcases]; [try done; try lia|]); subst; try done; try lia.

Lemma xdigit_char d : 0 ≤ d < 16 → xdigit (digit_char d) = Some d.
Proof. intros Hd. digit_cases d. Qed.

Lemma digit_char_dec d : 0 ≤ d < 10 → strchr digits (digit_char d) = Some d.
Proof. intros Hd. digit_cases d. Qed.

Lemma digit_char_no_nul d : 0 ≤ d < 16 → Ascii.eqb (digit_char d) Ascii.zero = false.
Proof. intros Hd. digit_cases d. Qed.

Lemma of_digits_no_nul ds : Forall (λ d, 0 ≤ d < 16) ds → no_nul (of_digits ds) = true.
Proof. induction 1 as [|d ds Hd Hds IH]; simpl; [done|]. by rewrite digit_char_no_nul, IH. Qed.

(** A 16-bit word in hexadecimal, a byte in decimal. *)
Lemma print_x_digits w :
  0 ≤ w < 65536 → ∃ ds, print_x w = of_digits ds ∧ ds ≠ [] ∧ (length ds ≤ 4)%nat ∧
                        Forall (λ d, 0 ≤ d < 16) ds ∧ value 16 0 ds = w.
Proof.
  intros Hw. exists (digits_of 16 8 w). destruct (digits_of_spec 16 8 w) as (? & ? & ?); [lia|simpl; lia|lia|].
  split_and!; try done. apply length_digits_of; [lia|simpl; lia|lia].
Qed.

Lemma print_u_digits b :
  is_byte b → ∃ ds, print_u b = of_digits ds ∧ ds ≠ [] ∧ (length ds ≤ 3)%nat ∧
                    Forall (λ d, 0 ≤ d < 10) ds ∧ value 10 0 ds = b.
Proof.
  unfold is_byte. intros Hb. exists (digits_of 10 10 b).
  destruct (digits_of_spec 10 10 b) as (? & ? & ?); [lia|simpl; lia|lia|].
  split_and!; try done. apply length_digits_of; [lia|simpl; lia|lia].
Qed.

(** * IPv4 *)

(** Reference: the parts between the dots, and their values. *)
Fixpoint split_dots (s : string) : list string :=
  match s with
  | EmptyString => [EmptyString]
  | String c s' =>
      if Ascii.eqb c "." then EmptyString :: split_dots s'
      else match split_dots s' with
           | p :: ps => String c p :: ps
           | [] => []
           end
  end.

Fixpoint dec_value (p : string) (v : Z) : option Z :=
  match p with
  | EmptyString => Some v
  | String c p' => d ← strchr digits c; dec_value p' (v * 10 + d)
  end.

Definition at_most_255 (v : option Z) : option Z := x ← v; if x <=? 255 then Some x else None.
Definition octet_value (p : string) : option Z :=
  match p with EmptyString => None | _ => at_most_255 (dec_value p 0) end.

(** Four parts, each one or more decimal digits with a value of at most 255. *)
Definition dotted_quad (s : string) : option (list Z) :=
  os ← mapM octet_value (split_dots s);
  if (length os =? 4)%nat then Some os else None.

(** The same in the middle of a text: [done] parts behind us, [v] so far. *)
Definition quad_from (done : list Z) (saw : bool) (v : Z) (src : string) : option (list Z) :=
  match split_dots src with
  | [] => None
  | p :: ps =>
      x ← (if saw then at_most_255 (dec_value p v) else octet_value p);
      os ← mapM octet_value ps;
      if (length done + S (length os) =? 4)%nat then Some (done ++ x :: os) else None
  end.

Lemma split_dots_cons s : ∃ p ps, split_dots s = p :: ps.
Proof.
  destruct s as [|c s]; simpl; [eauto|]. destruct (Ascii.eqb c "."); [eauto|].
  induction s as [|c' s IH]; simpl; [eauto|]. destruct (Ascii.eqb c' "."); [eauto|].
  destruct IH as (p & ps & Hs). destruct (split_dots s); [done|eauto].
Qed.

Lemma strchr_digit c d : strchr digits c = Some d → 0 ≤ d ≤ 9.
Proof.
  unfold digits. cbn [strchr]. intros H.
  repeat match type of H with context [Ascii.eqb ?a c] => destruct (Ascii.eqb a c); [simpl in H; injection H as <-; lia|] end.
  done.
Qed.

Lemma dec_value_ge p v r : 0 ≤ v → dec_value p v = Some r → v ≤ r.
Proof.
  revert v. induction p as [|c p IH]; intros v Hv; cbn [dec_value]; [intros [= ->]; lia|].
  destruct (strchr digits c) as [d|] eqn:Hd; [|done]. apply strchr_digit in Hd. simpl. intros H%IH; lia.
Qed.

Lemma quad_from_start s : quad_from [] false 0 s = dotted_quad s.
Proof.
  unfold quad_from, dotted_quad. destruct (split_dots_cons s) as (p & ps & ->). simpl.
  destruct (octet_value p); [|done]. simpl. by destruct (mapM octet_value ps).
Qed.

(** How the parts of a text continue. *)
Lemma quad_digit done saw v c d src :
  strchr digits c = Some d → 0 ≤ v → (saw = false → v = 0) →
  quad_from done saw v (String c src) =
  if v * 10 + d >? 255 then None else quad_from done true (v * 10 + d) src.
Proof.
  intros Hd Hv Hsaw. pose proof (strchr_digit c d Hd). unfold quad_from. cbn [split_dots].
  assert (Ascii.eqb c "." = false) as -> by (apply Ascii.eqb_neq; by intros ->).
  destruct (split_dots_cons src) as (p & ps & ->).
  assert ((if saw then at_most_255 (dec_value (String c p) v) else octet_value (String c p))
          = at_most_255 (dec_value p (v * 10 + d))) as ->.
  { unfold octet_value. cbn [dec_value]. rewrite Hd. simpl. destruct saw; [done|]. by rewrite Hsaw. }
  destruct (Z.gtb_spec (v * 10 + d) 255); [|done].
  destruct (dec_value p (v * 10 + d)) as [r|] eqn:Hr; [|done]. apply dec_value_ge in Hr; [|lia]. simpl.
  by rewrite (proj2 (Z.leb_gt r 255)) by lia.
Qed.

Lemma quad_dot done v src :
  v ≤ 255 → quad_from done true v (String "." src) = quad_from (done ++ [v]) false 0 src.
Proof.
  intros Hv. unfold quad_from. cbn [split_dots]. simpl. rewrite (proj2 (Z.leb_le v 255)) by lia. simpl.
  destruct (split_dots_cons src) as (p & ps & ->). simpl. destruct (octet_value p) as [x|]; [|done].
  simpl. destruct (mapM octet_value ps) as [os|]; [|done]. simpl. rewrite length_app, <- app_assoc. simpl.
  by replace (length done + 1 + S (length os))%nat with (length done + S (S (length os)))%nat by lia.
Qed.

Lemma quad_full done saw v src : (4 ≤ length done)%nat → quad_from done saw v src = None.
Proof.
  intros Hlen. unfold quad_from. destruct (split_dots_cons src) as (p & ps & ->).
  destruct (if saw then _ else _) as [x|]; [|done]. simpl. destruct (mapM octet_value ps) as [os|]; [|done].
  simpl. by destruct (Nat.eqb_spec (length done + S (length os)) 4); [lia|].
Qed.

Lemma quad_other done saw v c src :
  strchr digits c = None → (c = "."%char → saw = false) → quad_from done saw v (String c src) = None.
Proof.
  intros Hd Hc. unfold quad_from. cbn [split_dots].
  destruct (Ascii.eqb_spec c ".") as [->|Hne]; [by rewrite Hc|].
  destruct (split_dots_cons src) as (p & ps & ->). unfold octet_value. cbn [dec_value]. rewrite Hd.
  by destruct saw.
Qed.

Lemma quad_end done saw v :
  v ≤ 255 → quad_from done saw v EmptyString =
            if saw && (length done =? 3)%nat then Some (done ++ [v]) else None.
Proof.
  intros Hv. unfold quad_from. destruct saw; [|done]. simpl. rewrite (proj2 (Z.leb_le v 255)) by lia. simpl.
  by destruct (Nat.eqb_spec (length done + 1) 4), (Nat.eqb_spec (length done) 3); try lia.
Qed.

(** The byte [tp] points to. *)
Lemma rd_last {St} (l : list Z) x (s : St) : rd (l ++ [x]) (Z.of_nat (length (l ++ [x])) - 1) s = Done x s.
Proof.
  rewrite length_app. simpl. replace (Z.of_nat (length l + 1) - 1) with (Z.of_nat (length l)) by lia.
  unfold rd. by rewrite arr_at_nat, lookup_app_r, Nat.sub_diag by lia.
Qed.

Lemma set_last (l : list Z) x y : arr_set (l ++ [x]) (Z.of_nat (length (l ++ [x])) - 1) y = Some (l ++ [y]).
Proof.
  rewrite length_app. simpl. replace (Z.of_nat (length l + 1) - 1) with (Z.of_nat (length l)) by lia.
  rewrite arr_set_nat by (rewrite length_app; simpl; lia).
  by rewrite insert_app_r_alt, Nat.sub_diag by lia.
Qed.

(** The loop of [inet_pton4], and what follows it, from the middle of a text. *)
Definition pton4_result (r : option (Z * list Z)) (q : option (list Z)) : Prop :=
  match r with
  | None => q = None
  | Some (octets, tmp) => if octets <? 4 then q = None else length tmp = 4%nat ∧ q = Some tmp
  end.

Lemma pton4_loop_spec {St} (src : string) (saw : bool) done v octets (s : St) :
  octets = Z.of_nat (length done) + Z.b2z saw →
  (length done ≤ 3)%nat → 0 ≤ v ≤ 255 → (saw = false → v = 0) →
  ∃ r, pton4_loop src saw octets (done ++ [v]) s = Done r s ∧ pton4_result r (quad_from done saw v src).
Proof.
  revert saw done v octets. induction src as [|c src IH]; intros saw done v octets Ho Hlen Hv Hsaw;
    cbn [pton4_loop].
  - eexists. split; [reflexivity|]. rewrite quad_end by lia. unfold pton4_result. rewrite length_app. simpl.
    destruct (Z.ltb_spec octets 4), saw, (Nat.eqb_spec (length done) 3); simpl in *; try done; try lia.
    split; [lia|done].
  - destruct (strchr digits c) as [d|] eqn:Hd.
    + pose proof (strchr_digit c d Hd). rewrite (quad_digit done saw v c d) by (done || lia).
      run_step (rd_last done v s). cbv zeta. rewrite u32_small by lia.
      destruct (Z.gtb_spec (v * 10 + d) 255); [by eexists|].
      rewrite set_last. erewrite bind_Done by reflexivity. cbv beta.
      destruct saw; simpl in Ho; [apply IH; [done..|lia|done]|].
      destruct (Z.gtb_spec (octets + 1) 4); [lia|]. apply IH; [simpl; lia|done|lia|done].
    + destruct (Ascii.eqb_spec c ".") as [->|Hne]; [|by eexists; split; [reflexivity|apply quad_other]].
      destruct saw; simpl; [|by eexists; split; [reflexivity|apply quad_other]].
      rewrite quad_dot by lia. simpl in Ho. destruct (Z.eqb_spec octets 4) as [H4|H4].
      { eexists. split; [reflexivity|]. apply quad_full. rewrite length_app. simpl. lia. }
      rewrite length_app. simpl. destruct (Nat.ltb_spec (length done + 1) 4); [|lia].
      apply IH; [rewrite length_app; simpl; lia|rewrite length_app; simpl; lia|lia|done].
Qed.

Lemma pton4_spec {St} (src : string) (s : St) : inet_pton4 src s = Done (dotted_quad src) s.
Proof.
  rewrite <- quad_from_start. unfold inet_pton4.
  destruct (pton4_loop_spec src false [] 0 0 s) as (r & Hr & Hres); [done|simpl; lia|lia|done|].
  run_step Hr. destruct r as [[octets tmp]|]; simpl in Hres; [|by rewrite Hres].
  destruct (octets <? 4); [by rewrite Hres|]. destruct Hres as [Hlen ->]. by rewrite Hlen.
Qed.

Lemma dotted_quad_length s bs : dotted_quad s = Some bs → length bs = 4%nat.
Proof.
  unfold dotted_quad. destruct (mapM octet_value (split_dots s)) as [os|]; [|done]. simpl.
  destruct (Nat.eqb_spec (length os) 4); [by intros [= <-]|done].
Qed.

Definition quad_text (a b c d : Z) : string :=
  print_u a +:+ String "." (print_u b +:+ String "." (print_u c +:+ String "." (print_u d))).

Lemma digit_char_not_dot d : 0 ≤ d < 10 → Ascii.eqb (digit_char d) "." = false.
Proof. intros Hd. digit_cases d. Qed.

Lemma split_dots_digits ds rest :
  Forall (λ d, 0 ≤ d < 10) ds →
  split_dots (of_digits ds +:+ String "." rest) = of_digits ds :: split_dots rest ∧
  split_dots (of_digits ds) = [of_digits ds].
Proof.
  induction 1 as [|d ds Hd Hds [IH1 IH2]]; simpl; [done|].
  rewrite digit_char_not_dot by done. by rewrite IH1, IH2.
Qed.

Lemma dec_value_digits ds v : Forall (λ d, 0 ≤ d < 10) ds → dec_value (of_digits ds) v = Some (value 10 v ds).
Proof.
  intros Hds. revert v. induction Hds as [|d ds Hd Hds IH]; intros v; [done|]. cbn [of_digits dec_value].
  rewrite digit_char_dec by done. simpl. apply IH.
Qed.

Lemma octet_print_u b : is_byte b → octet_value (print_u b) = Some b.
Proof.
  intros Hb. destruct (print_u_digits b Hb) as (ds & -> & Hne & _ & Hds & Hv).
  unfold octet_value. destruct ds as [|d ds]; [done|]. cbn [of_digits]. change (String ?c (of_digits ?l)) with (of_digits (d :: l)).
  rewrite dec_value_digits, Hv by done. simpl. unfold is_byte in Hb. by rewrite (proj2 (Z.leb_le b 255)) by lia.
Qed.

Lemma split_print_u b rest :
  is_byte b → split_dots (print_u b +:+ String "." rest) = print_u b :: split_dots rest ∧
              split_dots (print_u b) = [print_u b].
Proof. intros Hb. destruct (print_u_digits b Hb) as (ds & -> & _ & _ & Hds & _). by apply split_dots_digits. Qed.

Lemma dotted_quad_text a b c d :
  is_byte a → is_byte b → is_byte c → is_byte d → dotted_quad (quad_text a b c d) = Some [a; b; c; d].
Proof.
  intros Ha Hb Hc Hd. unfold dotted_quad, quad_text.
  rewrite (proj1 (split_print_u a _ Ha)), (proj1 (split_print_u b _ Hb)), (proj1 (split_print_u c _ Hc)).
  rewrite (proj2 (split_print_u d EmptyString Hd)). simpl. by rewrite !octet_print_u.
Qed.

Lemma length_print_u b : is_byte b → (1 ≤ String.length (print_u b) ≤ 3)%nat.
Proof.
  intros Hb. destruct (print_u_digits b Hb) as (ds & -> & Hne & Hl & _). rewrite length_of_digits.
  destruct ds; [done|]. simpl in *. lia.
Qed.

Lemma length_quad_text a b c d :
  is_byte a → is_byte b → is_byte c → is_byte d → (7 ≤ String.length (quad_text a b c d) ≤ 15)%nat.
Proof.
  intros Ha%length_print_u Hb%length_print_u Hc%length_print_u Hd%length_print_u. unfold quad_text.
  rewrite length_str_app. simpl. rewrite length_str_app. simpl. rewrite length_str_app. simpl. lia.
Qed.

Lemma ntop4_run {St} a b c d rest size (s : St) :
  is_byte a → is_byte b → is_byte c → is_byte d →
  inet_ntop4 (a :: b :: c :: d :: rest) size s =
  if (size <? String.length (quad_text a b c d))%nat then Done None s
  else if (size =? String.length (quad_text a b c d))%nat then Undefined BufferOverflow
  else Done (Some (quad_text a b c d)) s.
Proof.
  intros Ha Hb Hc Hd. pose proof (length_quad_text a b c d Ha Hb Hc Hd).
  unfold inet_ntop4. do 4 (erewrite bind_Done by reflexivity). cbv beta.
  fold (quad_text a b c d). unfold strcpy.
  destruct (Nat.ltb_spec (String.length (quad_text a b c d)) 16); [|lia]. erewrite bind_Done by reflexivity.
  cbv beta. destruct (Nat.ltb_spec size (String.length (quad_text a b c d))); [done|].
  destruct (Nat.eqb_spec size (String.length (quad_text a b c d))),
    (Nat.ltb_spec (String.length (quad_text a b c d)) size); (done || lia).
Qed.

(** * IPv6: reading *)

Lemma lor_digit v d : 0 ≤ v ≤ 65535 → 0 ≤ d < 16 → Z.lor (u32 (Z.shiftl v 4)) d = v * 16 + d.
Proof.
  intros Hv Hd. rewrite Z.shiftl_mul_pow2 by lia. change (2 ^ 4) with 16. rewrite u32_small by lia.
  rewrite <- (Z.add_nocarry_lor (v * 16) d); [done|].
  apply Z.bits_inj'. intros n Hn. rewrite Z.land_spec, Z.bits_0. change 16 with (2 ^ 4).
  rewrite Z.mul_pow2_bits by lia. destruct (Z.ltb_spec n 4); [by rewrite Z.testbit_neg_r by lia|].
  destruct (decide (d = 0)) as [->|]; [by rewrite Z.bits_0, andb_false_r|].
  assert (2 ^ 4 ≤ 2 ^ n) by (apply Z.pow_le_mono_r; lia).
  assert (Z.log2 d < n) by (apply Z.log2_lt_pow2; lia).
  by rewrite (Z.bits_above_log2 d n), andb_false_r by lia.
Qed.

(** The array [tmp] of 16 bytes of which [pre] is written. *)
Definition image (pre : list Z) : list Z := pre ++ replicate (16 - length pre) 0.
Definition at_ (pre : list Z) (colonp : option Z) : pton6 :=
  mk_pton6 (image pre) (Z.of_nat (length pre)) colonp false 0.

Definition word_ok (w : Z) : Prop := 0 ≤ w < 65536.
Definition word_bytes (w : Z) : list Z := [w / 256; w mod 256].
Definition words_bytes (ws : list Z) : list Z := ws ≫= word_bytes.

Lemma set_image pre x :
  (length pre < 16)%nat → arr_set (image pre) (Z.of_nat (length pre)) x = Some (image (pre ++ [x])).
Proof.
  intros Hlen. unfold image. rewrite arr_set_nat by (rewrite length_app, length_replicate; lia).
  rewrite insert_app_r_alt, Nat.sub_diag, length_app by lia. simpl.
  replace (16 - length pre)%nat with (S (16 - (length pre + 1))) by lia. simpl. by rewrite <- app_assoc.
Qed.

Lemma store_word_run {St} pre w (s : St) :
  (length pre + 2 ≤ 16)%nat → word_ok w →
  store_word (image pre) (Z.of_nat (length pre)) w s = Done (image (pre ++ word_bytes w)) s.
Proof.
  intros Hlen Hw. unfold store_word, word_ok in *.
  assert (Hhi : Z.land (u8 (Z.shiftr w 8)) 255 = w / 256).
  { rewrite Z.shiftr_div_pow2 by lia. change (2 ^ 8) with 256. change 255 with (Z.ones 8).
    rewrite Z.land_ones by lia. unfold u8. change (2 ^ 8) with 256. rewrite Z.mod_mod by lia.
    apply Z.mod_small. split; [apply Z.div_pos; lia|apply Z.div_lt_upper_bound; lia]. }
  assert (Hlo : Z.land (u8 w) 255 = w mod 256).
  { change 255 with (Z.ones 8). rewrite Z.land_ones by lia. unfold u8. by rewrite Z.mod_mod by lia. }
  rewrite Hhi, Hlo, set_image by lia. erewrite bind_Done by reflexivity. cbv beta.
  replace (Z.of_nat (length pre) + 1) with (Z.of_nat (length (pre ++ [w / 256]))) by (rewrite length_app; simpl; lia).
  rewrite set_image by (rewrite length_app; simpl; lia). by rewrite <- app_assoc.
Qed.

Lemma store_bytes_run {St} pre bs (s : St) :
  (length pre + length bs ≤ 16)%nat →
  store_bytes (image pre) (Z.of_nat (length pre)) bs s = Done (image (pre ++ bs)) s.
Proof.
  revert pre. induction bs as [|b bs IH]; intros pre Hlen; cbn [store_bytes].
  - by rewrite app_nil_r.
  - simpl in Hlen. rewrite set_image by lia. erewrite bind_Done by reflexivity. cbv beta.
    replace (Z.of_nat (length pre) + 1) with (Z.of_nat (length (pre ++ [b]))) by (rewrite length_app; simpl; lia).
    rewrite IH by (rewrite length_app; simpl; lia). by rewrite <- app_assoc.
Qed.

Lemma length_word_step pre w : Z.of_nat (length (pre ++ word_bytes w)) = Z.of_nat (length pre) + 2.
Proof. rewrite length_app. simpl. lia. Qed.

Lemma pton6_digit {St} d rest ct tmp tp cp saw v (s : St) :
  0 ≤ d < 16 → 0 ≤ v → v * 16 + d ≤ 65535 →
  pton6_loop (String (digit_char d) rest) ct (mk_pton6 tmp tp cp saw v) s
  = pton6_loop rest ct (mk_pton6 tmp tp cp true (v * 16 + d)) s.
Proof.
  intros Hd Hv Hle. cbn [pton6_loop]. rewrite xdigit_char by done. cbn [p6_val p6_tmp p6_tp p6_colonp].
  rewrite lor_digit by lia. cbv zeta. by destruct (Z.gtb_spec (v * 16 + d) 65535); [lia|].
Qed.

Lemma pton6_digits {St} ds rest ct tmp tp cp saw v (s : St) :
  ds ≠ [] → Forall (λ d, 0 ≤ d < 16) ds → 0 ≤ v → value 16 v ds ≤ 65535 →
  pton6_loop (of_digits ds +:+ rest) ct (mk_pton6 tmp tp cp saw v) s
  = pton6_loop rest ct (mk_pton6 tmp tp cp true (value 16 v ds)) s.
Proof.
  intros Hne Hds. revert saw v. induction Hds as [|d ds Hd Hds IH]; intros saw v Hv Hle; [done|].
  change (value 16 v (d :: ds)) with (value 16 (v * 16 + d) ds) in *. cbn [of_digits].
  assert (v * 16 + d ≤ value 16 (v * 16 + d) ds).
  { apply value_ge; [lia..|]. eapply Forall_impl; [exact Hds|]. simpl. lia. }
  change (String ?c (of_digits ds) +:+ rest) with (String c (of_digits ds +:+ rest)).
  rewrite pton6_digit by lia. destruct ds as [|d' ds]; [done|]. apply IH; [done|lia|done].
Qed.

Lemma pton6_word {St} w rest ct tmp tp cp (s : St) :
  word_ok w →
  pton6_loop (print_x w +:+ rest) ct (mk_pton6 tmp tp cp false 0) s
  = pton6_loop rest ct (mk_pton6 tmp tp cp true w) s.
Proof.
  intros Hw. destruct (print_x_digits w Hw) as (ds & -> & Hne & _ & Hds & Hv).
  unfold word_ok in Hw. rewrite pton6_digits by (done || rewrite ?Hv; lia). by rewrite Hv.
Qed.

Lemma pton6_group {St} w rest ct pre cp (s : St) :
  (length pre + 2 ≤ 16)%nat → word_ok w →
  pton6_loop (print_x w +:+ String ":" rest) ct (at_ pre cp) s
  = pton6_loop rest rest (at_ (pre ++ word_bytes w) cp) s.
Proof.
  intros Hlen Hw. unfold at_ at 1. rewrite pton6_word by done. cbn [pton6_loop].
  change (xdigit ":") with (@None Z). cbv iota. change (Ascii.eqb ":" ":") with true.
  cbn [p6_saw negb p6_tp p6_tmp p6_val p6_colonp].
  destruct (Z.gtb_spec (Z.of_nat (length pre) + 2) 16); [lia|].
  run_step (store_word_run pre w s Hlen Hw). unfold at_. by rewrite length_word_step.
Qed.

(** The loop from the start of a token, and what follows it. *)
Definition pton6_from {St} (src : string) (p : pton6) : M St (option (list Z)) :=
  r ← pton6_loop src src p; match r with None => mret None | Some p => pton6_end p end.

Lemma pton6_from_Done {St} src p p' (s : St) :
  pton6_loop src src p s = Done (Some p') s → pton6_from src p s = pton6_end p' s.
Proof. intros H. unfold pton6_from, mbind, M_bind. by rewrite H. Qed.

Lemma words_bytes_cons w ws : words_bytes (w :: ws) = word_bytes w ++ words_bytes ws.
Proof. done. Qed.

Lemma length_words_bytes ws : length (words_bytes ws) = (2 * length ws)%nat.
Proof. induction ws as [|w ws IH]; [done|]. rewrite words_bytes_cons, length_app, IH. simpl. lia. Qed.

(** Words, each with a colon behind it. *)
Fixpoint each (ws : list Z) (rest : string) : string :=
  match ws with [] => rest | w :: ws' => print_x w +:+ String ":" (each ws' rest) end.

Lemma pton6_each {St} ws rest pre cp (s : St) :
  (length pre + 2 * length ws ≤ 16)%nat → Forall word_ok ws →
  pton6_from (each ws rest) (at_ pre cp) s = pton6_from rest (at_ (pre ++ words_bytes ws) cp) s.
Proof.
  intros Hlen Hws. revert pre Hlen. induction Hws as [|w ws Hw Hws IH]; intros pre Hlen; cbn [each].
  - unfold words_bytes. simpl. by rewrite app_nil_r.
  - simpl in Hlen. rewrite words_bytes_cons, app_assoc, <- IH.
    2: { rewrite length_app. simpl. lia. }
    unfold pton6_from, mbind, M_bind. by rewrite pton6_group by (done || lia).
Qed.

(** A word stored after the loop. *)
Lemma pton6_end_word {St} pre w cp (s : St) :
  (length pre + 2 ≤ 16)%nat → word_ok w →
  pton6_end (mk_pton6 (image pre) (Z.of_nat (length pre)) cp true w) s = pton6_end (at_ (pre ++ word_bytes w) cp) s.
Proof.
  intros Hlen Hw. unfold pton6_end. cbn [p6_saw p6_tp p6_tmp p6_val p6_colonp at_ andb].
  destruct (Z.gtb_spec (Z.of_nat (length pre) + 2) 16); [lia|]. cbv zeta. cbn [andb].
  run_step (store_word_run pre w s Hlen Hw). erewrite bind_Done by reflexivity. cbv beta.
  by rewrite length_word_step.
Qed.

Lemma pton6_last {St} w pre cp (s : St) :
  (length pre + 2 ≤ 16)%nat → word_ok w →
  pton6_from (print_x w) (at_ pre cp) s = pton6_end (at_ (pre ++ word_bytes w) cp) s.
Proof.
  intros Hlen Hw. rewrite <- pton6_end_word by done. apply pton6_from_Done.
  rewrite <- (str_app_nil_r (print_x w)) at 1. unfold at_. by rewrite pton6_word.
Qed.

(** The words behind [::]. *)
Definition join (ws : list Z) : string := String.concat ":" (print_x <$> ws).

Lemma join_snoc ws w : join (ws ++ [w]) = each ws (print_x w).
Proof.
  induction ws as [|v ws IH]; [done|]. cbn [Datatypes.app each]. rewrite <- IH. unfold join.
  rewrite fmap_cons. destruct (ws ++ [w]) as [|u us] eqn:He; [by apply app_nil in He as [_ ?]|]. done.
Qed.

Lemma pton6_join {St} ws pre cp (s : St) :
  (length pre + 2 * length ws ≤ 16)%nat → Forall word_ok ws →
  pton6_from (join ws) (at_ pre cp) s = pton6_end (at_ (pre ++ words_bytes ws) cp) s.
Proof.
  intros Hlen Hws. destruct ws as [|w ws _] using rev_ind; [by rewrite app_nil_r|].
  apply Forall_app in Hws as [Hws Hw]. inversion Hw; subst. rewrite length_app in Hlen. simpl in Hlen.
  rewrite join_snoc, pton6_each by (done || lia).
  rewrite pton6_last by (rewrite ?length_app, ?length_words_bytes; done || lia).
  unfold words_bytes. by rewrite bind_app, <- app_assoc.
Qed.

Lemma pton6_colon {St} rest pre (s : St) :
  pton6_from (String ":" rest) (at_ pre None) s = pton6_from rest (at_ pre (Some (Z.of_nat (length pre)))) s.
Proof. done. Qed.

(** A dotted quad at the end. *)
Lemma pton6_quad {St} a b c d pre cp (s : St) :
  is_byte a → is_byte b → is_byte c → is_byte d → (length pre + 4 ≤ 16)%nat →
  pton6_from (quad_text a b c d) (at_ pre cp) s = pton6_end (at_ (pre ++ [a; b; c; d]) cp) s.
Proof.
  intros Ha Hb Hc Hd Hlen.
  assert (Hquad : inet_pton4 (quad_text a b c d) s = Done (Some [a; b; c; d]) s)
    by by rewrite pton4_spec, dotted_quad_text.
  destruct (print_u_digits a Ha) as (ds & Hds_eq & Hne & Hl & Hds & _).
  assert (Hds' : Forall (λ d, 0 ≤ d < 16) ds) by (eapply Forall_impl; [exact Hds|simpl; lia]).
  assert (Hval : value 16 0 ds ≤ 65535).
  { clear Hds_eq Hds'. destruct ds as [|d1 [|d2 [|d3 [|]]]]; simpl in Hl; try done; try lia; unfold value; simpl;
      rewrite !Forall_cons in Hds; lia. }
  transitivity (pton6_end (mk_pton6 (image (pre ++ [a; b; c; d])) (Z.of_nat (length pre) + 4) cp false (value 16 0 ds)) s).
  - apply pton6_from_Done. unfold at_. set (ct := quad_text a b c d) at 2. unfold quad_text.
    rewrite Hds_eq, pton6_digits by (done || lia). cbn [pton6_loop]. change (xdigit ".") with (@None Z). cbv iota.
    change (Ascii.eqb "." ":") with false. change (Ascii.eqb "." ".") with true.
    cbn [p6_tp andb p6_tmp p6_colonp p6_val]. destruct (Z.leb_spec (Z.of_nat (length pre) + 4) 16); [|lia].
    run_step Hquad. by run_step (store_bytes_run pre [a; b; c; d] s ltac:(simpl; lia)).
  - unfold pton6_end, at_. cbn [p6_saw p6_tp p6_tmp p6_colonp andb]. rewrite length_app. simpl length.
    by replace (Z.of_nat (length pre + 4)) with (Z.of_nat (length pre) + 4) by lia.
Qed.

(** Moving the bytes behind [::] to the end of the array. *)
Lemma shift_tail_run {St} pre P Q k n i (s : St) :
  (length pre + length P + S k + length Q = 16)%nat →
  i = Z.of_nat (length Q) + 1 → n = i - 1 + Z.of_nat (length P) →
  shift_tail (Z.of_nat (length pre)) n (seqZ i (Z.of_nat (length P))) (pre ++ P ++ replicate (S k) 0 ++ Q) s
  = Done (pre ++ replicate (S k) 0 ++ P ++ Q) s.
Proof.
  revert Q i. induction P as [|x P IH] using rev_ind; intros Q i Hlen Hi Hn; [done|].
  rewrite length_app in *. simpl in Hlen, Hn. simpl length.
  replace (Z.of_nat (length P + 1)) with (Z.succ (Z.of_nat (length P))) by lia.
  rewrite seqZ_cons by lia. rewrite Z.pred_succ. cbn [shift_tail].
  replace (Z.of_nat (length pre) + n - i) with (Z.of_nat (length pre + length P)) by lia.
  replace (16 - i) with (Z.of_nat (length pre + length P + S k)) by lia.
  assert (Hrep : replicate (S k) 0 ++ Q = replicate k 0 ++ 0 :: Q).
  { change (replicate (S k) 0) with (0 :: replicate k 0). by rewrite replicate_cons_app, <- app_assoc. }
  rewrite <- (app_assoc P), Hrep. simpl.
  erewrite bind_Done by (unfold rd; rewrite arr_at_nat, lookup_app_r by lia;
    rewrite lookup_app_r by lia; by replace (length pre + length P - length pre - length P)%nat with O by lia).
  cbv beta. rewrite arr_set_nat by (repeat (rewrite ?length_app, ?length_replicate; simpl); lia).
  erewrite bind_Done by reflexivity. cbv beta.
  rewrite arr_set_nat by (rewrite length_insert; repeat (rewrite ?length_app, ?length_replicate; simpl); lia).
  erewrite bind_Done by reflexivity. cbv beta.
  assert (Hl : <[(length pre + length P)%nat:=0]>
      (<[(length pre + length P + S k)%nat:=x]> (pre ++ P ++ x :: replicate k 0 ++ 0 :: Q))
      = pre ++ P ++ replicate (S k) 0 ++ x :: Q).
  { rewrite !(insert_app_r_alt pre) by lia. f_equal.
    replace (length pre + length P + S k - length pre)%nat with (length P + S k)%nat by lia.
    replace (length pre + length P - length pre)%nat with (length P + 0)%nat by lia.
    rewrite !insert_app_r. f_equal. simpl. f_equal.
    rewrite insert_app_r_alt by (rewrite length_replicate; lia).
    by rewrite length_replicate, Nat.sub_diag. }
  rewrite Hl. replace (i + 1) with (Z.succ i) by lia.
  rewrite (IH (x :: Q) (Z.succ i)) by (simpl; lia). by rewrite <- !app_assoc.
Qed.

Lemma pton6_end_full {St} bs (s : St) : length bs = 16%nat → pton6_end (at_ bs None) s = Done (Some bs) s.
Proof.
  intros Hl. unfold pton6_end, at_, image. simpl. rewrite Hl. simpl. by rewrite app_nil_r.
Qed.

Lemma pton6_end_shift {St} pre post k (s : St) :
  (length pre + length post + S k = 16)%nat →
  pton6_end (at_ (pre ++ post) (Some (Z.of_nat (length pre)))) s
  = Done (Some (pre ++ replicate (S k) 0 ++ post)) s.
Proof.
  intros Hl. unfold pton6_end, at_, image. cbn [p6_saw andb p6_tp p6_tmp p6_colonp].
  erewrite bind_Done by reflexivity. cbv beta zeta. rewrite length_app.
  replace (16 - (length pre + length post))%nat with (S k) by lia.
  replace (Z.of_nat (length pre + length post) - Z.of_nat (length pre)) with (Z.of_nat (length post)) by lia.
  rewrite <- app_assoc, <- (app_nil_r (replicate (S k) 0)).
  erewrite bind_Done by (apply (shift_tail_run pre post [] k _ 1); simpl; lia).
  by rewrite !app_nil_r.
Qed.

(** * IPv6: formatting *)

Lemma length_print_x w : word_ok w → (1 ≤ String.length (print_x w) ≤ 4)%nat.
Proof.
  intros Hw. destruct (print_x_digits w Hw) as (ds & -> & Hne & Hl & _). rewrite length_of_digits.
  destruct ds; [done|]. simpl in *. lia.
Qed.

Definition in_run (best : zrun) (i : Z) : bool :=
  negb (base best =? -1) && (i >=? base best) && (i <? base best + len best).
Definition v4_here (words : list Z) (best : zrun) (i : Z) : bool :=
  (i =? 6) && (base best =? 0) && ((len best =? 6) || ((len best =? 5) && (nth 5 words 0 =? 65535))).

(** Words with a colon before each but the first of the address. *)
Fixpoint spelled (i : Z) (ws : list Z) : string :=
  match ws with
  | [] => EmptyString
  | w :: ws' => (if i =? 0 then EmptyString else String ":" EmptyString) +:+ (print_x w +:+ spelled (i + 1) ws')
  end.

Lemma put_char_run {St} tmp c (s : St) :
  (String.length tmp < 46)%nat → put_char tmp c s = Done (tmp +:+ String c EmptyString) s.
Proof. intros Hl. unfold put_char, TMP6. by destruct (Nat.ltb_spec (String.length tmp) 46); [|lia]. Qed.

Lemma put_hex_run {St} tmp w (s : St) :
  word_ok w → (String.length tmp + 4 < 46)%nat → put_hex tmp w s = Done (tmp +:+ print_x w) s.
Proof.
  intros Hw%length_print_x Hl. unfold put_hex, TMP6.
  by destruct (Nat.ltb_spec (String.length tmp + String.length (print_x w)) 46); [|lia].
Qed.

Lemma length_spelled i ws : Forall word_ok ws → (String.length (spelled i ws) ≤ 5 * length ws)%nat.
Proof.
  intros Hws. revert i. induction Hws as [|w ws Hw%length_print_x Hws IH]; intros i; simpl; [lia|].
  specialize (IH (i + 1)). rewrite !length_str_app. destruct (i =? 0); simpl; lia.
Qed.

(** Words outside the run. *)
Lemma format_plain {St} src words best i ws rest tmp (s : St) :
  Forall word_ok ws → (String.length tmp + 5 * length ws < 46)%nat →
  (∀ j, i ≤ j < i + Z.of_nat (length ws) → in_run best j = false ∧ v4_here words best j = false) →
  format_words src words best i (ws ++ rest) tmp s
  = format_words src words best (i + Z.of_nat (length ws)) rest (tmp +:+ spelled i ws) s.
Proof.
  intros Hws. revert i tmp. induction Hws as [|w ws Hw Hws IH]; intros i tmp Hl Hout.
  - simpl. by rewrite Z.add_0_r, str_app_nil_r.
  - simpl length in *. cbn [Datatypes.app format_words spelled]. fold (in_run best i).
    destruct (Hout i) as [-> Hv]; [lia|]. unfold v4_here in Hv.
    set (sep := if i =? 0 then EmptyString else String ":" EmptyString).
    assert ((if negb (i =? 0) then put_char tmp ":" else mret tmp) s = Done (tmp +:+ sep) s ∧
                   (String.length sep ≤ 1)%nat) as [Hsep Hls].
    { unfold sep. destruct (i =? 0); simpl; (split; [|lia]); [by rewrite str_app_nil_r|].
      apply put_char_run. lia. }
    run_step Hsep. rewrite Hv.
    run_step (put_hex_run (tmp +:+ sep) w s Hw ltac:(rewrite length_str_app; lia)).
    pose proof (length_print_x w Hw). rewrite IH.
    + rewrite !str_app_assoc. by replace (i + 1 + Z.of_nat (length ws)) with (i + Z.of_nat (S (length ws))) by lia.
    + rewrite !length_str_app. lia.
    + intros j Hj. apply Hout. lia.
Qed.

(** Words of the run. *)
Lemma format_run {St} src words best i ws rest tmp (s : St) :
  (∀ j, i ≤ j < i + Z.of_nat (length ws) → in_run best j = true ∧ base best < j) →
  format_words src words best i (ws ++ rest) tmp s
  = format_words src words best (i + Z.of_nat (length ws)) rest tmp s.
Proof.
  revert i. induction ws as [|w ws IH]; intros i Hin; simpl length.
  - simpl. by rewrite Z.add_0_r.
  - cbn [Datatypes.app format_words]. fold (in_run best i). simpl length in Hin.
    destruct (Hin i) as [-> Hb]; [lia|]. rewrite (proj2 (Z.eqb_neq i _)) by lia.
    erewrite bind_Done by reflexivity. cbv beta. rewrite IH by (intros; apply Hin; lia).
    by replace (i + 1 + Z.of_nat (length ws)) with (i + Z.of_nat (S (length ws))) by lia.
Qed.

(** The longest run of zero words. *)
Definition flag (w : Z) : Z := if w =? 0 then 0 else 1.
Definition zeros_at (ws : list Z) (b l : nat) : bool := forallb (λ i, nth i ws 1 =? 0) (seq b l).

(** [best] is the first of the longest runs of at least two zero words. *)
Definition is_best (ws : list Z) (best : zrun) : bool :=
  if base best =? -1 then forallb (λ b, negb (zeros_at ws b 2)) (seq 0 8)
  else
    (0 <=? base best) && (2 <=? len best) && zeros_at ws (Z.to_nat (base best)) (Z.to_nat (len best))
    && forallb (λ b, forallb (λ l, negb (zeros_at ws b l) || (Z.of_nat l <? len best)
                                   || ((Z.of_nat l =? len best) && (base best <=? Z.of_nat b)))
                       (seq 2 8)) (seq 0 8).

Fixpoint flag_lists (n : nat) : list (list Z) :=
  match n with O => [[]] | S n' => (cons 0 <$> flag_lists n') ++ (cons 1 <$> flag_lists n') end.

Lemma flag_lists_all ws : (flag <$> ws) ∈ flag_lists (length ws).
Proof.
  induction ws as [|w ws IH]; simpl; [by left|]. apply elem_of_app. unfold flag at 1 3.
  destruct (w =? 0); [left|right]; by apply list_elem_of_fmap_2.
Qed.

Lemma scan_words_flag runs i ws : scan_words runs i (flag <$> ws) = scan_words runs i ws.
Proof.
  revert runs i. induction ws as [|w ws IH]; intros [best cur] i; [done|]. rewrite fmap_cons. cbn [scan_words].
  rewrite IH. f_equal. unfold scan_word, flag. by destruct (w =? 0).
Qed.

Lemma zeros_at_flag ws b l : zeros_at (flag <$> ws) b l = zeros_at ws b l.
Proof.
  unfold zeros_at. induction (seq b l) as [|i js IH]; simpl; [done|]. rewrite IH. f_equal.
  assert (nth i (flag <$> ws) 1 = flag (nth i ws 1)) as -> by apply (List.map_nth flag ws 1 i).
  unfold flag. by destruct (nth i ws 1 =? 0).
Qed.

Lemma is_best_flag ws best : is_best (flag <$> ws) best = is_best ws best.
Proof.
  assert (Hext : ∀ (f g : nat → bool) l, (∀ x, f x = g x) → forallb f l = forallb g l).
  { intros f g l Hfg. induction l as [|x l IH]; [done|]. cbn [forallb]. by rewrite Hfg, IH. }
  unfold is_best. destruct (base best =? -1).
  - apply Hext. intros b. by rewrite zeros_at_flag.
  - rewrite zeros_at_flag. f_equal. apply Hext. intros b. apply Hext. intros l. by rewrite zeros_at_flag.
Qed.

Lemma best_run_best ws : length ws = 8%nat → is_best ws (best_run ws) = true.
Proof.
  intros Hl. assert (Hall : forallb (λ fs, is_best fs (best_run fs)) (flag_lists 8) = true) by (vm_compute; reflexivity).
  rewrite forallb_forall in Hall.
  pose proof (flag_lists_all ws) as Hin. rewrite Hl in Hin. specialize (Hall _ (proj1 (list_elem_of_In _ _) Hin)).
  rewrite is_best_flag in Hall. unfold best_run in *. by rewrite scan_words_flag in Hall.
Qed.

(** What the formatting needs of it. *)
Lemma best_run_split ws :
  length ws = 8%nat →
  base (best_run ws) = -1 ∨
  ∃ b l : nat, best_run ws = mk_zrun (Z.of_nat b) (Z.of_nat l) ∧ (2 ≤ l)%nat ∧ (b + l ≤ 8)%nat ∧
          ws = take b ws ++ replicate l 0 ++ drop (b + l) ws.
Proof.
  intros Hl. pose proof (best_run_best ws Hl) as Hb. unfold is_best in Hb.
  destruct (best_run ws) as [b l]. cbn [base len] in *. destruct (Z.eqb_spec b (-1)) as [->|_]; [by left|right].
  apply andb_true_iff in Hb as [Hb _]. apply andb_true_iff in Hb as [[H0 H2]%andb_true_iff Hz].
  exists (Z.to_nat b), (Z.to_nat l). unfold zeros_at in Hz. rewrite forallb_forall in Hz.
  assert (Hzero : ∀ i, (Z.to_nat b ≤ i < Z.to_nat b + Z.to_nat l)%nat → ws !! i = Some 0).
  { intros i Hi. specialize (Hz i). rewrite in_seq in Hz. specialize (Hz Hi). apply Z.eqb_eq in Hz.
    destruct (ws !! i) as [w|] eqn:Hw.
    - f_equal. rewrite <- Hz. symmetry. rewrite nth_lookup, Hw. done.
    - rewrite nth_lookup, Hw in Hz. done. }
  assert (Hle : (Z.to_nat b + Z.to_nat l ≤ 8)%nat).
  { destruct (decide (Z.to_nat b + Z.to_nat l ≤ 8)%nat) as [|Hn]; [done|].
    specialize (Hzero (Z.to_nat b + Z.to_nat l - 1)%nat ltac:(lia)).
    apply lookup_lt_Some in Hzero. lia. }
  split_and!; [f_equal; lia|lia|done|]. apply list_eq. intros i.
  assert (length (take (Z.to_nat b) ws) = Z.to_nat b) as Hlt by (rewrite length_take; lia).
  destruct (decide (i < Z.to_nat b)%nat); [rewrite lookup_app_l by lia; by rewrite lookup_take_lt by lia|].
  rewrite lookup_app_r, Hlt by lia. destruct (decide (i < Z.to_nat b + Z.to_nat l)%nat).
  - rewrite lookup_app_l by (rewrite length_replicate; lia). rewrite lookup_replicate_2 by lia. apply Hzero. lia.
  - rewrite lookup_app_r, length_replicate, lookup_drop by (rewrite length_replicate; lia). f_equal. lia.
Qed.

(** The words of an address. *)
Definition be_word (a b : Z) : Z :=
  u32 (Z.lor (u32 (Z.lor 0 (Z.shiftl a (Z.shiftl (1 - 0) 3)))) (Z.shiftl b (Z.shiftl (1 - 1) 3))).

Lemma be_word_eq a b : is_byte a → is_byte b → be_word a b = a * 256 + b.
Proof.
  unfold is_byte, be_word. intros Ha Hb. change (Z.shiftl (1 - 0) 3) with 8. change (Z.shiftl (1 - 1) 3) with 0.
  rewrite Z.lor_0_l, Z.shiftl_0_r, Z.shiftl_mul_pow2 by lia. change (2 ^ 8) with 256.
  rewrite (u32_small (a * 256)) by lia. rewrite <- (Z.add_nocarry_lor (a * 256) b); [by rewrite u32_small by lia|].
  apply Z.bits_inj'. intros n Hn. rewrite Z.land_spec, Z.bits_0. change 256 with (2 ^ 8).
  rewrite Z.mul_pow2_bits by lia. destruct (Z.ltb_spec n 8); [by rewrite Z.testbit_neg_r by lia|].
  destruct (decide (b = 0)) as [->|]; [by rewrite Z.bits_0, andb_false_r|].
  assert (2 ^ 8 ≤ 2 ^ n) by (apply Z.pow_le_mono_r; lia).
  assert (Z.log2 b < n) by (apply Z.log2_lt_pow2; lia).
  by rewrite (Z.bits_above_log2 b n), andb_false_r by lia.
Qed.

Lemma be_word_bytes a b : is_byte a → is_byte b → word_bytes (be_word a b) = [a; b] ∧ word_ok (be_word a b).
Proof.
  intros Ha Hb. rewrite be_word_eq by done. unfold is_byte, word_bytes, word_ok in *.
  rewrite Z.div_add_l, Z.div_small by lia. rewrite (Z.add_comm (a * 256)), Z_mod_plus_full, Z.mod_small by lia.
  rewrite Z.add_0_r. split; [done|lia].
Qed.

Lemma pack_words_bytes bs :
  length bs = 16%nat → Forall is_byte bs →
  length (pack_words bs) = 8%nat ∧ Forall word_ok (pack_words bs) ∧ words_bytes (pack_words bs) = bs.
Proof.
  intros Hl Hb. do 16 (destruct bs as [|? bs]; [done|]). destruct bs; [|done]. clear Hl.
  rewrite !Forall_cons in Hb. destruct_and! Hb.
  assert (Hpack : pack_words [z; z0; z1; z2; z3; z4; z5; z6; z7; z8; z9; z10; z11; z12; z13; z14]
                  = [be_word z z0; be_word z1 z2; be_word z3 z4; be_word z5 z6; be_word z7 z8; be_word z9 z10;
                     be_word z11 z12; be_word z13 z14]) by reflexivity.
  rewrite Hpack. split; [done|]. split.
  - repeat constructor; by apply be_word_bytes.
  - rewrite !words_bytes_cons. by rewrite !(λ a b Ha Hb, proj1 (be_word_bytes a b Ha Hb)) by done.
Qed.

(** How the spelled words read. *)
Lemma spelled_pos i ws : 0 < i → spelled i ws = spelled 1 ws.
Proof.
  revert i. induction ws as [|w ws IH]; intros i Hi; [done|]. cbn [spelled].
  rewrite (proj2 (Z.eqb_neq i 0)) by lia. by rewrite (IH (i + 1)), (IH (1 + 1)) by lia.
Qed.

Lemma join_spelled w ws : join (w :: ws) = print_x w +:+ spelled 1 ws.
Proof.
  revert w. induction ws as [|v ws IH]; intros w; [by rewrite str_app_nil_r|].
  change (join (w :: v :: ws)) with (print_x w +:+ (String ":" (join (v :: ws)))). rewrite IH. f_equal.
  cbn [spelled]. rewrite (spelled_pos (1 + 1)) by lia. done.
Qed.

Lemma spelled_0 w ws : spelled 0 (w :: ws) = join (w :: ws).
Proof. rewrite join_spelled. done. Qed.

Lemma spelled_tail i ws :
  0 < i → spelled i ws +:+ (if decide (ws = []) then String ":" EmptyString else EmptyString) = String ":" (join ws).
Proof.
  intros Hi. destruct ws as [|w ws]; [done|]. simpl decide. rewrite decide_False, str_app_nil_r by done.
  rewrite join_spelled. cbn [spelled]. rewrite (proj2 (Z.eqb_neq i 0)) by lia.
  by rewrite (spelled_pos (i + 1)) by lia.
Qed.

Lemma each_spelled w ws X : spelled 0 (w :: ws) +:+ String ":" X = each (w :: ws) X.
Proof.
  rewrite spelled_0, join_spelled. cbn [each]. rewrite str_app_assoc. f_equal. clear w.
  revert X. induction ws as [|w ws IH]; intros X; [done|]. cbn [spelled each].
  rewrite (spelled_pos (1 + 1)) by lia. by rewrite !str_app_assoc, IH.
Qed.

Lemma skip_colon_word w r : word_ok w → skip_colon (print_x w +:+ r) = Some (print_x w +:+ r).
Proof.
  intros Hw. destruct (print_x_digits w Hw) as (ds & -> & Hne & _ & Hds & _). destruct ds as [|d ds]; [done|].
  inversion Hds; subst. simpl. assert (Ascii.eqb (digit_char d) ":" = false) as -> by digit_cases d. done.
Qed.

Lemma words_bytes_app us vs : words_bytes (us ++ vs) = words_bytes us ++ words_bytes vs.
Proof. apply bind_app. Qed.

Lemma words_bytes_zeros l : words_bytes (replicate l 0) = replicate (2 * l) 0.
Proof.
  induction l as [|l IH]; [done|]. replace (2 * S l)%nat with (S (S (2 * l))) by lia. simpl replicate.
  by rewrite words_bytes_cons, IH.
Qed.

(** A text with [::] between the words [us] and the rest, which reads [bs]. *)
Lemma pton6_gap {St} us rest vs (k : nat) (s : St) :
  Forall word_ok us → (2 * length us + length vs + S k = 16)%nat →
  (∀ cp, pton6_from rest (at_ (words_bytes us) cp) s = pton6_end (at_ (words_bytes us ++ vs) cp) s) →
  inet_pton6 (match us with [] => String ":" (String ":" rest) | _ => each us (String ":" rest) end) s
  = Done (Some (words_bytes us ++ replicate (S k) 0 ++ vs)) s.
Proof.
  intros Hus Hl Hrest.
  assert (Hfrom : pton6_from (each us (String ":" rest)) (at_ [] None) s
                  = Done (Some (words_bytes us ++ replicate (S k) 0 ++ vs)) s).
  { rewrite pton6_each by (simpl; done || lia). cbn [Datatypes.app]. rewrite pton6_colon, Hrest.
    apply pton6_end_shift. rewrite length_words_bytes. lia. }
  unfold inet_pton6. destruct us as [|u us]; [exact Hfrom|].
  inversion Hus; subst. cbn [each]. rewrite skip_colon_word by done. exact Hfrom.
Qed.

Lemma in_run_spec b l j :
  in_run (mk_zrun (Z.of_nat b) (Z.of_nat l)) j = bool_decide (Z.of_nat b ≤ j < Z.of_nat b + Z.of_nat l).
Proof.
  unfold in_run. cbn [base len]. destruct (Z.eqb_spec (Z.of_nat b) (-1)); [lia|]. simpl. rewrite Z.geb_leb.
  case_bool_decide; destruct (Z.leb_spec (Z.of_nat b) j), (Z.ltb_spec j (Z.of_nat b + Z.of_nat l)); simpl; (done || lia).
Qed.

(** The run: one colon. *)
Lemma format_gap {St} src words b l rest tmp (s : St) :
  (String.length tmp < 46)%nat →
  format_words src words (mk_zrun (Z.of_nat b) (Z.of_nat (S l))) (Z.of_nat b) (replicate (S l) 0 ++ rest) tmp s
  = format_words src words (mk_zrun (Z.of_nat b) (Z.of_nat (S l))) (Z.of_nat (b + S l)) rest
      (tmp +:+ String ":" EmptyString) s.
Proof.
  intros Hl. set (best := mk_zrun _ _). simpl replicate. cbn [Datatypes.app format_words]. fold (in_run best (Z.of_nat b)).
  unfold best at 1. rewrite in_run_spec, bool_decide_true by lia.
  change (base best) with (Z.of_nat b). rewrite Z.eqb_refl.
  run_step (put_char_run tmp ":" s Hl). rewrite format_run.
  - rewrite length_replicate. by replace (Z.of_nat b + 1 + Z.of_nat l) with (Z.of_nat (b + S l)) by lia.
  - rewrite length_replicate. intros j Hj. unfold best. rewrite in_run_spec, bool_decide_true by lia. simpl. split; [done|lia].
Qed.

Definition trailing (best : zrun) : bool := negb (base best =? -1) && (base best + len best =? 8).

(** What follows the formatting loop. *)
Lemma ntop6_end {St} bs size tmp text (s : St) :
  length bs = 16%nat →
  format_words bs (pack_words bs) (best_run (pack_words bs)) 0 (pack_words bs) EmptyString s = Done (Some tmp) s →
  text = tmp +:+ (if trailing (best_run (pack_words bs)) then String ":" EmptyString else EmptyString) →
  (String.length text < 46)%nat →
  inet_ntop6 bs size s = Done (if (size <? S (String.length text))%nat then None else Some text) s.
Proof.
  intros Hl Hf Ht Hlen. unfold inet_ntop6. rewrite Hl. simpl Nat.ltb. cbv iota.
  erewrite bind_Done by reflexivity. cbv beta zeta. rewrite (firstn_all2 bs) by lia.
  run_step Hf. fold (trailing (best_run (pack_words bs))).
  assert (Hput : (if trailing (best_run (pack_words bs)) then put_char tmp ":" else mret tmp) s = Done text s).
  { rewrite Ht in Hlen |- *. destruct (trailing _); [|by rewrite str_app_nil_r].
    apply put_char_run. rewrite length_str_app in Hlen. lia. }
  run_step Hput. run_step (put_char_run text Ascii.zero s Hlen).
  destruct (Nat.ltb_spec size (S (String.length text))); [done|].
  erewrite bind_Done by (unfold strcpy; destruct (Nat.ltb_spec (String.length text) size); [reflexivity|lia]).
  done.
Qed.

(** [text] is what [inet_ntop6] writes for [bs], and [inet_pton6] reads it back. *)
Definition spells (bs : list Z) (text : string) : Prop :=
  (String.length text < 46)%nat ∧
  ∀ (St : Type) (s : St),
    (∀ size, inet_ntop6 bs size s = Done (if (size <? S (String.length text))%nat then None else Some text) s) ∧
    inet_pton6 text s = Done (Some bs) s.

Section spelling.
Context (bs : list Z) (Hbl : length bs = 16%nat) (Hbb : Forall is_byte bs).
Abbreviation words := (pack_words bs).

Lemma words_facts : length words = 8%nat ∧ Forall word_ok words ∧ words_bytes words = bs.
Proof. by apply pack_words_bytes. Qed.

Lemma spells_plain : base (best_run words) = -1 → spells bs (join words).
Proof.
  intros Hb. destruct words_facts as (Hl & Hok & Hbytes).
  assert (Htext : spelled 0 words = join words).
  { destruct words as [|w ws]; [done|]. apply spelled_0. }
  pose proof (length_spelled 0 words Hok) as Hlen. rewrite Htext, Hl in Hlen. split; [lia|]. intros St s. split.
  - intros size. eapply ntop6_end; [done| | |lia].
    + rewrite <- (app_nil_r words) at 3. rewrite format_plain; [reflexivity|done|rewrite Hl; simpl; lia|].
      intros j _. unfold in_run, v4_here. rewrite Hb. simpl. by rewrite andb_false_r.
    + unfold trailing. rewrite Hb. simpl. by rewrite str_app_nil_r.
  - unfold inet_pton6. assert (Hskip : skip_colon (join words) = Some (join words)).
    { destruct words as [|w ws]; [done|]. inversion Hok; subst. rewrite join_spelled. by apply skip_colon_word. }
    rewrite Hskip. change (pton6_from (join words) (at_ [] None) s = Done (Some bs) s).
    rewrite pton6_join by (simpl; done || lia). cbn [Datatypes.app]. rewrite Hbytes. by apply pton6_end_full.
Qed.

Context (b l : nat).
Abbreviation best := (mk_zrun (Z.of_nat b) (Z.of_nat (S (S l)))).
Context (Hbest : best_run words = best) (Hle : (b + S (S l) ≤ 8)%nat).
Context (Hsplit : words = take b words ++ replicate (S (S l)) 0 ++ drop (b + S (S l)) words).

Lemma parts_ok : Forall word_ok (take b words) ∧ Forall word_ok (drop (b + S (S l)) words) ∧
  length (take b words) = b ∧ length (drop (b + S (S l)) words) = (8 - (b + S (S l)))%nat.
Proof.
  destruct words_facts as (Hl & Hok & _).
  split_and!; [by apply Forall_take|by apply Forall_drop|rewrite length_take; lia|rewrite length_drop; lia].
Qed.

(** The formatting up to the run. *)
Lemma format_to_gap {St} (s : St) :
  format_words bs words best 0 words EmptyString s
  = format_words bs words best (Z.of_nat (b + S (S l))) (drop (b + S (S l)) words)
      (spelled 0 (take b words) +:+ String ":" EmptyString) s.
Proof.
  destruct parts_ok as (Hu & Hv & Hlu & Hlv). pose proof (length_spelled 0 _ Hu) as Hlen. rewrite Hlu in Hlen.
  rewrite Hsplit at 2. rewrite format_plain; [|done|rewrite Hlu; simpl; lia|].
  - rewrite Hlu, Z.add_0_l. simpl (EmptyString +:+ _). apply format_gap. lia.
  - rewrite Hlu. intros j Hj. rewrite in_run_spec, bool_decide_false by lia. split; [done|].
    unfold v4_here. cbn [base len]. destruct (Z.eqb_spec j 6), (Z.eqb_spec (Z.of_nat b) 0); (done || lia).
Qed.

Lemma gap_bytes : words_bytes (take b words) ++ replicate (2 * S (S l)) 0 ++ words_bytes (drop (b + S (S l)) words) = bs.
Proof.
  rewrite <- words_bytes_zeros, <- !words_bytes_app, <- Hsplit. apply words_facts.
Qed.

(** The run is written as [::]. *)
Lemma spells_gap :
  (b = O → S (S l) = 6%nat ∨ (S (S l) = 5%nat ∧ nth 5 words 0 = 65535) → False) → ∃ text, spells bs text.
Proof.
  intros Hv4. destruct parts_ok as (Hu & Hv & Hlu & Hlv).
  set (us := take b words) in *. set (vs := drop (b + S (S l)) words) in *.
  set (text := match us with [] => String ":" (String ":" (join vs)) | _ => each us (String ":" (join vs)) end).
  assert (Htext : text = (spelled 0 us +:+ String ":" EmptyString) +:+ (spelled (Z.of_nat (b + S (S l))) vs
            +:+ if trailing best then String ":" EmptyString else EmptyString)).
  { assert (trailing best = bool_decide (vs = [])) as ->.
    { unfold trailing. cbn [base len]. destruct (Z.eqb_spec (Z.of_nat b) (-1)); [lia|]. simpl.
      case_bool_decide as Hvs; [rewrite Hvs in Hlv; simpl in Hlv|destruct vs; [done|simpl in Hlv]];
        destruct (Z.eqb_spec (Z.of_nat b + Z.of_nat (S (S l))) 8); (done || lia). }
    pose proof (spelled_tail (Z.of_nat (b + S (S l))) vs ltac:(lia)) as Htail.
    replace (if bool_decide (vs = []) then String ":" EmptyString else EmptyString)
      with (if decide (vs = []) then String ":" EmptyString else EmptyString)
      by (destruct (decide (vs = [])); [by rewrite bool_decide_true|by rewrite bool_decide_false]).
    rewrite Htail, str_app_assoc. unfold text. destruct us as [|u us']; [done|]. by rewrite <- each_spelled. }
  assert (Hlen : (String.length text < 46)%nat).
  { rewrite Htext, !length_str_app. pose proof (length_spelled 0 us Hu). pose proof (length_spelled (Z.of_nat (b + S (S l))) vs Hv).
    destruct (trailing best); simpl in *; lia. }
  exists text. split; [done|]. intros St s. split.
  - intros size. eapply ntop6_end; [done| | |done]; rewrite Hbest.
    + rewrite format_to_gap. rewrite <- (app_nil_r (drop _ _)). rewrite format_plain; [reflexivity|done| |].
      * rewrite length_str_app. pose proof (length_spelled 0 us Hu). fold us vs. simpl. lia.
      * fold vs. rewrite Hlv. intros j Hj. rewrite in_run_spec, bool_decide_false by lia. split; [done|].
        unfold v4_here. cbn [base len].
        destruct (Z.eqb_spec j 6), (Z.eqb_spec (Z.of_nat b) 0); cbn [andb]; try done.
        destruct (Z.eqb_spec (Z.of_nat (S (S l))) 6); [exfalso; apply Hv4; [lia|left; lia]|].
        destruct (Z.eqb_spec (Z.of_nat (S (S l))) 5), (Z.eqb_spec (nth 5 words 0) 65535);
          cbn [andb orb]; try done.
        exfalso. apply Hv4; [lia|right; split; [lia|done]].
    + fold us vs. by rewrite Htext, !str_app_assoc.
  - unfold text. erewrite (pton6_gap us (join vs) (words_bytes vs) (S (S (S (2 * l))))).
    + by rewrite <- gap_bytes; fold us vs; replace (2 * S (S l))%nat with (S (S (S (S (2 * l))))) by lia.
    + done.
    + rewrite length_words_bytes. lia.
    + intros cp. apply pton6_join; [rewrite length_words_bytes; lia|done].
Qed.

End spelling.

(** An encapsulated IPv4 address, behind [vs]. *)
Section encapsulated.
Context (bs vs : list Z) (q1 q2 q3 q4 : Z) (l : nat).
Context (Hq : is_byte q1 ∧ is_byte q2 ∧ is_byte q3 ∧ is_byte q4).
Context (Hlvs : (length vs + S (S l) = 6)%nat) (Hvok : Forall word_ok vs).
Abbreviation quad := (quad_text q1 q2 q3 q4).
Abbreviation best := (mk_zrun (Z.of_nat 0) (Z.of_nat (S (S l)))).
Abbreviation gap_text := (String ":" EmptyString +:+ spelled (Z.of_nat (S (S l))) vs).

Lemma v4_format {St} words ws w (s : St) :
  vs = [] ∨ vs = [65535] ∧ nth 5 words 0 = 65535 → drop 12 bs = [q1; q2; q3; q4] →
  format_words bs words best (Z.of_nat (S (S l))) (vs ++ w :: ws) (String ":" EmptyString) s
  = Done (Some ((gap_text +:+ String ":" EmptyString) +:+ quad)) s.
Proof.
  intros Hvs Hd12. destruct Hq as (Hq1 & Hq2 & Hq3 & Hq4).
  pose proof (length_quad_text q1 q2 q3 q4 Hq1 Hq2 Hq3 Hq4) as Hlq.
  pose proof (length_spelled (Z.of_nat (S (S l))) vs Hvok) as Hlsp.
  assert (Hvl : (length vs ≤ 1)%nat) by (destruct Hvs as [->|[-> _]]; simpl; lia).
  rewrite format_plain; [|done|simpl; lia|].
  - replace (Z.of_nat (S (S l)) + Z.of_nat (length vs)) with 6 by lia.
    cbn [format_words]. fold (in_run best 6). rewrite in_run_spec, bool_decide_false by lia. cbn [base len].
    change (negb (6 =? 0)) with true. cbv iota.
    run_step (put_char_run gap_text ":" s ltac:(rewrite length_str_app; simpl; lia)).
    assert (Hcond : (6 =? 6) && (Z.of_nat 0 =? 0) && ((Z.of_nat (S (S l)) =? 6)
                    || (Z.of_nat (S (S l)) =? 5) && (nth 5 words 0 =? 65535)) = true).
    { destruct Hvs as [Hvs|[Hvs Hw5]]; rewrite Hvs in Hlvs; cbn [length] in Hlvs.
      - by replace (Z.of_nat (S (S l))) with 6 by lia.
      - replace (Z.of_nat (S (S l))) with 5 by lia. by rewrite Hw5. }
    rewrite Hcond, Hd12. set (room := (TMP6 - _)%nat).
    assert (Hroom : (String.length quad < room)%nat).
    { unfold room, TMP6. rewrite !length_str_app. simpl. lia. }
    erewrite bind_Done; [|rewrite ntop4_run by done;
      destruct (Nat.ltb_spec room (String.length quad)); [lia|];
      destruct (Nat.eqb_spec room (String.length quad)); [lia|]; reflexivity]. done.
  - intros j Hj. rewrite in_run_spec, bool_decide_false by lia. split; [done|].
    unfold v4_here. destruct (Z.eqb_spec j 6); [lia|done].
Qed.

Lemma v4_read {St} (s : St) :
  (vs = [] ∨ vs = [65535]) →
  inet_pton6 ((gap_text +:+ String ":" EmptyString) +:+ quad) s
  = Done (Some (replicate (2 * S (S l)) 0 ++ words_bytes vs ++ [q1; q2; q3; q4])) s.
Proof.
  intros Hvs. destruct Hq as (Hq1 & Hq2 & Hq3 & Hq4).
  assert (Hgap : (gap_text +:+ String ":" EmptyString) +:+ quad = String ":" (String ":" (each vs quad))).
  { destruct Hvs as [-> | ->]; [done|]. cbn [spelled each].
    rewrite (proj2 (Z.eqb_neq (Z.of_nat (S (S l))) 0)) by lia. by rewrite str_app_nil_r. }
  rewrite Hgap, (pton6_gap [] (each vs quad) (words_bytes vs ++ [q1; q2; q3; q4]) (S (S (S (2 * l)))) s).
  - by replace (2 * S (S l))%nat with (S (S (S (S (2 * l))))) by lia.
  - done.
  - rewrite length_app, length_words_bytes. simpl. lia.
  - intros cp. rewrite pton6_each by (simpl; done || lia).
    by rewrite pton6_quad by (done || (rewrite ?length_app, ?length_words_bytes; simpl; lia)).
Qed.
End encapsulated.

(** The words behind a run at the front that leaves room for an IPv4 address. *)
Lemma spells_v4 bs (l : nat) :
  length bs = 16%nat → Forall is_byte bs →
  best_run (pack_words bs) = mk_zrun (Z.of_nat 0) (Z.of_nat (S (S l))) →
  pack_words bs = replicate (S (S l)) 0 ++ drop (S (S l)) (pack_words bs) →
  (S (S l) = 6%nat ∨ (S (S l) = 5%nat ∧ nth 5 (pack_words bs) 0 = 65535)) → ∃ text, spells bs text.
Proof.
  intros Hbl Hbb Hbest Hsplit Hl. destruct (words_facts bs Hbl Hbb) as (Hlen & Hok & Hbytes).
  assert (∃ vs w6 w7, drop (S (S l)) (pack_words bs) = vs ++ [w6; w7] ∧ (length vs + S (S l) = 6)%nat ∧
            (vs = [] ∨ vs = [65535] ∧ nth 5 (pack_words bs) 0 = 65535)) as (vs & w6 & w7 & Hdrop & Hlvs & Hvs).
  { assert (Hld : length (drop (S (S l)) (pack_words bs)) = (8 - S (S l))%nat) by (rewrite length_drop; lia).
    destruct Hl as [Hl|[Hl Hw5]]; rewrite Hl in Hld |- *.
    - destruct (drop 6 (pack_words bs)) as [|w6 [|w7 [| ]]]; try done. exists [], w6, w7. auto.
    - destruct (drop 5 (pack_words bs)) as [|w5 [|w6 [|w7 [| ]]]] eqn:Hd; try done. exists [65535], w6, w7.
      split_and!; [|done|auto]. rewrite Hsplit, app_nth2, length_replicate, Hl, Hd in Hw5 by (rewrite length_replicate; lia).
      simpl in Hw5. by rewrite Hw5. }
  pose proof Hok as Hok'. rewrite Hsplit, Hdrop, !Forall_app in Hok'. destruct Hok' as (_ & Hvok & _).
  assert (Hbs : bs = replicate (2 * S (S l)) 0 ++ words_bytes vs ++ [w6 / 256; w6 mod 256; w7 / 256; w7 mod 256]).
  { rewrite <- Hbytes, Hsplit, Hdrop. by rewrite !words_bytes_app, words_bytes_zeros. }
  assert (Hq : is_byte (w6 / 256) ∧ is_byte (w6 mod 256) ∧ is_byte (w7 / 256) ∧ is_byte (w7 mod 256)).
  { rewrite Hbs, !Forall_app, !Forall_cons in Hbb. naive_solver. }
  assert (Hd12 : drop 12 bs = [w6 / 256; w6 mod 256; w7 / 256; w7 mod 256]).
  { rewrite Hbs, app_assoc. apply drop_app_length'. rewrite length_app, length_replicate, length_words_bytes. lia. }
  eexists. split; [|intros St s; split].
  3: { rewrite Hbs at 1. apply (v4_read vs _ _ _ _ l Hq Hlvs Hvok s). by destruct Hvs as [|[? _]]; [left|right]. }
  - destruct Hq as (H1 & H2 & H3 & H4). pose proof (length_quad_text _ _ _ _ H1 H2 H3 H4).
    pose proof (length_spelled (Z.of_nat (S (S l))) vs Hvok). rewrite !length_str_app. simpl. lia.
  - intros size. eapply ntop6_end; [done| | |].
    + rewrite Hbest. rewrite Hsplit at 2. rewrite (format_gap _ _ 0) by (simpl; lia).
      rewrite Hdrop. by apply (v4_format bs vs _ _ _ _ l Hq Hlvs Hvok).
    + rewrite Hbest. unfold trailing. cbn [base len]. change (negb (Z.of_nat 0 =? -1)) with true. cbn [andb].
      destruct (Z.eqb_spec (Z.of_nat 0 + Z.of_nat (S (S l))) 8); [lia|]. by rewrite str_app_nil_r.
    + destruct Hq as (H1 & H2 & H3 & H4). pose proof (length_quad_text _ _ _ _ H1 H2 H3 H4).
      pose proof (length_spelled (Z.of_nat (S (S l))) vs Hvok). rewrite !length_str_app. simpl. lia.
Qed.

Lemma inet6_spelled bs : length bs = 16%nat → Forall is_byte bs → ∃ text, spells bs text.
Proof.
  intros Hlen Hb. destruct (words_facts bs Hlen Hb) as (Hl & _ & _).
  destruct (best_run_split (pack_words bs) Hl) as [Hnone|(b & l & Hbest & Hl2 & Hle & Hsplit)].
  - exists (join (pack_words bs)). exact (spells_plain bs Hlen Hb Hnone).
  - destruct l as [|[|l]]; [lia|lia|].
    destruct (decide (b = O ∧ (S (S l) = 6%nat ∨ (S (S l) = 5%nat ∧ nth 5 (pack_words bs) 0 = 65535)))) as [[-> Hv4]|Hv4].
    + exact (spells_v4 bs l Hlen Hb Hbest Hsplit Hv4).
    + apply (spells_gap bs Hlen Hb b l Hbest Hle Hsplit). intros Hb0 Hv. by apply Hv4.
Qed.

(** * Totality *)

(** Between two turns of the loop all pointers are inside [tmp]. *)
Definition pton6_ok (p : pton6) : Prop :=
  length (p6_tmp p) = 16%nat ∧ 0 ≤ p6_tp p ≤ 16 ∧ ∀ c, p6_colonp p = Some c → 0 ≤ c ≤ p6_tp p.

Lemma arr_set_ok {A} (l : list A) i x :
  0 ≤ i < Z.of_nat (length l) → ∃ l', arr_set l i x = Some l' ∧ length l' = length l.
Proof.
  intros Hi. exists (<[Z.to_nat i := x]> l). split; [|by rewrite length_insert].
  replace i with (Z.of_nat (Z.to_nat i)) at 1 by lia. apply arr_set_nat. lia.
Qed.

Lemma store_word_total {St} tmp tp w (s : St) :
  length tmp = 16%nat → 0 ≤ tp → tp + 2 ≤ 16 → ∃ tmp', store_word tmp tp w s = Done tmp' s ∧ length tmp' = 16%nat.
Proof.
  intros Hl H0 H2. unfold store_word.
  destruct (arr_set_ok tmp tp (Z.land (u8 (Z.shiftr w 8)) 255)) as (t1 & -> & Hl1); [lia|].
  erewrite bind_Done by reflexivity. cbv beta.
  destruct (arr_set_ok t1 (tp + 1) (Z.land (u8 w) 255)) as (t2 & -> & Hl2); [lia|].
  exists t2. split; [done|lia].
Qed.

Lemma store_bytes_total {St} tmp tp bs (s : St) :
  length tmp = 16%nat → 0 ≤ tp → tp + Z.of_nat (length bs) ≤ 16 →
  ∃ tmp', store_bytes tmp tp bs s = Done tmp' s ∧ length tmp' = 16%nat.
Proof.
  revert tmp tp. induction bs as [|b bs IH]; intros tmp tp Hl H0 Hle; cbn [store_bytes]; [by exists tmp|].
  simpl in Hle. destruct (arr_set_ok tmp tp b) as (t1 & -> & Hl1); [lia|].
  erewrite bind_Done by reflexivity. cbv beta. apply IH; lia.
Qed.

Lemma shift_tail_total {St} c n steps tmp (s : St) :
  length tmp = 16%nat → 0 ≤ c → c + n ≤ 16 → Forall (λ i, 1 ≤ i ≤ n) steps →
  ∃ tmp', shift_tail c n steps tmp s = Done tmp' s ∧ length tmp' = 16%nat.
Proof.
  intros Hl Hc Hn Hsteps. revert tmp Hl. induction Hsteps as [|i steps Hi Hsteps IH]; intros tmp Hl; cbn [shift_tail];
    [by exists tmp|].
  destruct (lookup_lt_is_Some_2 tmp (Z.to_nat (c + n - i))) as [x Hx]; [lia|].
  erewrite bind_Done; [|unfold rd; replace (c + n - i) with (Z.of_nat (Z.to_nat (c + n - i))) by lia;
    rewrite arr_at_nat, Hx; reflexivity]. cbv beta.
  destruct (arr_set_ok tmp (16 - i) x) as (t1 & -> & Hl1); [lia|]. erewrite bind_Done by reflexivity. cbv beta.
  destruct (arr_set_ok t1 (c + n - i) 0) as (t2 & -> & Hl2); [lia|]. erewrite bind_Done by reflexivity. cbv beta.
  apply IH. lia.
Qed.

Lemma pton6_loop_total {St} src ct p (s : St) :
  pton6_ok p → ∃ r, pton6_loop src ct p s = Done r s ∧ ∀ p', r = Some p' → pton6_ok p'.
Proof.
  revert ct p. induction src as [|ch src IH]; intros ct p Hp; cbn [pton6_loop].
  { exists (Some p). split; [done|]. by intros p' [= <-]. }
  assert (Hno : ∃ r, (mret None : M St (option pton6)) s = Done r s ∧ ∀ p', r = Some p' → pton6_ok p') by by exists None.
  destruct Hp as (Hl & Htp & Hcp). destruct (xdigit ch) as [d|].
  { cbv zeta. destruct (_ >? 65535); [done|]. by apply IH. }
  destruct (Ascii.eqb ch ":").
  - destruct (p6_saw p); cbn [negb].
    + destruct (Z.gtb_spec (p6_tp p + 2) 16); [done|].
      destruct (store_word_total (p6_tmp p) (p6_tp p) (p6_val p) s) as (t & Ht & Hlt); [done|lia..|].
      cbv iota. run_step Ht. apply IH. split_and!; [done|simpl; lia..|]. simpl. intros c Hc. specialize (Hcp c Hc). lia.
    + destruct (p6_colonp p); [done|]. apply IH. split_and!; [done|simpl; lia..|]. simpl. intros c [= <-]. lia.
  - destruct (Ascii.eqb ch "."); cbn [andb]; [|done].
    destruct (Z.leb_spec (p6_tp p + 4) 16); [|done]. cbv iota. run_step (pton4_spec ct s).
    destruct (dotted_quad ct) as [bs|] eqn:Hq; [|done].
    assert (length bs = 4%nat).
    { unfold dotted_quad in Hq. destruct (mapM octet_value (split_dots ct)) as [os|]; [|done]. simpl in Hq.
      destruct (Nat.eqb_spec (length os) 4); [by simplify_eq|done]. }
    destruct (store_bytes_total (p6_tmp p) (p6_tp p) bs s) as (t & Ht & Hlt); [done|lia..|].
    cbv iota. run_step Ht. eexists. split; [reflexivity|]. intros p' [= <-]. split_and!; [done|simpl; lia..|].
    simpl. intros c Hc. specialize (Hcp c Hc). lia.
Qed.

Lemma pton6_end_total {St} p (s : St) :
  pton6_ok p → ∃ r, pton6_end p s = Done r s ∧ ∀ bs, r = Some bs → length bs = 16%nat.
Proof.
  intros (Hl & Htp & Hcp). unfold pton6_end.
  destruct (p6_saw p && (p6_tp p + 2 >? 16)) eqn:Hfull; [by exists None|]. cbv zeta.
  assert (∃ tmp, (if p6_saw p then store_word (p6_tmp p) (p6_tp p) (p6_val p) else mret (p6_tmp p)) s = Done tmp s ∧
                 length tmp = 16%nat) as (tmp & Htmp & Hlt).
  { destruct (p6_saw p); [|by exists (p6_tmp p)]. apply store_word_total; [done|lia|].
    cbn [andb] in Hfull. destruct (Z.gtb_spec (p6_tp p + 2) 16); [done|lia]. }
  run_step Htmp. set (tp := if p6_saw p then p6_tp p + 2 else p6_tp p).
  assert (Htp' : p6_tp p ≤ tp ≤ 16).
  { unfold tp. destruct (p6_saw p); [|lia]. simpl in Hfull. destruct (Z.gtb_spec (p6_tp p + 2) 16); [done|lia]. }
  destruct (p6_colonp p) as [c|].
  - specialize (Hcp c eq_refl).
    destruct (shift_tail_total c (tp - c) (seqZ 1 (tp - c)) tmp s) as (t & Ht & Hlt'); [done|lia..| |].
    { rewrite Forall_forall. intros i Hi%elem_of_seqZ. lia. }
    run_step Ht. eexists. split; [reflexivity|]. by intros bs [= <-].
  - destruct (tp =? 16); [|by exists None]. eexists. split; [reflexivity|]. by intros bs [= <-].
Qed.

Lemma pton6_total {St} src (s : St) :
  ∃ r, inet_pton6 src s = Done r s ∧ ∀ bs, r = Some bs → length bs = 16%nat.
Proof.
  unfold inet_pton6. destruct (skip_colon src) as [src'|]; [|by exists None].
  destruct (pton6_loop_total src' src' (mk_pton6 (replicate 16 0) 0 None false 0) s) as (r & Hr & Hok); [by split|].
  run_step Hr. destruct r as [p|]; [|by exists None]. apply pton6_end_total. by apply Hok.
Qed.

(** * Properties *)

(** C25: Every IPv6 address survives presentation.  [inet_ntop6] writes one text of
    fewer than 46 characters for it (or returns NULL when the caller's array is too
    small for the text and its terminator), with the longest run of zero words as [::]
    and an encapsulated IPv4 address as a dotted quad, and [inet_pton6] reads exactly
    the 16 bytes back. *)
Theorem inet6_round_trip (bs : list Z) (Hlen : length bs = 16%nat) (Hb : Forall is_byte bs) :
  ∃ text, (String.length text < 46)%nat ∧
    ∀ (St : Type) (s : St),
      (∀ size, inet_ntop6 bs size s = Done (if (size <? S (String.length text))%nat then None else Some text) s) ∧
      inet_pton6 text s = Done (Some bs) s.
Proof.
  exact (inet6_spelled bs Hlen Hb).
Qed.

Definition mapped : list Z := replicate 10 0 ++ [255; 255; 130; 245; 156; 21].

Lemma inet6_round_trip_witness :
  ∃ text, inet_ntop6 mapped 46 tt = Done (Some text) tt ∧ inet_pton6 text tt = Done (Some mapped) tt.
Proof.
  destruct (inet6_round_trip mapped) as (text & Hlen & H).
  - reflexivity.
  - unfold mapped, is_byte. repeat constructor; lia.
  - destruct (H unit tt) as [Hn Hp]. exists text. split; [|exact Hp].
    rewrite (Hn 46%nat). destruct (Nat.ltb_spec 46 (S (String.length text))) as [Hlt|_]; [|reflexivity].
    exfalso. apply (Nat.lt_irrefl 46). apply (Nat.lt_le_trans _ _ _ Hlt). exact Hlen.
Defined.

(** C26: [inet_pton4] accepts exactly the dotted quads: four parts of decimal digits
    between dots, each with a value of at most 255 (leading zeros included), and its
    result is their values.  It never reads or writes outside its arrays. *)
Theorem inet_pton4_is_dotted_quad (St : Type) (src : string) (s : St) :
  inet_pton4 src s = Done (dotted_quad src) s.
Proof. apply pton4_spec. Qed.

(** [inet_ntop4] checks the caller's array one byte short.  For every size of the
    array but one it returns the dotted quad, which [inet_pton4] reads back, or NULL; an
    array that has room for the text but not for its terminator is overflowed. *)
Theorem inet_ntop4_sizes (St : Type) (a b c d : Z) (size : nat) (s : St)
    (Ha : is_byte a) (Hb : is_byte b) (Hc : is_byte c) (Hd : is_byte d) :
  inet_ntop4 [a; b; c; d] size s =
    (if (size <? String.length (quad_text a b c d))%nat then Done None s
     else if (size =? String.length (quad_text a b c d))%nat then Undefined BufferOverflow
     else Done (Some (quad_text a b c d)) s) ∧
  inet_pton4 (quad_text a b c d) s = Done (Some [a; b; c; d]) s.
Proof. split; [by apply ntop4_run|]. by rewrite pton4_spec, dotted_quad_text. Qed.

Lemma inet_ntop4_sizes_witness :
  inet_ntop4 [1; 2; 3; 4] 7 tt = Undefined BufferOverflow ∧ inet_ntop4 [1; 2; 3; 4] 8 tt = Done (Some "1.2.3.4"%string) tt.
Proof.
  split.
  - destruct (inet_ntop4_sizes unit 1 2 3 4 7 tt) as [H _]; [unfold is_byte; lia..|exact H].
  - destruct (inet_ntop4_sizes unit 1 2 3 4 8 tt) as [H _]; [unfold is_byte; lia..|exact H].
Defined.

(** [inet_pton] is total.  For every family and every text it returns 1 and has
    stored an address of the family's size, or it returns 0 or -1 and the caller's
    memory is untouched; no text leads it outside its arrays. *)
Theorem inet_pton_total (St : Type) (af : Z) (src : string) (dst : list Z) (s : St) :
  ∃ ret dst', inet_pton af src dst s = Done (ret, dst') s ∧
    ((ret = 1 ∧ ∃ bs, dst' = bs ++ drop (length bs) dst ∧
                      length bs = (if af =? AF_INET then 4%nat else 16%nat)) ∨
     ((ret = 0 ∨ ret = -1) ∧ dst' = dst)).
Proof.
  assert (Hst : ∀ r n, (∀ bs, r = Some bs → length bs = n) →
            ∃ ret dst', stored r dst = (ret, dst') ∧
              ((ret = 1 ∧ ∃ bs, dst' = bs ++ drop (length bs) dst ∧ length bs = n) ∨
               ((ret = 0 ∨ ret = -1) ∧ dst' = dst))).
  { intros [bs|] n Hn; unfold stored; eexists _, _; (split; [reflexivity|]); [left|right; auto].
    split; [done|]. exists bs. split; [done|]. by apply Hn. }
  unfold inet_pton. destruct (af =? AF_INET) eqn:Haf.
  - run_step (pton4_spec src s). destruct (Hst (dotted_quad src) 4%nat) as (ret & dst' & Hr & H); [apply dotted_quad_length|].
    exists ret, dst'. split; [by rewrite Hr|exact H].
  - destruct (af =? AF_INET6); [|exists (-1), dst; split; [done|auto]].
    destruct (pton6_total src s) as (r & Hr & Hl). run_step Hr.
    destruct (Hst r 16%nat Hl) as (ret & dst' & Hs & H). exists ret, dst'. split; [by rewrite Hs|exact H].
Qed.

(** The longest run of zeros is the one that is shortened, the first of equal ones. *)
Theorem best_run_is_longest (ws : list Z) (Hlen : length ws = 8%nat) : is_best ws (best_run ws) = true.
Proof. by apply best_run_best. Qed.

Lemma best_run_is_longest_witness : is_best [1; 0; 0; 2; 3; 0; 0; 4] (mk_zrun 1 2) = true.
Proof. exact (best_run_is_longest [1; 0; 0; 2; 3; 0; 0; 4] eq_refl). Defined.

(** [::] in a full address is not ignored: it clears the words behind it. *)
Theorem full_address_gap_clears :
  inet_pton6 "1:2:3:4::5:6:7:8" tt = Done (Some [0; 1; 0; 2; 0; 3; 0; 4; 0; 0; 0; 0; 0; 0; 0; 0]) tt.
Proof. vm_compute. reflexivity. Qed.

(** A colon behind the last word is accepted. *)
Theorem trailing_colon_accepted :
  inet_pton6 "1:2:3:4:5:6:7:8:" tt = inet_pton6 "1:2:3:4:5:6:7:8" tt.
Proof. vm_compute. reflexivity. Qed.
