(* ===== verification/SockAddr.v ===== *)
(** Socket addresses as the bytes a [struct sockaddr *] points to, and the functions of
    unpv13e/lib on them: sock_ntop.c, sock_ntop_host.c, sock_get_port.c,
    sock_set_port.c, sock_set_addr.c, sock_set_wild.c, sock_cmp_addr.c,
    sock_cmp_port.c.

    The structures share their memory (x86, no [sa_len]): 2 bytes of family; for
    IPv4 the port at 2 and the address at 4; for IPv6 the port at 2 and the address at
    8; for a UNIX domain socket the path from 2 on. *)

From S2P Require Export InetAddr.

Section sockaddr.
Context {St : Type}.

(** [n] bytes at [sa + off]. *)
Definition field (sa : list Z) (off n : nat) : M St (list Z) :=
  if (off + n <=? length sa)%nat then mret (take n (drop off sa)) else undef OutOfBounds.
Definition put_field (sa : list Z) (off : nat) (bs : list Z) : M St (list Z) :=
  if (off + length bs <=? length sa)%nat then mret (take off sa ++ bs ++ drop (off + length bs) sa)
  else undef OutOfBounds.

Definition sa_family (sa : list Z) : M St Z := bs ← field sa 0 2; mret (le_combine bs).
(** [sin_port] and [sin6_port] as the program reads them, in network order. *)
Definition sin_port (sa : list Z) : M St Z := bs ← field sa 2 2; mret (le_combine bs).
Definition sin_addr (sa : list Z) : M St (list Z) := field sa 4 4.
Definition sin6_addr (sa : list Z) : M St (list Z) := field sa 8 16.

(** [unp->sun_path] as a C string. *)
Definition sun_path (sa : list Z) : M St string := of_opt NoTerminator (dec_str (drop 2 sa)).

(** [snprintf(buf, size, "%s", s)] *)
Definition snprintf_s (size : nat) (s : string) : string := String.substring 0 (size - 1) s.

Definition STR : nat := 128. (* char str[128] *)
Definition PORTSTR : nat := 8. (* char portstr[8] *)

(** * sock_ntop.c *)

(** [strcat(str, portstr)]; [str] starts [off] bytes into its array. *)
Definition strcat (off : nat) (str suffix : string) : M St string :=
  if (off + String.length str + String.length suffix <? STR)%nat then mret (str +:+ suffix)
  else undef BufferOverflow.

Definition unknown_family (name : string) (family salen : Z) : string :=
  snprintf_s STR (name +:+ ": unknown AF_xxx: " +:+ print_d family +:+ ", len " +:+ print_d salen).

Definition unix_name (sa : list Z) : M St string :=
  path ← sun_path sa;
  mret (if streq path EmptyString then "(no pathname bound)"%string else snprintf_s STR path).

Definition sock_ntop (sa : list Z) (salen : Z) : M St (option string) :=
  family ← sa_family sa;
  if family =? AF_INET then
    addr ← sin_addr sa;
    r ← inet_ntop AF_INET addr STR;
    match r with
    | None => mret None
    | Some str =>
        port ← sin_port sa;
        if negb (ntohs port =? 0) then
          str ← strcat 0 str (snprintf_s PORTSTR (String ":" (print_d (ntohs port)))); mret (Some str)
        else mret (Some str)
    end
  else if family =? AF_INET6 then
    addr ← sin6_addr sa;
    r ← inet_ntop AF_INET6 addr (STR - 1);
    match r with
    | None => mret None
    | Some str =>
        port ← sin_port sa;
        if negb (ntohs port =? 0) then
          str ← strcat 1 str (snprintf_s PORTSTR (String "]" (String ":" (print_d (ntohs port)))));
          mret (Some (String "[" str))
        else mret (Some str)
    end
  else if family =? AF_UNIX then s ← unix_name sa; mret (Some s)
  else mret (Some (unknown_family "sock_ntop" family salen)).

(** [err_sys] ends the process. *)
Definition Sock_ntop (sa : list Z) (salen : Z) : M St string :=
  r ← sock_ntop sa salen; match r with Some s => mret s | None => exit 1 end.

(** * sock_ntop_host.c *)

Definition sock_ntop_host (sa : list Z) (salen : Z) : M St (option string) :=
  family ← sa_family sa;
  if family =? AF_INET then addr ← sin_addr sa; inet_ntop AF_INET addr STR
  else if family =? AF_INET6 then addr ← sin6_addr sa; inet_ntop AF_INET6 addr STR
  else if family =? AF_UNIX then s ← unix_name sa; mret (Some s)
  else mret (Some (unknown_family "sock_ntop_host" family salen)).

Definition Sock_ntop_host (sa : list Z) (salen : Z) : M St string :=
  r ← sock_ntop_host sa salen; match r with Some s => mret s | None => exit 1 end.

(** * Ports and addresses *)

Definition is_inet (family : Z) : bool := (family =? AF_INET) || (family =? AF_INET6).

Definition sock_get_port (sa : list Z) : M St Z :=
  family ← sa_family sa; if is_inet family then sin_port sa else mret (-1).

(** The [int] is converted to 16 bits. *)
Definition sock_set_port (sa : list Z) (port : Z) : M St (list Z) :=
  family ← sa_family sa; if is_inet family then put_field sa 2 (le_split 2 (u16 port)) else mret sa.

Definition sock_set_addr (sa : list Z) (addr : list Z) : M St (list Z) :=
  family ← sa_family sa;
  if family =? AF_INET then bs ← field addr 0 4; put_field sa 4 bs
  else if family =? AF_INET6 then bs ← field addr 0 16; put_field sa 8 bs
  else mret sa.

(** INADDR_ANY and in6addr_any are all zero. *)
Definition sock_set_wild (sa : list Z) : M St (list Z) :=
  family ← sa_family sa;
  if family =? AF_INET then sock_set_addr sa (replicate 4 0)
  else if family =? AF_INET6 then sock_set_addr sa (replicate 16 0)
  else mret sa.

(** [memcmp]: 0 iff equal; the sign is that of the first difference. *)
Fixpoint memcmp (a b : list Z) : Z :=
  match a, b with
  | x :: a', y :: b' => if x =? y then memcmp a' b' else x - y
  | _, _ => 0
  end.

Definition sock_cmp_addr (sa1 sa2 : list Z) : M St Z :=
  f1 ← sa_family sa1; f2 ← sa_family sa2;
  if negb (f1 =? f2) then mret (-1)
  else if f1 =? AF_INET then a ← sin_addr sa1; b ← sin_addr sa2; mret (memcmp a b)
  else if f1 =? AF_INET6 then a ← sin6_addr sa1; b ← sin6_addr sa2; mret (memcmp a b)
  else if f1 =? AF_UNIX then
    a ← sun_path sa1; b ← sun_path sa2; mret (memcmp (str_bytes a ++ [0]) (str_bytes b ++ [0]))
  else mret (-1).

(** [sin_port == sin_port]: 1 for equal ports. *)
Definition sock_cmp_port (sa1 sa2 : list Z) : M St Z :=
  f1 ← sa_family sa1; f2 ← sa_family sa2;
  if negb (f1 =? f2) then mret (-1)
  else if is_inet f1 then a ← sin_port sa1; b ← sin_port sa2; mret (Z.b2z (a =? b))
  else mret (-1).
End sockaddr.

(** * Lemmas *)

(** The memory of an IPv4 and an IPv6 address. *)
Definition sockaddr_in (port : Z) (addr rest : list Z) : list Z :=
  [2; 0] ++ le_split 2 (htons port) ++ addr ++ rest.
Definition sockaddr_in6 (port : Z) (flow addr rest : list Z) : list Z :=
  [10; 0] ++ le_split 2 (htons port) ++ flow ++ addr ++ rest.

Lemma field_run {St} pre bs post n (s : St) :
  n = length bs → field (pre ++ bs ++ post) (length pre) n s = Done bs s.
Proof.
  intros ->. unfold field. rewrite !length_app. destruct (Nat.leb_spec (length pre + length bs)
    (length pre + (length bs + length post))); [|lia].
  by rewrite drop_app_length, take_app_length.
Qed.

Lemma put_field_run {St} pre old bs post (s : St) :
  length old = length bs →
  put_field (pre ++ old ++ post) (length pre) bs s = Done (pre ++ bs ++ post) s.
Proof.
  intros Hl. unfold put_field. rewrite !length_app.
  destruct (Nat.leb_spec (length pre + length bs) (length pre + (length old + length post))); [|lia].
  assert (drop (length pre + length bs) (pre ++ old ++ post) = post) as ->.
  { rewrite <- Hl, app_assoc, <- length_app. apply drop_app_length. }
  by rewrite take_app_length.
Qed.

Section in_facts.
Context {St : Type} (port : Z) (addr rest : list Z) (Ha : length addr = 4%nat) (s : St).
Abbreviation sa := (sockaddr_in port addr rest).

Lemma in_family : sa_family sa s = Done AF_INET s.
Proof. done. Qed.

Lemma in_port : sin_port sa s = Done (htons port) s.
Proof.
  clear Ha. unfold sin_port. run_step (field_run [2; 0] (le_split 2 (htons port)) (addr ++ rest) 2 s eq_refl).
  rewrite le_combine_split. pose proof (htons_range port). by rewrite Z.mod_small by (simpl; lia).
Qed.

Lemma in_addr : sin_addr sa s = Done addr s.
Proof.
  unfold sin_addr, sockaddr_in. rewrite app_assoc.
  apply (field_run ([2; 0] ++ le_split 2 (htons port)) addr rest 4 s). done.
Qed.

Lemma in_set_port p : sock_set_port sa (htons p) s = Done (sockaddr_in p addr rest) s.
Proof.
  unfold sock_set_port. run_step in_family. simpl is_inet. cbv iota.
  pose proof (htons_range p). rewrite u16_small by done.
  apply (put_field_run [2; 0] (le_split 2 (htons port)) (le_split 2 (htons p)) (addr ++ rest) s). done.
Qed.

Lemma in_set_addr a : length a = 4%nat → sock_set_addr sa a s = Done (sockaddr_in port a rest) s.
Proof.
  intros Hl. unfold sock_set_addr. run_step in_family. simpl. rewrite <- (app_nil_r a) at 1.
  run_step (field_run [] a [] 4 s (eq_sym Hl)). unfold sockaddr_in. rewrite app_assoc.
  etransitivity; [apply (put_field_run ([2; 0] ++ le_split 2 (htons port)) addr a rest s); lia|].
  by rewrite <- app_assoc.
Qed.
End in_facts.

Section in6_facts.
Context {St : Type} (port : Z) (flow addr rest : list Z) (Hf : length flow = 4%nat) (Ha : length addr = 16%nat) (s : St).
Abbreviation sa := (sockaddr_in6 port flow addr rest).

Lemma in6_family : sa_family sa s = Done AF_INET6 s.
Proof. done. Qed.

Lemma in6_port : sin_port sa s = Done (htons port) s.
Proof.
  clear Hf Ha. unfold sin_port. run_step (field_run [10; 0] (le_split 2 (htons port)) (flow ++ addr ++ rest) 2 s eq_refl).
  rewrite le_combine_split. pose proof (htons_range port). by rewrite Z.mod_small by (simpl; lia).
Qed.

Lemma in6_addr : sin6_addr sa s = Done addr s.
Proof.
  unfold sin6_addr, sockaddr_in6. rewrite !app_assoc, <- (app_assoc _ addr).
  pose proof (field_run (([10; 0] ++ le_split 2 (htons port)) ++ flow) addr rest 16 s (eq_sym Ha)) as H.
  rewrite length_app, Hf in H. exact H.
Qed.

Lemma in6_set_port p : sock_set_port sa (htons p) s = Done (sockaddr_in6 p flow addr rest) s.
Proof.
  unfold sock_set_port. run_step in6_family. simpl is_inet. cbv iota.
  pose proof (htons_range p). rewrite u16_small by done.
  apply (put_field_run [10; 0] (le_split 2 (htons port)) (le_split 2 (htons p)) (flow ++ addr ++ rest) s). done.
Qed.

Lemma in6_set_addr a : length a = 16%nat → sock_set_addr sa a s = Done (sockaddr_in6 port flow a rest) s.
Proof.
  intros Hl. unfold sock_set_addr. run_step in6_family. simpl. rewrite <- (app_nil_r a) at 1.
  run_step (field_run [] a [] 16 s (eq_sym Hl)). unfold sockaddr_in6. rewrite !app_assoc, <- (app_assoc _ addr).
  pose proof (put_field_run (([10; 0] ++ le_split 2 (htons port)) ++ flow) addr a rest s ltac:(lia)) as H.
  rewrite length_app, Hf in H. etransitivity; [exact H|]. by rewrite <- !app_assoc.
Qed.
End in6_facts.

Lemma memcmp_0 a b : length a = length b → memcmp a b = 0 ↔ a = b.
Proof.
  revert b. induction a as [|x a IH]; intros [|y b] Hl; simplify_eq/=; [done|].
  destruct (Z.eqb_spec x y) as [->|Hne].
  - rewrite IH by done. split; [by intros ->|by intros [= ->]].
  - split; [lia|intros [= ]; lia].
Qed.

(** * Properties *)

(** A port number has at most five digits. *)
Fixpoint five_digits (fuel : nat) (z : Z) : bool :=
  match fuel with O => true | S f => (String.length (print_d z) <=? 5)%nat && five_digits f (z + 1) end.

Lemma five_digits_at fuel z k :
  five_digits fuel z = true → 0 ≤ k < Z.of_nat fuel → (String.length (print_d (z + k)) ≤ 5)%nat.
Proof.
  revert z k. induction fuel as [|f IH]; intros z k H Hk; [lia|]. cbn [five_digits] in H.
  apply andb_true_iff in H as [H1%Nat.leb_le H2]. destruct (decide (k = 0)) as [->|]; [by rewrite Z.add_0_r|].
  replace (z + k) with (z + 1 + (k - 1)) by lia. apply IH; [done|lia].
Qed.

Lemma length_print_port p : 0 ≤ p < 65536 → (String.length (print_d p) ≤ 5)%nat.
Proof.
  intros Hp. assert (H : five_digits (Z.to_nat 65536) 0 = true) by (vm_compute; reflexivity).
  apply (five_digits_at _ 0 p H). lia.
Qed.

(** The text behind an address. *)
Definition port_suffix (before : string) (port : Z) : string :=
  if port =? 0 then EmptyString else before +:+ String ":" (print_d port).

(** [sock_ntop] of an IPv4 address is its dotted quad, with the port unless that is 0;
    [sock_ntop_host] is the dotted quad.  Their buffers are large enough. *)
Theorem sock_ntop_ipv4 (St : Type) (port : Z) (a b c d : Z) (rest : list Z) (salen : Z) (s : St)
    (Hp : 0 ≤ port < 65536) (Ha : is_byte a) (Hb : is_byte b) (Hc : is_byte c) (Hd : is_byte d) :
  sock_ntop (sockaddr_in port [a; b; c; d] rest) salen s
    = Done (Some (quad_text a b c d +:+ port_suffix EmptyString port)) s ∧
  sock_ntop_host (sockaddr_in port [a; b; c; d] rest) salen s = Done (Some (quad_text a b c d)) s.
Proof.
  pose proof (length_quad_text a b c d Ha Hb Hc Hd) as Hq.
  assert (Hn : inet_ntop AF_INET [a; b; c; d] STR s = Done (Some (quad_text a b c d)) s).
  { unfold inet_ntop, STR. change (AF_INET =? AF_INET) with true. cbv iota. rewrite ntop4_run by done.
    destruct (Nat.ltb_spec 128 (String.length (quad_text a b c d))); [lia|].
    by destruct (Nat.eqb_spec 128 (String.length (quad_text a b c d))); [lia|]. }
  split.
  - unfold sock_ntop. run_step (in_family port [a; b; c; d] rest s). change (AF_INET =? AF_INET) with true. cbv iota.
    run_step (in_addr port [a; b; c; d] rest eq_refl s). run_step Hn.
    run_step (in_port port [a; b; c; d] rest s). rewrite ntohs_htons, u16_small by lia.
    unfold port_suffix. destruct (port =? 0); cbn [negb]; [by rewrite str_app_nil_r|].
    pose proof (length_print_port port Hp). unfold snprintf_s, PORTSTR.
    rewrite substring_all by (simpl; lia). unfold strcat, STR.
    destruct (Nat.ltb_spec (0 + String.length (quad_text a b c d) + String.length (String ":" (print_d port))) 128);
      [done|simpl in *; lia].
  - unfold sock_ntop_host. run_step (in_family port [a; b; c; d] rest s). change (AF_INET =? AF_INET) with true. cbv iota.
    by run_step (in_addr port [a; b; c; d] rest eq_refl s).
Qed.

(** The same for IPv6; the port is set off with brackets. *)
Theorem sock_ntop_ipv6 (St : Type) (port : Z) (flow addr rest : list Z) (salen : Z) (s : St)
    (Hp : 0 ≤ port < 65536) (Hf : length flow = 4%nat) (Ha : length addr = 16%nat) (Hb : Forall is_byte addr) :
  ∃ text, inet_pton6 text s = Done (Some addr) s ∧
    sock_ntop (sockaddr_in6 port flow addr rest) salen s
      = Done (Some (if port =? 0 then text else String "[" (text +:+ port_suffix "]" port))) s ∧
    sock_ntop_host (sockaddr_in6 port flow addr rest) salen s = Done (Some text) s.
Proof.
  destruct (inet6_spelled addr Ha Hb) as (text & Hlen & H). destruct (H St s) as [Hn Hr].
  assert (Hsize : ∀ size, (46 ≤ size)%nat → inet_ntop AF_INET6 addr size s = Done (Some text) s).
  { intros size Hs. unfold inet_ntop. change (AF_INET6 =? AF_INET) with false. change (AF_INET6 =? AF_INET6) with true.
    cbv iota. rewrite Hn. by destruct (Nat.ltb_spec size (S (String.length text))); [lia|]. }
  exists text. split; [done|]. split.
  - unfold sock_ntop. run_step (in6_family port flow addr rest s).
    change (AF_INET6 =? AF_INET) with false. change (AF_INET6 =? AF_INET6) with true. cbv iota.
    run_step (in6_addr port flow addr rest Hf Ha s). run_step (Hsize (STR - 1)%nat ltac:(unfold STR; lia)).
    run_step (in6_port port flow addr rest s). rewrite ntohs_htons, u16_small by lia.
    unfold port_suffix. destruct (port =? 0); cbn [negb]; [done|].
    pose proof (length_print_port port Hp). unfold snprintf_s, PORTSTR.
    rewrite substring_all by (simpl; lia). unfold strcat, STR.
    destruct (Nat.ltb_spec (1 + String.length text + String.length (String "]" (String ":" (print_d port)))) 128);
      [done|simpl in *; lia].
  - unfold sock_ntop_host. run_step (in6_family port flow addr rest s).
    change (AF_INET6 =? AF_INET) with false. change (AF_INET6 =? AF_INET6) with true. cbv iota.
    run_step (in6_addr port flow addr rest Hf Ha s). apply Hsize. unfold STR. lia.
Qed.

(** Comparing addresses: 0 for equal ones, as [memcmp]. *)
Theorem sock_cmp_addr_equal (St : Type) (p q : Z) (a b r r' : list Z) (s : St)
    (Ha : length a = 4%nat) (Hb : length b = 4%nat) :
  ∃ n, sock_cmp_addr (sockaddr_in p a r) (sockaddr_in q b r') s = Done n s ∧ (n = 0 ↔ a = b).
Proof.
  exists (memcmp a b). split; [|by apply memcmp_0; congruence]. unfold sock_cmp_addr.
  run_step (in_family p a r s). run_step (in_family q b r' s). simpl.
  run_step (in_addr p a r Ha s). by run_step (in_addr q b r' Hb s).
Qed.

(** Comparing ports: 1 for equal ones, 0 for different ones. *)
Theorem sock_cmp_port_equal (St : Type) (p q : Z) (a b r r' : list Z) (s : St)
    (Hp : 0 ≤ p < 65536) (Hq : 0 ≤ q < 65536) :
  sock_cmp_port (sockaddr_in p a r) (sockaddr_in q b r') s = Done (if p =? q then 1 else 0) s.
Proof.
  unfold sock_cmp_port. run_step (in_family p a r s). run_step (in_family q b r' s). simpl.
  run_step (in_port p a r s). run_step (in_port q b r' s). unfold mret, M_ret. f_equal.
  destruct (Z.eqb_spec (htons p) (htons q)) as [Heq|Hne], (Z.eqb_spec p q) as [Hpq|Hpq]; try done.
  - exfalso. apply Hpq. apply (f_equal ntohs) in Heq. rewrite !ntohs_htons, !u16_small in Heq by lia. done.
  - by subst.
Qed.

(** Port and address of a socket address are independent fields: setting one gives
    memory in which it has the new value and the other the old one. *)
Theorem sock_set_get (St : Type) (p q : Z) (a b r : list Z) (s : St)
    (Ha : length a = 4%nat) (Hb : length b = 4%nat) :
  (∃ m, sock_set_port (sockaddr_in p a r) (htons q) s = Done m s ∧
        sock_get_port m s = Done (htons q) s ∧ sin_addr m s = Done a s) ∧
  (∃ m, sock_set_addr (sockaddr_in p a r) b s = Done m s ∧
        sock_get_port m s = Done (htons p) s ∧ sin_addr m s = Done b s) ∧
  sock_set_wild (sockaddr_in p a r) s = Done (sockaddr_in p (replicate 4 0) r) s.
Proof.
  assert (Hget : ∀ q a, sock_get_port (sockaddr_in q a r) s = Done (htons q) s).
  { intros q' a'. unfold sock_get_port. run_step (in_family q' a' r s). simpl. apply in_port. }
  split_and!.
  - exists (sockaddr_in q a r). split_and!; [by apply in_set_port|done|by apply in_addr].
  - exists (sockaddr_in p b r). split_and!; [by apply in_set_addr|done|by apply in_addr].
  - unfold sock_set_wild. run_step (in_family p a r s). simpl. by apply (in_set_addr p a r Ha s).
Qed.
