(* ===== verification/Kernel.v ===== *)
(** The calls the start-up code of the programs makes, as a trace.

    What the kernel answers is a function of the calls so far; a negative answer is a
    failure, as in C.  The invariant [stops] says that code goes on only while its
    calls succeed. *)

From S2P Require Export SockAddr.

(** * Calls *)

(** An address a socket is bound or connected to, with the fields in network order as
    the structure holds them. *)
Inductive address :=
  | Inet (port : Z) (addr : Z)
  | Local (path : string)
  | Link (protocol ifindex : Z) (haddr : list Z)
  | Raw (bytes : list Z).

Inductive call :=
  | Socket (domain type protocol : Z)
  | Setsockopt (fd level option : Z) (value : list Z)
  | Bind (fd : Z) (a : address)
  | Connect (fd : Z) (a : address)
  | Listen (fd backlog : Z)
  | Accept (fd : Z)
  | Fcntl (fd cmd arg : Z)
  | Put (fd : Z) (text : string) (* write *)
  | Getsockname (fd : Z)
  | Getpeername (fd : Z)
  | Close (fd : Z)
  | Unlink (path : string)
  | Mkstemp (template : string)
  | Signal (signo : Z)
  | Fork
  | Pipe
  | Exec (file : string) (args : list string)
  | Select (fds : list Z)
  | Send (fd : Z) (bytes : list Z)
  | ThreadCreate (start : string) (arg : Z)
  | Getsockopt (fd level option : Z)
  | Alarm (seconds : Z).

(** Constants of the platform (Linux). *)
Definition AF_LOCAL : Z := 1.
Definition PF_PACKET : Z := 17.
Definition SOCK_STREAM : Z := 1.
Definition SOCK_DGRAM : Z := 2.
Definition SOCK_RAW : Z := 3.
Definition SOL_SOCKET : Z := 1.
Definition SO_REUSEADDR : Z := 2.
Definition SO_DONTROUTE : Z := 5.
Definition SUN_PATH : nat := 108.
Definition LISTENQ : Z := 1024.
Definition ON : list Z := st32 1.

(** The calls so far with what they returned. *)
Definition trace : Type := list (call * Z).

(** * Making calls *)

Section calls.
Context (ask : trace → call → Z).

(** A call whose result the program does not look at. *)
Definition try (c : call) : M trace Z :=
  tr ← get;
  modify (λ tr, tr ++ [(c, ask tr c)]);;
  mret (ask tr c).

(** [if ((r = c) < 0) exit(1);] *)
Definition need (c : call) : M trace Z :=
  r ← try c;
  if r <? 0 then exit 1 else mret r.
End calls.

(** Code that makes no calls and keeps no state of its own. *)
Definition lift {St A} (m : M unit A) : M St A := λ s,
  match m tt with
  | Done a _ => Done a s
  | Exited c _ => Exited c s
  | Undefined u => Undefined u
  end.

Lemma lift_ret {St A} (a : A) (s : St) : lift (mret a) s = Done a s.
Proof. done. Qed.

(** * Traces of code that stops at the first failure *)

(** A call that succeeded, or one whose result is not looked at. *)
Definition good (e : call * Z) : Prop := 0 ≤ e.2 ∨ ∃ path, e.1 = Unlink path.
Definition failed (e : call * Z) : Prop := e.2 < 0.

(** [m] makes only good calls when it returns; when it exits, the last one may have
    failed, and the code is 1. *)
Definition stops {A} (m : M trace A) : Prop := ∀ tr,
  match m tr with
  | Done _ tr' => ∃ new, tr' = tr ++ new ∧ Forall good new
  | Exited c tr' => c = 1 ∧ ∃ new last, tr' = tr ++ new ++ last ∧ Forall good new ∧
                    (last = [] ∨ ∃ e, last = [e] ∧ failed e)
  | Undefined _ => True
  end.

Lemma stops_ret {A} (a : A) : stops (mret a).
Proof. intros tr. exists []. by rewrite app_nil_r. Qed.

Lemma stops_bind {A B} (m : M trace A) (k : A → M trace B) :
  stops m → (∀ a, stops (k a)) → stops (m ≫= k).
Proof.
  intros Hm Hk tr. unfold mbind, M_bind. specialize (Hm tr). destruct (m tr) as [a tr1|c tr1|u]; [|done..].
  destruct Hm as (new & -> & Hn). specialize (Hk a (tr ++ new)).
  destruct (k a (tr ++ new)) as [b tr2|c tr2|u]; [| |done].
  - destruct Hk as (new2 & -> & Hn2). exists (new ++ new2). rewrite app_assoc, Forall_app. done.
  - destruct Hk as (Hc & new2 & last & -> & Hn2 & Hl). split; [done|]. exists (new ++ new2), last.
    rewrite <- !app_assoc, Forall_app. done.
Qed.

Lemma stops_exit {A} : stops (A:=A) (exit 1).
Proof. intros tr. split; [done|]. exists [], []. rewrite !app_nil_r. auto. Qed.

Lemma stops_undef {A} u : stops (A:=A) (undef u).
Proof. by intros tr. Qed.

Lemma stops_if {A} (b : bool) (m1 m2 : M trace A) : stops m1 → stops m2 → stops (if b then m1 else m2).
Proof. by destruct b. Qed.

Lemma stops_when b m : stops m → stops (when b m).
Proof. intros Hm. apply stops_if; [done|apply stops_ret]. Qed.

Lemma stops_strcpy cap s : stops (strcpy cap s).
Proof. apply stops_if; [apply stops_ret|apply stops_undef]. Qed.

Lemma stops_of_opt {A} u (o : option A) : stops (of_opt u o).
Proof. destruct o; [apply stops_ret|apply stops_undef]. Qed.

(** Code that reads the state at most to pass it on. *)
Lemma stops_pure {A} (m : M trace A) :
  (∀ tr, match m tr with Done _ tr' => tr' = tr | Exited c tr' => c = 1 ∧ tr' = tr | Undefined _ => True end) →
  stops m.
Proof.
  intros Hm tr. specialize (Hm tr). destruct (m tr) as [a tr'|c tr'|u]; [| |done].
  - subst. exists []. by rewrite app_nil_r.
  - destruct Hm as [-> ->]. split; [done|]. exists [], []. rewrite !app_nil_r. auto.
Qed.

Lemma stops_lift {A} (m : M unit A) : (∀ c s s', m s = Exited c s' → c = 1) → stops (lift m).
Proof.
  intros Hm. apply stops_pure. intros tr. unfold lift. destruct (m tt) as [a s|c s|u] eqn:Hr; [done| |done].
  split; [by eapply Hm|done].
Qed.

Lemma need_unfold ask c (tr : trace) :
  need ask c tr = (if ask tr c <? 0 then exit 1 else mret (ask tr c)) (tr ++ [(c, ask tr c)]).
Proof. done. Qed.

Lemma stops_need ask c : stops (need ask c).
Proof.
  intros tr. rewrite need_unfold.
  destruct (Z.ltb_spec (ask tr c) 0).
  - split; [done|]. exists [], [(c, ask tr c)]. simpl. split_and!; [done|constructor|right; by eexists].
  - exists [(c, ask tr c)]. split; [done|]. constructor; [left; simpl; lia|constructor].
Qed.

Lemma stops_unlink ask path : stops (try ask (Unlink path)).
Proof.
  intros tr. exists [(Unlink path, ask tr (Unlink path))]. split; [done|].
  constructor; [right; by eexists|constructor].
Qed.

Create HintDb stops.
#[export] Hint Resolve stops_ret stops_bind stops_exit stops_undef stops_if stops_when stops_strcpy
  stops_of_opt stops_need stops_unlink : stops.

(** The text of an address needs no calls. *)
Lemma stops_rd {A} (l : list A) i : stops (rd l i).
Proof. apply stops_of_opt. Qed.
#[export] Hint Resolve stops_rd : stops.

(** Follow the structure of the code. *)
Ltac stops_tac :=
  repeat (cbv zeta; lazymatch goal with
  | |- ∀ _, _ => intro
  | |- stops (_ ≫= _) => apply stops_bind
  | |- stops (match ?o with _ => _ end) => destruct o
  | |- stops _ => solve [auto with stops]
  end).

Lemma stops_ntop4 src size : stops (inet_ntop4 src size).
Proof. unfold inet_ntop4. stops_tac. Qed.
#[export] Hint Resolve stops_ntop4 : stops.

Lemma stops_format src words best i ws tmp : stops (format_words src words best i ws tmp).
Proof.
  revert i tmp. induction ws as [|w ws IH]; intros i tmp; cbn [format_words]; [auto with stops|].
  unfold put_char, put_hex. stops_tac.
Qed.
#[export] Hint Resolve stops_format : stops.

Lemma stops_host sa salen : stops (Sock_ntop_host sa salen).
Proof.
  unfold Sock_ntop_host, sock_ntop_host, inet_ntop, inet_ntop6, SockAddr.sa_family, sin_addr, sin6_addr,
    unix_name, SockAddr.sun_path, field, put_char. stops_tac.
Qed.
#[export] Hint Resolve stops_host : stops.

(** * A kernel that serves every call *)

(** Running a call of a kernel that does not fail. *)
Lemma need_run ask c (tr : trace) :
  0 ≤ ask tr c → need ask c tr = Done (ask tr c) (tr ++ [(c, ask tr c)]).
Proof.
  intros H. rewrite need_unfold. by destruct (Z.ltb_spec (ask tr c) 0); [lia|].
Qed.

Lemma try_run ask c (tr : trace) : try ask c tr = Done (ask tr c) (tr ++ [(c, ask tr c)]).
Proof. done. Qed.

Lemma need_inv ask c (tr : trace) r tr' :
  need ask c tr = Done r tr' → r = ask tr c ∧ 0 ≤ r ∧ tr' = tr ++ [(c, r)].
Proof. rewrite need_unfold. destruct (Z.ltb_spec (ask tr c) 0); [done|]. by intros [= <- <-]. Qed.

(** The calls of code on a kernel that serves every call, one after the other. *)
Section serving.
Context (ask : trace → call → Z) (Hask : ∀ tr c, 0 ≤ ask tr c).

Lemma need_step {A} c (k : Z → M trace A) (tr : trace) :
  ∃ r, 0 ≤ r ∧ (need ask c ≫= k) tr = k r (tr ++ [(c, r)]).
Proof. exists (ask tr c). split; [done|]. by rewrite (bind_Done _ _ _ _ _ (need_run ask c tr (Hask _ _))). Qed.

Lemma try_step {A} c (k : Z → M trace A) (tr : trace) :
  ∃ r, 0 ≤ r ∧ (try ask c ≫= k) tr = k r (tr ++ [(c, r)]).
Proof. by exists (ask tr c). Qed.
End serving.

(** Run the next call of a kernel that serves every call ([Hask]). *)
Ltac serve Hask :=
  match goal with
  | |- context [(need ?ask ?c ≫= ?k) ?tr] =>
      let r := fresh "r" in let Hr := fresh "Hr" in destruct (need_step ask Hask c k tr) as (r & Hr & ->)
  | |- context [(try ?ask ?c ≫= ?k) ?tr] =>
      let r := fresh "r" in let Hr := fresh "Hr" in destruct (try_step ask Hask c k tr) as (r & Hr & ->)
  end; cbv beta.

(** The calls made are good; one of them is in the trace. *)
Ltac goods := repeat (apply Forall_app; split); repeat (apply Forall_cons; split; [left; simpl; auto|]); try apply Forall_nil_2.
Ltac in_trace := eexists; rewrite ?elem_of_app, ?list_elem_of_singleton; eauto 20.

(** A kernel and an address for examples. *)
Definition serving (tr : trace) (c : call) : Z := 3 + Z.of_nat (length tr).
Definition quad_sa (a b c d : Z) : list Z := sockaddr_in 0 [a; b; c; d] (replicate 8 0).

Lemma serving_ok tr c : 0 ≤ serving tr c.
Proof. unfold serving. lia. Qed.
