(* ===== verification/UnpSock.v ===== *)
(** The functions of unpv13e/lib that make sockets from the addresses of a name
    (tcp_connect.c, tcp_listen.c, udp_client.c, udp_connect.c, udp_server.c), the ones for
    multicasting (mcast_*.c), non-blocking and timed connects (connect_nonb.c,
    connect_timeo.c), and small ones on a descriptor (family_to_level.c,
    sockfd_to_family.c, sock_bind_wild.c, readable_timeo.c, writable_timeo.c).  The
    programs call udp_client, mcast_join and mcast_set_ttl.  The configuration is that of
    config.h: Linux, which has MCAST_JOIN_GROUP, with IPv6. *)

From S2P Require Export Kernel.

(** Constants of the platform (Linux). *)
Definition IPPROTO_IP : Z := 0.
Definition IPPROTO_IPV6 : Z := 41.
Definition IP_MULTICAST_IF : Z := 32.
Definition IP_MULTICAST_TTL : Z := 33.
Definition IP_MULTICAST_LOOP : Z := 34.
Definition IPV6_MULTICAST_IF : Z := 17.
Definition IPV6_MULTICAST_HOPS : Z := 18.
Definition IPV6_MULTICAST_LOOP : Z := 19.
Definition MCAST_JOIN_GROUP : Z := 42.
Definition MCAST_BLOCK_SOURCE : Z := 43.
Definition MCAST_UNBLOCK_SOURCE : Z := 44.
Definition MCAST_LEAVE_GROUP : Z := 45.
Definition MCAST_JOIN_SOURCE_GROUP : Z := 46.
Definition MCAST_LEAVE_SOURCE_GROUP : Z := 47.
Definition SO_ERROR : Z := 4.
Definition F_GETFL : Z := 3.
Definition F_SETFL : Z := 4.
Definition O_NONBLOCK : Z := 2048.
Definition EINPROGRESS : Z := 115.
Definition SIGALRM : Z := 14.
Definition AI_PASSIVE : Z := 1.
Definition AF_UNSPEC : Z := 0.

(** struct addrinfo *)
Record addrinfo := mk_ai {
  ai_family : Z;
  ai_socktype : Z;
  ai_protocol : Z;
  ai_addr : list Z
}.

(** The members of the hints that are not 0. *)
Record hints := mk_hints {
  hint_flags : Z;
  hint_family : Z;
  hint_socktype : Z
}.

(** * Sockets from names *)

Section names.
Context (ask : trace → call → Z).
(** [None] is an error. *)
Context (getaddrinfo : string → string → hints → option (list addrinfo)).

(** [do { ... } while ((res = res->ai_next) != NULL);]: the first address an attempt
    succeeds with. *)
Fixpoint try_addrs (attempt : addrinfo → M trace (option Z)) (res : list addrinfo) : M trace (option (Z * addrinfo)) :=
  match res with
  | [] => mret None
  | ai :: res' =>
      r ← attempt ai;
      match r with
      | Some sockfd => mret (Some (sockfd, ai))
      | None => try_addrs attempt res'
      end
  end.

(** getaddrinfo, the loop, and [if (res == NULL) err_sys(...)]; the loop looks at the
    first address before it tests for NULL. *)
Definition sock_of (host serv : string) (h : hints) (attempt : addrinfo → M trace (option Z)) : M trace (Z * addrinfo) :=
  match getaddrinfo host serv h with
  | None => exit 1
  | Some [] => undef NullDeref
  | Some res =>
      r ← try_addrs attempt res;
      match r with None => exit 1 | Some x => mret x end
  end.

Definition new_socket (ai : addrinfo) : M trace Z := try ask (Socket (ai_family ai) (ai_socktype ai) (ai_protocol ai)).

(** [if (connect(...) == 0) break; Close(sockfd);] *)
Definition connect_attempt (ai : addrinfo) : M trace (option Z) :=
  sockfd ← new_socket ai;
  if sockfd <? 0 then mret None
  else
    r ← try ask (Connect sockfd (Raw (ai_addr ai)));
    if r =? 0 then mret (Some sockfd) else need ask (Close sockfd);; mret None.

(** [if (bind(...) == 0) break; Close(sockfd);] *)
Definition bind_attempt (ai : addrinfo) : M trace (option Z) :=
  sockfd ← new_socket ai;
  if sockfd <? 0 then mret None
  else
    r ← try ask (Bind sockfd (Raw (ai_addr ai)));
    if r =? 0 then mret (Some sockfd) else need ask (Close sockfd);; mret None.

Definition listen_attempt (ai : addrinfo) : M trace (option Z) :=
  listenfd ← new_socket ai;
  if listenfd <? 0 then mret None
  else
    need ask (Setsockopt listenfd SOL_SOCKET SO_REUSEADDR ON);;
    r ← try ask (Bind listenfd (Raw (ai_addr ai)));
    if r =? 0 then mret (Some listenfd) else need ask (Close listenfd);; mret None.

Definition socket_attempt (ai : addrinfo) : M trace (option Z) :=
  sockfd ← new_socket ai; mret (if 0 <=? sockfd then Some sockfd else None).

Definition tcp_connect (host serv : string) : M trace Z :=
  '(sockfd, _) ← sock_of host serv (mk_hints 0 AF_UNSPEC SOCK_STREAM) connect_attempt; mret sockfd.

Definition udp_connect (host serv : string) : M trace Z :=
  '(sockfd, _) ← sock_of host serv (mk_hints 0 AF_UNSPEC SOCK_DGRAM) connect_attempt; mret sockfd.

(** The socket, and the length of its address. *)
Definition tcp_listen (host serv : string) : M trace (Z * Z) :=
  '(listenfd, ai) ← sock_of host serv (mk_hints AI_PASSIVE AF_UNSPEC SOCK_STREAM) listen_attempt;
  need ask (Listen listenfd LISTENQ);;
  mret (listenfd, Z.of_nat (length (ai_addr ai))).

Definition udp_server (host serv : string) : M trace (Z * Z) :=
  '(sockfd, ai) ← sock_of host serv (mk_hints AI_PASSIVE AF_UNSPEC SOCK_DGRAM) bind_attempt;
  mret (sockfd, Z.of_nat (length (ai_addr ai))).

(** The socket, and a copy of the address. *)
Definition udp_client (host serv : string) : M trace (Z * list Z) :=
  '(sockfd, ai) ← sock_of host serv (mk_hints 0 AF_UNSPEC SOCK_DGRAM) socket_attempt;
  mret (sockfd, ai_addr ai).
End names.

(** * One descriptor *)

Definition family_to_level (family : Z) : Z :=
  if family =? InetAddr.AF_INET then IPPROTO_IP
  else if family =? InetAddr.AF_INET6 then IPPROTO_IPV6
  else -1.

Section descriptor.
Context (ask : trace → call → Z).
(** The address [getsockname] leaves, as family and port; [errno]; which of the sets
    [select] leaves the descriptor in. *)
Context (name_family name_port errno : trace → Z) (isset : trace → bool).

Definition sockfd_to_family (sockfd : Z) : M trace Z :=
  r ← try ask (Getsockname sockfd);
  tr ← get;
  mret (if r <? 0 then -1 else name_family tr).

Definition sock_bind_wild (sockfd family : Z) : M trace Z :=
  if (family =? InetAddr.AF_INET) || (family =? InetAddr.AF_INET6) then
    r ← try ask (Bind sockfd (if family =? InetAddr.AF_INET then Inet (htons 0) (htonl 0)
                               else Raw (st16 InetAddr.AF_INET6 ++ replicate 26 0)));
    if r <? 0 then mret (-1)
    else
      r ← try ask (Getsockname sockfd);
      tr ← get;
      mret (if r <? 0 then -1 else name_port tr)
  else mret (-1).

Definition readable_timeo (fd : Z) : M trace Z := try ask (Select [fd]).
Definition writable_timeo (fd : Z) : M trace Z := try ask (Select [fd]).

(** [done:] *)
Definition connect_done (sockfd flags error : Z) : M trace Z :=
  need ask (Fcntl sockfd F_SETFL flags);;
  if error =? 0 then mret 0 else try ask (Close sockfd);; mret (-1).

Definition connect_nonb (sockfd : Z) (sa : list Z) : M trace Z :=
  flags ← need ask (Fcntl sockfd F_GETFL 0);
  need ask (Fcntl sockfd F_SETFL (Z.lor flags O_NONBLOCK));;
  n ← try ask (Connect sockfd (Raw sa));
  tr ← get;
  if (n <? 0) && negb (errno tr =? EINPROGRESS) then mret (-1)
  else if n =? 0 then connect_done sockfd flags 0
  else
    n ← need ask (Select [sockfd]);
    if n =? 0 then try ask (Close sockfd);; mret (-1)
    else
      tr ← get;
      if isset tr then
        error ← try ask (Getsockopt sockfd SOL_SOCKET SO_ERROR);
        if error <? 0 then mret (-1) else connect_done sockfd flags error
      else exit 1.

Definition connect_timeo (sockfd : Z) (sa : list Z) (nsec : Z) : M trace Z :=
  need ask (Signal SIGALRM);;
  try ask (Alarm nsec);;
  n ← try ask (Connect sockfd (Raw sa));
  when (n <? 0) (try ask (Close sockfd);; mret tt);;
  try ask (Alarm 0);;
  need ask (Signal SIGALRM);;
  mret n.

(** * Multicasting *)

(** Indexes and addresses of interfaces by name; 0 and [None] are failures. *)
Context (if_nametoindex : string → Z) (if_indextoname : Z → option string) (if_addr : string → option (list Z)).
(** What the parts of a structure hold that are not assigned. *)
Context (padding group_tail source_tail : list Z).

Definition sizeof_storage : nat := 128.

(** struct group_req and struct group_source_req: an index, 4 bytes of padding, and one
    or two structures sockaddr_storage. *)
Definition storage (sa tail : list Z) : list Z := sa ++ take (sizeof_storage - length sa) tail.
Definition group_req (ifindex : Z) (grp : list Z) : list Z := st32 ifindex ++ padding ++ storage grp group_tail.
Definition source_req (ifindex : Z) (src grp : list Z) : list Z :=
  st32 ifindex ++ padding ++ storage grp group_tail ++ storage src source_tail.

(** [if (ifindex > 0) ... else if (ifname != NULL) ... else ...] *)
Definition req_interface (ifname : option string) (ifindex : Z) : option Z :=
  if 0 <? ifindex then Some ifindex
  else match ifname with
       | Some name => if if_nametoindex name =? 0 then None else Some (if_nametoindex name)
       | None => Some 0
       end.

Definition fits_storage (sa : list Z) : bool := (length sa <=? sizeof_storage)%nat.

Definition set_group (sockfd option_ : Z) (grp : list Z) (ifindex : Z) : M trace Z :=
  if fits_storage grp then
    family ← SockAddr.sa_family grp;
    try ask (Setsockopt sockfd (family_to_level family) option_ (group_req ifindex grp))
  else mret (-1).

Definition set_source (sockfd option_ : Z) (src grp : list Z) (ifindex : Z) : M trace Z :=
  if fits_storage grp && fits_storage src then
    family ← SockAddr.sa_family grp;
    try ask (Setsockopt sockfd (family_to_level family) option_ (source_req ifindex src grp))
  else mret (-1).

Definition mcast_join (sockfd : Z) (grp : list Z) (ifname : option string) (ifindex : Z) : M trace Z :=
  match req_interface ifname ifindex with
  | None => mret (-1)
  | Some i => set_group sockfd MCAST_JOIN_GROUP grp i
  end.

Definition mcast_leave (sockfd : Z) (grp : list Z) : M trace Z := set_group sockfd MCAST_LEAVE_GROUP grp 0.

Definition mcast_join_source_group (sockfd : Z) (src grp : list Z) (ifname : option string) (ifindex : Z) : M trace Z :=
  match req_interface ifname ifindex with
  | None => mret (-1)
  | Some i => set_source sockfd MCAST_JOIN_SOURCE_GROUP src grp i
  end.

Definition mcast_leave_source_group (sockfd : Z) (src grp : list Z) : M trace Z :=
  set_source sockfd MCAST_LEAVE_SOURCE_GROUP src grp 0.
Definition mcast_block_source (sockfd : Z) (src grp : list Z) : M trace Z :=
  set_source sockfd MCAST_BLOCK_SOURCE src grp 0.
Definition mcast_unblock_source (sockfd : Z) (src grp : list Z) : M trace Z :=
  set_source sockfd MCAST_UNBLOCK_SOURCE src grp 0.

(** A switch on the family of a socket: -1 for other families. *)
Definition by_family {A} (sockfd : Z) (inet inet6 other : M trace A) : M trace A :=
  family ← sockfd_to_family sockfd;
  if family =? InetAddr.AF_INET then inet else if family =? InetAddr.AF_INET6 then inet6 else other.

(** [ttl] and [flag] are unsigned characters for IPv4. *)
Definition mcast_set_ttl (sockfd val : Z) : M trace Z :=
  by_family sockfd (try ask (Setsockopt sockfd IPPROTO_IP IP_MULTICAST_TTL [u8 val]))
    (try ask (Setsockopt sockfd IPPROTO_IPV6 IPV6_MULTICAST_HOPS (st32 val))) (mret (-1)).

Definition mcast_set_loop (sockfd onoff : Z) : M trace Z :=
  by_family sockfd (try ask (Setsockopt sockfd IPPROTO_IP IP_MULTICAST_LOOP [u8 onoff]))
    (try ask (Setsockopt sockfd IPPROTO_IPV6 IPV6_MULTICAST_LOOP (st32 onoff))) (mret (-1)).

(** The answer of [getsockopt] is the option, or negative. *)
Definition get_option (sockfd level option_ : Z) (cast : Z → Z) : M trace Z :=
  r ← try ask (Getsockopt sockfd level option_);
  mret (if r <? 0 then -1 else cast r).

Definition mcast_get_ttl (sockfd : Z) : M trace Z :=
  by_family sockfd (get_option sockfd IPPROTO_IP IP_MULTICAST_TTL u8)
    (get_option sockfd IPPROTO_IPV6 IPV6_MULTICAST_HOPS s32) (mret (-1)).

Definition mcast_get_loop (sockfd : Z) : M trace Z :=
  by_family sockfd (get_option sockfd IPPROTO_IP IP_MULTICAST_LOOP u8)
    (get_option sockfd IPPROTO_IPV6 IPV6_MULTICAST_LOOP s32) (mret (-1)).

Definition mcast_get_if (sockfd : Z) : M trace Z :=
  by_family sockfd (mret (-1)) (get_option sockfd IPPROTO_IPV6 IPV6_MULTICAST_IF s32) (mret (-1)).

(** SIOCGIFADDR of the interface, or any address. *)
Definition interface_addr (ifname : option string) (ifindex : Z) : option (list Z) :=
  if 0 <? ifindex then name ← if_indextoname ifindex; if_addr name
  else match ifname with Some name => if_addr name | None => Some (st32 (htonl 0)) end.

Definition mcast_set_if (sockfd : Z) (ifname : option string) (ifindex : Z) : M trace Z :=
  by_family sockfd
    (match interface_addr ifname ifindex with
     | None => mret (-1)
     | Some a => try ask (Setsockopt sockfd IPPROTO_IP IP_MULTICAST_IF a)
     end)
    (let idx := if ifindex =? 0 then match ifname with Some name => if_nametoindex name | None => 0 end else ifindex in
     if idx =? 0 then mret (-1) else try ask (Setsockopt sockfd IPPROTO_IPV6 IPV6_MULTICAST_IF (st32 idx)))
    (mret (-1)).
End descriptor.

(** * Descriptors *)

(** The sockets that are open after the calls of a trace. *)
Definition after_call (fds : gset Z) (e : call * Z) : gset Z :=
  match e with
  | (Socket _ _ _, r) => if 0 <=? r then {[r]} ∪ fds else fds
  | (Close fd, r) => if 0 <=? r then fds ∖ {[fd]} else fds
  | _ => fds
  end.
Definition descriptors (tr : trace) : gset Z := foldl after_call ∅ tr.

Lemma descriptors_snoc tr e : descriptors (tr ++ [e]) = after_call (descriptors tr) e.
Proof. unfold descriptors. by rewrite foldl_app. Qed.

(** [m] returns with one new socket open, [fd] of its result, or exits with code 1; it
    is undefined only when [bad]. *)
Definition opens_one {A} (bad : Prop) (fd : A → Z) (m : M trace A) : Prop := ∀ tr,
  match m tr with
  | Done x tr' => 0 ≤ fd x ∧ fd x ∉ descriptors tr ∧ descriptors tr' = {[fd x]} ∪ descriptors tr
  | Exited c _ => c = 1
  | Undefined _ => bad
  end.

(** An attempt opens a socket and returns it, or leaves the sockets as they were. *)
Definition attempts (attempt : addrinfo → M trace (option Z)) : Prop := ∀ ai tr,
  match attempt ai tr with
  | Done (Some fd) tr' => 0 ≤ fd ∧ fd ∉ descriptors tr ∧ descriptors tr' = {[fd]} ∪ descriptors tr
  | Done None tr' => descriptors tr' = descriptors tr
  | Exited c _ => c = 1
  | Undefined _ => False
  end.

Section one_socket.
Context (ask : trace → call → Z) (getaddrinfo : string → string → hints → option (list addrinfo)).
(** A new socket has a number that is not in use. *)
Context (Hfresh : ∀ tr d t p, 0 ≤ ask tr (Socket d t p) → ask tr (Socket d t p) ∉ descriptors tr).

Lemma try_addrs_opens attempt res tr :
  attempts attempt →
  match try_addrs attempt res tr with
  | Done (Some (fd, _)) tr' => 0 ≤ fd ∧ fd ∉ descriptors tr ∧ descriptors tr' = {[fd]} ∪ descriptors tr
  | Done None tr' => descriptors tr' = descriptors tr
  | Exited c _ => c = 1
  | Undefined _ => False
  end.
Proof.
  intros Ha. revert tr. induction res as [|ai res IH]; intros tr; [done|]. cbn [try_addrs]. unfold mbind, M_bind.
  specialize (Ha ai tr). destruct (attempt ai tr) as [[fd|] tr'|c tr'|u]; [done| |done..].
  specialize (IH tr'). by rewrite Ha in IH.
Qed.

Lemma sock_of_opens host serv h attempt :
  attempts attempt → opens_one (getaddrinfo host serv h = Some []) fst (sock_of getaddrinfo host serv h attempt).
Proof.
  intros Ha tr. unfold sock_of. destruct (getaddrinfo host serv h) as [[|ai res]|]; [done| |done].
  pose proof (try_addrs_opens attempt (ai :: res) tr Ha) as Hr. unfold mbind, M_bind.
  by destruct (try_addrs attempt (ai :: res) tr) as [[[fd ai']|] tr'|c tr'|u].
Qed.

Lemma opens_bind {A B} bad (fd : A → Z) (fd' : B → Z) (m : M trace A) (k : A → M trace B) :
  opens_one bad fd m →
  (∀ a tr, match k a tr with
           | Done b tr' => fd' b = fd a ∧ descriptors tr' = descriptors tr
           | Exited c _ => c = 1
           | Undefined _ => False
           end) →
  opens_one bad fd' (m ≫= k).
Proof.
  intros Hm Hk tr. unfold mbind, M_bind. specialize (Hm tr). destruct (m tr) as [a tr1|c tr1|u]; [|done..].
  specialize (Hk a tr1). destruct (k a tr1) as [b tr2|c tr2|u]; [|done..]. destruct Hk as [-> ->]. done.
Qed.

(** A socket that is closed again. *)
Lemma closed_again fd (fds : gset Z) : fd ∉ fds → ({[fd]} ∪ fds) ∖ {[fd]} = fds.
Proof. set_solver. Qed.

(** [if (c == 0) break; Close(fd);] with the new socket [fd] open. *)
Lemma attempt_end c fd tr tr1 :
  (∀ fds r, after_call fds (c, r) = fds) → 0 ≤ fd → fd ∉ descriptors tr → descriptors tr1 = {[fd]} ∪ descriptors tr →
  match (r ← try ask c; if r =? 0 then mret (Some fd) else need ask (Close fd);; mret (M:=M trace) None) tr1 with
  | Done (Some fd) tr' => 0 ≤ fd ∧ fd ∉ descriptors tr ∧ descriptors tr' = {[fd]} ∪ descriptors tr
  | Done None tr' => descriptors tr' = descriptors tr
  | Exited c _ => c = 1
  | Undefined _ => False
  end.
Proof.
  intros Hc H0 Hf H1. rewrite (bind_Done _ _ _ _ _ (try_run ask c tr1)). set (tr2 := tr1 ++ _).
  assert (H2 : descriptors tr2 = {[fd]} ∪ descriptors tr) by (unfold tr2; by rewrite descriptors_snoc, Hc).
  destruct (ask tr1 c =? 0); [done|]. unfold mbind, M_bind. rewrite need_unfold.
  destruct (Z.ltb_spec (ask tr2 (Close fd)) 0) as [|Hr]; [done|]. cbn [mret M_ret].
  rewrite descriptors_snoc, H2. cbn. destruct (Z.leb_spec 0 (ask tr2 (Close fd))); [|lia]. by apply closed_again.
Qed.

Lemma attempt_begin (k : Z → M trace (option Z)) ai :
  (∀ fd tr tr1, 0 ≤ fd → fd ∉ descriptors tr → descriptors tr1 = {[fd]} ∪ descriptors tr →
     match k fd tr1 with
     | Done (Some fd) tr' => 0 ≤ fd ∧ fd ∉ descriptors tr ∧ descriptors tr' = {[fd]} ∪ descriptors tr
     | Done None tr' => descriptors tr' = descriptors tr
     | Exited c _ => c = 1
     | Undefined _ => False
     end) → ∀ tr,
  match (sockfd ← new_socket ask ai; if sockfd <? 0 then mret None else k sockfd) tr with
  | Done (Some fd) tr' => 0 ≤ fd ∧ fd ∉ descriptors tr ∧ descriptors tr' = {[fd]} ∪ descriptors tr
  | Done None tr' => descriptors tr' = descriptors tr
  | Exited c _ => c = 1
  | Undefined _ => False
  end.
Proof.
  intros Hk tr. unfold new_socket. set (c := Socket _ _ _). pose proof (Hfresh tr _ _ _ : 0 ≤ ask tr c → _) as Hf.
  rewrite (bind_Done _ _ _ _ _ (try_run ask c tr)). destruct (Z.ltb_spec (ask tr c) 0) as [Hr|Hr].
  - cbn [mret M_ret]. rewrite descriptors_snoc. cbn. by destruct (Z.leb_spec 0 (ask tr c)); [lia|].
  - apply Hk; [done|by apply Hf|]. rewrite descriptors_snoc. cbn. by destruct (Z.leb_spec 0 (ask tr c)); [|lia].
Qed.

Lemma attempts_all :
  attempts (connect_attempt ask) ∧ attempts (bind_attempt ask) ∧ attempts (listen_attempt ask) ∧ attempts (socket_attempt ask).
Proof.
  split_and!; intros ai.
  - apply attempt_begin. intros fd tr tr1. by apply attempt_end.
  - apply attempt_begin. intros fd tr tr1. by apply attempt_end.
  - apply attempt_begin. intros fd tr tr1 H0 Hf H1. unfold mbind at 1, M_bind at 1. rewrite need_unfold.
    destruct (_ <? 0); [done|]. cbn [mret M_ret]. apply attempt_end; [done..|]. by rewrite descriptors_snoc.
  - intros tr. pose proof (attempt_begin (λ fd, mret (Some fd)) ai (λ fd t t1 H0 H1 H2, conj H0 (conj H1 H2)) tr) as Hb. revert Hb.
    unfold socket_attempt, new_socket, mbind, M_bind. rewrite try_run.
    destruct (Z.ltb_spec (ask tr (Socket (ai_family ai) (ai_socktype ai) (ai_protocol ai))) 0),
      (Z.leb_spec 0 (ask tr (Socket (ai_family ai) (ai_socktype ai) (ai_protocol ai)))); try lia; done.
Qed.

(** C37: The functions that make a socket from a name keep the descriptors in order: when
    one of them returns, exactly one more socket is open than before, the one it returns,
    and every socket of an address that did not work has been closed; a failure of all
    addresses, or of a call that is not expected to fail, ends the program with code 1.
    They are undefined only when getaddrinfo succeeds without an address. *)
Theorem names_open_one_socket (host serv : string) :
  opens_one (getaddrinfo host serv (mk_hints 0 AF_UNSPEC SOCK_STREAM) = Some []) id (tcp_connect ask getaddrinfo host serv) ∧
  opens_one (getaddrinfo host serv (mk_hints 0 AF_UNSPEC SOCK_DGRAM) = Some []) id (udp_connect ask getaddrinfo host serv) ∧
  opens_one (getaddrinfo host serv (mk_hints AI_PASSIVE AF_UNSPEC SOCK_STREAM) = Some []) fst (tcp_listen ask getaddrinfo host serv) ∧
  opens_one (getaddrinfo host serv (mk_hints AI_PASSIVE AF_UNSPEC SOCK_DGRAM) = Some []) fst (udp_server ask getaddrinfo host serv) ∧
  opens_one (getaddrinfo host serv (mk_hints 0 AF_UNSPEC SOCK_DGRAM) = Some []) fst (udp_client ask getaddrinfo host serv).
Proof.
  destruct attempts_all as (Hc & Hb & Hl & Hs). split_and!; (eapply opens_bind; [by apply sock_of_opens|]); intros [fd ai] tr.
  - done.
  - done.
  - unfold mbind, M_bind. rewrite need_unfold. destruct (_ <? 0); [done|]. cbn [mret M_ret]. by rewrite descriptors_snoc.
  - done.
  - done.
Qed.
End one_socket.

(** * Connecting *)

(** The calls for an address that does not work. *)
Definition refused (ai : addrinfo) (calls : trace) : Prop :=
  let s := Socket (ai_family ai) (ai_socktype ai) (ai_protocol ai) in
  (∃ r, r < 0 ∧ calls = [(s, r)]) ∨
  (∃ fd r z, 0 ≤ fd ∧ r ≠ 0 ∧ calls = [(s, fd); (Connect fd (Raw (ai_addr ai)), r); (Close fd, z)]).

(** [tcp_connect] and [udp_connect] try the addresses in the order of getaddrinfo: every
    address before the one they return a socket for was refused. *)
Theorem connects_to_first_address ask getaddrinfo (host serv : string) (h : hints) (tr : trace) :
  match sock_of getaddrinfo host serv h (connect_attempt ask) tr with
  | Done (fd, ai) tr' => ∃ before after segs,
      getaddrinfo host serv h = Some (before ++ ai :: after) ∧ Forall2 refused before segs ∧
      tr' = tr ++ concat segs ++ [(Socket (ai_family ai) (ai_socktype ai) (ai_protocol ai), fd); (Connect fd (Raw (ai_addr ai)), 0)]
  | _ => True
  end.
Proof.
  unfold sock_of. destruct (getaddrinfo host serv h) as [res|]; [|done].
  assert (Hloop : ∀ tr, match try_addrs (connect_attempt ask) res tr with
    | Done (Some (fd, ai)) tr' => ∃ before after segs, res = before ++ ai :: after ∧ Forall2 refused before segs ∧
        tr' = tr ++ concat segs ++ [(Socket (ai_family ai) (ai_socktype ai) (ai_protocol ai), fd); (Connect fd (Raw (ai_addr ai)), 0)]
    | _ => True end).
  { clear tr. induction res as [|ai res IH]; intros tr; [done|]. cbn [try_addrs].
    set (s := Socket (ai_family ai) (ai_socktype ai) (ai_protocol ai)).
    change (connect_attempt ask ai) with (sockfd ← try ask s; if sockfd <? 0 then mret None else
      (r ← try ask (Connect sockfd (Raw (ai_addr ai)));
       if r =? 0 then mret (Some sockfd) else need ask (Close sockfd);; mret (M:=M trace) None)).
    rewrite <- bind_assoc_M, (bind_Done _ _ _ _ _ (try_run ask s tr)).
    assert (Hnext : ∀ calls, refused ai calls → match try_addrs (connect_attempt ask) res (tr ++ calls) with
      | Done (Some (fd, ai')) tr' => ∃ before after segs, ai :: res = before ++ ai' :: after ∧ Forall2 refused before segs ∧
          tr' = tr ++ concat segs ++ [(Socket (ai_family ai') (ai_socktype ai') (ai_protocol ai'), fd); (Connect fd (Raw (ai_addr ai')), 0)]
      | _ => True end).
    { intros calls Hc. specialize (IH (tr ++ calls)).
      destruct (try_addrs _ _ _) as [[[fd ai']|] tr'|c tr'|u]; [|done..]. destruct IH as (b & a & segs & -> & Hb & ->).
      exists (ai :: b), a, (calls :: segs). split_and!; [done|by constructor|]. cbn [concat]. by rewrite <- !app_assoc. }
    destruct (Z.ltb_spec (ask tr s) 0) as [Hs|Hs]; [rewrite bind_ret; apply Hnext; left; by eexists|].
    rewrite <- bind_assoc_M, (bind_Done _ _ _ _ _ (try_run ask _ _)). set (fd := ask tr s) in *.
    match goal with |- context [ask ?t (Connect fd ?a)] => set (r := ask t (Connect fd a)) end.
    destruct (Z.eqb_spec r 0) as [Hr|Hr].
    - rewrite bind_ret. cbn [mret M_ret]. rewrite Hr. exists [], res, []. split_and!; [done|constructor|]. by rewrite <- app_assoc.
    - rewrite <- bind_assoc_M. unfold mbind at 1, M_bind at 1. rewrite need_unfold. destruct (_ <? 0); [done|]. cbn [mret M_ret].
      rewrite bind_ret, <- !app_assoc. apply Hnext. right. by eexists _, _, _. }
  destruct res as [|ai res]; [done|]. specialize (Hloop tr). revert Hloop. unfold mbind, M_bind.
  destruct (try_addrs _ _ tr) as [[[fd ai']|] tr'|c tr'|u]; [|done..].
  intros (b & a & segs & -> & Hseg & Htr). by exists b, a, segs.
Qed.

(** [connect_timeo] restores the alarm and the handler whatever [connect] says, and the
    descriptor is closed exactly when it returns a failure. *)
Theorem connect_timeo_cleans_up ask sockfd sa nsec (tr : trace) :
  match connect_timeo ask sockfd sa nsec tr with
  | Done n tr' => ∃ r1 r2 r3 r4 closing,
      tr' = tr ++ [(Signal SIGALRM, r1); (Alarm nsec, r2); (Connect sockfd (Raw sa), n)] ++ closing ++
            [(Alarm 0, r3); (Signal SIGALRM, r4)] ∧
      if n <? 0 then ∃ r, closing = [(Close sockfd, r)] else closing = []
  | Exited c _ => c = 1
  | Undefined _ => False
  end.
Proof.
  unfold connect_timeo. unfold mbind at 1, M_bind at 1. rewrite need_unfold. destruct (_ <? 0); [done|]. cbn [mret M_ret].
  do 2 rewrite (bind_Done _ _ _ _ _ (try_run ask _ _)).
  match goal with |- context [ask ?t (Connect ?fd ?a)] => set (n := ask t (Connect fd a)); set (t1 := t ++ [(Connect fd a, n)]) end.
  set (rest := try ask (Alarm 0);; need ask (Signal SIGALRM);; mret (M:=M trace) n).
  assert (Hend : ∀ t, match rest t with
    | Done n' t' => n' = n ∧ ∃ r3 r4, t' = t ++ [(Alarm 0, r3); (Signal SIGALRM, r4)]
    | Exited c _ => c = 1 | Undefined _ => False end).
  { intros t. unfold rest. rewrite (bind_Done _ _ _ _ _ (try_run ask _ _)). unfold mbind, M_bind. rewrite need_unfold.
    destruct (_ <? 0); [done|]. cbn [mret M_ret]. split; [done|]. eexists _, _. by rewrite <- app_assoc. }
  destruct (n <? 0) eqn:Hn; cbn [when].
  - rewrite <- bind_assoc_M, (bind_Done _ _ _ _ _ (try_run ask _ _)), bind_ret. specialize (Hend (t1 ++ [(Close sockfd, ask t1 (Close sockfd))])).
    destruct (rest _) as [n' t'|c t'|u]; [|done..]. destruct Hend as (-> & r3 & r4 & ->). rewrite Hn.
    eexists _, _, r3, r4, [(Close sockfd, ask t1 (Close sockfd))]. split; [|by eexists].
    unfold t1. by rewrite <- !app_assoc.
  - rewrite bind_ret. specialize (Hend t1). destruct (rest _) as [n' t'|c t'|u]; [|done..].
    destruct Hend as (-> & r3 & r4 & ->). rewrite Hn. eexists _, _, r3, r4, []. split; [|done]. unfold t1. by rewrite <- !app_assoc.
Qed.

(** How a non-blocking connect with the flags [flags] may end, by its last call. *)
Definition nonb_end (sockfd flags : Z) (r : res trace Z) : Prop :=
  match r with
  | Done r tr' => ∃ pre last, tr' = pre ++ [last] ∧
      match last with
      | (Fcntl fd cmd f, _) => r = 0 ∧ fd = sockfd ∧ cmd = F_SETFL ∧ f = flags
      | (Close fd, _) => r = -1 ∧ fd = sockfd
      | (Connect _ _, n) | (Getsockopt _ _ _, n) => r = -1 ∧ n < 0
      | _ => False
      end
  | Exited c _ => c = 1
  | Undefined _ => False
  end.

Section nonb.
Context (ask : trace → call → Z) (errno : trace → Z) (isset : trace → bool) (sockfd flags : Z).

Lemma nonb_need c (k : Z → M trace Z) t :
  (∀ t', nonb_end sockfd flags (k (ask t c) t')) → nonb_end sockfd flags ((need ask c ≫= k) t).
Proof. intros Hk. unfold mbind, M_bind. rewrite need_unfold. destruct (_ <? 0); [done|]. apply Hk. Qed.

Lemma connect_done_end error t : nonb_end sockfd flags (connect_done ask sockfd flags error t).
Proof.
  unfold connect_done. unfold mbind at 1, M_bind at 1. rewrite need_unfold. destruct (_ <? 0); [done|]. cbn [mret M_ret].
  destruct (error =? 0); [by eexists _, _|]. rewrite (bind_Done _ _ _ _ _ (try_run ask _ _)). by eexists _, _.
Qed.

Lemma nonb_wait_end t :
  nonb_end sockfd flags
    ((n ← need ask (Select [sockfd]);
      if n =? 0 then try ask (Close sockfd);; mret (-1)
      else
        tr ← get;
        if isset tr then
          error ← try ask (Getsockopt sockfd SOL_SOCKET SO_ERROR);
          if error <? 0 then mret (-1) else connect_done ask sockfd flags error
        else exit 1) t).
Proof.
  apply nonb_need. intros t'. destruct (_ =? 0).
  { rewrite (bind_Done _ _ _ _ _ (try_run ask _ _)). by eexists _, _. }
  rewrite bind_get. destruct (isset t'); [|done]. rewrite (bind_Done _ _ _ _ _ (try_run ask _ _)).
  destruct (Z.ltb_spec (ask t' (Getsockopt sockfd SOL_SOCKET SO_ERROR)) 0); [|apply connect_done_end].
  by eexists _, _.
Qed.
End nonb.

(** [connect_nonb] returns 0 when its last call restored the flags, and -1 in three ways:
    the descriptor is closed, or it is still open and non-blocking, after a [connect] or a
    [getsockopt] that failed. *)
Theorem connect_nonb_outcomes ask errno isset sockfd sa (tr : trace) :
  nonb_end sockfd (ask tr (Fcntl sockfd F_GETFL 0)) (connect_nonb ask errno isset sockfd sa tr).
Proof.
  set (flags := ask tr (Fcntl sockfd F_GETFL 0)). unfold connect_nonb. apply nonb_need. intros t. apply nonb_need. intros t'.
  rewrite (bind_Done _ _ _ _ _ (try_run ask _ _)), bind_get. fold flags. set (n := ask t' _). set (t1 := t' ++ _).
  assert (Hend : ∀ k, (∀ t, nonb_end sockfd flags (k t)) →
    nonb_end sockfd flags ((if n =? 0 then connect_done ask sockfd flags 0 else k) t1)).
  { intros k Hk. destruct (n =? 0); [apply connect_done_end|apply Hk]. }
  destruct (Z.ltb_spec n 0); [|apply Hend, nonb_wait_end]. cbn [andb].
  destruct (negb _); [by eexists _, _|apply Hend, nonb_wait_end].
Qed.

(** The flag of [mcast_set_loop] is cut to 8 bits for IPv4 and not for IPv6: 256 turns
    the loop off there and on here. *)
Theorem mcast_set_loop_cut ask family sockfd (tr : trace) :
  0 ≤ ask tr (Getsockname sockfd) →
  let tr1 := tr ++ [(Getsockname sockfd, ask tr (Getsockname sockfd))] in
  (family tr1 = InetAddr.AF_INET →
   ∃ r, mcast_set_loop ask family sockfd 256 tr = Done r (tr1 ++ [(Setsockopt sockfd IPPROTO_IP IP_MULTICAST_LOOP [0], r)])) ∧
  (family tr1 = InetAddr.AF_INET6 →
   ∃ r, mcast_set_loop ask family sockfd 256 tr =
        Done r (tr1 ++ [(Setsockopt sockfd IPPROTO_IPV6 IPV6_MULTICAST_LOOP [0; 1; 0; 0], r)])).
Proof.
  intros Hr tr1. assert (Hf : sockfd_to_family ask family sockfd tr = Done (family tr1) tr1).
  { unfold sockfd_to_family. rewrite (bind_Done _ _ _ _ _ (try_run ask _ _)), bind_get.
    by destruct (Z.ltb_spec (ask tr (Getsockname sockfd)) 0); [lia|]. }
  unfold mcast_set_loop, by_family. rewrite (bind_Done _ _ _ _ _ Hf). split; intros ->; by eexists.
Qed.

(** A kernel that hands out new numbers and serves every call. *)
Definition fresh_fds (tr : trace) (c : call) : Z :=
  match c with
  | Socket _ _ _ => 1 + foldr Z.max 2 (elements (descriptors tr))
  | _ => 0
  end.

Lemma foldr_max_bound l x : x ∈ l → x ≤ foldr Z.max 2 l.
Proof. induction l as [|y l IH]; [by intros ?%not_elem_of_nil|]. simpl. intros [->|H]%elem_of_cons; [lia|]. specialize (IH H). lia. Qed.

Lemma fresh_fds_ok tr d t p : 0 ≤ fresh_fds tr (Socket d t p) → fresh_fds tr (Socket d t p) ∉ descriptors tr.
Proof. intros _ Hin. apply elem_of_elements, foldr_max_bound in Hin. cbn in Hin. lia. Qed.

Definition one_address (host serv : string) (h : hints) : option (list addrinfo) :=
  Some [mk_ai InetAddr.AF_INET (hint_socktype h) 0 (quad_sa 127 0 0 1)].

Lemma names_open_one_socket_witness :
  ∃ tr, tcp_connect fresh_fds one_address "localhost" "echo" [] = Done 3 tr ∧ descriptors tr = {[3]} ∪ ∅.
Proof.
  destruct (names_open_one_socket fresh_fds one_address fresh_fds_ok "localhost" "echo") as [Hc _].
  specialize (Hc []). destruct (tcp_connect fresh_fds one_address "localhost" "echo" []) as [fd tr|c tr|u] eqn:Hr;
    [|vm_compute in Hr; discriminate Hr..].
  assert (Hfd : fd = 3) by (vm_compute in Hr; by injection Hr). subst. exists tr. split; [reflexivity|]. apply Hc.
Defined.
