(* ===== verification/AddrInfo.v ===== *)
(** The library's own getaddrinfo (unpv13e/libgai: getaddrinfo.c, ga_aistruct.c,
    ga_clone.c, ga_echeck.c, ga_nsearch.c, ga_port.c, ga_serv.c, ga_unix.c,
    freeaddrinfo.c), which it has for systems without one: the list of structures it
    builds in memory, and the list it stands for.  The constants are those of
    libgai/addrinfo.h; IPv4, IPv6 and UNIXdomain are defined. *)

From S2P Require Export SockAddr UnpSock Memory.

Definition AI_CANONNAME : Z := 2.
Definition AI_CLONE : Z := 4.
Definition EAI_ADDRFAMILY : Z := 1.
Definition EAI_AGAIN : Z := 2.
Definition EAI_BADFLAGS : Z := 3.
Definition EAI_FAIL : Z := 4.
Definition EAI_FAMILY : Z := 5.
Definition EAI_MEMORY : Z := 6.
Definition EAI_NODATA : Z := 7.
Definition EAI_NONAME : Z := 8.
Definition EAI_SERVICE : Z := 9.
Definition EAI_SOCKTYPE : Z := 10.
Definition EAI_SYSTEM : Z := 11.

(** [h_errno] (netdb.h). *)
Definition HOST_NOT_FOUND : Z := 1.
Definition TRY_AGAIN : Z := 2.
Definition NO_RECOVERY : Z := 3.
Definition NO_DATA : Z := 4.

(** struct addrinfo as it lies in memory; [None] is NULL. *)
Record ai_node := mk_ai_node {
  an_flags : Z;
  an_family : Z;
  an_socktype : Z;
  an_protocol : Z;
  an_addrlen : Z;
  an_canonname : option nat;
  an_addr : option nat;
  an_next : option nat
}.

(** The members of the hints that are not 0. *)
Record ga_hints := mk_ga_hints {
  h_flags : Z;
  h_family : Z;
  h_socktype : Z;
  h_protocol : Z
}.

(** struct hostent *)
Record hostent := mk_hostent {
  h_name : string;
  h_addrtype : Z;
  h_addr_list : list (list Z)
}.

(** * Memory *)

(** [malloc] and [calloc], which return NULL when there is no memory. *)
Class Heap := {
  malloc_at : mem ai_node → option nat;
  malloc_fresh : ∀ h a, malloc_at h = Some a → h !! a = None
}.

(** The memory, and the files that were unlinked. *)
Record world := mk_world { heap : mem ai_node; unlinked : list string }.

Definition on_heap {A} (m : M (mem ai_node) A) : M world A := λ w,
  match m (heap w) with
  | Done a h => Done a (mk_world h (unlinked w))
  | Exited c h => Exited c (mk_world h (unlinked w))
  | Undefined u => Undefined u
  end.

Definition node_at (a : nat) : M (mem ai_node) ai_node :=
  b ← block_at a; match b with Node n => mret n | _ => undef BadPointer end.
Definition bytes_at (a : nat) : M (mem ai_node) (list Z) :=
  b ← block_at a; match b with Bytes bs => mret bs | _ => undef BadPointer end.
Definition set_node (a : nat) (f : ai_node → ai_node) : M (mem ai_node) unit := n ← node_at a; set_block a (Node (f n)).

(** [bs] are written [off] bytes into the block at [p]. *)
Definition put_bytes (p : option nat) (off : nat) (bs : list Z) : M (mem ai_node) unit :=
  p ← of_opt NullDeref p; sa ← bytes_at p; sa ← put_field sa off bs; set_block p (Bytes sa).

Definition with_next (q : option nat) (n : ai_node) : ai_node :=
  mk_ai_node (an_flags n) (an_family n) (an_socktype n) (an_protocol n) (an_addrlen n) (an_canonname n) (an_addr n) q.
Definition with_addr (len : Z) (p : nat) (n : ai_node) : ai_node :=
  mk_ai_node (an_flags n) (an_family n) (an_socktype n) (an_protocol n) len (an_canonname n) (Some p) (an_next n).
Definition with_canon (c : option nat) (n : ai_node) : ai_node :=
  mk_ai_node (an_flags n) (an_family n) (an_socktype n) (an_protocol n) (an_addrlen n) c (an_addr n) (an_next n).
Definition with_socktype (t : Z) (n : ai_node) : ai_node :=
  mk_ai_node (an_flags n) (an_family n) t (an_protocol n) (an_addrlen n) (an_canonname n) (an_addr n) (an_next n).

Section gai.
Context `{Heap}.

Definition malloc (b : block ai_node) : M (mem ai_node) (option nat) :=
  h ← get;
  match malloc_at h with
  | None => mret None
  | Some a => modify (λ h, <[a := b]> h);; mret (Some a)
  end.

Definition zero_node : ai_node := mk_ai_node 0 0 0 0 0 None None None.
Definition calloc_node : M (mem ai_node) (option nat) := malloc (Node zero_node).
Definition strdup (s : string) : M (mem ai_node) (option nat) := malloc (Bytes (str_bytes s ++ [0])).

(** * ga_aistruct.c *)

(** The head of the list, and the pointer that is assigned next: to the head ([None]), or
    to the member [ai_next] of the last structure. *)
Record ai_list := mk_ai_list { aihead : option nat; aipnext : option nat }.

(** [**paipnext = ai; *paipnext = &ai->ai_next;] *)
Definition link_ai (l : ai_list) (ai : nat) : M (mem ai_node) ai_list :=
  match aipnext l with
  | None => mret (mk_ai_list (Some ai) (Some ai))
  | Some a => set_node a (with_next (Some ai));; mret (mk_ai_list (aihead l) (Some ai))
  end.

(** The members every structure gets. *)
Definition fill_node (hints : ga_hints) (family : Z) (n : ai_node) : ai_node :=
  mk_ai_node (if h_socktype hints =? 0 then Z.lor (an_flags n) AI_CLONE else an_flags n) family (h_socktype hints)
    (h_protocol hints) (an_addrlen n) (an_canonname n) (an_addr n) (an_next n).

(** A socket address of [size] bytes; [n] bytes of [addr] are copied to [off]. *)
Definition fill_addr (ai : nat) (family : Z) (size off : nat) (addr : list Z) (n : nat) : M (mem ai_node) Z :=
  r ← malloc (Bytes (replicate size 0));
  match r with
  | None => mret EAI_MEMORY
  | Some p =>
      put_bytes (Some p) 0 (st16 family);;
      bs ← field addr 0 n;
      put_bytes (Some p) off bs;;
      set_node ai (with_addr (Z.of_nat size) p);;
      mret 0
  end.

Definition sizeof_un : nat := 110.

(** The structure is linked and gets its members (the part ga_aistruct1 of the file). *)
Definition ga_aistruct1 (l : ai_list) (hints : ga_hints) (family : Z) : M (mem ai_node) (option (nat * ai_list)) :=
  r ← calloc_node;
  match r with
  | None => mret None
  | Some ai => l ← link_ai l ai; set_node ai (fill_node hints family);; mret (Some (ai, l))
  end.

(** [addr] is what the pointer points to: the bytes of an address, or a path. *)
Definition ga_aistruct (l : ai_list) (hints : ga_hints) (addr : list Z) (family : Z) : M world (Z * ai_list) :=
  r ← on_heap (ga_aistruct1 l hints family);
  match r with
  | None => mret (EAI_MEMORY, l)
  | Some (ai, l) =>
      rc ← (if family =? AF_INET then on_heap (fill_addr ai family 16 4 addr 4)
            else if family =? AF_INET6 then on_heap (fill_addr ai family 28 8 addr 16)
            else if family =? AF_LOCAL then
              path ← of_opt NoTerminator (dec_str addr);
              if (SUN_PATH <=? String.length path)%nat then mret EAI_SERVICE
              else
                rc ← on_heap (fill_addr ai family sizeof_un 2 addr (S (String.length path)));
                when ((rc =? 0) && negb (Z.land (h_flags hints) AI_PASSIVE =? 0))
                  (modify (λ w, mk_world (heap w) (unlinked w ++ [path])));;
                mret rc
            else mret 0);
      mret (rc, l)
  end.

(** * ga_clone.c *)

(** The new structure goes behind [ai] and gets its members; what [ai] holds then. *)
Definition clone_members (ai new : nat) : M (mem ai_node) ai_node :=
  n ← node_at ai; set_node new (with_next (an_next n));;
  set_node ai (with_next (Some new));;
  n ← node_at ai;
  set_node new (λ m, mk_ai_node 0 (an_family n) (an_socktype n) (an_protocol n) (an_addrlen n) None (an_addr m) (an_next m));;
  mret n.

Definition ga_clone (ai : nat) : M (mem ai_node) (option nat) :=
  r ← calloc_node;
  match r with
  | None => mret None
  | Some new =>
      n ← clone_members ai new;
      (* memcpy behind malloc, whose memory is all written *)
      r ← malloc (Bytes (replicate (Z.to_nat (an_addrlen n)) 0));
      match r with
      | None => mret None
      | Some p =>
          set_node new (with_addr (an_addrlen n) p);;
          src ← of_opt NullDeref (an_addr n);
          sa ← bytes_at src; bs ← field sa 0 (Z.to_nat (an_addrlen n));
          put_bytes (Some p) 0 bs;;
          mret (Some new)
      end
  end.

(** * ga_port.c *)

(** What the body of the loop makes of a structure. *)
Inductive port_turn :=
  | PortNone           (* ga_clone returned NULL *)
  | PortMismatch       (* continue *)
  | PortAt (ai : nat). (* the structure that gets the port *)

Definition find_entry (ai : nat) (socktype : Z) : M (mem ai_node) port_turn :=
  n ← node_at ai;
  if negb (Z.land (an_flags n) AI_CLONE =? 0) then
    if negb (an_socktype n =? 0) then
      r ← ga_clone ai; mret (match r with None => PortNone | Some new => PortAt new end)
    else mret (PortAt ai)
  else if negb (an_socktype n =? socktype) then mret PortMismatch
  else mret (PortAt ai).

(** [sin_port = port] and [sin6_port = port] store 16 bits; returns whether it did. *)
Definition set_port (ai : nat) (port socktype : Z) : M (mem ai_node) bool :=
  set_node ai (with_socktype socktype);;
  n ← node_at ai;
  if (an_family n =? AF_INET) || (an_family n =? AF_INET6) then put_bytes (an_addr n) 2 (st16 port);; mret true
  else mret false.

(** [None]: -1.  [nfound] counts structures in memory. *)
Fixpoint ga_port_loop (fuel : nat) (ai : option nat) (port socktype nfound : Z) : M (mem ai_node) (option Z) :=
  match ai with
  | None => mret (Some nfound)
  | Some a =>
      match fuel with
      | O => undef Diverges
      | S fuel' =>
          e ← find_entry a socktype;
          match e with
          | PortNone => mret None
          | PortMismatch => n ← node_at a; ga_port_loop fuel' (an_next n) port socktype nfound
          | PortAt a' =>
              b ← set_port a' port socktype;
              n ← node_at a';
              ga_port_loop fuel' (an_next n) port socktype (nfound + Z.b2z b)
          end
      end
  end.
Definition ga_port (aihead : option nat) (port socktype : Z) : M (mem ai_node) (option Z) :=
  h ← get; ga_port_loop (size h) aihead port socktype 0.

(** * ga_serv.c *)

Definition isdigit (c : ascii) : bool := bool_decide (is_Some (strchr digits c)).
Definition isxdigit (c : ascii) : bool := bool_decide (is_Some (xdigit c)).
(** [c[0]], 0 at the end of the string. *)
Definition head_char (s : string) : ascii := match s with EmptyString => Ascii.zero | String c _ => c end.

(** [atoi]: undefined for a number that is no [int]. *)
Definition atoi {St} (s : string) : M St Z :=
  match scan_d s with
  | Some (z, _) => int_op z
  | None => mret 0
  end.

(** [s_port] of the entry of a service and a protocol, in network byte order. *)
Context (getservbyname : string → string → option Z).

(** [if ((rc = ga_port(...)) < 0) return(EAI_MEMORY); nfound += rc;] for the socket types
    and ports of a list: [None] is the return. *)
Fixpoint port_all (aihead : option nat) (ports : list (Z * Z)) (nfound : Z) : M (mem ai_node) (option Z) :=
  match ports with
  | [] => mret (Some nfound)
  | (port, socktype) :: ports' =>
      r ← ga_port aihead port socktype;
      match r with
      | None => mret None
      | Some rc => port_all aihead ports' (nfound + rc)
      end
  end.

(** The calls of ga_port: ports and socket types. *)
Definition serv_ports (hints : ga_hints) (serv : string) : M unit (list (Z * Z)) :=
  if isdigit (head_char serv) then
    z ← atoi serv;
    let port := htons z in
    mret (if negb (h_socktype hints =? 0) then [(port, h_socktype hints)]
          else [(port, SOCK_STREAM); (port, SOCK_DGRAM)])
  else
    mret ((if (h_socktype hints =? 0) || (h_socktype hints =? SOCK_STREAM) then
             match getservbyname serv "tcp" with Some port => [(port, SOCK_STREAM)] | None => [] end else []) ++
          (if (h_socktype hints =? 0) || (h_socktype hints =? SOCK_DGRAM) then
             match getservbyname serv "udp" with Some port => [(port, SOCK_DGRAM)] | None => [] end else [])).

Definition ga_serv (aihead : option nat) (hints : ga_hints) (serv : string) : M (mem ai_node) Z :=
  ports ← lift (serv_ports hints serv);
  r ← port_all aihead ports 0;
  mret (match r with
        | None => EAI_MEMORY
        | Some nfound =>
            if nfound =? 0 then (if h_socktype hints =? 0 then EAI_NONAME else EAI_SERVICE) else 0
        end).

(** * ga_echeck.c, ga_nsearch.c *)

(** A name that was given: neither NULL nor empty. *)
Definition given (s : option string) : bool :=
  match s with None => false | Some s => negb (streq s EmptyString) end.

Definition ga_echeck (hostname servname : option string) (flags family socktype : Z) : Z :=
  if negb (Z.land flags (Z.lnot (Z.lor AI_PASSIVE AI_CANONNAME)) =? 0) then EAI_BADFLAGS
  else if negb (given hostname) && negb (given servname) then EAI_NONAME
  else if family =? AF_UNSPEC then 0
  else if (family =? AF_INET) || (family =? AF_INET6) then
    if negb (socktype =? 0) && (negb (socktype =? SOCK_STREAM) && negb (socktype =? SOCK_DGRAM) && negb (socktype =? SOCK_RAW))
    then EAI_SOCKTYPE else 0
  else if family =? AF_LOCAL then
    if negb (socktype =? 0) && (negb (socktype =? SOCK_STREAM) && negb (socktype =? SOCK_DGRAM))
    then EAI_SOCKTYPE else 0
  else EAI_FAMILY.

(** [search[]]: names with the families to look them up in; [err_quit] ends the program. *)
Definition ga_nsearch (hostname : option string) (hints : ga_hints) : M unit (list (string * Z)) :=
  let passive := negb (Z.land (h_flags hints) AI_PASSIVE =? 0) in
  let host4 := if given hostname then default EmptyString hostname else if passive then "0.0.0.0"%string else "localhost"%string in
  let host6 := if given hostname then default EmptyString hostname else if passive then "0::0"%string else "0::1"%string in
  let search :=
    if h_family hints =? AF_INET then [(host4, AF_INET)]
    else if h_family hints =? AF_INET6 then [(host6, AF_INET6)]
    else if h_family hints =? AF_UNSPEC then [(host6, AF_INET6); (host4, AF_INET)]
    else [] in
  if ((length search <? 1) || (2 <? length search))%nat then exit 1 else mret search.

(** * freeaddrinfo.c *)

(** [for (ai = aihead; ai != NULL; ai = ainext)] *)
Fixpoint freeaddrinfo_loop (fuel : nat) (ai : option nat) : M (mem ai_node) unit :=
  match ai with
  | None => mret tt
  | Some a =>
      match fuel with
      | O => undef Diverges
      | S fuel' =>
          n ← node_at a; when (bool_decide (is_Some (an_addr n))) (free_block (an_addr n));;
          n ← node_at a; when (bool_decide (is_Some (an_canonname n))) (free_block (an_canonname n));;
          n ← node_at a;
          free_block (Some a);;
          freeaddrinfo_loop fuel' (an_next n)
      end
  end.
Definition freeaddrinfo (aihead : option nat) : M (mem ai_node) unit := h ← get; freeaddrinfo_loop (size h) aihead.

(** * ga_unix.c *)

(** [uname]: the name of the node, [None] when it fails. *)
Context (nodename : option string).

(** From the second call of ga_aistruct on: the error, and [*result] when there is none. *)
Definition unix_last (path : string) (hints : ga_hints) (l : ai_list) : M world (Z * option nat) :=
  '(rc, l) ← ga_aistruct l hints (str_bytes path ++ [0]) AF_LOCAL;
  if negb (rc =? 0) then mret (rc, None)
  else if negb (Z.land (h_flags hints) AI_CANONNAME =? 0) then
    match nodename with
    | None => mret (EAI_SYSTEM, None)
    | Some name =>
        c ← on_heap (strdup name);
        head ← of_opt NullDeref (aihead l);
        on_heap (set_node head (with_canon c));;
        mret (match c with None => (EAI_MEMORY, None) | Some _ => (0, aihead l) end)
    end
  else mret (0, aihead l).

Definition with_type (t : Z) (hints : ga_hints) : ga_hints :=
  mk_ga_hints (h_flags hints) (h_family hints) t (h_protocol hints).

Definition ga_unix (path : string) (hints : ga_hints) : M world (Z * option nat) :=
  let l := mk_ai_list None None in
  if negb (h_family hints =? AF_UNSPEC) && negb (h_family hints =? AF_LOCAL) then mret (EAI_ADDRFAMILY, None)
  else if h_socktype hints =? 0 then
    '(rc, l) ← ga_aistruct l (with_type SOCK_STREAM hints) (str_bytes path ++ [0]) AF_LOCAL;
    if negb (rc =? 0) then mret (rc, None) else unix_last path (with_type SOCK_DGRAM hints) l
  else unix_last path hints l.

(** * getaddrinfo.c *)

(** [gethostbyname2(host, family)], and [gethostbyname(host)] with or without the option
    RES_USE_INET6: a struct hostent, or [h_errno]. *)
Context (gethostbyname2 : string → Z → hostent + Z) (gethostbyname : bool → string → hostent + Z).

(** A name that is the text of an address: its family and the address. *)
Definition numeric (host : string) : M unit (option (Z * list Z)) :=
  r4 ← (if isdigit (head_char host) then inet_pton AF_INET host (replicate 4 0) else mret (0, []));
  if r4.1 =? 1 then mret (Some (AF_INET, r4.2))
  else
    r6 ← (if (isxdigit (head_char host) || Ascii.eqb (head_char host) ":") && bool_decide (is_Some (strchr host ":"))
          then inet_pton AF_INET6 host (replicate 16 0) else mret (0, []));
    mret (if r6.1 =? 1 then Some (AF_INET6, r6.2) else None).

(** The resolver, asked as the number of searches demands. *)
Definition look_up (nsearch : nat) (host : string) (family : Z) : hostent + Z :=
  if (nsearch =? 2)%nat then gethostbyname2 host family else gethostbyname (family =? AF_INET6) host.

Definition host_error (h_errno : Z) : Z :=
  if h_errno =? HOST_NOT_FOUND then EAI_NONAME
  else if h_errno =? TRY_AGAIN then EAI_AGAIN
  else if h_errno =? NO_RECOVERY then EAI_FAIL
  else if h_errno =? NO_DATA then EAI_NODATA
  else EAI_NONAME.

(** One structure for each address. *)
Fixpoint add_addrs (l : ai_list) (hints : ga_hints) (family : Z) (addrs : list (list Z)) : M world (Z * ai_list) :=
  match addrs with
  | [] => mret (0, l)
  | addr :: addrs' =>
      '(rc, l) ← ga_aistruct l hints addr family;
      if negb (rc =? 0) then mret (rc, l) else add_addrs l hints family addrs'
  end.

(** The variables of the loop: the list, and [canon]. *)
Record ga_vars := mk_vars { the_list : ai_list; canon : option nat }.

Definition canon_wanted (hostname : option string) (hints : ga_hints) : bool :=
  given hostname && negb (Z.land (h_flags hints) AI_CANONNAME =? 0).

(** One turn of the loop; not 0: [goto bad] with that error. *)
Definition search_one (nsearch : nat) (hostname : option string) (hints : ga_hints) (host : string) (family : Z)
    (v : ga_vars) : M world (Z * ga_vars) :=
  num ← lift (numeric host);
  match num with
  | Some (f, addr) =>
      if negb (h_family hints =? AF_UNSPEC) && negb (h_family hints =? f) then mret (EAI_ADDRFAMILY, v)
      else if negb (family =? f) then mret (0, v)
      else '(rc, l) ← ga_aistruct (the_list v) hints addr f; mret (rc, mk_vars l (canon v))
  | None =>
      match look_up nsearch host family with
      | inr h_errno => mret (if (nsearch =? 2)%nat then 0 else host_error h_errno, v)
      | inl hptr =>
          if negb (h_family hints =? AF_UNSPEC) && negb (h_family hints =? h_addrtype hptr) then mret (EAI_ADDRFAMILY, v)
          else
            '(rc, c) ← (if canon_wanted hostname hints && bool_decide (canon v = None) then
                          c ← on_heap (strdup (h_name hptr)); mret (if bool_decide (c = None) then EAI_MEMORY else 0, c)
                        else mret (0, canon v));
            if negb (rc =? 0) then mret (rc, mk_vars (the_list v) c)
            else
              '(rc, l) ← add_addrs (the_list v) hints (h_addrtype hptr) (h_addr_list hptr);
              mret (rc, mk_vars l c)
      end
  end.

Fixpoint search_all (nsearch : nat) (hostname : option string) (hints : ga_hints) (search : list (string * Z))
    (v : ga_vars) : M world (Z * ga_vars) :=
  match search with
  | [] => mret (0, v)
  | (host, family) :: search' =>
      '(rc, v) ← search_one nsearch hostname hints host family v;
      if negb (rc =? 0) then mret (rc, v) else search_all nsearch hostname hints search' v
  end.

(** [bad:] *)
Definition bad (v : ga_vars) (error : Z) : M world (Z * option nat) :=
  on_heap (freeaddrinfo (aihead (the_list v)));; mret (error, None).

(** Behind the loop: the canonical name, and the service. *)
Definition name_head (hostname : option string) (hints : ga_hints) (search : list (string * Z)) (head : nat)
    (c : option nat) : M world Z :=
  if canon_wanted hostname hints then
    match c with
    | Some _ => on_heap (set_node head (with_canon c));; mret 0
    | None =>
        host ← of_opt OutOfBounds (fst <$> search !! 0%nat);
        c ← on_heap (strdup host);
        on_heap (set_node head (with_canon c));;
        mret (if bool_decide (c = None) then EAI_MEMORY else 0)
    end
  else mret 0.

Definition is_unix (hostname servname : option string) : option string :=
  match hostname, servname with
  | Some h, Some s =>
      if (streq h "/local" || streq h "/unix") && Ascii.eqb (head_char s) "/" then Some s else None
  | _, _ => None
  end.

Definition getaddrinfo (hostname servname : option string) (hintsp : option ga_hints) : M world (Z * option nat) :=
  let hints := default (mk_ga_hints 0 AF_UNSPEC 0 0) hintsp in
  let rc := ga_echeck hostname servname (h_flags hints) (h_family hints) (h_socktype hints) in
  if negb (rc =? 0) then bad (mk_vars (mk_ai_list None None) None) rc
  else
    match is_unix hostname servname with
    | Some path => ga_unix path hints
    | None =>
        search ← lift (ga_nsearch hostname hints);
        '(rc, v) ← search_all (length search) hostname hints search (mk_vars (mk_ai_list None None) None);
        if negb (rc =? 0) then bad v rc
        else
          match aihead (the_list v) with
          | None => bad v EAI_NONAME
          | Some head =>
              rc ← name_head hostname hints search head (canon v);
              if negb (rc =? 0) then bad v rc
              else
                rc ← (if given servname then on_heap (ga_serv (Some head) hints (default EmptyString servname)) else mret 0);
                if negb (rc =? 0) then bad v rc else mret (0, Some head)
          end
    end.
End gai.

(** * The list a head stands for *)

(** A structure with the socket address and the name it owns. *)
Record entry := mk_entry {
  e_flags : Z;
  e_family : Z;
  e_socktype : Z;
  e_protocol : Z;
  e_addrlen : Z;
  e_addr : option (list Z);
  e_canon : option string
}.

Definition cstr (s : string) : list Z := str_bytes s ++ [0].

Definition ai_block (e : entry) (ps : list (option nat)) (nx : option nat) : block ai_node :=
  Node (mk_ai_node (e_flags e) (e_family e) (e_socktype e) (e_protocol e) (e_addrlen e) (mjoin (ps !! 1%nat))
    (mjoin (ps !! 0%nat)) nx).
Definition ai_fields (e : entry) : list (option (list Z)) := [e_addr e; cstr <$> e_canon e].

(** The structures of [l], linked from [head], are the blocks of [m]. *)
Definition ai_in (l : list entry) (head : option nat) (m : mem ai_node) : Prop := seg ai_block ai_fields l head None m.
Definition ai_opened (l : list entry) (v : ai_list) (m : mem ai_node) : Prop :=
  opened ai_block ai_fields l (aihead v) (aipnext v) m.
Abbreviation ai_cell := (cell ai_block ai_fields).

Definition e_with_socktype (t : Z) (e : entry) : entry :=
  mk_entry (e_flags e) (e_family e) t (e_protocol e) (e_addrlen e) (e_addr e) (e_canon e).
Definition e_with_addr (len : Z) (bs : list Z) (e : entry) : entry :=
  mk_entry (e_flags e) (e_family e) (e_socktype e) (e_protocol e) len (Some bs) (e_canon e).
Definition e_with_canon (s : string) (e : entry) : entry :=
  mk_entry (e_flags e) (e_family e) (e_socktype e) (e_protocol e) (e_addrlen e) (e_addr e) (Some s).

(** The structure of an address whose socket address is [sa]. *)
Definition entry_of (hints : ga_hints) (family : Z) (sa : list Z) : entry :=
  mk_entry (if h_socktype hints =? 0 then AI_CLONE else 0) family (h_socktype hints) (h_protocol hints)
    (Z.of_nat (length sa)) (Some sa) None.

(** The socket address of an address, before it has a port. *)
Definition sockaddr_of (family : Z) (addr : list Z) : list Z :=
  if family =? AF_INET then st16 AF_INET ++ replicate 2 0 ++ take 4 addr ++ replicate 8 0
  else st16 AF_INET6 ++ replicate 6 0 ++ take 16 addr ++ replicate 4 0.

(** * Steps on the memory *)

Lemma on_heap_run {A} (m : M (mem ai_node) A) a h h' u :
  m h = Done a h' → on_heap m (mk_world h u) = Done a (mk_world h' u).
Proof. unfold on_heap. simpl. by intros ->. Qed.

Lemma node_at_run a n (h : mem ai_node) : h !! a = Some (Node n) → node_at a h = Done n h.
Proof. intros Ha. unfold node_at. by rewrite (bind_Done _ _ _ _ _ (block_at_run a _ h Ha)). Qed.

Lemma set_node_run a f n (h : mem ai_node) : h !! a = Some (Node n) → set_node a f h = Done tt (<[a := Node (f n)]> h).
Proof.
  intros Ha. unfold set_node. rewrite (bind_Done _ _ _ _ _ (node_at_run a n h Ha)). by apply (set_block_run a (Node n)).
Qed.

Lemma put_field_old {St} off new (sa : list Z) (s : St) :
  (off + length new ≤ length sa)%nat →
  put_field sa off new s = Done (take off sa ++ new ++ drop (off + length new) sa) s.
Proof. intros Hl. unfold put_field. by destruct (Nat.leb_spec (off + length new) (length sa)); [|lia]. Qed.

Lemma put_bytes_run p off new sa (h : mem ai_node) :
  h !! p = Some (Bytes sa) → (off + length new ≤ length sa)%nat →
  put_bytes (Some p) off new h = Done tt (<[p := Bytes (take off sa ++ new ++ drop (off + length new) sa)]> h).
Proof.
  intros Hp Hl. unfold put_bytes. change (of_opt NullDeref (Some p)) with (mret (M := M (mem ai_node)) p). rewrite bind_ret.
  assert (Hb : bytes_at p h = Done sa h) by (unfold bytes_at; by rewrite (bind_Done _ _ _ _ _ (block_at_run p _ h Hp))).
  rewrite (bind_Done _ _ _ _ _ Hb), (bind_Done _ _ _ _ _ (put_field_old off new sa h Hl)). by apply (set_block_run p (Bytes sa)).
Qed.

Section cells.
Context (x : entry) (a : nat) (q : option nat) (c h : mem ai_node).
Context (Hc : ai_cell x a q c).

(** The node of a structure. *)
Definition node_of (x : entry) (pa pc q : option nat) : ai_node :=
  mk_ai_node (e_flags x) (e_family x) (e_socktype x) (e_protocol x) (e_addrlen x) pc pa q.

Lemma cell_inv :
  ∃ pa pc mf, owns (ai_fields x) [pa; pc] mf ∧ mf !! a = None ∧ c = <[a := Node (node_of x pa pc q)]> mf ∧
    (c ∪ h) !! a = Some (Node (node_of x pa pc q)) ∧ (e_canon x = None → pc = None).
Proof.
  destruct Hc as (ps & mf & Ho & Ha & ->). unfold ai_fields in Ho.
  destruct (owns_inv _ _ _ _ Ho) as (pa & ps' & ->).
  assert (∃ pc, ps' = [pc]) as [pc ->].
  { inversion Ho as [|fs ps m Ho'|fs ps m b bs Ho' _]; subst; destruct (owns_inv _ _ _ _ Ho') as (pc & ps2 & ->);
      exists pc; f_equal; inversion Ho' as [|? ? ? Ho2|? ? ? ? ? Ho2 ?]; subst; by destruct (owns_nil_inv _ _ Ho2). }
  exists pa, pc, mf. split_and!; try done; [by rewrite <- insert_union_l, lookup_insert_eq|].
  intros Hx. rewrite Hx in Ho. inversion Ho as [|fs ps m Ho'|fs ps m b bs Ho' _]; subst; by inversion Ho'.
Qed.

(** Where the socket address of a structure is. *)
Lemma cell_lookup sa :
  e_addr x = Some sa → ∃ p pc, c !! a = Some (Node (node_of x (Some p) pc q)) ∧ c !! p = Some (Bytes sa).
Proof.
  intros Hx. destruct cell_inv as (pa & pc & mf & Ho & Ha & -> & _). unfold ai_fields in Ho. rewrite Hx in Ho.
  inversion Ho as [| |fs ps mf' p bs Ho' Hp]; subst. apply lookup_insert_None in Ha as [_ Hne].
  exists p, pc. by rewrite lookup_insert_eq, lookup_insert_ne, lookup_insert_eq.
Qed.

Lemma cell_node : ∃ pa pc, node_at a (c ∪ h) = Done (node_of x pa pc q) (c ∪ h).
Proof. destruct cell_inv as (pa & pc & mf & _ & _ & _ & Hl & _). exists pa, pc. by apply node_at_run. Qed.

Context (Hd : c ##ₘ h).

(** A change of members that are no pointers to blocks. *)
Lemma cell_set f x' q' :
  (∀ pa pc, (e_canon x = None → pc = None) → f (node_of x pa pc q) = node_of x' pa pc q') → ai_fields x' = ai_fields x →
  ∃ c', set_node a f (c ∪ h) = Done tt (c' ∪ h) ∧ ai_cell x' a q' c' ∧ c' ##ₘ h.
Proof.
  intros Hf Hfields. destruct cell_inv as (pa & pc & mf & Ho & Ha & Hceq & Hl & Hpc). exists (<[a := ai_block x' [pa; pc] q']> mf).
  rewrite (set_node_run _ _ _ _ Hl), Hf by done. split_and!.
  - by rewrite Hceq, <- !insert_union_l, insert_insert_eq.
  - exists [pa; pc], mf. by rewrite Hfields.
  - rewrite Hceq in Hd. apply map_disjoint_insert_l in Hd as [? ?]. by apply map_disjoint_insert_l.
Qed.

(** A new block becomes the socket address. *)
Lemma cell_adopt_addr p bs len :
  e_addr x = None → (c ∪ h) !! p = None →
  ∃ c', set_node a (with_addr len p) (<[p := Bytes bs]> (c ∪ h)) = Done tt (c' ∪ h) ∧
        ai_cell (e_with_addr len bs x) a q c' ∧ c' ##ₘ h ∧ c' !! p = Some (Bytes bs) ∧
        ∀ bs', ai_cell (e_with_addr len bs' x) a q (<[p := Bytes bs']> c').
Proof.
  intros Hx Hp. destruct cell_inv as (pa & pc & mf & Ho & Ha & Hceq & Hl & Hnull).
  apply lookup_union_None in Hp as [Hpc Hph]. rewrite Hceq in Hpc, Hd. apply lookup_insert_None in Hpc as [Hpm Hpa].
  apply map_disjoint_insert_l in Hd as [Hah Hmh]. unfold ai_fields in Ho. rewrite Hx in Ho.
  inversion Ho as [|fs ps m Ho'|]; subst. exists (<[a := Node (node_of (e_with_addr len bs x) (Some p) pc q)]> (<[p := Bytes bs]> mf)).
  split_and!.
  - rewrite (set_node_run _ _ (node_of x None pc q)).
    + rewrite <- !insert_union_l. rewrite (insert_insert_ne _ p a), insert_insert_eq by done. done.
    + by rewrite lookup_insert_ne.
  - exists [Some p; pc], (<[p := Bytes bs]> mf). split_and!; [by constructor|by rewrite lookup_insert_ne|done].
  - rewrite !map_disjoint_insert_l. done.
  - by rewrite lookup_insert_ne, lookup_insert_eq.
  - intros bs'. exists [Some p; pc], (<[p := Bytes bs']> mf). split_and!; [by constructor|by rewrite lookup_insert_ne|].
    by rewrite insert_insert_ne, insert_insert_eq.
Qed.

(** A block becomes the canonical name. *)
Lemma cell_adopt_canon p s :
  e_canon x = None → (c ∪ h) !! p = None →
  ∃ c', set_node a (with_canon (Some p)) (c ∪ <[p := Bytes (cstr s)]> h) = Done tt (c' ∪ h) ∧
        ai_cell (e_with_canon s x) a q c' ∧ c' ##ₘ h.
Proof.
  intros Hx Hp. destruct cell_inv as (pa & pc & mf & Ho & Ha & Hceq & Hl & Hnull).
  apply lookup_union_None in Hp as [Hpc Hph]. rewrite <- insert_union_r by done.
  rewrite Hceq in Hpc, Hd. apply lookup_insert_None in Hpc as [Hpm Hpa].
  apply map_disjoint_insert_l in Hd as [Hah Hmh]. unfold ai_fields in Ho. rewrite Hx in Ho.
  exists (<[a := Node (node_of (e_with_canon s x) pa (Some p) q)]> (<[p := Bytes (cstr s)]> mf)).
  rewrite (Hnull Hx) in *.
  split_and!.
  - rewrite (set_node_run _ _ (node_of x pa None q)) by (by rewrite lookup_insert_ne).
    subst c. rewrite <- !insert_union_l, (insert_insert_ne _ p a), insert_insert_eq by done. done.
  - exists [pa; Some p], (<[p := Bytes (cstr s)]> mf). split_and!; [|by rewrite lookup_insert_ne|done].
    unfold ai_fields. cbn [e_with_canon e_addr e_canon fmap option_fmap option_map].
    inversion Ho as [|fs ps m Ho' Ef Ep Em|fs ps m b bs Ho' Hb]; subst.
    + constructor. inversion Ho'; subst. by constructor.
    + inversion Ho' as [|fs ps m' Ho2|]; subst. apply lookup_insert_None in Hpm as [Hpm Hne].
      rewrite insert_insert_ne by done. constructor; [by constructor|by rewrite lookup_insert_ne].
  - rewrite !map_disjoint_insert_l. done.
Qed.

(** Bytes of the socket address are overwritten. *)
Lemma cell_put sa off new :
  e_addr x = Some sa → (off + length new ≤ length sa)%nat →
  ∃ pa pc c', node_at a (c ∪ h) = Done (node_of x pa pc q) (c ∪ h) ∧
    put_bytes pa off new (c ∪ h) = Done tt (c' ∪ h) ∧
    ai_cell (e_with_addr (e_addrlen x) (take off sa ++ new ++ drop (off + length new) sa) x) a q c' ∧ c' ##ₘ h.
Proof.
  intros Hx Hlen. destruct cell_inv as (pa & pc & mf & Ho & Ha & Hceq & Hl & Hnull).
  set (sa' := take off sa ++ new ++ drop (off + length new) sa).
  unfold ai_fields in Ho. rewrite Hx in Ho. inversion Ho as [| |fs ps mf' p bs Ho' Hp]; subst.
  apply lookup_insert_None in Ha as [Ha Hne]. apply map_disjoint_insert_l in Hd as [Hah Hmh].
  apply map_disjoint_insert_l in Hmh as [Hph Hmh].
  exists (Some p), pc, (<[a := Node (node_of (e_with_addr (e_addrlen x) sa' x) (Some p) pc q)]> (<[p := Bytes sa']> mf')).
  split_and!.
  - by apply node_at_run.
  - rewrite (put_bytes_run p off new sa); [|by rewrite <- !insert_union_l, lookup_insert_ne, lookup_insert_eq|done].
    fold sa'. rewrite <- !insert_union_l, (insert_insert_ne _ p a), insert_insert_eq by done. done.
  - exists [Some p; pc], (<[p := Bytes sa']> mf'). split_and!; [by constructor|by rewrite lookup_insert_ne|done].
  - rewrite !map_disjoint_insert_l. done.
Qed.
End cells.

(** * Building a structure *)

Section building.
Context `{Heap}.

(** An allocation that fails somewhere. *)
Definition nomem : Prop := ∃ h, malloc_at h = None.

Lemma alloc_run b h :
  (malloc b h = Done None h ∧ nomem) ∨ ∃ p, malloc b h = Done (Some p) (<[p := b]> h) ∧ h !! p = None.
Proof.
  unfold malloc. rewrite bind_get. destruct (malloc_at h) as [p|] eqn:Hp; [right|left; split; [done|by exists h]].
  exists p. split; [done|by apply malloc_fresh].
Qed.

Definition zero_entry : entry := mk_entry 0 0 0 0 0 None None.

Lemma zero_cell a : ai_cell zero_entry a None {[a := Node zero_node]}.
Proof. exists [None; None], ∅. split_and!; [repeat constructor|done|done]. Qed.

Lemma link_ai_run l v m h a n :
  ai_opened l v m → m ##ₘ h → (m ∪ h) !! a = None →
  ∃ head' m', link_ai v a (<[a := n]> (m ∪ h)) = Done (mk_ai_list head' (Some a)) (<[a := n]> (m' ∪ h)) ∧
              seg ai_block ai_fields l head' (Some a) m' ∧ m' ##ₘ h ∧ (m' ∪ h) !! a = None.
Proof.
  destruct v as [head slot]. unfold ai_opened, link_ai. simpl. intros Ho Hd Ha. destruct slot as [b|].
  - destruct (link_at _ _ l head b m h a n Ho Hd Ha) as (x & ps & Hb & m' & Hm & Hs & Hd' & Ha').
    exists head, m'. split; [|done]. rewrite (bind_Done _ _ _ _ _ (set_node_run _ _ _ _ Hb)).
    unfold mret, M_ret. f_equal. exact Hm.
  - destruct (opened_link _ _ l head None m a Ho) as [-> Hs]. exists (Some a), ∅. by split.
Qed.

(** The bytes of a socket address after the two assignments. *)
Definition filled (size : nat) (family : Z) (off : nat) (bs : list Z) : list Z :=
  let sa := st16 family ++ drop 2 (replicate size 0) in take off sa ++ bs ++ drop (off + length bs) sa.

Lemma fill_addr_run x a q c h family size off addr n :
  ai_cell x a q c → c ##ₘ h → e_addr x = None → (2 ≤ off)%nat → (off + n ≤ size)%nat → (n ≤ length addr)%nat →
  ∃ rc c', fill_addr a family size off addr n (c ∪ h) = Done rc (c' ∪ h) ∧ c' ##ₘ h ∧
    ((rc = 0 ∧ ai_cell (e_with_addr (Z.of_nat size) (filled size family off (take n addr)) x) a q c') ∨
     (rc = EAI_MEMORY ∧ nomem ∧ ai_cell x a q c')).
Proof.
  intros Hc Hd Hx Hoff Hsz Hn. unfold fill_addr.
  destruct (alloc_run (Bytes (replicate size 0)) (c ∪ h)) as [[Hm Hno]|(p & Hm & Hp)];
    rewrite (bind_Done _ _ _ _ _ Hm).
  { exists EAI_MEMORY, c. split; [done|]. split; [done|]. by right. }
  set (sa1 := st16 family ++ drop 2 (replicate size 0)).
  assert (Hl1 : length sa1 = size).
  { unfold sa1. rewrite length_app, length_drop, length_replicate. change (length (st16 family)) with 2%nat. lia. }
  rewrite (bind_Done _ _ _ _ _ (put_bytes_run p 0 (st16 family) (replicate size 0) _ (lookup_insert_eq _ _ _)
    ltac:(rewrite length_replicate; simpl; lia))), insert_insert_eq.
  change (take 0 (replicate size 0) ++ st16 family ++ drop (0 + length (st16 family)) (replicate size 0)) with sa1.
  assert (Hf : field addr 0 n (<[p := Bytes sa1]> (c ∪ h)) = Done (take n addr) (<[p := Bytes sa1]> (c ∪ h))).
  { unfold field. by destruct (Nat.leb_spec (0 + n) (length addr)); [|lia]. }
  rewrite (bind_Done _ _ _ _ _ Hf).
  assert (Hlt : length (take n addr) = n) by (rewrite length_take; lia).
  rewrite (bind_Done _ _ _ _ _ (put_bytes_run p off (take n addr) sa1 _ (lookup_insert_eq _ _ _)
    ltac:(rewrite Hlt, Hl1; lia))), insert_insert_eq.
  destruct (cell_adopt_addr x a q c h Hc Hd p (filled size family off (take n addr)) (Z.of_nat size) Hx Hp)
    as (c' & Hr & Hc' & Hd' & _).
  rewrite (bind_Done _ _ _ _ _ Hr). exists 0, c'. split; [done|]. split; [done|]. by left.
Qed.

(** An address as the resolver and inet_pton give it. *)
Definition addr_ok (family : Z) (addr : list Z) : Prop :=
  (family = AF_INET ∧ (4 ≤ length addr)%nat) ∨ (family = AF_INET6 ∧ (16 ≤ length addr)%nat).

Lemma filled_sockaddr family addr :
  addr_ok family addr →
  (family = AF_INET ∧ filled 16 family 4 (take 4 addr) = sockaddr_of family addr ∧ length (sockaddr_of family addr) = 16%nat) ∨
  (family = AF_INET6 ∧ filled 28 family 8 (take 16 addr) = sockaddr_of family addr ∧ length (sockaddr_of family addr) = 28%nat).
Proof.
  intros [[-> Hl]|[-> Hl]]; [left|right]; (split; [done|]); unfold filled, sockaddr_of;
    [change (AF_INET =? AF_INET) with true|change (AF_INET6 =? AF_INET) with false]; cbv iota;
    rewrite !length_app, !length_take; [rewrite (Nat.min_l 4) by done|rewrite (Nat.min_l 16) by done]; done.
Qed.

(** The new structure, before it has an address. *)
Definition bare_entry (hints : ga_hints) (family : Z) : entry :=
  mk_entry (if h_socktype hints =? 0 then AI_CLONE else 0) family (h_socktype hints) (h_protocol hints) 0 None None.

Lemma ga_aistruct1_run l v m h hints family :
  ai_opened l v m → m ##ₘ h →
  (ga_aistruct1 v hints family (m ∪ h) = Done None (m ∪ h) ∧ nomem) ∨
  ∃ a head m1 c, ga_aistruct1 v hints family (m ∪ h) = Done (Some (a, mk_ai_list head (Some a))) (c ∪ (m1 ∪ h)) ∧
    seg ai_block ai_fields l head (Some a) m1 ∧ ai_cell (bare_entry hints family) a None c ∧ c ##ₘ m1 ∪ h ∧ m1 ##ₘ h.
Proof.
  intros Ho Hd. unfold ga_aistruct1, calloc_node.
  destruct (alloc_run (Node zero_node) (m ∪ h)) as [[Hm Hno]|(a & Hm & Ha)]; rewrite (bind_Done _ _ _ _ _ Hm); [left; done|right].
  destruct (link_ai_run l v m h a (Node zero_node) Ho Hd Ha) as (head & m1 & Hl & Hs & Hd1 & Ha1).
  rewrite (bind_Done _ _ _ _ _ Hl), insert_union_singleton_l.
  assert (Hd0 : {[a := Node zero_node]} ##ₘ m1 ∪ h) by by apply map_disjoint_singleton_l.
  edestruct (cell_set _ _ _ _ _ (zero_cell a) Hd0 (fill_node hints family) (bare_entry hints family) None) as (c & Hr & Hc & Hdc).
  { intros pa pc _. unfold fill_node, node_of, bare_entry. cbn. by destruct (h_socktype hints =? 0). }
  { done. }
  rewrite (bind_Done _ _ _ _ _ Hr). by exists a, head, m1, c.
Qed.

(** The structure [x] at the end of the list. *)
Lemma ai_append l x a head m1 c h :
  seg ai_block ai_fields l head (Some a) m1 → ai_cell x a None c → c ##ₘ m1 ∪ h → m1 ##ₘ h →
  ∃ m, c ∪ (m1 ∪ h) = m ∪ h ∧ m ##ₘ h ∧ ai_opened (l ++ [x]) (mk_ai_list head (Some a)) m.
Proof.
  intros Hs Hc [Hd1 Hd2]%map_disjoint_union_r Hd. exists (m1 ∪ c). split_and!.
  - rewrite map_union_assoc. f_equal. by apply map_union_comm.
  - by apply map_disjoint_union_l.
  - by apply opened_cell.
Qed.

(** A new structure gets its address, whatever the family. *)
Lemma fill_new l a head m1 c h hints family size off addr n :
  seg ai_block ai_fields l head (Some a) m1 → ai_cell (bare_entry hints family) a None c → c ##ₘ m1 ∪ h → m1 ##ₘ h →
  (2 ≤ off)%nat → (off + n ≤ size)%nat → (n ≤ length addr)%nat → length (filled size family off (take n addr)) = size →
  ∃ rc m, fill_addr a family size off addr n (c ∪ (m1 ∪ h)) = Done rc (m ∪ h) ∧ m ##ₘ h ∧
    ((rc = 0 ∧ ai_opened (l ++ [entry_of hints family (filled size family off (take n addr))]) (mk_ai_list head (Some a)) m) ∨
     (rc = EAI_MEMORY ∧ nomem ∧ ∃ l', ai_opened l' (mk_ai_list head (Some a)) m)).
Proof.
  intros Hs Hc Hdc Hd Hoff Hsz Hn Hlen.
  destruct (fill_addr_run (bare_entry hints family) a None c (m1 ∪ h) family size off addr n Hc Hdc eq_refl Hoff Hsz Hn)
    as (rc & c' & Hr & Hdc' & [[-> Hc']|(-> & Hno & Hc')]); rewrite Hr;
    destruct (ai_append l _ a head m1 c' h Hs Hc' Hdc' Hd) as (m & -> & Hdm & Ho); eexists _, m; (split; [done|]; split; [done|]).
  - left. split; [done|]. unfold entry_of. by rewrite Hlen.
  - right. eauto.
Qed.

Lemma ga_aistruct_run l v m h u hints addr family :
  ai_opened l v m → m ##ₘ h → addr_ok family addr →
  ∃ rc v' m', ga_aistruct v hints addr family (mk_world (m ∪ h) u) = Done (rc, v') (mk_world (m' ∪ h) u) ∧ m' ##ₘ h ∧
    ((rc = 0 ∧ ai_opened (l ++ [entry_of hints family (sockaddr_of family addr)]) v' m') ∨
     (rc = EAI_MEMORY ∧ nomem ∧ ∃ l', ai_opened l' v' m')).
Proof.
  intros Ho Hd Haddr. unfold ga_aistruct.
  destruct (ga_aistruct1_run l v m h hints family Ho Hd) as [[Hr Hno]|(a & head & m1 & c & Hr & Hs & Hc & Hdc & Hd1)];
    rewrite (bind_Done _ _ _ _ _ (on_heap_run _ _ _ _ u Hr)).
  { exists EAI_MEMORY, v, m. split; [done|]. split; [done|]. right. eauto. }
  destruct (filled_sockaddr family addr Haddr) as [(-> & Hfill & Hlen)|(-> & Hfill & Hlen)]; rewrite <- Hfill in *; cbn [Z.eqb].
  - destruct Haddr as [[_ Hl]|[? _]]; [|done].
    destruct (fill_new l a head m1 c h hints AF_INET 16 4 addr 4 Hs Hc Hdc Hd1 ltac:(lia) ltac:(lia) Hl Hlen) as (rc & m' & Hr' & Hrest).
    rewrite (bind_Done _ _ _ _ _ (on_heap_run _ _ _ _ u Hr')). by eexists _, _, m'.
  - destruct Haddr as [[? _]|[_ Hl]]; [done|].
    destruct (fill_new l a head m1 c h hints AF_INET6 28 8 addr 16 Hs Hc Hdc Hd1 ltac:(lia) ltac:(lia) Hl Hlen) as (rc & m' & Hr' & Hrest).
    rewrite (bind_Done _ _ _ _ _ (on_heap_run _ _ _ _ u Hr')). by eexists _, _, m'.
Qed.

(** * The port *)

(** The structures of the list: an IPv4 or IPv6 socket address each. *)
Definition entry_ok (e : entry) : Prop :=
  is_inet (e_family e) = true ∧ ∃ sa, e_addr e = Some sa ∧ e_addrlen e = Z.of_nat (length sa) ∧ (4 ≤ length sa)%nat.

Definition put_port (port : Z) (sa : list Z) : list Z := take 2 sa ++ st16 port ++ drop 4 sa.
Definition ported (port socktype : Z) (e : entry) : entry :=
  mk_entry (e_flags e) (e_family e) socktype (e_protocol e) (e_addrlen e) (put_port port <$> e_addr e) (e_canon e).
Definition clone (e : entry) : entry :=
  mk_entry 0 (e_family e) (e_socktype e) (e_protocol e) (e_addrlen e) (e_addr e) None.

Definition cloning (e : entry) : bool := negb (Z.land (e_flags e) AI_CLONE =? 0).
(** A structure that gets the port, itself or its clone. *)
Definition hit (socktype : Z) (e : entry) : bool := cloning e || (e_socktype e =? socktype).
Definition port_one (port socktype : Z) (e : entry) : list entry :=
  if hit socktype e then
    if cloning e && negb (e_socktype e =? 0) then [e; ported port socktype (clone e)] else [ported port socktype e]
  else [e].
Definition port_list (port socktype : Z) (l : list entry) : list entry := l ≫= port_one port socktype.
Definition port_found (socktype : Z) (l : list entry) : Z := Z.of_nat (length (filter (λ e, hit socktype e = true) l)).

Lemma union_swap (c1 c2 h : mem ai_node) : c1 ##ₘ c2 → c1 ∪ (c2 ∪ h) = c2 ∪ (c1 ∪ h).
Proof. intros Hd. by rewrite !map_union_assoc, (map_union_comm c1 c2). Qed.

Definition bare_clone (x : entry) : entry :=
  mk_entry 0 (e_family x) (e_socktype x) (e_protocol x) (e_addrlen x) None None.

(** The structure of the clone is linked behind the original, and waits for its address. *)
Lemma clone_linked x a q c h :
  ai_cell x a q c → c ##ₘ h →
  (calloc_node (c ∪ h) = Done None (c ∪ h) ∧ nomem) ∨
  ∃ new ca cn pa pc, calloc_node (c ∪ h) = Done (Some new) ({[new := Node zero_node]} ∪ (c ∪ h)) ∧
    clone_members a new ({[new := Node zero_node]} ∪ (c ∪ h)) =
      Done (node_of x pa pc (Some new)) (cn ∪ (ca ∪ h)) ∧
    ca !! a = Some (Node (node_of x pa pc (Some new))) ∧
    ai_cell x a (Some new) ca ∧ ai_cell (bare_clone x) new q cn ∧ cn ##ₘ ca ∪ h ∧ ca ##ₘ h.
Proof.
  intros Hc Hd. destruct (alloc_run (Node zero_node) (c ∪ h)) as [[Hm Hno]|(new & Hm & Hf)]; [left; by split|right].
  unfold calloc_node. rewrite Hm, insert_union_singleton_l. set (c0 := {[new := Node zero_node]} : mem ai_node).
  assert (Hd0 : c0 ##ₘ c ∪ h) by by apply map_disjoint_singleton_l.
  apply map_disjoint_union_r in Hd0 as Hd0'. destruct Hd0' as [H0c H0h].
  assert (Hdc0 : c ##ₘ c0 ∪ h) by by apply map_disjoint_union_r.
  destruct (cell_node x a q c (c0 ∪ h) Hc) as (pa0 & pc0 & Hn). rewrite <- union_swap in Hn by done.
  destruct (cell_set _ _ _ _ _ (zero_cell new) Hd0 (with_next q) zero_entry q) as (c1 & Hr1 & Hc1 & Hd1); [done|done|].
  apply map_disjoint_union_r in Hd1 as Hd1'. destruct Hd1' as [H1c H1h].
  destruct (cell_set x a q c (c1 ∪ h) Hc) with (f := with_next (Some new)) (x' := x) (q' := Some new) as (ca & Hr2 & Hca & Hda);
    [by apply map_disjoint_union_r|done|done|].
  apply map_disjoint_union_r in Hda as Hda'. destruct Hda' as [Ha1 Hah].
  destruct (cell_inv x a _ ca (c1 ∪ h) Hca) as (pa & pc & mf & _ & _ & Hceq & Hl & _).
  assert (Hlook : ca !! a = Some (Node (node_of x pa pc (Some new)))) by (rewrite Hceq; apply lookup_insert_eq).
  edestruct (cell_set _ _ _ _ (ca ∪ h) Hc1) with (x' := bare_clone x) (q' := q) as (cn & Hr3 & Hcn & Hdn);
    [by apply map_disjoint_union_r| |done|].
  2: { exists new, ca, cn, pa, pc. split_and!; [done| |done|done|done|done|done].
    unfold clone_members. rewrite (bind_Done _ _ _ _ _ Hn). cbn [an_next node_of]. rewrite (bind_Done _ _ _ _ _ Hr1), union_swap by done.
    rewrite (bind_Done _ _ _ _ _ Hr2), (bind_Done _ _ _ _ _ (node_at_run a _ _ Hl)), union_swap by done.
    rewrite (bind_Done _ _ _ _ _ Hr3). done. }
  intros pa' pc' Hnull. by rewrite (Hnull eq_refl).
Qed.

Lemma ga_clone_run x a q c h :
  ai_cell x a q c → c ##ₘ h → entry_ok x →
  (∃ m, ga_clone a (c ∪ h) = Done None (m ∪ h) ∧ m ##ₘ h ∧ nomem ∧
        (ai_cell x a q m ∨
         ∃ new ca cn, ai_cell x a (Some new) ca ∧ ai_cell (bare_clone x) new q cn ∧ ca ##ₘ cn ∧ m = ca ∪ cn)) ∨
  ∃ new ca cn, ga_clone a (c ∪ h) = Done (Some new) (cn ∪ (ca ∪ h)) ∧
    ai_cell x a (Some new) ca ∧ ai_cell (clone x) new q cn ∧ cn ##ₘ ca ∪ h ∧ ca ##ₘ h.
Proof.
  intros Hc Hd (_ & sa & Hsa & Hlen & _). unfold ga_clone.
  destruct (clone_linked x a q c h Hc Hd) as [[Hm Hno]|(new & ca & cn & pa & pc & Hm & Hr & Hlook & Hca & Hcn & Hdn & Hda)];
    rewrite (bind_Done _ _ _ _ _ Hm); [left; exists c; by split_and!; [..|left]|].
  rewrite (bind_Done _ _ _ _ _ Hr). cbn [an_addrlen an_addr node_of]. rewrite Hlen, Nat2Z.id.
  destruct (cell_lookup x a (Some new) ca ∅ Hca sa Hsa) as (p0 & pc0 & Hl0 & Hp0).
  assert (pa = Some p0) as -> by (rewrite Hl0 in Hlook; by injection Hlook).
  destruct (alloc_run (Bytes (replicate (length sa) 0)) (cn ∪ (ca ∪ h))) as [[Hm2 Hno]|(p & Hm2 & Hp)];
    rewrite (bind_Done _ _ _ _ _ Hm2).
  { apply map_disjoint_union_r in Hdn as [Hdn1 Hdn2]. left. exists (ca ∪ cn). split_and!; [|by apply map_disjoint_union_l|done|].
    - by rewrite <- map_union_assoc, union_swap.
    - right. by exists new, ca, cn. }
  right. destruct (cell_adopt_addr (bare_clone x) new q cn (ca ∪ h) Hcn Hdn p (replicate (length sa) 0) (Z.of_nat (length sa))
    eq_refl Hp) as (c3 & Hr3 & _ & Hd3 & Hp3 & Hc3).
  rewrite (bind_Done _ _ _ _ _ Hr3). cbn [of_opt]. rewrite bind_ret.
  assert (Hb : bytes_at p0 (c3 ∪ (ca ∪ h)) = Done sa (c3 ∪ (ca ∪ h))).
  { unfold bytes_at. rewrite (bind_Done _ _ _ _ _ (block_at_run p0 (Bytes sa) _
      ltac:(apply lookup_union_Some; [done|right; by apply lookup_union_Some_l]))). done. }
  rewrite (bind_Done _ _ _ _ _ Hb). unfold field. destruct (Nat.leb_spec (0 + length sa) (length sa)); [|lia].
  rewrite drop_0, firstn_all, bind_ret.
  rewrite (bind_Done _ _ _ _ _ (put_bytes_run p 0 sa (replicate (length sa) 0) (c3 ∪ (ca ∪ h))
    ltac:(by apply lookup_union_Some_l) ltac:(rewrite length_replicate; lia))).
  cbn [take app Nat.add]. rewrite drop_ge, app_nil_r by (rewrite length_replicate; lia).
  exists new, ca, (<[p := Bytes sa]> c3). split_and!; [|done| | |done].
  - by rewrite <- insert_union_l.
  - unfold clone. rewrite Hsa, Hlen. apply Hc3.
  - apply map_disjoint_insert_l. split; [|done]. by eapply map_disjoint_Some_l.
Qed.

Lemma set_port_run x a q c h port socktype :
  ai_cell x a q c → c ##ₘ h → entry_ok x →
  ∃ c', set_port a port socktype (c ∪ h) = Done true (c' ∪ h) ∧ ai_cell (ported port socktype x) a q c' ∧ c' ##ₘ h.
Proof.
  intros Hc Hd (Hin & sa & Hsa & Hlen & Hl4). unfold set_port.
  destruct (cell_set x a q c h Hc Hd (with_socktype socktype) (e_with_socktype socktype x) q) as (c1 & Hr & Hc1 & Hd1); [done..|].
  rewrite (bind_Done _ _ _ _ _ Hr).
  destruct (cell_put (e_with_socktype socktype x) a q c1 h Hc1 Hd1 sa 2 (st16 port) Hsa ltac:(simpl; lia))
    as (pa & pc & c2 & Hn & Hput & Hc2 & Hd2).
  rewrite (bind_Done _ _ _ _ _ Hn). cbn [an_family an_addr node_of e_with_socktype e_family].
  unfold is_inet in Hin. rewrite Hin, (bind_Done _ _ _ _ _ Hput). exists c2. split; [done|]. split; [|done].
  unfold ported. rewrite Hsa. exact Hc2.
Qed.

(** One step of the loop: the cells in front of the rest. *)
Lemma frame_swap (c m h : mem ai_node) : c ##ₘ m ∪ h → m ##ₘ h → c ∪ (m ∪ h) = m ∪ (c ∪ h) ∧ m ##ₘ c ∪ h.
Proof.
  intros [Hcm Hch]%map_disjoint_union_r Hm. split; [by apply union_swap|]. by apply map_disjoint_union_r.
Qed.

Lemma frame_join (c m h : mem ai_node) : m ##ₘ c ∪ h → c ##ₘ h → m ∪ (c ∪ h) = (c ∪ m) ∪ h ∧ c ∪ m ##ₘ h ∧ c ##ₘ m.
Proof.
  intros [Hmc Hmh]%map_disjoint_union_r Hc. split_and!; [|by apply map_disjoint_union_l|done].
  by rewrite map_union_assoc, (map_union_comm m c).
Qed.

(** What the loop leaves: the list with its ports, or one that ran out of memory. *)
Definition port_result (port socktype nfound : Z) (l : list entry) (p : option nat) (h : mem ai_node)
    (r : res (mem ai_node) (option Z)) : Prop :=
  ∃ m l', m ##ₘ h ∧ ai_in l' p m ∧
    ((r = Done None (m ∪ h) ∧ nomem) ∨
     (r = Done (Some (nfound + port_found socktype l)) (m ∪ h) ∧ l' = port_list port socktype l)).

(** The cells of one structure are done; [n] of them got the port. *)
Lemma port_result_cons x xs n l a q c h port socktype nfound r :
  (∀ l' m, ai_in l' q m → c ##ₘ m → ai_in (xs ++ l') (Some a) (c ∪ m)) → c ##ₘ h →
  xs = port_one port socktype x → n = Z.b2z (hit socktype x) →
  port_result port socktype (nfound + n) l q (c ∪ h) r → port_result port socktype nfound (x :: l) (Some a) h r.
Proof.
  intros Hseg Hc Hxs Hn (m & l' & Hd & Hl & Hcase). destruct (frame_join c m h Hd Hc) as (Heq & Hd' & Hcm).
  exists (c ∪ m), (xs ++ l'). rewrite <- Heq. split; [done|]. split; [by apply Hseg|].
  destruct Hcase as [[-> Hno]|[-> ->]]; [left; by split|right]. split; [|by rewrite Hxs].
  do 2 f_equal. rewrite Hn. unfold port_found. rewrite filter_cons.
  destruct (hit socktype x); [rewrite decide_True by done|rewrite decide_False by done]; cbn [Z.b2z length]; lia.
Qed.

Lemma one_cell x a q c l' m : ai_cell x a q c → ai_in l' q m → c ##ₘ m → ai_in ([x] ++ l') (Some a) (c ∪ m).
Proof. intros. by eapply seg_cell. Qed.

Lemma two_cells x y a b q ca cb l' m :
  ai_cell x a (Some b) ca → ai_cell y b q cb → ca ##ₘ cb → ai_in l' q m → ca ∪ cb ##ₘ m →
  ai_in ([x; y] ++ l') (Some a) (ca ∪ cb ∪ m).
Proof.
  intros Ha Hb Hab Hl [Hm1 Hm2]%map_disjoint_union_l. rewrite <- map_union_assoc. eapply seg_cell; [done| |].
  - by eapply seg_cell.
  - by apply map_disjoint_union_r.
Qed.

Lemma entry_ok_clone x : entry_ok x → entry_ok (clone x).
Proof. done. Qed.

(** The rest of the body for the structure that gets the port; [c2] is the original of a
    clone, or nothing. *)
Lemma port_at_run x a q c c2 h port socktype nfound fuel :
  ai_cell x a q c → c ##ₘ c2 ∪ h → entry_ok x → c2 ##ₘ h →
  ∃ c3, (b ← set_port a port socktype; n ← node_at a; ga_port_loop fuel (an_next n) port socktype (nfound + Z.b2z b))
      (c ∪ (c2 ∪ h)) = ga_port_loop fuel q port socktype (nfound + 1) (c2 ∪ c3 ∪ h) ∧
    ai_cell (ported port socktype x) a q c3 ∧ c2 ##ₘ c3 ∧ c2 ∪ c3 ##ₘ h.
Proof.
  intros Hc Hd Hok Hd2. destruct (set_port_run x a q c _ port socktype Hc Hd Hok) as (c3 & Hr & Hc3 & Hd3).
  rewrite (bind_Done _ _ _ _ _ Hr). destruct (cell_node _ a q c3 (c2 ∪ h) Hc3) as (pa & pc & Hn).
  rewrite (bind_Done _ _ _ _ _ Hn). apply map_disjoint_union_r in Hd3 as [Hd31 Hd32].
  exists c3. split_and!; [|done|done|by apply map_disjoint_union_l].
  cbn [an_next node_of Z.b2z]. rewrite <- (map_union_assoc c2 c3), (union_swap c2 c3) by done. done.
Qed.

(** The first structure of a list, and what the loop does to the others. *)
Section one_turn.
Context (port socktype nfound : Z) (fuel : nat) (x : entry) (l : list entry) (a : nat) (q : option nat)
  (c m1 h : mem ai_node).
Context (Hc : ai_cell x a q c) (Hd : c ##ₘ m1 ∪ h) (Hok : entry_ok x).
Context (Hrec : ∀ c' n, c' ##ₘ m1 ∪ h →
  port_result port socktype (nfound + n) l q (c' ∪ h) (ga_port_loop fuel q port socktype (nfound + n) (c' ∪ (m1 ∪ h)))).
Abbreviation result := (port_result port socktype nfound (x :: l) (Some a) h).
Abbreviation at_entry a' :=
  (b ← set_port a' port socktype; n ← node_at a'; ga_port_loop fuel (an_next n) port socktype (nfound + Z.b2z b)).

Lemma turn_here :
  hit socktype x = true → cloning x && negb (e_socktype x =? 0) = false → result (at_entry a (c ∪ (m1 ∪ h))).
Proof.
  intros Hhit Hcl. pose proof (port_at_run x a q c ∅ (m1 ∪ h) port socktype nfound fuel Hc) as Hat.
  rewrite map_empty_union in Hat. destruct (Hat Hd Hok (map_disjoint_empty_l _)) as (c3 & Hr & Hc3 & _ & Hd3).
  rewrite !map_empty_union in Hr. rewrite map_empty_union in Hd3. rewrite Hr.
  eapply (port_result_cons x [ported port socktype x] 1 _ _ _ c3); [intros; by eapply one_cell| | | |by apply Hrec].
  - by apply map_disjoint_union_r in Hd3 as [_ ?].
  - unfold port_one. by rewrite Hhit, Hcl.
  - by rewrite Hhit.
Qed.

Lemma turn_mismatch :
  hit socktype x = false → result ((n ← node_at a; ga_port_loop fuel (an_next n) port socktype nfound) (c ∪ (m1 ∪ h))).
Proof.
  intros Hhit. destruct (cell_node x a q c (m1 ∪ h) Hc) as (pa & pc & Hn). rewrite (bind_Done _ _ _ _ _ Hn).
  cbn [an_next node_of]. specialize (Hrec c 0 Hd). rewrite Z.add_0_r in Hrec.
  eapply (port_result_cons x [x] 0 _ _ _ c); [intros; by eapply one_cell| | | |by rewrite Z.add_0_r].
  - by apply map_disjoint_union_r in Hd as [_ ?].
  - unfold port_one. by rewrite Hhit.
  - by rewrite Hhit.
Qed.

Lemma turn_clone (Hl : ai_in l q m1) (Hmh : m1 ##ₘ h) :
  cloning x = true → (e_socktype x =? 0) = false →
  result ((r ← ga_clone a;
           match r with None => mret None | Some new => at_entry new end) (c ∪ (m1 ∪ h))).
Proof.
  intros Hcl Ht. destruct (ga_clone_run x a q c (m1 ∪ h) Hc Hd Hok) as
    [(m & Hr & Hdm & Hno & Hm)|(new & ca & cn & Hr & Hca & Hcn & Hdn & Hda)]; rewrite (bind_Done _ _ _ _ _ Hr).
  - apply map_disjoint_union_r in Hdm as [Hm1 Hmh']. apply map_disjoint_union_r in Hd as [_ Hch].
    assert (∃ l', ai_in l' (Some a) (m ∪ m1)) as [l' Hl'].
    { destruct Hm as [Hm|(new & ca & cn & Ha & Hn & Hdan & ->)]; eexists; [by eapply one_cell|by eapply two_cells]. }
    exists (m ∪ m1), l'. rewrite <- map_union_assoc. split_and!; [|done|by left].
    by apply map_disjoint_union_l.
  - destruct (port_at_run (clone x) new q cn ca (m1 ∪ h) port socktype nfound fuel Hcn Hdn Hok Hda) as (c3 & Hr3 & Hc3 & Hdc & Hd3).
    rewrite Hr3. eapply (port_result_cons x [x; ported port socktype (clone x)] 1 _ _ _ (ca ∪ c3)).
    + intros; by eapply two_cells.
    + by apply map_disjoint_union_r in Hd3 as [_ ?].
    + unfold port_one, hit. by rewrite Hcl, Ht.
    + unfold hit. by rewrite Hcl.
    + by apply Hrec.
Qed.
End one_turn.

Lemma find_entry_run x a q c h socktype :
  ai_cell x a q c →
  find_entry a socktype (c ∪ h) =
    (if cloning x then
       if negb (e_socktype x =? 0) then r ← ga_clone a; mret (match r with None => PortNone | Some new => PortAt new end)
       else mret (PortAt a)
     else if negb (e_socktype x =? socktype) then mret PortMismatch
     else mret (PortAt a)) (c ∪ h).
Proof.
  intros Hc. destruct (cell_node x a q c h Hc) as (pa & pc & Hn). unfold find_entry.
  by rewrite (bind_Done _ _ _ _ _ Hn).
Qed.

Lemma ga_port_loop_run port socktype l : ∀ fuel p m h nfound,
  ai_in l p m → m ##ₘ h → Forall entry_ok l → (length l ≤ fuel)%nat →
  port_result port socktype nfound l p h (ga_port_loop fuel p port socktype nfound (m ∪ h)).
Proof.
  induction l as [|x l IH]; intros fuel p m h nfound Hl Hd Hok Hf.
  { inversion Hl; subst. exists ∅, []. split; [done|]. split; [constructor|]. right. split; [|done].
    unfold port_found. cbn. rewrite Z.add_0_r. by destruct fuel. }
  destruct (seg_cons_inv _ _ _ _ _ _ _ Hl) as (a & q & c & m1 & -> & Hc & Hl1 & Hcm & ->).
  apply Forall_cons in Hok as [Hx Hok]. apply map_disjoint_union_l in Hd as [Hch Hmh].
  destruct fuel as [|fuel]; [simpl in Hf; lia|]. cbn [ga_port_loop]. rewrite <- map_union_assoc.
  assert (Hd : c ##ₘ m1 ∪ h) by by apply map_disjoint_union_r.
  assert (Hrec : ∀ c' n, c' ##ₘ m1 ∪ h →
    port_result port socktype (nfound + n) l q (c' ∪ h) (ga_port_loop fuel q port socktype (nfound + n) (c' ∪ (m1 ∪ h)))).
  { intros c' n Hc'. destruct (frame_swap c' m1 h Hc' Hmh) as [-> Hd']. apply IH; [done..|simpl in Hf; lia]. }
  destruct (cell_node x a q c (m1 ∪ h) Hc) as (pa & pc & Hn).
  pose proof (turn_here port socktype nfound fuel x l a q c m1 h Hc Hd Hx Hrec) as Hhere.
  pose proof (turn_mismatch port socktype nfound fuel x l a q c m1 h Hc Hd Hrec) as Hmis.
  pose proof (turn_clone port socktype nfound fuel x l a q c m1 h Hc Hd Hx Hrec Hl1 Hmh) as Hcl.
  unfold hit in Hhere, Hmis. rewrite (bind_eq _ _ _ _ (find_entry_run x a q c (m1 ∪ h) socktype Hc)).
  destruct (cloning x) eqn:Hcx.
  - destruct (e_socktype x =? 0) eqn:Ht; cbn [negb]; [by apply Hhere|]. rewrite <- bind_assoc_M.
    erewrite bind_ext; [by apply Hcl|]. by intros [new|] s.
  - destruct (e_socktype x =? socktype) eqn:Hs; cbn [negb]; [by apply Hhere|by apply Hmis].
Qed.

Lemma ga_port_run port socktype l p m h :
  ai_in l p m → m ##ₘ h → Forall entry_ok l → port_result port socktype 0 l p h (ga_port p port socktype (m ∪ h)).
Proof.
  intros Hl Hd Hok. unfold ga_port. rewrite bind_get. apply ga_port_loop_run; [done..|].
  rewrite map_size_disj_union by done. pose proof (seg_size _ _ _ _ _ _ Hl). lia.
Qed.

Lemma entry_ok_ported port socktype e : entry_ok e → entry_ok (ported port socktype e).
Proof.
  intros (Hin & sa & Hsa & Hlen & Hl4). split; [done|]. exists (put_port port sa). cbn [ported e_addr e_addrlen]. rewrite Hsa.
  split; [done|]. unfold put_port. rewrite !length_app, length_take, length_drop. change (length (st16 port)) with 2%nat.
  split; [rewrite Hlen|]; lia.
Qed.

Lemma entry_ok_ports port socktype l : Forall entry_ok l → Forall entry_ok (port_list port socktype l).
Proof.
  induction 1 as [|e l He Hl IH]; [done|]. cbn. apply Forall_app. split; [|done]. unfold port_one.
  pose proof (entry_ok_ported port socktype e He). pose proof (entry_ok_ported port socktype (clone e) (entry_ok_clone e He)).
  repeat case_match; auto using Forall_cons_2, Forall_nil_2.
Qed.

(** All the calls of ga_port one after the other. *)
Fixpoint all_ports (ports : list (Z * Z)) (l : list entry) (nfound : Z) : list entry * Z :=
  match ports with
  | [] => (l, nfound)
  | (port, socktype) :: ports' => all_ports ports' (port_list port socktype l) (nfound + port_found socktype l)
  end.

Lemma port_all_run ports : ∀ l p m h nfound,
  ai_in l p m → m ##ₘ h → Forall entry_ok l →
  ∃ m' l', m' ##ₘ h ∧ ai_in l' p m' ∧
    ((port_all p ports nfound (m ∪ h) = Done None (m' ∪ h) ∧ nomem) ∨
     (port_all p ports nfound (m ∪ h) = Done (Some (all_ports ports l nfound).2) (m' ∪ h) ∧
      l' = (all_ports ports l nfound).1)).
Proof.
  induction ports as [|[port socktype] ports IH]; intros l p m h nfound Hl Hd Hok; [exists m, l; split_and!; [done..|by right]|].
  destruct (ga_port_run port socktype l p m h Hl Hd Hok) as (m1 & l1 & Hd1 & Hl1 & [[Hr Hno]|[Hr ->]]);
    cbn [port_all all_ports]; rewrite (bind_Done _ _ _ _ _ Hr).
  - exists m1, l1. split_and!; [done..|by left].
  - rewrite Z.add_0_l. apply IH; [done..|by apply entry_ok_ports].
Qed.

(** The error of the service, and the list with the ports. *)
Definition serv_result (hints : ga_hints) (ports : list (Z * Z)) (l : list entry) : Z * list entry :=
  let '(l', nfound) := all_ports ports l 0 in
  (if nfound =? 0 then (if h_socktype hints =? 0 then EAI_NONAME else EAI_SERVICE) else 0, l').

(** * Freeing *)

Lemma free_ai_member (get : ai_node → option nat) a n f fs p ps mf (h : mem ai_node) :
  get n = p → owns (f :: fs) (p :: ps) mf → mf ##ₘ h → (mf ∪ h) !! a = None →
  ∃ mf', (∀ (k : unit → M (mem ai_node) unit),
           (n ← node_at a; when (bool_decide (is_Some (get n))) (free_block (get n)) ≫= k) (<[a := Node n]> (mf ∪ h)) =
           k tt (<[a := Node n]> (mf' ∪ h))) ∧
         owns fs ps mf' ∧ mf' ##ₘ h ∧ (mf' ∪ h) !! a = None.
Proof.
  intros Hget Ho Hd Ha. destruct (free_owned f fs p ps mf a (Node n) h Ho Hd Ha) as (mf' & Hr & Hrest).
  exists mf'. split; [|done]. intros k. rewrite (bind_Done _ _ _ _ _ (node_at_run a n _ (lookup_insert_eq _ _ _))), Hget.
  assert (Hw : when (bool_decide (is_Some p)) (free_block p) (<[a := Node n]> (mf ∪ h)) = Done tt (<[a := Node n]> (mf' ∪ h)))
    by by destruct p.
  by rewrite (bind_Done _ _ _ _ _ Hw).
Qed.

Lemma freeaddrinfo_loop_run l : ∀ fuel head m h,
  ai_in l head m → m ##ₘ h → (length l ≤ fuel)%nat → freeaddrinfo_loop fuel head (m ∪ h) = Done tt h.
Proof.
  induction l as [|x l IH]; intros fuel head m h Hs Hd Hf.
  { inversion Hs; subst. rewrite map_empty_union. by destruct fuel. }
  destruct (seg_inv _ _ _ _ _ _ _ Hs Hd) as (a & ps & q & mf & m' & -> & -> & Ho & Hs' & Hd' & Hdf & Ha).
  destruct fuel as [|fuel]; [simpl in Hf; lia|]. cbn [freeaddrinfo_loop]. unfold ai_fields in Ho.
  destruct (owns_inv _ _ _ _ Ho) as (p0 & ps0 & ->). unfold ai_block. set (n := mk_ai_node _ _ _ _ _ _ _ _).
  destruct (free_ai_member an_addr a n _ _ p0 ps0 mf _ eq_refl Ho Hdf Ha) as (m1 & Hr1 & Ho1 & Hd1 & Ha1).
  destruct (owns_inv _ _ _ _ Ho1) as (p1 & ps1 & ->).
  destruct (free_ai_member an_canonname a n _ _ p1 ps1 m1 _ eq_refl Ho1 Hd1 Ha1) as (m2 & Hr2 & Ho2 & Hd2 & Ha2).
  destruct (owns_nil_inv _ _ Ho2) as [-> ->]. rewrite map_empty_union in Hr2, Ha2.
  rewrite Hr1, Hr2, (bind_Done _ _ _ _ _ (node_at_run a _ _ (lookup_insert_eq _ _ _))).
  rewrite (bind_Done _ _ _ _ _ (free_block_run _ _ _ (lookup_insert_eq _ _ _))), delete_insert_id by done.
  apply IH; [exact Hs'|done|simpl in Hf; lia].
Qed.

(** freeaddrinfo frees every block of the list, once, and nothing else. *)
Lemma freeaddrinfo_run l head m h : ai_in l head m → m ##ₘ h → freeaddrinfo head (m ∪ h) = Done tt h.
Proof.
  intros Hs Hd. unfold freeaddrinfo. rewrite bind_get. apply (freeaddrinfo_loop_run l); [done..|].
  rewrite map_size_disj_union by done. pose proof (seg_size _ _ _ _ _ _ Hs). lia.
Qed.
End building.
