(* ===== verification/AddrLookup.v ===== *)
(** What getaddrinfo of unpv13e/libgai returns: the list of structures as a function of
    the names and the hints ([addresses_of]), and that the list in memory is that one; what
    an error leaves; the ports; getnameinfo (getnameinfo.c, gn_ipv46.c) and the way back. *)

From S2P Require Export AddrInfo.

(** * The list *)

Section addresses.
Context (getservbyname : string → string → option Z).
Context (gethostbyname2 : string → Z → hostent + Z) (gethostbyname : bool → string → hostent + Z).

Definition entries (hints : ga_hints) (family : Z) (addrs : list (list Z)) : list entry :=
  (λ addr, entry_of hints family (sockaddr_of family addr)) <$> addrs.

(** One search: the error, the list and the canonical name so far. *)
Definition find_one (nsearch : nat) (hostname : option string) (hints : ga_hints) (host : string) (family : Z)
    (v : list entry * option string) : M unit (Z * (list entry * option string)) :=
  let '(l, c) := v in
  num ← numeric host;
  mret
    match num with
    | Some (f, addr) =>
        if negb (h_family hints =? AF_UNSPEC) && negb (h_family hints =? f) then (EAI_ADDRFAMILY, (l, c))
        else if negb (family =? f) then (0, (l, c))
        else (0, (l ++ entries hints f [addr], c))
    | None =>
        match look_up gethostbyname2 gethostbyname nsearch host family with
        | inr h_errno => (if (nsearch =? 2)%nat then 0 else host_error h_errno, (l, c))
        | inl hptr =>
            if negb (h_family hints =? AF_UNSPEC) && negb (h_family hints =? h_addrtype hptr) then (EAI_ADDRFAMILY, (l, c))
            else
              (0, (l ++ entries hints (h_addrtype hptr) (h_addr_list hptr),
                   if canon_wanted hostname hints && bool_decide (c = None) then Some (h_name hptr) else c))
        end
    end.

Fixpoint find_all (nsearch : nat) (hostname : option string) (hints : ga_hints) (search : list (string * Z))
    (v : list entry * option string) : M unit (Z * (list entry * option string)) :=
  match search with
  | [] => mret (0, v)
  | (host, family) :: search' =>
      '(rc, v) ← find_one nsearch hostname hints host family v;
      if negb (rc =? 0) then mret (rc, v) else find_all nsearch hostname hints search' v
  end.

(** The canonical name is that of the first structure. *)
Definition named (hostname : option string) (hints : ga_hints) (search : list (string * Z)) (c : option string)
    (e : entry) : entry :=
  if canon_wanted hostname hints then e_with_canon (default (from_option fst EmptyString (search !! 0%nat)) c) e else e.

(** An error, or the list. *)
Definition addresses_of (hostname servname : option string) (hintsp : option ga_hints) : M unit (Z + list entry) :=
  let hints := default (mk_ga_hints 0 AF_UNSPEC 0 0) hintsp in
  let rc := ga_echeck hostname servname (h_flags hints) (h_family hints) (h_socktype hints) in
  if negb (rc =? 0) then mret (inl rc)
  else
    search ← ga_nsearch hostname hints;
    '(rc, (l, c)) ← find_all (length search) hostname hints search ([], None);
    if negb (rc =? 0) then mret (inl rc)
    else
      match l with
      | [] => mret (inl EAI_NONAME)
      | e :: l' =>
          let l := named hostname hints search c e :: l' in
          if given servname then
            ports ← serv_ports getservbyname hints (default EmptyString servname);
            let '(rc, l) := serv_result hints ports l in
            mret (if negb (rc =? 0) then inl rc else inr l)
          else mret (inr l)
      end.
End addresses.

(** The resolver answers with addresses of the size of their family, and with no other
    families (RFC 2133). *)
Definition answer_ok (r : hostent + Z) : Prop :=
  match r with inl h => Forall (addr_ok (h_addrtype h)) (h_addr_list h) | inr _ => True end.

(** * The list in memory *)

(** A copied name, or NULL. *)
Definition name_in (c : option string) (p : option nat) (m : mem ai_node) : Prop :=
  match c, p with
  | None, None => m = ∅
  | Some s, Some p => m = {[p := Bytes (cstr s)]}
  | _, _ => False
  end.

(** The variables of the loop: the list [l] and the name [c] are in memory, beside [h]. *)
Definition vars_in (l : list entry) (c : option string) (v : ga_vars) (h : mem ai_node) (h' : mem ai_node) : Prop :=
  ∃ m mc, h' = m ∪ (mc ∪ h) ∧ m ##ₘ mc ∪ h ∧ mc ##ₘ h ∧ ai_opened l (the_list v) m ∧ name_in c (canon v) mc.

Lemma lift_Done {St A} (m : M unit A) a (s : St) : m tt = Done a tt → lift m s = Done a s.
Proof. unfold lift. by intros ->. Qed.

(** A call of inet_pton that says 1 has filled the caller's memory. *)
Lemma inet_pton_filled af host n :
  (af = AF_INET ∧ n = 4%nat) ∨ (af = AF_INET6 ∧ n = 16%nat) →
  ∃ z bs, inet_pton af host (replicate n 0) tt = Done (z, bs) tt ∧ (z = 1 → length bs = n).
Proof.
  intros Haf. destruct (inet_pton_total unit af host (replicate n 0) tt) as (z & bs & Hr & Hcase).
  exists z, bs. split; [done|]. intros ->. destruct Hcase as [(_ & b & -> & Hl)|[[?|?] _]]; [|done..].
  assert (length b = n) as Hb by (rewrite Hl; destruct Haf as [[-> ->]|[-> ->]]; done).
  rewrite length_app, length_drop, length_replicate, Hb. lia.
Qed.

Lemma numeric_total host :
  ∃ r, numeric host tt = Done r tt ∧ ∀ f addr, r = Some (f, addr) → addr_ok f addr.
Proof.
  unfold numeric.
  set (m4 := if isdigit (head_char host) then inet_pton AF_INET host (replicate 4 0) else mret (0, [])).
  assert (∃ z bs, m4 tt = Done (z, bs) tt ∧ (z = 1 → length bs = 4%nat)) as (z & bs & H4 & Hz).
  { unfold m4. destruct (isdigit _); [|by exists 0, []]. apply inet_pton_filled. by left. }
  rewrite (bind_Done _ _ _ _ _ H4). cbv beta. cbn [fst snd]. destruct (Z.eqb_spec z 1) as [Hz1|Hz1].
  { eexists. split; [reflexivity|]. intros f addr [= <- <-]. left. split; [done|]. rewrite Hz by done. lia. }
  set (m6 := if (isxdigit (head_char host) || Ascii.eqb (head_char host) ":") && bool_decide (is_Some (strchr host ":"))
             then inet_pton AF_INET6 host (replicate 16 0) else mret (0, [])).
  assert (∃ z bs, m6 tt = Done (z, bs) tt ∧ (z = 1 → length bs = 16%nat)) as (z6 & bs6 & H6 & Hz6).
  { unfold m6. destruct (_ && _); [|by exists 0, []]. apply inet_pton_filled. by right. }
  rewrite (bind_Done _ _ _ _ _ H6). cbv beta. cbn [fst snd]. eexists. split; [reflexivity|].
  destruct (Z.eqb_spec z6 1) as [Hz61|Hz61]; [|done]. intros f addr [= <- <-]. right. split; [done|]. rewrite Hz6 by done. lia.
Qed.

Section memory.
Context `{Heap} (gethostbyname2 : string → Z → hostent + Z) (gethostbyname : bool → string → hostent + Z).
Context (Hans2 : ∀ n f, answer_ok (gethostbyname2 n f)) (Hans : ∀ b n, answer_ok (gethostbyname b n)).

Lemma look_up_ok nsearch host family : answer_ok (look_up gethostbyname2 gethostbyname nsearch host family).
Proof. unfold look_up. destruct (_ =? _)%nat; [apply Hans2|apply Hans]. Qed.

Lemma add_addrs_run hints family addrs : ∀ l v m h u,
  ai_opened l v m → m ##ₘ h → Forall (addr_ok family) addrs →
  ∃ rc v' m' l', add_addrs v hints family addrs (mk_world (m ∪ h) u) = Done (rc, v') (mk_world (m' ∪ h) u) ∧ m' ##ₘ h ∧
    ai_opened l' v' m' ∧ ((rc = 0 ∧ l' = l ++ entries hints family addrs) ∨ (rc = EAI_MEMORY ∧ nomem)).
Proof.
  induction addrs as [|addr addrs IH]; intros l v m h u Ho Hd Hok; cbn [add_addrs].
  { exists 0, v, m, l. rewrite app_nil_r. split_and!; [done..|by left]. }
  apply Forall_cons in Hok as [Ha Hok].
  destruct (ga_aistruct_run l v m h u hints addr family Ho Hd Ha) as (rc & v' & m' & Hr & Hd' & [[-> Ho']|(-> & Hno & l' & Ho')]);
    rewrite (bind_Done _ _ _ _ _ Hr).
  - destruct (IH _ v' m' h u Ho' Hd' Hok) as (rc & v2 & m2 & l2 & Hr2 & Hd2 & Ho2 & Hcase).
    exists rc, v2, m2, l2. split_and!; [exact Hr2|done..|]. destruct Hcase as [[-> ->]|Hcase]; [left|by right].
    by rewrite <- app_assoc.
  - exists EAI_MEMORY, v', m', l'. split_and!; [done..|by right].
Qed.

(** A turn of the loop, and all of them: as the list says, or without memory for it. *)
Definition search_run (hostname : option string) (hints : ga_hints) (r : res world (Z * ga_vars))
    (spec : res unit (Z * (list entry * option string))) (h : mem ai_node) (u : list string) : Prop :=
  ∃ rc v l c h', r = Done (rc, v) (mk_world h' u) ∧ vars_in l c v h h' ∧ (canon_wanted hostname hints = false → c = None) ∧
    (spec = Done (rc, (l, c)) tt ∨ (rc = EAI_MEMORY ∧ nomem)).

(** Structures are built while the name lies beside them. *)
Lemma vars_add l c v h h' hints family addrs u :
  vars_in l c v h h' → Forall (addr_ok family) addrs →
  ∃ rc l' v' h2, add_addrs (the_list v) hints family addrs (mk_world h' u) = Done (rc, v') (mk_world h2 u) ∧
    vars_in l' c (mk_vars v' (canon v)) h h2 ∧
    ((rc = 0 ∧ l' = l ++ entries hints family addrs) ∨ (rc = EAI_MEMORY ∧ nomem)).
Proof.
  intros (m & mc & -> & Hd & Hdc & Ho & Hn) Haddrs.
  destruct (add_addrs_run hints family addrs l (the_list v) m (mc ∪ h) u Ho Hd Haddrs) as (rc & v' & m' & l' & Hr & Hd' & Ho' & Hcase).
  exists rc, l', v', (m' ∪ (mc ∪ h)). split_and!; [done| |done]. by exists m', mc.
Qed.

(** The canonical name is copied. *)
Lemma vars_name l v h h' s u :
  vars_in l None v h h' → canon v = None →
  (on_heap (strdup s) (mk_world h' u) = Done None (mk_world h' u) ∧ nomem) ∨
  ∃ p h2, on_heap (strdup s) (mk_world h' u) = Done (Some p) (mk_world h2 u) ∧
          vars_in l (Some s) (mk_vars (the_list v) (Some p)) h h2.
Proof.
  intros (m & mc & Hh & Hd & Hdc & Ho & Hn) Hc. unfold name_in in Hn. rewrite Hc in Hn. subst mc.
  clear Hdc. rewrite map_empty_union in Hh, Hd. subst h'. unfold strdup.
  destruct (alloc_run (Bytes (cstr s)) (m ∪ h)) as [[Hm Hno]|(p & Hm & Hp)]; [left|right].
  - split; [by apply on_heap_run|done].
  - exists p, (<[p := Bytes (cstr s)]> (m ∪ h)). split; [by apply on_heap_run|].
    apply lookup_union_None in Hp as [Hpm Hph]. exists m, {[p := Bytes (cstr s)]}. split_and!; [|..|done|done].
    + by rewrite <- insert_union_singleton_l, insert_union_r.
    + apply map_disjoint_union_r. split; [by apply map_disjoint_singleton_r|done].
    + by apply map_disjoint_singleton_l.
Qed.

Lemma add_one v hints addr family w : ga_aistruct v hints addr family w = add_addrs v hints family [addr] w.
Proof.
  cbn [add_addrs]. unfold mbind, M_bind. destruct (ga_aistruct v hints addr family w) as [[rc l] w'|? ?|?]; [|done..].
  by destruct (Z.eqb_spec rc 0) as [->|].
Qed.

(** The end of a turn that adds structures. *)
Lemma search_add hostname hints family addrs l c v h h' u :
  vars_in l c v h h' → (canon_wanted hostname hints = false → c = None) → Forall (addr_ok family) addrs →
  search_run hostname hints
    (('(rc, l) ← add_addrs (the_list v) hints family addrs; mret (rc, mk_vars l (canon v))) (mk_world h' u))
    (Done (0, (l ++ entries hints family addrs, c)) tt) h u.
Proof.
  intros Hv Hcw Hok. destruct (vars_add l c v h h' hints family addrs u Hv Hok) as (rc & l' & v' & h2 & Hr & Hv' & Hcase).
  rewrite (bind_Done _ _ _ _ _ Hr). exists rc, (mk_vars v' (canon v)), l', c, h2. split_and!; [done..|].
  destruct Hcase as [[-> ->]|Hcase]; [by left|by right].
Qed.

Lemma vars_canon l c v h h' : vars_in l c v h h' → bool_decide (canon v = None) = bool_decide (c = None).
Proof.
  intros (m & mc & _ & _ & _ & _ & Hn). unfold name_in in Hn. apply bool_decide_ext.
  by destruct c, (canon v).
Qed.

Lemma search_one_run nsearch hostname hints host family l c v h h' u :
  vars_in l c v h h' → (canon_wanted hostname hints = false → c = None) →
  search_run hostname hints (search_one gethostbyname2 gethostbyname nsearch hostname hints host family v (mk_world h' u))
    (find_one gethostbyname2 gethostbyname nsearch hostname hints host family (l, c) tt) h u.
Proof.
  intros Hv Hcw. unfold search_one, find_one.
  assert (Hstay : ∀ rc, search_run hostname hints (Done (rc, v) (mk_world h' u)) (Done (rc, (l, c)) tt) h u).
  { intros rc. exists rc, v, l, c, h'. split_and!; [done..|by left]. }
  destruct (numeric_total host) as (num & Hnum & Hnok).
  rewrite (bind_Done _ _ _ _ _ (lift_Done _ _ _ Hnum)), (bind_Done _ _ _ _ _ Hnum). destruct num as [[f addr]|].
  - destruct (_ && _); [apply Hstay|]. destruct (negb (family =? f)); [apply Hstay|].
    rewrite (bind_eq _ _ _ _ (add_one (the_list v) hints addr f _)).
    apply search_add; [done..|]. by constructor; [apply Hnok|].
  - pose proof (look_up_ok nsearch host family) as Hok. destruct (look_up _ _ _ _ _) as [hp|e]; [|apply Hstay].
    destruct (_ && _); [apply Hstay|]. rewrite (vars_canon l c v h h' Hv).
    destruct (canon_wanted hostname hints && bool_decide (c = None)) eqn:Hcn.
    2: { rewrite bind_ret. by apply search_add. }
    apply andb_prop in Hcn as [Hcw1 Hcn]. pose proof (vars_canon l c v h h' Hv) as Hcv. rewrite Hcn in Hcv.
    apply bool_decide_eq_true in Hcn as ->. apply bool_decide_eq_true in Hcv.
    destruct (vars_name l v h h' (h_name hp) u Hv Hcv) as [[Hr Hno]|(p & h2 & Hr & Hv2)].
    + rewrite <- bind_assoc_M, (bind_Done _ _ _ _ _ Hr), bind_ret.
      exists EAI_MEMORY, (mk_vars (the_list v) None), l, None, h'. split_and!; [done| |done|by right].
      destruct Hv as (m & mc & ? & ? & ? & ? & Hn). exists m, mc. by rewrite Hcv in Hn.
    + rewrite <- bind_assoc_M, (bind_Done _ _ _ _ _ Hr), bind_ret. cbn.
      apply (search_add hostname hints (h_addrtype hp) (h_addr_list hp) l (Some (h_name hp))
        (mk_vars (the_list v) (Some p))); [done| |done]. by rewrite Hcw1.
Qed.

Lemma search_all_run nsearch hostname hints search : ∀ l c v h h' u,
  vars_in l c v h h' → (canon_wanted hostname hints = false → c = None) →
  search_run hostname hints (search_all gethostbyname2 gethostbyname nsearch hostname hints search v (mk_world h' u))
    (find_all gethostbyname2 gethostbyname nsearch hostname hints search (l, c) tt) h u.
Proof.
  induction search as [|[host family] search IH]; intros l c v h h' u Hv Hcw; cbn [search_all find_all].
  { exists 0, v, l, c, h'. split_and!; [done..|by left]. }
  destruct (search_one_run nsearch hostname hints host family l c v h h' u Hv Hcw) as
    (rc & v1 & l1 & c1 & h1 & Hr & Hv1 & Hcw1 & [Hs|[-> Hno]]); rewrite (bind_Done _ _ _ _ _ Hr).
  - rewrite (bind_Done _ _ _ _ _ Hs). destruct (Z.eqb_spec rc 0) as [->|Hrc]; cbn [negb]; [by apply IH|].
    exists rc, v1, l1, c1, h1. split_and!; [done..|by left].
  - exists EAI_MEMORY, v1, l1, c1, h1. split_and!; [done..|by right].
Qed.

(** The structures of the loop: they have an address and no name. *)
Definition entry_good (e : entry) : Prop := entry_ok e ∧ e_canon e = None.

Lemma entries_good hints family addrs : Forall (addr_ok family) addrs → Forall entry_good (entries hints family addrs).
Proof.
  intros Hok. apply Forall_fmap. eapply Forall_impl; [exact Hok|]. intros addr Ha. split; [|done]. split.
  - by destruct Ha as [[-> _]|[-> _]].
  - exists (sockaddr_of family addr). split_and!; [done..|].
    destruct (filled_sockaddr family addr Ha) as [(_ & _ & ->)|(_ & _ & ->)]; lia.
Qed.

Lemma find_one_good nsearch hostname hints host family l c rc l' c' :
  Forall entry_good l →
  find_one gethostbyname2 gethostbyname nsearch hostname hints host family (l, c) tt = Done (rc, (l', c')) tt →
  Forall entry_good l'.
Proof.
  intros Hl. unfold find_one. destruct (numeric_total host) as (num & Hnum & Hnok). rewrite (bind_Done _ _ _ _ _ Hnum).
  pose proof (look_up_ok nsearch host family) as Hok.
  assert (Hadd : ∀ f addrs, Forall (addr_ok f) addrs → Forall entry_good (l ++ entries hints f addrs)).
  { intros f addrs Ha. apply Forall_app. split; [done|by apply entries_good]. }
  unfold mret, M_ret. destruct num as [[f addr]|]; [|destruct (look_up _ _ _ _ _) as [hp|e]]; repeat case_match; intros [= <- <- <-];
    try done; [apply (Hadd f [addr]); constructor; [by apply Hnok|done]|by apply Hadd..].
Qed.

Lemma find_all_good nsearch hostname hints search : ∀ l c rc l' c',
  Forall entry_good l →
  find_all gethostbyname2 gethostbyname nsearch hostname hints search (l, c) tt = Done (rc, (l', c')) tt →
  Forall entry_good l'.
Proof.
  induction search as [|[host family] search IH]; intros l c rc l' c' Hl; cbn [find_all]; [by intros [= <- <- <-]|].
  intros Hr. apply bind_Done_inv in Hr as ([rc1 [l1 c1]] & [] & H1 & Hr). eapply find_one_good in H1; [|done].
  destruct (negb (rc1 =? 0)); [by injection Hr as <- <- <-|]. by eapply IH.
Qed.

(** Behind the loop. *)
Lemma head_of l c v h h' :
  vars_in l c v h h' →
  match l with [] => aihead (the_list v) = None | _ :: _ => ∃ a, aihead (the_list v) = Some a end.
Proof.
  intros (m & mc & _ & _ & _ & Ho & _). apply opened_seg in Ho. destruct l as [|e l]; [by inversion Ho|].
  destruct (seg_cons_inv _ _ _ _ _ _ _ Ho) as (a & q & c1 & m1 & Ha & _). by exists a.
Qed.

Lemma bad_run l c v h h' u error :
  vars_in l c v h h' → ∃ mc, bad v error (mk_world h' u) = Done (error, None) (mk_world (mc ∪ h) u) ∧ mc ##ₘ h ∧
    name_in c (canon v) mc.
Proof.
  intros (m & mc & -> & Hd & Hdc & Ho & Hn). exists mc. split_and!; [|done..]. unfold bad.
  pose proof (freeaddrinfo_run l _ m (mc ∪ h) (opened_seg _ _ _ _ _ _ Ho) Hd) as Hf.
  by rewrite (bind_Done _ _ _ _ _ (on_heap_run _ _ _ _ u Hf)).
Qed.

(** The name of the first structure, a block beside the list. *)
Lemma name_adopt e l a m p s h :
  ai_in (e :: l) (Some a) m → m ##ₘ h → (m ∪ h) !! p = None → e_canon e = None →
  ∃ m', set_node a (with_canon (Some p)) (m ∪ <[p := Bytes (cstr s)]> h) = Done tt (m' ∪ h) ∧ m' ##ₘ h ∧
        ai_in (e_with_canon s e :: l) (Some a) m'.
Proof.
  intros Hl Hd Hp He. destruct (seg_cons_inv _ _ _ _ _ _ _ Hl) as (a' & q & c & m1 & [= <-] & Hc & Hl1 & Hcm & ->).
  apply map_disjoint_union_l in Hd as [Hch Hmh]. rewrite <- map_union_assoc in Hp |- *.
  assert (Hp1 : m1 !! p = None) by by apply lookup_union_None in Hp as [_ [? _]%lookup_union_None].
  rewrite <- insert_union_r by done.
  destruct (cell_adopt_canon e a q c (m1 ∪ h) Hc) with (p := p) (s := s) as (c' & Hr & Hc' & Hd'); [by apply map_disjoint_union_r|done..|].
  exists (c' ∪ m1). apply map_disjoint_union_r in Hd' as [Hd1 Hd2]. rewrite <- map_union_assoc. split_and!; [done| |].
  - by apply map_disjoint_union_l.
  - by eapply seg_cell.
Qed.

Lemma name_head_run hostname hints host family search e l c v a h h' u :
  let search := (host, family) :: search in
  vars_in (e :: l) c v h h' → aihead (the_list v) = Some a → e_canon e = None →
  (canon_wanted hostname hints = false → c = None) →
  ∃ rc m l', name_head hostname hints search a (canon v) (mk_world h' u) = Done rc (mk_world (m ∪ h) u) ∧ m ##ₘ h ∧
    ai_in l' (Some a) m ∧ ((rc = 0 ∧ l' = named hostname hints search c e :: l) ∨ (rc = EAI_MEMORY ∧ nomem)).
Proof.
  intros search' (m & mc & -> & Hd & Hdc & Ho & Hn) Ha He Hcw. apply opened_seg in Ho. rewrite Ha in Ho.
  unfold name_head, named. destruct (canon_wanted hostname hints) eqn:Hw.
  - destruct c as [s|], (canon v) as [p|]; cbn [name_in] in Hn; try done; subst mc.
    + apply map_disjoint_singleton_l in Hdc. rewrite <- insert_union_singleton_l in Hd |- *.
      apply map_disjoint_insert_r in Hd as [Hmp Hmh].
      destruct (name_adopt e l a m p s h Ho Hmh) as (m' & Hr & Hd' & Hl'); [by rewrite lookup_union_None|done|].
      rewrite (bind_Done _ _ _ _ _ (on_heap_run _ _ _ _ u Hr)). exists 0, m', (e_with_canon s e :: l). split_and!; [done..|by left].
    + rewrite map_empty_union in Hd. rewrite map_empty_union.
      cbn [lookup list_lookup fmap option_fmap option_map fst search']. cbn [of_opt]. rewrite bind_ret.
      unfold strdup. destruct (alloc_run (Bytes (cstr host)) (m ∪ h)) as [[Hm Hno]|(p & Hm & Hp)]; unfold cstr in Hm;
        rewrite (bind_Done _ _ _ _ _ (on_heap_run _ _ _ _ u Hm)).
      * destruct (seg_cons_inv _ _ _ _ _ _ _ Ho) as (a' & q & cc & m1 & [= <-] & Hc & Hl1 & Hcm & ->).
        apply map_disjoint_union_l in Hd as [Hch Hmh]. rewrite <- map_union_assoc.
        destruct (cell_set e a q cc (m1 ∪ h) Hc) with (f := with_canon None) (x' := e) (q' := q) as (c' & Hr & Hc' & Hd');
          [by apply map_disjoint_union_r|intros pa pc Hnull; by rewrite (Hnull He)|done|].
        rewrite (bind_Done _ _ _ _ _ (on_heap_run _ _ _ _ u Hr)). apply map_disjoint_union_r in Hd' as [Hd1 Hd2].
        exists EAI_MEMORY, (c' ∪ m1), (e :: l). rewrite <- map_union_assoc. split_and!; [done| |by eapply seg_cell|by right].
        by apply map_disjoint_union_l.
      * destruct (name_adopt e l a m p host h Ho Hd Hp He) as (m' & Hr & Hd' & Hl').
        rewrite insert_union_r by (by apply lookup_union_None in Hp as [? _]).
        rewrite (bind_Done _ _ _ _ _ (on_heap_run _ _ _ _ u Hr)).
        exists 0, m', (e_with_canon host e :: l). split_and!; [done..|by left].
  - rewrite (Hcw eq_refl) in Hn. destruct (canon v); cbn [name_in] in Hn; [done|]. subst mc.
    rewrite map_empty_union in Hd. rewrite map_empty_union. exists 0, m, (e :: l). split_and!; [done..|by left].
Qed.

(** What stays behind after an error: nothing, or the copy of the canonical name. *)
Definition leaked (wanted : bool) (leak : mem ai_node) : Prop :=
  leak = ∅ ∨ (wanted = true ∧ ∃ p s, leak = {[p := Bytes (cstr s)]}).

Definition gai_failed (wanted : bool) (error : Z) (h : mem ai_node) (u : list string) (r : res world (Z * option nat)) : Prop :=
  ∃ leak, r = Done (error, None) (mk_world (leak ∪ h) u) ∧ leak ##ₘ h ∧ leaked wanted leak.

(** As [addresses_of] says, with the list in memory; or there was no memory for it. *)
Definition as_spec (wanted : bool) (spec : res unit (Z + list entry)) (h : mem ai_node) (u : list string)
    (r : res world (Z * option nat)) : Prop :=
  match spec with
  | Done (inr l) _ => ∃ a m, r = Done (0, Some a) (mk_world (m ∪ h) u) ∧ m ##ₘ h ∧ ai_in l (Some a) m
  | Done (inl error) _ => gai_failed wanted error h u r
  | Exited c _ => r = Exited c (mk_world h u)
  | Undefined x => r = Undefined x
  end.
Definition as_spec_or_nomem (wanted : bool) (spec : res unit (Z + list entry)) (h : mem ai_node) (u : list string)
    (r : res world (Z * option nat)) : Prop :=
  as_spec wanted spec h u r ∨ (nomem ∧ gai_failed wanted EAI_MEMORY h u r).

Lemma bad_fails hostname hints l c v h h' u error :
  vars_in l c v h h' → (canon_wanted hostname hints = false → c = None) →
  gai_failed (canon_wanted hostname hints) error h u (bad v error (mk_world h' u)).
Proof.
  intros Hv Hcw. destruct (bad_run l c v h h' u error Hv) as (mc & Hr & Hd & Hn). exists mc. split_and!; [done..|].
  unfold name_in in Hn. destruct c as [s|], (canon v) as [p|]; try done; subst mc; [right|by left].
  split; [|by exists p, s]. by destruct (canon_wanted hostname hints); [|specialize (Hcw eq_refl)].
Qed.

Lemma bad_list wanted l a m v h u error :
  ai_in l (Some a) m → m ##ₘ h → aihead (the_list v) = Some a →
  gai_failed wanted error h u (bad v error (mk_world (m ∪ h) u)).
Proof.
  intros Hl Hd Ha. exists ∅. rewrite map_empty_union. split_and!; [|apply map_disjoint_empty_l|by left]. unfold bad. rewrite Ha.
  by rewrite (bind_Done _ _ _ _ _ (on_heap_run _ _ _ _ u (freeaddrinfo_run l _ m h Hl Hd))).
Qed.

Lemma ga_serv_run getservbyname hints serv l a m h ports :
  ai_in l (Some a) m → m ##ₘ h → Forall entry_ok l → serv_ports getservbyname hints serv tt = Done ports tt →
  ∃ m' l' rc, ga_serv getservbyname (Some a) hints serv (m ∪ h) = Done rc (m' ∪ h) ∧ m' ##ₘ h ∧ ai_in l' (Some a) m' ∧
    ((rc, l') = serv_result hints ports l ∨ (rc = EAI_MEMORY ∧ nomem)).
Proof.
  intros Hl Hd Hok Hp. unfold ga_serv, serv_result. rewrite (bind_Done _ _ _ _ _ (lift_Done _ _ _ Hp)).
  destruct (port_all_run ports l (Some a) m h 0 Hl Hd Hok) as (m' & l' & Hd' & Hl' & [[Hr Hno]|[Hr ->]]);
    rewrite (bind_Done _ _ _ _ _ Hr).
  - exists m', l', EAI_MEMORY. split_and!; [done..|by right].
  - destruct (all_ports ports l 0) as [l2 n]. eexists m', l2, _. split_and!; [done..|by left].
Qed.

Lemma serv_ports_result getservbyname hints serv :
  (∃ ports, serv_ports getservbyname hints serv tt = Done ports tt) ∨
  serv_ports getservbyname hints serv tt = Undefined SignedOverflow.
Proof.
  unfold serv_ports, atoi. destruct (isdigit _); [|left; by eexists].
  destruct (scan_d serv) as [[z r]|]; [|left; by eexists]. unfold int_op. destruct (is_int z); [left; by eexists|by right].
Qed.

Lemma ga_nsearch_result hostname hints :
  ga_nsearch hostname hints tt = Exited 1 tt ∨
  ∃ host family search, ga_nsearch hostname hints tt = Done ((host, family) :: search) tt.
Proof.
  unfold ga_nsearch. destruct (h_family hints =? AF_INET); [right; by eexists _, _, _|].
  destruct (h_family hints =? AF_INET6); [right; by eexists _, _, _|].
  destruct (h_family hints =? AF_UNSPEC); [right; by eexists _, _, _|by left].
Qed.

(** The service and the return, for a list in memory. *)
Lemma serv_end getservbyname hints servname l a m v h u wanted :
  ai_in l (Some a) m → m ##ₘ h → Forall entry_ok l → aihead (the_list v) = Some a →
  as_spec_or_nomem wanted
    ((if given servname then
        ports ← serv_ports getservbyname hints (default EmptyString servname);
        let '(rc, l) := serv_result hints ports l in mret (if negb (rc =? 0) then inl rc else inr l)
      else mret (inr l)) tt) h u
    ((rc ← (if given servname then on_heap (ga_serv getservbyname (Some a) hints (default EmptyString servname)) else mret 0);
      if negb (rc =? 0) then bad v rc else mret (0, Some a)) (mk_world (m ∪ h) u)).
Proof.
  intros Hl Hd Hok Ha. destruct (given servname); [|left; by exists a, m]. set (serv := default EmptyString servname).
  destruct (serv_ports_result getservbyname hints serv) as [[ports Hp]|Hp].
  - destruct (ga_serv_run getservbyname hints serv l a m h ports Hl Hd Hok Hp) as (m' & l' & rc & Hr & Hd' & Hl' & Hcase).
    rewrite (bind_Done _ _ _ _ _ Hp), (bind_Done _ _ _ _ _ (on_heap_run _ _ _ _ u Hr)).
    destruct Hcase as [<-|[-> Hno]].
    + left. destruct (Z.eqb_spec rc 0) as [->|Hrc]; cbn [negb]; [by exists a, m'|by eapply bad_list].
    + right. split; [done|]. by eapply bad_list.
  - left. rewrite (bind_Undefined _ _ _ _ Hp). cbn. unfold ga_serv.
    assert (Hu : lift (serv_ports getservbyname hints serv) (m ∪ h) = Undefined SignedOverflow) by (unfold lift; by rewrite Hp).
    rewrite (bind_Undefined _ _ _ SignedOverflow); [done|]. unfold on_heap. cbn [heap unlinked]. by rewrite (bind_Undefined _ _ _ _ Hu).
Qed.

Lemma entry_ok_named hostname hints search c e : entry_ok e → entry_ok (named hostname hints search c e).
Proof. intros He. unfold named. by destruct (canon_wanted hostname hints). Qed.

Lemma getaddrinfo_run getservbyname nodename hostname servname hintsp h u :
  is_unix hostname servname = None →
  as_spec_or_nomem (canon_wanted hostname (default (mk_ga_hints 0 AF_UNSPEC 0 0) hintsp))
    (addresses_of getservbyname gethostbyname2 gethostbyname hostname servname hintsp tt) h u
    (getaddrinfo getservbyname nodename gethostbyname2 gethostbyname hostname servname hintsp (mk_world h u)).
Proof.
  intros Hux. unfold getaddrinfo, addresses_of. set (hints := default (mk_ga_hints 0 AF_UNSPEC 0 0) hintsp).
  assert (Hv0 : vars_in [] None (mk_vars (mk_ai_list None None) None) h h).
  { exists ∅, ∅. rewrite !map_empty_union. split_and!; [done|apply map_disjoint_empty_l..|constructor|done]. }
  destruct (negb (ga_echeck _ _ _ _ _ =? 0)); [left; by eapply bad_fails|]. rewrite Hux.
  destruct (ga_nsearch_result hostname hints) as [Hn|(host & family & search & Hn)].
  { left. rewrite (bind_Exited _ _ _ _ _ Hn). cbn. unfold lift, mbind, M_bind. by rewrite Hn. }
  rewrite (bind_Done _ _ _ _ _ Hn), (bind_Done _ _ _ _ _ (lift_Done _ _ _ Hn)).
  destruct (search_all_run (length ((host, family) :: search)) hostname hints ((host, family) :: search) [] None
    _ h h u Hv0 (λ _, eq_refl)) as (rc & v & l & c & h' & Hr & Hv & Hcw & Hcase).
  rewrite (bind_Done _ _ _ _ _ Hr). destruct Hcase as [Hs|[-> Hno]]; [|right; split; [done|]; by eapply bad_fails].
  rewrite (bind_Done _ _ _ _ _ Hs). destruct (negb (rc =? 0)); [left; by eapply bad_fails|].
  pose proof (head_of l c v h h' Hv) as Hhead. apply find_all_good in Hs as Hgood; [|constructor].
  destruct l as [|e l]; [rewrite Hhead; left; by eapply bad_fails|]. destruct Hhead as [a Ha]. rewrite Ha.
  apply Forall_cons in Hgood as [[He Hec] Hgood].
  destruct (name_head_run hostname hints host family search e l c v a h h' u Hv Ha Hec Hcw) as
    (rc' & m & l' & Hname & Hd & Hl & [[-> ->]|[-> Hno]]); rewrite (bind_Done _ _ _ _ _ Hname); cbn [negb Z.eqb].
  - apply serv_end; [done..| |done]. constructor; [by apply entry_ok_named|].
    eapply Forall_impl; [exact Hgood|]. by intros x [Hx _].
  - right. split; [done|]. by eapply bad_list.
Qed.
End memory.

(** * Unix domain sockets (ga_unix.c) *)

Lemma length_cstr s : length (cstr s) = S (String.length s).
Proof. unfold cstr. rewrite length_app, length_str_bytes. cbn. lia. Qed.

Lemma dec_cstr path : no_nul path = true → dec_str (cstr path) = Some path.
Proof.
  intros Hp. assert (cstr path = enc_str (S (String.length path)) path ++ []) as ->.
  { rewrite app_nil_r. unfold enc_str, cstr. by replace (S (String.length path) - String.length path)%nat with 1%nat by lia. }
  apply dec_enc_str; [lia|done].
Qed.

Definition unix_sockaddr (path : string) : list Z := st16 AF_LOCAL ++ enc_str SUN_PATH path.

Lemma unix_filled path :
  (String.length path < SUN_PATH)%nat →
  filled sizeof_un AF_LOCAL 2 (take (S (String.length path)) (cstr path)) = unix_sockaddr path ∧
  length (unix_sockaddr path) = sizeof_un.
Proof.
  intros Hl. unfold filled, unix_sockaddr. rewrite (take_ge (cstr path)), length_cstr by (rewrite length_cstr; lia).
  unfold SUN_PATH, sizeof_un in *. split.
  - change (drop 2 (replicate 110 0)) with (replicate 108 0). change (take 2 (st16 AF_LOCAL ++ ?x)) with (st16 AF_LOCAL).
    rewrite drop_app_ge by (simpl; lia). change (length (st16 AF_LOCAL)) with 2%nat.
    replace (2 + S (String.length path) - 2)%nat with (S (String.length path)) by lia. rewrite drop_replicate.
    unfold cstr, enc_str. rewrite <- !app_assoc. do 2 f_equal.
    by replace (108 - String.length path)%nat with (1 + (108 - S (String.length path)))%nat by lia.
  - rewrite length_app, length_enc_str by lia. done.
Qed.

Definition passive (hints : ga_hints) : bool := negb (Z.land (h_flags hints) AI_PASSIVE =? 0).
Definition removed (hints : ga_hints) (path : string) : list string := if passive hints then [path] else [].

Section unix.
Context `{Heap} (path : string) (Hnul : no_nul path = true).

(** One more structure for the path; a path that does not fit is an error, with the
    structure in the list. *)
Lemma unix_one l v m h u hints :
  ai_opened l v m → m ##ₘ h →
  ∃ rc v' m' u', ga_aistruct v hints (cstr path) AF_LOCAL (mk_world (m ∪ h) u) = Done (rc, v') (mk_world (m' ∪ h) u') ∧ m' ##ₘ h ∧
    ((rc = EAI_MEMORY ∧ nomem ∧ ∃ l', ai_opened l' v' m') ∨
     (if (String.length path <? SUN_PATH)%nat then
        rc = 0 ∧ ai_opened (l ++ [entry_of hints AF_LOCAL (unix_sockaddr path)]) v' m' ∧ u' = u ++ removed hints path
      else rc = EAI_SERVICE ∧ ai_opened (l ++ [bare_entry hints AF_LOCAL]) v' m' ∧ u' = u)).
Proof using Hnul.
  intros Ho Hd. unfold ga_aistruct.
  destruct (ga_aistruct1_run l v m h hints AF_LOCAL Ho Hd) as [[Hr Hno]|(a & head & m1 & c & Hr & Hs & Hc & Hdc & Hd1)];
    rewrite (bind_Done _ _ _ _ _ (on_heap_run _ _ _ _ u Hr)).
  { exists EAI_MEMORY, v, m, u. split; [done|]. split; [done|]. left. eauto. }
  change (AF_LOCAL =? AF_INET) with false. change (AF_LOCAL =? AF_INET6) with false. change (AF_LOCAL =? AF_LOCAL) with true.
  cbv iota. rewrite (dec_cstr path Hnul). cbn [of_opt]. rewrite <- bind_assoc_M, bind_ret.
  destruct (Nat.ltb_spec (String.length path) SUN_PATH) as [Hlt|Hge].
  - destruct (Nat.leb_spec SUN_PATH (String.length path)); [lia|]. destruct (unix_filled path Hlt) as [Hfill Hlen].
    rewrite <- Hfill in Hlen.
    destruct (fill_new l a head m1 c h hints AF_LOCAL sizeof_un 2 (cstr path) (S (String.length path)) Hs Hc Hdc Hd1) as
      (rc & m' & Hr' & Hdm & Hcase); [lia|unfold sizeof_un, SUN_PATH in *; lia|rewrite length_cstr; lia|done|].
    rewrite Hfill in Hcase. rewrite <- bind_assoc_M, (bind_Done _ _ _ _ _ (on_heap_run _ _ _ _ u Hr')), <- bind_assoc_M.
    destruct Hcase as [[-> Ho']|(-> & Hno & Ho')].
    + exists 0, (mk_ai_list head (Some a)), m', (u ++ removed hints path). unfold removed, passive.
      destruct (Z.land (h_flags hints) AI_PASSIVE =? 0); cbn [Z.eqb andb negb when];
        [rewrite bind_ret, app_nil_r|rewrite bind_modify]; rewrite bind_ret; (split; [done|]; split; [done|]; by right).
    + exists EAI_MEMORY, (mk_ai_list head (Some a)), m', u. split; [done|]. split; [done|]. by left.
  - destruct (Nat.leb_spec SUN_PATH (String.length path)); [|lia]. rewrite bind_ret.
    destruct (ai_append l _ a head m1 c h Hs Hc Hdc Hd1) as (m' & -> & Hdm & Ho').
    exists EAI_SERVICE, (mk_ai_list head (Some a)), m', u. split; [done|]. split; [done|]. by right.
Qed.

Definition unix_types (hints : ga_hints) : list Z :=
  if h_socktype hints =? 0 then [SOCK_STREAM; SOCK_DGRAM] else [h_socktype hints].
Definition unix_list (hints : ga_hints) : list entry :=
  (λ t, entry_of (with_type t hints) AF_LOCAL (unix_sockaddr path)) <$> unix_types hints.
Definition unix_unlinked (hints : ga_hints) : list string := unix_types hints ≫= λ _, removed hints path.

(** What is left in memory when ga_unix fails: a list nobody has a pointer to. *)
Definition unix_left (error : Z) (h : mem ai_node) (r : res world (Z * option nat)) : Prop :=
  ∃ m u l p, r = Done (error, None) (mk_world (m ∪ h) u) ∧ m ##ₘ h ∧ ai_in l p m.

Lemma opened_in l v m : ai_opened l v m → ai_in l (aihead v) m.
Proof. intros Ho. by eapply opened_seg. Qed.

Lemma in_head e l p m : ai_in (e :: l) p m → ∃ a, p = Some a.
Proof. intros Hl. destruct (seg_cons_inv _ _ _ _ _ _ _ Hl) as (a & q & c & m1 & -> & _). by exists a. Qed.

Lemma unix_last_run nodename l v m h u hints :
  ai_opened l v m → m ##ₘ h → Z.land (h_flags hints) AI_CANONNAME = 0 → (String.length path < SUN_PATH)%nat →
  (∃ a m', unix_last nodename path hints v (mk_world (m ∪ h) u) = Done (0, Some a) (mk_world (m' ∪ h) (u ++ removed hints path)) ∧
     m' ##ₘ h ∧ ai_in (l ++ [entry_of hints AF_LOCAL (unix_sockaddr path)]) (Some a) m') ∨
  (nomem ∧ unix_left EAI_MEMORY h (unix_last nodename path hints v (mk_world (m ∪ h) u))).
Proof using Hnul.
  intros Ho Hd Hcan Hlen. unfold unix_last. fold (cstr path).
  destruct (unix_one l v m h u hints Ho Hd) as (rc & v' & m' & u' & Hr & Hd' & [(-> & Hno & l' & Ho')|Hcase]);
    rewrite (bind_Done _ _ _ _ _ Hr).
  - right. split; [done|]. exists m', u', l', (aihead v'). split_and!; [done..|by apply opened_in].
  - rewrite (proj2 (Nat.ltb_lt _ _) Hlen) in Hcase. destruct Hcase as (-> & Ho' & ->). rewrite Hcan. cbn [negb Z.eqb].
    apply opened_in in Ho'. assert (∃ a, aihead v' = Some a) as [a Ha] by (destruct l; by eapply in_head).
    left. exists a, m'. rewrite <- Ha. by split_and!.
Qed.

Lemma unix_list_run nodename hints h u :
  (String.length path < SUN_PATH)%nat → h_family hints = AF_UNSPEC ∨ h_family hints = AF_LOCAL →
  Z.land (h_flags hints) AI_CANONNAME = 0 →
  (∃ a m, ga_unix nodename path hints (mk_world h u) = Done (0, Some a) (mk_world (m ∪ h) (u ++ unix_unlinked hints)) ∧
          m ##ₘ h ∧ ai_in (unix_list hints) (Some a) m) ∨
  (nomem ∧ unix_left EAI_MEMORY h (ga_unix nodename path hints (mk_world h u))).
Proof using Hnul.
  intros Hlen Hfam Hcan. unfold ga_unix, unix_list, unix_unlinked, unix_types. fold (cstr path).
  assert (negb (h_family hints =? AF_UNSPEC) && negb (h_family hints =? AF_LOCAL) = false) as ->
    by (by destruct Hfam as [-> | ->]).
  assert (Ho0 : ai_opened [] (mk_ai_list None None) ∅) by constructor.
  assert (mk_world h u = mk_world (∅ ∪ h) u) as -> by (by rewrite map_empty_union). destruct (h_socktype hints =? 0).
  - destruct (unix_one [] _ ∅ h u (with_type SOCK_STREAM hints) Ho0 (map_disjoint_empty_l _)) as
      (rc & v' & m' & u' & Hr & Hd' & [(-> & Hno & l' & Ho')|Hcase]); rewrite (bind_Done _ _ _ _ _ Hr).
    + right. split; [done|]. exists m', u', l', (aihead v'). split_and!; [done..|by apply opened_in].
    + rewrite (proj2 (Nat.ltb_lt _ _) Hlen) in Hcase. destruct Hcase as (-> & Ho' & ->). cbn [negb Z.eqb].
      destruct (unix_last_run nodename _ v' m' h (u ++ removed hints path) (with_type SOCK_DGRAM hints) Ho' Hd' Hcan Hlen)
        as [(a & m2 & Hr2 & Hrest)|Hno]; [left|by right]. exists a, m2. split; [|done].
      change (removed (with_type SOCK_STREAM hints) path) with (removed hints path). rewrite Hr2. cbn.
      by rewrite <- app_assoc, app_nil_r.
  - destruct (unix_last_run nodename [] _ ∅ h u hints Ho0 (map_disjoint_empty_l _) Hcan Hlen)
      as [(a & m2 & Hr2 & Hd2 & Hl2)|Hno]; [left|by right]. exists a, m2. rewrite Hr2. cbn. rewrite app_nil_r.
    split_and!; [done|done|]. by destruct hints.
Qed.

(** A path that does not fit: the structure made for it stays in memory. *)
Lemma unix_long_run nodename hints h u :
  (SUN_PATH ≤ String.length path)%nat → h_family hints = AF_UNSPEC ∨ h_family hints = AF_LOCAL → ¬ nomem →
  ∃ m p t, ga_unix nodename path hints (mk_world h u) = Done (EAI_SERVICE, None) (mk_world (m ∪ h) u) ∧ m ##ₘ h ∧
           ai_in [bare_entry (with_type t hints) AF_LOCAL] p m.
Proof using Hnul.
  intros Hlen Hfam Hmem. unfold ga_unix, unix_last. fold (cstr path).
  assert (negb (h_family hints =? AF_UNSPEC) && negb (h_family hints =? AF_LOCAL) = false) as ->
    by (by destruct Hfam as [-> | ->]).
  assert (Ho0 : ai_opened [] (mk_ai_list None None) ∅) by constructor.
  assert (mk_world h u = mk_world (∅ ∪ h) u) as -> by (by rewrite map_empty_union).
  assert (Hone : ∀ t, ∃ v' m', ga_aistruct (mk_ai_list None None) (with_type t hints) (cstr path) AF_LOCAL (mk_world (∅ ∪ h) u) =
    Done (EAI_SERVICE, v') (mk_world (m' ∪ h) u) ∧ m' ##ₘ h ∧ ai_in [bare_entry (with_type t hints) AF_LOCAL] (aihead v') m').
  { intros t. destruct (unix_one [] _ ∅ h u (with_type t hints) Ho0 (map_disjoint_empty_l _)) as
      (rc & v' & m' & u' & Hr & Hd' & [(_ & Hno & _)|Hcase]); [done|].
    rewrite (proj2 (Nat.ltb_ge _ _) Hlen) in Hcase. destruct Hcase as (-> & Ho' & ->).
    exists v', m'. split_and!; [done..|by apply opened_in]. }
  destruct (h_socktype hints =? 0).
  - destruct (Hone SOCK_STREAM) as (v' & m' & Hr & Hd' & Hl). exists m', (aihead v'), SOCK_STREAM.
    by rewrite (bind_Done _ _ _ _ _ Hr).
  - destruct (Hone (h_socktype hints)) as (v' & m' & Hr & Hd' & Hl). exists m', (aihead v'), (h_socktype hints).
    assert (with_type (h_socktype hints) hints = hints) as Heq by (by destruct hints).
    rewrite Heq in Hr |- *. rewrite Heq in Hl. by rewrite (bind_Done _ _ _ _ _ Hr).
Qed.
End unix.

(** * Every address with every type of socket *)

(** A structure with its port; the first of an address keeps the internal flag. *)
Definition serving (flags family port socktype : Z) (addr : list Z) : entry :=
  mk_entry flags family socktype 0 (Z.of_nat (length (sockaddr_of family addr)))
    (Some (put_port port (sockaddr_of family addr))) None.

Lemma put_port_twice p q sa : (4 ≤ length sa)%nat → put_port q (put_port p sa) = put_port q sa.
Proof.
  intros Hl. do 4 (destruct sa as [|? sa]; [simpl in Hl; lia|]). done.
Qed.

Lemma port_list_app port socktype l1 l2 : port_list port socktype (l1 ++ l2) = port_list port socktype l1 ++ port_list port socktype l2.
Proof. apply bind_app. Qed.

Lemma port_first port socktype flags family addrs :
  port_list port socktype (entries (mk_ga_hints flags family 0 0) family addrs) =
    serving AI_CLONE family port socktype <$> addrs ∧
  port_found socktype (entries (mk_ga_hints flags family 0 0) family addrs) = Z.of_nat (length addrs).
Proof.
  induction addrs as [|addr addrs [IHl IHn]]; [done|]. split.
  - change (entries (mk_ga_hints flags family 0 0) family (addr :: addrs)) with
      ([entry_of (mk_ga_hints flags family 0 0) family (sockaddr_of family addr)] ++ entries (mk_ga_hints flags family 0 0) family addrs).
    rewrite port_list_app, IHl. done.
  - unfold port_found in *. cbn [entries fmap list_fmap]. rewrite filter_cons_True by done. cbn [length]. unfold entries in IHn. lia.
Qed.

Lemma sockaddr_long family addr : (4 ≤ length (sockaddr_of family addr))%nat.
Proof. unfold sockaddr_of. destruct (family =? AF_INET); rewrite !length_app; simpl; lia. Qed.

Lemma length_put_port port sa : (4 ≤ length sa)%nat → length (put_port port sa) = length sa.
Proof. intros Hl. do 4 (destruct sa as [|? sa]; [simpl in Hl; lia|]). done. Qed.

Lemma port_one_second p1 p2 family addr :
  port_one p2 SOCK_DGRAM (serving AI_CLONE family p1 SOCK_STREAM addr) =
    [serving AI_CLONE family p1 SOCK_STREAM addr; serving 0 family p2 SOCK_DGRAM addr].
Proof.
  unfold port_one, ported, clone, serving. cbn. by rewrite put_port_twice by apply sockaddr_long.
Qed.

Lemma port_second p1 p2 family addrs :
  port_list p2 SOCK_DGRAM (serving AI_CLONE family p1 SOCK_STREAM <$> addrs) =
    addrs ≫= (λ addr, [serving AI_CLONE family p1 SOCK_STREAM addr; serving 0 family p2 SOCK_DGRAM addr]) ∧
  port_found SOCK_DGRAM (serving AI_CLONE family p1 SOCK_STREAM <$> addrs) = Z.of_nat (length addrs).
Proof.
  induction addrs as [|addr addrs [IHl IHn]]; [done|]. split.
  - rewrite fmap_cons. change (port_list p2 SOCK_DGRAM (?x :: ?l)) with (port_one p2 SOCK_DGRAM x ++ port_list p2 SOCK_DGRAM l).
    by rewrite port_one_second, IHl.
  - unfold port_found in *. rewrite fmap_cons, filter_cons_True by done. cbn [length]. lia.
Qed.

(** A list that is found, and its service. *)
Lemma addresses_found getservbyname gethostbyname2 gethostbyname hostname servname hints search e l c ports l' :
  ga_echeck hostname servname (h_flags hints) (h_family hints) (h_socktype hints) = 0 →
  ga_nsearch hostname hints tt = Done search tt →
  find_all gethostbyname2 gethostbyname (length search) hostname hints search ([], None) tt = Done (0, (e :: l, c)) tt →
  given servname = true → serv_ports getservbyname hints (default EmptyString servname) tt = Done ports tt →
  serv_result hints ports (named hostname hints search c e :: l) = (0, l') →
  addresses_of getservbyname gethostbyname2 gethostbyname hostname servname (Some hints) tt = Done (inr l') tt.
Proof.
  intros Hrc Hns Hfind Hserv Hports Hres. unfold addresses_of. cbn [default from_option id]. rewrite Hrc. cbn [negb Z.eqb].
  rewrite (bind_Done _ _ _ _ _ Hns), (bind_Done _ _ _ _ _ Hfind). cbn [negb Z.eqb].
  rewrite Hserv, (bind_Done _ _ _ _ _ Hports), Hres. done.
Qed.

(** * Properties *)

(** The same allocator, except that it does not run out. *)
Definition never_fails (H : Heap) : Heap.
Proof.
  refine {| malloc_at h := match @malloc_at H h with Some a => Some a | None => Some (fresh (dom h)) end |}.
  intros h a. destruct (@malloc_at H h) as [a'|] eqn:Ha; intros [= <-]; [by apply (@malloc_fresh H)|].
  apply not_elem_of_dom, is_fresh.
Defined.

Lemma never_fails_mem H : ¬ @nomem (never_fails H).
Proof. intros [h Hh]. cbn in Hh. by destruct (@malloc_at H h). Qed.

(** C28: getaddrinfo of libgai refines [addresses_of].  For every memory, every allocator
    that may run out, every resolver, and all names but those of the Unix domain
    (/local and /unix with a path): the call ends as [addresses_of] says for these
    names and hints, or it fails with EAI_MEMORY; and an allocation that failed is then
    the reason: with the allocator that differs only in that it never fails the call
    ends as [addresses_of] says.  On success the structures of the list, linked from the
    result and owning their socket addresses and names, are all that was added to the
    memory, and freeaddrinfo gives back the memory of before.  An error leaves the
    memory as it was, up to the copy of the canonical name, which can only be lost when
    AI_CANONNAME is asked for. *)
Theorem getaddrinfo_in_memory (H : Heap) (getservbyname : string → string → option Z) (nodename : option string)
    (gethostbyname2 : string → Z → hostent + Z) (gethostbyname : bool → string → hostent + Z)
    (hostname servname : option string) (hintsp : option ga_hints) (h : mem ai_node) (u : list string)
    (Hans2 : ∀ n f, answer_ok (gethostbyname2 n f)) (Hans : ∀ b n, answer_ok (gethostbyname b n))
    (Hux : is_unix hostname servname = None) :
  let run A := getaddrinfo (H := A) getservbyname nodename gethostbyname2 gethostbyname hostname servname hintsp (mk_world h u) in
  let spec := addresses_of getservbyname gethostbyname2 gethostbyname hostname servname hintsp tt in
  let wanted := canon_wanted hostname (default (mk_ga_hints 0 AF_UNSPEC 0 0) hintsp) in
  as_spec wanted spec h u (run (never_fails H)) ∧
  (as_spec wanted spec h u (run H) ∨ (@nomem H ∧ gai_failed wanted EAI_MEMORY h u (run H))) ∧
  ∀ a w, run H = Done (0, Some a) w → on_heap (freeaddrinfo (Some a)) w = Done tt (mk_world h u).
Proof.
  intros run spec wanted.
  assert (Hspec : ∀ A, as_spec_or_nomem (H := A) wanted spec h u (run A))
    by (intros A; exact (getaddrinfo_run (H := A) gethostbyname2 gethostbyname Hans2 Hans getservbyname nodename hostname
      servname hintsp h u Hux)).
  split; [by destruct (Hspec (never_fails H)) as [|[[]%never_fails_mem _]]|]. split; [exact (Hspec H)|].
  intros a w Hr. specialize (Hspec H). rewrite Hr in Hspec. unfold as_spec_or_nomem, as_spec in Hspec.
  destruct Hspec as [Hspec|[_ (leak & Heq & _)]]; [|by injection Heq].
  destruct spec as [[e|l] []|c []|x]; [destruct Hspec as (leak & Heq & _); by injection Heq| |done..].
  destruct Hspec as (a' & m & Heq & Hd & Hl). injection Heq as -> ->.
  by apply on_heap_run, (freeaddrinfo_run l).
Qed.

(** A memory with room for [n] blocks. *)
#[local] Instance room (n : nat) : Heap.
Proof.
  refine {| malloc_at h := if (size h <? n)%nat then Some (fresh (dom h)) else None |}.
  intros h a. destruct (size h <? n)%nat; [|done]. intros [= <-]. apply not_elem_of_dom, is_fresh.
Defined.

Definition no_services (serv proto : string) : option Z := None.
Definition no_host2 (n : string) (f : Z) : hostent + Z := inr HOST_NOT_FOUND.
Definition no_host (b : bool) (n : string) : hostent + Z := inr HOST_NOT_FOUND.

(** There is room for any number of blocks, and for one. *)
Lemma getaddrinfo_in_memory_witness :
  let run A := getaddrinfo (H := A) no_services None no_host2 no_host (Some "130.245.1.44"%string) (Some "80"%string) None (mk_world ∅ []) in
  let sa := [2; 0; 0; 80; 130; 245; 1; 44; 0; 0; 0; 0; 0; 0; 0; 0] in
  (∃ a m, run (never_fails (room 1)) = Done (0, Some a) (mk_world (m ∪ ∅) []) ∧ m ##ₘ ∅ ∧
     ai_in [mk_entry AI_CLONE AF_INET SOCK_STREAM 0 16 (Some sa) None;
            mk_entry 0 AF_INET SOCK_DGRAM 0 16 (Some sa) None] (Some a) m) ∧
  run (room 1) = Done (EAI_MEMORY, None) (mk_world ∅ []).
Proof.
  intros run sa. split; [|vm_compute; reflexivity].
  exact (proj1 (getaddrinfo_in_memory (room 1) no_services None no_host2 no_host (Some "130.245.1.44"%string)
    (Some "80"%string) None ∅ [] (λ _ _, I) (λ _ _, I) eq_refl)).
Defined.

Lemma listed_twice (getservbyname : string → string → option Z)
    (gethostbyname2 : string → Z → hostent + Z) (gethostbyname : bool → string → hostent + Z)
    (host serv name : string) (family tcp udp : Z) (addrs : list (list Z))
    (Hfam : family = AF_INET ∨ family = AF_INET6)
    (Hhost : host ≠ EmptyString ∧ numeric host tt = Done None tt) (Hserv : serv ≠ EmptyString ∧ isdigit (head_char serv) = false)
    (Hname : gethostbyname (family =? AF_INET6) host = inl (mk_hostent name family addrs)) (Haddrs : addrs ≠ [])
    (Htcp : getservbyname serv "tcp"%string = Some tcp) (Hudp : getservbyname serv "udp"%string = Some udp) :
  addresses_of getservbyname gethostbyname2 gethostbyname (Some host) (Some serv) (Some (mk_ga_hints 0 family 0 0)) tt =
    Done (inr (addrs ≫= λ addr, [serving AI_CLONE family tcp SOCK_STREAM addr; serving 0 family udp SOCK_DGRAM addr])) tt.
Proof.
  destruct Hhost as [Hne Hnum], Hserv as [Hse Hdig].
  assert (Hgh : given (Some host) = true) by (cbn; by rewrite (proj2 (streq_neq host EmptyString) Hne)).
  destruct (port_first tcp SOCK_STREAM 0 family addrs) as [Hl1 Hn1]. destruct (port_second tcp udp family addrs) as [Hl2 Hn2].
  destruct addrs as [|addr addrs]; [done|]. set (hints := mk_ga_hints 0 family 0 0). fold hints in Hl1, Hn1.
  apply (addresses_found _ _ _ _ _ _ [(host, family)] (entry_of hints family (sockaddr_of family addr))
    (entries hints family addrs) None [(tcp, SOCK_STREAM); (udp, SOCK_DGRAM)]).
  - unfold ga_echeck. rewrite Hgh. by destruct Hfam as [-> | ->].
  - unfold ga_nsearch. rewrite Hgh. by destruct Hfam as [-> | ->].
  - cbn [find_all length]. unfold find_one. rewrite <- bind_assoc_M, (bind_Done _ _ _ _ _ Hnum). unfold look_up. cbn [Nat.eqb].
    rewrite Hname. cbn [h_family h_addrtype h_addr_list hints]. rewrite Z.eqb_refl, andb_false_r. unfold canon_wanted.
    by rewrite andb_false_r.
  - cbn. by rewrite (proj2 (streq_neq serv EmptyString) Hse).
  - unfold serv_ports. change (default EmptyString (Some serv)) with serv. by rewrite Hdig, Htcp, Hudp.
  - unfold named, canon_wanted. cbn [hints h_flags]. rewrite andb_false_r. unfold serv_result. cbn [all_ports].
    change (entry_of _ _ _ :: entries _ family addrs) with (entries hints family (addr :: addrs)). rewrite Hn1, Hl1, Hn2, Hl2.
    destruct (Z.eqb_spec (0 + Z.of_nat (length (addr :: addrs)) + Z.of_nat (length (addr :: addrs))) 0); [simpl in *; lia|done].
Qed.

(** C38: The service of a host is offered at every address with every type of socket
    (ga_port.c, ga_clone.c).  A caller names a host that is no address in digits, a
    service by its name, a family, IPv4 or IPv6, but no type of socket and no flags; the
    host has addresses, the service is known for TCP and for UDP, and memory does not run
    out.  Then getaddrinfo returns a list in memory of two structures for each address, in
    the order of the resolver: a stream socket with the TCP port and a datagram socket
    with the UDP port, each with a socket address of its own; the memory of before is
    as it was. *)
Theorem every_address_every_type (H : Heap) (getservbyname : string → string → option Z)
    (gethostbyname2 : string → Z → hostent + Z) (gethostbyname : bool → string → hostent + Z)
    (host serv name : string) (family tcp udp : Z) (addrs : list (list Z))
    (Hfam : family = AF_INET ∨ family = AF_INET6)
    (Hhost : host ≠ EmptyString ∧ numeric host tt = Done None tt) (Hserv : serv ≠ EmptyString ∧ isdigit (head_char serv) = false)
    (Hlocal : is_unix (Some host) (Some serv) = None)
    (Hname : gethostbyname (family =? AF_INET6) host = inl (mk_hostent name family addrs)) (Haddrs : addrs ≠ [])
    (Htcp : getservbyname serv "tcp"%string = Some tcp) (Hudp : getservbyname serv "udp"%string = Some udp)
    (Hans2 : ∀ n f, answer_ok (gethostbyname2 n f)) (Hans : ∀ b n, answer_ok (gethostbyname b n))
    (Hmem : ∀ h, malloc_at h ≠ None) (nodename : option string) (h : mem ai_node) (u : list string) :
  ∃ a m, getaddrinfo getservbyname nodename gethostbyname2 gethostbyname (Some host) (Some serv)
           (Some (mk_ga_hints 0 family 0 0)) (mk_world h u) = Done (0, Some a) (mk_world (m ∪ h) u) ∧ m ##ₘ h ∧
    ai_in (addrs ≫= λ addr, [serving AI_CLONE family tcp SOCK_STREAM addr; serving 0 family udp SOCK_DGRAM addr]) (Some a) m.
Proof.
  pose proof (getaddrinfo_run gethostbyname2 gethostbyname Hans2 Hans getservbyname nodename (Some host) (Some serv)
    (Some (mk_ga_hints 0 family 0 0)) h u Hlocal) as [Hr|[[h' Hno] _]]; [|by destruct (Hmem h')].
  by rewrite (listed_twice _ _ _ host serv name family tcp udp addrs) in Hr.
Qed.

(** A host with two addresses and the service of the time of day. *)
Definition two_addresses (b : bool) (n : string) : hostent + Z :=
  inl (mk_hostent "vm1.cs" AF_INET [[130; 245; 156; 21]; [130; 245; 156; 22]]).
Definition daytime (serv proto : string) : option Z := if streq serv "daytime" then Some (htons 13) else None.

Lemma every_address_every_type_witness :
  let sa k := [2; 0; 0; 13; 130; 245; 156; k; 0; 0; 0; 0; 0; 0; 0; 0] in
  ∃ a m, getaddrinfo (H := never_fails (room 0)) daytime None no_host2 two_addresses (Some "vm1"%string)
           (Some "daytime"%string) (Some (mk_ga_hints 0 AF_INET 0 0)) (mk_world ∅ []) = Done (0, Some a) (mk_world (m ∪ ∅) []) ∧
    m ##ₘ ∅ ∧
    ai_in [mk_entry AI_CLONE AF_INET SOCK_STREAM 0 16 (Some (sa 21)) None; mk_entry 0 AF_INET SOCK_DGRAM 0 16 (Some (sa 21)) None;
           mk_entry AI_CLONE AF_INET SOCK_STREAM 0 16 (Some (sa 22)) None; mk_entry 0 AF_INET SOCK_DGRAM 0 16 (Some (sa 22)) None]
      (Some a) m.
Proof.
  intros sa.
  refine (every_address_every_type (never_fails (room 0)) daytime no_host2 two_addresses "vm1" "daytime" "vm1.cs" AF_INET
    (htons 13) (htons 13) [[130; 245; 156; 21]; [130; 245; 156; 22]] (or_introl eq_refl)
    (conj _ _) (conj _ _) eq_refl eq_refl _ _ _ (λ _ _, I) _ _ None ∅ []).
  - discriminate.
  - vm_compute; reflexivity.
  - discriminate.
  - vm_compute; reflexivity.
  - discriminate.
  - vm_compute; reflexivity.
  - vm_compute; reflexivity.
  - intros b n. unfold two_addresses, answer_ok. repeat constructor.
  - intros h Hh. cbn in Hh. by destruct (size h <? 0)%nat.
Defined.

(** The names /local and /unix with a path: a structure for each type of socket, the path
    in its address; a passive socket's path is unlinked. *)
Theorem unix_names_listed `{Heap} getservbyname nodename gethostbyname2 gethostbyname (host path : string)
    (hints : ga_hints) (h : mem ai_node) (u : list string)
    (Hux : is_unix (Some host) (Some path) = Some path) (Hnul : no_nul path = true)
    (Hlen : (String.length path < SUN_PATH)%nat) (Hcan : Z.land (h_flags hints) AI_CANONNAME = 0)
    (Hfam : h_family hints = AF_UNSPEC ∨ h_family hints = AF_LOCAL)
    (Hchk : ga_echeck (Some host) (Some path) (h_flags hints) (h_family hints) (h_socktype hints) = 0) (Hmem : ¬ nomem) :
  ∃ a m,
    getaddrinfo getservbyname nodename gethostbyname2 gethostbyname (Some host) (Some path) (Some hints) (mk_world h u) =
      Done (0, Some a) (mk_world (m ∪ h) (u ++ unix_unlinked path hints)) ∧
    m ##ₘ h ∧ ai_in (unix_list path hints) (Some a) m.
Proof.
  unfold getaddrinfo. cbn [default from_option id]. rewrite Hchk, Hux. cbn [negb Z.eqb].
  by destruct (unix_list_run path Hnul nodename hints h u Hlen Hfam Hcan) as [Hr|[Hno _]].
Qed.

(** A path that does not fit is an error, but ga_unix does not go to [bad]: the structure
    it has made stays in memory, and the caller has no pointer to it. *)
Theorem unix_path_leaks `{Heap} getservbyname nodename gethostbyname2 gethostbyname (host path : string)
    (hints : ga_hints) (h : mem ai_node) (u : list string)
    (Hux : is_unix (Some host) (Some path) = Some path) (Hnul : no_nul path = true)
    (Hlen : (SUN_PATH ≤ String.length path)%nat)
    (Hfam : h_family hints = AF_UNSPEC ∨ h_family hints = AF_LOCAL)
    (Hchk : ga_echeck (Some host) (Some path) (h_flags hints) (h_family hints) (h_socktype hints) = 0) (Hmem : ¬ nomem) :
  ∃ m, getaddrinfo getservbyname nodename gethostbyname2 gethostbyname (Some host) (Some path) (Some hints) (mk_world h u) =
         Done (EAI_SERVICE, None) (mk_world (m ∪ h) u) ∧ m ##ₘ h ∧ m ≠ ∅.
Proof.
  unfold getaddrinfo. cbn [default from_option id]. rewrite Hchk, Hux. cbn [negb Z.eqb].
  destruct (unix_long_run path Hnul nodename hints h u Hlen Hfam Hmem) as (m & p & t & Hr & Hd & Hl).
  exists m. split_and!; [done..|]. intros ->. apply seg_size in Hl. rewrite map_size_empty in Hl. simpl in Hl. lia.
Qed.

(** The family AF_LOCAL passes ga_echeck, but with any other host or service the search is
    empty, and err_quit ends the whole program. *)
Theorem local_family_exits `{Heap} getservbyname nodename gethostbyname2 gethostbyname (hostname servname : option string)
    (flags socktype protocol : Z) (w : world)
    (Hflags : Z.land flags (Z.lnot (Z.lor AI_PASSIVE AI_CANONNAME)) = 0)
    (Hgiven : given hostname = true ∨ given servname = true)
    (Htype : socktype = 0 ∨ socktype = SOCK_STREAM ∨ socktype = SOCK_DGRAM) (Hux : is_unix hostname servname = None) :
  getaddrinfo getservbyname nodename gethostbyname2 gethostbyname hostname servname
    (Some (mk_ga_hints flags AF_LOCAL socktype protocol)) w = Exited 1 w.
Proof.
  unfold getaddrinfo. cbn [default from_option id h_flags h_family h_socktype].
  assert (ga_echeck hostname servname flags AF_LOCAL socktype = 0) as ->.
  { unfold ga_echeck. rewrite Hflags. cbn [negb Z.eqb].
    assert (negb (given hostname) && negb (given servname) = false) as -> by (destruct Hgiven as [-> | ->]; [done|by rewrite andb_false_r]).
    by destruct Htype as [-> |[-> | ->]]. }
  rewrite Hux. done.
Qed.

(** A service that begins with a digit is a number, whatever follows, and is cut to 16
    bits: 65616 and 80 are the same port, and so is 80 with anything behind it. *)
Theorem port_number_wraps getservbyname gethostbyname2 gethostbyname :
  let look serv := addresses_of getservbyname gethostbyname2 gethostbyname (Some "130.245.1.44"%string) (Some serv)
    (Some (mk_ga_hints 0 AF_UNSPEC SOCK_STREAM 0)) tt in
  look "65616"%string = look "80"%string ∧ look "80 bytes"%string = look "80"%string ∧
  look "80"%string = Done (inr [mk_entry 0 AF_INET SOCK_STREAM 0 16
    (Some [2; 0; 0; 80; 130; 245; 1; 44; 0; 0; 0; 0; 0; 0; 0; 0]) None]) tt.
Proof. split_and!; vm_compute; reflexivity. Qed.
