(* ===== verification/NameInfo.v ===== *)
(** The way back from socket addresses to names (unpv13e/libgai getnameinfo.c,
    gn_ipv46.c, gai_strerror.c), host_serv.c of unpv13e/lib on top of getaddrinfo, and what
    the functions of [UnpSock] do on this getaddrinfo. *)

From S2P Require Export AddrLookup.

Definition NI_NOFQDN : Z := 1.
Definition NI_NUMERICHOST : Z := 2.
Definition NI_NAMEREQD : Z := 4.
Definition NI_NUMERICSERV : Z := 8.
Definition NI_DGRAM : Z := 16.

(** * getnameinfo.c, gn_ipv46.c *)

(** What is in front of the first dot. *)
Fixpoint cut_dot (s : string) : string :=
  match s with
  | EmptyString => EmptyString
  | String c s' => if Ascii.eqb c "." then EmptyString else String c (cut_dot s')
  end.

Section names.
Context {St : Type}.
(** [h_name] of the host of an address and [s_name] of the service at a port; [None] when
    there is none. *)
Context (gethostbyaddr : list Z → Z → option string) (getservbyport : Z → option string → option string).

Definition has_flag (flags f : Z) : bool := negb (Z.land flags f =? 0).

(** What is written to [host], [None] when nothing is; and the return value. *)
Definition gn_host (hostlen : nat) (aptr : list Z) (family flags : Z) : M St (Z * option string) :=
  let numeric :=
    r ← inet_ntop family aptr hostlen;
    mret (match r with None => (1, None) | Some s => (0, Some s) end) in
  if (0 <? hostlen)%nat then
    if has_flag flags NI_NUMERICHOST then numeric
    else
      match gethostbyaddr aptr family with
      | Some name => mret (0, Some (snprintf_s hostlen (if has_flag flags NI_NOFQDN then cut_dot name else name)))
      | None => if has_flag flags NI_NAMEREQD then mret (1, None) else numeric
      end
  else mret (0, None).

Definition gn_serv (servlen : nat) (port flags : Z) : option string :=
  if (0 <? servlen)%nat then
    if has_flag flags NI_NUMERICSERV then Some (snprintf_s servlen (print_d (ntohs port)))
    else
      match getservbyport port (if has_flag flags NI_DGRAM then Some "udp"%string else None) with
      | Some name => Some (snprintf_s servlen name)
      | None => Some (snprintf_s servlen (print_d (ntohs port)))
      end
  else None.

(** The return value, and what is written to [host] and [serv]. *)
Definition gn_ipv46 (hostlen servlen : nat) (aptr : list Z) (family port flags : Z)
    : M St (Z * option string * option string) :=
  '(rc, host) ← gn_host hostlen aptr family flags;
  mret (if negb (rc =? 0) then (rc, host, None) else (0, host, gn_serv servlen port flags)).

Definition getnameinfo (sa : list Z) (hostlen servlen : nat) (flags : Z) : M St (Z * option string * option string) :=
  family ← sa_family sa;
  if family =? AF_INET then
    addr ← sin_addr sa; port ← sin_port sa; gn_ipv46 hostlen servlen addr AF_INET port flags
  else if family =? AF_INET6 then
    addr ← sin6_addr sa; port ← sin_port sa; gn_ipv46 hostlen servlen addr AF_INET6 port flags
  else if family =? AF_LOCAL then
    serv ← (if (0 <? servlen)%nat then path ← sun_path sa; mret (Some (snprintf_s servlen path)) else mret None);
    mret (0, if (0 <? hostlen)%nat then Some (snprintf_s hostlen "/local") else None, serv)
  else mret (1, None, None).
End names.

(** * gai_strerror.c, host_serv.c *)

Definition gai_strerror (err : Z) : string :=
  if err =? EAI_ADDRFAMILY then "address family for host not supported"
  else if err =? EAI_AGAIN then "temporary failure in name resolution"
  else if err =? EAI_BADFLAGS then "invalid flags value"
  else if err =? EAI_FAIL then "non-recoverable failure in name resolution"
  else if err =? EAI_FAMILY then "address family not supported"
  else if err =? EAI_MEMORY then "memory allocation failure"
  else if err =? EAI_NODATA then "no address associated with host"
  else if err =? EAI_NONAME then "host nor service provided, or not known"
  else if err =? EAI_SERVICE then "service not supported for socket type"
  else if err =? EAI_SOCKTYPE then "socket type not supported"
  else if err =? EAI_SYSTEM then "system error"
  else "unknown getaddrinfo() error".

Section host_serv.
Context `{Heap} (getservbyname : string → string → option Z) (nodename : option string).
Context (gethostbyname2 : string → Z → hostent + Z) (gethostbyname : bool → string → hostent + Z).

Definition host_serv (host serv : option string) (family socktype : Z) : M world (option nat) :=
  '(n, res) ← getaddrinfo getservbyname nodename gethostbyname2 gethostbyname host serv
    (Some (mk_ga_hints AI_CANONNAME family socktype 0));
  mret (if negb (n =? 0) then None else res).

(** [err_quit] prints the message and exits. *)
Definition Host_serv (host serv : option string) (family socktype : Z) : M world (option nat) :=
  '(n, res) ← getaddrinfo getservbyname nodename gethostbyname2 gethostbyname host serv
    (Some (mk_ga_hints AI_CANONNAME family socktype 0));
  if negb (n =? 0) then exit 1 else mret res.
End host_serv.

(** * Texts of addresses *)

(** A dotted quad has no colon. *)
Lemma dec_value_no_colon p v r : dec_value p v = Some r → strchr p ":" = None.
Proof.
  revert v. induction p as [|c p IH]; intros v; [done|]. cbn [dec_value strchr].
  destruct (Ascii.eqb_spec c ":") as [->|Hc]; [done|]. destruct (strchr digits c); [|done]. intros Hr.
  by rewrite (IH _ Hr).
Qed.

Lemma split_no_colon s : Forall (λ p, strchr p ":" = None) (split_dots s) → strchr s ":" = None.
Proof.
  induction s as [|c s IH]; [done|]. cbn [split_dots strchr]. destruct (Ascii.eqb_spec c ".") as [->|Hc].
  - intros [_ Hs]%Forall_cons. by rewrite IH.
  - destruct (split_dots_cons s) as (p & ps & Hs). rewrite Hs in *. intros [Hp Hps]%Forall_cons. cbn [strchr] in Hp.
    destruct (Ascii.eqb c ":"); [done|]. rewrite IH; [done|]. constructor; [|done]. by destruct (strchr p ":").
Qed.

Lemma dotted_quad_no_colon s bs : dotted_quad s = Some bs → strchr s ":" = None.
Proof.
  unfold dotted_quad. destruct (mapM octet_value (split_dots s)) as [os|] eqn:Hos; [|done]. intros _.
  apply split_no_colon. apply mapM_Some in Hos. clear bs. induction Hos as [|p o ps os Hp Hps IH]; constructor; [|done].
  unfold octet_value in Hp. destruct p as [|c p]; [done|]. destruct (dec_value (String c p) 0) eqn:Hv; [|done].
  by eapply dec_value_no_colon.
Qed.

(** Where the loop of inet_pton6 ends when there is no colon. *)
Definition short6 (p : pton6) : Prop := p6_colonp p = None ∧ (p6_tp p = 0 ∨ p6_tp p = 4).

Lemma pton6_loop_no_colon {St} src ct p (s : St) :
  strchr src ":" = None → p6_colonp p = None → p6_tp p = 0 →
  match pton6_loop src ct p s with Done (Some p') _ => short6 p' | _ => True end.
Proof.
  revert p. induction src as [|ch src IH]; intros p Hs Hc Ht; cbn [pton6_loop]; [split; [done|by left]|].
  cbn [strchr] in Hs. destruct (Ascii.eqb ch ":"); [done|].
  assert (Hs' : strchr src ":" = None) by (by destruct (strchr src ":")).
  destruct (xdigit ch) as [d|].
  - destruct (_ >? 65535); [done|]. by apply IH.
  - rewrite Ht. cbn [Z.add Z.leb Z.compare andb]. destruct (Ascii.eqb ch "." && _); [|done].
    rewrite (bind_Done _ _ _ _ _ (pton4_spec ct s)). destruct (dotted_quad ct) as [bs|]; [|done].
    destruct (store_bytes (p6_tmp p) 0 bs s) as [tmp s'|c s'|x] eqn:Hb; unfold mbind, M_bind; rewrite Hb; [|done..].
    split; [done|by right].
Qed.

Lemma pton6_has_colon {St} src bs (s s' : St) : inet_pton6 src s = Done (Some bs) s' → strchr src ":" ≠ None.
Proof.
  intros Hr Hs. revert Hr. unfold inet_pton6.
  assert (Hskip : skip_colon src = Some src).
  { destruct src as [|c src]; [done|]. cbn [strchr] in Hs. cbn. by destruct (Ascii.eqb c ":"). }
  rewrite Hskip.
  pose proof (pton6_loop_no_colon src src (mk_pton6 (replicate 16 0) 0 None false 0) s Hs eq_refl eq_refl) as Hl.
  unfold mbind, M_bind. destruct (pton6_loop _ _ _ s) as [[p|] s1|? ?|?]; [|done..]. destruct Hl as [Hc Ht].
  unfold pton6_end. rewrite Hc. destruct (p6_saw p && _); [done|].
  destruct (p6_saw p); unfold mbind, M_bind; [destruct (store_word _ _ _ s1); [|done..]|]; by destruct Ht as [-> | ->].
Qed.

(** The first character is a digit or a colon. *)
Lemma pton6_head {St} src bs (s s' : St) :
  inet_pton6 src s = Done (Some bs) s' → isxdigit (head_char src) || Ascii.eqb (head_char src) ":" = true.
Proof.
  intros Hr. pose proof (pton6_has_colon src bs s s' Hr) as Hcol. revert Hr. unfold inet_pton6.
  destruct src as [|c src]; [done|]. cbn [head_char skip_colon]. destruct (Ascii.eqb c ":") eqn:Hc; [by rewrite orb_true_r|].
  unfold isxdigit. destruct (xdigit c) as [d|] eqn:Hx; [rewrite bool_decide_true by eauto; done|].
  cbn [pton6_loop]. rewrite Hx, Hc. cbn [p6_tp]. destruct (Ascii.eqb_spec c ".") as [->|_]; [|done].
  change (0 + 4 <=? 16) with true. cbn [andb]. assert (Hq : dotted_quad (String "." src) = None) by done.
  by rewrite <- bind_assoc_M, (bind_Done _ _ _ _ _ (pton4_spec _ s)), Hq.
Qed.

(** * The way back *)

Lemma digit_isdigit d : 0 ≤ d < 10 → isdigit (digit_char d) = true.
Proof. intros Hd. unfold isdigit. rewrite digit_char_dec by done. by rewrite bool_decide_true by eauto. Qed.

Lemma numeric_quad a b c d :
  is_byte a → is_byte b → is_byte c → is_byte d → numeric (quad_text a b c d) tt = Done (Some (AF_INET, [a; b; c; d])) tt.
Proof.
  intros Ha Hb Hc Hd. assert (Hhead : isdigit (head_char (quad_text a b c d)) = true).
  { unfold quad_text. destruct (print_u_digits a Ha) as (ds & -> & Hne & _ & Hds & _). destruct ds as [|x ds]; [done|].
    apply Forall_cons in Hds as [Hx _]. cbn [of_digits]. by apply digit_isdigit. }
  unfold numeric. rewrite Hhead. unfold inet_pton. change (AF_INET =? AF_INET) with true. cbv iota.
  rewrite <- bind_assoc_M, (bind_Done _ _ _ _ _ (pton4_spec _ tt)), bind_ret, dotted_quad_text by done. done.
Qed.

Lemma numeric_text6 bs text :
  length bs = 16%nat → inet_pton6 text tt = Done (Some bs) tt → numeric text tt = Done (Some (AF_INET6, bs)) tt.
Proof.
  intros Hlen Hp. pose proof (pton6_has_colon text bs tt tt Hp) as Hcol. pose proof (pton6_head text bs tt tt Hp) as Hhead.
  unfold numeric.
  assert (∃ bs4, (if isdigit (head_char text) then inet_pton AF_INET text (replicate 4 0) else mret (0, [])) tt = Done (0, bs4) tt)
    as [bs4 H4].
  { destruct (isdigit _); [|by eexists]. unfold inet_pton. change (AF_INET =? AF_INET) with true. cbv iota.
    rewrite (bind_Done _ _ _ _ _ (pton4_spec text tt)). destruct (dotted_quad text) as [q|] eqn:Hq; [|by eexists].
    by apply dotted_quad_no_colon in Hq. }
  rewrite (bind_Done _ _ _ _ _ H4). cbn [fst snd]. change (0 =? 1) with false. cbv iota. rewrite Hhead.
  rewrite bool_decide_true by (by apply not_eq_None_Some). cbn [andb]. unfold inet_pton.
  change (AF_INET6 =? AF_INET) with false. change (AF_INET6 =? AF_INET6) with true. cbv iota.
  rewrite <- bind_assoc_M, (bind_Done _ _ _ _ _ Hp), bind_ret. unfold stored. cbn [fst snd].
  rewrite Hlen. cbn [drop replicate]. by rewrite app_nil_r.
Qed.

(** The text of a port. *)
Lemma port_text z : 0 ≤ z < 65536 →
  isdigit (head_char (print_d z)) = true ∧ (String.length (print_d z) ≤ 5)%nat ∧ print_d z ≠ EmptyString.
Proof.
  intros Hz. pose proof (to_int_nonnil z) as Hn. split_and!.
  - unfold print_d. destruct z as [|p|p]; [done| |lia]. cbn [Z.to_int] in Hn |- *. by destruct (Pos.to_uint p).
  - by apply length_print_port.
  - unfold print_d. destruct z as [|p|p]; [done| |lia]. cbn [Z.to_int] in Hn |- *. by destruct (Pos.to_uint p).
Qed.

(** A numeric address and port, looked up for one type of socket. *)
Lemma addresses_numeric getservbyname gethostbyname2 gethostbyname text f addr serv z t :
  numeric text tt = Done (Some (f, addr)) tt → f = AF_INET ∨ f = AF_INET6 → text ≠ EmptyString →
  is_int z = true → isdigit (head_char serv) = true → scan_d serv = Some (z, EmptyString) →
  t = SOCK_STREAM ∨ t = SOCK_DGRAM ∨ t = SOCK_RAW →
  addresses_of getservbyname gethostbyname2 gethostbyname (Some text) (Some serv) (Some (mk_ga_hints 0 AF_UNSPEC t 0)) tt =
    Done (inr [mk_entry 0 f t 0 (Z.of_nat (length (sockaddr_of f addr))) (Some (put_port (htons z) (sockaddr_of f addr))) None]) tt.
Proof.
  intros Hnum Hf Hne Hz Hdig Hscan Ht. set (hints := mk_ga_hints 0 AF_UNSPEC t 0).
  assert (Hgt : given (Some text) = true) by (cbn; by rewrite (proj2 (streq_neq text EmptyString) Hne)).
  assert (Hgs : given (Some serv) = true) by (cbn; by destruct serv).
  assert (Ht0 : (t =? 0) = false) by (by destruct Ht as [-> |[-> | ->]]).
  assert (Hone : ∀ fam l, find_one gethostbyname2 gethostbyname 2 (Some text) hints text fam (l, None) tt =
    Done (0, (if fam =? f then l ++ entries hints f [addr] else l, None)) tt).
  { intros fam l. unfold find_one. rewrite (bind_Done _ _ _ _ _ Hnum). cbn [hints h_family]. cbn [Z.eqb negb andb AF_UNSPEC].
    by destruct (fam =? f). }
  apply (addresses_found _ _ _ _ _ _ [(text, AF_INET6); (text, AF_INET)] (entry_of hints f (sockaddr_of f addr)) [] None
    [(htons z, t)]).
  - unfold ga_echeck. rewrite Hgt. done.
  - unfold ga_nsearch. rewrite Hgt. done.
  - cbn [find_all length]. rewrite (bind_Done _ _ _ _ _ (Hone _ _)). cbn [negb Z.eqb].
    rewrite (bind_Done _ _ _ _ _ (Hone _ _)). by destruct Hf as [-> | ->].
  - done.
  - unfold serv_ports. change (default EmptyString (Some serv)) with serv. rewrite Hdig. unfold atoi. rewrite Hscan.
    unfold int_op. rewrite Hz. cbn [hints h_socktype]. by rewrite Ht0.
  - unfold named, canon_wanted. cbn [hints h_flags]. rewrite andb_false_r. unfold serv_result. cbn [all_ports].
    set (e0 := entry_of hints f (sockaddr_of f addr)).
    assert (Hcl : cloning e0 = false) by (unfold cloning, e0, entry_of; cbn [hints h_socktype e_flags]; by rewrite Ht0).
    assert (Hhit : hit t e0 = true) by (unfold hit; rewrite Hcl; apply Z.eqb_refl).
    assert (port_list (htons z) t [e0] = [ported (htons z) t e0]) as ->.
    { unfold port_list, port_one. cbn [mbind list_bind]. by rewrite Hhit, Hcl. }
    unfold port_found. rewrite filter_cons_True by done. unfold ported, e0, entry_of. cbn. by rewrite Ht0.
Qed.

(** The socket address of an address and a port in host order. *)
Definition inet_sockaddr (family port : Z) (addr : list Z) : list Z := put_port (htons port) (sockaddr_of family addr).

Lemma inet_sockaddr_eq family port addr :
  (family = AF_INET ∧ length addr = 4%nat → inet_sockaddr family port addr = sockaddr_in port addr (replicate 8 0)) ∧
  (family = AF_INET6 ∧ length addr = 16%nat →
   inet_sockaddr family port addr = sockaddr_in6 port (replicate 4 0) addr (replicate 4 0)).
Proof.
  unfold inet_sockaddr, sockaddr_of. pose proof (htons_range port).
  assert (st16 (htons port) = le_split 2 (htons port)) as Hst by (unfold st16; by rewrite u16_small).
  split; intros [-> Hl]; [change (AF_INET =? AF_INET) with true|change (AF_INET6 =? AF_INET) with false]; cbv iota;
    rewrite take_ge by lia; unfold put_port; rewrite Hst; done.
Qed.

(** The address of a family. *)
Definition address_ok (family : Z) (addr : list Z) : Prop :=
  Forall is_byte addr ∧
  ((family = AF_INET ∧ length addr = 4%nat) ∨ (family = AF_INET6 ∧ length addr = 16%nat)).

(** Both texts of an address. *)
Lemma address_text {St} family addr :
  address_ok family addr →
  ∃ text, (String.length text < 46)%nat ∧ text ≠ EmptyString ∧
    (∀ size (s : St), (46 ≤ size)%nat → inet_ntop family addr size s = Done (Some text) s) ∧
    numeric text tt = Done (Some (family, addr)) tt.
Proof.
  intros [Hb [[-> Hl]|[-> Hl]]].
  - destruct addr as [|a [|b [|c [|d [|]]]]]; try done. rewrite !Forall_cons in Hb. destruct Hb as (Ha & Hb & Hc & Hd & _).
    pose proof (length_quad_text a b c d Ha Hb Hc Hd) as Hlen. exists (quad_text a b c d). split_and!.
    + lia.
    + by intros Hnil; rewrite Hnil in Hlen; simpl in Hlen; lia.
    + intros size s Hs. unfold inet_ntop. change (AF_INET =? AF_INET) with true. cbv iota. rewrite ntop4_run by done.
      destruct (Nat.ltb_spec size (String.length (quad_text a b c d))); [lia|].
      by destruct (Nat.eqb_spec size (String.length (quad_text a b c d))); [lia|].
    + by apply numeric_quad.
  - destruct (inet6_spelled addr Hl Hb) as (text & Hlen & Hsp). exists text. split_and!; [done| | |].
    + intros ->. destruct (Hsp unit tt) as [_ Hp]. by apply pton6_has_colon in Hp.
    + intros size s Hs. destruct (Hsp St s) as [Hn _]. unfold inet_ntop. change (AF_INET6 =? AF_INET) with false.
      change (AF_INET6 =? AF_INET6) with true. cbv iota. rewrite Hn.
      by destruct (Nat.ltb_spec size (S (String.length text))); [lia|].
    + apply numeric_text6; [done|]. apply (Hsp unit tt).
Qed.

(** The socket address with eight more bytes: sin_zero, or sin6_flowinfo and
    sin6_scope_id. *)
Definition socket_sa (family port : Z) (addr extra : list Z) : list Z :=
  if family =? AF_INET then sockaddr_in port addr extra else sockaddr_in6 port (take 4 extra) addr (drop 4 extra).

Lemma socket_sa_zero family port addr :
  address_ok family addr → socket_sa family port addr (replicate 8 0) = inet_sockaddr family port addr.
Proof.
  intros [_ [Hf|Hf]]; unfold socket_sa.
  - rewrite (proj1 (inet_sockaddr_eq family port addr) Hf). by destruct Hf as [-> _].
  - rewrite (proj2 (inet_sockaddr_eq family port addr) Hf). by destruct Hf as [-> _].
Qed.

Lemma gn_numeric {St} gethostbyaddr getservbyport family port addr text hostlen servlen flags (s : St) :
  (∀ size s, (46 ≤ size)%nat → inet_ntop (St := St) family addr size s = Done (Some text) s) → 0 ≤ port < 65536 →
  has_flag flags NI_NUMERICHOST = true ∧ has_flag flags NI_NUMERICSERV = true → (46 ≤ hostlen)%nat → (6 ≤ servlen)%nat →
  gn_ipv46 gethostbyaddr getservbyport hostlen servlen addr family (htons port) flags s =
    Done (0, Some text, Some (print_d port)) s.
Proof.
  intros Hntop Hport [Hh Hs] Hhost Hserv. destruct (port_text port Hport) as (_ & Hplen & _).
  unfold gn_ipv46, gn_host, gn_serv. rewrite Hh, Hs. destruct (Nat.ltb_spec 0 hostlen); [|lia].
  destruct (Nat.ltb_spec 0 servlen); [|lia]. rewrite <- bind_assoc_M, (bind_Done _ _ _ _ _ (Hntop hostlen s Hhost)), bind_ret.
  rewrite ntohs_htons, u16_small by lia. unfold snprintf_s. by rewrite substring_all by lia.
Qed.

Lemma getnameinfo_sa {St} gethostbyaddr getservbyport family port addr extra hostlen servlen flags (s : St) :
  address_ok family addr → length extra = 8%nat →
  getnameinfo gethostbyaddr getservbyport (socket_sa family port addr extra) hostlen servlen flags s =
    gn_ipv46 gethostbyaddr getservbyport hostlen servlen addr family (htons port) flags s.
Proof.
  intros [_ [[-> Hl]|[-> Hl]]] He; unfold getnameinfo, socket_sa.
  - change (AF_INET =? AF_INET) with true. cbv iota. rewrite (bind_Done _ _ _ _ _ (in_family port addr _ s)).
    change (AF_INET =? AF_INET) with true. cbv iota.
    by rewrite (bind_Done _ _ _ _ _ (in_addr port addr _ Hl s)), (bind_Done _ _ _ _ _ (in_port port addr _ s)).
  - change (AF_INET6 =? AF_INET) with false. cbv iota. set (flow := take 4 extra). set (scope := drop 4 extra).
    assert (Hfl : length flow = 4%nat) by (unfold flow; rewrite length_take; lia).
    rewrite (bind_Done _ _ _ _ _ (in6_family port flow addr scope s)). change (AF_INET6 =? AF_INET) with false.
    change (AF_INET6 =? AF_INET6) with true. cbv iota.
    by rewrite (bind_Done _ _ _ _ _ (in6_addr port flow addr scope Hfl Hl s)), (bind_Done _ _ _ _ _ (in6_port port flow addr scope s)).
Qed.

(** C29: Addresses survive the way through their numeric names.  For every IPv4 or IPv6
    socket address, getnameinfo with NI_NUMERICHOST and NI_NUMERICSERV writes two texts,
    if the buffers have at least 46 and 6 bytes; and getaddrinfo, asked for these texts, no
    flags, any family and one type of socket, returns, when memory does not run out, a
    list in memory with one structure, whose socket address has the same family, port
    and address.  The eight bytes that are neither (sin_zero; sin6_flowinfo and
    sin6_scope_id) come back as zeros: the socket address is byte for byte the one
    getnameinfo was given when they were zeros there, and a flow label or scope id is
    lost.  Nobody asks the resolver. *)
Theorem numeric_names_round_trip (H : Heap) (St : Type) (gethostbyaddr : list Z → Z → option string)
    (getservbyport : Z → option string → option string) (getservbyname : string → string → option Z)
    (gethostbyname2 : string → Z → hostent + Z) (gethostbyname : bool → string → hostent + Z)
    (family port t flags : Z) (addr extra : list Z) (hostlen servlen : nat) (s : St)
    (Haddr : address_ok family addr) (Hport : 0 ≤ port < 65536) (Hextra : length extra = 8%nat)
    (Ht : t = SOCK_STREAM ∨ t = SOCK_DGRAM ∨ t = SOCK_RAW)
    (Hflags : has_flag flags NI_NUMERICHOST = true ∧ has_flag flags NI_NUMERICSERV = true)
    (Hhost : (46 ≤ hostlen)%nat) (Hserv : (6 ≤ servlen)%nat)
    (Hans2 : ∀ n f, answer_ok (gethostbyname2 n f)) (Hans : ∀ b n, answer_ok (gethostbyname b n))
    (Hmem : ∀ h, malloc_at h ≠ None) (nodename : option string) (h : mem ai_node) (u : list string) :
  let back := socket_sa family port addr (replicate 8 0) in
  ∃ host serv,
    getnameinfo gethostbyaddr getservbyport (socket_sa family port addr extra) hostlen servlen flags s =
      Done (0, Some host, Some serv) s ∧
  ∃ a m,
    getaddrinfo getservbyname nodename gethostbyname2 gethostbyname (Some host) (Some serv)
      (Some (mk_ga_hints 0 AF_UNSPEC t 0)) (mk_world h u) = Done (0, Some a) (mk_world (m ∪ h) u) ∧ m ##ₘ h ∧
    ai_in [mk_entry 0 family t 0 (Z.of_nat (length back)) (Some back) None] (Some a) m.
Proof.
  intros back. destruct (address_text (St := St) family addr Haddr) as (text & Hlen & Hne & Hntop & Hnum).
  destruct (port_text port Hport) as (Hdig & Hplen & Hpne). exists text, (print_d port). split.
  { rewrite getnameinfo_sa by done. by apply gn_numeric. }
  assert (Hux : is_unix (Some text) (Some (print_d port)) = None).
  { unfold is_unix. destruct (Ascii.eqb_spec (head_char (print_d port)) "/") as [Hs|]; [by rewrite Hs in Hdig|by rewrite andb_false_r]. }
  pose proof (getaddrinfo_run gethostbyname2 gethostbyname Hans2 Hans getservbyname nodename (Some text) (Some (print_d port))
    (Some (mk_ga_hints 0 AF_UNSPEC t 0)) h u Hux) as [Hr|[[h' Hno] _]]; [|by destruct (Hmem h')].
  rewrite (addresses_numeric _ _ _ text family addr (print_d port) port t) in Hr; try done.
  - unfold back. rewrite socket_sa_zero by done. unfold inet_sockaddr at 1. by rewrite length_put_port by apply sockaddr_long.
  - destruct Haddr as [_ [[-> _]|[-> _]]]; auto.
  - unfold is_int, INT_MIN, INT_MAX. lia.
  - apply scan_d_print_end.
Qed.

Lemma loopback6_ok : address_ok AF_INET6 (replicate 15 0 ++ [1]).
Proof. split; [|by right]. repeat (apply Forall_cons; split; [unfold is_byte; lia|]). by apply Forall_nil. Qed.

(** The loopback address of IPv6, with the scope id 7, which is lost. *)
Lemma numeric_names_round_trip_witness :
  let sa scope := [10; 0; 31; 144; 0; 0; 0; 0; 0; 0; 0; 0; 0; 0; 0; 0; 0; 0; 0; 0; 0; 0; 0; 1; scope; 0; 0; 0] in
  ∃ host serv,
    getnameinfo (λ _ _, None) (λ _ _, None) (sa 7) 46 32 10 tt = Done (0, Some host, Some serv) tt ∧
  ∃ a m,
    getaddrinfo (H := never_fails (room 0)) no_services None no_host2 no_host (Some host) (Some serv)
      (Some (mk_ga_hints 0 AF_UNSPEC SOCK_STREAM 0)) (mk_world ∅ []) = Done (0, Some a) (mk_world (m ∪ ∅) []) ∧ m ##ₘ ∅ ∧
    ai_in [mk_entry 0 AF_INET6 SOCK_STREAM 0 28 (Some (sa 0)) None] (Some a) m.
Proof.
  refine (numeric_names_round_trip (never_fails (room 0)) unit (λ _ _, None) (λ _ _, None) no_services no_host2 no_host
    AF_INET6 8080 SOCK_STREAM 10 (replicate 15 0 ++ [1]) [0; 0; 0; 0; 7; 0; 0; 0] 46 32 tt loopback6_ok
    (conj (proj1 (Z.leb_le 0 8080) eq_refl) (proj1 (Z.ltb_lt 8080 65536) eq_refl)) eq_refl (or_introl eq_refl)
    (conj eq_refl eq_refl) (proj1 (Nat.leb_le 46 46) eq_refl) (proj1 (Nat.leb_le 6 32) eq_refl) (λ _ _, I) (λ _ _, I)
    _ None ∅ []).
  intros h Hh. cbn in Hh. by destruct (size h <? 0)%nat.
Defined.

(** * Sockets *)

(** A structure as [UnpSock] reads it, and the library's getaddrinfo for names that are
    given; with the hints of [UnpSock] it does not exit. *)
Definition to_addrinfo (e : entry) : addrinfo :=
  mk_ai (e_family e) (e_socktype e) (e_protocol e) (default [] (e_addr e)).
Definition library_getaddrinfo (getservbyname : string → string → option Z)
    (gethostbyname2 : string → Z → hostent + Z) (gethostbyname : bool → string → hostent + Z)
    (host serv : string) (h : hints) : option (list addrinfo) :=
  match addresses_of getservbyname gethostbyname2 gethostbyname (Some host) (Some serv)
          (Some (mk_ga_hints (hint_flags h) (hint_family h) (hint_socktype h) 0)) tt with
  | Done (inr l) _ => Some (to_addrinfo <$> l)
  | _ => None
  end.

(** The library's udp_client and tcp_connect on the library's getaddrinfo: the numeric
    names of an address and a port lead to a socket for that address, and the connection
    is asked for exactly there. *)
Theorem numeric_names_open_socket (ask : trace → call → Z) (getservbyname : string → string → option Z)
    (gethostbyname2 : string → Z → hostent + Z) (gethostbyname : bool → string → hostent + Z)
    (family port : Z) (addr : list Z) (tr : trace) (Haddr : address_ok family addr) (Hport : 0 ≤ port < 65536)
    (Hask : ∀ tr c, 0 ≤ ask tr c) (Hconn : ∀ tr fd a, ask tr (Connect fd a) = 0) :
  let gai := library_getaddrinfo getservbyname gethostbyname2 gethostbyname in
  let sa := inet_sockaddr family port addr in
  ∃ host, numeric host tt = Done (Some (family, addr)) tt ∧
    (let fd := ask tr (Socket family SOCK_DGRAM 0) in
     udp_client ask gai host (print_d port) tr = Done (fd, sa) (tr ++ [(Socket family SOCK_DGRAM 0, fd)])) ∧
    (let fd := ask tr (Socket family SOCK_STREAM 0) in
     tcp_connect ask gai host (print_d port) tr =
       Done fd (tr ++ [(Socket family SOCK_STREAM 0, fd)] ++ [(Connect fd (Raw sa), 0)])).
Proof.
  intros gai sa. destruct (address_text (St := unit) family addr Haddr) as (host & Hlen & Hne & _ & Hnum).
  destruct (port_text port Hport) as (Hdig & _ & _). exists host. split; [done|].
  assert (Hgai : ∀ t, t = SOCK_STREAM ∨ t = SOCK_DGRAM ∨ t = SOCK_RAW →
    gai host (print_d port) (mk_hints 0 AF_UNSPEC t) = Some [mk_ai family t 0 sa]).
  { intros t Ht. unfold gai, library_getaddrinfo. cbn [hint_flags hint_family hint_socktype].
    rewrite (addresses_numeric _ _ _ host family addr (print_d port) port t); try done.
    - destruct Haddr as [_ [[-> _]|[-> _]]]; auto.
    - unfold is_int, INT_MIN, INT_MAX. lia.
    - apply scan_d_print_end. }
  assert (Hneg : ∀ tr c, (ask tr c <? 0) = false) by (intros tr' c; apply Z.ltb_ge, Hask).
  split; cbv zeta.
  - unfold udp_client, sock_of. rewrite Hgai by auto. cbn [try_addrs]. unfold socket_attempt, new_socket, try.
    unfold mbind, M_bind, get, modify, mret, M_ret. cbn [ai_family ai_socktype ai_protocol ai_addr].
    by rewrite (proj2 (Z.leb_le _ _) (Hask _ _)).
  - unfold tcp_connect, sock_of. rewrite Hgai by auto. cbn [try_addrs]. unfold connect_attempt, new_socket, try.
    unfold mbind, M_bind, get, modify, mret, M_ret. cbn [ai_family ai_socktype ai_protocol ai_addr].
    rewrite Hneg, Hconn. cbn [Z.eqb]. by rewrite <- app_assoc.
Qed.

Lemma numeric_names_open_socket_witness :
  ∃ host, numeric host tt = Done (Some (AF_INET6, replicate 15 0 ++ [1])) tt ∧
    tcp_connect (λ _ _, 0) (library_getaddrinfo no_services no_host2 no_host) host "8080" [] =
      Done 0 [(Socket AF_INET6 SOCK_STREAM 0, 0);
              (Connect 0 (Raw [10; 0; 31; 144; 0; 0; 0; 0; 0; 0; 0; 0; 0; 0; 0; 0; 0; 0; 0; 0; 0; 0; 0; 1; 0; 0; 0; 0]), 0)].
Proof.
  destruct (numeric_names_open_socket (λ _ _, 0) no_services no_host2 no_host AF_INET6 8080 (replicate 15 0 ++ [1]) []
    loopback6_ok (conj (proj1 (Z.leb_le 0 8080) eq_refl) (proj1 (Z.ltb_lt 8080 65536) eq_refl))
    (λ _ _, proj1 (Z.leb_le 0 0) eq_refl) (λ _ _ _, eq_refl)) as (host & Hnum & _ & Htcp).
  exists host. split; [exact Hnum|exact Htcp].
Defined.
