(* ===== verification/Interfaces.v ===== *)
(** The lists of network interfaces the programs start from: get_hw_addrs
    (Assignments 3 and 4, get_hw_addrs.c) and get_ifi_info_plus (Assignment 2).

    The kernel is asked for its table with a buffer that grows until two answers have
    the same length.  On the platform the repository is configured and compiled for
    (config.h: x86_64, Linux) a request structure has 40 bytes: a name of 16 and a
    union of 24, the largest member of which is not an address.  get_hw_addrs walks the
    table by structures, get_ifi_info_plus by names and addresses. *)

From S2P Require Export CStr.

(** * Data *)

Definition sizeof_ifreq : Z := 40.
Definition IF_NAME : nat := 16.

(** struct ifreq of the table: the name, the family and the bytes of the address. *)
Record ifreq := mk_ifreq {
  ifr_name : string;
  sa_family : Z;
  ifr_addr : list Z (* the bytes of the union behind the name *)
}.

(** What SIOCGIFCONF reports for a buffer of some length. *)
Inductive conf_reply := ConfOk (table : list ifreq) | ConfError (einval : bool).

(** struct hwa_info *)
Record hwa_info := mk_hwa {
  if_name : string;
  if_haddr : list Z;
  if_index : Z;
  ip_alias : Z;
  hwa_ip : list Z
}.

Definition IP_ALIAS : Z := 1.

(** struct ifi_info, without the index and the hardware address, which stay 0 on this
    platform.  A pointer that is always set, or NULL for a family without the field, is
    a list of bytes, empty for NULL. *)
Record ifi_info := mk_ifi {
  ifi_name : string;
  ifi_flags : Z;
  ifi_mtu : Z;
  ifi_myflags : Z;
  ifi_addr : list Z;
  ifi_brdaddr : option (list Z);
  ifi_dstaddr : option (list Z);
  ifi_ntmaddr : list Z
}.

Definition IFI_ALIAS : Z := 1.
Definition IFF_UP : Z := 1.
Definition IFF_BROADCAST : Z := 2.
Definition IFF_POINTOPOINT : Z := 16.
Definition AF_INET : Z := 2.
Definition AF_INET6 : Z := 10.

(** The conversion to [short]. *)
Definition s16 (x : Z) : Z := (x + 32768) mod 65536 - 32768.

(** * The table of the kernel *)

Section conf.
Context (ioctl : Z → conf_reply).

(** [for ( ; ; ) { buf = malloc(len); ioctl(SIOCGIFCONF); ... len += 10 * ...; }] *)
Fixpoint conf_loop (fuel : nat) (len lastlen : Z) : M unit (list ifreq) :=
  match fuel with
  | O => undef Diverges
  | S fuel' =>
      match ioctl len with
      | ConfError einval =>
          if negb einval || negb (lastlen =? 0) then exit 1
          else len' ← int_op (len + 10 * sizeof_ifreq); conf_loop fuel' len' lastlen
      | ConfOk table =>
          let ifc_len := sizeof_ifreq * Z.of_nat (length table) in
          if ifc_len =? lastlen then mret table
          else len' ← int_op (len + 10 * sizeof_ifreq); conf_loop fuel' len' ifc_len
      end
  end.

Definition if_table (fuel : nat) : M unit (list ifreq) := conf_loop fuel (100 * sizeof_ifreq) 0.
End conf.

(** * get_hw_addrs *)

(** The name in front of a colon. *)
Fixpoint cut_colon (s : string) : string :=
  match s with
  | EmptyString => EmptyString
  | String c r => if Ascii.eqb c ":" then EmptyString else String c (cut_colon r)
  end.

Section hw.
(** SIOCGIFHWADDR and SIOCGIFINDEX for a name; on failure the union keeps what it held. *)
Context (ioctl : Z → conf_reply) (hwaddr : string → option (list Z)) (ifindex : string → option Z)
  (union_int : list Z → Z).

(** The body of the loop: the interface [item], and the name of the one before it. *)
Definition hwa_entry (lastname : string) (item : ifreq) : hwa_info :=
  let name := cut_colon (ifr_name item) in
  let alias := if streq lastname name then IP_ALIAS else 0 in
  let u := default (ifr_addr item) (hwaddr name) in
  mk_hwa (ifr_name item) (take 6 (drop 2 u)) (default (union_int u) (ifindex name)) alias
    (take 16 (ifr_addr item)).

Fixpoint hwa_list (lastname : string) (items : list ifreq) : list hwa_info :=
  match items with
  | [] => []
  | item :: items' => hwa_entry lastname item :: hwa_list (cut_colon (ifr_name item)) items'
  end.

Definition get_hw_addrs (fuel : nat) : M unit (list hwa_info) :=
  table ← if_table ioctl fuel;
  mret (hwa_list EmptyString table).

(** [Get_hw_addrs]: no interface ends the program. *)
Definition Get_hw_addrs (fuel : nat) : M unit (list hwa_info) :=
  l ← get_hw_addrs fuel;
  match l with [] => exit 1 | _ => mret l end.
End hw.

(** * get_ifi_info_plus *)

(** The table in the buffer: a name, and the union, filled up with zeros. *)
Definition enc_ifreq (r : ifreq) : list Z :=
  enc_str IF_NAME (ifr_name r) ++ take 24 (ifr_addr r ++ replicate 24 0).
Definition conf_bytes (table : list ifreq) : list Z := table ≫= enc_ifreq.

(** A name in an array, with or without terminator. *)
Fixpoint name_of (bs : list Z) : string :=
  match bs with
  | [] => EmptyString
  | b :: bs' => if b =? 0 then EmptyString else String (byte_char b) (name_of bs')
  end.

(** [ifr->ifr_addr.sa_family] and the length of the address, for [ifr] at [p]. *)
Definition family_at (buf : list Z) (p : nat) : Z := le_combine (take 2 (drop (p + 16) buf)).
Definition addr_len (family : Z) : nat := if family =? AF_INET6 then 28 else 16.

(** [for (ptr = buf; ptr < buf + ifc.ifc_len; ) { ...; ptr += sizeof(ifr->ifr_name) + len; ... }]:
    the requests the loop looks at. *)
Fixpoint requests (fuel : nat) (buf : list Z) (ifc_len p : nat) : M unit (list ifreq) :=
  if (p <? ifc_len)%nat then
    match fuel with
    | O => undef Diverges
    | S fuel' =>
        let family := family_at buf p in
        let q := (p + 16 + addr_len family)%nat in
        if (q <=? length buf)%nat then
          l ← requests fuel' buf ifc_len q;
          mret (mk_ifreq (name_of (take 16 (drop p buf))) family (take (addr_len family) (drop (p + 16) buf)) :: l)
        else undef OutOfBounds
    end
  else mret [].

Section ifi.
(** The calls for one name; the wrapper ends the program when one fails. *)
Context (ioctl : Z → conf_reply).
Context (get_flags get_mtu : string → option Z) (get_brd get_dst get_mask : string → option (list Z)).
(** What lies in the buffer behind the table. *)
Context (junk : list Z).

Definition Ioctl {St A} (r : option A) : M St A :=
  match r with Some a => mret a | None => exit 1 end.

(** The structure for the request [r]; for AF_INET6 the address has 28 bytes, and other
    families keep none. *)
Definition ifi_entry (r : ifreq) (flags myflags : Z) : M unit ifi_info :=
  mtu ← Ioctl (get_mtu (ifr_name r));
  if sa_family r =? AF_INET then
    brd ← if Z.land flags IFF_BROADCAST =? 0 then mret None
          else b ← Ioctl (get_brd (ifr_name r)); mret (Some b);
    dst ← if Z.land flags IFF_POINTOPOINT =? 0 then mret None
          else d ← Ioctl (get_dst (ifr_name r)); mret (Some d);
    mask ← Ioctl (get_mask (ifr_name r));
    mret (mk_ifi (String.substring 0 15 (ifr_name r)) flags (s16 mtu) myflags (ifr_addr r) brd dst mask)
  else if sa_family r =? AF_INET6 then
    dst ← if Z.land flags IFF_POINTOPOINT =? 0 then mret None
          else d ← Ioctl (get_dst (ifr_name r)); mret (Some d);
    mret (mk_ifi (String.substring 0 15 (ifr_name r)) flags (s16 mtu) myflags (ifr_addr r) None dst [])
  else mret (mk_ifi (String.substring 0 15 (ifr_name r)) flags (s16 mtu) myflags [] None None []).

Fixpoint ifi_list (family : Z) (doaliases : bool) (lastname : string) (reqs : list ifreq)
    : M unit (list ifi_info) :=
  match reqs with
  | [] => mret []
  | r :: reqs' =>
      if negb (sa_family r =? family) then ifi_list family doaliases lastname reqs'
      else if streq lastname (ifr_name r) && negb doaliases then ifi_list family doaliases lastname reqs'
      else
        let myflags := if streq lastname (ifr_name r) then IFI_ALIAS else 0 in
        flags ← Ioctl (get_flags (ifr_name r));
        if Z.land flags IFF_UP =? 0 then ifi_list family doaliases (ifr_name r) reqs'
        else
          i ← ifi_entry r flags myflags;
          l ← ifi_list family doaliases (ifr_name r) reqs';
          mret (i :: l)
  end.

Definition get_ifi_info_plus (fuel : nat) (family : Z) (doaliases : bool) : M unit (list ifi_info) :=
  table ← if_table ioctl fuel;
  reqs ← requests (S (length table * 2)) (conf_bytes table ++ junk) (40 * length table) 0;
  ifi_list family doaliases EmptyString reqs.

Definition Get_ifi_info_plus (fuel : nat) (family : Z) (doaliases : bool) : M unit (list ifi_info) :=
  l ← get_ifi_info_plus fuel family doaliases;
  match l with [] => exit 1 | _ => mret l end.
End ifi.

(** * Properties *)

(** What the manuals say of SIOCGIFCONF for a table [all]: as many requests as fit
    (Linux), or EINVAL when not all of them fit (Solaris). *)
Definition truncates (ioctl : Z → conf_reply) (all : list ifreq) : Prop :=
  ∀ len, 0 ≤ len → ioctl len = ConfOk (take (Z.to_nat (len / sizeof_ifreq)) all).
Definition refuses (ioctl : Z → conf_reply) (all : list ifreq) : Prop :=
  ∀ len, 0 ≤ len → ioctl len = if sizeof_ifreq * Z.of_nat (length all) <=? len then ConfOk all else ConfError true.

Section conf_proofs.
Context (ioctl : Z → conf_reply) (all : list ifreq).
Context (Hsize : sizeof_ifreq * (Z.of_nat (length all) + 200) ≤ INT_MAX).

(** A buffer with room for [room] requests. *)
Lemma grow_run (room : nat) (k : Z → M unit (list ifreq)) :
  (room ≤ length all + 100)%nat →
  (len' ← int_op (Z.of_nat room * sizeof_ifreq + 10 * sizeof_ifreq); k len') tt =
  k (Z.of_nat (room + 10) * sizeof_ifreq) tt.
Proof.
  intros Hr. unfold int_op, is_int, sizeof_ifreq, INT_MIN, INT_MAX in *.
  destruct (Z.leb_spec (- 2 ^ 31) (Z.of_nat room * 40 + 10 * 40)),
    (Z.leb_spec (Z.of_nat room * 40 + 10 * 40) (2 ^ 31 - 1)); try lia.
  cbn [andb]. rewrite bind_ret. do 2 f_equal. lia.
Qed.

Lemma truncates_ioctl room :
  truncates ioctl all → ioctl (Z.of_nat room * sizeof_ifreq) = ConfOk (take room all).
Proof.
  intros H. rewrite H by (unfold sizeof_ifreq; lia). unfold sizeof_ifreq.
  rewrite Z.div_mul by done. by rewrite Nat2Z.id.
Qed.

(** The answer to the buffer before was [room - 10] requests, or all of them. *)
Lemma conf_loop_truncates fuel room :
  truncates ioctl all → (10 ≤ room)%nat →
  (length all + 20 < room + fuel * 10)%nat → (0 < fuel)%nat →
  conf_loop ioctl fuel (Z.of_nat room * sizeof_ifreq)
    (sizeof_ifreq * Z.of_nat (Nat.min (room - 10) (length all))) tt = Done all tt.
Proof.
  intros Hio. revert room. induction fuel as [|fuel IH]; intros room Hr Hf Hpos; [lia|].
  cbn [conf_loop]. rewrite truncates_ioctl by done. rewrite length_take.
  destruct (Z.eqb_spec (sizeof_ifreq * Z.of_nat (Nat.min room (length all)))
    (sizeof_ifreq * Z.of_nat (Nat.min (room - 10) (length all)))) as [Heq|Hne].
  - rewrite take_ge; [done|]. unfold sizeof_ifreq in Heq. lia.
  - assert (room - 10 < length all)%nat.
    { destruct (decide (length all ≤ room - 10)%nat); [|lia]. exfalso. apply Hne. do 2 f_equal. lia. }
    rewrite grow_run by lia. replace room with (room + 10 - 10)%nat at 2 by lia. apply IH; lia.
Qed.

Lemma conf_loop_refuses fuel room :
  refuses ioctl all → (room ≤ length all + 100)%nat →
  (length all + 20 < room + fuel * 10)%nat → (1 < fuel)%nat →
  conf_loop ioctl fuel (Z.of_nat room * sizeof_ifreq) 0 tt = Done all tt.
Proof.
  intros Hio. revert room. induction fuel as [|fuel IH]; intros room Hr Hf Hpos; [lia|].
  cbn [conf_loop]. rewrite Hio by (unfold sizeof_ifreq; lia).
  destruct (Z.leb_spec (sizeof_ifreq * Z.of_nat (length all)) (Z.of_nat room * sizeof_ifreq)) as [Hle|Hgt].
  - destruct (Z.eqb_spec (sizeof_ifreq * Z.of_nat (length all)) 0); [done|].
    rewrite grow_run by lia. destruct fuel as [|fuel]; [lia|]. cbn [conf_loop].
    rewrite Hio by (unfold sizeof_ifreq; lia).
    destruct (Z.leb_spec (sizeof_ifreq * Z.of_nat (length all)) (Z.of_nat (room + 10) * sizeof_ifreq));
      [|unfold sizeof_ifreq in *; lia]. by rewrite Z.eqb_refl.
  - cbn [negb orb]. change (0 =? 0) with true. cbn [negb]. unfold sizeof_ifreq in Hgt.
    rewrite grow_run by lia. apply IH; lia.
Qed.
End conf_proofs.

Lemma if_table_run ioctl all fuel :
  truncates ioctl all ∨ refuses ioctl all →
  sizeof_ifreq * (Z.of_nat (length all) + 200) ≤ INT_MAX → (length all / 10 + 3 ≤ fuel)%nat →
  if_table ioctl fuel tt = Done all tt.
Proof.
  intros Hio Hsize Hf. assert (Hdiv : (length all < (length all / 10) * 10 + 10)%nat).
  { pose proof (Nat.div_mod (length all) 10 ltac:(lia)). pose proof (Nat.mod_upper_bound (length all) 10 ltac:(lia)). lia. }
  unfold if_table. change (100 * sizeof_ifreq) with (Z.of_nat 100 * sizeof_ifreq).
  destruct Hio as [Hio|Hio]; [|apply conf_loop_refuses; (done || lia)].
  destruct fuel as [|fuel]; [lia|]. cbn [conf_loop]. rewrite (truncates_ioctl ioctl all) by done. rewrite length_take.
  destruct (Z.eqb_spec (sizeof_ifreq * Z.of_nat (Nat.min 100 (length all))) 0) as [Heq|Hne].
  - unfold sizeof_ifreq in Heq. destruct all as [|r l]; [done|]. cbn [length] in Heq. lia.
  - rewrite (grow_run all Hsize 100) by lia. change (Nat.min 100) with (Nat.min (110 - 10)).
    change (100 + 10)%nat with 110%nat. apply conf_loop_truncates; (done || lia).
Qed.

(** C27: the loop that asks for the table ends, with the whole table: for a kernel that
    truncates and for one that refuses, a number of turns a tenth of the number of
    interfaces plus three is enough, and the length of the buffer does not overflow. *)
Theorem if_table_complete ioctl all fuel :
  truncates ioctl all ∨ refuses ioctl all →
  sizeof_ifreq * (Z.of_nat (length all) + 200) ≤ INT_MAX → (length all / 10 + 3 ≤ fuel)%nat →
  if_table ioctl fuel tt = Done all tt.
Proof. apply if_table_run. Qed.

(** The names in front of the colons, each with the one of the entry before it. *)
Definition with_previous {A} (first : string) (name : A → string) (l : list A) : list (string * A) :=
  zip (first :: (name <$> l)) l.

(** [get_hw_addrs] lists every interface once, in the order of the table; an entry
    is an alias exactly when the name in front of its colon is that of the entry before
    it, and otherwise it is not. *)
Theorem hwa_list_aliases hwaddr ifindex union_int table :
  hwa_list hwaddr ifindex union_int EmptyString table =
  (λ '(before, r), hwa_entry hwaddr ifindex union_int before r) <$>
    with_previous EmptyString (λ r, cut_colon (ifr_name r)) table ∧
  ∀ i r r', table !! i = Some r → table !! S i = Some r' →
    ∃ h, hwa_list hwaddr ifindex union_int EmptyString table !! S i = Some h ∧ if_name h = ifr_name r' ∧
         (ip_alias h = IP_ALIAS ↔ cut_colon (ifr_name r) = cut_colon (ifr_name r')).
Proof.
  assert (Hall : ∀ first, hwa_list hwaddr ifindex union_int first table =
    (λ '(before, r), hwa_entry hwaddr ifindex union_int before r) <$>
      with_previous first (λ r, cut_colon (ifr_name r)) table).
  { induction table as [|r table IH]; intros first; [done|]. cbn [hwa_list]. rewrite IH. done. }
  split; [apply Hall|]. intros i r r' Hr Hr'. rewrite Hall.
  exists (hwa_entry hwaddr ifindex union_int (cut_colon (ifr_name r)) r'). split; [|split; [done|]].
  - rewrite list_lookup_fmap. unfold with_previous. rewrite lookup_zip_with, lookup_cons_ne_0 by done. cbn [Nat.pred].
    rewrite list_lookup_fmap, Hr. cbn. by rewrite Hr'.
  - unfold hwa_entry. cbn [ip_alias]. destruct (streq _ _) eqn:He.
    + apply streq_eq in He. done.
    + apply streq_neq in He. split; [discriminate|done].
Qed.

(** The structure the code builds when every call succeeds. *)
Definition ifi_value (get_flags get_mtu : string → option Z) (get_brd get_dst get_mask : string → option (list Z))
    (before : string) (r : ifreq) : ifi_info :=
  let name := ifr_name r in
  let flags := default 0 (get_flags name) in
  let mtu := s16 (default 0 (get_mtu name)) in
  let myflags := if streq before name then IFI_ALIAS else 0 in
  let dst := if Z.land flags IFF_POINTOPOINT =? 0 then None else get_dst name in
  if sa_family r =? AF_INET then
    mk_ifi (String.substring 0 15 name) flags mtu myflags (ifr_addr r)
      (if Z.land flags IFF_BROADCAST =? 0 then None else get_brd name) dst (default [] (get_mask name))
  else if sa_family r =? AF_INET6 then
    mk_ifi (String.substring 0 15 name) flags mtu myflags (ifr_addr r) None dst []
  else mk_ifi (String.substring 0 15 name) flags mtu myflags [] None None [].

Lemma omap_with_previous {A B} (f : string * A → option B) first name x l :
  omap f (with_previous first name (x :: l)) =
  match f (first, x) with
  | Some y => y :: omap f (with_previous (name x) name l)
  | None => omap f (with_previous (name x) name l)
  end.
Proof. done. Qed.

Section selection.
Context (get_flags get_mtu : string → option Z) (get_brd get_dst get_mask : string → option (list Z)).
(** Every call for a name succeeds. *)
Context (Hfl : ∀ n, is_Some (get_flags n)) (Hmtu : ∀ n, is_Some (get_mtu n)) (Hbrd : ∀ n, is_Some (get_brd n))
  (Hdst : ∀ n, is_Some (get_dst n)) (Hmask : ∀ n, is_Some (get_mask n)).

Lemma ifi_entry_run before r fl :
  get_flags (ifr_name r) = Some fl →
  ifi_entry get_mtu get_brd get_dst get_mask r fl (if streq before (ifr_name r) then IFI_ALIAS else 0) tt =
  Done (ifi_value get_flags get_mtu get_brd get_dst get_mask before r) tt.
Proof.
  intros Hf. destruct (Hmtu (ifr_name r)) as [mtu Ht], (Hbrd (ifr_name r)) as [brd Hb],
    (Hdst (ifr_name r)) as [dst Hd], (Hmask (ifr_name r)) as [mask Hm].
  unfold ifi_value, ifi_entry. rewrite Hf, Ht, Hb, Hd, Hm. change (default 0 (Some fl)) with fl.
  destruct (sa_family r =? AF_INET), (sa_family r =? AF_INET6), (Z.land fl IFF_BROADCAST =? 0),
    (Z.land fl IFF_POINTOPOINT =? 0); done.
Qed.

(** The list the loop makes of the requests it looks at. *)
Definition selected (family : Z) (doaliases : bool) (reqs : list ifreq) : list ifi_info :=
  omap (λ '(before, r),
      if (streq before (ifr_name r) && negb doaliases) || (Z.land (default 0 (get_flags (ifr_name r))) IFF_UP =? 0)
      then None else Some (ifi_value get_flags get_mtu get_brd get_dst get_mask before r))
    (with_previous EmptyString ifr_name (filter (λ r, sa_family r = family) reqs)).

Lemma ifi_list_run family doaliases reqs :
  ifi_list get_flags get_mtu get_brd get_dst get_mask family doaliases EmptyString reqs tt =
  Done (selected family doaliases reqs) tt.
Proof.
  unfold selected. generalize EmptyString as first. induction reqs as [|r reqs IH]; intros first; [done|].
  cbn [ifi_list]. rewrite filter_cons. destruct (Z.eqb_spec (sa_family r) family) as [Hfam|Hfam]; cbn [negb].
  2:{ rewrite decide_False by done. apply IH. }
  rewrite decide_True, omap_with_previous by done. specialize (IH (ifr_name r)).
  set (tail := omap _ (with_previous (ifr_name r) _ _)) in *. clearbody tail.
  destruct (streq first (ifr_name r) && negb doaliases) eqn:Hskip; cbn [orb].
  { apply andb_true_iff in Hskip as [->%streq_eq _]. exact IH. }
  destruct (Hfl (ifr_name r)) as [fl Hf]. rewrite Hf. cbn [Ioctl]. rewrite bind_ret.
  change (default 0 (Some fl)) with fl. destruct (Z.land fl IFF_UP =? 0); [exact IH|].
  run_step (ifi_entry_run first r fl Hf). by run_step IH.
Qed.

(** [get_ifi_info_plus] lists, in their order, exactly the requests it looks at that
    are of the wanted family and whose interface is up, without those that have the
    name of the request of this family before them when aliases are not wanted; these
    are the ones it marks as aliases. *)
Theorem ifi_list_selects family doaliases reqs :
  ifi_list get_flags get_mtu get_brd get_dst get_mask family doaliases EmptyString reqs tt =
  Done (omap (λ '(before, r),
          if (streq before (ifr_name r) && negb doaliases) || (Z.land (default 0 (get_flags (ifr_name r))) IFF_UP =? 0)
          then None else Some (ifi_value get_flags get_mtu get_brd get_dst get_mask before r))
        (with_previous EmptyString ifr_name (filter (λ r, sa_family r = family) reqs))) tt.
Proof. apply ifi_list_run. Qed.
End selection.

(** * A table *)

Definition request (name : string) : ifreq := mk_ifreq name AF_INET (repeat 7 16).
Definition table3 : list ifreq := [request "lo"; request "eth0"; request "eth0:1"]%string.
Definition linux (len : Z) : conf_reply := ConfOk (take (Z.to_nat (len / sizeof_ifreq)) table3).

Lemma if_table_complete_witness : if_table linux 3 tt = Done table3 tt.
Proof.
  exact (if_table_complete linux table3 3 (or_introl (λ len _, eq_refl)) ltac:(vm_compute; discriminate)
    ltac:(apply (bool_decide_unpack _); vm_compute; exact I)).
Defined.

Lemma ifi_list_selects_witness :
  ∃ l, ifi_list (λ _, Some 1) (λ _, Some 1500) (λ _, Some []) (λ _, Some []) (λ _, Some []) AF_INET false EmptyString table3 tt =
       Done l tt ∧ map ifi_name l = ["lo"; "eth0"; "eth0:1"]%string.
Proof.
  rewrite (ifi_list_selects (λ _, Some 1) (λ _, Some 1500) (λ _, Some []) (λ _, Some []) (λ _, Some [])
    (λ _, ex_intro _ _ eq_refl) (λ _, ex_intro _ _ eq_refl) (λ _, ex_intro _ _ eq_refl) (λ _, ex_intro _ _ eq_refl)
    (λ _, ex_intro _ _ eq_refl) AF_INET false table3).
  eexists. split; [reflexivity|]. vm_compute. reflexivity.
Defined.
