(* ===== verification/IfWalk.v ===== *)
(** What get_ifi_info_plus (Assignment 2) sees of the table of interfaces.  It steps
    through the table by a name and an address, 32 bytes; the requests of this platform
    have 40.  Only every fourth request is read where it starts. *)

From S2P Require Export Interfaces.

(** An interface as the kernel reports it: a name of up to 15 characters, none of them a
    control character, and an IPv4 address whose last eight bytes are zeros. *)
Record listed (r : ifreq) : Prop := {
  ls_name : Forall (λ b, 32 ≤ b) (str_bytes (ifr_name r));
  ls_short : (String.length (ifr_name r) < IF_NAME)%nat;
  ls_nul : no_nul (ifr_name r) = true;
  ls_family : sa_family r = AF_INET;
  ls_addr : ∃ six, length six = 6%nat ∧ ifr_addr r = 2 :: 0 :: six ++ replicate 8 0
}.

(** What malloc left behind the table, read as a request without a name. *)
Definition beyond (bs : list Z) : ifreq := mk_ifreq EmptyString (le_combine (take 2 bs)) (take 16 bs).

(** The first entry of every four; and, when the last group has one or two, a last one
    from behind the table. *)
Fixpoint seen (junk : list Z) (table : list ifreq) : list ifreq :=
  match table with
  | [] => []
  | r :: [] => [r; beyond (drop 8 junk)]
  | r :: _ :: [] => [r; beyond junk]
  | r :: _ :: _ :: table' => r :: match table' with [] => [] | _ :: table'' => seen junk table'' end
  end.

(** * One entry *)

Lemma name_of_enc cap s rest :
  no_nul s = true → (String.length s < cap)%nat → name_of (enc_str cap s ++ rest) = s.
Proof.
  unfold enc_str. revert cap. induction s as [|c s IH]; intros cap Hn Hl; simpl in *.
  - destruct cap as [|cap]; [lia|]. done.
  - apply andb_true_iff in Hn as [Hc Hn]. destruct (Z.eqb_spec (char_byte c) 0) as [H0|_].
    + rewrite <- (byte_char_byte c), H0 in Hc. done.
    + destruct cap as [|cap]; [lia|]. rewrite byte_char_byte. f_equal. apply IH; [done|lia].
Qed.

(** A byte of a name: its end, or no control character. *)
Definition name_byte (b : Z) : Prop := b = 0 ∨ 32 ≤ b.

(** The 40 bytes of an entry: the name in two groups of eight, the address, zeros. *)
Lemma enc_listed r :
  listed r → ∃ n1 n2 six, length n1 = 8%nat ∧ length n2 = 8%nat ∧ length six = 6%nat ∧
    Forall name_byte n1 ∧ Forall name_byte n2 ∧
    enc_ifreq r = n1 ++ n2 ++ (2 :: 0 :: six) ++ replicate 8 0 ++ replicate 8 0 ∧
    name_of (n1 ++ n2) = ifr_name r ∧ ifr_addr r = 2 :: 0 :: six ++ replicate 8 0.
Proof.
  intros [Hc Hl Hn Hf (six & H6 & Ha)]. set (nm := enc_str IF_NAME (ifr_name r)).
  assert (Hlen : length nm = 16%nat) by (apply (length_enc_str IF_NAME); lia).
  assert (Hb : Forall name_byte nm).
  { apply Forall_app. split; [|apply Forall_replicate; by left]. eapply Forall_impl; [exact Hc|]. intros x Hx. by right. }
  exists (take 8 nm), (drop 8 nm), six. split_and!; [| |done|by apply Forall_take|by apply Forall_drop| | |done].
  - rewrite length_take. lia.
  - rewrite length_drop. lia.
  - unfold enc_ifreq. fold nm. rewrite app_assoc, take_drop, Ha. f_equal. do 7 (destruct six as [|? six]; try done).
  - rewrite take_drop, <- (app_nil_r nm). by apply name_of_enc.
Qed.

Lemma requests_shift fuel pre buf n p :
  requests fuel (pre ++ buf) (length pre + n) (length pre + p) tt = requests fuel buf n p tt.
Proof.
  revert p. induction fuel as [|fuel IH]; intros p; cbn [requests];
    (destruct (Nat.ltb_spec p n), (Nat.ltb_spec (length pre + p) (length pre + n)); try lia; [|done]); [done|].
  unfold family_at. replace (length pre + p + 16)%nat with (length pre + (p + 16))%nat by lia.
  rewrite !(drop_app_add pre). set (f := le_combine _). rewrite length_app.
  destruct (Nat.leb_spec (p + 16 + addr_len f) (length buf)),
    (Nat.leb_spec (length pre + (p + 16) + addr_len f) (length pre + length buf)); try lia; [|done].
  replace (length pre + (p + 16) + addr_len f)%nat with (length pre + (p + 16 + addr_len f))%nat by lia.
  unfold mbind, M_bind. by rewrite IH.
Qed.

(** One step of the walk, at an address that is not of AF_INET6. *)
Lemma requests_step fuel buf n p :
  (p < n)%nat → (p + 32 ≤ length buf)%nat → family_at buf p ≠ AF_INET6 →
  requests (S fuel) buf n p tt =
  (l ← requests fuel buf n (p + 32);
   mret (mk_ifreq (name_of (take 16 (drop p buf))) (family_at buf p) (take 16 (drop (p + 16) buf)) :: l)) tt.
Proof.
  intros Hp Hb Hf. cbn [requests]. unfold addr_len. destruct (Z.eqb_spec (family_at buf p) AF_INET6); [done|].
  replace (p + 16 + 16)%nat with (p + 32)%nat by lia.
  by destruct (Nat.ltb_spec p n), (Nat.leb_spec (p + 32) (length buf)); try lia.
Qed.

(** A step in front of [rest]: the first 32 bytes are given by four groups of eight. *)
Lemma requests_groups fuel g1 g2 g3 g4 rest n l :
  (0 < n)%nat → length g1 = 8%nat → length g2 = 8%nat → length g3 = 8%nat → length g4 = 8%nat →
  le_combine (take 2 g3) ≠ AF_INET6 → requests fuel rest (n - 32) 0 tt = Done l tt →
  requests (S fuel) (g1 ++ g2 ++ g3 ++ g4 ++ rest) n 0 tt =
  Done (mk_ifreq (name_of (g1 ++ g2)) (le_combine (take 2 g3)) (g3 ++ g4) :: l) tt.
Proof.
  intros Hn H1 H2 H3 H4 Hf Hl.
  assert (Hfam : family_at (g1 ++ g2 ++ g3 ++ g4 ++ rest) 0 = le_combine (take 2 g3)).
  { unfold family_at. rewrite (app_assoc g1), drop_app_length' by (rewrite length_app; lia).
    by rewrite take_app_le by lia. }
  rewrite requests_step; [|lia|rewrite !length_app; lia|by rewrite Hfam]. rewrite Hfam.
  assert (Hname : take 16 (drop 0 (g1 ++ g2 ++ g3 ++ g4 ++ rest)) = g1 ++ g2).
  { rewrite drop_0, (app_assoc g1). apply take_app_length'. rewrite length_app. lia. }
  assert (Haddr : take 16 (drop (0 + 16) (g1 ++ g2 ++ g3 ++ g4 ++ rest)) = g3 ++ g4).
  { rewrite (app_assoc g1), drop_app_length', (app_assoc g3) by (rewrite length_app; lia).
    apply take_app_length'. rewrite length_app. lia. }
  rewrite Hname, Haddr.
  assert (Hrest : requests fuel (g1 ++ g2 ++ g3 ++ g4 ++ rest) n (0 + 32) tt = requests fuel rest (n - 32) 0 tt).
  { set (pre := g1 ++ g2 ++ g3 ++ g4).
    assert (Hpre : length pre = 32%nat) by (unfold pre; rewrite !length_app; lia).
    replace (g1 ++ g2 ++ g3 ++ g4 ++ rest) with (pre ++ rest) by (unfold pre; by rewrite <- !app_assoc).
    destruct (Nat.le_gt_cases 32 n).
    - rewrite <- (requests_shift fuel pre rest (n - 32) 0), Hpre. f_equal; lia.
    - replace (n - 32)%nat with 0%nat by lia.
      by destruct fuel; cbn [requests]; destruct (Nat.ltb_spec (0 + 32) n); try lia. }
  rewrite Hl in Hrest. by rewrite (bind_Done _ _ _ _ _ Hrest).
Qed.

Lemma requests_end fuel buf : requests fuel buf 0 0 tt = Done [] tt.
Proof. by destruct fuel. Qed.

Lemma name_family g : Forall name_byte g → length g = 8%nat →
  le_combine (take 2 g) ≠ AF_INET ∧ le_combine (take 2 g) ≠ AF_INET6.
Proof.
  intros Hb Hl. destruct g as [|c [|d g]]; [done..|]. rewrite !Forall_cons in Hb. destruct Hb as (Hc & Hd & _).
  unfold name_byte in *. cbn [take le_combine]. unfold AF_INET, AF_INET6.
  rewrite take_0. cbn [le_combine]. lia.
Qed.

(** A step that starts in the table and reads the family behind it. *)
Lemma requests_beyond fuel pre bs n :
  length (0 :: pre) = 16%nat → (0 < n ≤ 32)%nat → (28 ≤ length bs)%nat →
  ∃ l, requests (S fuel) ((0 :: pre) ++ bs) n 0 tt = Done l tt ∧
    filter (λ r, sa_family r = AF_INET) l = filter (λ r, sa_family r = AF_INET) [beyond bs].
Proof.
  intros Hp Hn Hb. cbn [requests]. destruct (Nat.ltb_spec 0 n); [|lia].
  assert (Hdrop : drop (0 + 16) ((0 :: pre) ++ bs) = bs) by by rewrite drop_app_length' by done.
  unfold family_at. rewrite !Hdrop. set (family := le_combine (take 2 bs)).
  assert (Hlen : (16 ≤ addr_len family ≤ 28)%nat) by (unfold addr_len; destruct (family =? AF_INET6); lia).
  rewrite length_app, Hp. destruct (Nat.leb_spec (0 + 16 + addr_len family) (16 + length bs)); [|lia].
  assert (Hend : requests fuel ((0 :: pre) ++ bs) n (0 + 16 + addr_len family) tt = Done [] tt).
  { destruct fuel; cbn [requests]; destruct (Nat.ltb_spec (0 + 16 + addr_len family) n); (lia || done). }
  rewrite (bind_Done _ _ _ _ _ Hend). eexists. split; [reflexivity|].
  rewrite drop_0, take_app_length' by done. unfold beyond. fold family. rewrite !filter_cons. cbn [sa_family name_of Z.eqb].
  destruct (decide (family = AF_INET)) as [Hf|]; [|done]. by rewrite Hf.
Qed.

(** The four groups of the next step; the family is an address, a name, or zeros. *)
Ltac groups :=
  rewrite <- ?app_assoc; eapply requests_groups;
  [lia|try reflexivity; simpl; lia|try reflexivity; simpl; lia|try reflexivity; simpl; lia|try reflexivity; simpl; lia
  |first [vm_compute; discriminate|by apply name_family]|].

(** A family that is read from a name, from zeros, or from an address. *)
Lemma filter_own r l a : listed r → a = r → filter (λ r, sa_family r = AF_INET) (a :: l) = r :: filter (λ r, sa_family r = AF_INET) l.
Proof. intros Hr ->. rewrite filter_cons, decide_True; [done|by apply ls_family]. Qed.
Lemma filter_other r l : sa_family r ≠ AF_INET → filter (λ r, sa_family r = AF_INET) (r :: l) = filter (λ r, sa_family r = AF_INET) l.
Proof. intros Hr. by rewrite filter_cons, decide_False. Qed.

Lemma own_entry r n1 n2 six :
  listed r → name_of (n1 ++ n2) = ifr_name r → ifr_addr r = 2 :: 0 :: six ++ replicate 8 0 →
  mk_ifreq (name_of (n1 ++ n2)) (le_combine (take 2 (2 :: 0 :: six))) ((2 :: 0 :: six) ++ replicate 8 0) = r.
Proof. intros [_ _ _ Hf _] -> Ha. destruct r as [nm fam ad]. simpl in *. by rewrite Hf, Ha. Qed.

(** The walk over a table of requests of this platform. *)
Lemma walk_sees N junk : (44 ≤ length junk)%nat → ∀ fuel table,
  (length table ≤ N)%nat → Forall listed table → (length table * 2 < fuel)%nat →
  ∃ l, requests fuel (conf_bytes table ++ junk) (40 * length table) 0 tt = Done l tt ∧
       filter (λ r, sa_family r = AF_INET) l = filter (λ r, sa_family r = AF_INET) (seen junk table).
Proof.
  intros Hj. induction N as [|N IH]; intros fuel table HN Hok Hf.
  { destruct table; [|simpl in HN; lia]. exists []. by rewrite requests_end. }
  assert (Hcons : ∀ r t, conf_bytes (r :: t) = enc_ifreq r ++ conf_bytes t) by done.
  destruct table as [|r0 table]; [exists []; by rewrite requests_end|].
  apply Forall_cons in Hok as [Hr0 Hok]. destruct (enc_listed r0 Hr0) as (a0 & b0 & s0 & ? & ? & ? & Ha0 & Hb0 & He0 & Hn0 & Hs0).
  do 2 (destruct fuel as [|fuel]; [simpl in Hf; lia|]).
  destruct table as [|r1 table].
  { change (40 * length [r0])%nat with 40%nat. rewrite Hcons, He0. change (conf_bytes []) with (@nil Z). rewrite app_nil_r.
    destruct (requests_beyond fuel (replicate 7 0 ++ take 8 junk) (drop 8 junk) 8) as (l & Hl & Hsel);
      [cbn [length]; rewrite length_app, length_take, length_replicate; lia|lia|rewrite length_drop; lia|].
    eexists. split; [groups; cbn [replicate app Nat.sub] in Hl |- *; rewrite take_drop in Hl; exact Hl|].
    cbn [seen]. rewrite (filter_own r0), (filter_own r0 _ r0) by (done || by apply own_entry). by rewrite Hsel. }
  apply Forall_cons in Hok as [Hr1 Hok]. destruct (enc_listed r1 Hr1) as (a1 & b1 & s1 & ? & ? & ? & Ha1 & Hb1 & He1 & _).
  destruct (name_family b1 Hb1 ltac:(done)) as [Hf1 _].
  do 2 (destruct fuel as [|fuel]; [simpl in Hf; lia|]).
  destruct table as [|r2 table].
  { change (40 * length [r0; r1])%nat with 80%nat. rewrite !Hcons, He0, He1. change (conf_bytes []) with (@nil Z). rewrite app_nil_r.
    destruct (requests_beyond (S fuel) (replicate 15 0) junk 16) as (l & Hl & Hsel); [done|lia|lia|].
    eexists. split; [groups; groups; exact Hl|].
    cbn [seen]. rewrite (filter_own r0), (filter_own r0 _ r0) by (done || by apply own_entry).
    by rewrite filter_other, Hsel by done. }
  apply Forall_cons in Hok as [Hr2 Hok]. destruct (enc_listed r2 Hr2) as (a2 & b2 & s2 & ? & ? & ? & Ha2 & Hb2 & He2 & _).
  destruct (name_family a2 Ha2 ltac:(done)) as [Hf2 _].
  do 2 (destruct fuel as [|fuel]; [simpl in Hf; lia|]).
  destruct table as [|r3 table].
  { change (40 * length [r0; r1; r2])%nat with 120%nat. rewrite !Hcons, He0, He1, He2. change (conf_bytes []) with (@nil Z).
    rewrite app_nil_r. assert (∃ j8 j', length j8 = 8%nat ∧ junk = j8 ++ j') as (j8 & j' & H8 & ->)
      by (exists (take 8 junk), (drop 8 junk); rewrite take_drop, length_take; split; [lia|done]). eexists.
    split; [groups; groups; groups; groups; apply requests_end|].
    cbn [seen]. rewrite (filter_own r0), (filter_own r0 _ r0) by (done || by apply own_entry). by rewrite !filter_other by done. }
  apply Forall_cons in Hok as [Hr3 Hok]. destruct (enc_listed r3 Hr3) as (a3 & b3 & s3 & ? & ? & ? & Ha3 & Hb3 & He3 & _).
  cbn [length] in HN, Hf. destruct (IH (S fuel) table ltac:(lia) Hok ltac:(lia)) as (l & Hl & Hsel).
  replace (40 * length (r0 :: r1 :: r2 :: r3 :: table))%nat with (160 + 40 * length table)%nat by (cbn [length]; lia).
  rewrite !Hcons, He0, He1, He2, He3. eexists. split.
  - groups; groups; groups; groups; groups.
    replace (160 + 40 * length table - 32 - 32 - 32 - 32 - 32)%nat with (40 * length table)%nat by lia. exact Hl.
  - cbn [seen]. rewrite (filter_own r0), (filter_own r0 _ r0) by (done || by apply own_entry). rewrite !filter_other by done. by rewrite Hsel.
Qed.

Lemma selected_own gf gm gb gd gk family doaliases reqs :
  selected gf gm gb gd gk family doaliases (filter (λ r, sa_family r = family) reqs) =
  selected gf gm gb gd gk family doaliases reqs.
Proof. unfold selected. by rewrite list_filter_filter_l by done. Qed.

(** C31: What [get_ifi_info_plus] lists on a 64-bit platform.  The kernel's table has
    entries of 40 bytes, and the loop takes steps of 32: it reads an entry where it
    starts only once in four, and at the other places sees no address.  So, when every
    call succeeds, it lists the interfaces that are up among the first of the table, the
    fifth, the ninth and so on; up to four interfaces are taken for one.  Whatever
    malloc left in the buffer behind the table: with 4k+1 or 4k+2 interfaces the loop
    reads one request more from there, without a name, which counts when it looks
    like an IPv4 address.  Names have up to 15 characters, none a control character, and
    the kernel fills the addresses up with zeros, as Linux does. *)
Theorem ifi_misses_interfaces (ioctl : Z → conf_reply) (get_flags get_mtu : string → option Z)
    (get_brd get_dst get_mask : string → option (list Z)) (table : list ifreq) (fuel : nat) (junk : list Z) (doaliases : bool)
    (Hio : truncates ioctl table ∨ refuses ioctl table)
    (Hsize : sizeof_ifreq * (Z.of_nat (length table) + 200) ≤ INT_MAX) (Hfuel : (length table / 10 + 3 ≤ fuel)%nat)
    (Hfl : ∀ n, is_Some (get_flags n)) (Hmtu : ∀ n, is_Some (get_mtu n)) (Hbrd : ∀ n, is_Some (get_brd n))
    (Hdst : ∀ n, is_Some (get_dst n)) (Hmask : ∀ n, is_Some (get_mask n))
    (Hlisted : Forall listed table) (Hjunk : (44 ≤ length junk)%nat) :
  get_ifi_info_plus ioctl get_flags get_mtu get_brd get_dst get_mask junk fuel AF_INET doaliases tt =
  Done (selected get_flags get_mtu get_brd get_dst get_mask AF_INET doaliases (seen junk table)) tt.
Proof.
  unfold get_ifi_info_plus. rewrite (bind_Done _ _ _ _ _ (if_table_run ioctl table fuel Hio Hsize Hfuel)).
  destruct (walk_sees (length table) junk Hjunk (S (length table * 2)) table) as (l & Hl & Hsel); [done|done|lia|].
  rewrite (bind_Done _ _ _ _ _ Hl), ifi_list_run by done. f_equal.
  by rewrite <- (selected_own _ _ _ _ _ _ _ l), Hsel, selected_own.
Qed.

(** Four interfaces, all of them up. *)
Definition addr_of_if (a b c d : Z) : list Z := 2 :: 0 :: [0; 0; a; b; c; d] ++ replicate 8 0.
Definition four : list ifreq :=
  [mk_ifreq "lo" AF_INET (addr_of_if 127 0 0 1); mk_ifreq "eth0" AF_INET (addr_of_if 130 245 1 44);
   mk_ifreq "eth0:1" AF_INET (addr_of_if 192 168 1 44); mk_ifreq "eth1" AF_INET (addr_of_if 192 168 2 44)].

Lemma four_listed : Forall listed four.
Proof.
  repeat constructor; try done; try (vm_compute; discriminate); try (unfold IF_NAME; simpl; lia); by eexists [_; _; _; _; _; _].
Qed.

(** What malloc may leave: the address 10.0.0.1 of an earlier table, every 8 bytes. *)
Definition stale_bytes : list Z := concat (replicate 50 [2; 0; 0; 0; 10; 0; 0; 1]).

(** Of five interfaces the first, the fifth and one that does not exist are listed. *)
Definition fifth : ifreq := mk_ifreq "wlan0_5ghz_ap" AF_INET (addr_of_if 10 0 0 2).
Definition five : list ifreq := four ++ [fifth].

Lemma ifi_misses_interfaces_witness :
  get_ifi_info_plus (λ len, ConfOk (take (Z.to_nat (len / sizeof_ifreq)) five)) (λ _, Some 1) (λ _, Some 1500)
    (λ _, Some []) (λ _, Some []) (λ _, Some []) stale_bytes 3 AF_INET true tt =
  Done [mk_ifi "lo" 1 1500 0 (addr_of_if 127 0 0 1) None None [];
        mk_ifi "wlan0_5ghz_ap" 1 1500 0 (addr_of_if 10 0 0 2) None None [];
        mk_ifi "" 1 1500 0 [2; 0; 0; 0; 10; 0; 0; 1; 2; 0; 0; 0; 10; 0; 0; 1] None None []] tt.
Proof.
  assert (Hfive : Forall listed five).
  { apply Forall_app. split; [apply four_listed|]. apply Forall_cons. split; [|by apply Forall_nil].
    constructor; try done; [repeat constructor; vm_compute; discriminate|unfold IF_NAME; simpl; lia|by eexists [_; _; _; _; _; _]]. }
  exact (ifi_misses_interfaces (λ len, ConfOk (take (Z.to_nat (len / sizeof_ifreq)) five)) (λ _, Some 1) (λ _, Some 1500)
    (λ _, Some []) (λ _, Some []) (λ _, Some []) five 3 stale_bytes true (or_introl (λ len _, eq_refl))
    ltac:(vm_compute; discriminate) (proj1 (Nat.leb_le (length five / 10 + 3) 3) eq_refl)
    (λ _, ex_intro _ _ eq_refl) (λ _, ex_intro _ _ eq_refl) (λ _, ex_intro _ _ eq_refl) (λ _, ex_intro _ _ eq_refl)
    (λ _, ex_intro _ _ eq_refl) Hfive (proj1 (Nat.leb_le 44 (length stale_bytes)) eq_refl)).
Defined.
