(* ===== verification/IfMemory.v ===== *)
(** The lists of interfaces in memory (get_hw_addrs.c of Assignments 3 and 4,
    get_ifi_info_plus.c of Assignment 2): the loops that link a new structure behind the
    last one, the addresses the structures point to, and the functions that free them.
    The memory is a finite map of blocks; what the loops leave there is a list as
    [Interfaces] computes it, and freeing it gives back the memory of before. *)

From S2P Require Export IfWalk Memory.

(** * Memory *)

(** struct hwa_info and struct ifi_info; [None] is NULL. *)
Record hwa_node := mk_hwa_node {
  hn_name : string;
  hn_haddr : list Z;
  hn_index : Z;
  hn_alias : Z;
  hn_addr : option nat;
  hn_next : option nat
}.

Record ifi_node := mk_ifi_node {
  in_name : string;
  in_flags : Z;
  in_mtu : Z;
  in_myflags : Z;
  in_addr : option nat;
  in_brdaddr : option nat;
  in_dstaddr : option nat;
  in_ntmaddr : option nat;
  in_next : option nat
}.

(** What a block holds besides a socket address: the buffer of SIOCGIFCONF, or a
    structure. *)
Inductive if_block :=
  | TableBlock (table : list ifreq)
  | HwaBlock (n : hwa_node)
  | IfiBlock (n : ifi_node).
Abbreviation Table t := (Node (TableBlock t)).
Abbreviation Hwa n := (Node (HwaBlock n)).
Abbreviation Ifi n := (Node (IfiBlock n)).
Abbreviation block := (Memory.block if_block).
Abbreviation mem := (Memory.mem if_block).

(** [malloc] and [calloc] as [Malloc] and [Calloc] use them: the wrappers return only
    with memory, the address of which was not in use. *)
Class Blocks := {
  calloc_at : mem → nat;
  calloc_fresh : ∀ h, h !! calloc_at h = None
}.

Definition table_at (a : nat) : M mem (list ifreq) :=
  b ← block_at a; match b with Table t => mret t | _ => undef BadPointer end.
Definition hwa_at (a : nat) : M mem hwa_node :=
  b ← block_at a; match b with Hwa n => mret n | _ => undef BadPointer end.
Definition ifi_at (a : nat) : M mem ifi_node :=
  b ← block_at a; match b with Ifi n => mret n | _ => undef BadPointer end.
Definition set_hwa (a : nat) (f : hwa_node → hwa_node) : M mem unit := n ← hwa_at a; set_block a (Hwa (f n)).
Definition set_ifi (a : nat) (f : ifi_node → ifi_node) : M mem unit := n ← ifi_at a; set_block a (Ifi (f n)).

Section alloc.
Context `{Blocks}.
Definition Calloc (b : block) : M mem nat :=
  h ← get; modify (λ h, <[calloc_at h := b]> h);; mret (calloc_at h).

(** [p = Calloc(1, n); memcpy(p, bs, n);] *)
Definition new_bytes (bs : list Z) : M mem nat :=
  p ← Calloc (Bytes (replicate (length bs) 0)); set_block p (Bytes bs);; mret p.
End alloc.

(** * The buffer *)

Section table.
Context `{Blocks} (ioctl : Z → conf_reply).

(** The loop around SIOCGIFCONF: every turn has a buffer of its own, and the last one is
    left for the loop that reads it. *)
Fixpoint conf_buffer (fuel : nat) (len lastlen : Z) : M mem nat :=
  match fuel with
  | O => undef Diverges
  | S fuel' =>
      buf ← Calloc (Table []);
      match ioctl len with
      | ConfError einval =>
          if negb einval || negb (lastlen =? 0) then exit 1
          else len' ← int_op (len + 10 * sizeof_ifreq); free_block (Some buf);; conf_buffer fuel' len' lastlen
      | ConfOk table =>
          set_block buf (Table table);;
          let ifc_len := sizeof_ifreq * Z.of_nat (length table) in
          if ifc_len =? lastlen then mret buf
          else len' ← int_op (len + 10 * sizeof_ifreq); free_block (Some buf);; conf_buffer fuel' len' ifc_len
      end
  end.
End table.

(** * get_hw_addrs *)

Section hw.
Context `{Blocks} (ioctl : Z → conf_reply) (hwaddr : string → option (list Z)) (ifindex : string → option Z)
  (union_int : list Z → Z).

(** [*hwapnext = hwa]: [None] is the local variable, [Some a] the member of the last
    structure. *)
Definition link_hwa (slot : option nat) (hwa : nat) (hwahead : option nat) : M mem (option nat) :=
  match slot with
  | None => mret (Some hwa)
  | Some a =>
      set_hwa a (λ n, mk_hwa_node (hn_name n) (hn_haddr n) (hn_index n) (hn_alias n) (hn_addr n) (Some hwa));;
      mret hwahead
  end.

Definition build_hwa_entry (lastname : string) (item : ifreq) (hwahead slot : option nat)
    : M mem (option nat * nat) :=
  hwa ← Calloc (Hwa (mk_hwa_node EmptyString (replicate 6 0) 0 0 None None));
  set_hwa hwa (λ n, mk_hwa_node (ifr_name item) (hn_haddr n) (hn_index n) (hn_alias n) (hn_addr n) (hn_next n));;
  let name := cut_colon (ifr_name item) in
  let alias := if streq lastname name then IP_ALIAS else 0 in
  hwahead' ← link_hwa slot hwa hwahead;
  set_hwa hwa (λ n, mk_hwa_node (hn_name n) (hn_haddr n) (hn_index n) alias (hn_addr n) (hn_next n));;
  ip ← new_bytes (take 16 (ifr_addr item));
  set_hwa hwa (λ n, mk_hwa_node (hn_name n) (hn_haddr n) (hn_index n) (hn_alias n) (Some ip) (hn_next n));;
  let u := default (ifr_addr item) (hwaddr name) in
  set_hwa hwa (λ n, mk_hwa_node (hn_name n) (take 6 (drop 2 u)) (hn_index n) (hn_alias n) (hn_addr n) (hn_next n));;
  set_hwa hwa (λ n, mk_hwa_node (hn_name n) (hn_haddr n) (default (union_int u) (ifindex name)) (hn_alias n)
    (hn_addr n) (hn_next n));;
  mret (hwahead', hwa).

Fixpoint build_hwa_list (lastname : string) (items : list ifreq) (hwahead slot : option nat)
    : M mem (option nat) :=
  match items with
  | [] => mret hwahead
  | item :: items' =>
      '(hwahead', hwa) ← build_hwa_entry lastname item hwahead slot;
      build_hwa_list (cut_colon (ifr_name item)) items' hwahead' (Some hwa)
  end.

Definition get_hw_addrs_mem (fuel : nat) : M mem (option nat) :=
  buf ← conf_buffer ioctl fuel (100 * sizeof_ifreq) 0;
  items ← table_at buf;
  hwahead ← build_hwa_list EmptyString items None None;
  free_block (Some buf);;
  mret hwahead.
End hw.

(** [for (hwa = hwahead; hwa != NULL; hwa = hwanext)] *)
Fixpoint free_hwa_loop (fuel : nat) (hwa : option nat) : M mem unit :=
  match hwa with
  | None => mret tt
  | Some a =>
      match fuel with
      | O => undef Diverges
      | S fuel' =>
          n ← hwa_at a;
          free_block (hn_addr n);;
          n ← hwa_at a;
          free_block (Some a);;
          free_hwa_loop fuel' (hn_next n)
      end
  end.
Definition free_hwa_info (hwahead : option nat) : M mem unit := h ← get; free_hwa_loop (size h) hwahead.

(** * get_ifi_info_plus *)

Section ifi.
Context `{Blocks} (ioctl : Z → conf_reply).
Context (get_flags get_mtu : string → option Z) (get_brd get_dst get_mask : string → option (list Z)).
Context (junk : list Z).

(** [*ifipnext = ifi] *)
Definition link_ifi (slot : option nat) (ifi : nat) (ifihead : option nat) : M mem (option nat) :=
  match slot with
  | None => mret (Some ifi)
  | Some a =>
      set_ifi a (λ n, mk_ifi_node (in_name n) (in_flags n) (in_mtu n) (in_myflags n) (in_addr n) (in_brdaddr n)
        (in_dstaddr n) (in_ntmaddr n) (Some ifi));;
      mret ifihead
  end.

(** [ifi->ifi_addr = Calloc(...); memcpy(ifi->ifi_addr, ...);] and the same for the
    other addresses. *)
Definition set_addr (ifi : nat) (bs : list Z) : M mem unit :=
  p ← new_bytes bs;
  set_ifi ifi (λ n, mk_ifi_node (in_name n) (in_flags n) (in_mtu n) (in_myflags n) (Some p) (in_brdaddr n)
    (in_dstaddr n) (in_ntmaddr n) (in_next n)).
Definition set_brdaddr (ifi : nat) (bs : list Z) : M mem unit :=
  p ← new_bytes bs;
  set_ifi ifi (λ n, mk_ifi_node (in_name n) (in_flags n) (in_mtu n) (in_myflags n) (in_addr n) (Some p)
    (in_dstaddr n) (in_ntmaddr n) (in_next n)).
Definition set_dstaddr (ifi : nat) (bs : list Z) : M mem unit :=
  p ← new_bytes bs;
  set_ifi ifi (λ n, mk_ifi_node (in_name n) (in_flags n) (in_mtu n) (in_myflags n) (in_addr n) (in_brdaddr n)
    (Some p) (in_ntmaddr n) (in_next n)).
Definition set_ntmaddr (ifi : nat) (bs : list Z) : M mem unit :=
  p ← new_bytes bs;
  set_ifi ifi (λ n, mk_ifi_node (in_name n) (in_flags n) (in_mtu n) (in_myflags n) (in_addr n) (in_brdaddr n)
    (in_dstaddr n) (Some p) (in_next n)).

Definition build_ifi_entry (r : ifreq) (flags myflags : Z) (ifihead slot : option nat)
    : M mem (option nat * nat) :=
  let name := ifr_name r in
  ifi ← Calloc (Ifi (mk_ifi_node EmptyString 0 0 0 None None None None None));
  ifihead' ← link_ifi slot ifi ifihead;
  set_ifi ifi (λ n, mk_ifi_node (in_name n) flags (in_mtu n) myflags (in_addr n) (in_brdaddr n) (in_dstaddr n)
    (in_ntmaddr n) (in_next n));;
  mtu ← Ioctl (get_mtu name);
  set_ifi ifi (λ n, mk_ifi_node (String.substring 0 15 name) (in_flags n) (s16 mtu) (in_myflags n) (in_addr n)
    (in_brdaddr n) (in_dstaddr n) (in_ntmaddr n) (in_next n));;
  (if sa_family r =? AF_INET then
     set_addr ifi (ifr_addr r);;
     when (negb (Z.land flags IFF_BROADCAST =? 0)) (b ← Ioctl (get_brd name); set_brdaddr ifi b);;
     when (negb (Z.land flags IFF_POINTOPOINT =? 0)) (d ← Ioctl (get_dst name); set_dstaddr ifi d);;
     mask ← Ioctl (get_mask name);
     set_ntmaddr ifi mask
   else if sa_family r =? AF_INET6 then
     set_addr ifi (ifr_addr r);;
     when (negb (Z.land flags IFF_POINTOPOINT =? 0)) (d ← Ioctl (get_dst name); set_dstaddr ifi d)
   else mret tt);;
  mret (ifihead', ifi).

Fixpoint build_ifi_list (family : Z) (doaliases : bool) (lastname : string) (reqs : list ifreq)
    (ifihead slot : option nat) : M mem (option nat) :=
  match reqs with
  | [] => mret ifihead
  | r :: reqs' =>
      if negb (sa_family r =? family) then build_ifi_list family doaliases lastname reqs' ifihead slot
      else if streq lastname (ifr_name r) && negb doaliases then
        build_ifi_list family doaliases lastname reqs' ifihead slot
      else
        let myflags := if streq lastname (ifr_name r) then IFI_ALIAS else 0 in
        flags ← Ioctl (get_flags (ifr_name r));
        if Z.land flags IFF_UP =? 0 then build_ifi_list family doaliases (ifr_name r) reqs' ifihead slot
        else
          '(ifihead', ifi) ← build_ifi_entry r flags myflags ifihead slot;
          build_ifi_list family doaliases (ifr_name r) reqs' ifihead' (Some ifi)
  end.

(** The requests of the buffer, which ends the program or fails as [requests] does. *)
Definition lift_requests (r : res unit (list ifreq)) : M mem (list ifreq) :=
  match r with Done l _ => mret l | Exited c _ => exit c | Undefined u => undef u end.

Definition get_ifi_info_plus_mem (fuel : nat) (family : Z) (doaliases : bool) : M mem (option nat) :=
  buf ← conf_buffer ioctl fuel (100 * sizeof_ifreq) 0;
  table ← table_at buf;
  reqs ← lift_requests (requests (S (length table * 2)) (conf_bytes table ++ junk) (40 * length table) 0 tt);
  ifihead ← build_ifi_list family doaliases EmptyString reqs None None;
  free_block (Some buf);;
  mret ifihead.
End ifi.

(** [for (ifi = ifihead; ifi != NULL; ifi = ifinext)] *)
Fixpoint free_ifi_loop (fuel : nat) (ifi : option nat) : M mem unit :=
  match ifi with
  | None => mret tt
  | Some a =>
      match fuel with
      | O => undef Diverges
      | S fuel' =>
          n ← ifi_at a; when (bool_decide (is_Some (in_addr n))) (free_block (in_addr n));;
          n ← ifi_at a; when (bool_decide (is_Some (in_brdaddr n))) (free_block (in_brdaddr n));;
          n ← ifi_at a; when (bool_decide (is_Some (in_dstaddr n))) (free_block (in_dstaddr n));;
          n ← ifi_at a; when (bool_decide (is_Some (in_ntmaddr n))) (free_block (in_ntmaddr n));;
          n ← ifi_at a;
          free_block (Some a);;
          free_ifi_loop fuel' (in_next n)
      end
  end.
Definition free_ifi_info_plus (ifihead : option nat) : M mem unit := h ← get; free_ifi_loop (size h) ifihead.

(** * Code with memory against code without *)

(** [sim p m R h]: [m] on the memory [h] ends as [p] did: with values and a memory
    related by [R], in the same call of [exit], or undefined for the same reason. *)
Definition sim {A B} (p : res unit A) (m : M mem B) (R : A → B → mem → Prop) (h : mem) : Prop :=
  match p with
  | Done a _ => wp (λ _ _, False) m (R a) h
  | Exited c _ => wp (λ c' _, c' = c) m (λ _ _, False) h
  | Undefined u => m h = Undefined u
  end.

Section sim_rules.
Context {A A' B B' : Type}.
Implicit Types (p : M unit A) (m : M mem B).

Lemma sim_bind p (k : A → M unit A') m (k' : B → M mem B') R R' h :
  sim (p tt) m R h → (∀ a b h', R a b h' → sim (k a tt) (k' b) R' h') →
  sim ((p ≫= k) tt) (m ≫= k') R' h.
Proof.
  unfold sim, wpx, mbind, M_bind. intros Hp Hk. destruct (p tt) as [a []|c []|u]; [|by destruct (m h)|].
  - destruct (m h) as [b h'|c h'|u]; [|done..]. by specialize (Hk a b h' Hp).
  - by rewrite Hp.
Qed.

Lemma sim_step (r : res unit A) m (k : B → M mem B') (R : A → B' → mem → Prop) h b h' :
  m h = Done b h' → sim r (k b) R h' → sim r (m ≫= k) R h.
Proof. unfold sim, wpx, mbind, M_bind. by intros ->. Qed.

Lemma sim_eq (r : res unit A) m (m' : M mem B) (R : A → B → mem → Prop) h : m h = m' h → sim r m' R h → sim r m R h.
Proof. unfold sim, wpx. by intros ->. Qed.

Lemma sim_post (r : res unit A) m (R R' : A → B → mem → Prop) h :
  (∀ a b h', R a b h' → R' a b h') → sim r m R h → sim r m R' h.
Proof. unfold sim, wpx. intros HR. destruct r; [|done..]. destruct (m h); try done. apply HR. Qed.
End sim_rules.

(** One more step on one side. *)
Lemma sim_done {A B} (a : A) (m : M mem B) b (R : A → B → mem → Prop) h h' :
  m h = Done b h' → R a b h' → sim (Done a tt) m R h.
Proof. unfold sim, wpx. by intros ->. Qed.

Lemma sim_tail {A B C} (r : res unit A) (m : M mem B) (c : C) R h :
  sim r m (λ a _ h', R a c h') h → sim r (m;; mret c) R h.
Proof.
  unfold sim, wpx, mbind, M_bind. destruct r as [a []|e []|u]; [by destruct (m h)| |by intros ->].
  by destruct (m h).
Qed.

Lemma sim_after {A B C} (r : res unit A) (m : M mem B) (k : B → M mem C) R R' h :
  sim r m R h → (∀ a b h', R a b h' → sim (Done a tt) (k b) R' h') → sim r (m ≫= k) R' h.
Proof.
  unfold sim, wpx, mbind, M_bind. intros Hp Hk. destruct r as [a []|e []|u]; [| |by rewrite Hp];
    (destruct (m h); [|done..]); [by apply Hk|done].
Qed.

Lemma sim_bind_l {A A' B} (p : M unit A) (k : A → A') (m : M mem B) R R' h :
  sim (p tt) m R h → (∀ a b h', R a b h' → R' (k a) b h') → sim ((a ← p; mret (k a)) tt) m R' h.
Proof.
  unfold sim, wpx, mbind, M_bind. intros Hp Hk. destruct (p tt) as [a []|e []|u]; [|done..].
  cbn. destruct (m h); [by apply Hk|done..].
Qed.

Lemma sim_Ioctl {A A' B'} (r : option A) (k : A → M unit A') (k' : A → M mem B') R h :
  (∀ a, r = Some a → sim (k a tt) (k' a) R h) → sim ((Ioctl r ≫= k) tt) (Ioctl r ≫= k') R h.
Proof. destruct r as [a|]; intros H; [by apply H|]. done. Qed.

(** * Steps on the memory *)

Lemma set_hwa_at a f n (h : mem) : h !! a = Some (Hwa n) → set_hwa a f h = Done tt (<[a := Hwa (f n)]> h).
Proof.
  intros Ha. assert (Hn : hwa_at a h = Done n h).
  { unfold hwa_at. by rewrite (bind_Done _ _ _ _ _ (block_at_run a _ h Ha)). }
  unfold set_hwa. rewrite (bind_Done _ _ _ _ _ Hn). by apply (set_block_run a (Hwa n)).
Qed.

Lemma set_ifi_at a f n (h : mem) : h !! a = Some (Ifi n) → set_ifi a f h = Done tt (<[a := Ifi (f n)]> h).
Proof.
  intros Ha. assert (Hn : ifi_at a h = Done n h).
  { unfold ifi_at. by rewrite (bind_Done _ _ _ _ _ (block_at_run a _ h Ha)). }
  unfold set_ifi. rewrite (bind_Done _ _ _ _ _ Hn). by apply (set_block_run a (Ifi n)).
Qed.

Lemma set_hwa_run a f n (h : mem) : set_hwa a f (<[a := Hwa n]> h) = Done tt (<[a := Hwa (f n)]> h).
Proof. rewrite (set_hwa_at a f n) by apply lookup_insert_eq. by rewrite insert_insert_eq. Qed.

Lemma set_ifi_run a f n (h : mem) : set_ifi a f (<[a := Ifi n]> h) = Done tt (<[a := Ifi (f n)]> h).
Proof. rewrite (set_ifi_at a f n) by apply lookup_insert_eq. by rewrite insert_insert_eq. Qed.

Lemma Calloc_run `{Blocks} b (h : mem) : Calloc b h = Done (calloc_at h) (<[calloc_at h := b]> h).
Proof. done. Qed.

(** An address for the structure at [a]. *)
Lemma new_bytes_run `{Blocks} bs a x (h : mem) :
  ∃ p, new_bytes bs (<[a := x]> h) = Done p (<[a := x]> (<[p := Bytes bs]> h)) ∧ p ≠ a ∧ h !! p = None.
Proof.
  set (h' := <[a := x]> h). pose proof (calloc_fresh h') as Hf. exists (calloc_at h').
  unfold new_bytes. rewrite (bind_Done _ _ _ _ _ (Calloc_run _ h')).
  rewrite (bind_Done _ _ _ _ _ (set_block_run _ _ _ _ (lookup_insert_eq _ _ _))), insert_insert_eq.
  apply lookup_insert_None in Hf as [Hf Hne]. split; [|by split]. unfold mret, M_ret. f_equal. by apply insert_insert_ne.
Qed.

(** * get_hw_addrs *)

Definition hwa_block (x : hwa_info) (ps : list (option nat)) (nx : option nat) : block :=
  Hwa (mk_hwa_node (if_name x) (if_haddr x) (if_index x) (ip_alias x) (mjoin (ps !! 0%nat)) nx).
Definition hwa_fields (x : hwa_info) : list (option (list Z)) := [Some (hwa_ip x)].

(** A list [l] of struct hwa_info, which is all of the memory [m]. *)
Definition hwa_in (l : list hwa_info) (head : option nat) (m : mem) : Prop :=
  seg hwa_block hwa_fields l head None m.
Abbreviation hwa_opened := (opened hwa_block hwa_fields).

Section hw_proofs.
Context `{Blocks} (hwaddr : string → option (list Z)) (ifindex : string → option Z) (union_int : list Z → Z).

Lemma link_hwa_run l head slot m h a n :
  hwa_opened l head slot m → m ##ₘ h → (m ∪ h) !! a = None →
  ∃ head' m', link_hwa slot a head (<[a := Hwa n]> (m ∪ h)) = Done head' (<[a := Hwa n]> (m' ∪ h)) ∧
              seg hwa_block hwa_fields l head' (Some a) m' ∧ m' ##ₘ h ∧ (m' ∪ h) !! a = None.
Proof.
  intros Ho Hd Ha. destruct slot as [b|].
  - destruct (link_at _ _ l head b m h a (Hwa n) Ho Hd Ha) as (x & ps & Hb & m' & Hm & Hs & Hd' & Ha').
    exists head, m'. split; [|done]. unfold link_hwa. rewrite (bind_Done _ _ _ _ _ (set_hwa_at _ _ _ _ Hb)).
    unfold mret, M_ret. f_equal. exact Hm.
  - destruct (opened_link _ _ l head None m a Ho) as [-> Hs]. exists (Some a), ∅. by split.
Qed.

Lemma build_hwa_entry_run last item l head slot m h :
  hwa_opened l head slot m → m ##ₘ h →
  ∃ head' a m', build_hwa_entry hwaddr ifindex union_int last item head slot (m ∪ h) = Done (head', a) (m' ∪ h) ∧
    m' ##ₘ h ∧ hwa_opened (l ++ [hwa_entry hwaddr ifindex union_int last item]) head' (Some a) m'.
Proof.
  intros Ho Hd. unfold build_hwa_entry. set (a := calloc_at (m ∪ h)). pose proof (calloc_fresh (m ∪ h)) as Ha.
  rewrite (bind_Done _ _ _ _ _ (Calloc_run _ _)), (bind_Done _ _ _ _ _ (set_hwa_run _ _ _ _)). cbn zeta.
  edestruct (link_hwa_run l head slot m h a) as (head' & m1 & Hl & Hs & Hd1 & Ha1); [done..|].
  rewrite (bind_Done _ _ _ _ _ Hl), (bind_Done _ _ _ _ _ (set_hwa_run _ _ _ _)).
  edestruct (new_bytes_run (take 16 (ifr_addr item)) a) as (p & Hp & Hpa & Hpm).
  rewrite (bind_Done _ _ _ _ _ Hp). do 3 rewrite (bind_Done _ _ _ _ _ (set_hwa_run _ _ _ _)).
  cbn [hn_name hn_haddr hn_index hn_alias hn_addr hn_next].
  apply lookup_union_None in Hpm as [Hp1 Hp2].
  set (x := hwa_entry hwaddr ifindex union_int last item).
  assert (Hown : owns (hwa_fields x) [Some p] {[p := Bytes (N:=if_block) (take 16 (ifr_addr item))]}).
  { unfold singletonM, map_singleton. repeat constructor. }
  destruct (opened_last hwa_block hwa_fields l x head' a [Some p] _ m1 h Hs Hown) as (Hm & Hdm & Hop).
  - by apply map_disjoint_singleton_r.
  - apply map_disjoint_union_l. split; [done|]. by apply map_disjoint_singleton_l.
  - apply lookup_union_None in Ha1 as [? ?]. by rewrite !lookup_union_None, lookup_singleton_ne.
  - exists head', a, (<[a := hwa_block x [Some p] None]> (m1 ∪ {[p := Bytes (take 16 (ifr_addr item))]})).
    split; [|done]. rewrite <- Hm. unfold mret, M_ret. f_equal. f_equal.
    rewrite insert_union_l, (insert_union_singleton_r m1) by done. done.
Qed.

Lemma build_hwa_list_run last items l head slot m h :
  hwa_opened l head slot m → m ##ₘ h →
  ∃ head' m', build_hwa_list hwaddr ifindex union_int last items head slot (m ∪ h) = Done head' (m' ∪ h) ∧
    m' ##ₘ h ∧ hwa_in (l ++ hwa_list hwaddr ifindex union_int last items) head' m'.
Proof.
  revert last l head slot m. induction items as [|item items IH]; intros last l head slot m Ho Hd.
  - exists head, m. split; [done|]. split; [done|]. cbn [hwa_list]. rewrite app_nil_r. by eapply opened_seg.
  - destruct (build_hwa_entry_run last item l head slot m h Ho Hd) as (head' & a & m' & Hr & Hd' & Ho').
    cbn [build_hwa_list hwa_list]. rewrite (bind_Done _ _ _ _ _ Hr). rewrite cons_middle, app_assoc. by apply IH.
Qed.
End hw_proofs.

(** * The buffer and what is freed *)

Lemma conf_buffer_sim `{Blocks} ioctl fuel len lastlen h :
  sim (conf_loop ioctl fuel len lastlen tt) (conf_buffer ioctl fuel len lastlen)
    (λ table buf h', h' = <[buf := Table table]> h ∧ h !! buf = None) h.
Proof.
  revert len lastlen. induction fuel as [|fuel IH]; intros len lastlen; [done|]. cbn [conf_loop conf_buffer].
  pose proof (calloc_fresh h) as Hf. eapply sim_step; [apply Calloc_run|].
  assert (Hgrow : ∀ b l, sim ((len' ← int_op (len + 10 * sizeof_ifreq); conf_loop ioctl fuel len' l) tt)
    (len' ← int_op (len + 10 * sizeof_ifreq); free_block (Some (calloc_at h));; conf_buffer ioctl fuel len' l)
    (λ table buf h', h' = <[buf := Table table]> h ∧ h !! buf = None) (<[calloc_at h := b]> h)).
  { intros b l. unfold int_op. destruct (is_int _); [|done]. rewrite bind_ret.
    eapply sim_step; [reflexivity|]. eapply sim_step; [by apply (free_block_run _ b), lookup_insert_eq|].
    rewrite delete_insert_id by done. apply IH. }
  destruct (ioctl len) as [table|einval].
  - eapply sim_step; [by apply (set_block_run _ (Table [])), lookup_insert_eq|]. rewrite insert_insert_eq.
    destruct (_ =? lastlen); [by split|]. apply Hgrow.
  - destruct (negb einval || negb (lastlen =? 0)); [done|]. apply Hgrow.
Qed.

Lemma hwa_at_run a n (h : mem) : hwa_at a (<[a := Hwa n]> h) = Done n (<[a := Hwa n]> h).
Proof. unfold hwa_at. by rewrite (bind_Done _ _ _ _ _ (block_at_run a _ _ (lookup_insert_eq _ _ _))). Qed.
Lemma ifi_at_run a n (h : mem) : ifi_at a (<[a := Ifi n]> h) = Done n (<[a := Ifi n]> h).
Proof. unfold ifi_at. by rewrite (bind_Done _ _ _ _ _ (block_at_run a _ _ (lookup_insert_eq _ _ _))). Qed.

Lemma free_hwa_loop_run l : ∀ fuel head m h,
  hwa_in l head m → m ##ₘ h → (length l ≤ fuel)%nat → free_hwa_loop fuel head (m ∪ h) = Done tt h.
Proof.
  induction l as [|x l IH]; intros fuel head m h Hs Hd Hf.
  { inversion Hs; subst. rewrite map_empty_union. by destruct fuel. }
  destruct (seg_inv _ _ _ _ _ _ _ Hs Hd) as (a & ps & q & mf & m' & -> & -> & Ho & Hs' & Hd' & Hdf & Ha).
  destruct fuel as [|fuel]; [simpl in Hf; lia|]. cbn [free_hwa_loop]. unfold hwa_block.
  rewrite (bind_Done _ _ _ _ _ (hwa_at_run _ _ _)). destruct (owns_inv _ _ _ _ Ho) as (p & ps' & ->).
  destruct (free_owned _ _ _ _ _ a (hwa_block x (p :: ps') q) _ Ho Hdf Ha) as (mf' & Hr & Ho' & _ & Ha').
  destruct (owns_nil_inv _ _ Ho') as [-> ->]. rewrite map_empty_union in Hr, Ha'. unfold hwa_block in Hr.
  rewrite (bind_Done _ _ _ _ _ Hr), (bind_Done _ _ _ _ _ (hwa_at_run _ _ _)).
  rewrite (bind_Done _ _ _ _ _ (free_block_run _ _ _ (lookup_insert_eq _ _ _))), delete_insert_id by done.
  apply IH; [done..|simpl in Hf; lia].
Qed.

(** [free_hwa_info] frees every block of the list, once, and nothing else. *)
Lemma free_hwa_info_run l head m h : hwa_in l head m → m ##ₘ h → free_hwa_info head (m ∪ h) = Done tt h.
Proof.
  intros Hs Hd. unfold free_hwa_info. rewrite bind_get. apply (free_hwa_loop_run l); [done..|].
  rewrite map_size_disj_union by done. pose proof (seg_size _ _ _ _ _ _ Hs). lia.
Qed.

Lemma table_at_run a t (h : mem) : table_at a (<[a := Table t]> h) = Done t (<[a := Table t]> h).
Proof. unfold table_at. by rewrite (bind_Done _ _ _ _ _ (block_at_run a _ _ (lookup_insert_eq _ _ _))). Qed.

(** Behind the loop: the buffer is freed, the list stays. *)
Lemma free_buffer buf t (m h : mem) :
  m ##ₘ <[buf := Table t]> h → h !! buf = None →
  free_block (Some buf) (m ∪ <[buf := Table t]> h) = Done tt (m ∪ h) ∧ m ##ₘ h.
Proof.
  intros Hd Hb. apply map_disjoint_insert_r in Hd as [Hm Hd]. split; [|done].
  rewrite <- insert_union_r by done. rewrite (free_block_run _ _ _ (lookup_insert_eq _ _ _)), delete_insert_id; [done|].
  by rewrite lookup_union_None.
Qed.

Lemma get_hw_addrs_sim `{Blocks} ioctl hwaddr ifindex union_int fuel h :
  sim (get_hw_addrs ioctl hwaddr ifindex union_int fuel tt)
    (get_hw_addrs_mem ioctl hwaddr ifindex union_int fuel)
    (λ l head h', ∃ m, h' = m ∪ h ∧ m ##ₘ h ∧ hwa_in l head m) h.
Proof.
  unfold get_hw_addrs, get_hw_addrs_mem, if_table.
  eapply sim_bind; [apply conf_buffer_sim|]. intros table buf h' [-> Hb].
  eapply sim_step; [apply table_at_run|].
  edestruct (build_hwa_list_run hwaddr ifindex union_int EmptyString table [] None None ∅ (<[buf := Table table]> h))
    as (head & m & Hr & Hd & Hl); [constructor|apply map_disjoint_empty_l|]. rewrite map_empty_union in Hr.
  eapply sim_step; [exact Hr|]. destruct (free_buffer _ _ _ _ Hd Hb) as [Hfree Hd'].
  eapply sim_step; [exact Hfree|]. by exists m.
Qed.

(** * get_ifi_info_plus *)

Definition ifi_block (x : ifi_info) (ps : list (option nat)) (nx : option nat) : block :=
  Ifi (mk_ifi_node (ifi_name x) (ifi_flags x) (ifi_mtu x) (ifi_myflags x) (mjoin (ps !! 0%nat)) (mjoin (ps !! 1%nat))
    (mjoin (ps !! 2%nat)) (mjoin (ps !! 3%nat)) nx).
Definition bytes_field (bs : list Z) : option (list Z) := match bs with [] => None | _ => Some bs end.
Definition ifi_fields (x : ifi_info) : list (option (list Z)) :=
  [bytes_field (ifi_addr x); ifi_brdaddr x; ifi_dstaddr x; bytes_field (ifi_ntmaddr x)].

(** A list [l] of struct ifi_info, which is all of the memory [m]. *)
Definition ifi_in (l : list ifi_info) (head : option nat) (m : mem) : Prop :=
  seg ifi_block ifi_fields l head None m.
Abbreviation ifi_opened := (opened ifi_block ifi_fields).

Section ifi_proofs.
Context {HB : Blocks} (get_flags get_mtu : string → option Z) (get_brd get_dst get_mask : string → option (list Z)).

Lemma link_ifi_run l head slot m h a n :
  ifi_opened l head slot m → m ##ₘ h → (m ∪ h) !! a = None →
  ∃ head' m', link_ifi slot a head (<[a := Ifi n]> (m ∪ h)) = Done head' (<[a := Ifi n]> (m' ∪ h)) ∧
              seg ifi_block ifi_fields l head' (Some a) m' ∧ m' ##ₘ h ∧ (m' ∪ h) !! a = None.
Proof.
  intros Ho Hd Ha. destruct slot as [b|].
  - destruct (link_at _ _ l head b m h a (Ifi n) Ho Hd Ha) as (x & ps & Hb & m' & Hm & Hs & Hd' & Ha').
    exists head, m'. split; [|done]. unfold link_ifi. rewrite (bind_Done _ _ _ _ _ (set_ifi_at _ _ _ _ Hb)).
    unfold mret, M_ret. f_equal. exact Hm.
  - destruct (opened_link _ _ l head None m a Ho) as [-> Hs]. exists (Some a), ∅. by split.
Qed.

(** The structure of [x] at [a] while it is built: the addresses [fs] are there so far.
    [m] is the list before it and [h] the rest of the memory. *)
Definition building (x : ifi_info) (a : nat) (m h : mem) (fs : list (option (list Z))) (H : mem) : Prop :=
  ∃ ps mf, H = <[a := ifi_block x ps None]> (m ∪ mf ∪ h) ∧ owns fs ps mf ∧ length ps = length fs ∧
           m ##ₘ mf ∧ (m ∪ mf) ##ₘ h ∧ (m ∪ mf ∪ h) !! a = None.

Lemma building_null x a m h fs H : building x a m h fs H → building x a m h (fs ++ [None]) H.
Proof.
  intros (ps & mf & -> & Ho & Hl & Hrest). exists (ps ++ [None]), mf. split_and!; [|by apply owns_snoc_null| |apply Hrest..].
  - f_equal. unfold ifi_block.
    do 4 (destruct ps as [|? ps]; [done|]). done.
  - rewrite !length_app. simpl. lia.
Qed.

(** A setter that writes the pointer to a new block behind those of [ps]. *)
Definition sets (set : nat → list Z → M mem unit) (n : nat) : Prop :=
  ∀ x a ps p bs (h : mem), length ps = n →
    new_bytes bs (<[a := ifi_block x ps None]> h) = Done p (<[a := ifi_block x ps None]> (<[p := Bytes bs]> h)) →
    set a bs (<[a := ifi_block x ps None]> h) = Done tt (<[a := ifi_block x (ps ++ [Some p]) None]> (<[p := Bytes bs]> h)).

Lemma setters : sets set_addr 0 ∧ sets set_brdaddr 1 ∧ sets set_dstaddr 2 ∧ sets set_ntmaddr 3.
Proof.
  split_and!; intros x a ps p bs h Hl Hp; do 4 (try destruct ps as [|? ps]; try done);
    unfold set_addr, set_brdaddr, set_dstaddr, set_ntmaddr; rewrite (bind_Done _ _ _ _ _ Hp); unfold ifi_block;
    by rewrite set_ifi_run.
Qed.

Lemma building_set set x a m h fs bs H :
  sets set (length fs) → building x a m h fs H →
  ∃ H', set a bs H = Done tt H' ∧ building x a m h (fs ++ [Some bs]) H'.
Proof.
  intros Hset (ps & mf & -> & Ho & Hl & Hd & Hh & Ha).
  destruct (new_bytes_run bs a (ifi_block x ps None) (m ∪ mf ∪ h)) as (p & Hp & Hpa & Hpm).
  eexists. split; [apply Hset; [done|exact Hp]|].
  apply lookup_union_None in Hpm as [Hpm Hph]. apply lookup_union_None in Hpm as [Hp1 Hp2].
  exists (ps ++ [Some p]), (<[p := Bytes bs]> mf). split_and!.
  - f_equal. by rewrite <- insert_union_r, insert_union_l by done.
  - by apply owns_snoc.
  - rewrite !length_app. simpl. lia.
  - by apply map_disjoint_insert_r.
  - apply map_disjoint_union_l in Hh as [Hh1 Hh2]. apply map_disjoint_union_l. split; [done|].
    by apply map_disjoint_insert_l.
  - rewrite <- insert_union_r, <- insert_union_l by done. by rewrite lookup_insert_ne.
Qed.

(** An address that is asked for only when a flag is set. *)
Lemma optional_sim set x a m h fs (b : bool) (r : option (list Z)) H :
  sets set (length fs) → building x a m h fs H →
  sim ((if b then mret None else (d ← Ioctl r; mret (Some d))) tt)
    (when (negb b) (d ← Ioctl r; set a d)) (λ o _ H', building x a m h (fs ++ [o]) H') H.
Proof.
  intros Hset Hb. destruct b; cbn [negb when]; [by apply building_null|].
  destruct r as [d|]; [|done]. destruct (building_set set x a m h fs d H Hset Hb) as (H' & Hr & Hb').
  eapply (sim_eq _ _ (set a d)); [done|]. unfold sim, wpx. cbn. by rewrite Hr.
Qed.

Lemma building_opened x y a m h l head H :
  seg ifi_block ifi_fields l head (Some a) m → building x a m h (ifi_fields y) H →
  (∀ ps, ifi_block x ps None = ifi_block y ps None) →
  ∃ m', H = m' ∪ h ∧ m' ##ₘ h ∧ ifi_opened (l ++ [y]) head (Some a) m'.
Proof.
  intros Hs (ps & mf & -> & Ho & _ & Hd & Hh & Ha) Hxy.
  destruct (opened_last ifi_block ifi_fields l y head a ps mf m h Hs Ho Hd Hh Ha) as (Hm & Hdm & Hop).
  eexists. split; [|split; [exact Hdm|exact Hop]]. by rewrite <- Hm, Hxy.
Qed.

Lemma bytes_field_Some bs : bs ≠ [] → bytes_field bs = Some bs.
Proof. by destruct bs. Qed.

Lemma build_ifi_entry_sim r flags myflags l head slot m h
    (Haddr : ifr_addr r ≠ []) (Hmask : ∀ b, get_mask (ifr_name r) = Some b → b ≠ []) :
  ifi_opened l head slot m → m ##ₘ h →
  sim (ifi_entry get_mtu get_brd get_dst get_mask r flags myflags tt)
    (build_ifi_entry get_mtu get_brd get_dst get_mask r flags myflags head slot)
    (λ y '(head', a) H', ∃ m', H' = m' ∪ h ∧ m' ##ₘ h ∧ ifi_opened (l ++ [y]) head' (Some a) m') (m ∪ h).
Proof.
  intros Ho Hd. destruct setters as (Haddrs & Hbrds & Hdsts & Hmasks). unfold build_ifi_entry, ifi_entry.
  set (a := calloc_at (m ∪ h)). pose proof (calloc_fresh (m ∪ h)) as Ha. eapply sim_step; [apply Calloc_run|].
  edestruct (link_ifi_run l head slot m h a) as (head' & m1 & Hl & Hs & Hd1 & Ha1); [done..|].
  eapply sim_step; [exact Hl|]. eapply sim_step; [apply set_ifi_run|]. cbn beta zeta.
  apply sim_Ioctl. intros mtu Hmtu. eapply sim_step; [apply set_ifi_run|]. cbn beta.
  set (x := mk_ifi (String.substring 0 15 (ifr_name r)) flags (s16 mtu) myflags [] None None []).
  assert (Hb : building x a m1 h [] (<[a := ifi_block x [] None]> (m1 ∪ h))).
  { exists [], ∅. rewrite !map_union_empty. split_and!; [done|constructor|done|solve_map_disjoint|done..]. }
  match goal with |- sim _ _ _ ?H => change H with (<[a := ifi_block x [] None]> (m1 ∪ h)) end.
  apply sim_tail. destruct (building_set set_addr x a m1 h [] (ifr_addr r) _ Haddrs Hb) as (H1 & Hr1 & Hb1).
  assert (Hend : ∀ y H', building x a m1 h (ifi_fields y) H' → (∀ ps, ifi_block x ps None = ifi_block y ps None) →
    ∃ m', H' = m' ∪ h ∧ m' ##ₘ h ∧ ifi_opened (l ++ [y]) head' (Some a) m').
  { intros y H'. by apply building_opened. }
  destruct (sa_family r =? AF_INET); [|destruct (sa_family r =? AF_INET6)].
  - eapply sim_step; [exact Hr1|].
    eapply sim_bind; [by apply (optional_sim set_brdaddr x a m1 h [Some (ifr_addr r)])|]. intros brd ? H2 Hb2.
    eapply sim_bind; [by apply (optional_sim set_dstaddr x a m1 h [Some (ifr_addr r); brd])|]. intros dst ? H3 Hb3.
    apply sim_Ioctl. intros mask Hm.
    destruct (building_set set_ntmaddr x a m1 h [Some (ifr_addr r); brd; dst] mask _ Hmasks Hb3) as (H4 & Hr4 & Hb4).
    eapply sim_done; [exact Hr4|]. apply Hend; [|done]. unfold ifi_fields. cbn [ifi_addr ifi_ntmaddr].
    rewrite !bytes_field_Some by eauto. exact Hb4.
  - eapply sim_step; [exact Hr1|]. apply (building_null x a m1 h [Some (ifr_addr r)]) in Hb1.
    eapply sim_bind_l; [by apply (optional_sim set_dstaddr x a m1 h [Some (ifr_addr r); None])|]. intros dst ? H2 Hb2.
    apply Hend; [|done]. unfold ifi_fields. cbn [ifi_addr ifi_ntmaddr ifi_brdaddr ifi_dstaddr].
    rewrite bytes_field_Some by done. by apply (building_null x a m1 h [Some (ifr_addr r); None; dst]).
  - unfold sim, wpx. cbn [mret M_ret]. apply Hend; [|done].
    by apply (building_null x a m1 h [None; None; None]), (building_null x a m1 h [None; None]),
      (building_null x a m1 h [None]), (building_null x a m1 h []).
Qed.

Lemma build_ifi_list_sim family doaliases reqs
    (Haddr : Forall (λ r, ifr_addr r ≠ []) reqs) (Hmask : ∀ n b, get_mask n = Some b → b ≠ []) :
  ∀ last l head slot m h, ifi_opened l head slot m → m ##ₘ h →
  sim (ifi_list get_flags get_mtu get_brd get_dst get_mask family doaliases last reqs tt)
    (build_ifi_list get_flags get_mtu get_brd get_dst get_mask family doaliases last reqs head slot)
    (λ l' head' H', ∃ m', H' = m' ∪ h ∧ m' ##ₘ h ∧ ifi_in (l ++ l') head' m') (m ∪ h).
Proof.
  induction reqs as [|r reqs IH]; intros last l head slot m h Ho Hd.
  { exists m. split; [done|]. split; [done|]. rewrite app_nil_r. by eapply opened_seg. }
  apply Forall_cons in Haddr as [Hr Haddr]. specialize (IH Haddr). cbn [ifi_list build_ifi_list].
  destruct (negb _); [by apply IH|]. destruct (streq last (ifr_name r) && negb doaliases); [by apply IH|].
  cbv zeta. apply sim_Ioctl. intros fl Hfl. destruct (Z.land fl IFF_UP =? 0); [by apply IH|].
  eapply sim_bind; [apply build_ifi_entry_sim; [done|apply Hmask|exact Ho|exact Hd]|].
  intros x [head' a] H' (m' & -> & Hd' & Ho'). eapply sim_bind_l; [by apply IH|].
  intros l' hd H'' (m2 & -> & Hd2 & Hl). exists m2. split; [done|]. split; [done|]. by rewrite cons_middle, app_assoc.
Qed.
End ifi_proofs.

Lemma free_when p (h : mem) : when (bool_decide (is_Some p)) (free_block p) h = free_block p h.
Proof. by destruct p. Qed.

(** One of the four statements of the loop. *)
Lemma free_member (get : ifi_node → option nat) a n f fs p ps mf (h : mem) :
  get n = p → owns (f :: fs) (p :: ps) mf → mf ##ₘ h → (mf ∪ h) !! a = None →
  ∃ mf', (∀ (k : unit → M mem unit),
           (n ← ifi_at a; when (bool_decide (is_Some (get n))) (free_block (get n)) ≫= k) (<[a := Ifi n]> (mf ∪ h)) =
           k tt (<[a := Ifi n]> (mf' ∪ h))) ∧
         owns fs ps mf' ∧ mf' ##ₘ h ∧ (mf' ∪ h) !! a = None.
Proof.
  intros Hget Ho Hd Ha. destruct (free_owned f fs p ps mf a (Ifi n) h Ho Hd Ha) as (mf' & Hr & Hrest).
  exists mf'. split; [|done]. intros k. rewrite (bind_Done _ _ _ _ _ (ifi_at_run a n _)), Hget.
  rewrite <- (free_when p) in Hr. by rewrite (bind_Done _ _ _ _ _ Hr).
Qed.

Lemma free_ifi_loop_run l : ∀ fuel head m h,
  ifi_in l head m → m ##ₘ h → (length l ≤ fuel)%nat → free_ifi_loop fuel head (m ∪ h) = Done tt h.
Proof.
  induction l as [|x l IH]; intros fuel head m h Hs Hd Hf.
  { inversion Hs; subst. rewrite map_empty_union. by destruct fuel. }
  destruct (seg_inv _ _ _ _ _ _ _ Hs Hd) as (a & ps & q & mf & m' & -> & -> & Ho & Hs' & Hd' & Hdf & Ha).
  destruct fuel as [|fuel]; [simpl in Hf; lia|]. cbn [free_ifi_loop]. unfold ifi_fields in Ho.
  destruct (owns_inv _ _ _ _ Ho) as (p0 & ps0 & ->). unfold ifi_block. set (n := mk_ifi_node _ _ _ _ _ _ _ _ _).
  destruct (free_member in_addr a n _ _ p0 ps0 mf _ eq_refl Ho Hdf Ha) as (m1 & Hr1 & Ho1 & Hd1 & Ha1).
  destruct (owns_inv _ _ _ _ Ho1) as (p1 & ps1 & ->).
  destruct (free_member in_brdaddr a n _ _ p1 ps1 m1 _ eq_refl Ho1 Hd1 Ha1) as (m2 & Hr2 & Ho2 & Hd2 & Ha2).
  destruct (owns_inv _ _ _ _ Ho2) as (p2 & ps2 & ->).
  destruct (free_member in_dstaddr a n _ _ p2 ps2 m2 _ eq_refl Ho2 Hd2 Ha2) as (m3 & Hr3 & Ho3 & Hd3 & Ha3).
  destruct (owns_inv _ _ _ _ Ho3) as (p3 & ps3 & ->).
  destruct (free_member in_ntmaddr a n _ _ p3 ps3 m3 _ eq_refl Ho3 Hd3 Ha3) as (m4 & Hr4 & Ho4 & Hd4 & Ha4).
  destruct (owns_nil_inv _ _ Ho4) as [-> ->]. rewrite map_empty_union in Hr4, Ha4.
  rewrite Hr1, Hr2, Hr3, Hr4, (bind_Done _ _ _ _ _ (ifi_at_run _ _ _)).
  rewrite (bind_Done _ _ _ _ _ (free_block_run _ _ _ (lookup_insert_eq _ _ _))), delete_insert_id by done.
  apply IH; [exact Hs'|done|simpl in Hf; lia].
Qed.

(** [free_ifi_info_plus] frees every block of the list, once, and nothing else. *)
Lemma free_ifi_info_run l head m h : ifi_in l head m → m ##ₘ h → free_ifi_info_plus head (m ∪ h) = Done tt h.
Proof.
  intros Hs Hd. unfold free_ifi_info_plus. rewrite bind_get. apply (free_ifi_loop_run l); [done..|].
  rewrite map_size_disj_union by done. pose proof (seg_size _ _ _ _ _ _ Hs). lia.
Qed.

(** The requests have an address, and the walk stays in the buffer when 44 bytes lie
    behind the table. *)
Lemma requests_total n fuel buf p :
  (n + 44 ≤ length buf)%nat → (n < p + 32 * fuel)%nat →
  ∃ reqs, requests fuel buf n p tt = Done reqs tt ∧ Forall (λ r, ifr_addr r ≠ []) reqs.
Proof.
  intros Hb. revert p. induction fuel as [|fuel IH]; intros p Hf; cbn [requests]; destruct (Nat.ltb_spec p n).
  1: lia. 1: by exists [].
  2: by exists [].
  set (len := addr_len (family_at buf p)). assert (Hlen : (16 ≤ len ≤ 28)%nat) by (unfold len, addr_len; case_match; lia).
  destruct (Nat.leb_spec (p + 16 + len) (length buf)); [|lia]. destruct (IH (p + 16 + len)%nat ltac:(lia)) as (l & Hl & Hall).
  rewrite (bind_Done _ _ _ _ _ Hl). eexists. split; [reflexivity|]. constructor; [|done]. cbn [ifr_addr].
  intros Hnil. apply (f_equal length) in Hnil. rewrite length_take, length_drop in Hnil. simpl in Hnil. lia.
Qed.

Lemma length_conf_bytes table : (40 * length table ≤ length (conf_bytes table))%nat.
Proof.
  induction table as [|r table IH]; [done|]. change (conf_bytes (r :: table)) with (enc_ifreq r ++ conf_bytes table).
  rewrite length_app. cbn [length]. unfold enc_ifreq, enc_str. rewrite length_app, length_take, length_app, length_replicate.
  rewrite length_app, length_replicate, length_str_bytes. unfold IF_NAME. lia.
Qed.

Lemma get_ifi_info_plus_sim `{Blocks} ioctl gf gm gb gd gk junk fuel family doaliases h :
  (44 ≤ length junk)%nat → (∀ n b, gk n = Some b → b ≠ []) →
  sim (get_ifi_info_plus ioctl gf gm gb gd gk junk fuel family doaliases tt)
    (get_ifi_info_plus_mem ioctl gf gm gb gd gk junk fuel family doaliases)
    (λ l head h', ∃ m, h' = m ∪ h ∧ m ##ₘ h ∧ ifi_in l head m) h.
Proof.
  intros Hjunk Hmask. unfold get_ifi_info_plus, get_ifi_info_plus_mem, if_table.
  eapply sim_bind; [apply conf_buffer_sim|]. intros table' buf h' [-> Hb].
  eapply sim_step; [apply table_at_run|].
  destruct (requests_total (40 * length table') (S (length table' * 2)) (conf_bytes table' ++ junk) 0) as (reqs & Hr & Hall).
  { rewrite length_app. pose proof (length_conf_bytes table'). lia. }
  { lia. }
  rewrite (bind_Done _ _ _ _ _ Hr). eapply sim_step; [by rewrite Hr|].
  assert (Hbuild : sim (ifi_list gf gm gb gd gk family doaliases EmptyString reqs tt)
    (build_ifi_list gf gm gb gd gk family doaliases EmptyString reqs None None)
    (λ l head H', ∃ m, H' = m ∪ <[buf := Table table']> h ∧ m ##ₘ <[buf := Table table']> h ∧ ifi_in l head m)
    (<[buf := Table table']> h)).
  { pose proof (build_ifi_list_sim gf gm gb gd gk family doaliases reqs Hall Hmask EmptyString [] None None ∅
      (<[buf := Table table']> h) ltac:(constructor) ltac:(apply map_disjoint_empty_l)) as Hsim.
    by rewrite map_empty_union in Hsim. }
  eapply sim_after; [exact Hbuild|]. intros l head h' (m & -> & Hd & Hl).
  destruct (free_buffer _ _ _ _ Hd Hb) as [Hfree Hd']. eapply sim_step; [exact Hfree|]. by exists m.
Qed.

(** The calls end the program or succeed. *)
Lemma ifi_list_defined gf gm gb gd gk family doaliases reqs last u :
  ifi_list gf gm gb gd gk family doaliases last reqs tt ≠ Undefined u.
Proof.
  apply (wp_not_undefined (λ _ _, True) _ (λ _ _, True)). revert last.
  assert (Hio : ∀ A (o : option A) B (k : A → M unit B), (∀ a, wp (λ _ _, True) (k a) (λ _ _, True) tt) →
    wp (λ _ _, True) (Ioctl o ≫= k) (λ _ _, True) tt) by (intros A [a|] B k Hk; [apply Hk|done]).
  induction reqs as [|r reqs IH]; intros last; [done|]. cbn [ifi_list]. destruct (negb _); [done|].
  destruct (_ && _); [done|]. cbv zeta. apply Hio. intros fl. destruct (_ =? 0); [done|]. apply wpx_bind.
  apply (wpx_mono _ _ _ (λ _ _, True)).
  - intros x [] _. apply wpx_bind. by apply (wpx_mono _ _ _ (λ _ _, True)).
  - unfold ifi_entry. apply Hio. intros mtu.
    destruct (sa_family r =? AF_INET); [|destruct (sa_family r =? AF_INET6); [|done]];
      destruct (Z.land fl IFF_POINTOPOINT =? 0), (Z.land fl IFF_BROADCAST =? 0), (gb (ifr_name r)),
        (gd (ifr_name r)), (gk (ifr_name r)); done.
Qed.

(** [get_hw_addrs] leaves in memory the list it computes: one structure per
    interface of the kernel's table, in its order, each with its address in a block of
    its own, the last one ending in NULL; the buffers of all turns are freed and nothing
    else of the memory has changed.  [free_hwa_info] of that list gives back the memory
    of before: every block is freed, once, and none is used after it was freed. *)
Theorem hwa_list_in_memory `{Blocks} (ioctl : Z → conf_reply) (hwaddr : string → option (list Z))
    (ifindex : string → option Z) (union_int : list Z → Z) (table : list ifreq) (fuel : nat) (h : mem)
    (Hio : truncates ioctl table ∨ refuses ioctl table)
    (Hsize : sizeof_ifreq * (Z.of_nat (length table) + 200) ≤ INT_MAX) (Hfuel : (length table / 10 + 3 ≤ fuel)%nat) :
  ∃ head m,
    get_hw_addrs_mem ioctl hwaddr ifindex union_int fuel h = Done head (m ∪ h) ∧ m ##ₘ h ∧
    hwa_in (hwa_list hwaddr ifindex union_int EmptyString table) head m ∧
    free_hwa_info head (m ∪ h) = Done tt h.
Proof.
  pose proof (get_hw_addrs_sim ioctl hwaddr ifindex union_int fuel h) as Hsim. unfold get_hw_addrs in Hsim.
  rewrite (bind_Done _ _ _ _ _ (if_table_run ioctl table fuel Hio Hsize Hfuel)) in Hsim. unfold sim, wpx in Hsim.
  cbn [mret M_ret] in Hsim. destruct (get_hw_addrs_mem _ _ _ _ _ h) as [head h'|c h'|u]; [|done..].
  destruct Hsim as (m & -> & Hd & Hl). exists head, m. split_and!; [done|done|done|]. by eapply free_hwa_info_run.
Qed.

(** C30: The same of [get_ifi_info_plus]: it ends the program exactly when the code
    without memory does (a call for an interface failed), and otherwise leaves in memory
    the list that code computes, with up to four addresses per structure;
    [free_ifi_info_plus] gives back the memory of before. *)
Theorem ifi_list_in_memory `{Blocks} (ioctl : Z → conf_reply) (get_flags get_mtu : string → option Z)
    (get_brd get_dst get_mask : string → option (list Z)) (junk : list Z) (table : list ifreq) (fuel : nat)
    (family : Z) (doaliases : bool) (h : mem)
    (Hio : truncates ioctl table ∨ refuses ioctl table)
    (Hsize : sizeof_ifreq * (Z.of_nat (length table) + 200) ≤ INT_MAX) (Hfuel : (length table / 10 + 3 ≤ fuel)%nat)
    (Hjunk : (44 ≤ length junk)%nat) (Hmask : ∀ n b, get_mask n = Some b → b ≠ []) :
  match get_ifi_info_plus ioctl get_flags get_mtu get_brd get_dst get_mask junk fuel family doaliases tt with
  | Done l _ => ∃ head m,
      get_ifi_info_plus_mem ioctl get_flags get_mtu get_brd get_dst get_mask junk fuel family doaliases h
      = Done head (m ∪ h) ∧ m ##ₘ h ∧ ifi_in l head m ∧ free_ifi_info_plus head (m ∪ h) = Done tt h
  | Exited c _ => ∃ h',
      get_ifi_info_plus_mem ioctl get_flags get_mtu get_brd get_dst get_mask junk fuel family doaliases h = Exited c h'
  | Undefined _ => False
  end.
Proof.
  pose proof (get_ifi_info_plus_sim ioctl get_flags get_mtu get_brd get_dst get_mask junk fuel family doaliases h
    Hjunk Hmask) as Hsim.
  destruct (get_ifi_info_plus _ _ _ _ _ _ _ _ _ _ tt) as [l []|c []|u] eqn:Hp; unfold sim, wpx in Hsim.
  - destruct (get_ifi_info_plus_mem _ _ _ _ _ _ _ _ _ _ h) as [head h'|c h'|u]; [|done..].
    destruct Hsim as (m & -> & Hd & Hl). exists head, m. split_and!; [done|done|done|]. by eapply free_ifi_info_run.
  - destruct (get_ifi_info_plus_mem _ _ _ _ _ _ _ _ _ _ h) as [head h'|c' h'|u]; [done| |done]. subst. by eexists.
  - revert Hp. unfold get_ifi_info_plus.
    rewrite (bind_Done _ _ _ _ _ (if_table_run ioctl table fuel Hio Hsize Hfuel)).
    destruct (requests_total (40 * length table) (S (length table * 2)) (conf_bytes table ++ junk) 0) as (reqs & Hr & _).
    { rewrite length_app. pose proof (length_conf_bytes table). lia. }
    { lia. }
    rewrite (bind_Done _ _ _ _ _ Hr). apply ifi_list_defined.
Qed.

(** * A memory *)

#[local] Instance first_free : Blocks.
Proof. refine {| calloc_at h := fresh (dom h) |}. intros h. apply not_elem_of_dom, is_fresh. Defined.

Lemma hwa_list_in_memory_witness :
  ∃ head m,
    get_hw_addrs_mem linux (λ _, None) (λ _, Some 2) (λ _, 0) 3 ∅ = Done head (m ∪ ∅) ∧ m ##ₘ ∅ ∧
    hwa_in (hwa_list (λ _, None) (λ _, Some 2) (λ _, 0) EmptyString table3) head m ∧
    free_hwa_info head (m ∪ ∅) = Done tt ∅.
Proof.
  exact (hwa_list_in_memory linux (λ _, None) (λ _, Some 2) (λ _, 0) table3 3 ∅ (or_introl (λ len _, eq_refl))
    ltac:(vm_compute; discriminate) (proj1 (Nat.leb_le (length table3 / 10 + 3) 3) eq_refl)).
Defined.

Lemma ifi_list_in_memory_witness :
  match get_ifi_info_plus linux (λ _, Some 3) (λ _, Some 1500) (λ _, Some [1]) (λ _, Some [2]) (λ _, Some [3])
    (replicate 400 0) 3 AF_INET true tt with
  | Done l _ => ∃ head m,
      get_ifi_info_plus_mem linux (λ _, Some 3) (λ _, Some 1500) (λ _, Some [1]) (λ _, Some [2]) (λ _, Some [3])
        (replicate 400 0) 3 AF_INET true ∅ = Done head (m ∪ ∅) ∧ m ##ₘ ∅ ∧ ifi_in l head m ∧
      free_ifi_info_plus head (m ∪ ∅) = Done tt ∅
  | Exited c _ => ∃ h',
      get_ifi_info_plus_mem linux (λ _, Some 3) (λ _, Some 1500) (λ _, Some [1]) (λ _, Some [2]) (λ _, Some [3])
        (replicate 400 0) 3 AF_INET true ∅ = Exited c h'
  | Undefined _ => False
  end.
Proof.
  exact (ifi_list_in_memory linux (λ _, Some 3) (λ _, Some 1500) (λ _, Some [1]) (λ _, Some [2]) (λ _, Some [3])
    (replicate 400 0) table3 3 AF_INET true ∅ (or_introl (λ len _, eq_refl)) ltac:(vm_compute; discriminate)
    (proj1 (Nat.leb_le (length table3 / 10 + 3) 3) eq_refl) (proj1 (Nat.leb_le 44 400) eq_refl)
    ltac:(intros n b [= <-]; discriminate)).
Defined.
