(* ===== verification/HwStart.v ===== *)
(** How the programs of Assignments 3 and 4 find out which of the ten virtual machines
    they run on: the search of the table [vm_addr] for the address of an interface. *)

From S2P Require Export Kernel Interfaces.

(** Interface indices of the platform: loopback and eth0. *)
Definition IF_LO : Z := 1.
Definition IF_ETH0 : Z := 2.

(** [for(index=0; index<10; index++) if(strcmp(Sock_ntop_host(sa, sizeof *sa), vm_addr[index])==0)
    { node=index+1; break; }]: the number and the address that was found. *)
Fixpoint vm_find (sa : list Z) (index : Z) (addrs : list string) : M trace (option (Z * string)) :=
  match addrs with
  | [] => mret None
  | a :: addrs' =>
      text ← Sock_ntop_host sa 16;
      if streq text a then mret (Some (index + 1, a)) else vm_find sa (index + 1) addrs'
  end.

(** The list must not be empty, and its second element is used without a test. *)
Definition second_interface (hw : M unit (list hwa_info)) : M trace hwa_info :=
  hwahead ← lift hw;
  match hwahead with
  | [] => exit 1
  | [_] => undef NullDeref
  | _ :: h :: _ => mret h
  end.

(** The node number; [node] is what the variable held before. *)
Definition vm_node (h : hwa_info) (addrs : list string) (node : Z) : M trace Z :=
  r ← vm_find (hwa_ip h) 0 addrs;
  mret (from_option fst node r).

(** * Lemmas *)

(** An interface whose address is the dotted quad [text]. *)
Definition has_text (h : hwa_info) (text : string) : Prop :=
  ∀ tr : trace, Sock_ntop_host (hwa_ip h) 16 tr = Done text tr.

Lemma quad_has_text h port a b c d rest :
  hwa_ip h = sockaddr_in port [a; b; c; d] rest → 0 ≤ port < 65536 →
  is_byte a → is_byte b → is_byte c → is_byte d → has_text h (quad_text a b c d).
Proof.
  intros Hh Hp Ha Hb Hc Hd tr. rewrite Hh. unfold Sock_ntop_host.
  destruct (sock_ntop_ipv4 _ port a b c d rest 16 tr Hp Ha Hb Hc Hd) as [_ Hrun]. by run_step Hrun.
Qed.

Lemma vm_find_run h text i addrs tr :
  has_text h text →
  vm_find (hwa_ip h) i addrs tr
  = Done ((λ a, (i + Z.of_nat (first_index (streq text) addrs) + 1, a))
            <$> (addrs !! first_index (streq text) addrs)) tr.
Proof.
  intros Ht. revert i. induction addrs as [|a addrs IH]; intros i; [done|].
  cbn [vm_find first_index]. rewrite (bind_Done _ _ _ _ _ (Ht tr)).
  destruct (streq text a).
  - simpl. do 3 f_equal. lia.
  - rewrite IH. simpl. destruct (addrs !! _); [|done]. simpl. do 3 f_equal. lia.
Qed.

Lemma vm_find_found h k text addrs tr :
  has_text h text → NoDup addrs → addrs !! k = Some text →
  vm_find (hwa_ip h) 0 addrs tr = Done (Some (Z.of_nat k + 1, text)) tr.
Proof.
  intros Ht Hnd Hk. rewrite (vm_find_run h text) by done.
  rewrite (first_index_unique _ addrs k text Hk); [by rewrite Hk|by apply streq_eq|].
  intros j x Hj <-%streq_eq. by eapply NoDup_lookup.
Qed.

Lemma vm_node_found h k text addrs node tr :
  has_text h text → NoDup addrs → addrs !! k = Some text →
  vm_node h addrs node tr = Done (Z.of_nat k + 1) tr.
Proof. intros Ht Hnd Hk. unfold vm_node. by rewrite (bind_Done _ _ _ _ _ (vm_find_found h k text addrs tr Ht Hnd Hk)). Qed.

(** * Calls that fail *)

Lemma stops_vm_find sa i addrs : stops (vm_find sa i addrs).
Proof. revert i. induction addrs as [|a addrs IH]; intros i; cbn [vm_find]; stops_tac. Qed.
#[export] Hint Resolve stops_vm_find : stops.

Lemma stops_vm_node h addrs node : stops (vm_node h addrs node).
Proof. unfold vm_node. stops_tac. Qed.

Lemma stops_lift_ret {A} (a : A) : stops (lift (mret a)).
Proof. apply stops_lift. by intros c s s' Hr. Qed.
#[export] Hint Resolve stops_vm_node stops_lift_ret : stops.

Lemma stops_second_interface hwa : stops (second_interface (mret hwa)).
Proof. unfold second_interface. stops_tac. Qed.
#[export] Hint Resolve stops_second_interface : stops.

Lemma lone_interface hwa tr : length hwa = 1%nat → second_interface (mret hwa) tr = Undefined NullDeref.
Proof. by destruct hwa as [|h [|]]. Qed.
