(* ===== verification/OdrWire.v ===== *)
(** Frames of the ODR protocol (Assignment 3/Code/ODR.c): the structures the program
    copies into and out of Ethernet frames with [memcpy], and their layout in memory
    (gcc, x86: 4-byte [int]s aligned to 4, little endian).  Padding bytes and the
    bytes of a character array behind its terminator are written as 0; the program
    never reads them. *)

From S2P Require Export CStr.

Definition ETH_ALEN : nat := 6.
Definition ETH_FRAME_LEN : nat := 1514.
Definition PROTO : Z := 16450. (* 0x4042 *)
Definition ADDR_LEN : nat := 15.
Definition MESSAGE_LEN : nat := 25.

(** Ethernet frame header *)
Record hdr := mk_hdr {
  h_dst_mac : list Z;
  h_src_mac : list Z;
  h_proto : Z; (* unsigned short, network order *)
  h_type : Z (* int, network order *)
}.

(** Routing request.  Integer fields hold values in network order. *)
Record RREQ := mk_RREQ {
  q_src_addr : string;
  q_dst_addr : string;
  q_src_port : Z;
  q_broadcast_id : Z;
  q_hop_cnt : Z;
  q_RREP_sent : Z;
  q_discovery : Z
}.

(** Routing reply *)
Record RREP := mk_RREP {
  p_src_addr : string;
  p_dst_addr : string;
  p_dst_port : Z;
  p_hop_cnt : Z;
  p_discovery : Z
}.

(** Application payload.  [l_message] is the whole array of 25 bytes. *)
Record payload := mk_payload {
  l_src_addr : string;
  l_dst_addr : string;
  l_src_port : Z;
  l_dst_port : Z;
  l_hop_cnt : Z;
  l_len : Z;
  l_message : list Z
}.

(** * Layout *)

Definition ld32 (bs : list Z) (off : nat) : Z := s32 (le_combine (take 4 (drop off bs))).
Definition ld16 (bs : list Z) (off : nat) : Z := le_combine (take 2 (drop off bs)).
Definition ldn (bs : list Z) (off n : nat) : list Z := take n (drop off bs).

Definition sizeof_hdr : nat := 20.
Definition sizeof_RREQ : nat := 52.
Definition sizeof_RREP : nat := 44.
Definition sizeof_payload : nat := 76.

Definition enc_hdr (h : hdr) : list Z :=
  h_dst_mac h ++ h_src_mac h ++ st16 (h_proto h) ++ [0; 0] ++ st32 (h_type h).

Definition enc_RREQ (r : RREQ) : list Z :=
  enc_str ADDR_LEN (q_src_addr r) ++ enc_str ADDR_LEN (q_dst_addr r) ++ [0; 0] ++
  st32 (q_src_port r) ++ st32 (q_broadcast_id r) ++ st32 (q_hop_cnt r) ++
  st32 (q_RREP_sent r) ++ st32 (q_discovery r).

Definition enc_RREP (r : RREP) : list Z :=
  enc_str ADDR_LEN (p_src_addr r) ++ enc_str ADDR_LEN (p_dst_addr r) ++ [0; 0] ++
  st32 (p_dst_port r) ++ st32 (p_hop_cnt r) ++ st32 (p_discovery r).

Definition enc_payload (l : payload) : list Z :=
  enc_str ADDR_LEN (l_src_addr l) ++ enc_str ADDR_LEN (l_dst_addr l) ++ [0; 0] ++
  st32 (l_src_port l) ++ st32 (l_dst_port l) ++ st32 (l_hop_cnt l) ++ st32 (l_len l) ++
  l_message l ++ [0; 0; 0].

Definition dec_hdr (bs : list Z) : hdr :=
  mk_hdr (ldn bs 0 ETH_ALEN) (ldn bs 6 ETH_ALEN) (ld16 bs 12) (ld32 bs 16).

(** [None]: an address field without terminator. *)
Definition dec_RREQ (bs : list Z) : option RREQ :=
  s ← dec_str (ldn bs 0 ADDR_LEN);
  d ← dec_str (ldn bs 15 ADDR_LEN);
  Some (mk_RREQ s d (ld32 bs 32) (ld32 bs 36) (ld32 bs 40) (ld32 bs 44) (ld32 bs 48)).

Definition dec_RREP (bs : list Z) : option RREP :=
  s ← dec_str (ldn bs 0 ADDR_LEN);
  d ← dec_str (ldn bs 15 ADDR_LEN);
  Some (mk_RREP s d (ld32 bs 32) (ld32 bs 36) (ld32 bs 40)).

Definition dec_payload (bs : list Z) : option payload :=
  s ← dec_str (ldn bs 0 ADDR_LEN);
  d ← dec_str (ldn bs 15 ADDR_LEN);
  Some (mk_payload s d (ld32 bs 32) (ld32 bs 36) (ld32 bs 40) (ld32 bs 44) (ldn bs 48 MESSAGE_LEN)).

(** * Well-formed values *)

Definition mac_ok (m : list Z) : Prop := length m = ETH_ALEN ∧ Forall is_byte m.
Definition addr_ok (s : string) : Prop := (String.length s < ADDR_LEN)%nat ∧ no_nul s = true.
Definition int_ok (x : Z) : Prop := INT_MIN ≤ x ≤ INT_MAX.

Definition hdr_ok (h : hdr) : Prop :=
  mac_ok (h_dst_mac h) ∧ mac_ok (h_src_mac h) ∧ 0 ≤ h_proto h < 2 ^ 16 ∧ int_ok (h_type h).

Definition RREQ_ok (r : RREQ) : Prop :=
  addr_ok (q_src_addr r) ∧ addr_ok (q_dst_addr r) ∧ int_ok (q_src_port r) ∧
  int_ok (q_broadcast_id r) ∧ int_ok (q_hop_cnt r) ∧ int_ok (q_RREP_sent r) ∧
  int_ok (q_discovery r).

Definition RREP_ok (r : RREP) : Prop :=
  addr_ok (p_src_addr r) ∧ addr_ok (p_dst_addr r) ∧ int_ok (p_dst_port r) ∧
  int_ok (p_hop_cnt r) ∧ int_ok (p_discovery r).

Definition payload_ok (l : payload) : Prop :=
  addr_ok (l_src_addr l) ∧ addr_ok (l_dst_addr l) ∧ int_ok (l_src_port l) ∧
  int_ok (l_dst_port l) ∧ int_ok (l_hop_cnt l) ∧ int_ok (l_len l) ∧
  length (l_message l) = MESSAGE_LEN.

(** * Lemmas *)

Lemma length_st32 x : length (st32 x) = 4%nat.
Proof. apply length_le_split. Qed.
Lemma length_st16 x : length (st16 x) = 2%nat.
Proof. apply length_le_split. Qed.

Lemma length_enc_addr s : addr_ok s → length (enc_str ADDR_LEN s) = 15%nat.
Proof. intros [H _]. apply length_enc_str. unfold ADDR_LEN in *. lia. Qed.

(** Reading behind a prefix of known length. *)
Lemma drop_app_plus {A} (l1 l2 : list A) n m :
  length l1 = m → (m ≤ n)%nat → drop n (l1 ++ l2) = drop (n - m) l2.
Proof. intros <- Hle. rewrite drop_app_ge by done. done. Qed.

Lemma combine_st32 x : le_combine (st32 x) = u32 x.
Proof. unfold st32. rewrite le_combine_split. apply u32_idem. Qed.

Lemma ld_st32 x rest : int_ok x → s32 (le_combine (take 4 (st32 x ++ rest))) = x.
Proof.
  intros H. rewrite (take_app_length' (st32 x)) by (by rewrite length_st32).
  rewrite combine_st32, s32_u32. by apply s32_int.
Qed.

Lemma ld_st16 x rest : 0 ≤ x < 2 ^ 16 → le_combine (take 2 (st16 x ++ rest)) = x.
Proof.
  intros H. rewrite (take_app_length' (st16 x)) by (by rewrite length_st16).
  unfold st16. rewrite le_combine_split, u16_small by done. by apply Z.mod_small.
Qed.

Lemma dec_addr s rest :
  addr_ok s → dec_str (take ADDR_LEN (enc_str ADDR_LEN s ++ rest)) = Some s.
Proof.
  intros Hs. rewrite (take_app_length' (enc_str _ s)) by (by rewrite length_enc_addr). destruct Hs as [Hl Hn].
  rewrite <- (app_nil_r (enc_str ADDR_LEN s)). by apply dec_enc_str.
Qed.

(** Peel the field [f] of length [n] off every read behind it. *)
Ltac peel f n tac :=
  rewrite ?drop_0; rewrite !(drop_app_plus f _ _ n) by (first [done|lia|tac]);
  cbn [Nat.sub]; rewrite ?drop_0.

Ltac peel_addr s := peel (enc_str ADDR_LEN s) 15%nat ltac:(by apply length_enc_addr).
Ltac peel_int x := peel (st32 x) 4%nat ltac:(apply length_st32).

Lemma dec_enc_hdr h rest : hdr_ok h → dec_hdr (enc_hdr h ++ rest) = h.
Proof.
  intros ([Hd _] & [Hs _] & Hp & Ht). unfold dec_hdr, enc_hdr, ld16, ld32, ldn.
  rewrite <- !app_assoc. peel (h_dst_mac h) 6%nat idtac. peel (h_src_mac h) 6%nat idtac.
  peel (st16 (h_proto h)) 2%nat ltac:(apply length_st16). peel [0; 0] 2%nat idtac.
  rewrite ld_st16, ld_st32 by done.
  rewrite (take_app_length' (h_dst_mac h)), (take_app_length' (h_src_mac h)) by done.
  by destruct h.
Qed.

Lemma dec_enc_RREQ r rest : RREQ_ok r → dec_RREQ (enc_RREQ r ++ rest) = Some r.
Proof.
  intros (? & ? & ? & ? & ? & ? & ?). unfold dec_RREQ, enc_RREQ, ld32, ldn.
  rewrite <- !app_assoc. peel_addr (q_src_addr r). peel_addr (q_dst_addr r).
  peel [0; 0] 2%nat idtac. peel_int (q_src_port r). peel_int (q_broadcast_id r).
  peel_int (q_hop_cnt r). peel_int (q_RREP_sent r).
  rewrite !dec_addr by done. cbn [mbind option_bind]. rewrite !ld_st32 by done. by destruct r.
Qed.

Lemma dec_enc_RREP r rest : RREP_ok r → dec_RREP (enc_RREP r ++ rest) = Some r.
Proof.
  intros (? & ? & ? & ? & ?). unfold dec_RREP, enc_RREP, ld32, ldn.
  rewrite <- !app_assoc. peel_addr (p_src_addr r). peel_addr (p_dst_addr r).
  peel [0; 0] 2%nat idtac. peel_int (p_dst_port r). peel_int (p_hop_cnt r).
  rewrite !dec_addr by done. cbn [mbind option_bind]. rewrite !ld_st32 by done. by destruct r.
Qed.

Lemma dec_enc_payload l rest : payload_ok l → dec_payload (enc_payload l ++ rest) = Some l.
Proof.
  intros (? & ? & ? & ? & ? & ? & ?). unfold dec_payload, enc_payload, ld32, ldn.
  rewrite <- !app_assoc. peel_addr (l_src_addr l). peel_addr (l_dst_addr l).
  peel [0; 0] 2%nat idtac. peel_int (l_src_port l). peel_int (l_dst_port l).
  peel_int (l_hop_cnt l). peel_int (l_len l).
  rewrite !dec_addr by done. cbn [mbind option_bind]. rewrite !ld_st32 by done.
  rewrite (take_app_length' (l_message l)) by done. by destruct l.
Qed.

Lemma length_enc_hdr h : hdr_ok h → length (enc_hdr h) = sizeof_hdr.
Proof.
  intros ([Hd _] & [Hs _] & _). unfold enc_hdr.
  by rewrite !length_app, Hd, Hs, length_st16, length_st32.
Qed.

Lemma length_enc_RREQ r : RREQ_ok r → length (enc_RREQ r) = sizeof_RREQ.
Proof.
  intros (? & ? & _). unfold enc_RREQ.
  by rewrite !length_app, !length_enc_addr, !length_st32.
Qed.

Lemma length_enc_RREP r : RREP_ok r → length (enc_RREP r) = sizeof_RREP.
Proof.
  intros (? & ? & _). unfold enc_RREP.
  by rewrite !length_app, !length_enc_addr, !length_st32.
Qed.

Lemma length_enc_payload l : payload_ok l → length (enc_payload l) = sizeof_payload.
Proof.
  intros (? & ? & _ & _ & _ & _ & Hm). unfold enc_payload.
  by rewrite !length_app, !length_enc_addr, !length_st32, Hm.
Qed.
