(* ===== verification/Odr.v ===== *)
(** The On-Demand shortest-hop Routing service (Assignment 3/Code/ODR.c): its tables,
    its start-up, and the handlers of its event loop. *)

From S2P Require Export OdrWire.

(** * Data *)

Definition vm_addr : list string := [
  "130.245.156.21"; "130.245.156.22"; "130.245.156.23"; "130.245.156.24"; "130.245.156.25";
  "130.245.156.26"; "130.245.156.27"; "130.245.156.28"; "130.245.156.29"; "130.245.156.20"
]%string.

Record routing_entry := mk_route {
  dst_addr : string;
  next_hop : list Z;
  outgoing_if : Z;
  hop_cnt : Z;
  broadcast_id : Z
}.

Record port_entry := mk_port {
  port : Z;
  sun_path : string
}.

(** The fields of [struct sockaddr_ll] that [sendto] uses. *)
Record sockaddr_ll := mk_ll {
  sll_ifindex : Z;
  sll_hatype : Z;
  sll_pkttype : Z;
  sll_halen : Z;
  sll_addr : list Z
}.

(** What the service hands to the kernel. *)
Inductive event :=
  | SendFrame (fd : nat) (frame : list Z) (to : sockaddr_ll)
  | SendLocal (data : string) (path : string).

(** Variables of the process that outlive one iteration of the event loop. *)
Record odr := mk_odr {
  o_broadcast_id : Z;
  o_port : Z;
  routing_table : list routing_entry;
  port_table : list port_entry;
  port_cnt : Z;
  local_buf : string; (* the 108 bytes of localaddr.sun_path *)
  un_len : nat; (* socklen_t un_len *)
  o_dst_addr : string;
  o_dst_port : Z;
  o_message : string;
  o_flag : Z;
  recvmsg : string; (* the buffer of MAXLINE+1 bytes *)
  out : list event
}.

(** Set once at start-up: the node number, the hardware address of each interface
    of interest, and when the kernel accepts a datagram ([sendto] returns >= 0). *)
Record odr_env := mk_env {
  node : Z;
  if_addr : list (list Z);
  send_ok : list event → event → bool
}.

Definition MAXLINE : nat := 4096.
Definition SUN_PATH_LEN : nat := 108.
Definition sizeof_sockaddr_un : nat := 110.
Definition PACKET_BROADCAST : Z := 1.
Definition PACKET_OTHERHOST : Z := 3.
Definition ARPHRD_ETHER : Z := 1.
Definition bcast_mac : list Z := [255; 255; 255; 255; 255; 255].
Definition zero_mac : list Z := [0; 0; 0; 0; 0; 0].

Definition set_bid (x : Z) (s : odr) : odr :=
  mk_odr x (o_port s) (routing_table s) (port_table s) (port_cnt s) (local_buf s) (un_len s)
    (o_dst_addr s) (o_dst_port s) (o_message s) (o_flag s) (recvmsg s) (out s).
Definition set_rt (x : list routing_entry) (s : odr) : odr :=
  mk_odr (o_broadcast_id s) (o_port s) x (port_table s) (port_cnt s) (local_buf s) (un_len s)
    (o_dst_addr s) (o_dst_port s) (o_message s) (o_flag s) (recvmsg s) (out s).
Definition set_ports (p : Z) (x : list port_entry) (n : Z) (s : odr) : odr :=
  mk_odr (o_broadcast_id s) p (routing_table s) x n (local_buf s) (un_len s)
    (o_dst_addr s) (o_dst_port s) (o_message s) (o_flag s) (recvmsg s) (out s).
Definition set_local (x : string) (s : odr) : odr :=
  mk_odr (o_broadcast_id s) (o_port s) (routing_table s) (port_table s) (port_cnt s) x (un_len s)
    (o_dst_addr s) (o_dst_port s) (o_message s) (o_flag s) (recvmsg s) (out s).
Definition set_un_len (x : nat) (s : odr) : odr :=
  mk_odr (o_broadcast_id s) (o_port s) (routing_table s) (port_table s) (port_cnt s) (local_buf s) x
    (o_dst_addr s) (o_dst_port s) (o_message s) (o_flag s) (recvmsg s) (out s).
Definition set_dst_addr (x : string) (s : odr) : odr :=
  mk_odr (o_broadcast_id s) (o_port s) (routing_table s) (port_table s) (port_cnt s) (local_buf s) (un_len s)
    x (o_dst_port s) (o_message s) (o_flag s) (recvmsg s) (out s).
Definition set_dst_port (x : Z) (s : odr) : odr :=
  mk_odr (o_broadcast_id s) (o_port s) (routing_table s) (port_table s) (port_cnt s) (local_buf s) (un_len s)
    (o_dst_addr s) x (o_message s) (o_flag s) (recvmsg s) (out s).
Definition set_message (x : string) (s : odr) : odr :=
  mk_odr (o_broadcast_id s) (o_port s) (routing_table s) (port_table s) (port_cnt s) (local_buf s) (un_len s)
    (o_dst_addr s) (o_dst_port s) x (o_flag s) (recvmsg s) (out s).
Definition set_flag (x : Z) (s : odr) : odr :=
  mk_odr (o_broadcast_id s) (o_port s) (routing_table s) (port_table s) (port_cnt s) (local_buf s) (un_len s)
    (o_dst_addr s) (o_dst_port s) (o_message s) x (recvmsg s) (out s).
Definition set_recvmsg (x : string) (s : odr) : odr :=
  mk_odr (o_broadcast_id s) (o_port s) (routing_table s) (port_table s) (port_cnt s) (local_buf s) (un_len s)
    (o_dst_addr s) (o_dst_port s) (o_message s) (o_flag s) x (out s).
Definition set_out (x : list event) (s : odr) : odr :=
  mk_odr (o_broadcast_id s) (o_port s) (routing_table s) (port_table s) (port_cnt s) (local_buf s) (un_len s)
    (o_dst_addr s) (o_dst_port s) (o_message s) (o_flag s) (recvmsg s) x.

(** [localaddr.sun_path] as a C string; the kernel looks at no more than the 108 bytes. *)
Fixpoint c_path (buf : string) : string :=
  match buf with
  | EmptyString => EmptyString
  | String c b => if Ascii.eqb c Ascii.zero then EmptyString else String c (c_path b)
  end.
Definition localaddr (s : odr) : string := c_path (local_buf s).

(** A buffer of zeros. *)
Fixpoint zeros (n : nat) : string :=
  match n with O => EmptyString | S n' => String Ascii.zero (zeros n') end.

(** The NUL at the end of a string. *)
Definition NUL : string := String Ascii.zero EmptyString.

(** [strcpy] into the buffer. *)
Definition copy_path (path buf : string) : string := overlay (path +:+ NUL) buf.

(** What [recvfrom] does to [localaddr] and [un_len]: of the address of the sender, the
    family (two bytes), its path and a NUL, the first [un_len] bytes are stored, and
    [un_len] becomes the length of the whole address. *)
Definition recv_addr (path : string) (s : odr) : odr :=
  set_un_len (2 + String.length path + 1)
    (set_local (overlay (String.substring 0 (un_len s - 2) (path +:+ NUL)) (local_buf s)) s).

(** * Start-up *)

(** Interfaces of interest: every interface after loopback (1) and eth0 (2), in the
    order of the list; [if_addr] and [if_fd] have room for three. *)
Fixpoint collect_interfaces (hwa : list (Z * list Z)) (acc : list (list Z))
    : option (list (list Z)) :=
  match hwa with
  | [] => Some acc
  | (if_index, if_haddr) :: hwa' =>
      if (if_index =? 1) || (if_index =? 2) then collect_interfaces hwa' acc
      else if (length acc <? 3)%nat then collect_interfaces hwa' (acc ++ [if_haddr])
      else None
  end.

(** The node number: the index of eth0's address in [vm_addr], plus one; it stays
    unassigned ([None]) when the address is not there. *)
Definition find_node (eth0 : string) : option Z :=
  let index := first_index (streq eth0) vm_addr in
  if (index <? 10)%nat then Some (Z.of_nat index + 1) else None.

(** The tables at the start of the event loop.  [junk_*] are the contents of the
    uninitialised stack variables. *)
Definition init_entry (addr : string) (junk : routing_entry) : routing_entry :=
  mk_route addr (next_hop junk) 0 (hop_cnt junk) (broadcast_id junk).

Fixpoint zip_entries (addrs : list string) (junk : list routing_entry) : list routing_entry :=
  match addrs, junk with
  | a :: addrs', j :: junk' => init_entry a j :: zip_entries addrs' junk'
  | _, _ => []
  end.

Definition odr_init (junk_rt : list routing_entry) (junk_pt : list port_entry)
    (junk_dst : string) (junk_port : Z) (junk_msg : string) (junk_flag : Z) (junk_buf : string) : odr :=
  mk_odr 0 6000 (zip_entries vm_addr junk_rt) (<[0%nat := mk_port 5000 "240411"]> junk_pt) 0
    (zeros SUN_PATH_LEN) sizeof_sockaddr_un junk_dst junk_port junk_msg junk_flag junk_buf [].

(** * Handlers *)

Section handlers.
Context (env : odr_env).

(** [sendto(...) < 0] ends the process with [exit(1)]. *)
Definition sendto (e : event) : M odr unit :=
  s ← get;
  if send_ok env (out s) e then modify (set_out (out s ++ [e])) else exit 1.

(** The address of this node, [vm_addr[node-1]]. *)
Definition my_addr : M odr string := rd vm_addr (node env - 1).

(** [if_addr[i].sll_addr] of an interface that was set up; [if_fd[i]] is valid for
    the same indices. *)
Definition if_mac (i : Z) : M odr (list Z) := rd (if_addr env) i.

Definition rt_at (i : nat) : M odr routing_entry :=
  s ← get; rd (routing_table s) (Z.of_nat i).
Definition rt_set (i : nat) (e : routing_entry) : M odr unit :=
  s ← get;
  t ← of_opt OutOfBounds (arr_set (routing_table s) (Z.of_nat i) e);
  modify (set_rt t).

(** [for (n = 0; n < 10; n++) if (strcmp(routing_table[n].dst_addr, a) == 0) break;] *)
Definition rt_find (a : string) : M odr nat :=
  s ← get; mret (first_index (λ e, streq (dst_addr e) a) (routing_table s)).

(** [sscanf(recvmsg, "%s %d %s %d", dst_addr, &dst_port, message, &flag)]: the
    conversions after a failed one leave their variables alone. *)
Definition scan_request (msg : string) : M odr unit :=
  match scan_s msg with
  | None => mret tt
  | Some (w, r1) =>
      a ← strcpy ADDR_LEN w;
      modify (set_dst_addr a);;
      match scan_d r1 with
      | None => mret tt
      | Some (p, r2) =>
          p' ← int_op p;
          modify (set_dst_port p');;
          match scan_s r2 with
          | None => mret tt
          | Some (m, r3) =>
              m' ← strcpy MAXLINE m;
              modify (set_message m');;
              match scan_d r3 with
              | None => mret tt
              | Some (f, _) => f' ← int_op f; modify (set_flag f')
              end
          end
      end
  end.

(** Application payload sent along entry [number] of the routing table. *)
Definition payload_frame (e : routing_entry) (src_mac : list Z) (load : payload) : list Z :=
  enc_hdr (mk_hdr (next_hop e) src_mac (htons PROTO) (htonl_int 2)) ++ enc_payload load.

Definition unicast (ifindex : Z) (dst : list Z) : sockaddr_ll :=
  mk_ll ifindex 0 0 6 (dst ++ [0; 0]).

(** Reply from the local server. *)
Definition local_reply : M odr unit :=
  s ← get;
  number ← rt_find (o_dst_addr s);
  e ← rt_at number;
  src_mac ← if_mac (outgoing_if e - 3);
  me ← my_addr;
  src ← strcpy ADDR_LEN me;
  dst ← strcpy ADDR_LEN (o_dst_addr s);
  msg ← strcpy MESSAGE_LEN (o_message s);
  let load := mk_payload src dst (htonl_int 5000) (htonl_int (o_dst_port s)) (htonl_int 0)
                (htonl_int (Z.of_nat MAXLINE)) (enc_str MESSAGE_LEN msg) in
  sendto (SendFrame (Z.to_nat (outgoing_if e - 3)) (payload_frame e src_mac load)
            (unicast (outgoing_if e) (next_hop e))).

(** The client's request sent along a known route. *)
Definition send_request (index number : nat) : M odr unit :=
  s ← get;
  e ← rt_at number;
  src_mac ← if_mac (outgoing_if e - 3);
  me ← my_addr;
  src ← strcpy ADDR_LEN me;
  dst ← strcpy ADDR_LEN (o_dst_addr s);
  pe ← rd (port_table s) (Z.of_nat index);
  msg ← strcpy MESSAGE_LEN (o_message s);
  let load := mk_payload src dst (htonl_int (port pe)) (htonl_int 5000) (htonl_int 0)
                (htonl_int (Z.of_nat MAXLINE)) (enc_str MESSAGE_LEN msg) in
  sendto (SendFrame (Z.to_nat (outgoing_if e - 3)) (payload_frame e src_mac load)
            (unicast (outgoing_if e) (next_hop e))).

(** A routing request on interface [number], from that interface's address. *)
Definition send_RREQ (hatype pkttype : Z) (rrq : RREQ) (number : nat) : M odr unit :=
  src_mac ← if_mac (Z.of_nat number);
  sendto (SendFrame number
            (enc_hdr (mk_hdr bcast_mac src_mac (htons PROTO) (htonl_int 0)) ++ enc_RREQ rrq)
            (mk_ll (Z.of_nat number + 3) hatype pkttype 6 (bcast_mac ++ [0; 0]))).

(** Route discovery: a new RREQ floods all interfaces. *)
Definition discover (index : nat) : M odr unit :=
  s ← get;
  me ← my_addr;
  src ← strcpy ADDR_LEN me;
  dst ← strcpy ADDR_LEN (o_dst_addr s);
  pe ← rd (port_table s) (Z.of_nat index);
  b ← int_op (o_broadcast_id s + 1);
  modify (set_bid b);;
  let rrq := mk_RREQ src dst (htonl_int (port pe)) (htonl_int b) (htonl_int 0) (htonl_int 0)
               (htonl_int (if o_flag s =? 1 then 1 else 0)) in
  for_ 0 (length (if_addr env)) (send_RREQ 0 0 rrq).

(** [port_table[++port_cnt].port = port++; strcpy(port_table[port_cnt].sun_path, ..)] *)
Definition add_client : M odr unit :=
  s ← get;
  n ← int_op (port_cnt s + 1);
  p ← int_op (o_port s + 1);
  path ← strcpy ADDR_LEN (localaddr s);
  t ← of_opt OutOfBounds (arr_set (port_table s) n (mk_port (o_port s) path));
  modify (set_ports p t n).

(** Request from a local client; [index] is its place in the port table. *)
Definition local_request (index : nat) : M odr unit :=
  s ← get;
  when (Z.of_nat index =? port_cnt s + 1) add_client;;
  number ← rt_find (o_dst_addr s);
  s ← get;
  let route_exist :=
    match routing_table s !! number with
    | Some e => negb (outgoing_if e =? 0) && (o_flag s =? 0)
    | None => false
    end in
  if route_exist then send_request index number else discover index.

(** The first [port_cnt + 1] places of the port table, the ones in use. *)
Definition ports_in_use (s : odr) : list port_entry :=
  take (Z.to_nat (port_cnt s + 1)) (port_table s).

(** A datagram arrived on the UNIX domain socket ([None]: [recvfrom] failed): its bytes and
    the path its sender is bound to. *)
Definition handle_local (dgram : option (string * string)) : M odr unit :=
  match dgram with
  | None => exit 1
  | Some (data, path) =>
      modify (λ s, set_recvmsg (overlay (String.substring 0 MAXLINE data) (recvmsg s)) s);;
      modify (recv_addr path);;
      s ← get;
      path ← of_opt NoTerminator (until_nul (local_buf s));
      msg ← of_opt NoTerminator (until_nul (recvmsg s));
      scan_request msg;;
      let index := first_index (λ pe, streq (sun_path pe) path) (ports_in_use s) in
      if (index =? 0)%nat then local_reply else local_request index
  end.

(** The test that a received route is better than the entry [e]; the comparisons
    with [ntohl(..)] are unsigned. *)
Definition better_route (disc hops : Z) (index : nat) (e : routing_entry) : bool :=
  (ntohl disc =? 1) || (outgoing_if e =? 0)
  || (u32 (hop_cnt e) >? u32 (ntohl hops + 1))
  || ((u32 (hop_cnt e) =? u32 (ntohl hops + 1)) && negb (outgoing_if e =? Z.of_nat index + 3)).

(** Add or update the route to [addr], learnt from a frame of [src_mac] on interface
    [index]: the entry's number (10 when there is none) and whether it changed. *)
Definition update_route (index : nat) (src_mac : list Z) (addr : string) (disc hops : Z)
    : M odr (nat * bool) :=
  number ← rt_find addr;
  s ← get;
  match routing_table s !! number with
  | Some e =>
      if better_route disc hops index e then
        rt_set number (mk_route (dst_addr e) src_mac (Z.of_nat index + 3)
                         (s32 (ntohl hops + 1)) (broadcast_id e));;
        mret (number, true)
      else mret (number, false)
  | None => mret (number, false)
  end.

(** [routing_table[number].broadcast_id < id || (== id && efficient == 1)] *)
Definition newer (e : routing_entry) (rrq : RREQ) (efficient : bool) : bool :=
  (u32 (broadcast_id e) <? ntohl (q_broadcast_id rrq))
  || ((u32 (broadcast_id e) =? ntohl (q_broadcast_id rrq)) && efficient).

(** Send a RREP back to the neighbour [recv_mac] the RREQ came from. *)
Definition send_RREP (index number : nat) (recv_mac : list Z) (hatype pkttype : Z) (rrp : RREP)
    : M odr unit :=
  e ← rt_at number;
  src_mac ← if_mac (outgoing_if e - 3);
  src ← strcpy ADDR_LEN (p_src_addr rrp);
  dst ← strcpy ADDR_LEN (p_dst_addr rrp);
  sendto (SendFrame index
            (enc_hdr (mk_hdr recv_mac src_mac (htons PROTO) (htonl_int 1)) ++ enc_RREP rrp)
            (mk_ll (Z.of_nat index + 3) hatype pkttype 6 (recv_mac ++ [0; 0]))).

(** [routing_table[number].broadcast_id = ntohl(RRQ->broadcast_id)] *)
Definition record_bid (number : nat) (rrq : RREQ) : M odr unit :=
  e ← rt_at number;
  rt_set number (mk_route (dst_addr e) (next_hop e) (outgoing_if e) (hop_cnt e)
                   (s32 (ntohl (q_broadcast_id rrq)))).

(** Flood on all interfaces, except the one the RREQ came in. *)
Definition flood_except (index : nat) (hatype pkttype : Z) (rrq : RREQ) : M odr unit :=
  for_ 0 (length (if_addr env)) (λ count,
    if (count =? index)%nat then mret tt else send_RREQ hatype pkttype rrq count).

Definition bump_hops (rrq : RREQ) (sent : Z) : RREQ :=
  mk_RREQ (q_src_addr rrq) (q_dst_addr rrq) (q_src_port rrq) (q_broadcast_id rrq)
    (htonl_int (ntohl (q_hop_cnt rrq) + 1)) sent (q_discovery rrq).

(** This node is the destination of the RREQ. *)
Definition RREQ_at_destination (index number : nat) (efficient : bool) (recv_mac : list Z)
    (rrq : RREQ) : M odr unit :=
  e ← rt_at number;
  when ((ntohl (q_RREP_sent rrq) =? 0) && newer e rrq efficient)
    (send_RREP index number recv_mac 0 0
       (mk_RREP (q_dst_addr rrq) (q_src_addr rrq) (htonl_int (q_src_port rrq)) (htonl_int 0)
          (htonl_int (if ntohl (q_discovery rrq) =? 1 then 1 else 0))));;
  record_bid number rrq.

(** This node has route information to the destination, in entry [ce]. *)
Definition RREQ_with_route (index number : nat) (efficient : bool) (recv_mac : list Z)
    (rrq : RREQ) (ce : routing_entry) : M odr unit :=
  e ← rt_at number;
  when ((ntohl (q_RREP_sent rrq) =? 0) && newer e rrq efficient)
    (send_RREP index number recv_mac ARPHRD_ETHER PACKET_OTHERHOST
       (mk_RREP (q_dst_addr rrq) (q_src_addr rrq) (htonl_int (q_src_port rrq))
          (htonl_int (hop_cnt ce)) (htonl_int 0)));;
  record_bid number rrq;;
  when efficient (flood_except index 0 0 (bump_hops rrq (htonl_int 1))).

(** This node is not the destination and has no route to it. *)
Definition RREQ_without_route (index number : nat) (efficient : bool) (rrq : RREQ) : M odr unit :=
  e ← rt_at number;
  when (newer e rrq efficient)
    (flood_except index ARPHRD_ETHER PACKET_BROADCAST (bump_hops rrq (q_RREP_sent rrq)));;
  record_bid number rrq.

Definition handle_RREQ (index : nat) (header : hdr) (rrq : RREQ) : M odr unit :=
  '(number, efficient) ← update_route index (h_src_mac header) (q_src_addr rrq)
                           (q_discovery rrq) (q_hop_cnt rrq);
  me ← my_addr;
  if streq (q_dst_addr rrq) me then
    RREQ_at_destination index number efficient (h_src_mac header) rrq
  else
    s ← get;
    let count := first_index (λ e, streq (dst_addr e) (q_dst_addr rrq)
                   && (negb (outgoing_if e =? 0) && (ntohl (q_discovery rrq) =? 0)))
                   (routing_table s) in
    match routing_table s !! count with
    | Some ce => RREQ_with_route index number efficient (h_src_mac header) rrq ce
    | None => RREQ_without_route index number efficient rrq
    end.

(** The path of the local process with the port [p]; without one, the path of the
    last local datagram is used. *)
Definition find_local (p : Z) : M odr string :=
  s ← get;
  let count := first_index (λ pe, u32 (port pe) =? ntohl p) (ports_in_use s) in
  match ports_in_use s !! count with
  | Some pe => modify (λ s, set_local (copy_path (sun_path pe) (local_buf s)) s);; mret (sun_path pe)
  | None => mret (localaddr s)
  end.

(** Forward a message towards [dst] along the routing table. *)
Definition relay (dst : string) (type : Z) (hatype pkttype : Z) (body : list Z) : M odr unit :=
  number ← rt_find dst;
  e ← rt_at number;
  src_mac ← if_mac (outgoing_if e - 3);
  sendto (SendFrame (Z.to_nat (outgoing_if e - 3))
            (enc_hdr (mk_hdr (next_hop e) src_mac (htons PROTO) (htonl_int type)) ++ body)
            (mk_ll (outgoing_if e) hatype pkttype 6 (next_hop e ++ [0; 0]))).

Definition handle_RREP (index : nat) (header : hdr) (rrp : RREP) : M odr unit :=
  update_route index (h_src_mac header) (p_src_addr rrp) (p_discovery rrp) (p_hop_cnt rrp);;
  me ← my_addr;
  if streq (p_dst_addr rrp) me then
    path ← find_local (p_dst_port rrp);
    sendto (SendLocal ("HI " +:+ p_src_addr rrp +:+ " " +:+ print_d 5000) path)
  else
    relay (p_dst_addr rrp) 1 0 0
      (enc_RREP (mk_RREP (p_src_addr rrp) (p_dst_addr rrp) (p_dst_port rrp)
                   (htonl_int (ntohl (p_hop_cnt rrp) + 1)) (p_discovery rrp))).

Definition handle_payload (load : payload) : M odr unit :=
  me ← my_addr;
  if streq (l_dst_addr load) me then
    msg ← of_opt NoTerminator (dec_str (l_message load));
    path ← find_local (l_dst_port load);
    sendto (SendLocal (msg +:+ " " +:+ l_src_addr load +:+ " " +:+ print_d (l_src_port load)) path)
  else
    relay (l_dst_addr load) 2 ARPHRD_ETHER PACKET_OTHERHOST (enc_payload load).

(** A frame arrived on interface [index] ([None]: [recvfrom] failed); [ether_frame]
    is the buffer of ETH_FRAME_LEN bytes it was received into. *)
Definition handle_frame (index : nat) (ether_frame : option (list Z)) : M odr unit :=
  match ether_frame with
  | None => exit 1
  | Some bs =>
      let header := dec_hdr bs in
      let body := drop sizeof_hdr bs in
      if ntohl (h_type header) =? 0 then
        rrq ← of_opt NoTerminator (dec_RREQ body); handle_RREQ index header rrq
      else if ntohl (h_type header) =? 1 then
        rrp ← of_opt NoTerminator (dec_RREP body); handle_RREP index header rrp
      else
        load ← of_opt NoTerminator (dec_payload body); handle_payload load
  end.

(** One iteration of the event loop: what [select] reported ready, the local socket
    first, then the interfaces in order. *)
Fixpoint handle_interfaces (index : nat) (ready : list (option (option (list Z)))) : M odr unit :=
  match ready with
  | [] => mret tt
  | None :: ready' => handle_interfaces (S index) ready'
  | Some f :: ready' => handle_frame index f;; handle_interfaces (S index) ready'
  end.

Definition odr_iteration (unix : option (option (string * string)))
    (ready : list (option (option (list Z)))) : M odr unit :=
  match unix with Some d => handle_local d | None => mret tt end;;
  handle_interfaces 0 ready.
End handlers.
