(* ===== verification/OdrNet.v ===== *)
(** ODR services on the nodes of a network (Assignment 3): any number of frames in
    flight, lost, duplicated and reordered, and an invariant of every reachable state
    that bounds what a routing table can say.

    A frame sent on an interface can be received, any number of times, by any
    interface linked to it that it is addressed to. *)

From S2P Require Export Odr.

(** * The network *)

Record packet := mk_packet {
  tx_node : Z;
  tx_if : nat;
  pk_frame : list Z
}.

Record net := mk_net {
  st : Z → odr;
  alive : Z → bool;
  air : list packet
}.

(** The frames among what a node handed to its kernel. *)
Fixpoint packets_of (n : Z) (evs : list event) : list packet :=
  match evs with
  | [] => []
  | SendFrame i f _ :: evs' => mk_packet n i f :: packets_of n evs'
  | SendLocal _ _ :: evs' => packets_of n evs'
  end.

Definition fupd {A} (f : Z → A) (n : Z) (x : A) : Z → A := λ m, if m =? n then x else f m.

(** The network after node [n] ran a handler from its state in [w]. *)
Definition after (w : net) (n : Z) (r : res odr unit) : option net :=
  match r with
  | Done _ s => Some (mk_net (fupd (st w) n s) (alive w) (air w ++ packets_of n (out s)))
  | Exited _ s =>
      Some (mk_net (fupd (st w) n s) (fupd (alive w) n false) (air w ++ packets_of n (out s)))
  | Undefined _ => None
  end.

Section network.
Context (envs : Z → odr_env).
(** [link m j n i]: interface [j] of node [m] is heard by interface [i] of [n]. *)
Context (link : Z → nat → Z → nat → Prop).

Definition if_of (n : Z) (i : nat) : option (list Z) := if_addr (envs n) !! i.
Definition addr_of (n : Z) : option string := vm_addr !! Z.to_nat (n - 1).

(** A frame reaches an interface that it is broadcast or addressed to. *)
Definition received_by (n : Z) (i : nat) (p : packet) : Prop :=
  link (tx_node p) (tx_if p) n i ∧
  (take 6 (pk_frame p) = bcast_mac ∨ if_of n i = Some (take 6 (pk_frame p))).

Definition run_frame (w : net) (n : Z) (i : nat) (bs : list Z) : res odr unit :=
  handle_frame (envs n) i (Some bs) (set_out [] (st w n)).
Definition run_local (w : net) (n : Z) (data path : string) : res odr unit :=
  handle_local (envs n) (Some (data, path)) (set_out [] (st w n)).

Inductive step (w : net) : net → Prop :=
  | step_frame n i p junk w' :
      1 ≤ n ≤ 10 → alive w n = true → p ∈ air w → received_by n i p →
      after w n (run_frame w n i (pk_frame p ++ junk)) = Some w' → step w w'
  | step_local n data path w' :
      1 ≤ n ≤ 10 → alive w n = true →
      after w n (run_local w n data path) = Some w' → step w w'.

(** Every node has just started; the stacks hold anything (the buffers of the destination
    and the message any string that fits, the flag anything but 1). *)
Definition initial (w : net) : Prop :=
  air w = [] ∧ ∀ n, ∃ jr jp jd jo jm jf jb, length jr = 10%nat ∧ length jp = 10%nat ∧
    addr_ok jd ∧ no_nul jm = true ∧ jf ≠ 1 ∧ st w n = odr_init jr jp jd jo jm jf jb.

Definition reachable (w : net) : Prop := ∃ w0, initial w0 ∧ reach step w0 w.

(** [n] hears [m] on some link. *)
Definition adjacent (n m : Z) : Prop := ∃ i j, link m j n i.

Inductive walk : Z → Z → Z → Prop :=
  | walk_here n : walk n n 0
  | walk_link n m x L : adjacent n m → walk m x L → walk n x (L + 1).

(** What the installation provides: node numbers, hardware addresses that are
    unique and no broadcast address, links between existing interfaces. *)
Record installed : Prop := {
  inst_node : ∀ n, node (envs n) = n;
  inst_mac : ∀ n i a, if_of n i = Some a → mac_ok a ∧ a ≠ bcast_mac;
  inst_unique : ∀ n i m j a, if_of n i = Some a → if_of m j = Some a → n = m;
  inst_link : ∀ m j n i, link m j n i →
    1 ≤ m ≤ 10 ∧ is_Some (if_of m j) ∧ is_Some (if_of n i)
}.

(** * Invariant *)

(** [n], in state [s], is [x] or has a route to it. *)
Definition knows (n : Z) (s : odr) (x : string) : Prop :=
  addr_of n = Some x ∨ ∃ e, e ∈ routing_table s ∧ dst_addr e = x ∧ outgoing_if e ≠ 0.

Section one_node.
Context (K : Z → string → Prop). (* what the nodes know *)

Definition route_ok (n : Z) (k : nat) (e : routing_entry) : Prop :=
  outgoing_if e ≠ 0 →
  ∃ i m j j' L, outgoing_if e = Z.of_nat i + 3 ∧ link m j n i ∧
                if_of m j' = Some (next_hop e) ∧ K m (dst_addr e) ∧
                walk n (Z.of_nat k + 1) L ∧ hop_cnt e = s32 L.

(** The node that owns the address [a] knows [x]. *)
Definition target_knows (a : list Z) (x : string) : Prop :=
  (∃ t j, if_of t j = Some a) ∧ ∀ t j, if_of t j = Some a → K t x.

(** A distance to the node with address [x] claimed by node [n]. *)
Definition claims (n : Z) (x : string) (hops : Z) : Prop :=
  ∃ k L, vm_addr !! k = Some x ∧ walk n (Z.of_nat k + 1) L ∧ ntohl hops = u32 L.

(** A frame sent by [n], which knows [Kn]. *)
Definition frame_ok (n : Z) (Kn : string → Prop) (f : list Z) : Prop :=
  ∃ h body, f = enc_hdr h ++ body ∧ hdr_ok h ∧ (∃ j', if_of n j' = Some (h_src_mac h)) ∧
  ((∃ r, ntohl (h_type h) = 0 ∧ body = enc_RREQ r ∧ RREQ_ok r ∧
         Kn (q_src_addr r) ∧ claims n (q_src_addr r) (q_hop_cnt r)) ∨
   (∃ r, ntohl (h_type h) = 1 ∧ body = enc_RREP r ∧ RREP_ok r ∧
         Kn (p_src_addr r) ∧ claims n (p_src_addr r) (p_hop_cnt r) ∧
         target_knows (h_dst_mac h) (p_dst_addr r)) ∨
   (∃ l, ntohl (h_type h) = 2 ∧ body = enc_payload l ∧ payload_ok l ∧
         is_Some (dec_str (l_message l)) ∧ target_knows (h_dst_mac h) (l_dst_addr l))).

Definition event_ok (n : Z) (Kn : string → Prop) (ev : event) : Prop :=
  match ev with SendFrame _ f _ => frame_ok n Kn f | SendLocal _ _ => True end.

(** The state of node [n] at any point of a handler started in [s0]. *)
Record node_ok (n : Z) (s0 s : odr) : Prop := {
  nok_addrs : dst_addr <$> routing_table s = vm_addr;
  nok_routes : ∀ k e, routing_table s !! k = Some e → route_ok n k e;
  nok_mono : ∀ x, knows n s0 x → knows n s x;
  nok_out : Forall (event_ok n (knows n s)) (out s);
  nok_dst : addr_ok (o_dst_addr s);
  nok_msg : no_nul (o_message s) = true
}.
End one_node.

Definition net_ok (w : net) : Prop :=
  (∀ n, 1 ≤ n ≤ 10 →
     dst_addr <$> routing_table (st w n) = vm_addr ∧
     (∀ k e, routing_table (st w n) !! k = Some e → route_ok (λ m, knows m (st w m)) n k e) ∧
     addr_ok (o_dst_addr (st w n)) ∧ no_nul (o_message (st w n)) = true) ∧
  Forall (λ p, 1 ≤ tx_node p ≤ 10 ∧
               frame_ok (λ m, knows m (st w m)) (tx_node p)
                 (knows (tx_node p) (st w (tx_node p))) (pk_frame p)) (air w).
End network.

(** * Lemmas *)

Lemma vm_addr_inj k k' a : vm_addr !! k = Some a → vm_addr !! k' = Some a → k = k'.
Proof.
  assert (H : NoDup vm_addr) by (apply (bool_decide_unpack _); vm_compute; exact I).
  apply NoDup_alt. exact H.
Qed.

Lemma vm_addr_ok k a : vm_addr !! k = Some a → addr_ok a.
Proof.
  assert (H : Forall addr_ok vm_addr) by (repeat constructor).
  intros Hk. by eapply Forall_lookup_1.
Qed.

Lemma rt_entry rt k a :
  dst_addr <$> rt = vm_addr → vm_addr !! k = Some a →
  first_index (λ e, streq (dst_addr e) a) rt = k ∧ ∃ e, rt !! k = Some e ∧ dst_addr e = a.
Proof.
  intros Hrt Ha. assert (∃ e, rt !! k = Some e ∧ dst_addr e = a) as (e & He & Hea).
  { rewrite <- Hrt, list_lookup_fmap in Ha. destruct (rt !! k) as [e|]; simplify_eq/=. eauto. }
  split; [|eauto]. eapply first_index_unique; [exact He|by apply streq_eq|].
  intros k' e' He' Hd%streq_eq. eapply vm_addr_inj; [|exact Ha].
  by rewrite <- Hrt, list_lookup_fmap, He', <- Hd.
Qed.

Lemma rt_find_run a s :
  rt_find a s = Done (first_index (λ e, streq (dst_addr e) a) (routing_table s)) s.
Proof. done. Qed.

Lemma rt_at_run k e s : routing_table s !! k = Some e → rt_at k s = Done e s.
Proof.
  intros He. unfold rt_at, get, rd, of_opt, mbind, M_bind. by rewrite arr_at_nat, He.
Qed.

Lemma rt_set_run k e s :
  (k < length (routing_table s))%nat →
  rt_set k e s = Done tt (set_rt (<[k := e]> (routing_table s)) s).
Proof.
  intros Hk. unfold rt_set, get, of_opt, mbind, M_bind. by rewrite arr_set_nat.
Qed.

Lemma strcpy_ok a s : addr_ok a → strcpy ADDR_LEN a s = Done (St:=odr) a s.
Proof. intros [H _]. unfold strcpy. by destruct (Nat.ltb_spec (String.length a) ADDR_LEN); [|lia]. Qed.

Lemma sendto_wp env U E e (Q : unit → odr → Prop) s :
  E 1 s → Q tt (set_out (out s ++ [e]) s) → wpx U E (sendto env e) Q s.
Proof.
  intros HE HQ. unfold sendto, wpx, get, mbind, M_bind. by destruct (send_ok env (out s) e).
Qed.

Section handlers_ok.
Context (envs : Z → odr_env) (link : Z → nat → Z → nat → Prop).
Context (inst : installed envs link).

Lemma frame_ok_mono (K K' : Z → string → Prop) n (Kn Kn' : string → Prop) f :
  (∀ m x, K m x → K' m x) → (∀ x, Kn x → Kn' x) →
  frame_ok envs link K n Kn f → frame_ok envs link K' n Kn' f.
Proof.
  intros HK HKn (h & body & -> & Hh & Hsrc & Hcase). exists h, body. split_and!; [done..|].
  assert (Ht : ∀ a x, target_knows envs K a x → target_knows envs K' a x).
  { intros a x [? H]. split; [done|]. eauto. }
  destruct Hcase as [(r & H)|[(r & H)|(l & H)]]; [left; exists r|right; left; exists r|right; right; exists l];
    naive_solver.
Qed.

Lemma event_ok_mono K n (Kn Kn' : string → Prop) evs :
  (∀ x, Kn x → Kn' x) → Forall (event_ok envs link K n Kn) evs → Forall (event_ok envs link K n Kn') evs.
Proof.
  intros HK H. eapply Forall_impl; [exact H|].
  intros [j f to|d p]; [by apply frame_ok_mono|done].
Qed.

Lemma route_ok_mono (K K' : Z → string → Prop) n k e :
  (∀ m x, K m x → K' m x) → route_ok envs link K n k e → route_ok envs link K' n k e.
Proof.
  intros HK H Ho. destruct (H Ho) as (i & m & j & j' & L & ? & ? & ? & ? & ? & ?).
  exists i, m, j, j', L. eauto 10.
Qed.

Lemma owner_knows (K : Z → string → Prop) m j a x :
  if_of envs m j = Some a → K m x → target_knows envs K a x.
Proof.
  intros Ha Hk. split; [eauto|]. intros t j' Ht.
  by rewrite (inst_unique _ _ inst t j' m j a Ht Ha).
Qed.

Context (n : Z) (Hn : 1 ≤ n ≤ 10) (K : Z → string → Prop) (s0 : odr).
Abbreviation J := (node_ok envs link K n s0).
Abbreviation E := (λ (_ : Z) s, J s).
Abbreviation env := (envs n).

Lemma my_addr_is : ∃ me, addr_of n = Some me ∧ addr_ok me ∧ ∀ s, my_addr env s = Done me s.
Proof.
  destruct (lookup_lt_is_Some_2 vm_addr (Z.to_nat (n - 1))) as [me Hme].
  { change (length vm_addr) with 10%nat. lia. }
  exists me. split; [done|]. split; [by eapply vm_addr_ok|]. intros s.
  unfold my_addr, rd, of_opt. rewrite (inst_node _ _ inst).
  assert (arr_at vm_addr (n - 1) = Some me) as ->; [|done]. apply arr_at_Some. split; [lia|done].
Qed.

(** Writes to variables the invariant does not mention. *)
Lemma node_ok_ext s s' :
  J s → routing_table s' = routing_table s → out s' = out s →
  o_dst_addr s' = o_dst_addr s → o_message s' = o_message s → J s'.
Proof.
  intros [H1 H2 H3 H4 H5 H6] Hr Ho Hd Hm. unfold knows in *.
  split; unfold knows; rewrite ?Hr, ?Ho, ?Hd, ?Hm; done.
Qed.

Lemma node_ok_send s e :
  J s → event_ok envs link K n (knows n s) e → J (set_out (out s ++ [e]) s).
Proof.
  intros [H1 H2 H3 H4 H5 H6] He. split; try done. simpl. apply Forall_app. auto.
Qed.

Lemma send_ok_wp U e (Q : unit → odr → Prop) s :
  J s → event_ok envs link K n (knows n s) e →
  (J (set_out (out s ++ [e]) s) → Q tt (set_out (out s ++ [e]) s)) →
  wpx U E (sendto env e) Q s.
Proof. intros HJ He HQ. apply sendto_wp; [done|]. by apply HQ, node_ok_send. Qed.

Lemma node_ok_rt_set s k e e' :
  J s → routing_table s !! k = Some e → dst_addr e' = dst_addr e →
  route_ok envs link K n k e' → (outgoing_if e ≠ 0 → outgoing_if e' ≠ 0) →
  J (set_rt (<[k := e']> (routing_table s)) s).
Proof.
  intros [H1 H2 H3 H4 H5 H6] He Hd Hok Hout.
  assert (Hlt := lookup_lt_Some _ _ _ He).
  assert (Hk : ∀ x, knows n s x → knows n (set_rt (<[k := e']> (routing_table s)) s) x).
  { intros x [Hx|(e1 & He1 & Hd1 & Ho1)]; [by left|right].
    apply list_elem_of_lookup in He1 as [k1 He1]. destruct (decide (k1 = k)) as [->|Hne].
    - exists e'. split_and!; [|congruence|naive_solver].
      eapply (list_elem_of_lookup_2 _ k). simpl. by apply list_lookup_insert_eq.
    - exists e1. split_and!; [|done..]. eapply (list_elem_of_lookup_2 _ k1). simpl.
      by rewrite list_lookup_insert_ne. }
  split; simpl; try done.
  - rewrite list_fmap_insert, Hd, H1. apply list_insert_id.
    by rewrite <- H1, list_lookup_fmap, He.
  - intros k1 e1 He1. destruct (decide (k1 = k)) as [->|Hne].
    + rewrite list_lookup_insert_eq in He1 by done. by simplify_eq.
    + rewrite list_lookup_insert_ne in He1 by done. eauto.
  - eauto.
  - by eapply event_ok_mono.
Qed.

(** The entry of an address the node knows and is not its own. *)
Lemma known_entry s x :
  J s → knows n s x → addr_of n ≠ Some x →
  ∃ k e, vm_addr !! k = Some x ∧ routing_table s !! k = Some e ∧ dst_addr e = x ∧
         outgoing_if e ≠ 0 ∧ first_index (λ e, streq (dst_addr e) x) (routing_table s) = k.
Proof.
  intros HJ [Hx|(e & He & Hd & Ho)] Hne; [done|].
  apply list_elem_of_lookup in He as [k He].
  assert (Hk : vm_addr !! k = Some x).
  { by rewrite <- (nok_addrs _ _ _ _ _ _ HJ), list_lookup_fmap, He, <- Hd. }
  exists k, e. split_and!; [done..|].
  by destruct (rt_entry _ _ _ (nok_addrs _ _ _ _ _ _ HJ) Hk).
Qed.

(** The interface of a route exists; frames for its next hop reach a node that
    knows the destination. *)
Lemma route_interface s k e :
  J s → routing_table s !! k = Some e → outgoing_if e ≠ 0 →
  ∃ i a, outgoing_if e - 3 = Z.of_nat i ∧ if_of envs n i = Some a ∧ mac_ok a ∧
         (∀ st, if_mac env (outgoing_if e - 3) st = Done a st) ∧
         mac_ok (next_hop e) ∧ target_knows envs K (next_hop e) (dst_addr e).
Proof.
  intros HJ He Ho.
  destruct (nok_routes _ _ _ _ _ _ HJ k e He Ho) as (i & m & j & j' & L & Hi & Hl & Hm & Hk & _).
  destruct (inst_link _ _ inst _ _ _ _ Hl) as (_ & _ & [a Ha]).
  exists i, a. split_and!; [lia|done|by eapply inst_mac| | |].
  - intros st. unfold if_mac, rd, of_opt. rewrite Hi, Z.add_simpl_r, arr_at_nat.
    unfold if_of in Ha. by rewrite Ha.
  - by eapply inst_mac.
  - by eapply owner_knows.
Qed.

(** * Frames the handlers build *)

Lemma hdr_intro dst src type :
  mac_ok dst → mac_ok src → hdr_ok (mk_hdr dst src (htons PROTO) (htonl_int type)).
Proof.
  intros. pose proof (htons_range PROTO). pose proof (htonl_int_range type). done.
Qed.

Lemma bcast_mac_ok : mac_ok bcast_mac.
Proof.
  split; [done|]. unfold bcast_mac, is_byte. rewrite !Forall_cons. split_and!; (lia || constructor).
Qed.

Lemma RREQ_frame_ok j src r Kn :
  if_of envs n j = Some src → RREQ_ok r → Kn (q_src_addr r) → claims link n (q_src_addr r) (q_hop_cnt r) →
  frame_ok envs link K n Kn
    (enc_hdr (mk_hdr bcast_mac src (htons PROTO) (htonl_int 0)) ++ enc_RREQ r).
Proof.
  intros Hsrc Hr Hk Hc. eexists _, _. split; [done|]. split_and!.
  - apply hdr_intro; [apply bcast_mac_ok|by eapply inst_mac].
  - by exists j.
  - left. exists r. split_and!; try done; apply ntohl_htonl_int.
Qed.

Lemma RREP_frame_ok j dst src r Kn :
  if_of envs n j = Some src → mac_ok dst → RREP_ok r → Kn (p_src_addr r) →
  claims link n (p_src_addr r) (p_hop_cnt r) → target_knows envs K dst (p_dst_addr r) →
  frame_ok envs link K n Kn
    (enc_hdr (mk_hdr dst src (htons PROTO) (htonl_int 1)) ++ enc_RREP r).
Proof.
  intros Hsrc Hd Hr Hk Hc Ht. eexists _, _. split; [done|]. split_and!.
  - apply hdr_intro; [done|by eapply inst_mac].
  - by exists j.
  - right; left. exists r. split_and!; try done; apply ntohl_htonl_int.
Qed.

Lemma payload_frame_ok j dst src l Kn :
  if_of envs n j = Some src → mac_ok dst → payload_ok l →
  is_Some (dec_str (l_message l)) → target_knows envs K dst (l_dst_addr l) →
  frame_ok envs link K n Kn
    (enc_hdr (mk_hdr dst src (htons PROTO) (htonl_int 2)) ++ enc_payload l).
Proof.
  intros Hsrc Hd Hl Hm Ht. eexists _, _. split; [done|]. split_and!.
  - apply hdr_intro; [done|by eapply inst_mac].
  - by exists j.
  - right; right. exists l. split_and!; try done; apply ntohl_htonl_int.
Qed.

(** * Handlers *)

Lemma send_RREQ_ok U h p r number (Q : unit → odr → Prop) s :
  J s → (number < length (if_addr env))%nat → RREQ_ok r →
  knows n s (q_src_addr r) → claims link n (q_src_addr r) (q_hop_cnt r) →
  (∀ e, J (set_out (out s ++ [e]) s) → Q tt (set_out (out s ++ [e]) s)) →
  wpx U E (send_RREQ env h p r number) Q s.
Proof.
  intros HJ Hnum Hr Hk Hc HQ. destruct (lookup_lt_is_Some_2 _ _ Hnum) as [a Ha].
  unfold send_RREQ. eapply wpx_run.
  { unfold if_mac, rd, of_opt. rewrite arr_at_nat, Ha. done. }
  apply send_ok_wp; [done| |by apply HQ]. by apply (RREQ_frame_ok number).
Qed.

Lemma flood_ok U h p r body lo (Q : unit → odr → Prop) s :
  J s → RREQ_ok r → claims link n (q_src_addr r) (q_hop_cnt r) →
  knows n s (q_src_addr r) →
  (∀ k, body k = mret tt ∨ body k = send_RREQ env h p r k) →
  (∀ s', J s' → routing_table s' = routing_table s → Q tt s') →
  wpx U E (for_ lo (length (if_addr env) - lo) body) Q s.
Proof.
  intros HJ Hr Hc Hk Hbody HQ.
  apply (wpx_for U E (λ _ s', J s' ∧ routing_table s' = routing_table s)); [done| |naive_solver].
  intros k s' Hlt [HJ' Hrt']. destruct (Hbody k) as [->| ->]; [done|].
  apply send_RREQ_ok; try done; [lia|]. unfold knows in *. by rewrite Hrt'.
Qed.

Lemma update_route_ok U i m j j' src addr disc hops (Q : nat * bool → odr → Prop) s :
  J s → link m j n i → if_of envs m j' = Some src → K m addr → claims link m addr hops →
  (∀ k eff s' e, J s' → vm_addr !! k = Some addr → routing_table s' !! k = Some e →
     dst_addr e = addr → outgoing_if e ≠ 0 → knows n s' addr → out s' = out s →
     o_dst_addr s' = o_dst_addr s → Q (k, eff) s') →
  wpx U E (update_route i src addr disc hops) Q s.
Proof.
  intros HJ Hl Hsrc Hk (k & L & Ha & Hw & Hh) HQ. unfold update_route.
  destruct (rt_entry _ _ _ (nok_addrs _ _ _ _ _ _ HJ) Ha) as (Hidx & e & He & Hd).
  eapply wpx_run; [apply rt_find_run|]. rewrite Hidx.
  eapply wpx_run; [reflexivity|]. rewrite He.
  destruct (better_route disc hops i e) eqn:Hb.
  - eapply wpx_run; [apply rt_set_run; by eapply lookup_lt_Some|].
    set (e' := mk_route _ _ _ _ _).
    assert (HJ' : J (set_rt (<[k:=e']> (routing_table s)) s)).
    { eapply node_ok_rt_set; try done; [|simpl; lia]. intros _.
      exists i, m, j, j', (L + 1). simpl. rewrite Hd. split_and!; try done.
      - eapply walk_link; [by exists i, j|done].
      - rewrite Hh. apply s32_eq. by rewrite u32_add_l. }
    assert (Hlook : routing_table (set_rt (<[k:=e']> (routing_table s)) s) !! k = Some e').
    { simpl. apply list_lookup_insert_eq. by eapply lookup_lt_Some. }
    apply (HQ k true _ e'); try done; [simpl; lia|]. right. exists e'. split_and!; [|done|simpl; lia].
    by eapply list_elem_of_lookup_2.
  - assert (Ho : outgoing_if e ≠ 0).
    { intros Ho. unfold better_route in Hb. rewrite Ho in Hb. simpl in Hb.
      by rewrite !orb_true_r in Hb. }
    apply (HQ k false s e); try done. right. exists e. split_and!; try done.
    by eapply list_elem_of_lookup_2.
Qed.

Lemma record_bid_ok U k e rrq (Q : unit → odr → Prop) s :
  J s → routing_table s !! k = Some e →
  (∀ s' e', J s' → routing_table s' !! k = Some e' → dst_addr e' = dst_addr e →
            outgoing_if e' = outgoing_if e → (∀ x, knows n s x → knows n s' x) → Q tt s') →
  wpx U E (record_bid k rrq) Q s.
Proof.
  intros HJ He HQ. unfold record_bid. eapply wpx_run; [by apply rt_at_run|].
  set (e' := mk_route _ _ _ _ _). assert (Hlt := lookup_lt_Some _ _ _ He).
  assert (HJ' : J (set_rt (<[k:=e']> (routing_table s)) s)).
  { eapply node_ok_rt_set; try done. intros Ho.
    exact (nok_routes _ _ _ _ _ _ HJ k e He Ho). }
  assert (Hs' : rt_set k e' s = Done tt (set_rt (<[k:=e']> (routing_table s)) s))
    by by apply rt_set_run.
  unfold wpx. rewrite Hs'. apply (HQ _ e'); try done.
  - simpl. by apply list_lookup_insert_eq.
  - intros x [Hx|(e1 & He1 & Hd1 & Ho1)]; [by left|right].
    apply list_elem_of_lookup in He1 as [k1 He1]. destruct (decide (k1 = k)) as [->|Hne].
    + exists e'. simplify_eq. split_and!; try done. eapply (list_elem_of_lookup_2 _ k). simpl.
      by apply list_lookup_insert_eq.
    + exists e1. split_and!; [|done..]. eapply (list_elem_of_lookup_2 _ k1). simpl.
      by rewrite list_lookup_insert_ne.
Qed.

Lemma send_RREP_ok U i m j k e src h p r (Q : unit → odr → Prop) s :
  J s → routing_table s !! k = Some e → outgoing_if e ≠ 0 →
  if_of envs m j = Some src → K m (p_dst_addr r) → RREP_ok r →
  knows n s (p_src_addr r) → claims link n (p_src_addr r) (p_hop_cnt r) →
  (∀ ev, J (set_out (out s ++ [ev]) s) → Q tt (set_out (out s ++ [ev]) s)) →
  wpx U E (send_RREP env i k src h p r) Q s.
Proof.
  intros HJ He Ho Hsrc HK Hr Hk Hc HQ. unfold send_RREP.
  eapply wpx_run; [by apply rt_at_run|].
  destruct (route_interface s k e HJ He Ho) as (i' & a & _ & Ha & _ & Hrun & _).
  eapply wpx_run; [apply Hrun|]. pose proof Hr as (? & ? & _).
  eapply wpx_run; [by apply strcpy_ok|]. eapply wpx_run; [by apply strcpy_ok|].
  apply send_ok_wp; [done| |by apply HQ].
  apply (RREP_frame_ok i'); try done; [by eapply inst_mac|by eapply owner_knows].
Qed.

Lemma relay_ok U dst type h p body (Q : unit → odr → Prop) s :
  J s → knows n s dst → addr_of n ≠ Some dst →
  (∀ a i src, if_of envs n i = Some src → mac_ok a → target_knows envs K a dst →
     frame_ok envs link K n (knows n s)
       (enc_hdr (mk_hdr a src (htons PROTO) (htonl_int type)) ++ body)) →
  (∀ s', J s' → Q tt s') →
  wpx U E (relay env dst type h p body) Q s.
Proof.
  intros HJ Hk Hne Hf HQ. destruct (known_entry s dst HJ Hk Hne) as (k & e & _ & He & Hd & Ho & Hidx).
  unfold relay. eapply wpx_run; [apply rt_find_run|]. rewrite Hidx.
  eapply wpx_run; [by apply rt_at_run|].
  destruct (route_interface s k e HJ He Ho) as (i & a & _ & Ha & _ & Hrun & Hm & Ht).
  eapply wpx_run; [apply Hrun|]. rewrite Hd in Ht.
  apply send_ok_wp; [done| |by intros; apply HQ]. by eapply Hf.
Qed.

Lemma find_local_ok U p (Q : string → odr → Prop) s :
  J s → (∀ path s', J s' → Q path s') → wpx U E (find_local p) Q s.
Proof.
  intros HJ HQ. unfold find_local. eapply wpx_run; [reflexivity|]. cbv zeta.
  destruct (ports_in_use s !! _) as [pe|].
  - eapply wpx_run; [reflexivity|]. apply HQ. by apply (node_ok_ext s).
  - apply HQ. done.
Qed.

Lemma claims_next m j i addr hops :
  link m j n i → claims link m addr hops → claims link n addr (htonl_int (ntohl hops + 1)).
Proof.
  intros Hl (k & L & Ha & Hw & Hh). exists k, (L + 1). split_and!; [done| |].
  - eapply walk_link; [by exists i, j|done].
  - by rewrite ntohl_htonl_int, Hh, u32_add_l.
Qed.

Lemma handle_RREQ_ok U i m j j' header r (Q : unit → odr → Prop) s :
  J s → link m j n i → if_of envs m j' = Some (h_src_mac header) → RREQ_ok r →
  K m (q_src_addr r) → claims link m (q_src_addr r) (q_hop_cnt r) →
  (∀ s', J s' → Q tt s') →
  wpx U E (handle_RREQ env i header r) Q s.
Proof.
  intros HJ Hl Hsrc Hr Hk Hc HQ. unfold handle_RREQ. rewrite wpx_bind.
  eapply (update_route_ok U i m j j'); try done.
  intros k eff s1 e HJ1 Ha He Hd Ho Hks _ _. clear HJ s. rename s1 into s, HJ1 into HJ.
  destruct my_addr_is as (me & Hme & Hmeok & Hrun). eapply wpx_run; [apply Hrun|].
  pose proof Hr as (Hq1 & Hq2 & Hq3 & Hq4 & Hq5 & Hq6 & Hq7).
  assert (Hck : ∀ x, claims link n (q_src_addr r) (q_hop_cnt (bump_hops r x)))
    by (intros x; by eapply claims_next).
  assert (Hbok : ∀ x, int_ok x → RREQ_ok (bump_hops r x)).
  { intros x Hx. split_and!; try done; try apply Hq1; try apply Hq2; apply htonl_int_range. }
  destruct (streq (q_dst_addr r) me) eqn:Hdst.
  { (* destination *)
    apply streq_eq in Hdst. unfold RREQ_at_destination.
    eapply wpx_run; [by apply rt_at_run|]. eapply (wpx_seq _ _ (λ _ s', J s' ∧ routing_table s' = routing_table s)).
    - apply wpx_when. split; [intros _|done].
      eapply send_RREP_ok; try done; simpl.
      + split_and!; try done; try apply Hq1; try apply Hq2; apply htonl_int_range.
      + rewrite Hdst. by left.
      + exists (Z.to_nat (n - 1)), 0. rewrite Hdst. split_and!; [done| |by rewrite ntohl_htonl_int].
        replace (Z.of_nat (Z.to_nat (n - 1)) + 1) with n by lia. constructor.
    - intros _ s1 [HJ1 Hrt1]. eapply record_bid_ok; [done|by rewrite Hrt1|].
      intros s2 e2 HJ2 _ _ _ _. by apply HQ. }
  eapply wpx_run; [reflexivity|]. cbv zeta. destruct (routing_table s !! first_index _ _) as [ce|] eqn:Hce.
  - (* a route is known *)
    set (P := λ e0 : routing_entry, _) in Hce. assert (Hlt := lookup_lt_Some _ _ _ Hce).
    destruct (first_index_lookup P _ Hlt) as (ce' & Hce' & [Hcd%streq_eq Hco]%andb_true_iff).
    simplify_eq. apply andb_true_iff in Hco as [Hco%negb_true_iff%Z.eqb_neq _].
    destruct (nok_routes _ _ _ _ _ _ HJ _ _ Hce Hco) as (_ & _ & _ & _ & Lc & _ & _ & _ & _ & Hwc & Hhc).
    unfold RREQ_with_route. eapply wpx_run; [by apply rt_at_run|].
    eapply (wpx_seq _ _ (λ _ s', J s' ∧ routing_table s' = routing_table s)).
    { apply wpx_when. split; [intros _|done]. eapply send_RREP_ok; try done; simpl.
      - split_and!; try done; try apply Hq1; try apply Hq2; apply htonl_int_range.
      - right. exists ce. split_and!; try done. by eapply list_elem_of_lookup_2.
      - eexists _, Lc. split_and!; [|exact Hwc|by rewrite ntohl_htonl_int, Hhc, u32_s32].
        by rewrite <- (nok_addrs _ _ _ _ _ _ HJ), list_lookup_fmap, Hce, <- Hcd.
      }
    intros _ s1 [HJ1 Hrt1]. rewrite wpx_bind. eapply record_bid_ok; [done|by rewrite Hrt1|].
    intros s2 e2 HJ2 _ _ _ Hmono. apply wpx_when. split; [intros _|intros; by apply HQ].
    unfold flood_except. rewrite <- (Nat.sub_0_r (length _)).
    eapply (flood_ok _ 0 0 (bump_hops r (htonl_int 1))); try done.
    + apply Hbok, htonl_int_range.
    + apply Hmono. unfold knows in *. by rewrite Hrt1.
    + intros k'. destruct (k' =? i)%nat; auto.
    + intros s3 HJ3 _. by apply HQ.
  - (* no route *)
    unfold RREQ_without_route. eapply wpx_run; [by apply rt_at_run|].
    eapply (wpx_seq _ _ (λ _ s', J s' ∧ routing_table s' = routing_table s)).
    { apply wpx_when. split; [intros _|done]. unfold flood_except.
      rewrite <- (Nat.sub_0_r (length _)).
      eapply (flood_ok _ ARPHRD_ETHER PACKET_BROADCAST (bump_hops r (q_RREP_sent r))); try done.
      - by apply Hbok.
      - intros k'. destruct (k' =? i)%nat; auto. }
    intros _ s1 [HJ1 Hrt1]. eapply record_bid_ok; [done|by rewrite Hrt1|].
    intros s2 e2 HJ2 _ _ _ _. by apply HQ.
Qed.

Lemma handle_RREP_ok U i m j j' header r (Q : unit → odr → Prop) s :
  J s → link m j n i → if_of envs m j' = Some (h_src_mac header) → RREP_ok r →
  K m (p_src_addr r) → claims link m (p_src_addr r) (p_hop_cnt r) →
  (addr_of n ≠ Some (p_dst_addr r) → knows n s (p_dst_addr r)) →
  (∀ x, K n x → knows n s0 x) → K n (p_dst_addr r) →
  (∀ s', J s' → Q tt s') →
  wpx U E (handle_RREP env i header r) Q s.
Proof.
  intros HJ Hl Hsrc Hr Hk Hc _ HK0 Hkd HQ. unfold handle_RREP. rewrite wpx_bind.
  eapply (update_route_ok U i m j j'); try done.
  intros k eff s1 e HJ1 Ha He Hd Ho Hks _ _. clear HJ s. rename s1 into s, HJ1 into HJ.
  destruct my_addr_is as (me & Hme & Hmeok & Hrun). eapply wpx_run; [apply Hrun|].
  destruct (streq (p_dst_addr r) me) eqn:Hdst.
  - rewrite wpx_bind. apply find_local_ok; [done|]. intros path s1 HJ1.
    apply send_ok_wp; [done|done|]. by intros; apply HQ.
  - apply streq_neq in Hdst. eapply relay_ok; try done.
    + apply (nok_mono _ _ _ _ _ _ HJ). by apply HK0.
    + intros [=]%(eq_trans (eq_sym Hme)). done.
    + intros a i' src Hi Hm Ht. eapply RREP_frame_ok; try done; simpl.
      * destruct Hr as (? & ? & ? & ? & ?). split_and!; try done; try apply H; try apply H0; apply htonl_int_range.
      * by eapply claims_next.
Qed.

Lemma handle_payload_ok U l (Q : unit → odr → Prop) s :
  J s → payload_ok l → is_Some (dec_str (l_message l)) →
  (∀ x, K n x → knows n s0 x) → K n (l_dst_addr l) →
  (∀ s', J s' → Q tt s') →
  wpx U E (handle_payload env l) Q s.
Proof.
  intros HJ Hl [msg Hmsg] HK0 Hkd HQ. unfold handle_payload.
  destruct my_addr_is as (me & Hme & Hmeok & Hrun). eapply wpx_run; [apply Hrun|].
  destruct (streq (l_dst_addr l) me) eqn:Hdst.
  - apply streq_eq in Hdst. rewrite wpx_bind, wpx_of_opt.
    rewrite Hmsg. rewrite wpx_bind. apply find_local_ok; [done|]. intros path s1 HJ1.
    apply send_ok_wp; [done|done|]. by intros; apply HQ.
  - apply streq_neq in Hdst. eapply relay_ok; try done.
    + apply (nok_mono _ _ _ _ _ _ HJ). by apply HK0.
    + intros [=]%(eq_trans (eq_sym Hme)). done.
    + intros a i' src Hi Hm Ht. eapply payload_frame_ok; by eauto.
Qed.

(** * The local side *)

Abbreviation wpl := (wpx (λ _, True) E).

Lemma node_ok_dst s x : J s → addr_ok x → J (set_dst_addr x s).
Proof. intros [H1 H2 H3 H4 H5 H6] Hx. by split. Qed.

Lemma node_ok_msg s x : J s → no_nul x = true → J (set_message x s).
Proof. intros [H1 H2 H3 H4 H5 H6] Hx. by split. Qed.

Lemma strcpy_wp cap w (Q : string → odr → Prop) s :
  ((String.length w < cap)%nat → Q w s) → wpl (strcpy cap w) Q s.
Proof. intros HQ. unfold strcpy. destruct (Nat.ltb_spec (String.length w) cap); [by apply HQ|done]. Qed.

Lemma int_op_wp x (Q : Z → odr → Prop) s : (int_ok x → Q x s) → wpl (int_op x) Q s.
Proof.
  intros HQ. unfold int_op, is_int. destruct (Z.leb_spec INT_MIN x), (Z.leb_spec x INT_MAX); try done.
  by apply HQ.
Qed.

Lemma scan_request_ok msg (Q : unit → odr → Prop) s :
  J s → no_nul msg = true → (∀ s', J s' → Q tt s') → wpl (scan_request msg) Q s.
Proof.
  intros HJ Hm HQ. unfold scan_request.
  destruct (scan_s msg) as [[w r1]|] eqn:E1; [|by apply HQ].
  destruct (scan_s_no_nul _ _ _ Hm E1) as [Hw Hr1].
  rewrite wpx_bind. apply strcpy_wp. intros Hlen. eapply wpx_run; [reflexivity|].
  assert (HJ1 : J (set_dst_addr w s)) by by apply node_ok_dst.
  destruct (scan_d r1) as [[p r2]|] eqn:E2; [|by apply HQ].
  assert (Hr2 := scan_d_no_nul _ _ _ Hr1 E2).
  rewrite wpx_bind. apply int_op_wp. intros _. eapply wpx_run; [reflexivity|].
  set (s2 := set_dst_port p _). assert (HJ2 : J s2) by by apply (node_ok_ext (set_dst_addr w s)).
  destruct (scan_s r2) as [[m r3]|] eqn:E3; [|by apply HQ].
  destruct (scan_s_no_nul _ _ _ Hr2 E3) as [Hmm Hr3].
  rewrite wpx_bind. apply strcpy_wp. intros _. eapply wpx_run; [reflexivity|].
  assert (HJ3 : J (set_message m s2)) by by apply node_ok_msg.
  destruct (scan_d r3) as [[f r4]|] eqn:E4; [|by apply HQ].
  rewrite wpx_bind. apply int_op_wp. intros _. apply HQ. by apply (node_ok_ext (set_message m s2)).
Qed.

Lemma if_mac_wp i (Q : list Z → odr → Prop) s :
  (∀ j a, i = Z.of_nat j → if_of envs n j = Some a → Q a s) → wpl (if_mac env i) Q s.
Proof.
  intros HQ. unfold if_mac, rd. rewrite wpx_of_opt. destruct (arr_at (if_addr env) i) as [a|] eqn:Ha; [|done].
  apply arr_at_Some in Ha as [Hi Ha]. apply (HQ (Z.to_nat i)); [lia|done].
Qed.

(** The frame of [local_reply] and [send_request], built from the entry of the
    address in [dst_addr]. *)
Lemma local_payload_ok s k e sp dp ln msg i src me :
  J s → routing_table s !! k = Some e → dst_addr e = o_dst_addr s →
  outgoing_if e - 3 = Z.of_nat i → if_of envs n i = Some src → addr_ok me →
  (String.length msg < MESSAGE_LEN)%nat → no_nul msg = true →
  frame_ok envs link K n (knows n s)
    (payload_frame e src (mk_payload me (o_dst_addr s) (htonl_int sp) (htonl_int dp) (htonl_int 0)
      (htonl_int ln) (enc_str MESSAGE_LEN msg))).
Proof.
  intros HJ He Hd Hi Hsrc Hme Hlen Hnul.
  destruct (route_interface s k e HJ He) as (i' & a & _ & _ & _ & _ & Hm & Ht); [lia|].
  apply (payload_frame_ok i); simpl; try done.
  - split_and!; try done; try apply Hme; try apply htonl_int_range; try apply (nok_dst _ _ _ _ _ _ HJ).
    apply length_enc_str. lia.
  - exists msg. rewrite <- (app_nil_r (enc_str _ _)). by apply dec_enc_str.
  - by rewrite <- Hd.
Qed.

Lemma found_entry s a e :
  routing_table s !! first_index (λ e, streq (dst_addr e) a) (routing_table s) = Some e →
  dst_addr e = a.
Proof.
  intros He. destruct (first_index_lookup _ _ (lookup_lt_Some _ _ _ He)) as (e' & He' & Hd%streq_eq).
  by simplify_eq.
Qed.

Lemma rt_at_wp k (Q : routing_entry → odr → Prop) s :
  (∀ e, routing_table s !! k = Some e → Q e s) → wpl (rt_at k) Q s.
Proof.
  intros HQ. unfold rt_at. eapply wpx_run; [reflexivity|]. unfold rd.
  rewrite wpx_of_opt, arr_at_nat. destruct (routing_table s !! k) eqn:He; [by apply HQ|done].
Qed.

Lemma local_reply_ok (Q : unit → odr → Prop) s :
  J s → (∀ s', J s' → Q tt s') → wpl (local_reply env) Q s.
Proof.
  intros HJ HQ. unfold local_reply. eapply wpx_run; [reflexivity|].
  eapply wpx_run; [apply rt_find_run|]. rewrite wpx_bind. apply rt_at_wp. intros e He.
  rewrite wpx_bind. apply if_mac_wp. intros i src Hi Hsrc.
  destruct my_addr_is as (me & _ & Hmeok & Hrun). eapply wpx_run; [apply Hrun|].
  eapply wpx_run; [by apply strcpy_ok|]. eapply wpx_run; [apply strcpy_ok, (nok_dst _ _ _ _ _ _ HJ)|].
  rewrite wpx_bind. apply strcpy_wp. intros Hlen.
  apply send_ok_wp; [done| |by intros; apply HQ].
  eapply local_payload_ok; try done; [by eapply found_entry|apply (nok_msg _ _ _ _ _ _ HJ)].
Qed.

Lemma send_request_ok index number e (Q : unit → odr → Prop) s :
  J s → routing_table s !! number = Some e → dst_addr e = o_dst_addr s →
  (∀ s', J s' → Q tt s') → wpl (send_request env index number) Q s.
Proof.
  intros HJ He Hd HQ. unfold send_request. eapply wpx_run; [reflexivity|].
  eapply wpx_run; [by apply rt_at_run|].
  rewrite wpx_bind. apply if_mac_wp. intros i src Hi Hsrc.
  destruct my_addr_is as (me & _ & Hmeok & Hrun). eapply wpx_run; [apply Hrun|].
  eapply wpx_run; [by apply strcpy_ok|]. eapply wpx_run; [apply strcpy_ok, (nok_dst _ _ _ _ _ _ HJ)|].
  unfold rd at 1. rewrite wpx_bind, wpx_of_opt.
  destruct (arr_at (port_table s) (Z.of_nat index)) as [pe|]; [|done].
  rewrite wpx_bind. apply strcpy_wp. intros Hlen.
  apply send_ok_wp; [done| |by intros; apply HQ].
  eapply local_payload_ok; try done. apply (nok_msg _ _ _ _ _ _ HJ).
Qed.

Lemma discover_ok index (Q : unit → odr → Prop) s :
  J s → (∀ s', J s' → Q tt s') → wpl (discover env index) Q s.
Proof.
  intros HJ HQ. unfold discover. eapply wpx_run; [reflexivity|].
  destruct my_addr_is as (me & Hme & Hmeok & Hrun). eapply wpx_run; [apply Hrun|].
  eapply wpx_run; [by apply strcpy_ok|]. eapply wpx_run; [apply strcpy_ok, (nok_dst _ _ _ _ _ _ HJ)|].
  unfold rd at 1. rewrite wpx_bind, wpx_of_opt.
  destruct (arr_at (port_table s) (Z.of_nat index)) as [pe|]; [|done].
  rewrite wpx_bind. apply int_op_wp. intros _. eapply wpx_run; [reflexivity|]. cbv zeta.
  set (r := mk_RREQ _ _ _ _ _ _ _). rewrite <- (Nat.sub_0_r (length _)).
  apply (flood_ok _ 0 0 r); try done.
  - by apply (node_ok_ext s).
  - split_and!; simpl; try done; try apply Hmeok; try apply (nok_dst _ _ _ _ _ _ HJ); apply htonl_int_range.
  - exists (Z.to_nat (n - 1)), 0. split_and!; [done| |apply ntohl_htonl_int].
    replace (Z.of_nat (Z.to_nat (n - 1)) + 1) with n by lia. constructor.
  - by left.
  - auto.
  - intros s' HJ' _. by apply HQ.
Qed.

Lemma add_client_ok (Q : unit → odr → Prop) s :
  J s → (∀ s', J s' → routing_table s' = routing_table s → o_dst_addr s' = o_dst_addr s → Q tt s') →
  wpl add_client Q s.
Proof.
  intros HJ HQ. unfold add_client. eapply wpx_run; [reflexivity|].
  rewrite wpx_bind. apply int_op_wp. intros _. rewrite wpx_bind. apply int_op_wp. intros _.
  rewrite wpx_bind. apply strcpy_wp. intros _. rewrite wpx_bind, wpx_of_opt.
  destruct (arr_set _ _ _) as [t|]; [|done]. apply HQ; [|done..]. by apply (node_ok_ext s).
Qed.

Lemma local_request_ok index (Q : unit → odr → Prop) s :
  J s → (∀ s', J s' → Q tt s') → wpl (local_request env index) Q s.
Proof.
  intros HJ HQ. unfold local_request. eapply wpx_run; [reflexivity|].
  eapply (wpx_seq _ _ (λ _ s', J s' ∧ routing_table s' = routing_table s ∧ o_dst_addr s' = o_dst_addr s)).
  { apply wpx_when. split; [intros _|done]. by apply add_client_ok. }
  intros _ s1 (HJ1 & Hrt & Hd). eapply wpx_run; [apply rt_find_run|].
  eapply wpx_run; [reflexivity|]. cbv zeta.
  destruct (routing_table s1 !! first_index _ _) as [e|] eqn:He; [|by apply discover_ok].
  apply wpx_if. split; intros _; [|by apply discover_ok].
  eapply send_request_ok; try done. rewrite Hd. by eapply found_entry.
Qed.

Lemma handle_local_ok dgram (Q : unit → odr → Prop) s :
  J s → (∀ s', J s' → Q tt s') → wpl (handle_local env dgram) Q s.
Proof.
  intros HJ HQ. destruct dgram as [[data path]|]; [|done]. unfold handle_local.
  eapply wpx_run; [reflexivity|]. eapply wpx_run; [reflexivity|]. eapply wpx_run; [reflexivity|].
  set (s1 := recv_addr path _). assert (HJ1 : J s1) by by apply (node_ok_ext s).
  rewrite wpx_bind, wpx_of_opt. destruct (until_nul (local_buf s1)) as [seen|]; [|done].
  rewrite wpx_bind, wpx_of_opt. destruct (until_nul (recvmsg s1)) as [msg|] eqn:Hmsg; [|done].
  rewrite wpx_bind. apply scan_request_ok; [done|by eapply until_nul_no_nul|].
  intros s2 HJ2. cbv zeta. apply wpx_if. split; intros _; [by apply local_reply_ok|by apply local_request_ok].
Qed.
End handlers_ok.

(** * Every step keeps the invariant *)

Section steps.
Context (envs : Z → odr_env) (link : Z → nat → Z → nat → Prop).
Context (inst : installed envs link).

Definition knowledge (w : net) : Z → string → Prop := λ m, knows m (st w m).

Lemma knows_set_out n evs s x : knows n (set_out evs s) x ↔ knows n s x.
Proof. done. Qed.

Lemma start_ok w n :
  net_ok envs link w → 1 ≤ n ≤ 10 →
  node_ok envs link (knowledge w) n (set_out [] (st w n)) (set_out [] (st w n)).
Proof.
  intros [Hnodes _] Hn. destruct (Hnodes n Hn) as (H1 & H2 & H3 & H4). by split.
Qed.

Lemma packets_of_ok K n Kn evs :
  Forall (event_ok envs link K n Kn) evs →
  Forall (λ p, tx_node p = n ∧ frame_ok envs link K n Kn (pk_frame p)) (packets_of n evs).
Proof.
  induction 1 as [|[j f to|d p] evs He Hevs IH]; simpl; [constructor| |done].
  by constructor.
Qed.

(** The network after a handler of [n] whose every exit satisfies the invariant. *)
Lemma after_ok U w n (m : M odr unit) w' :
  net_ok envs link w → 1 ≤ n ≤ 10 →
  wpx U (λ _ s, node_ok envs link (knowledge w) n (set_out [] (st w n)) s) m
    (λ _ s, node_ok envs link (knowledge w) n (set_out [] (st w n)) s) (set_out [] (st w n)) →
  after w n (m (set_out [] (st w n))) = Some w' → net_ok envs link w'.
Proof.
  intros [Hnodes Hair] Hn Hwp Haf.
  assert (∃ s', node_ok envs link (knowledge w) n (set_out [] (st w n)) s' ∧
                st w' n = s' ∧ (∀ n', n' ≠ n → st w' n' = st w n') ∧
                air w' = air w ++ packets_of n (out s')) as (s' & HJ & Hst & Hsto & Hair').
  { unfold wpx in Hwp. destruct (m (set_out [] (st w n))) as [a s'|c s'|u]; simplify_eq/=; exists s';
      (split_and!; [done|unfold fupd; by rewrite Z.eqb_refl| |done]);
      intros n' Hne; unfold fupd; by destruct (Z.eqb_spec n' n). }
  assert (HK : ∀ m x, knowledge w m x → knowledge w' m x).
  { intros m' x. unfold knowledge. destruct (decide (m' = n)) as [->|Hne]; [|by rewrite Hsto].
    rewrite Hst. apply (nok_mono _ _ _ _ _ _ HJ). }
  split.
  - intros n' Hn'. destruct (decide (n' = n)) as [->|Hne].
    + rewrite Hst. split_and!; [apply (nok_addrs _ _ _ _ _ _ HJ)| |apply (nok_dst _ _ _ _ _ _ HJ)|apply (nok_msg _ _ _ _ _ _ HJ)].
      intros k e He. eapply route_ok_mono; [exact HK|]. by apply (nok_routes _ _ _ _ _ _ HJ).
    + rewrite (Hsto n' Hne). destruct (Hnodes n' Hn') as (H1 & H2 & H3 & H4). split_and!; try done.
      intros k e He. eapply route_ok_mono; [exact HK|]. by apply H2.
  - rewrite Hair'. apply Forall_app. split.
    + eapply Forall_impl; [exact Hair|]. intros p [Hp Hf]. split; [done|].
      eapply frame_ok_mono; [exact HK|apply (HK (tx_node p))|exact Hf].
    + eapply Forall_impl; [apply packets_of_ok, (nok_out _ _ _ _ _ _ HJ)|].
      intros p [Hp Hf]. rewrite Hp. split; [done|]. eapply frame_ok_mono; [exact HK| |exact Hf].
      intros x Hx. by rewrite Hst.
Qed.

(** A received frame is handled with no undefined behaviour. *)
Lemma frame_wp w n i p junk :
  net_ok envs link w → 1 ≤ n ≤ 10 → p ∈ air w → received_by envs link n i p →
  wp (λ _ s, node_ok envs link (knowledge w) n (set_out [] (st w n)) s)
    (handle_frame (envs n) i (Some (pk_frame p ++ junk)))
    (λ _ s, node_ok envs link (knowledge w) n (set_out [] (st w n)) s) (set_out [] (st w n)).
Proof.
  intros Hok Hn Hp [Hl Hdst]. pose proof (start_ok w n Hok Hn) as HJ.
  destruct Hok as [_ Hair]. rewrite Forall_forall in Hair.
  destruct (Hair p Hp) as (_ & h & body & Hf & Hh & (j' & Hsrc) & Hcase). rewrite Hf in Hdst |- *.
  assert (Hto : take 6 (enc_hdr h ++ body) = h_dst_mac h).
  { unfold enc_hdr. rewrite <- !app_assoc. apply take_app_length'. by destruct Hh as [[-> _] _]. }
  rewrite Hto in Hdst.
  assert (HKn : ∀ x, target_knows envs (knowledge w) (h_dst_mac h) x → knowledge w n x).
  { intros x [(t & jt & Ht) Hall]. destruct Hdst as [Hb|Hme]; [|by eapply Hall].
    by destruct (inst_mac _ _ inst _ _ _ Ht) as [_ ?]. }
  unfold handle_frame. cbv zeta. rewrite <- app_assoc, dec_enc_hdr by done.
  rewrite drop_app_length' by by rewrite length_enc_hdr.
  destruct Hcase as [(r & -> & -> & Hr & Hk & Hc)|[(r & -> & -> & Hr & Hk & Hc & Ht)|(l & -> & -> & Hlo & Hm & Ht)]];
    cbn [Z.eqb].
  - rewrite dec_enc_RREQ by done. eapply wpx_run; [reflexivity|].
    by eapply (handle_RREQ_ok envs link inst n Hn (knowledge w) _ _ i (tx_node p) (tx_if p) j').
  - rewrite dec_enc_RREP by done. eapply wpx_run; [reflexivity|].
    eapply (handle_RREP_ok envs link inst n Hn (knowledge w) _ _ i (tx_node p) (tx_if p) j'); try done.
    + intros _. by apply HKn.
    + by apply HKn.
  - rewrite dec_enc_payload by done. eapply wpx_run; [reflexivity|].
    eapply (handle_payload_ok envs link inst n Hn (knowledge w)); try done. by apply HKn.
Qed.

Lemma step_ok w w' : net_ok envs link w → step envs link w w' → net_ok envs link w'.
Proof.
  intros Hok Hstep. destruct Hstep as [n i p junk w' Hn _ Hp Hrec Haf|n data path w' Hn _ Haf].
  - eapply after_ok; [done|exact Hn| |exact Haf]. by apply frame_wp.
  - eapply after_ok; [done|exact Hn| |exact Haf].
    apply handle_local_ok; [done|done|by apply start_ok|done].
Qed.

Lemma zip_entries_addrs addrs junk :
  length junk = length addrs →
  dst_addr <$> zip_entries addrs junk = addrs ∧ Forall (λ e, outgoing_if e = 0) (zip_entries addrs junk).
Proof.
  revert junk. induction addrs as [|a addrs IH]; intros [|j junk] Hlen; simplify_eq/=; [done|].
  destruct (IH junk ltac:(lia)) as [-> ?]. split; [done|]. by constructor.
Qed.

Lemma initial_ok w : initial w → net_ok envs link w.
Proof.
  intros [Hair Hst]. split; [|by rewrite Hair]. intros n _.
  destruct (Hst n) as (jr & jp & jd & jo & jm & jf & jb & Hjr & _ & Hjd & Hjm & _ & ->). simpl.
  destruct (zip_entries_addrs vm_addr jr Hjr) as [Ha Ho]. split_and!; [done| |done..].
  intros k e He Hout. rewrite Forall_forall in Ho. by apply list_elem_of_lookup_2, Ho in He.
Qed.

Lemma reachable_ok w : reachable envs link w → net_ok envs link w.
Proof.
  intros (w0 & Hw0 & Hr). eapply reach_invariant; [by apply initial_ok| |exact Hr].
  intros x y. apply step_ok.
Qed.
End steps.
