(* ===== verification/OdrProps.v ===== *)
(** What the ODR service guarantees (Assignment 3/Code/ODR.c): routes on any network,
    a concrete network of three nodes, and the behaviour of the single handlers. *)

From S2P Require Export OdrNet.

(** * Scripts of a network with listed links *)

Module Script.
Section script.
Context (envs : Z → odr_env) (links : list (Z * nat * (Z * nat))).

Definition link (m : Z) (j : nat) (n : Z) (i : nat) : Prop := (m, j, (n, i)) ∈ links.
#[local] Instance link_dec m j n i : Decision (link m j n i).
Proof. unfold link. apply _. Defined.

(** Executable steps. *)
Inductive action := Frame (n : Z) (i idx : nat) | Local (n : Z) (data path : string).

Definition act (w : net) (a : action) : option net :=
  match a with
  | Frame n i idx =>
      p ← air w !! idx;
      if (1 <=? n) && (n <=? 10) && alive w n
         && bool_decide (link (tx_node p) (tx_if p) n i)
         && (bool_decide (take 6 (pk_frame p) = bcast_mac)
             || bool_decide (if_of envs n i = Some (take 6 (pk_frame p))))
      then after w n (run_frame envs w n i (pk_frame p ++ [])) else None
  | Local n data path =>
      if (1 <=? n) && (n <=? 10) && alive w n then after w n (run_local envs w n data path) else None
  end.

Fixpoint acts (w : net) (l : list action) : option net :=
  match l with [] => Some w | a :: l' => w' ← act w a; acts w' l' end.

Lemma act_step w a w' : act w a = Some w' → step envs link w w'.
Proof.
  destruct a as [n i idx|n data path]; cbn [act].
  - destruct (air w !! idx) as [p|] eqn:Hp; [|done]. cbn [mbind option_bind].
    destruct (_ && _) eqn:Hc; [|done]. intros Haf.
    repeat (apply andb_true_iff in Hc as [Hc ?]).
    eapply (step_frame _ _ _ n i p []); try done; [lia|by eapply list_elem_of_lookup_2|].
    split; [exact (bool_decide_eq_true_1 _ H0)|].
    destruct (orb_prop _ _ H) as [Hb|Hb]; apply bool_decide_eq_true in Hb; auto.
  - destruct (_ && _) eqn:Hc; [|done]. intros Haf.
    repeat (apply andb_true_iff in Hc as [Hc ?]). eapply (step_local _ _ _ n); [lia|done|exact Haf].
Qed.

Lemma acts_reach w0 w l w' :
  reach (step envs link) w0 w → acts w l = Some w' → reach (step envs link) w0 w'.
Proof.
  revert w. induction l as [|a l IH]; intros w Hr; simpl; [by intros [= <-]|].
  destruct (act w a) as [w1|] eqn:Ha; [|done]. simpl. apply IH.
  eapply reach_step; [exact Hr|]. by eapply act_step.
Qed.

Definition zero_entry : routing_entry := mk_route EmptyString zero_mac 0 0 0.
Definition zero_buf : string := String.concat EmptyString (repeat (String Ascii.zero EmptyString) 64).
Definition start : net :=
  mk_net (λ _, odr_init (repeat zero_entry 10) (repeat (mk_port 0 EmptyString) 10) EmptyString 0 EmptyString 0 zero_buf) (λ _, true) [].

Lemma start_initial : initial start.
Proof. split; [done|]. intros n.
  exists (repeat zero_entry 10), (repeat (mk_port 0 EmptyString) 10), EmptyString, 0, EmptyString, 0, zero_buf.
  split_and!; try done. split; [unfold ADDR_LEN; simpl; lia|done].
Qed.

Definition run (l : list action) : net := default start (acts start l).

Lemma acts_app w l1 l2 : acts w (l1 ++ l2) = acts w l1 ≫= λ w', acts w' l2.
Proof.
  revert w. induction l1 as [|a l1 IH]; intros w; [done|]. simpl. destruct (act w a); [apply IH|done].
Qed.

(** A script that runs to its end. *)
Definition runs (l : list action) : bool := match acts start l with Some _ => true | None => false end.

Lemma runs_run l : runs l = true → acts start l = Some (run l).
Proof. unfold runs, run. by destruct (acts start l). Qed.

Lemma runs_then l1 l2 :
  runs l1 = true → runs (l1 ++ l2) = true → acts (run l1) l2 = Some (run (l1 ++ l2)).
Proof. intros H1%runs_run H2%runs_run. rewrite acts_app, H1 in H2. done. Qed.
End script.
End Script.

(** * A concrete network: VM1 - VM2 - VM3 in a line *)

Module Line.
Export Script.
Definition if_count (n : Z) : nat :=
  if n =? 2 then 2 else if (1 <=? n) && (n <=? 10) then 1 else 0.
Definition mac (n : Z) (i : nat) : list Z := [2; 0; 0; 0; n; Z.of_nat i].
Definition macs (n : Z) : list (list Z) := map (mac n) (seq 0 (if_count n)).
Definition envs (n : Z) : odr_env := mk_env n (macs n) (λ _ _, true).

Definition links : list (Z * nat * (Z * nat)) :=
  [(1, 0%nat, (2, 0%nat)); (2, 0%nat, (1, 0%nat)); (2, 1%nat, (3, 0%nat)); (3, 0%nat, (2, 1%nat))].
Abbreviation link := (Script.link links).

Lemma if_of_mac n i a :
  if_of envs n i = Some a → a = mac n i ∧ 1 ≤ n ≤ 10 ∧ (i < 2)%nat.
Proof.
  unfold if_of. simpl. unfold macs. intros H.
  apply list_lookup_fmap_Some in H as (k & -> & Hk).
  apply lookup_seq in Hk as [-> Hlt]. simpl. split; [done|]. unfold if_count in Hlt.
  destruct (Z.eqb_spec n 2); [lia|].
  destruct (Z.leb_spec 1 n), (Z.leb_spec n 10); simpl in Hlt; lia.
Qed.

Lemma line_installed : installed envs link.
Proof.
  split; [done|..].
  - intros n i a (-> & Hn & Hi)%if_of_mac. split; [|intros [=]]. split; [done|].
    unfold mac, is_byte. rewrite !Forall_cons. split_and!; (lia || constructor).
  - intros n i m j a (-> & _)%if_of_mac (Heq & _)%if_of_mac. unfold mac in Heq. congruence.
  - intros m j n i Hl. unfold Script.link, links in Hl. rewrite !elem_of_cons in Hl.
    destruct Hl as [Hl|[Hl|[Hl|[Hl|Hl%not_elem_of_nil]]]]; simplify_eq; try done;
      (split; [lia|split; by eexists]).
Qed.

Abbreviation act := (Script.act envs links).
Abbreviation acts := (Script.acts envs links).
Abbreviation act_step := (Script.act_step envs links).
Abbreviation acts_reach := (Script.acts_reach envs links).
Abbreviation runs_run := (Script.runs_run envs links).
Abbreviation runs_then := (Script.runs_then envs links).

(** Client on VM1 asks for the server on VM3; RREQ and RREP cross VM2. *)
Definition discovery : list action :=
  [Local 1 "130.245.156.23 5000 HI 0" "tempA";
   Frame 2 0 0; Frame 3 0 1; Frame 2 1 2; Frame 1 0 3].
(** The client sends again, now along the route. *)
Definition request : list action :=
  [Local 1 "130.245.156.23 5000 HI 0" "tempA"; Frame 2 0 4; Frame 3 0 5].
Abbreviation run := (Script.run envs links).
End Line.

(** * Networks *)

Section network_properties.
Context (envs : Z → odr_env) (link : Z → nat → Z → nat → Prop).

(** C4: Routes are sound on every network.  However frames are lost, duplicated and
    reordered, an active entry of node [n]'s table for node [k+1] names an interface
    that hears some node [m], has a hardware address of [m] as next hop, [m] is the
    destination or has a route to it itself, and the hop count is the length of a
    walk from [n] to the destination (as an [int]). *)
Theorem routes_sound (inst : installed envs link) (w : net) (n : Z) (k : nat) (e : routing_entry)
    (Hw : reachable envs link w) (Hn : 1 ≤ n ≤ 10)
    (He : routing_table (st w n) !! k = Some e) (Hout : outgoing_if e ≠ 0) :
  vm_addr !! k = Some (dst_addr e) ∧
  ∃ i m j j' L, outgoing_if e = Z.of_nat i + 3 ∧ link m j n i ∧
                if_of envs m j' = Some (next_hop e) ∧ knows m (st w m) (dst_addr e) ∧
                walk link n (Z.of_nat k + 1) L ∧ hop_cnt e = s32 L.
Proof.
  destruct (reachable_ok envs link inst w Hw) as [Hnodes _].
  destruct (Hnodes n Hn) as (Ha & Hr & _). split; [|exact (Hr k e He Hout)].
  by rewrite <- Ha, list_lookup_fmap, He.
Qed.

(** C13: A frame that another node of the network sent never leads the service into
    undefined behaviour, whatever stale bytes follow it in the receive buffer. *)
Theorem frames_never_undefined (inst : installed envs link) (w : net) (n : Z) (i : nat)
    (p : packet) (junk : list Z) (u : ub)
    (Hw : reachable envs link w) (Hn : 1 ≤ n ≤ 10) (Hp : p ∈ air w)
    (Hrec : received_by envs link n i p) :
  run_frame envs w n i (pk_frame p ++ junk) ≠ Undefined u.
Proof.
  pose proof (reachable_ok envs link inst w Hw) as Hok.
  exact (wp_not_undefined _ _ _ _ u (frame_wp envs link inst w n i p junk Hok Hn Hp Hrec)).
Qed.
End network_properties.

Section line_witnesses.
Import Line.

Definition w_disc : net := run discovery.

Lemma w_disc_reachable : reachable envs link w_disc.
Proof.
  exists start. split; [apply start_initial|].
  apply (acts_reach start start discovery); [constructor|]. vm_compute. reflexivity.
Qed.
End line_witnesses.

Section line_results.
Import Line.

(** Route discovery and delivery on the line VM1 - VM2 - VM3.  A client on VM1 asks
    for the server on VM3: after the RREQ went to VM3 and the RREP came back, VM1 has
    a route of 2 hops over VM2, VM3 has one back, and the client was answered; its
    next request is handed to the server on VM3 over VM2. *)
Theorem line_discovery_delivers :
  ∃ w w', acts start discovery = Some w ∧ acts w request = Some w' ∧
    reachable envs link w ∧ reachable envs link w' ∧
    routing_table (st w 1) !! 2%nat = Some (mk_route "130.245.156.23" (mac 2 0) 3 2 0) ∧
    (∃ b, routing_table (st w 3) !! 0%nat = Some (mk_route "130.245.156.21" (mac 2 1) 3 2 b)) ∧
    out (st w 1) = [SendLocal "HI 130.245.156.23 5000" "tempA"] ∧
    ∃ src_port, out (st w' 3) = [SendLocal ("HI 130.245.156.21 " +:+ print_d src_port) "240411"].
Proof.
  assert (Hr : reachable envs link start) by (exists start; split; [apply start_initial|constructor]).
  assert (H1 : acts start discovery = Some (run discovery)) by (apply runs_run; vm_compute; reflexivity).
  assert (H2 : acts (run discovery) request = Some (run (discovery ++ request)))
    by (apply runs_then; vm_compute; reflexivity).
  destruct Hr as (w0 & Hw0 & Hr).
  assert (Hr1 := acts_reach w0 start discovery _ Hr H1). assert (Hr2 := acts_reach w0 _ request _ Hr1 H2).
  exists (run discovery), (run (discovery ++ request)).
  split; [exact H1|]. split; [exact H2|]. split; [exact (ex_intro _ w0 (conj Hw0 Hr1))|].
  split; [exact (ex_intro _ w0 (conj Hw0 Hr2))|]. split; [vm_compute; reflexivity|].
  split; [|split].
  - exists 1. vm_compute. reflexivity.
  - vm_compute. reflexivity.
  - exists (htonl_int 6000). vm_compute. reflexivity.
Qed.

(** The server's reply to the first client, sent after a second client of VM1 asked. *)
Definition second_client : list action :=
  [Local 1 "130.245.156.23 5000 HI 0" "tempB";
   Local 3 "130.245.156.21 1880555520 Wed 0" "240411"; Frame 2 1 7; Frame 1 0 8].

(** Two clients of one node.  The server answers the request of the first client,
    with the port it was told, after a second client asked as well; the reply is
    handed to the second client. *)
Theorem line_reply_to_wrong_client :
  ∃ w w', acts start (discovery ++ request) = Some w ∧ acts w second_client = Some w' ∧
    out (st w 3) = [SendLocal ("HI 130.245.156.21 " +:+ print_d 1880555520) "240411"] ∧
    ports_in_use (st w 1) = [mk_port 5000 "240411"; mk_port 6000 "tempA"] ∧
    ∃ line, out (st w' 1) = [SendLocal line "tempB"].
Proof.
  exists (run (discovery ++ request)), (run ((discovery ++ request) ++ second_client)).
  split; [apply runs_run; vm_compute; reflexivity|]. split; [apply runs_then; vm_compute; reflexivity|].
  split; [vm_compute; reflexivity|]. split; [vm_compute; reflexivity|].
  eexists. vm_compute. reflexivity.
Qed.

Lemma routes_sound_witness :
  ∃ L, walk link 1 3 L ∧ 2 = s32 L.
Proof.
  destruct (routes_sound envs link line_installed w_disc 1 2
              (mk_route "130.245.156.23" (mac 2 0) 3 2 0))
    as (_ & i & m & j & j' & L & _ & _ & _ & _ & Hw & Hh).
  - apply w_disc_reachable.
  - lia.
  - vm_compute. reflexivity.
  - discriminate.
  - exists L. split; [exact Hw|exact Hh].
Defined.

Definition delivered : packet := default (mk_packet 0 0 []) (air w_disc !! 3%nat).

Lemma frames_never_undefined_witness :
  run_frame envs w_disc 1 0 (pk_frame delivered ++ [1; 2; 3]) ≠ Undefined NoTerminator.
Proof.
  apply (frames_never_undefined envs link line_installed w_disc 1 0 delivered [1; 2; 3] NoTerminator).
  - apply w_disc_reachable.
  - lia.
  - apply (list_elem_of_lookup_2 _ 3). vm_compute. reflexivity.
  - split; [unfold link; apply (bool_decide_unpack _); vm_compute; exact I|right; vm_compute; reflexivity].
Defined.
End line_results.
