(* ===== verification/OdrLoop.v ===== *)
(** Freedom from forwarding loops of the ODR service (Assignment 3/Code/ODR.c).

    Without forced discovery the hop count a node has for a destination never rises,
    and the next hop of a route always has a strictly smaller one; so messages that
    follow the routing tables of a network reach their destination in at most as many
    hops as the first entry says.  Hop counts are [int]s that grow by one per hop: the
    statement is for runs of fewer than [2^31 - 1] steps. *)

From S2P Require Export OdrProps.

(** * Distances *)

(** Node [n], in state [s], is [x] or has a route to it of at most [h] hops. *)
Definition within (n : Z) (s : odr) (x : string) (h : Z) : Prop :=
  (addr_of n = Some x ∧ 0 ≤ h) ∨
  ∃ e, e ∈ routing_table s ∧ dst_addr e = x ∧ outgoing_if e ≠ 0 ∧ hop_cnt e ≤ h.

(** A distance to [x] that a frame of a node with the distances [Kn] claims; the
    frame does not force discovery. *)
Definition claimed (Kn : string → Z → Prop) (B : Z) (x : string) (hops disc : Z) : Prop :=
  Kn x (ntohl hops) ∧ ntohl hops ≤ B ∧ ntohl disc ≠ 1.

Definition frame_hops (Kn : string → Z → Prop) (B : Z) (f : list Z) : Prop :=
  ∃ h, hdr_ok h ∧
  ((∃ r, ntohl (h_type h) = 0 ∧ f = enc_hdr h ++ enc_RREQ r ∧ RREQ_ok r ∧
         claimed Kn B (q_src_addr r) (q_hop_cnt r) (q_discovery r)) ∨
   (∃ r, ntohl (h_type h) = 1 ∧ f = enc_hdr h ++ enc_RREP r ∧ RREP_ok r ∧
         claimed Kn B (p_src_addr r) (p_hop_cnt r) (p_discovery r)) ∨
   (ntohl (h_type h) = 2 ∧ ∃ body, f = enc_hdr h ++ body)).

Definition event_hops (Kn : string → Z → Prop) (B : Z) (ev : event) : Prop :=
  match ev with SendFrame _ f _ => frame_hops Kn B f | SendLocal _ _ => True end.

Section one_node.
Context (envs : Z → odr_env).
Context (K : Z → string → Z → Prop). (* the distances the nodes have *)
Context (B : Z).

(** The next hop of a route is nearer to the destination. *)
Definition route_hops (e : routing_entry) : Prop :=
  outgoing_if e ≠ 0 →
  1 ≤ hop_cnt e ≤ B ∧
  ∃ m j, 1 ≤ m ≤ 10 ∧ if_of envs m j = Some (next_hop e) ∧ K m (dst_addr e) (hop_cnt e - 1).

(** The state of node [n] at any point of a handler started in [s0]. *)
Record hops_ok (n : Z) (s0 s : odr) : Prop := {
  hk_addrs : dst_addr <$> routing_table s = vm_addr;
  hk_routes : ∀ e, e ∈ routing_table s → route_hops e;
  hk_mono : ∀ x h, within n s0 x h → within n s x h;
  hk_out : o_flag s ≠ 1 → Forall (event_hops (within n s) B) (out s);
  hk_dst : addr_ok (o_dst_addr s)
}.
End one_node.

(** No node was asked for a forced discovery. *)
Definition unforced (w : net) : Prop := ∀ n, o_flag (st w n) ≠ 1.

Definition net_hops (envs : Z → odr_env) (B : Z) (w : net) : Prop :=
  (∀ n, 1 ≤ n ≤ 10 →
     dst_addr <$> routing_table (st w n) = vm_addr ∧
     (∀ e, e ∈ routing_table (st w n) → route_hops envs (λ m, within m (st w m)) B e) ∧
     addr_ok (o_dst_addr (st w n))) ∧
  Forall (λ p, frame_hops (within (tx_node p) (st w (tx_node p))) B (pk_frame p)) (air w).

(** * Handlers *)

Lemma within_le n s x h h' : within n s x h → h ≤ h' → within n s x h'.
Proof. intros [[? ?]|(e & ? & ? & ? & ?)] Hle; [left; split; [done|lia]|right; exists e; split_and!; done || lia]. Qed.

Lemma frame_hops_mono (Kn Kn' : string → Z → Prop) B B' f :
  (∀ x h, Kn x h → Kn' x h) → B ≤ B' → frame_hops Kn B f → frame_hops Kn' B' f.
Proof.
  intros HK HB (h & Hh & Hc). exists h. split; [done|].
  destruct Hc as [(r & ? & ? & ? & ? & ? & ?)|[(r & ? & ? & ? & ? & ? & ?)|?]];
    [left; exists r|right; left; exists r|by right; right];
    (split_and!; try done; split_and!; [by apply HK|lia|done]).
Qed.

Lemma event_hops_mono (Kn Kn' : string → Z → Prop) B ev :
  (∀ x h, Kn x h → Kn' x h) → event_hops Kn B ev → event_hops Kn' B ev.
Proof. intros HK. destruct ev as [i f to|]; [|done]. by apply frame_hops_mono. Qed.

Section handlers.
Context (envs : Z → odr_env) (link : Z → nat → Z → nat → Prop).
Context (inst : installed envs link).
Context (n : Z) (Hn : 1 ≤ n ≤ 10) (K : Z → string → Z → Prop) (B : Z) (HB : 1 ≤ B < 2 ^ 31) (s0 : odr).
Abbreviation J := (hops_ok envs K B n s0).
Abbreviation E := (λ (_ : Z) s, J s).
Abbreviation env := (envs n).
Abbreviation wpl := (wpx (λ _, True) E).

(** Writes to variables the invariant does not mention. *)
Lemma hops_ok_ext s s' :
  J s → routing_table s' = routing_table s → out s' = out s →
  o_dst_addr s' = o_dst_addr s → o_flag s' = o_flag s → J s'.
Proof.
  intros [H1 H2 H3 H4 H5] Hr Ho Hd Hf. unfold within in *.
  split; unfold within; rewrite ?Hr, ?Ho, ?Hd, ?Hf; done.
Qed.

Lemma send_hops_wp e (Q : unit → odr → Prop) s :
  J s → (o_flag s ≠ 1 → event_hops (within n s) B e) →
  (J (set_out (out s ++ [e]) s) → Q tt (set_out (out s ++ [e]) s)) →
  wpl (sendto env e) Q s.
Proof.
  intros HJ He HQ. apply sendto_wp; [done|]. apply HQ. destruct HJ as [H1 H2 H3 H4 H5].
  split; try done. simpl. intros Hf. apply Forall_app. split; [by apply H4|]. constructor; [by apply He|constructor].
Qed.

Lemma hops_ok_rt_set s k e e' :
  J s → routing_table s !! k = Some e → dst_addr e' = dst_addr e →
  route_hops envs K B e' →
  (outgoing_if e ≠ 0 → outgoing_if e' ≠ 0 ∧ hop_cnt e' ≤ hop_cnt e) →
  J (set_rt (<[k := e']> (routing_table s)) s) ∧
  ∀ x h, within n s x h → within n (set_rt (<[k := e']> (routing_table s)) s) x h.
Proof.
  intros [H1 H2 H3 H4 H5] He Hd Hok Hup. assert (Hlt := lookup_lt_Some _ _ _ He).
  assert (Hk : ∀ x h, within n s x h → within n (set_rt (<[k := e']> (routing_table s)) s) x h).
  { intros x h [Hx|(e1 & He1 & Hd1 & Ho1 & Hh1)]; [by left|right].
    apply list_elem_of_lookup in He1 as [k1 He1]. destruct (decide (k1 = k)) as [->|Hne].
    - simplify_eq. destruct (Hup Ho1). exists e'. split_and!; [|done..|lia].
      eapply (list_elem_of_lookup_2 _ k). simpl. by apply list_lookup_insert_eq.
    - exists e1. split_and!; [|done..]. eapply (list_elem_of_lookup_2 _ k1). simpl.
      by rewrite list_lookup_insert_ne. }
  split; [|done]. split; simpl; try done; eauto.
  - rewrite list_fmap_insert, Hd, H1. apply list_insert_id.
    by rewrite <- H1, list_lookup_fmap, He.
  - intros e1 He1%list_elem_of_lookup. destruct He1 as [k1 He1]. destruct (decide (k1 = k)) as [->|Hne].
    + rewrite list_lookup_insert_eq in He1 by done. by simplify_eq.
    + rewrite list_lookup_insert_ne in He1 by done. by eapply H2, list_elem_of_lookup_2.
  - intros Hf. eapply Forall_impl; [by apply H4|]. intros ev. by apply event_hops_mono.
Qed.

Lemma update_route_hops i m j src addr disc hops k (Q : nat * bool → odr → Prop) s :
  J s → 1 ≤ m ≤ 10 → if_of envs m j = Some src → vm_addr !! k = Some addr →
  claimed (K m) (B - 1) addr hops disc →
  (∀ k eff s' e, J s' → routing_table s' !! k = Some e → dst_addr e = addr → outgoing_if e ≠ 0 →
     within n s' addr (ntohl hops + 1) → o_dst_addr s' = o_dst_addr s → Q (k, eff) s') →
  wpl (update_route i src addr disc hops) Q s.
Proof.
  intros HJ Hm Hsrc Ha (HK & Hle & Hdisc) HQ. unfold update_route.
  destruct (rt_entry _ _ _ (hk_addrs _ _ _ _ _ _ HJ) Ha) as (Hidx & e & He & Hd).
  eapply wpx_run; [apply rt_find_run|]. rewrite Hidx.
  eapply wpx_run; [reflexivity|]. rewrite He. pose proof (ntohl_range hops) as Hr.
  assert (Hhop : s32 (ntohl hops + 1) = ntohl hops + 1) by (apply s32_int; unfold INT_MIN, INT_MAX; lia).
  assert (Hu : u32 (ntohl hops + 1) = ntohl hops + 1) by (apply u32_small; lia).
  assert (Hok := hk_routes _ _ _ _ _ _ HJ e (list_elem_of_lookup_2 _ _ _ He)).
  assert (Hue : outgoing_if e ≠ 0 → u32 (hop_cnt e) = hop_cnt e).
  { intros Ho. apply u32_small. destruct (Hok Ho) as [? _]. lia. }
  unfold better_route. rewrite Hu, (proj2 (Z.eqb_neq _ 1) Hdisc). simpl.
  destruct (Z.eqb_spec (outgoing_if e) 0) as [Hz|Hz]; simpl.
  2: rewrite (Hue Hz); destruct (Z.gtb_spec (hop_cnt e) (ntohl hops + 1)); simpl;
     [|destruct (Z.eqb_spec (hop_cnt e) (ntohl hops + 1)); simpl; [destruct (outgoing_if e =? _); simpl|]].
  all: try (apply (HQ k false s e); try done; right; exists e; split_and!;
            [by eapply list_elem_of_lookup_2|done..|lia]).
  all: eapply wpx_run; [apply rt_set_run; by eapply lookup_lt_Some|];
    set (e' := mk_route _ _ _ _ _);
    destruct (hops_ok_rt_set s k e e') as [HJ' _]; try done;
      try (simpl; rewrite Hhop; intros; lia);
      [intros _; simpl; rewrite Hhop, Hd; split; [lia|]; exists m, j;
       split_and!; [lia..|done|by replace (ntohl hops + 1 - 1) with (ntohl hops) by lia]|];
    (assert (Hlook : routing_table (set_rt (<[k:=e']> (routing_table s)) s) !! k = Some e')
      by (simpl; apply list_lookup_insert_eq; by eapply lookup_lt_Some));
    apply (HQ k true _ e'); try done; [simpl; lia|]; right; exists e';
    (split_and!; [by eapply list_elem_of_lookup_2|done|simpl; lia|simpl; rewrite Hhop; lia]).
Qed.

Lemma record_bid_hops k e rrq (Q : unit → odr → Prop) s :
  J s → routing_table s !! k = Some e →
  (∀ s', J s' → (∀ x h, within n s x h → within n s' x h) → Q tt s') →
  wpl (record_bid k rrq) Q s.
Proof.
  intros HJ He HQ. unfold record_bid. eapply wpx_run; [by apply rt_at_run|].
  set (e' := mk_route _ _ _ _ _). assert (Hlt := lookup_lt_Some _ _ _ He).
  assert (Hs' : rt_set k e' s = Done tt (set_rt (<[k:=e']> (routing_table s)) s))
    by by apply rt_set_run.
  unfold wpx. rewrite Hs'. destruct (hops_ok_rt_set s k e e') as [HJ' Hm]; try done.
  - intros Ho. by apply (hk_routes _ _ _ _ _ _ HJ e (list_elem_of_lookup_2 _ _ _ He)).
  - by apply HQ.
Qed.

Lemma if_mac_hops i (Q : list Z → odr → Prop) s :
  (∀ a, 0 ≤ i → mac_ok a → Q a s) → wpl (if_mac env i) Q s.
Proof.
  intros HQ. unfold if_mac, rd. rewrite wpx_of_opt. destruct (arr_at (if_addr env) i) as [a|] eqn:Ha; [|done].
  apply arr_at_Some in Ha as [Hi Ha]. by apply HQ, (inst_mac _ _ inst n (Z.to_nat i)).
Qed.

(** The interface of an entry's route was found, so the entry has a next hop. *)
Lemma next_hop_mac s e :
  J s → e ∈ routing_table s → 0 ≤ outgoing_if e - 3 → mac_ok (next_hop e).
Proof.
  intros HJ He Ho. destruct (hk_routes _ _ _ _ _ _ HJ e He) as (_ & m & j & _ & Hm & _); [lia|].
  by apply (inst_mac _ _ inst) in Hm as [? _].
Qed.

Lemma rt_at_hops k (Q : routing_entry → odr → Prop) s :
  (∀ e, routing_table s !! k = Some e → Q e s) → wpl (rt_at k) Q s.
Proof.
  intros HQ. unfold rt_at. eapply wpx_run; [reflexivity|]. unfold rd.
  rewrite wpx_of_opt, arr_at_nat. destruct (routing_table s !! k) eqn:He; [by apply HQ|done].
Qed.

Lemma strcpy_hops cap w (Q : string → odr → Prop) s :
  ((String.length w < cap)%nat → Q w s) → wpl (strcpy cap w) Q s.
Proof. intros HQ. unfold strcpy. destruct (Nat.ltb_spec (String.length w) cap); [by apply HQ|done]. Qed.

Lemma int_op_hops x (Q : Z → odr → Prop) s : (int_ok x → Q x s) → wpl (int_op x) Q s.
Proof.
  intros HQ. unfold int_op, is_int. destruct (Z.leb_spec INT_MIN x), (Z.leb_spec x INT_MAX); try done.
  by apply HQ.
Qed.

(** A relayed frame of a type that is neither RREQ nor RREP, or a RREP with a claim
    of this node. *)
Lemma relay_hops dst type h p body (Q : unit → odr → Prop) s :
  J s →
  (∀ a src, mac_ok src → mac_ok a → frame_hops (within n s) B
     (enc_hdr (mk_hdr a src (htons PROTO) (htonl_int type)) ++ body)) →
  (∀ s', J s' → Q tt s') →
  wpl (relay env dst type h p body) Q s.
Proof.
  intros HJ Hf HQ. unfold relay. eapply wpx_run; [apply rt_find_run|].
  rewrite wpx_bind. apply rt_at_hops. intros e He. rewrite wpx_bind. apply if_mac_hops. intros a Hi Ha.
  apply send_hops_wp; [done| |by intros; apply HQ]. intros _. apply Hf; [done|].
  eapply next_hop_mac; [done| |done]. by eapply list_elem_of_lookup_2.
Qed.

(** A routing request of this node. *)
Lemma flood_hops h p r body lo (Q : unit → odr → Prop) s :
  J s → RREQ_ok r →
  (o_flag s ≠ 1 → claimed (within n s) B (q_src_addr r) (q_hop_cnt r) (q_discovery r)) →
  (∀ k, body k = mret tt ∨ body k = send_RREQ env h p r k) →
  (∀ s', J s' → routing_table s' = routing_table s → Q tt s') →
  wpl (for_ lo (length (if_addr env) - lo) body) Q s.
Proof.
  intros HJ Hr Hc Hbody HQ.
  apply (wpx_for _ E (λ _ s', J s' ∧ routing_table s' = routing_table s ∧ o_flag s' = o_flag s)); [done| |naive_solver].
  intros k s' _ (HJ' & Hrt & Hfl). destruct (Hbody k) as [->| ->]; [done|].
  unfold send_RREQ. rewrite wpx_bind. apply if_mac_hops. intros a _ Ha.
  apply send_hops_wp; [done| |done]. rewrite Hfl. intros Hf.
  eexists. split; [by apply (hdr_intro bcast_mac a 0 bcast_mac_ok)|].
  left. exists r. split_and!; [apply ntohl_htonl_int|done..|].
  destruct (Hc Hf) as (Hw & ? & ?). split_and!; try done. unfold within. by rewrite Hrt.
Qed.

Lemma find_local_hops p (Q : string → odr → Prop) s :
  J s → (∀ path s', J s' → Q path s') → wpl (find_local p) Q s.
Proof.
  intros HJ HQ. unfold find_local. eapply wpx_run; [reflexivity|]. cbv zeta.
  destruct (ports_in_use s !! _) as [pe|]; [|by apply HQ].
  eapply wpx_run; [reflexivity|]. apply HQ. by apply (hops_ok_ext s).
Qed.

Lemma send_RREP_hops i k recv_mac h p r (Q : unit → odr → Prop) s :
  J s → mac_ok recv_mac → RREP_ok r →
  claimed (within n s) B (p_src_addr r) (p_hop_cnt r) (p_discovery r) →
  (∀ s', J s' → routing_table s' = routing_table s → Q tt s') →
  wpl (send_RREP env i k recv_mac h p r) Q s.
Proof.
  intros HJ Hm Hr Hc HQ. unfold send_RREP. rewrite wpx_bind. apply rt_at_hops. intros e _.
  rewrite wpx_bind. apply if_mac_hops. intros a _ Ha.
  rewrite wpx_bind. apply strcpy_hops. intros _. rewrite wpx_bind. apply strcpy_hops. intros _.
  apply send_hops_wp; [done| |by intros; apply HQ]. intros _.
  eexists. split; [by apply (hdr_intro recv_mac a 1)|].
  right; left. exists r. split_and!; [apply ntohl_htonl_int|done..].
Qed.

Lemma my_addr_hops (Q : string → odr → Prop) s :
  (∀ me, addr_of n = Some me → addr_ok me → Q me s) → wpl (my_addr env) Q s.
Proof.
  intros HQ. destruct (my_addr_is envs link inst n Hn) as (me & Hme & Hok & Hrun).
  unfold wpx. rewrite Hrun. by apply HQ.
Qed.

Lemma bump_hops_ok r x : RREQ_ok r → int_ok x → RREQ_ok (bump_hops r x).
Proof. intros (? & ? & ? & ? & ? & ? & ?) ?. split_and!; try done; apply htonl_int_range. Qed.

(** A RREQ is passed on with the distance this node now has. *)
Lemma claimed_next s x hops disc :
  within n s x (ntohl hops + 1) → ntohl hops ≤ B - 1 → ntohl disc ≠ 1 →
  claimed (within n s) B x (htonl_int (ntohl hops + 1)) disc.
Proof.
  intros Hw Hle Hd. pose proof (ntohl_range hops). unfold claimed.
  rewrite ntohl_htonl_int, u32_small by lia. split_and!; [done|lia|done].
Qed.

Lemma RREQ_at_destination_hops i k eff recv_mac r e (Q : unit → odr → Prop) s :
  J s → routing_table s !! k = Some e → mac_ok recv_mac → RREQ_ok r → ntohl (q_discovery r) ≠ 1 →
  addr_of n = Some (q_dst_addr r) → (∀ s', J s' → Q tt s') →
  wpl (RREQ_at_destination env i k eff recv_mac r) Q s.
Proof.
  intros HJ He Hm Hr Hd Hme HQ. unfold RREQ_at_destination. eapply wpx_run; [by apply rt_at_run|].
  eapply (wpx_seq _ _ (λ _ s', J s' ∧ routing_table s' = routing_table s)).
  - apply wpx_when. split; [intros _|done]. destruct Hr as (? & ? & _).
    rewrite (proj2 (Z.eqb_neq _ 1) Hd). apply send_RREP_hops; [done..| | |by intros]; simpl.
    + split_and!; try done; apply htonl_int_range.
    + unfold claimed. rewrite !ntohl_htonl_int. change (u32 0) with 0. split_and!; [by left|lia|done].
  - intros _ s1 [HJ1 Hrt]. eapply record_bid_hops; [done|by rewrite Hrt|]. intros s2 HJ2 _. by apply HQ.
Qed.

Lemma RREQ_with_route_hops i k eff recv_mac r e ce (Q : unit → odr → Prop) s :
  J s → routing_table s !! k = Some e → mac_ok recv_mac → RREQ_ok r → ntohl (q_discovery r) ≠ 1 →
  within n s (q_src_addr r) (ntohl (q_hop_cnt r) + 1) → ntohl (q_hop_cnt r) ≤ B - 1 →
  ce ∈ routing_table s → dst_addr ce = q_dst_addr r → outgoing_if ce ≠ 0 →
  (∀ s', J s' → Q tt s') →
  wpl (RREQ_with_route env i k eff recv_mac r ce) Q s.
Proof.
  intros HJ He Hm Hr Hd Hw Hle Hce Hcd Hco HQ. unfold RREQ_with_route.
  destruct (hk_routes _ _ _ _ _ _ HJ ce Hce Hco) as [Hrange _].
  eapply wpx_run; [by apply rt_at_run|].
  eapply (wpx_seq _ _ (λ _ s', J s' ∧ routing_table s' = routing_table s)).
  - apply wpx_when. split; [intros _|done]. pose proof Hr as (? & ? & _).
    apply send_RREP_hops; [done..| | |by intros]; simpl.
    + split_and!; try done; apply htonl_int_range.
    + unfold claimed. rewrite !ntohl_htonl_int, (u32_small (hop_cnt ce)) by lia. split_and!; [|lia|done].
      right. exists ce. split_and!; (done || lia).
  - intros _ s1 [HJ1 Hrt]. rewrite wpx_bind. eapply record_bid_hops; [done|by rewrite Hrt|].
    intros s2 HJ2 Hmono. apply wpx_when. split; [intros _|intros; by apply HQ].
    unfold flood_except. rewrite <- (Nat.sub_0_r (length _)).
    eapply (flood_hops 0 0 (bump_hops r (htonl_int 1))); [done| | | |].
    + apply bump_hops_ok; [done|apply htonl_int_range].
    + intros _. apply claimed_next; try done. apply Hmono. unfold within in *. by rewrite Hrt.
    + intros k'. destruct (k' =? i)%nat; auto.
    + intros s3 HJ3 _. by apply HQ.
Qed.

Lemma RREQ_without_route_hops i k eff r e (Q : unit → odr → Prop) s :
  J s → routing_table s !! k = Some e → RREQ_ok r → ntohl (q_discovery r) ≠ 1 →
  within n s (q_src_addr r) (ntohl (q_hop_cnt r) + 1) → ntohl (q_hop_cnt r) ≤ B - 1 →
  (∀ s', J s' → Q tt s') →
  wpl (RREQ_without_route env i k eff r) Q s.
Proof.
  intros HJ He Hr Hd Hw Hle HQ. unfold RREQ_without_route. eapply wpx_run; [by apply rt_at_run|].
  eapply (wpx_seq _ _ (λ _ s', J s' ∧ routing_table s' = routing_table s)).
  - apply wpx_when. split; [intros _|done]. unfold flood_except. rewrite <- (Nat.sub_0_r (length _)).
    eapply (flood_hops ARPHRD_ETHER PACKET_BROADCAST (bump_hops r (q_RREP_sent r))); [done| | | |by intros].
    + apply bump_hops_ok; [done|by destruct Hr as (_ & _ & _ & _ & _ & ? & _)].
    + intros _. by apply claimed_next.
    + intros k'. destruct (k' =? i)%nat; auto.
  - intros _ s1 [HJ1 Hrt]. eapply record_bid_hops; [done|by rewrite Hrt|]. intros s2 HJ2 _. by apply HQ.
Qed.

Lemma handle_RREQ_hops i m j header r ks (Q : unit → odr → Prop) s :
  J s → 1 ≤ m ≤ 10 → mac_ok (h_src_mac header) → if_of envs m j = Some (h_src_mac header) →
  RREQ_ok r → vm_addr !! ks = Some (q_src_addr r) →
  claimed (K m) (B - 1) (q_src_addr r) (q_hop_cnt r) (q_discovery r) →
  (∀ s', J s' → Q tt s') →
  wpl (handle_RREQ env i header r) Q s.
Proof.
  intros HJ Hm Hmac Hsrc Hr Hks Hc HQ. unfold handle_RREQ. rewrite wpx_bind.
  eapply (update_route_hops i m j); try done. clear HJ.
  intros k eff s1 e HJ He Hd Ho Hw _. clear s. rename s1 into s. destruct Hc as (_ & Hle & Hdisc).
  rewrite wpx_bind. apply my_addr_hops. intros me Hme _.
  destruct (streq (q_dst_addr r) me) eqn:Hdst.
  { apply streq_eq in Hdst as <-. by eapply RREQ_at_destination_hops. }
  eapply wpx_run; [reflexivity|]. cbv zeta. destruct (routing_table s !! first_index _ _) as [ce|] eqn:Hce.
  - assert (Hlt := lookup_lt_Some _ _ _ Hce).
    destruct (first_index_lookup _ _ Hlt) as (ce' & Hce' & [Hcd%streq_eq Hco]%andb_true_iff).
    simplify_eq. apply andb_true_iff in Hco as [Hco%negb_true_iff%Z.eqb_neq _].
    eapply RREQ_with_route_hops; try done. by eapply list_elem_of_lookup_2.
  - by eapply RREQ_without_route_hops.
Qed.

Lemma handle_RREP_hops i m j header r ks (Q : unit → odr → Prop) s :
  J s → 1 ≤ m ≤ 10 → if_of envs m j = Some (h_src_mac header) →
  RREP_ok r → vm_addr !! ks = Some (p_src_addr r) →
  claimed (K m) (B - 1) (p_src_addr r) (p_hop_cnt r) (p_discovery r) →
  (∀ s', J s' → Q tt s') →
  wpl (handle_RREP env i header r) Q s.
Proof.
  intros HJ Hm Hsrc Hr Hks Hc HQ. unfold handle_RREP. rewrite wpx_bind.
  eapply (update_route_hops i m j); try done. clear HJ.
  intros k eff s1 e HJ He Hd Ho Hw _. clear s. rename s1 into s. destruct Hc as (_ & Hle & Hdisc).
  rewrite wpx_bind. apply my_addr_hops. intros me Hme _.
  destruct (streq (p_dst_addr r) me).
  - rewrite wpx_bind. apply find_local_hops; [done|]. intros path s1 HJ1.
    apply send_hops_wp; [done|done|]. by intros; apply HQ.
  - apply relay_hops; [done| |done]. intros a src Hsm Ha. eexists.
    split; [by apply (hdr_intro a src 1)|]. right; left. eexists. split_and!; [apply ntohl_htonl_int|done| |].
    + destruct Hr as (? & ? & ? & ? & ?). split_and!; try done. apply htonl_int_range.
    + by apply claimed_next.
Qed.

Lemma handle_payload_hops l (Q : unit → odr → Prop) s :
  J s → (∀ s', J s' → Q tt s') → wpl (handle_payload env l) Q s.
Proof.
  intros HJ HQ. unfold handle_payload. rewrite wpx_bind. apply my_addr_hops. intros me Hme _.
  destruct (streq (l_dst_addr l) me).
  - rewrite wpx_bind, wpx_of_opt. destruct (dec_str (l_message l)) as [msg|]; [|done].
    rewrite wpx_bind. apply find_local_hops; [done|]. intros path s1 HJ1.
    apply send_hops_wp; [done|done|]. by intros; apply HQ.
  - apply relay_hops; [done| |done]. intros a src Hsm Ha. eexists.
    split; [by apply (hdr_intro a src 2)|]. right; right. split; [apply ntohl_htonl_int|by eexists].
Qed.

(** * The local side *)

(** Before anything was sent. *)
Lemma hops_ok_quiet s s' :
  J s → out s' = [] → routing_table s' = routing_table s → addr_ok (o_dst_addr s') → J s'.
Proof.
  intros [H1 H2 H3 H4 H5] Ho Hr Hd. unfold within in *.
  split; unfold within; rewrite ?Hr, ?Ho; done.
Qed.

Lemma scan_request_hops msg (Q : unit → odr → Prop) s :
  J s → out s = [] → no_nul msg = true → (∀ s', J s' → Q tt s') → wpl (scan_request msg) Q s.
Proof.
  intros HJ Hout Hm HQ. unfold scan_request.
  destruct (scan_s msg) as [[w r1]|] eqn:E1; [|by apply HQ].
  destruct (scan_s_no_nul _ _ _ Hm E1) as [Hw Hr1].
  rewrite wpx_bind. apply strcpy_hops. intros Hlen. eapply wpx_run; [reflexivity|].
  assert (HJ1 : ∀ s', out s' = [] → routing_table s' = routing_table s → o_dst_addr s' = w → Q tt s').
  { intros s' Ho Hr Hd. apply HQ. eapply hops_ok_quiet; [exact HJ|done..|by rewrite Hd]. }
  destruct (scan_d r1) as [[p r2]|] eqn:E2; [|by apply HJ1].
  rewrite wpx_bind. apply int_op_hops. intros _. eapply wpx_run; [reflexivity|].
  destruct (scan_s r2) as [[m r3]|] eqn:E3; [|by apply HJ1].
  rewrite wpx_bind. apply strcpy_hops. intros _. eapply wpx_run; [reflexivity|].
  destruct (scan_d r3) as [[f r4]|] eqn:E4; [|by apply HJ1].
  rewrite wpx_bind. apply int_op_hops. intros _. by apply HJ1.
Qed.

(** A frame with an application payload along the entry [e]. *)
Lemma payload_hops Kn e src load :
  mac_ok src → mac_ok (next_hop e) → frame_hops Kn B (payload_frame e src load).
Proof.
  intros Hs Hm. eexists. split; [by apply (hdr_intro (next_hop e) src 2)|]. right; right.
  split; [apply ntohl_htonl_int|by eexists].
Qed.

Lemma local_reply_hops (Q : unit → odr → Prop) s :
  J s → (∀ s', J s' → Q tt s') → wpl (local_reply env) Q s.
Proof.
  intros HJ HQ. unfold local_reply. eapply wpx_run; [reflexivity|].
  eapply wpx_run; [apply rt_find_run|]. rewrite wpx_bind. apply rt_at_hops. intros e He.
  rewrite wpx_bind. apply if_mac_hops. intros src Hi Hsrc.
  rewrite wpx_bind. apply my_addr_hops. intros me _ _.
  do 3 (rewrite wpx_bind; apply strcpy_hops; intros _).
  apply send_hops_wp; [done| |by intros; apply HQ]. intros _. apply payload_hops; [done|].
  eapply next_hop_mac; [done| |done]. by eapply list_elem_of_lookup_2.
Qed.

Lemma send_request_hops index number (Q : unit → odr → Prop) s :
  J s → (∀ s', J s' → Q tt s') → wpl (send_request env index number) Q s.
Proof.
  intros HJ HQ. unfold send_request. eapply wpx_run; [reflexivity|].
  rewrite wpx_bind. apply rt_at_hops. intros e He.
  rewrite wpx_bind. apply if_mac_hops. intros src Hi Hsrc.
  rewrite wpx_bind. apply my_addr_hops. intros me _ _.
  do 2 (rewrite wpx_bind; apply strcpy_hops; intros _).
  unfold rd at 1. rewrite wpx_bind, wpx_of_opt. destruct (arr_at (port_table s) _) as [pe|]; [|done].
  rewrite wpx_bind. apply strcpy_hops. intros _.
  apply send_hops_wp; [done| |by intros; apply HQ]. intros _. apply payload_hops; [done|].
  eapply next_hop_mac; [done| |done]. by eapply list_elem_of_lookup_2.
Qed.

Lemma discover_hops index (Q : unit → odr → Prop) s :
  J s → (∀ s', J s' → Q tt s') → wpl (discover env index) Q s.
Proof.
  intros HJ HQ. unfold discover. eapply wpx_run; [reflexivity|].
  rewrite wpx_bind. apply my_addr_hops. intros me Hme Hmeok.
  do 2 (rewrite wpx_bind; apply strcpy_hops; intros _).
  unfold rd at 1. rewrite wpx_bind, wpx_of_opt. destruct (arr_at (port_table s) _) as [pe|]; [|done].
  rewrite wpx_bind. apply int_op_hops. intros _. eapply wpx_run; [reflexivity|]. cbv zeta.
  set (r := mk_RREQ _ _ _ _ _ _ _). rewrite <- (Nat.sub_0_r (length _)).
  apply (flood_hops 0 0 r); [by apply (hops_ok_ext s)| | |by auto|by intros; apply HQ].
  - split_and!; simpl; try apply Hmeok; try apply (hk_dst _ _ _ _ _ _ HJ); apply htonl_int_range.
  - simpl. intros Hf. unfold claimed. rewrite (proj2 (Z.eqb_neq _ 1) Hf), !ntohl_htonl_int.
    change (u32 0) with 0. split_and!; [by left|lia|done].
Qed.

Lemma local_request_hops index (Q : unit → odr → Prop) s :
  J s → (∀ s', J s' → Q tt s') → wpl (local_request env index) Q s.
Proof.
  intros HJ HQ. unfold local_request. eapply wpx_run; [reflexivity|].
  eapply (wpx_seq _ _ (λ _ s', J s')).
  { apply wpx_when. split; [intros _|done]. unfold add_client. eapply wpx_run; [reflexivity|].
    do 2 (rewrite wpx_bind; apply int_op_hops; intros _).
    rewrite wpx_bind. apply strcpy_hops. intros _. rewrite wpx_bind, wpx_of_opt.
    destruct (arr_set _ _ _) as [t|]; [|done]. by apply (hops_ok_ext s). }
  intros _ s1 HJ1. eapply wpx_run; [apply rt_find_run|].
  eapply wpx_run; [reflexivity|]. cbv zeta. apply wpx_if.
  split; intros _; [by apply send_request_hops|by apply discover_hops].
Qed.

Lemma handle_local_hops dgram (Q : unit → odr → Prop) s :
  J s → out s = [] → (∀ s', J s' → Q tt s') → wpl (handle_local env dgram) Q s.
Proof.
  intros HJ Hout HQ. destruct dgram as [[data path]|]; [|done]. unfold handle_local.
  eapply wpx_run; [reflexivity|]. eapply wpx_run; [reflexivity|]. eapply wpx_run; [reflexivity|].
  set (s1 := recv_addr path _). assert (HJ1 : J s1) by by apply (hops_ok_ext s).
  rewrite wpx_bind, wpx_of_opt. destruct (until_nul (local_buf s1)) as [seen|]; [|done].
  rewrite wpx_bind, wpx_of_opt. destruct (until_nul (recvmsg s1)) as [msg|] eqn:Hmsg; [|done].
  rewrite wpx_bind. apply scan_request_hops; [done|done|by eapply until_nul_no_nul|].
  intros s2 HJ2. cbv zeta. apply wpx_if. split; intros _; [by apply local_reply_hops|by apply local_request_hops].
Qed.
End handlers.

(** * Runs *)

Section runs.
Context (envs : Z → odr_env) (link : Z → nat → Z → nat → Prop).
Context (inst : installed envs link).

Definition distances (w : net) : Z → string → Z → Prop := λ m, within m (st w m).

(** A step after which no node has a request for forced discovery. *)
Definition calm_step (w w' : net) : Prop := step envs link w w' ∧ unforced w'.

Lemma start_hops w n B :
  net_hops envs B w → unforced w → 1 ≤ n ≤ 10 →
  hops_ok envs (distances w) (B + 1) n (set_out [] (st w n)) (set_out [] (st w n)).
Proof.
  intros [Hnodes _] _ Hn. destruct (Hnodes n Hn) as (H1 & H2 & H3). split; try done.
  intros e He Ho. destruct (H2 e He Ho) as [? ?]. split; [lia|done].
Qed.

Lemma packets_hops n Kn B evs :
  Forall (event_hops Kn B) evs →
  Forall (λ p, tx_node p = n ∧ frame_hops Kn B (pk_frame p)) (packets_of n evs).
Proof.
  induction 1 as [|[j f to|d p] evs He Hevs IH]; simpl; [constructor| |done]. by constructor.
Qed.

Lemma after_hops w n (m : M odr unit) B w' :
  net_hops envs B w → 1 ≤ n ≤ 10 → unforced w' →
  wpx (λ _, True) (λ _ s, hops_ok envs (distances w) (B + 1) n (set_out [] (st w n)) s) m
    (λ _ s, hops_ok envs (distances w) (B + 1) n (set_out [] (st w n)) s) (set_out [] (st w n)) →
  after w n (m (set_out [] (st w n))) = Some w' → net_hops envs (B + 1) w'.
Proof.
  intros [Hnodes Hair] Hn Huf Hwp Haf.
  assert (∃ s', hops_ok envs (distances w) (B + 1) n (set_out [] (st w n)) s' ∧
                st w' n = s' ∧ (∀ n', n' ≠ n → st w' n' = st w n') ∧
                air w' = air w ++ packets_of n (out s')) as (s' & HJ & Hst & Hsto & Hair').
  { unfold wpx in Hwp. destruct (m (set_out [] (st w n))) as [a s'|c s'|u]; simplify_eq/=; exists s';
      (split_and!; [done|unfold fupd; by rewrite Z.eqb_refl| |done]);
      intros n' Hne; unfold fupd; by destruct (Z.eqb_spec n' n). }
  assert (HK : ∀ m x h, distances w m x h → distances w' m x h).
  { intros m' x h. unfold distances. destruct (decide (m' = n)) as [->|Hne]; [|by rewrite Hsto].
    rewrite Hst. apply (hk_mono _ _ _ _ _ _ HJ). }
  assert (HR : ∀ b b' e, b ≤ b' → route_hops envs (distances w) b e → route_hops envs (distances w') b' e).
  { intros b b' e Hb Hr Ho. destruct (Hr Ho) as (? & m' & j & ? & ? & ?). split; [lia|]. exists m', j. auto. }
  split.
  - intros n' Hn'. destruct (decide (n' = n)) as [->|Hne].
    + rewrite Hst. split_and!; [apply (hk_addrs _ _ _ _ _ _ HJ)| |apply (hk_dst _ _ _ _ _ _ HJ)].
      intros e He. eapply HR; [|by apply (hk_routes _ _ _ _ _ _ HJ)]. lia.
    + rewrite (Hsto n' Hne). destruct (Hnodes n' Hn') as (H1 & H2 & H3). split_and!; try done.
      intros e He. eapply HR; [|by apply H2]. lia.
  - rewrite Hair'. apply Forall_app. split.
    + eapply Forall_impl; [exact Hair|]. intros p.
      apply frame_hops_mono; [apply (HK (tx_node p))|lia].
    + assert (Hev : Forall (event_hops (within n s') (B + 1)) (out s')).
      { apply (hk_out _ _ _ _ _ _ HJ). rewrite <- Hst. apply Huf. }
      eapply Forall_impl; [apply (packets_hops n), Hev|]. intros p [Hp Hf]. by rewrite Hp, Hst.
Qed.

Lemma frame_hops_wp w n i p junk B :
  net_ok envs link w → net_hops envs B w → unforced w → 0 ≤ B < 2 ^ 31 - 1 →
  1 ≤ n ≤ 10 → p ∈ air w →
  wpx (λ _, True) (λ _ s, hops_ok envs (distances w) (B + 1) n (set_out [] (st w n)) s)
    (handle_frame (envs n) i (Some (pk_frame p ++ junk)))
    (λ _ s, hops_ok envs (distances w) (B + 1) n (set_out [] (st w n)) s) (set_out [] (st w n)).
Proof.
  intros [_ Hair] Hh Hu HB Hn Hp. pose proof (start_hops w n B Hh Hu Hn) as HJ. destruct Hh as [_ Hhair].
  rewrite Forall_forall in Hair. rewrite Forall_forall in Hhair.
  destruct (Hair p Hp) as (Htx & h & body & Hf & Hhok & (j & Hsrc) & Hcase).
  destruct (Hhair p Hp) as (h' & Hhok' & Hcase').
  assert (Hhh : ∀ body', pk_frame p = enc_hdr h' ++ body' → h' = h ∧ body' = body).
  { intros body' Heq. assert (h' = h) as -> by (by rewrite <- (dec_enc_hdr h' body'), <- Heq, Hf, dec_enc_hdr).
    split; [done|]. eapply app_inv_head. by rewrite <- Heq, <- Hf. }
  rewrite Hf. unfold handle_frame. cbv zeta. rewrite <- app_assoc, dec_enc_hdr by done.
  rewrite drop_app_length' by by rewrite length_enc_hdr.
  assert (Hvm : ∀ x hops, claims link (tx_node p) x hops → ∃ k, vm_addr !! k = Some x)
    by (intros x hops (k & _ & ? & _); eauto).
  destruct Hcase as [(r & Ht & -> & Hr & _ & Hcl)|[(r & Ht & -> & Hr & _ & Hcl & _)|(l & Ht & -> & Hl & _)]];
    rewrite Ht; cbn [Z.eqb].
  - rewrite dec_enc_RREQ by done. eapply wpx_run; [reflexivity|]. destruct (Hvm _ _ Hcl) as [ks Hks].
    destruct Hcase' as [(r' & Ht' & [-> Heq]%Hhh & Hr' & Hc)|[(r' & Ht' & [-> _]%Hhh & _)|(Ht' & b & [-> _]%Hhh)]];
      [|congruence..].
    assert (r' = r) as -> by (apply (inj Some); by rewrite <- (dec_enc_RREQ r' []), <- (dec_enc_RREQ r []), Heq).
    eapply (handle_RREQ_hops envs link inst n Hn _ (B + 1)); try done; [lia|by destruct Hhok as (_ & ? & _)|].
    by rewrite Z.add_simpl_r.
  - rewrite dec_enc_RREP by done. eapply wpx_run; [reflexivity|]. destruct (Hvm _ _ Hcl) as [ks Hks].
    destruct Hcase' as [(r' & Ht' & [-> _]%Hhh & _)|[(r' & Ht' & [-> Heq]%Hhh & Hr' & Hc)|(Ht' & b & [-> _]%Hhh)]];
      [congruence| |congruence].
    assert (r' = r) as -> by (apply (inj Some); by rewrite <- (dec_enc_RREP r' []), <- (dec_enc_RREP r []), Heq).
    eapply (handle_RREP_hops envs link inst n Hn _ (B + 1)); try done; [lia|].
    by rewrite Z.add_simpl_r.
  - rewrite dec_enc_payload by done. eapply wpx_run; [reflexivity|].
    eapply (handle_payload_hops envs link inst n Hn); done.
Qed.

Lemma calm_step_hops w w' B :
  net_ok envs link w → net_hops envs B w → unforced w → 0 ≤ B < 2 ^ 31 - 1 →
  calm_step w w' → net_hops envs (B + 1) w'.
Proof.
  intros Hok Hh Hu HB [Hstep Hu']. destruct Hstep as [n i p junk w' Hn _ Hp _ Haf|n data path w' Hn _ Haf].
  - eapply after_hops; [done|exact Hn|done| |exact Haf]. by apply frame_hops_wp.
  - eapply after_hops; [done|exact Hn|done| |exact Haf].
    eapply (handle_local_hops envs link inst n Hn); [lia|by apply start_hops|done..].
Qed.

Lemma initial_hops w : initial w → net_hops envs 0 w ∧ unforced w.
Proof.
  intros [Hair Hst]. split; [split; [|by rewrite Hair]|]; intros n; [intros _|];
    destruct (Hst n) as (jr & jp & jd & jo & jm & jf & jb & Hjr & _ & Hjd & _ & Hjf & ->); [|done]. simpl.
  destruct (zip_entries_addrs vm_addr jr Hjr) as [Ha Ho]. split_and!; [done| |done].
  intros e He Hout. rewrite Forall_forall in Ho. by apply Ho in He.
Qed.

Lemma calm_run k w0 w :
  initial w0 → nsteps calm_step k w0 w → Z.of_nat k < 2 ^ 31 - 1 →
  reachable envs link w ∧ net_hops envs (Z.of_nat k) w ∧ unforced w.
Proof.
  intros Hw0. revert w. induction k as [|k IH]; intros w Hk Hlt.
  - inversion Hk; subst. split; [exists w; split; [done|constructor]|]. by apply initial_hops.
  - apply nsteps_inv_r in Hk as (w1 & Hk & Hst). destruct (IH w1 Hk ltac:(lia)) as ((w00 & Hi & Hr) & Hh & Hu).
    split; [exists w00; split; [done|]; by eapply reach_step, (proj1 Hst)|].
    split; [|by apply Hst]. replace (Z.of_nat (S k)) with (Z.of_nat k + 1) by lia.
    eapply calm_step_hops; try done; [|lia]. apply reachable_ok; [done|by exists w00].
Qed.

(** * Forwarding *)

(** Node [n] passes messages for [x] on to [m]: it is not [x] and its entry for [x]
    has an address of [m] as next hop. *)
Definition forwards (w : net) (x : string) (n m : Z) : Prop :=
  addr_of n ≠ Some x ∧
  ∃ e j, e ∈ routing_table (st w n) ∧ dst_addr e = x ∧ outgoing_if e ≠ 0 ∧
         if_of envs m j = Some (next_hop e).

(** The entry of a node for an address is unique. *)
Lemma entry_unique w n e e' :
  net_ok envs link w → 1 ≤ n ≤ 10 → e ∈ routing_table (st w n) → e' ∈ routing_table (st w n) →
  dst_addr e = dst_addr e' → e = e'.
Proof.
  intros [Hnodes _] Hn [k Hk]%list_elem_of_lookup [k' Hk']%list_elem_of_lookup Hd.
  destruct (Hnodes n Hn) as (Ha & _).
  assert (k = k') as <-; [|congruence].
  eapply (vm_addr_inj k k' (dst_addr e)); rewrite <- Ha, list_lookup_fmap; [by rewrite Hk|].
  by rewrite Hk', Hd.
Qed.

(** One hop: the next node is nearer. *)
Lemma forwards_nearer w B x n m e :
  net_ok envs link w → net_hops envs B w → 1 ≤ n ≤ 10 →
  e ∈ routing_table (st w n) → dst_addr e = x → outgoing_if e ≠ 0 →
  forwards w x n m → 1 ≤ m ≤ 10 ∧ within m (st w m) x (hop_cnt e - 1).
Proof.
  intros Hok [Hnodes _] Hn He Hd Ho (_ & e' & j & He' & Hd' & _ & Hm).
  assert (e' = e) as -> by (eapply entry_unique; try done; congruence).
  destruct (Hnodes n Hn) as (_ & Hr & _). destruct (Hr e He Ho) as (_ & m' & j' & Hm' & Hif & Hw).
  rewrite (inst_unique _ _ inst m j m' j' _ Hm Hif), <- Hd. done.
Qed.

Lemma forwards_bounded w B x h L n m :
  net_ok envs link w → net_hops envs B w → 1 ≤ n ≤ 10 → within n (st w n) x h →
  nsteps (forwards w x) L n m → 1 ≤ m ≤ 10 ∧ within m (st w m) x (h - Z.of_nat L).
Proof.
  intros Hok Hh. revert n h. induction L as [|L IH]; intros n h Hn Hw Hsteps; inversion Hsteps as [|? ? m1 ? Hf Hs]; subst.
  - by replace (h - Z.of_nat 0) with h by lia.
  - destruct Hw as [[Ha _]|(e & He & Hd & Ho & Hhc)]; [by destruct Hf|].
    destruct (forwards_nearer w B x n m1 e) as [Hm1 Hw1]; try done.
    destruct (IH m1 (h - 1)) as [? ?]; [done|eapply within_le; [done|lia]|done|].
    split; [done|]. eapply within_le; [done|lia].
Qed.

Lemma forwards_arrives w B x h n :
  net_ok envs link w → net_hops envs B w → 1 ≤ n ≤ 10 → within n (st w n) x (Z.of_nat h) →
  ∃ L m, (L ≤ h)%nat ∧ nsteps (forwards w x) L n m ∧ addr_of m = Some x.
Proof.
  intros Hok Hh. revert n. induction h as [|h IH]; intros n Hn [[Ha _]|(e & He & Hd & Ho & Hhc)];
    try (exists 0%nat, n; split_and!; [lia|constructor|done]);
    destruct (proj1 Hh n Hn) as (_ & Hr & _); destruct (Hr e He Ho) as (Hrange & m & j & Hm & Hif & Hw);
    [lia|].
  destruct (decide (addr_of n = Some x)) as [Ha|Ha]; [exists 0%nat, n; split_and!; [lia|constructor|done]|].
  rewrite Hd in Hw.
  destruct (IH m Hm ltac:(eapply within_le; [exact Hw|lia])) as (L & m' & HL & Hs & Ha').
  exists (S L), m'. split_and!; [lia| |done]. econstructor; [|exact Hs]. split; [done|]. by exists e, j.
Qed.

(** C5: Forwarding along the routing tables has no loops.  In every network state that
    fewer than [2^31 - 1] steps without forced discovery lead to, however frames were
    lost, duplicated and reordered: from a node with a route of [hop_cnt] hops to [x],
    every sequence of next hops has at most [hop_cnt] steps, and one of them ends at
    the node with the address [x]. *)
Theorem next_hops_lead_home (k : nat) (w0 w : net) (n : Z) (e : routing_entry)
    (Hw0 : initial w0) (Hk : Z.of_nat k < 2 ^ 31 - 1) (Hrun : nsteps calm_step k w0 w)
    (Hn : 1 ≤ n ≤ 10) (He : e ∈ routing_table (st w n)) (Ho : outgoing_if e ≠ 0) :
  (∀ L m, nsteps (forwards w (dst_addr e)) L n m → Z.of_nat L ≤ hop_cnt e) ∧
  ∃ L m, Z.of_nat L ≤ hop_cnt e ∧ nsteps (forwards w (dst_addr e)) L n m ∧ addr_of m = Some (dst_addr e).
Proof.
  destruct (calm_run k w0 w Hw0 Hrun Hk) as (Hr%reachable_ok & Hh & _); [|done].
  assert (Hw : within n (st w n) (dst_addr e) (hop_cnt e)) by (right; by exists e).
  destruct (proj1 Hh n Hn) as (_ & Hrt & _). destruct (Hrt e He Ho) as [Hrange _]. split.
  - intros L m Hs. destruct (forwards_bounded w _ _ _ L n m Hr Hh Hn Hw Hs) as [Hm [[_ ?]|(e' & He' & _ & Ho' & ?)]]; [lia|].
    destruct (proj1 Hh m Hm) as (_ & Hrt' & _). destruct (Hrt' e' He' Ho') as [? _]. lia.
  - destruct (forwards_arrives w _ (dst_addr e) (Z.to_nat (hop_cnt e)) n Hr Hh Hn) as (L & m & HL & Hs & Ha).
    { by rewrite Z2Nat.id by lia. }
    exists L, m. split; [lia|done].
Qed.
End runs.

(** * The line VM1 - VM2 - VM3 *)

Section line_witness.
Import Line.

(** The actions of [acts], none of which leaves a request for forced discovery. *)
Definition actor (a : action) : Z := match a with Frame n _ _ => n | Local n _ _ => n end.
Fixpoint calm_acts (w : net) (l : list action) : option net :=
  match l with
  | [] => Some w
  | a :: l' => w' ← act w a; if o_flag (st w' (actor a)) =? 1 then None else calm_acts w' l'
  end.

Lemma act_others w a w' n : act w a = Some w' → n ≠ actor a → st w' n = st w n.
Proof.
  assert (Haf : ∀ m r, after w m r = Some w' → n ≠ m → st w' n = st w n).
  { intros m [x s|c s|u] Ha Hne; simplify_eq/=; unfold fupd; by destruct (Z.eqb_spec n m). }
  destruct a as [m i idx|m data path]; cbn [Script.act actor].
  - destruct (air w !! idx) as [p|]; [|done]. cbn [mbind option_bind]. destruct (_ && _); [|done]. apply Haf.
  - destruct (_ && _); [|done]. apply Haf.
Qed.

Lemma calm_acts_steps w l w' :
  unforced w → calm_acts w l = Some w' → nsteps (calm_step envs link) (length l) w w'.
Proof.
  revert w. induction l as [|a l IH]; intros w Hu; simpl; [intros [= <-]; constructor|].
  destruct (act w a) as [w1|] eqn:Ha; [|done]. simpl.
  destruct (Z.eqb_spec (o_flag (st w1 (actor a))) 1) as [|Hf]; [done|].
  assert (Hu1 : unforced w1).
  { intros n. destruct (decide (n = actor a)) as [->|Hne]; [done|]. by rewrite (act_others w a w1 n Ha Hne). }
  intros Hr. econstructor; [split; [by eapply act_step|exact Hu1]|]. by apply IH.
Qed.

(** VM1's messages for VM3 get there in at most two hops. *)
Lemma next_hops_lead_home_witness :
  ∃ L m, Z.of_nat L ≤ 2 ∧ nsteps (forwards envs w_disc "130.245.156.23") L 1 m ∧
         addr_of m = Some "130.245.156.23"%string.
Proof.
  destruct (next_hops_lead_home envs link line_installed 5 start w_disc 1
              (mk_route "130.245.156.23" (mac 2 0) 3 2 0)) as [_ H].
  - exact start_initial.
  - reflexivity.
  - apply (calm_acts_steps start discovery); [intros n; discriminate|]. vm_compute. reflexivity.
  - lia.
  - apply (list_elem_of_lookup_2 _ 2). vm_compute. reflexivity.
  - discriminate.
  - exact H.
Defined.
End line_witness.
