(* ===== verification/Api.v ===== *)
(** The programs on top of the ODR service (Assignment 3/Code/API.c, client.c and
    server.c): the two calls of the interface, which put a message and its parameters
    into one line of text, the time client and the time server. *)

From S2P Require Export Odr.

(** * State of an application process *)

(** What the process does that others can see. *)
Inductive action :=
  | ToOdr (line : string)
  | Printed (line : string).

(** Variables of [main] that [msg_recv] fills and that keep their contents when it
    does not.  At the start they hold anything. *)
Record process := mk_app {
  a_recvmsg : string;
  a_src_addr : string;
  a_src_port : Z;
  a_recv : Z;
  a_send : Z;
  a_acts : list action
}.

Definition put_recvmsg (x : string) (s : process) : process :=
  mk_app x (a_src_addr s) (a_src_port s) (a_recv s) (a_send s) (a_acts s).
Definition put_src_addr (x : string) (s : process) : process :=
  mk_app (a_recvmsg s) x (a_src_port s) (a_recv s) (a_send s) (a_acts s).
Definition put_src_port (x : Z) (s : process) : process :=
  mk_app (a_recvmsg s) (a_src_addr s) x (a_recv s) (a_send s) (a_acts s).
Definition put_recv (x : Z) (s : process) : process :=
  mk_app (a_recvmsg s) (a_src_addr s) (a_src_port s) x (a_send s) (a_acts s).
Definition put_send (x : Z) (s : process) : process :=
  mk_app (a_recvmsg s) (a_src_addr s) (a_src_port s) (a_recv s) x (a_acts s).
Definition put_act (x : action) (s : process) : process :=
  mk_app (a_recvmsg s) (a_src_addr s) (a_src_port s) (a_recv s) (a_send s) (a_acts s ++ [x]).

(** * API.c *)

Section api.
(** Whether the kernel takes a datagram for the path of the ODR service. *)
Context (accepts : string → bool).

(** [sprintf(data, "%s %d %s %d", dst_addr, dst_port, sendmsg, flag)] *)
Definition request_line (dst_addr : string) (dst_port : Z) (sendmsg : string) (flag : Z) : string :=
  dst_addr +:+ String " " (print_d dst_port +:+ String " " (sendmsg +:+ String " " (print_d flag))).

Definition msg_send (dst_addr : string) (dst_port : Z) (sendmsg : string) (flag : Z) : M process unit :=
  data ← strcpy ETH_FRAME_LEN (request_line dst_addr dst_port sendmsg flag);
  if (String.length data =? 0)%nat then exit 1
  else if accepts data then modify (put_act (ToOdr data))
  else exit 1.

(** [dgram] is what [recvfrom] delivers ([None]: it fails), [junk] the contents of the
    array of ETH_FRAME_LEN+1 bytes on the stack, [cap] the size of the caller's array
    for the message. *)
Definition msg_recv (cap : nat) (junk : string) (dgram : option string) : M process unit :=
  match dgram with
  | None => exit 1
  | Some d =>
      text ← of_opt NoTerminator (until_nul (overlay (String.substring 0 ETH_FRAME_LEN d) junk));
      match scan_s text with
      | None => mret tt
      | Some (w, r1) =>
          m ← strcpy cap w;
          modify (put_recvmsg m);;
          match scan_s r1 with
          | None => mret tt
          | Some (w', r2) =>
              a ← strcpy ADDR_LEN w';
              modify (put_src_addr a);;
              match scan_d r2 with
              | None => mret tt
              | Some (p, _) => p' ← int_op p; modify (put_src_port p')
              end
          end
      end
  end.

(** The loop that looks up the node of [src_addr]; [recv] is assigned only on a match. *)
Definition source_node : M process unit :=
  s ← get;
  let index := first_index (streq (a_src_addr s)) vm_addr in
  when (index <? 10)%nat (modify (put_recv (Z.of_nat index + 1))).

(** [snprintf(buf, .., "%.24s\r\n", ctime(&ticks))] *)
Definition time_line (ctime : string) : string :=
  String.substring 0 24 ctime +:+ String "013" (String "010" EmptyString).

(** * server.c *)

(** One turn of the server's loop; [ctime] is the text [ctime] returns. *)
Definition server_turn (junk : string) (dgram : option string) (ctime : string) : M process unit :=
  msg_recv ETH_FRAME_LEN junk dgram;;
  source_node;;
  s ← get;
  dst ← rd vm_addr (a_recv s - 1);
  msg_send dst (a_src_port s) (time_line ctime) 0.

(** * client.c *)

(** What one [select] of the client reports. *)
Inductive select_result :=
  | SelError
  | Timeout
  | Ready (junk : string) (dgram : option string).

(** The loop of the label SELECT over the results of [select]: [true] once a reply
    was handled, [false] while the client still waits. *)
Fixpoint client_wait (ctime : string) (results : list select_result) : M process bool :=
  match results with
  | [] => mret false
  | SelError :: _ => exit 1
  | Timeout :: rest =>
      s ← get;
      dst ← rd vm_addr (a_send s - 1);
      msg_send dst 5000 "HI" 1;;
      client_wait ctime rest
  | Ready junk dgram :: _ =>
      msg_recv (S ETH_FRAME_LEN) junk dgram;;
      source_node;;
      s ← get;
      modify (put_act (Printed (if streq (a_recvmsg s) "HI" then "Routing information is obtained"
                                else time_line ctime)));;
      mret true
  end.

(** One turn of the client's loop.  [scanned] is the result of [scanf("%d", &send)]:
    [None] at the end of input, [Some None] when no number was read. *)
Definition client_turn (scanned : option (option Z)) (ctime : string)
    (results : list select_result) : M process bool :=
  match scanned with
  | None => exit 1
  | Some n =>
      match n with Some v => modify (put_send v) | None => mret tt end;;
      s ← get;
      dst ← rd vm_addr (a_send s - 1);
      msg_send dst 5000 "HI" 0;;
      client_wait ctime results
  end.
End api.

(** [node] of client.c and server.c: the place of the second interface's address. *)
Definition app_node (second_ip : string) : option Z :=
  let index := first_index (streq second_ip) vm_addr in
  if (index <? 10)%nat then Some (Z.of_nat index + 1) else None.

(** * Lemmas *)

(** The line of [msg_send] is read back by the service. *)
Lemma scan_request_line dst port msg flag s :
  is_word dst = true → is_word msg = true → addr_ok dst → (String.length msg < 4096)%nat →
  int_ok port → int_ok flag →
  scan_request (request_line dst port msg flag) s
  = Done tt (set_flag flag (set_message msg (set_dst_port port (set_dst_addr dst s)))).
Proof.
  intros Hd Hm [Hl _] Hml Hp Hf. unfold scan_request, request_line.
  assert (Hi : ∀ x (s : odr), int_ok x → int_op x s = Done x s).
  { intros x s' Hx. unfold int_op, is_int. destruct (Z.leb_spec INT_MIN x), (Z.leb_spec x INT_MAX); try done;
      unfold int_ok in Hx; lia. }
  assert (Hc : ∀ cap w (s : odr), (String.length w < cap)%nat → strcpy cap w s = Done w s).
  { intros cap w s' Hw. unfold strcpy. by destruct (Nat.ltb_spec (String.length w) cap); [|lia]. }
  rewrite scan_s_word by done. cbv beta iota. run_step (Hc ADDR_LEN dst s Hl).
  erewrite bind_Done by reflexivity. rewrite scan_d_space, scan_d_print by done. cbv beta iota.
  run_step (Hi port _ Hp). erewrite bind_Done by reflexivity.
  rewrite scan_s_space, scan_s_word by done. cbv beta iota. run_step (Hc MAXLINE msg _ Hml).
  erewrite bind_Done by reflexivity.
  rewrite scan_d_space, scan_d_print_end. cbv beta iota. run_step (Hi flag _ Hf). done.
Qed.

(** A datagram [d] read into a buffer of [n] bytes that held [junk] is the C string
    [d]: the byte behind it happens to be 0. *)
Definition arrives (n : nat) (d junk : string) : Prop :=
  until_nul (overlay (String.substring 0 n d) junk) = Some d.

(** The line the service hands to a local process. *)
Definition reply_line (msg src : string) (port : Z) : string :=
  msg +:+ " " +:+ src +:+ " " +:+ print_d port.

Lemma app_int_op {St} x (s : St) : int_ok x → int_op x s = Done x s.
Proof.
  intros Hx. unfold int_op, is_int. destruct (Z.leb_spec INT_MIN x), (Z.leb_spec x INT_MAX); try done;
    unfold int_ok in Hx; lia.
Qed.

Lemma msg_recv_run cap junk msg src port s :
  arrives ETH_FRAME_LEN (reply_line msg src port) junk →
  is_word msg = true → is_word src = true → addr_ok src → (String.length msg < cap)%nat → int_ok port →
  msg_recv cap junk (Some (reply_line msg src port)) s
  = Done tt (put_src_port port (put_src_addr src (put_recvmsg msg s))).
Proof.
  intros Ha Hm Hs [Hl _] Hml Hp. unfold msg_recv, arrives in *. rewrite Ha.
  erewrite bind_Done by reflexivity. unfold reply_line. rewrite scan_s_word by done. cbv beta iota.
  run_step (strcpy_run cap msg s Hml). erewrite bind_Done by reflexivity.
  change (" " +:+ src +:+ " " +:+ print_d port) with (String " " (src +:+ String " " (print_d port))).
  rewrite scan_s_space, scan_s_word by done. cbv beta iota.
  run_step (strcpy_run ADDR_LEN src _ Hl). erewrite bind_Done by reflexivity.
  rewrite scan_d_space, scan_d_print_end. cbv beta iota. by run_step (app_int_op port _ Hp).
Qed.


Lemma request_line_length dst port msg flag :
  addr_ok dst → (String.length msg ≤ 1400)%nat → int_ok port → int_ok flag →
  (0 < String.length (request_line dst port msg flag) < ETH_FRAME_LEN)%nat.
Proof.
  intros [Hd _] Hm Hp%length_print_d Hf%length_print_d. unfold request_line, ETH_FRAME_LEN, ADDR_LEN in *.
  rewrite length_str_app. simpl. rewrite length_str_app. simpl. rewrite length_str_app. simpl. lia.
Qed.

Lemma msg_send_run accepts dst port msg flag s :
  (∀ d, accepts d = true) → addr_ok dst → (String.length msg ≤ 1400)%nat → int_ok port → int_ok flag →
  msg_send accepts dst port msg flag s
  = Done tt (put_act (ToOdr (request_line dst port msg flag)) s).
Proof.
  intros Hacc Hd Hm Hp Hf. pose proof (request_line_length dst port msg flag Hd Hm Hp Hf) as [H0 H1].
  unfold msg_send. run_step (strcpy_run _ _ s H1). rewrite Hacc.
  by destruct (Nat.eqb_spec (String.length (request_line dst port msg flag)) 0); [lia|].
Qed.

Lemma vm_addr_at k a {St} (s : St) : vm_addr !! k = Some a → rd vm_addr (Z.of_nat k + 1 - 1) s = Done a s.
Proof. intros Ha. unfold rd, of_opt. by rewrite Z.add_simpl_r, arr_at_nat, Ha. Qed.

Lemma vm_addr_find k a : vm_addr !! k = Some a → first_index (streq a) vm_addr = k.
Proof. intros Ha. do 10 (destruct k as [|k]; [by injection Ha as <-|]). done. Qed.

Lemma vm_addr_fits k a : vm_addr !! k = Some a → (k < 10)%nat ∧ addr_ok a ∧ is_word a = true.
Proof.
  intros Ha. split; [by apply lookup_lt_Some in Ha|].
  assert (H : Forall (λ a, addr_ok a ∧ is_word a = true) vm_addr) by (repeat constructor).
  by eapply Forall_lookup_1 in H.
Qed.

Lemma source_node_run k a s :
  vm_addr !! k = Some a → a_src_addr s = a →
  source_node s = Done tt (put_recv (Z.of_nat k + 1) s).
Proof.
  intros Ha Hs. unfold source_node. erewrite bind_Done by reflexivity. cbv zeta.
  rewrite Hs, (vm_addr_find k a Ha). destruct (vm_addr_fits k a Ha) as [Hk _].
  by destruct (Nat.ltb_spec k 10); [|lia].
Qed.

Lemma time_line_length t : (String.length (time_line t) ≤ 26)%nat.
Proof.
  unfold time_line. rewrite length_str_app. simpl.
  assert (∀ n t, (String.length (String.substring 0 n t) ≤ n)%nat); [|specialize (H 24%nat t); lia].
  intros n. induction n as [|n IH]; intros [|c u]; simpl; [lia..|]. specialize (IH u). lia.
Qed.

(** What one side of the interface writes the other side reads.  The line that
    [msg_send] builds from a destination, a port, a one-word message and a flag gives
    the service back exactly these four values, and the line the service sends to a
    process gives [msg_recv] back the message, its source and its port. *)
Theorem api_round_trip (dst msg src : string) (port flag : Z) (accepts : string → bool) (junk : string)
    (o : odr) (a : process)
    (Hacc : ∀ d, accepts d = true) (Hdst : is_word dst = true ∧ addr_ok dst)
    (Hsrc : is_word src = true ∧ addr_ok src)
    (Hmsg : is_word msg = true ∧ (String.length msg ≤ 1400)%nat) (Hport : int_ok port) (Hflag : int_ok flag)
    (Harr : arrives ETH_FRAME_LEN (reply_line msg src port) junk) :
  (∃ line, msg_send accepts dst port msg flag a = Done tt (put_act (ToOdr line) a) ∧
           scan_request line o
           = Done tt (set_flag flag (set_message msg (set_dst_port port (set_dst_addr dst o))))) ∧
  msg_recv ETH_FRAME_LEN junk (Some (reply_line msg src port)) a
  = Done tt (put_src_port port (put_src_addr src (put_recvmsg msg a))).
Proof.
  destruct Hdst, Hsrc, Hmsg. split.
  - exists (request_line dst port msg flag). split; [by apply msg_send_run|].
    apply scan_request_line; try done. lia.
  - apply msg_recv_run; try done. unfold ETH_FRAME_LEN. lia.
Qed.

(** The server answers the process that asked.  When a request line of node [k]
    arrives, it sends one message, with its local time, to the source address and the
    source port of that request. *)
Theorem server_answers_source (accepts : string → bool) (k : nat) (src msg junk ctime : string) (port : Z) (s : process)
    (Hacc : ∀ d, accepts d = true) (Hk : vm_addr !! k = Some src) (Hport : int_ok port)
    (Hmsg : is_word msg = true ∧ (String.length msg ≤ 1400)%nat)
    (Harr : arrives ETH_FRAME_LEN (reply_line msg src port) junk) :
  ∃ s', server_turn accepts junk (Some (reply_line msg src port)) ctime s = Done tt s' ∧
        a_acts s' = a_acts s ++ [ToOdr (request_line src port (time_line ctime) 0)].
Proof.
  destruct (vm_addr_fits k src Hk) as (Hlt & Haddr & Hword). destruct Hmsg as [Hm Hml].
  unfold server_turn. erewrite bind_Done by (apply msg_recv_run; try done; unfold ETH_FRAME_LEN; lia).
  cbv beta. erewrite bind_Done by by apply (source_node_run k src). cbv beta.
  erewrite bind_Done by reflexivity. cbv beta. erewrite bind_Done by by apply (vm_addr_at k src). cbv beta.
  simpl a_src_port. pose proof (time_line_length ctime).
  rewrite msg_send_run; [|done|done|lia|done|done]. eexists. split; reflexivity.
Qed.

Lemma client_wait_timeouts accepts ctime j results rest s k dst :
  (∀ d, accepts d = true) → vm_addr !! k = Some dst → a_send s = Z.of_nat k + 1 →
  results = repeat Timeout j ++ rest →
  ∃ s', client_wait accepts ctime results s = client_wait accepts ctime rest s' ∧
        a_send s' = a_send s ∧ a_acts s' = a_acts s ++ repeat (ToOdr (request_line dst 5000 "HI" 1)) j.
Proof.
  intros Hacc Hk Hs ->. destruct (vm_addr_fits k dst Hk) as (_ & Haddr & _).
  revert s Hs. induction j as [|j IH]; intros s Hs; cbn [repeat Datatypes.app client_wait].
  - exists s. by rewrite app_nil_r.
  - run_step (eq_refl : get s = Done s s). rewrite Hs.
    erewrite bind_Done by by apply (vm_addr_at k dst). cbv beta.
    erewrite bind_Done by by (apply msg_send_run; try done; simpl; lia). cbv beta.
    destruct (IH (put_act (ToOdr (request_line dst 5000 "HI" 1)) s) Hs) as (s' & -> & Hs' & Ha').
    exists s'. split_and!; [done|by rewrite Hs'|]. rewrite Ha'. simpl. by rewrite <- app_assoc.
Qed.

(** The client asks until it is answered.  It sends its request once without and,
    for every timeout of 3 seconds, once more with the force discovery flag; the first
    datagram that arrives ends the turn with one printed line. *)
Theorem client_retransmits (accepts : string → bool) (k j : nat) (dst ctime msg src junk : string) (port : Z) (s : process)
    (Hacc : ∀ d, accepts d = true) (Hk : vm_addr !! k = Some dst) (Hport : int_ok port)
    (Hmsg : is_word msg = true ∧ (String.length msg ≤ 1400)%nat) (Hsrc : src ∈ vm_addr)
    (Harr : arrives ETH_FRAME_LEN (reply_line msg src port) junk) :
  ∃ s', client_turn accepts (Some (Some (Z.of_nat k + 1))) ctime
          (repeat Timeout j ++ [Ready junk (Some (reply_line msg src port))]) s = Done true s' ∧
        a_acts s' = a_acts s ++ [ToOdr (request_line dst 5000 "HI" 0)]
                      ++ repeat (ToOdr (request_line dst 5000 "HI" 1)) j
                      ++ [Printed (if streq msg "HI" then "Routing information is obtained" else time_line ctime)].
Proof.
  destruct (vm_addr_fits k dst Hk) as (_ & Haddr & _). destruct Hmsg as [Hm Hml].
  apply list_elem_of_lookup in Hsrc as [k' Hk']. destruct (vm_addr_fits k' src Hk') as (_ & Hsrc & Hsw).
  unfold client_turn. erewrite bind_Done by reflexivity. cbv beta. erewrite bind_Done by reflexivity. cbv beta.
  erewrite bind_Done by (simpl a_send; by apply (vm_addr_at k dst)). cbv beta.
  erewrite bind_Done by by (apply msg_send_run; try done; simpl; lia). cbv beta.
  set (s1 := put_act _ _).
  destruct (client_wait_timeouts accepts ctime j _ [Ready junk (Some (reply_line msg src port))] s1 k dst
              Hacc Hk eq_refl eq_refl) as (s2 & -> & Hs2 & Ha2).
  simpl. erewrite bind_Done by (apply msg_recv_run; try done; unfold ETH_FRAME_LEN; lia). cbv beta.
  erewrite bind_Done by by apply (source_node_run k' src). eexists. split; [reflexivity|].
  simpl. rewrite Ha2. simpl. by rewrite <- !app_assoc.
Qed.

(** A character that neither continues nor starts a number or is white space. *)
Definition letter (c : ascii) : bool :=
  negb (is_space c) && negb (Ascii.eqb c "-") && negb (Ascii.eqb c "+") && ends_number (String c EmptyString).

Lemma scan_d_letter c t : letter c = true → scan_d (String " " (String c t)) = None.
Proof.
  unfold letter. intros [[[H1%negb_true_iff H2%negb_true_iff]%andb_true_iff H3%negb_true_iff]%andb_true_iff H4]%andb_true_iff.
  rewrite scan_d_space. unfold scan_d. cbn [skip_space]. rewrite H1, H2, H3. cbn [span_uint].
  destruct (span_uint t) as [d r].
  destruct c as [[][][][][][][][]]; simpl in H4 |- *; done.
Qed.

Lemma time_line_weekday a b c d t :
  ∃ r, time_line (String a (String b (String c (String " " (String d t)))))
       = String a (String b (String c EmptyString)) +:+ String " " (String d r).
Proof. by eexists (String.substring 0 19 t +:+ _). Qed.

(** The time does not survive the interface.  [ctime] starts with the name of the
    day and a space, so of the server's reply the service keeps only the name of the
    day as the message, and reads no flag: the flag keeps the value of an earlier
    request. *)
Theorem server_reply_loses_time (src : string) (port : Z) (a b c d : ascii) (rest : string) (o : odr)
    (Hsrc : src ∈ vm_addr) (Hport : int_ok port)
    (Hday : is_word (String a (String b (String c EmptyString))) = true) (Hmonth : letter d = true) :
  scan_request (request_line src port
                  (time_line (String a (String b (String c (String " " (String d rest)))))) 0) o
  = Done tt (set_message (String a (String b (String c EmptyString))) (set_dst_port port (set_dst_addr src o))).
Proof.
  apply list_elem_of_lookup in Hsrc as [k Hk]. destruct (vm_addr_fits k src Hk) as (_ & [Hl _] & Hw).
  destruct (time_line_weekday a b c d rest) as [r ->]. unfold scan_request, request_line.
  rewrite scan_s_word by done. cbv beta iota. run_step (strcpy_run ADDR_LEN src o Hl).
  erewrite bind_Done by reflexivity. rewrite scan_d_space, scan_d_print by done. cbv beta iota.
  run_step (app_int_op port _ Hport). erewrite bind_Done by reflexivity.
  rewrite str_app_assoc, scan_s_space, scan_s_word by done. cbv beta iota.
  run_step (strcpy_run MAXLINE (String a (String b (String c EmptyString))) _ ltac:(unfold MAXLINE; simpl; lia)).
  erewrite bind_Done by reflexivity.
  change (String " " (String d r) +:+ ?x) with (String " " (String d (r +:+ x))).
  by rewrite scan_d_letter.
Qed.

(** * Witnesses *)

Definition idle : process := mk_app EmptyString EmptyString 0 0 0 [].
Definition ctime_text : string := "Wed Nov 12 10:11:12 2014".
Definition idle_odr : odr := odr_init [] [mk_port 0 EmptyString] EmptyString 0 EmptyString 0 EmptyString.

Lemma api_round_trip_witness :
  ∃ line, scan_request line idle_odr
          = Done tt (set_flag 1 (set_message "HI" (set_dst_port 5000 (set_dst_addr "130.245.156.23" idle_odr)))).
Proof.
  destruct (api_round_trip "130.245.156.23" "HI" "130.245.156.21" 5000 1 (λ _, true) (zeros 1515) idle_odr idle)
    as [(line & _ & Hl) _].
  - done.
  - split; [reflexivity|]. split; [unfold ADDR_LEN; simpl; lia|reflexivity].
  - split; [reflexivity|]. split; [unfold ADDR_LEN; simpl; lia|reflexivity].
  - split; [reflexivity|simpl; lia].
  - unfold int_ok, INT_MIN, INT_MAX. lia.
  - unfold int_ok, INT_MIN, INT_MAX. lia.
  - vm_compute. reflexivity.
  - exists line. exact Hl.
Defined.

Lemma server_answers_source_witness :
  ∃ s', server_turn (λ _, true) (zeros 1515) (Some (reply_line "HI" "130.245.156.21" 6000)) ctime_text idle = Done tt s' ∧
        a_acts s' = [] ++ [ToOdr (request_line "130.245.156.21" 6000 (time_line ctime_text) 0)].
Proof.
  apply (server_answers_source (λ _, true) 0 "130.245.156.21" "HI" (zeros 1515) ctime_text 6000 idle).
  - done.
  - reflexivity.
  - unfold int_ok, INT_MIN, INT_MAX. lia.
  - split; [reflexivity|simpl; lia].
  - vm_compute. reflexivity.
Defined.

Lemma client_retransmits_witness :
  ∃ s', client_turn (λ _, true) (Some (Some 3)) ctime_text
          (repeat Timeout 2 ++ [Ready (zeros 1515) (Some (reply_line "Wed" "130.245.156.23" 5000))]) idle = Done true s' ∧
        length (a_acts s') = 4%nat.
Proof.
  destruct (client_retransmits (λ _, true) 2 2 "130.245.156.23" ctime_text "Wed" "130.245.156.23" (zeros 1515) 5000 idle)
    as (s' & H1 & H2).
  - done.
  - reflexivity.
  - unfold int_ok, INT_MIN, INT_MAX. lia.
  - split; [reflexivity|simpl; lia].
  - apply (list_elem_of_lookup_2 _ 2). reflexivity.
  - vm_compute. reflexivity.
  - exists s'. split; [exact H1|]. rewrite H2. reflexivity.
Defined.

Lemma server_reply_loses_time_witness :
  scan_request (request_line "130.245.156.21" 6000 (time_line ctime_text) 0) idle_odr
  = Done tt (set_message "Wed" (set_dst_port 6000 (set_dst_addr "130.245.156.21" idle_odr))).
Proof.
  apply (server_reply_loses_time "130.245.156.21" 6000 "W" "e" "d" "N" "ov 12 10:11:12 2014" idle_odr).
  - apply (list_elem_of_lookup_2 _ 0). reflexivity.
  - unfold int_ok, INT_MIN, INT_MAX. lia.
  - reflexivity.
  - reflexivity.
Defined.
