(* ===== verification/OdrNode.v ===== *)
(** The handlers of one ODR service (Assignment 3/Code/ODR.c): what each does to the
    routing table and the port table, and what it sends. *)

From S2P Require Export OdrNet Api.

(** * Handlers that only send *)

(** [m] changes nothing but the list of what was handed to the kernel. *)
Definition only_sends {A} (m : M odr A) : Prop :=
  ∀ s, match m s with
       | Done _ s' | Exited _ s' => ∃ evs, s' = set_out (out s ++ evs) s
       | Undefined _ => True
       end.

Lemma only_sends_ret {A} (a : A) : only_sends (mret a).
Proof. intros s. exists []. rewrite app_nil_r. by destruct s. Qed.

Lemma only_sends_bind {A B} (m : M odr A) (k : A → M odr B) :
  only_sends m → (∀ a, only_sends (k a)) → only_sends (m ≫= k).
Proof.
  intros Hm Hk s. specialize (Hm s). unfold mbind, M_bind. destruct (m s) as [a s1|c s1|u]; [|done..].
  destruct Hm as [evs ->]. specialize (Hk a (set_out (out s ++ evs) s)).
  destruct (k a (set_out (out s ++ evs) s)) as [b s2|c s2|u]; [| |done];
    destruct Hk as [evs' ->]; exists (evs ++ evs'); simpl; by rewrite app_assoc.
Qed.

Lemma only_sends_get : only_sends get.
Proof. intros s. exists []. rewrite app_nil_r. by destruct s. Qed.

Lemma only_sends_of_opt {A} u (o : option A) : only_sends (of_opt u o).
Proof. destruct o; [apply only_sends_ret|done]. Qed.

Lemma only_sends_strcpy cap w : only_sends (strcpy cap w).
Proof. unfold strcpy. destruct (_ <? _)%nat; [apply only_sends_ret|done]. Qed.

Lemma only_sends_when b m : only_sends m → only_sends (when b m).
Proof. destruct b; [done|intros _; apply only_sends_ret]. Qed.

Lemma only_sends_if {A} (b : bool) (m1 m2 : M odr A) :
  only_sends m1 → only_sends m2 → only_sends (if b then m1 else m2).
Proof. by destruct b. Qed.

Lemma only_sends_for i n body : (∀ k, only_sends (body k)) → only_sends (for_ i n body).
Proof.
  intros Hb. revert i. induction n as [|n IH]; intros i; simpl; [apply only_sends_ret|].
  apply only_sends_bind; auto.
Qed.

Lemma only_sends_sendto env e : only_sends (sendto env e).
Proof.
  intros s. unfold sendto, get, mbind, M_bind. destruct (send_ok env (out s) e); simpl.
  - by exists [e].
  - exists []. rewrite app_nil_r. by destruct s.
Qed.

Create HintDb only_sends.
#[export] Hint Resolve only_sends_ret only_sends_bind only_sends_get only_sends_of_opt
  only_sends_strcpy only_sends_when only_sends_if only_sends_for only_sends_sendto : only_sends.
#[export] Hint Extern 1 (only_sends (rd _ _)) => apply only_sends_of_opt : only_sends.
#[export] Hint Extern 1 (only_sends (rt_find _)) =>
  (apply only_sends_bind; [apply only_sends_get|intros; apply only_sends_ret]) : only_sends.
#[export] Hint Extern 1 (only_sends (rt_at _)) =>
  (apply only_sends_bind; [apply only_sends_get|intros; apply only_sends_of_opt]) : only_sends.

Lemma only_sends_RREQ env h p r k : only_sends (send_RREQ env h p r k).
Proof. unfold send_RREQ, if_mac. auto with only_sends. Qed.

Lemma only_sends_RREP env i k mac h p r : only_sends (send_RREP env i k mac h p r).
Proof. unfold send_RREP, if_mac. auto 10 with only_sends. Qed.

Lemma only_sends_flood env i h p r : only_sends (flood_except env i h p r).
Proof. unfold flood_except. auto using only_sends_RREQ with only_sends. Qed.

Lemma only_sends_relay env dst ty h p body : only_sends (relay env dst ty h p body).
Proof. unfold relay, if_mac. auto 10 with only_sends. Qed.

Lemma only_sends_reply env : only_sends (local_reply env).
Proof. unfold local_reply, if_mac, my_addr. auto 20 with only_sends. Qed.

Lemma only_sends_request env i k : only_sends (send_request env i k).
Proof. unfold send_request, if_mac, my_addr. auto 20 with only_sends. Qed.

#[export] Hint Resolve only_sends_RREQ only_sends_RREP only_sends_flood only_sends_relay
  only_sends_reply only_sends_request : only_sends.

(** * The routing table entry of a RREQ's source *)

Definition table_ok (s : odr) : Prop := dst_addr <$> routing_table s = vm_addr.

(** What a node learns from a claim about the entry's destination. *)
Definition learn (i : nat) (mac : list Z) (disc hops : Z) (e : routing_entry) : routing_entry :=
  if better_route disc hops i e
  then mk_route (dst_addr e) mac (Z.of_nat i + 3) (s32 (ntohl hops + 1)) (broadcast_id e)
  else e.

Definition seen (r : RREQ) (e : routing_entry) : routing_entry :=
  mk_route (dst_addr e) (next_hop e) (outgoing_if e) (hop_cnt e) (s32 (ntohl (q_broadcast_id r))).

Definition with_entry (k : nat) (e : routing_entry) (s : odr) : odr :=
  set_rt (<[k := e]> (routing_table s)) s.

Lemma with_entry_id k e s : routing_table s !! k = Some e → with_entry k e s = s.
Proof. intros He. unfold with_entry. rewrite list_insert_id by done. by destruct s. Qed.

Lemma with_entry_twice k e e' s : with_entry k e' (with_entry k e s) = with_entry k e' s.
Proof. unfold with_entry. simpl. by rewrite list_insert_insert_eq. Qed.

Lemma with_entry_lookup k e e0 s :
  routing_table s !! k = Some e0 → routing_table (with_entry k e s) !! k = Some e.
Proof. intros He. simpl. apply list_lookup_insert_eq. by eapply lookup_lt_Some. Qed.

Lemma with_entry_out k e evs s :
  with_entry k e (set_out evs s) = set_out evs (with_entry k e s).
Proof. done. Qed.

Lemma update_route_run i mac addr disc hops s k :
  table_ok s → vm_addr !! k = Some addr →
  ∃ e, routing_table s !! k = Some e ∧ dst_addr e = addr ∧
       update_route i mac addr disc hops s
       = Done (k, better_route disc hops i e) (with_entry k (learn i mac disc hops e) s).
Proof.
  intros Ht Ha. destruct (rt_entry _ _ _ Ht Ha) as (Hidx & e & He & Hd).
  exists e. split_and!; [done..|]. unfold update_route, learn. run_step (rt_find_run addr s).
  rewrite Hidx. erewrite bind_Done by reflexivity. cbv beta. rewrite He.
  destruct (better_route disc hops i e).
  - erewrite bind_Done by (apply rt_set_run; by eapply lookup_lt_Some). done.
  - by rewrite with_entry_id.
Qed.

Lemma record_bid_run k e r s :
  routing_table s !! k = Some e → record_bid k r s = Done tt (with_entry k (seen r e) s).
Proof.
  intros He. unfold record_bid. run_step (rt_at_run _ _ _ He).
  apply rt_set_run. by eapply lookup_lt_Some.
Qed.

Lemma my_addr_run env (s : odr) :
  1 ≤ node env ≤ 10 → ∃ me, vm_addr !! Z.to_nat (node env - 1) = Some me ∧ my_addr env s = Done me s.
Proof.
  intros Hn. destruct (lookup_lt_is_Some_2 vm_addr (Z.to_nat (node env - 1))) as [me Hme].
  { change (length vm_addr) with 10%nat. lia. }
  exists me. split; [done|]. unfold my_addr, rd, of_opt.
  assert (arr_at vm_addr (node env - 1) = Some me) as ->; [|done]. apply arr_at_Some. split; [lia|done].
Qed.

(** Sending, then recording the id, then sending again. *)
Lemma send_record_send k e r (m1 m2 : M odr unit) s a s' :
  only_sends m1 → only_sends m2 → routing_table s !! k = Some e →
  (m1;; record_bid k r;; m2) s = Done a s' →
  ∃ evs, s' = set_out (out s ++ evs) (with_entry k (seen r e) s).
Proof.
  intros H1 H2 He Hrun. unfold mbind, M_bind in Hrun. specialize (H1 s).
  destruct (m1 s) as [[] s1|c s1|u]; [|done..]. destruct H1 as [evs ->].
  rewrite (record_bid_run k e r) in Hrun by done. rewrite with_entry_out in Hrun.
  specialize (H2 (set_out (out s ++ evs) (with_entry k (seen r e) s))). rewrite Hrun in H2.
  destruct H2 as [evs' ->]. exists (evs ++ evs'). simpl. by rewrite app_assoc.
Qed.

Lemma seq_skip {St} (m1 m2 : M St unit) s : (m1;; m2;; mret tt) s = (m1;; m2) s.
Proof.
  unfold mbind, M_bind. destruct (m1 s) as [a s1|c s1|u]; [|done..]. by destruct (m2 s1) as [[] s2|c s2|u].
Qed.

Lemma handle_RREQ_run env i h r s k s' :
  table_ok s → vm_addr !! k = Some (q_src_addr r) →
  handle_RREQ env i h r s = Done tt s' →
  ∃ e evs, routing_table s !! k = Some e ∧ dst_addr e = q_src_addr r ∧
    s' = set_out (out s ++ evs)
           (with_entry k (seen r (learn i (h_src_mac h) (q_discovery r) (q_hop_cnt r) e)) s).
Proof.
  intros Ht Ha Hrun.
  destruct (update_route_run i (h_src_mac h) (q_src_addr r) (q_discovery r) (q_hop_cnt r) s k Ht Ha)
    as (e & He & Hd & Hup).
  exists e. set (e1 := learn _ _ _ _ _) in *. set (s1 := with_entry k e1 s) in *.
  assert (He1 : routing_table s1 !! k = Some e1) by by eapply with_entry_lookup.
  unfold handle_RREQ in Hrun. rewrite (bind_Done _ _ _ _ _ Hup) in Hrun. cbv beta iota in Hrun.
  assert (Hgoal : ∀ (m1 m2 : M odr unit) a, only_sends m1 → only_sends m2 →
            (m1;; record_bid k r;; m2) s1 = Done a s' →
            ∃ evs, routing_table s !! k = Some e ∧ dst_addr e = q_src_addr r ∧
                   s' = set_out (out s ++ evs) (with_entry k (seen r e1) s)).
  { intros m1 m2 a Hm1 Hm2 Hr. destruct (send_record_send k e1 r m1 m2 s1 a s' Hm1 Hm2 He1 Hr) as [evs ->].
    exists evs. unfold s1. by rewrite with_entry_twice. }
  unfold mbind at 1, M_bind at 1 in Hrun. destruct (my_addr env s1) as [me s2|c s2|u] eqn:Hme; [|done..].
  assert (s2 = s1) as ->.
  { unfold my_addr, rd, of_opt in Hme. destruct (arr_at _ _); [|done]. by injection Hme as _ <-. }
  destruct (streq (q_dst_addr r) me).
  - unfold RREQ_at_destination in Hrun. rewrite (bind_Done _ _ _ _ _ (rt_at_run _ _ _ He1)) in Hrun.
    rewrite <- seq_skip in Hrun. eapply Hgoal; [| |exact Hrun]; auto with only_sends.
  - rewrite (bind_Done _ _ _ _ _ (eq_refl : get s1 = Done s1 s1)) in Hrun. cbv zeta in Hrun.
    destruct (routing_table s1 !! first_index _ _) as [ce|].
    + unfold RREQ_with_route in Hrun. rewrite (bind_Done _ _ _ _ _ (rt_at_run _ _ _ He1)) in Hrun.
      eapply Hgoal; [| |exact Hrun]; auto with only_sends.
    + unfold RREQ_without_route in Hrun. rewrite (bind_Done _ _ _ _ _ (rt_at_run _ _ _ He1)) in Hrun.
      rewrite <- seq_skip in Hrun. eapply Hgoal; [| |exact Hrun]; auto with only_sends.
Qed.

Lemma better_route_learnt i mac r e :
  ntohl (q_discovery r) ≠ 1 →
  better_route (q_discovery r) (q_hop_cnt r) i (seen r (learn i mac (q_discovery r) (q_hop_cnt r) e)) = false.
Proof.
  intros Hd. unfold learn. destruct (better_route (q_discovery r) (q_hop_cnt r) i e) eqn:Hb.
  - unfold better_route. cbn -[Z.eqb]. rewrite u32_s32.
    destruct (Z.eqb_spec (ntohl (q_discovery r)) 1); [done|].
    destruct (Z.eqb_spec (Z.of_nat i + 3) 0); [lia|]. rewrite Z.eqb_refl.
    destruct (Z.gtb_spec (u32 (ntohl (q_hop_cnt r) + 1)) (u32 (ntohl (q_hop_cnt r) + 1))); [lia|].
    by rewrite Z.eqb_refl.
  - exact Hb.
Qed.

Lemma learn_active i mac disc hops e : outgoing_if (learn i mac disc hops e) ≠ 0.
Proof.
  unfold learn. destruct (better_route disc hops i e) eqn:Hb; simpl; [lia|].
  intros Ho. unfold better_route in Hb. rewrite Ho in Hb. cbn in Hb. by rewrite orb_true_r in Hb.
Qed.

Lemma learn_shorter i mac disc hops e :
  ntohl disc ≠ 1 → outgoing_if e ≠ 0 → u32 (hop_cnt (learn i mac disc hops e)) ≤ u32 (hop_cnt e).
Proof.
  intros Hd Ho. unfold learn. destruct (better_route disc hops i e) eqn:Hb; [|lia].
  unfold better_route in Hb. cbn -[u32 s32]. rewrite u32_s32.
  destruct (Z.eqb_spec (ntohl disc) 1); [done|]. destruct (Z.eqb_spec (outgoing_if e) 0); [done|].
  destruct (Z.gtb_spec (u32 (hop_cnt e)) (u32 (ntohl hops + 1))); [lia|].
  destruct (Z.eqb_spec (u32 (hop_cnt e)) (u32 (ntohl hops + 1))); [lia|done].
Qed.

Lemma learn_addr i mac disc hops e : dst_addr (learn i mac disc hops e) = dst_addr e.
Proof. unfold learn. by destruct (better_route disc hops i e). Qed.

Lemma with_entry_table k e e0 s :
  table_ok s → routing_table s !! k = Some e0 → dst_addr e = dst_addr e0 → table_ok (with_entry k e s).
Proof.
  unfold table_ok. intros Ht He Hd. simpl. rewrite list_fmap_insert, Hd, Ht.
  apply list_insert_id. by rewrite <- Ht, list_lookup_fmap, He.
Qed.

(** C33: A RREQ teaches the node about its source and about nothing else.  Exactly the
    source's entry of the routing table changes; it is active afterwards, records the
    broadcast id of the request, and unless a rediscovery was forced an active route
    is only ever replaced by one that is not longer.  The port table stays. *)
Theorem RREQ_learns_route (env : odr_env) (i : nat) (h : hdr) (r : RREQ) (k : nat) (s s' : odr)
    (Ht : table_ok s) (Ha : vm_addr !! k = Some (q_src_addr r))
    (Hrun : handle_RREQ env i h r s = Done tt s') :
  table_ok s' ∧ port_table s' = port_table s ∧
  (∀ j, j ≠ k → routing_table s' !! j = routing_table s !! j) ∧
  ∃ e e', routing_table s !! k = Some e ∧ routing_table s' !! k = Some e' ∧ outgoing_if e' ≠ 0 ∧
          broadcast_id e' = s32 (ntohl (q_broadcast_id r)) ∧
          (ntohl (q_discovery r) ≠ 1 → outgoing_if e ≠ 0 → u32 (hop_cnt e') ≤ u32 (hop_cnt e)).
Proof.
  destruct (handle_RREQ_run env i h r s k s' Ht Ha Hrun) as (e & evs & He & Hd & ->).
  set (e' := seen _ _). assert (Hd' : dst_addr e' = dst_addr e) by apply learn_addr.
  split_and!; [by apply (with_entry_table k e' e s)|done| |].
  - intros j Hj. simpl. by rewrite list_lookup_insert_ne.
  - exists e, e'. split_and!; [done|by apply (with_entry_lookup k e' e s)|apply learn_active|done|].
    apply learn_shorter.
Qed.

(** C16: A second copy of a RREQ changes nothing.  After a request that does not force a
    rediscovery was handled, handling the same request again from the same neighbour
    on the same interface leaves the state as it is and sends nothing. *)
Theorem duplicate_RREQ_ignored (env : odr_env) (i : nat) (h : hdr) (r : RREQ) (k : nat) (s s' : odr)
    (Hn : 1 ≤ node env ≤ 10) (Ht : table_ok s) (Ha : vm_addr !! k = Some (q_src_addr r))
    (Hd : ntohl (q_discovery r) ≠ 1) (Hrun : handle_RREQ env i h r s = Done tt s') :
  handle_RREQ env i h r s' = Done tt s'.
Proof.
  destruct (handle_RREQ_run env i h r s k s' Ht Ha Hrun) as (e & evs & He & Hde & ->).
  set (e' := seen _ _). set (s' := set_out _ _).
  assert (He' : routing_table s' !! k = Some e') by by apply (with_entry_lookup k e' e s).
  assert (Ht' : table_ok s') by (apply (with_entry_table k e' e s); [done..|apply learn_addr]).
  destruct (update_route_run i (h_src_mac h) (q_src_addr r) (q_discovery r) (q_hop_cnt r) s' k Ht' Ha)
    as (e1 & He1 & _ & Hup). rewrite He' in He1. injection He1 as <-.
  assert (Hb : better_route (q_discovery r) (q_hop_cnt r) i e' = false) by by apply better_route_learnt.
  unfold learn in Hup. rewrite Hb, (with_entry_id _ _ _ He') in Hup.
  assert (Hold : newer e' r false = false).
  { unfold newer. simpl. rewrite u32_s32, andb_false_r, orb_false_r. apply Z.ltb_ge.
    pose proof (ntohl_range (q_broadcast_id r)). rewrite u32_small; lia. }
  assert (Hrec : record_bid k r s' = Done tt s').
  { rewrite (record_bid_run k e') by done. f_equal. by apply with_entry_id. }
  destruct (my_addr_run env s' Hn) as (me & _ & Hme).
  unfold handle_RREQ. run_step Hup. run_step Hme. destruct (streq (q_dst_addr r) me).
  - unfold RREQ_at_destination. run_step (rt_at_run _ _ _ He'). by rewrite Hold, andb_false_r.
  - erewrite bind_Done by reflexivity. cbv beta zeta.
    destruct (routing_table s' !! first_index _ _) as [ce|].
    + unfold RREQ_with_route. run_step (rt_at_run _ _ _ He'). rewrite Hold, andb_false_r.
      erewrite bind_Done by reflexivity. by run_step Hrec.
    + unfold RREQ_without_route. run_step (rt_at_run _ _ _ He'). by rewrite Hold.
Qed.

(** * Flooding *)

(** The routing request [r] as it leaves on interface [k]. *)
Definition RREQ_event (env : odr_env) (h p : Z) (r : RREQ) (k : nat) : option event :=
  src ← if_addr env !! k;
  Some (SendFrame k (enc_hdr (mk_hdr bcast_mac src (htons PROTO) (htonl_int 0)) ++ enc_RREQ r)
          (mk_ll (Z.of_nat k + 3) h p 6 (bcast_mac ++ [0; 0]))).

Definition flood_events (env : odr_env) (h p : Z) (r : RREQ) (ks : list nat) : list event :=
  omap (RREQ_event env h p r) ks.

Lemma set_out_out evs evs' (s : odr) : set_out evs (set_out evs' s) = set_out evs s.
Proof. done. Qed.

Lemma send_RREQ_run env h p r k (s : odr) :
  (∀ evs e, send_ok env evs e = true) → (k < length (if_addr env))%nat →
  send_RREQ env h p r k s = Done tt (set_out (out s ++ flood_events env h p r [k]) s).
Proof.
  intros Hok Hk. destruct (lookup_lt_is_Some_2 _ _ Hk) as [a Ha].
  unfold send_RREQ, flood_events, RREQ_event, if_mac, rd. simpl. rewrite arr_at_nat, Ha. simpl.
  erewrite bind_Done by reflexivity. unfold sendto. erewrite bind_Done by reflexivity. cbv beta.
  by rewrite Hok.
Qed.

Lemma flood_run env h p r (skip : nat → bool) n i (s : odr) :
  (∀ evs e, send_ok env evs e = true) → (i + n ≤ length (if_addr env))%nat →
  for_ i n (λ k, if skip k then mret tt else send_RREQ env h p r k) s
  = Done tt (set_out (out s ++ flood_events env h p r (filter (λ k, skip k = false) (seq i n))) s).
Proof.
  intros Hok. revert i s. induction n as [|n IH]; intros i s Hle; cbn [for_ seq].
  - simpl. rewrite app_nil_r. by destruct s.
  - destruct (skip i) eqn:Hs.
    + rewrite filter_cons_False by congruence. erewrite bind_Done by reflexivity.
      rewrite IH by lia. done.
    + rewrite filter_cons_True by done. erewrite bind_Done by (apply send_RREQ_run; [done|lia]).
      rewrite IH by lia. rewrite set_out_out. cbn [out set_out]. rewrite <- app_assoc.
      unfold flood_events. by rewrite <- omap_app.
Qed.

Lemma filter_all_true {A} (P : A → bool) (l : list A) :
  (∀ x, x ∈ l → P x = false) → filter (λ x, P x = false) l = l.
Proof.
  induction l as [|x l IH]; intros H; [done|]. rewrite filter_cons_True by (apply H; left).
  f_equal. apply IH. intros y Hy. apply H. by right.
Qed.

(** The interfaces other than [index]. *)
Definition others (env : odr_env) (index : nat) : list nat :=
  filter (λ k, (k =? index)%nat = false) (seq 0 (length (if_addr env))).

(** Forced rediscovery has no memory.  At a node that is not its destination, a RREQ
    with the discovery flag is sent out again on every other interface with the hop
    count increased, also when the node handled this very request before: the
    recorded broadcast id may be equal to the one of the request. *)
Theorem forced_RREQ_refloods (env : odr_env) (i : nat) (h : hdr) (r : RREQ) (k : nat) (e : routing_entry) (s : odr)
    (Hn : 1 ≤ node env ≤ 10) (Hok : ∀ evs e, send_ok env evs e = true)
    (Ht : table_ok s) (Ha : vm_addr !! k = Some (q_src_addr r)) (He : routing_table s !! k = Some e)
    (Hd : ntohl (q_discovery r) = 1) (Hme : vm_addr !! Z.to_nat (node env - 1) ≠ Some (q_dst_addr r))
    (Hid : u32 (broadcast_id e) ≤ ntohl (q_broadcast_id r)) :
  ∃ s', handle_RREQ env i h r s = Done tt s' ∧
        out s' = out s ++ flood_events env ARPHRD_ETHER PACKET_BROADCAST (bump_hops r (q_RREP_sent r)) (others env i).
Proof.
  destruct (update_route_run i (h_src_mac h) (q_src_addr r) (q_discovery r) (q_hop_cnt r) s k Ht Ha)
    as (e0 & He0 & _ & Hup). rewrite He in He0. injection He0 as <-.
  assert (Hb : better_route (q_discovery r) (q_hop_cnt r) i e = true) by (unfold better_route; by rewrite Hd).
  rewrite Hb in Hup. set (e1 := learn _ _ _ _ _) in *. set (s1 := with_entry k e1 s) in *.
  assert (He1 : routing_table s1 !! k = Some e1) by by eapply with_entry_lookup.
  assert (Hbid : broadcast_id e1 = broadcast_id e) by (unfold e1, learn; by rewrite Hb).
  destruct (my_addr_run env s1 Hn) as (me & Hmea & Hmer).
  unfold handle_RREQ. run_step Hup. run_step Hmer.
  destruct (streq (q_dst_addr r) me) eqn:Hstr; [apply streq_eq in Hstr; congruence|].
  erewrite bind_Done by reflexivity. cbv beta zeta.
  assert (Hnone : routing_table s1 !! first_index (λ e, streq (dst_addr e) (q_dst_addr r)
      && (negb (outgoing_if e =? 0) && (ntohl (q_discovery r) =? 0))) (routing_table s1) = None).
  { apply lookup_ge_None_2. erewrite (proj2 (first_index_not _ (routing_table s1))); [done|].
    intros x _. rewrite Hd. cbn. by rewrite !andb_false_r. }
  rewrite Hnone. unfold RREQ_without_route. run_step (rt_at_run _ _ _ He1).
  assert (Hnew : newer e1 r true = true).
  { unfold newer. rewrite Hbid. destruct (Z.ltb_spec (u32 (broadcast_id e)) (ntohl (q_broadcast_id r))); [done|].
    destruct (Z.eqb_spec (u32 (broadcast_id e)) (ntohl (q_broadcast_id r))); [done|lia]. }
  rewrite Hnew. unfold when, flood_except.
  erewrite bind_Done by by apply (flood_run env _ _ _ (λ k, (k =? i)%nat)).
  erewrite record_bid_run by exact He1. eexists. split; [reflexivity|]. done.
Qed.

(** * The port table *)

(** The table after the clients with these paths came, in this order. *)
Definition client_ports (clients : list string) : list port_entry :=
  mk_port 5000 "240411" :: imap (λ i p, mk_port (6000 + Z.of_nat i) p) clients.

Record ports_are (clients : list string) (s : odr) : Prop := {
  pa_table : ∃ rest, port_table s = client_ports clients ++ rest;
  pa_size : length (port_table s) = 10%nat;
  pa_cnt : port_cnt s = Z.of_nat (length clients);
  pa_port : o_port s = 6000 + Z.of_nat (length clients);
  pa_paths : NoDup ("240411"%string :: clients)
}.

Definition ports (s : odr) : Z * list port_entry * Z := (o_port s, port_table s, port_cnt s).

Definition keeps_ports {A} (m : M odr A) : Prop :=
  ∀ s, match m s with Done _ s' | Exited _ s' => ports s' = ports s | Undefined _ => True end.

Lemma keeps_ports_sends {A} (m : M odr A) : only_sends m → keeps_ports m.
Proof. intros H s. specialize (H s). by destruct (m s); [destruct H as [? ->]..|]. Qed.

Lemma keeps_ports_bind {A B} (m : M odr A) (k : A → M odr B) :
  keeps_ports m → (∀ a, keeps_ports (k a)) → keeps_ports (m ≫= k).
Proof.
  intros Hm Hk s. specialize (Hm s). unfold mbind, M_bind. destruct (m s) as [a s1|c s1|u]; [|done..].
  specialize (Hk a s1). rewrite Hm in Hk. done.
Qed.

Lemma keeps_ports_modify f : (∀ s, ports (f s) = ports s) → keeps_ports (modify f).
Proof. intros H s. apply H. Qed.

Lemma keeps_ports_exit {A} c : keeps_ports (exit (A:=A) c).
Proof. done. Qed.

Lemma keeps_ports_of_opt {A} u (o : option A) : keeps_ports (of_opt u o).
Proof. apply keeps_ports_sends, only_sends_of_opt. Qed.

Lemma keeps_ports_ret {A} (a : A) : keeps_ports (mret a).
Proof. done. Qed.

Lemma keeps_ports_when b m : keeps_ports m → keeps_ports (when b m).
Proof. by destruct b. Qed.

Lemma keeps_ports_int x : keeps_ports (int_op x).
Proof. unfold int_op. by destruct (is_int x). Qed.

Create HintDb keeps_ports.
#[export] Hint Resolve keeps_ports_bind keeps_ports_exit keeps_ports_of_opt keeps_ports_ret
  keeps_ports_when keeps_ports_int : keeps_ports.
#[export] Hint Extern 1 (keeps_ports (modify _)) => (apply keeps_ports_modify; done) : keeps_ports.
#[export] Hint Extern 1 (keeps_ports get) => (apply keeps_ports_sends, only_sends_get) : keeps_ports.
#[export] Hint Extern 1 (keeps_ports (rd _ _)) => apply keeps_ports_of_opt : keeps_ports.
#[export] Hint Extern 1 (keeps_ports (strcpy _ _)) => (apply keeps_ports_sends, only_sends_strcpy) : keeps_ports.
#[export] Hint Extern 2 (keeps_ports (rt_find _)) => (apply keeps_ports_sends; auto with only_sends) : keeps_ports.
#[export] Hint Extern 2 (keeps_ports (rt_at _)) => (apply keeps_ports_sends; auto with only_sends) : keeps_ports.
#[export] Hint Extern 2 (keeps_ports (rt_set _ _)) => unfold rt_set : keeps_ports.

Lemma keeps_ports_scan msg : keeps_ports (scan_request msg).
Proof.
  unfold scan_request. destruct (scan_s msg) as [[w r1]|]; [|done].
  apply keeps_ports_bind; [auto with keeps_ports|intros a].
  apply keeps_ports_bind; [auto with keeps_ports|intros _].
  destruct (scan_d r1) as [[p r2]|]; [|done].
  apply keeps_ports_bind; [auto with keeps_ports|intros p'].
  apply keeps_ports_bind; [auto with keeps_ports|intros _].
  destruct (scan_s r2) as [[m r3]|]; [|done].
  apply keeps_ports_bind; [auto with keeps_ports|intros m'].
  apply keeps_ports_bind; [auto with keeps_ports|intros _].
  destruct (scan_d r3) as [[f r4]|]; [|done]. auto with keeps_ports.
Qed.

Lemma keeps_ports_update i mac a d hp : keeps_ports (update_route i mac a d hp).
Proof.
  unfold update_route. apply keeps_ports_bind; [auto with keeps_ports|intros k].
  apply keeps_ports_bind; [auto with keeps_ports|intros s].
  destruct (routing_table s !! k) as [e|]; [|done].
  destruct (better_route d hp i e); [|done]. unfold rt_set. auto 10 with keeps_ports.
Qed.

Lemma keeps_ports_record k r : keeps_ports (record_bid k r).
Proof. unfold record_bid, rt_set. auto 10 with keeps_ports. Qed.

Lemma keeps_ports_find p : keeps_ports (find_local p).
Proof.
  unfold find_local. apply keeps_ports_bind; [auto with keeps_ports|intros s].
  destruct (ports_in_use s !! _); auto with keeps_ports.
Qed.

Lemma keeps_ports_RREQ env i h r : keeps_ports (handle_RREQ env i h r).
Proof.
  unfold handle_RREQ, my_addr. apply keeps_ports_bind; [apply keeps_ports_update|intros [k eff]].
  apply keeps_ports_bind; [auto with keeps_ports|intros me]. destruct (streq _ me).
  - unfold RREQ_at_destination. apply keeps_ports_bind; [auto with keeps_ports|intros e].
    apply keeps_ports_bind; [apply keeps_ports_sends; auto with only_sends|intros _; apply keeps_ports_record].
  - apply keeps_ports_bind; [auto with keeps_ports|intros s]. cbv zeta.
    destruct (routing_table s !! _) as [ce|].
    + unfold RREQ_with_route. apply keeps_ports_bind; [auto with keeps_ports|intros e].
      apply keeps_ports_bind; [apply keeps_ports_sends; auto with only_sends|intros _].
      apply keeps_ports_bind; [apply keeps_ports_record|intros _].
      apply keeps_ports_sends; auto with only_sends.
    + unfold RREQ_without_route. apply keeps_ports_bind; [auto with keeps_ports|intros e].
      apply keeps_ports_bind; [apply keeps_ports_sends; auto with only_sends|intros _; apply keeps_ports_record].
Qed.

Lemma keeps_ports_frame env i f : keeps_ports (handle_frame env i f).
Proof.
  destruct f as [bs|]; [|done]. unfold handle_frame. cbv zeta. destruct (_ =? 0); [|destruct (_ =? 1)].
  - apply keeps_ports_bind; [auto with keeps_ports|intros r; apply keeps_ports_RREQ].
  - apply keeps_ports_bind; [auto with keeps_ports|intros r]. unfold handle_RREP, my_addr.
    apply keeps_ports_bind; [apply keeps_ports_update|intros _].
    apply keeps_ports_bind; [auto with keeps_ports|intros me]. destruct (streq _ me).
    + apply keeps_ports_bind; [apply keeps_ports_find|intros p; apply keeps_ports_sends, only_sends_sendto].
    + apply keeps_ports_sends, only_sends_relay.
  - apply keeps_ports_bind; [auto with keeps_ports|intros l]. unfold handle_payload, my_addr.
    apply keeps_ports_bind; [auto with keeps_ports|intros me]. destruct (streq _ me).
    + apply keeps_ports_bind; [auto with keeps_ports|intros m].
      apply keeps_ports_bind; [apply keeps_ports_find|intros p; apply keeps_ports_sends, only_sends_sendto].
    + apply keeps_ports_sends, only_sends_relay.
Qed.

Lemma keeps_ports_interfaces env ready i : keeps_ports (handle_interfaces env i ready).
Proof.
  revert i. induction ready as [|[f|] ready IH]; intros i; [done| |apply IH].
  apply keeps_ports_bind; [apply keeps_ports_frame|auto].
Qed.

Lemma keeps_ports_discover env i : keeps_ports (discover env i).
Proof.
  unfold discover, my_addr. auto 20 using keeps_ports_sends with keeps_ports only_sends.
Qed.

Lemma ports_are_keep clients s s' : ports s' = ports s → ports_are clients s → ports_are clients s'.
Proof.
  unfold ports. intros [= Hp Ht Hc] [H1 H2 H3 H4 H5]. split; by rewrite ?Ht, ?Hc, ?Hp.
Qed.

Lemma length_client_ports clients : length (client_ports clients) = S (length clients).
Proof. simpl. by rewrite length_imap. Qed.

Lemma ports_in_use_are clients s : ports_are clients s → ports_in_use s = client_ports clients.
Proof.
  intros [[rest Ht] _ Hc _ _]. unfold ports_in_use. rewrite Ht, Hc. apply take_app_length'.
  rewrite length_client_ports. lia.
Qed.

Lemma ports_are_few clients s : ports_are clients s → (length clients ≤ 9)%nat.
Proof.
  intros [[rest Ht] Hl _ _ _]. rewrite Ht, length_app, length_client_ports in Hl. lia.
Qed.

Lemma client_ports_snoc clients path :
  client_ports (clients ++ [path]) = client_ports clients ++ [mk_port (6000 + Z.of_nat (length clients)) path].
Proof. unfold client_ports. rewrite imap_app. simpl. by rewrite Nat.add_0_r. Qed.

Lemma client_paths clients : sun_path <$> client_ports clients = "240411"%string :: clients.
Proof.
  unfold client_ports. simpl. f_equal. apply list_eq. intros i. rewrite list_lookup_fmap, list_lookup_imap.
  by destruct (clients !! i).
Qed.

(** Where the search of the port table ends: at the path's place, or behind the
    last entry in use. *)
Lemma port_search_new clients path :
  path ∉ "240411"%string :: clients →
  first_index (λ pe, streq (sun_path pe) path) (client_ports clients) = S (length clients).
Proof.
  intros Hnew. rewrite <- length_client_ports. apply first_index_not. intros pe Hpe.
  apply streq_neq. intros <-. apply Hnew. rewrite <- client_paths. by apply list_elem_of_fmap_2.
Qed.

Lemma port_search_old clients path i :
  NoDup ("240411"%string :: clients) → ("240411"%string :: clients) !! i = Some path →
  first_index (λ pe, streq (sun_path pe) path) (client_ports clients) = i.
Proof.
  intros Hnd Hi. rewrite <- client_paths, list_lookup_fmap in Hi.
  destruct (client_ports clients !! i) as [pe|] eqn:Hpe; [|done]. injection Hi as Hi.
  eapply first_index_unique; [exact Hpe|by apply streq_eq|].
  intros j pe' Hj Hd%streq_eq. rewrite <- client_paths in Hnd.
  eapply (NoDup_lookup _ j i path Hnd); rewrite list_lookup_fmap, ?Hj, ?Hpe; simpl; congruence.
Qed.

Lemma add_client_run clients path s :
  ports_are clients s → localaddr s = path → (String.length path < ADDR_LEN)%nat →
  path ∉ "240411"%string :: clients → (length clients < 9)%nat →
  ∃ s', add_client s = Done tt s' ∧ ports_are (clients ++ [path]) s' ∧
        s' = set_ports (o_port s') (port_table s') (port_cnt s') s.
Proof.
  intros Hp Hl Hlen Hnew Hlt. pose proof Hp as [[rest Ht] Hsz Hc Hpo Hnd].
  unfold add_client. erewrite bind_Done by reflexivity. cbv beta. rewrite Hc, Hpo.
  erewrite bind_Done by (apply app_int_op; unfold int_ok, INT_MIN, INT_MAX; lia). cbv beta.
  erewrite bind_Done by (apply app_int_op; unfold int_ok, INT_MIN, INT_MAX; lia). cbv beta.
  rewrite Hl. erewrite bind_Done by by apply strcpy_run. cbv beta.
  replace (Z.of_nat (length clients) + 1) with (Z.of_nat (S (length clients))) by lia.
  rewrite arr_set_nat by lia. erewrite bind_Done by reflexivity. cbv beta.
  eexists. split; [reflexivity|]. split; [|done].
  destruct rest as [|pe rest].
  { rewrite Ht, app_nil_r, length_client_ports in Hsz. lia. }
  split; cbn [port_table set_ports port_cnt o_port].
  - exists rest. rewrite Ht, client_ports_snoc, <- length_client_ports.
    rewrite insert_app_r_alt, Nat.sub_diag by lia. simpl. by rewrite <- app_assoc.
  - by rewrite length_insert.
  - rewrite length_app. simpl. lia.
  - rewrite length_app. simpl. lia.
  - change (NoDup (("240411"%string :: clients) ++ [path])). apply NoDup_app. split; [done|].
    split; [|apply NoDup_singleton]. intros x Hx ->%list_elem_of_singleton. done.
Qed.

(** [localaddr.sun_path] as a string. *)
Lemma until_nul_path buf path : until_nul buf = Some path → c_path buf = path.
Proof.
  revert path. induction buf as [|c buf IH]; intros path; cbn; [done|].
  destruct (Ascii.eqb c Ascii.zero); [by intros [= <-]|].
  destruct (until_nul buf) as [p|] eqn:Hp; [|done]. intros [= <-]. by rewrite (IH p).
Qed.

(** The datagram of a process bound to [raw] is taken for one of [path]. *)
Definition reads_path (raw path : string) (s : odr) : Prop := until_nul (local_buf (recv_addr raw s)) = Some path.

Lemma overlay_whole p b r :
  (String.length p < String.length b)%nat → ∃ r', overlay (p +:+ String Ascii.zero r) b = p +:+ String Ascii.zero r'.
Proof.
  revert b. induction p as [|c p IH]; intros [|c' b] Hl; simpl in Hl; try lia; [by eexists|].
  destruct (IH b ltac:(lia)) as [r' Hr]. exists r'. exact (f_equal (String c) Hr).
Qed.

(** It is taken for what it is when no address the service saw before was shorter. *)
Lemma reads_whole path s :
  no_nul path = true → (String.length path < String.length (local_buf s))%nat → (String.length path + 3 ≤ un_len s)%nat →
  reads_path path path s.
Proof.
  intros Hn Hl Hu. unfold reads_path, recv_addr. cbn [local_buf set_un_len set_local].
  rewrite substring_all by (rewrite length_str_app; cbn; lia).
  destruct (overlay_whole path (local_buf s) EmptyString Hl) as [r Hr]. unfold NUL. rewrite Hr. by apply until_nul_nul.
Qed.

Lemma scan_keeps_local msg s s' : scan_request msg s = Done tt s' → localaddr s' = localaddr s.
Proof.
  unfold scan_request, mbind, M_bind, strcpy, int_op, undef, modify, mret, M_ret. intros H. unfold localaddr.
  repeat first [progress simplify_eq/=|case_match]; done.
Qed.

Lemma overlong_client s p t : (ADDR_LEN ≤ String.length (localaddr s))%nat → add_client s ≠ Done p t.
Proof.
  intros Hl. unfold add_client, mbind, M_bind, get, int_op, strcpy, undef, of_opt, mret, M_ret.
  repeat first [progress simplify_eq/=|case_match]; try done.
  all: match goal with H : (_ <? _)%nat = true |- _ => apply Nat.ltb_lt in H; lia end.
Qed.

(** A request of the process with [path]: it is or becomes the client with this path,
    and the rest of the request starts with its place in the table. *)
Lemma local_request_clients env clients path s s' :
  ports_are clients s → localaddr s = path → path ≠ "240411"%string →
  local_request env (first_index (λ pe, streq (sun_path pe) path) (client_ports clients)) s = Done tt s' →
  ∃ more, (length more ≤ 1)%nat ∧ ports_are (clients ++ more) s'.
Proof.
  intros Hp Hl Hne. unfold local_request. rewrite bind_get.
  assert (Hrest : ∀ index cl s1, ports_are cl s1 →
    (number ← rt_find (o_dst_addr s);
     s ← get;
     let route_exist :=
       match routing_table s !! number with
       | Some e => negb (outgoing_if e =? 0) && (o_flag s =? 0)
       | None => false
       end in
     if route_exist then send_request env index number else discover env index) s1 = Done tt s' →
    ports_are cl s').
  { intros index cl s1 Hc Hrun. rewrite (bind_Done _ _ _ _ _ (rt_find_run _ _)) in Hrun.
    rewrite bind_get in Hrun. cbv zeta in Hrun.
    destruct (match _ with Some _ => _ | None => _ end).
    - pose proof (keeps_ports_sends _ (only_sends_request env index (first_index (λ e, streq (dst_addr e) (o_dst_addr s)) (routing_table s1))) s1) as Hk.
      rewrite Hrun in Hk. by eapply ports_are_keep.
    - pose proof (keeps_ports_discover env index s1) as Hk. rewrite Hrun in Hk. by eapply ports_are_keep. }
  rewrite (pa_cnt _ _ Hp).
  destruct (decide (path ∈ "240411"%string :: clients)) as [Hin|Hnew].
  - apply list_elem_of_lookup in Hin as [i Hi].
    rewrite (port_search_old clients path i (pa_paths _ _ Hp) Hi).
    apply lookup_lt_Some in Hi. simpl in Hi.
    destruct (Z.eqb_spec (Z.of_nat i) (Z.of_nat (length clients) + 1)); [lia|].
    rewrite (bind_Done _ _ _ _ _ (eq_refl : when false add_client s = Done tt s)). intros Hrun.
    exists []. rewrite app_nil_r. split; [simpl; lia|]. by eapply Hrest.
  - rewrite (port_search_new clients path Hnew).
    destruct (Z.eqb_spec (Z.of_nat (S (length clients))) (Z.of_nat (length clients) + 1)); [|lia].
    intros Hrun. unfold mbind at 1, M_bind at 1, when in Hrun.
    destruct (add_client s) as [[] s1|c s1|u] eqn:Hadd; [|done..].
    assert (Hlen : (String.length path < ADDR_LEN)%nat).
    { destruct (Nat.lt_ge_cases (String.length path) ADDR_LEN); [done|].
      subst path. by destruct (overlong_client s tt s1 H). }
    destruct (decide (length clients < 9)%nat) as [Hlt|Hge].
    + destruct (add_client_run clients path s Hp Hl Hlen Hnew Hlt) as (s2 & Hs2 & Hp2 & _).
      rewrite Hadd in Hs2. injection Hs2 as <-. exists [path]. split; [simpl; lia|]. by eapply Hrest.
    + exfalso. pose proof (ports_are_few _ _ Hp). destruct Hp as [_ Hsz Hc _ _].
      assert (Hfull : ∀ x, arr_set (port_table s) (port_cnt s + 1) x = None)
        by (intros x; apply arr_set_None; rewrite Hsz, Hc; lia).
      unfold add_client, mbind, M_bind, get, int_op, strcpy, undef, mret, M_ret in Hadd.
      rewrite Hl in Hadd. destruct (is_int (port_cnt s + 1)); [|done].
      destruct (is_int (o_port s + 1)); [|done]. destruct (_ <? _)%nat; [|done].
      by rewrite Hfull in Hadd.
Qed.

(** The port table is stable.  It holds the server under port 5000 and the clients in
    the order in which they came under ports 6000, 6001, ..., no path twice; one turn
    of the event loop adds at most one client and changes no entry in use. *)
Theorem client_ports_stable (env : odr_env) (unix : option (option (string * string)))
    (ready : list (option (option (list Z)))) (clients : list string) (s s' : odr)
    (Hp : ports_are clients s) (Hrun : odr_iteration env unix ready s = Done tt s') :
  ∃ more, (length more ≤ 1)%nat ∧ ports_are (clients ++ more) s'.
Proof.
  unfold odr_iteration, mbind, M_bind in Hrun.
  destruct (match unix with Some d => handle_local env d | None => mret tt end s) as [[] s1|c s1|u] eqn:Hl; [|done..].
  pose proof (keeps_ports_interfaces env ready 0 s1) as Hk. rewrite Hrun in Hk.
  assert (∃ more, (length more ≤ 1)%nat ∧ ports_are (clients ++ more) s1) as (more & Hm & Hmore).
  2: { exists more. split; [done|]. by eapply ports_are_keep. }
  destruct unix as [[[data path]|]|]; [|done|].
  2: { injection Hl as <-. exists []. rewrite app_nil_r. split; [simpl; lia|done]. }
  unfold handle_local in Hl.
  rewrite !bind_modify, bind_get in Hl.
  set (s2 := recv_addr path _) in *. assert (Hp2 : ports_are clients s2) by by eapply (ports_are_keep _ s).
  destruct (until_nul (local_buf s2)) as [seen|] eqn:Hseen; [|done].
  change (of_opt NoTerminator (Some seen)) with (mret (M:=M odr) seen) in Hl. rewrite bind_ret in Hl.
  assert (Hls : localaddr s2 = seen) by by apply until_nul_path.
  unfold mbind, M_bind in Hl. destruct (of_opt NoTerminator _ s2) as [msg s3|c s3|u] eqn:Ho; [|done..].
  assert (s3 = s2) as -> by (unfold of_opt in Ho; destruct (until_nul (recvmsg s2)); [by injection Ho as _ ->|done]).
  pose proof (keeps_ports_scan msg s2) as Hsc. destruct (scan_request msg s2) as [[] s3|c s3|u] eqn:Hs3; [|done..].
  rewrite (ports_in_use_are clients s2 Hp2) in Hl.
  assert (Hp3 : ports_are clients s3) by by eapply ports_are_keep. cbv zeta in Hl.
  destruct (Nat.eqb_spec (first_index (λ pe, streq (sun_path pe) seen) (client_ports clients)) 0) as [_|Hne].
  { pose proof (keeps_ports_sends _ (only_sends_reply env) s3) as Hr. rewrite Hl in Hr.
    exists []. rewrite app_nil_r. split; [simpl; lia|]. by eapply ports_are_keep. }
  assert (Hl3 : localaddr s3 = seen) by (by rewrite (scan_keeps_local _ _ _ Hs3)).
  eapply local_request_clients; [done|done| |exact Hl].
  intros Heq. apply Hne. by rewrite Heq.
Qed.

(** * Local requests *)

(** The state in which a request line of the process bound to [raw] is dispatched. *)
Definition scanned (dst : string) (p : Z) (msg : string) (flag : Z) (data raw : string) (s : odr) : odr :=
  set_flag flag (set_message msg (set_dst_port p (set_dst_addr dst
    (recv_addr raw (set_recvmsg (overlay (String.substring 0 MAXLINE data) (recvmsg s)) s))))).

Record request_ok (dst : string) (p : Z) (msg : string) (flag : Z) (path : string) (s : odr) : Prop := {
  rq_dst : is_word dst = true ∧ addr_ok dst;
  rq_msg : is_word msg = true ∧ (String.length msg < MESSAGE_LEN)%nat;
  rq_int : int_ok p ∧ int_ok flag;
  rq_path : (String.length path < ADDR_LEN)%nat;
  rq_arrives : arrives MAXLINE (request_line dst p msg flag) (recvmsg s)
}.

Lemma handle_local_run env dst p msg flag raw path clients s :
  request_ok dst p msg flag path s → reads_path raw path s → ports_are clients s →
  handle_local env (Some (request_line dst p msg flag, raw)) s
  = let index := first_index (λ pe, streq (sun_path pe) path) (client_ports clients) in
    (if (index =? 0)%nat then local_reply env else local_request env index)
      (scanned dst p msg flag (request_line dst p msg flag) raw s).
Proof.
  intros [[Hd Hda] [Hm Hml] [Hp Hf] _ Ha] Hread Hports. unfold handle_local, arrives in *.
  rewrite !bind_modify, bind_get. set (s1 := recv_addr raw _).
  assert (Hb : until_nul (local_buf s1) = Some path) by exact Hread. rewrite Hb.
  change (of_opt NoTerminator (Some path)) with (mret (M:=M odr) path). rewrite bind_ret.
  cbn [recvmsg s1 recv_addr set_recvmsg set_local set_un_len]. rewrite Ha.
  change (of_opt NoTerminator (Some ?x)) with (mret (M:=M odr) x). rewrite bind_ret.
  erewrite bind_Done by (apply scan_request_line; try done; unfold MESSAGE_LEN in Hml; lia). cbv beta zeta.
  assert (Hp1 : ports_are clients s1) by by apply (ports_are_keep _ s).
  by rewrite (ports_in_use_are _ _ Hp1).
Qed.

(** There is room for nine clients.  The request of a tenth one writes behind the end
    of the port table. *)
Theorem tenth_client_overflows (env : odr_env) (dst msg raw path : string) (p flag : Z)
    (clients : list string) (s : odr)
    (Hp : ports_are clients s) (Hread : reads_path raw path s) (Hnine : length clients = 9%nat) (Hnew : path ∉ "240411"%string :: clients)
    (Hreq : request_ok dst p msg flag path s) :
  handle_local env (Some (request_line dst p msg flag, raw)) s = Undefined OutOfBounds.
Proof.
  rewrite (handle_local_run env dst p msg flag raw path clients s Hreq Hread Hp).
  rewrite (port_search_new clients path Hnew). set (s1 := scanned _ _ _ _ _ _ _). cbn [Nat.eqb].
  assert (Hp1 : ports_are clients s1) by by apply (ports_are_keep _ s).
  unfold local_request. rewrite bind_get. destruct Hp1 as [_ Hsz Hc Hpo _]. rewrite Hc, Hnine.
  change (Z.of_nat 10 =? Z.of_nat 9 + 1) with true. unfold when, add_client.
  unfold mbind at 1, M_bind at 1. rewrite bind_get, Hc, Hpo, Hnine.
  erewrite bind_Done by (apply app_int_op; unfold int_ok, INT_MIN, INT_MAX; lia). cbv beta.
  erewrite bind_Done by (apply app_int_op; unfold int_ok, INT_MIN, INT_MAX; lia). cbv beta.
  assert (Hl1 : localaddr s1 = path) by (by apply until_nul_path). rewrite Hl1.
  erewrite bind_Done by (apply strcpy_run, (rq_path _ _ _ _ _ _ Hreq)). cbv beta.
  rewrite (proj2 (arr_set_None (port_table s1) (Z.of_nat 9 + 1) _)) by (rewrite Hsz; lia). done.
Qed.

(** The place of a client in the port table, and the table with the client in it. *)
Definition client_index (clients : list string) (path : string) : nat :=
  S (first_index (streq path) clients).
Definition with_client (clients : list string) (path : string) : list string :=
  if decide (path ∈ clients) then clients else clients ++ [path].
Definition client_port (clients : list string) (path : string) : Z :=
  6000 + Z.of_nat (first_index (streq path) clients).

Lemma streq_sym a b : streq a b = streq b a.
Proof. apply String.eqb_sym. Qed.

Lemma client_search clients path :
  path ≠ "240411"%string →
  first_index (λ pe, streq (sun_path pe) path) (client_ports clients) = client_index clients path.
Proof.
  intros Hne. rewrite <- (list_fmap_id clients) at 2. unfold client_index.
  assert (H : ∀ l, first_index (λ pe, streq (sun_path pe) path) l = first_index (streq path) (sun_path <$> l)).
  { induction l as [|pe l IH]; simpl; [done|]. rewrite (streq_sym path), IH. done. }
  rewrite H, client_paths. cbn [first_index]. rewrite list_fmap_id.
  assert (streq path "240411" = false) as -> by by apply streq_neq. done.
Qed.

(** Registration: the client is found or added, and its port can be read. *)
Lemma register_run clients path s :
  ports_are clients s → localaddr s = path → path ≠ "240411"%string →
  (String.length path < ADDR_LEN)%nat → (path ∈ clients ∨ (length clients < 9)%nat) →
  ∃ s', when (Z.of_nat (client_index clients path) =? port_cnt s + 1) add_client s = Done tt s' ∧
        ports_are (with_client clients path) s' ∧
        s' = set_ports (o_port s') (port_table s') (port_cnt s') s ∧
        (∃ pe, arr_at (port_table s') (Z.of_nat (client_index clients path)) = Some pe ∧
               port pe = client_port clients path).
Proof.
  intros Hp Hl Hne Hlen Hroom. rewrite (pa_cnt _ _ Hp). unfold client_index, with_client, client_port.
  assert (Hentry : ∀ cl s1 i q, ports_are cl s1 → cl !! i = Some q →
            ∃ pe, arr_at (port_table s1) (Z.of_nat (S i)) = Some pe ∧ port pe = 6000 + Z.of_nat i).
  { intros cl s1 i q [[rest ->] _ _ _ _] Hi. exists (mk_port (6000 + Z.of_nat i) q). split; [|done].
    rewrite arr_at_nat. apply lookup_app_l_Some. unfold client_ports. simpl.
    by rewrite list_lookup_imap, Hi. }
  destruct (decide (path ∈ clients)) as [Hin|Hnew].
  - assert (Hlt : (first_index (streq path) clients < length clients)%nat)
      by (eapply first_index_lt; [exact Hin|apply streq_refl]).
    destruct (first_index_lookup _ _ Hlt) as (q & Hq & _).
    destruct (Z.eqb_spec (Z.of_nat (S (first_index (streq path) clients))) (Z.of_nat (length clients) + 1)); [lia|].
    exists s. split_and!; [done|done|by destruct s|by eapply Hentry].
  - assert (Hidx : first_index (streq path) clients = length clients).
    { apply first_index_not. intros x Hx. apply streq_neq. by intros <-. }
    rewrite Hidx. destruct (Z.eqb_spec (Z.of_nat (S (length clients))) (Z.of_nat (length clients) + 1)); [|lia].
    destruct Hroom as [|Hroom]; [done|].
    destruct (add_client_run clients path s Hp Hl Hlen) as (s' & Hs' & Hp' & Heq); [set_solver|done|].
    exists s'. split_and!; [done|done|done|]. eapply (Hentry _ _ _ path Hp').
    by rewrite lookup_app_r, Nat.sub_diag by lia.
Qed.

Section request.
Context (env : odr_env) (dst msg raw path me : string) (p flag : Z) (clients : list string) (k : nat)
  (e : routing_entry) (s : odr).
Context (Hsend : ∀ evs ev, send_ok env evs ev = true).
Context (Hnode : 1 ≤ node env ≤ 10) (Hme : vm_addr !! Z.to_nat (node env - 1) = Some me).
Context (Ht : table_ok s) (Hk : vm_addr !! k = Some dst) (He : routing_table s !! k = Some e).
Context (Hports : ports_are clients s) (Hreq : request_ok dst p msg flag path s).
Context (Hread : reads_path raw path s).
Context (Hpath : path ≠ "240411"%string) (Hroom : path ∈ clients ∨ (length clients < 9)%nat).

Lemma my_addr_done (s1 : odr) : my_addr env s1 = Done me s1.
Proof. destruct (my_addr_run env s1 Hnode) as (me' & Hme' & ->). congruence. Qed.

Lemma vm_fits i a : vm_addr !! i = Some a → (String.length a < ADDR_LEN)%nat.
Proof. intros Ha. by destruct (vm_addr_ok _ _ Ha). Qed.

(** Registration and one payload. *)
Lemma request_sent_run (src : list Z) (Hflag : flag = 0) (Hout : outgoing_if e ≠ 0)
    (Hsrc : arr_at (if_addr env) (outgoing_if e - 3) = Some src) :
  ∃ s', handle_local env (Some (request_line dst p msg flag, raw)) s = Done tt s' ∧
    ports_are (with_client clients path) s' ∧ routing_table s' = routing_table s ∧
    out s' = out s ++ [SendFrame (Z.to_nat (outgoing_if e - 3))
      (payload_frame e src (mk_payload me dst (htonl_int (client_port clients path)) (htonl_int 5000)
        (htonl_int 0) (htonl_int 4096) (enc_str MESSAGE_LEN msg)))
      (unicast (outgoing_if e) (next_hop e))].
Proof.
  rewrite (handle_local_run env dst p msg flag raw path clients s Hreq Hread Hports).
  rewrite (client_search clients path Hpath). set (s1 := scanned _ _ _ _ _ _ _). cbn [Nat.eqb client_index].
  fold (client_index clients path).
  assert (Hp1 : ports_are clients s1) by by apply (ports_are_keep _ s).
  destruct (register_run clients path s1 Hp1 (until_nul_path _ _ Hread) Hpath (rq_path _ _ _ _ _ _ Hreq) Hroom)
    as (s2 & Hrun & Hp2 & Hs2 & pe & Hpe & Hport).
  unfold local_request. rewrite bind_get. run_step Hrun.
  run_step (rt_find_run dst s2).
  assert (Hrt : routing_table s2 = routing_table s) by by rewrite Hs2.
  destruct (rt_entry (routing_table s2) k dst) as (Hidx & _); [by rewrite Hrt|done|].
  rewrite Hidx, bind_get. cbv zeta. rewrite Hrt, He.
  assert (Hfl : o_flag s2 = 0) by (rewrite Hs2; exact Hflag). rewrite Hfl.
  destruct (Z.eqb_spec (outgoing_if e) 0); [done|]. cbn [negb andb Z.eqb].
  unfold send_request. rewrite bind_get. rewrite (bind_Done _ _ _ _ _ (rt_at_run k e s2 ltac:(by rewrite Hrt))).
  assert (Hif : if_mac env (outgoing_if e - 3) s2 = Done src s2) by (unfold if_mac, rd; by rewrite Hsrc).
  run_step Hif. rewrite (bind_Done _ _ _ _ _ (my_addr_done s2)).
  run_step (strcpy_run ADDR_LEN me s2 (vm_fits _ _ Hme)).
  assert (Hd2 : o_dst_addr s2 = dst) by by rewrite Hs2. rewrite Hd2.
  run_step (strcpy_run ADDR_LEN dst s2 (vm_fits _ _ Hk)).
  assert (Hrd : rd (port_table s2) (Z.of_nat (client_index clients path)) s2 = Done pe s2)
    by (unfold rd; by rewrite Hpe). run_step Hrd.
  assert (Hm2 : o_message s2 = msg) by by rewrite Hs2. rewrite Hm2.
  run_step (strcpy_run MESSAGE_LEN msg s2 (proj2 (rq_msg _ _ _ _ _ _ Hreq))). cbv zeta.
  unfold sendto. rewrite bind_get, Hsend, Hport. eexists. split; [reflexivity|].
  split_and!; [by apply (ports_are_keep _ s2)|done|]. cbn [out set_out]. by rewrite Hs2.
Qed.


End request.

(** * Replies *)

Lemma ports_in_use_range clients s pe :
  ports_are clients s → pe ∈ ports_in_use s → 5000 ≤ port pe ≤ 6008.
Proof.
  intros Hp. pose proof (ports_are_few _ _ Hp). rewrite (ports_in_use_are _ _ Hp).
  intros [->|Hin]%elem_of_cons; [simpl; lia|].
  apply list_elem_of_lookup in Hin as [i Hi]. rewrite list_lookup_imap in Hi.
  destruct (clients !! i) as [q|] eqn:Hq; [|done]. injection Hi as <-. apply lookup_lt_Some in Hq. simpl. lia.
Qed.

(** A port number that was converted to network order twice matches no entry. *)
Lemma find_local_twice clients s x :
  ports_are clients s → 1 ≤ x < 65536 → find_local (htonl_int (htonl_int x)) s = Done (localaddr s) s.
Proof.
  intros Hp Hx. unfold find_local. rewrite bind_get. cbv zeta.
  assert (Hnone : first_index (λ pe, u32 (port pe) =? ntohl (htonl_int (htonl_int x))) (ports_in_use s)
                  = length (ports_in_use s)).
  { apply first_index_not. intros pe Hpe. pose proof (ports_in_use_range _ _ _ Hp Hpe).
    rewrite ntohl_htonl_int. unfold htonl_int. rewrite u32_s32.
    pose proof (htonl_port x Hx). pose proof (htonl_range x).
    rewrite !u32_small by lia. apply Z.eqb_neq. lia. }
  rewrite Hnone, lookup_ge_None_2 by done. done.
Qed.

(** A reply goes to the process that spoke last.  The destination of a RREQ converts
    the source port, which is in network order already, once more; the RREP it sends
    back therefore matches no port of the port table, and the asking node hands the
    reply to the path of the latest local datagram, whichever client it came from. *)
Theorem RREP_goes_to_last_sender (env : odr_env) (i : nat) (h : hdr) (r : RREP) (pe : port_entry)
    (clients : list string) (s : odr)
    (Hsend : ∀ evs ev, send_ok env evs ev = true) (Hn : 1 ≤ node env ≤ 10)
    (Hme : vm_addr !! Z.to_nat (node env - 1) = Some (p_dst_addr r))
    (Ht : table_ok s) (Hsrc : p_src_addr r ∈ vm_addr) (Hports : ports_are clients s)
    (Hpe : pe ∈ ports_in_use s) (Hport : p_dst_port r = htonl_int (htonl_int (port pe))) :
  ∃ s', handle_RREP env i h r s = Done tt s' ∧
        out s' = out s ++ [SendLocal ("HI " +:+ p_src_addr r +:+ " " +:+ print_d 5000) (localaddr s)].
Proof.
  apply list_elem_of_lookup in Hsrc as [k Hk].
  destruct (update_route_run i (h_src_mac h) (p_src_addr r) (p_discovery r) (p_hop_cnt r) s k Ht Hk)
    as (e & _ & _ & Hup).
  pose proof (ports_in_use_range _ _ _ Hports Hpe).
  set (s1 := with_entry _ _ _) in Hup.
  assert (Hp1 : ports_are clients s1) by by apply (ports_are_keep _ s).
  destruct (my_addr_run env s1 Hn) as (me & Hme' & Hmer).
  unfold handle_RREP. run_step Hup. run_step Hmer.
  assert (streq (p_dst_addr r) me = true) as -> by (apply streq_eq; congruence).
  rewrite Hport, (bind_Done _ _ _ _ _ (find_local_twice clients s1 (port pe) Hp1 ltac:(lia))).
  unfold sendto. rewrite bind_get, Hsend. eexists. split; [reflexivity|]. done.
Qed.

(** A reply of the local server to a node without a route is undefined: the source
    hardware address is read from [if_addr[-3]]. *)
Theorem server_reply_without_route (env : odr_env) (dst msg : string) (p flag : Z) (k : nat)
    (e : routing_entry) (clients : list string) (s : odr)
    (Ht : table_ok s) (Hk : vm_addr !! k = Some dst) (He : routing_table s !! k = Some e)
    (Hout : outgoing_if e = 0) (Hports : ports_are clients s)
    (Hreq : request_ok dst p msg flag "240411" s) (Hread : reads_path "240411" "240411" s) :
  handle_local env (Some (request_line dst p msg flag, "240411"%string)) s = Undefined OutOfBounds.
Proof.
  rewrite (handle_local_run env dst p msg flag "240411" "240411" clients s Hreq Hread Hports).
  change (first_index (λ pe, streq (sun_path pe) "240411") (client_ports clients)) with 0%nat. cbn [Nat.eqb].
  set (s1 := scanned _ _ _ _ _ _ _).
  unfold local_reply. rewrite bind_get. run_step (rt_find_run dst s1).
  destruct (rt_entry (routing_table s1) k dst) as (Hidx & _); [done|done|].
  rewrite Hidx. rewrite (bind_Done _ _ _ _ _ (rt_at_run k e s1 He)). rewrite Hout.
  done.
Qed.

(** * Witnesses *)

Definition env2 : odr_env := mk_env 2 [[2; 0; 0; 0; 2; 0]; [2; 0; 0; 0; 2; 1]] (λ _ _, true).
Definition blank_entry : routing_entry := mk_route EmptyString zero_mac 0 0 0.
Definition fresh : odr := odr_init (repeat blank_entry 10) (repeat (mk_port 0 EmptyString) 10)
  EmptyString 0 EmptyString 0 (zeros 4097).
Definition header1 : hdr := mk_hdr bcast_mac [2; 0; 0; 0; 1; 0] (htons PROTO) 0.
Definition RREQ13 (disc : Z) : RREQ :=
  mk_RREQ "130.245.156.21" "130.245.156.23" (htonl_int 6000) (htonl_int 1) 0 0 (htonl_int disc).
Definition result {A} (s : odr) (r : res odr A) : odr := match r with Done _ s' => s' | _ => s end.
Definition fresh_RREQ (disc : Z) : odr := result fresh (handle_RREQ env2 0 header1 (RREQ13 disc) fresh).

Lemma fresh_table : table_ok fresh.
Proof. reflexivity. Qed.

Lemma fresh_ports : ports_are [] fresh.
Proof.
  split; try reflexivity; [by exists (repeat (mk_port 0 EmptyString) 9)|apply NoDup_singleton].
Qed.

Lemma RREQ_learns_route_witness :
  ∃ e', routing_table (fresh_RREQ 0) !! 0%nat = Some e' ∧ outgoing_if e' ≠ 0.
Proof.
  destruct (RREQ_learns_route env2 0 header1 (RREQ13 0) 0 fresh (fresh_RREQ 0))
    as (_ & _ & _ & e & e' & _ & H1 & H2 & _).
  - reflexivity.
  - reflexivity.
  - vm_compute. reflexivity.
  - exists e'. split; [exact H1|exact H2].
Defined.

Lemma duplicate_RREQ_ignored_witness :
  handle_RREQ env2 0 header1 (RREQ13 0) (fresh_RREQ 0) = Done tt (fresh_RREQ 0).
Proof.
  apply (duplicate_RREQ_ignored env2 0 header1 (RREQ13 0) 0 fresh (fresh_RREQ 0)).
  - simpl. lia.
  - reflexivity.
  - reflexivity.
  - vm_compute. discriminate.
  - vm_compute. reflexivity.
Defined.

Lemma forced_RREQ_refloods_witness :
  ∃ s', handle_RREQ env2 0 header1 (RREQ13 1) (fresh_RREQ 1) = Done tt s' ∧
        length (out s') = 2%nat.
Proof.
  destruct (forced_RREQ_refloods env2 0 header1 (RREQ13 1) 0
              (mk_route "130.245.156.21" [2; 0; 0; 0; 1; 0] 3 1 1) (fresh_RREQ 1)) as (s' & H1 & H2).
  - simpl. lia.
  - reflexivity.
  - vm_compute. reflexivity.
  - reflexivity.
  - vm_compute. reflexivity.
  - vm_compute. reflexivity.
  - vm_compute. discriminate.
  - vm_compute. discriminate.
  - exists s'. split; [exact H1|]. rewrite H2. vm_compute. reflexivity.
Defined.

(** Nine clients and their paths. *)
Definition nine : list string := ["c1"; "c2"; "c3"; "c4"; "c5"; "c6"; "c7"; "c8"; "c9"]%string.
Definition full : odr := set_ports 6009 (client_ports nine) 9 fresh.

Lemma full_ports : ports_are nine full.
Proof.
  split; try reflexivity; [by exists []|]. apply (bool_decide_unpack _). vm_compute. exact I.
Qed.

Lemma request_ok_HI flag path s :
  (String.length path < ADDR_LEN)%nat → int_ok flag →
  arrives MAXLINE (request_line "130.245.156.23" 5000 "HI" flag) (recvmsg s) →
  request_ok "130.245.156.23" 5000 "HI" flag path s.
Proof.
  intros Hp Hf Ha. split; [|split; [done|unfold MESSAGE_LEN; simpl; lia]| |done..].
  - split; [done|]. split; [unfold ADDR_LEN; simpl; lia|done].
  - split; [unfold int_ok, INT_MIN, INT_MAX; lia|done].
Qed.

Lemma client_ports_stable_witness :
  ∃ more, (length more ≤ 1)%nat ∧
    ports_are ([] ++ more) (result fresh (odr_iteration env2
      (Some (Some (request_line "130.245.156.23" 5000 "HI" 0, "tempA"%string))) [] fresh)).
Proof.
  apply (client_ports_stable env2 (Some (Some (request_line "130.245.156.23" 5000 "HI" 0, "tempA"%string)))
           [] [] fresh).
  - apply fresh_ports.
  - vm_compute. reflexivity.
Defined.

Lemma tenth_client_overflows_witness :
  handle_local env2 (Some (request_line "130.245.156.23" 5000 "HI" 0, "c10"%string)) full
  = Undefined OutOfBounds.
Proof.
  apply (tenth_client_overflows env2 "130.245.156.23" "HI" "c10" "c10" 5000 0 nine full).
  - apply full_ports.
  - vm_compute. reflexivity.
  - reflexivity.
  - apply (bool_decide_unpack _). vm_compute. exact I.
  - apply request_ok_HI; [unfold ADDR_LEN; simpl; lia|unfold int_ok, INT_MIN, INT_MAX; lia|].
    vm_compute. reflexivity.
Defined.

(** A node with a route to VM3. *)
Definition routed : odr :=
  with_entry 2 (mk_route "130.245.156.23" [2; 0; 0; 0; 3; 0] 4 1 0) fresh.

Lemma routed_request flag : int_ok flag → arrives MAXLINE (request_line "130.245.156.23" 5000 "HI" flag) (zeros 4097) →
  request_ok "130.245.156.23" 5000 "HI" flag "tempA" routed.
Proof. intros. apply request_ok_HI; [unfold ADDR_LEN; simpl; lia|done|done]. Qed.



(** Two clients asked, the second one last; the reply is for the first. *)
Definition two_clients : odr :=
  recv_addr "tempB" (set_ports 6002 (client_ports ["tempA"; "tempB"]%string ++ repeat (mk_port 0 EmptyString) 7) 2 fresh).

Lemma RREP_goes_to_last_sender_witness :
  ∃ s', handle_RREP env2 1 header1 (mk_RREP "130.245.156.23" "130.245.156.22"
          (htonl_int (htonl_int 6000)) 0 0) two_clients = Done tt s' ∧
        out s' = [SendLocal "HI 130.245.156.23 5000" "tempB"].
Proof.
  destruct (RREP_goes_to_last_sender env2 1 header1 (mk_RREP "130.245.156.23" "130.245.156.22"
              (htonl_int (htonl_int 6000)) 0 0) (mk_port 6000 "tempA") ["tempA"; "tempB"]%string two_clients)
    as (s' & H1 & H2).
  - reflexivity.
  - simpl. lia.
  - reflexivity.
  - reflexivity.
  - apply (list_elem_of_lookup_2 _ 2). reflexivity.
  - split; try reflexivity; [by exists (repeat (mk_port 0 EmptyString) 7)|].
    apply (bool_decide_unpack _). vm_compute. exact I.
  - apply (list_elem_of_lookup_2 _ 1). reflexivity.
  - reflexivity.
  - exists s'. split; [exact H1|]. rewrite H2. reflexivity.
Defined.

Lemma server_reply_without_route_witness :
  handle_local env2 (Some (request_line "130.245.156.23" 5000 "HI" 0, "240411"%string)) fresh
  = Undefined OutOfBounds.
Proof.
  apply (server_reply_without_route env2 "130.245.156.23" "HI" 5000 0 2
           (mk_route "130.245.156.23" zero_mac 0 0 0) [] fresh).
  - reflexivity.
  - reflexivity.
  - reflexivity.
  - reflexivity.
  - apply fresh_ports.
  - apply request_ok_HI; [unfold ADDR_LEN; simpl; lia|unfold int_ok, INT_MIN, INT_MAX; lia|].
    vm_compute. reflexivity.
  - vm_compute. reflexivity.
Defined.

(** [un_len] is not set back: after a datagram of the server, whose path has six characters,
    only seven characters of the path of a client are stored.  The port table has a path
    to which nobody is bound. *)
Theorem client_path_cut :
  ∃ s', handle_local env2 (Some (request_line "130.245.156.23" 5000 "HI" 0, "temp.abcdef"%string))
          (recv_addr "240411" routed) = Done tt s' ∧
        port_table s' !! 1%nat = Some (mk_port 6000 "temp.ab").
Proof. eexists. split; vm_compute; reflexivity. Qed.
