(* ===== verification/OdrDeliver.v ===== *)
(** Delivery of messages over the ODR services of a network (Assignment 3/Code/ODR.c):
    what is sent along a route is handed to the process it is for, after one step per
    hop; and a network in which a route cannot deliver. *)

From S2P Require Export OdrLoop OdrNode.

(** * The handlers of a payload *)

(** The line a process gets for a payload with the text [msg]. *)
Definition payload_line (l : payload) (msg : string) : string :=
  msg +:+ " " +:+ l_src_addr l +:+ " " +:+ print_d (l_src_port l).

(** The path [find_local] chooses for the port [p] (in network order). *)
Definition recipient (p : Z) (s : odr) : string :=
  match ports_in_use s !! first_index (λ pe, u32 (port pe) =? ntohl p) (ports_in_use s) with
  | Some pe => sun_path pe
  | None => localaddr s
  end.

Lemma find_local_run p s :
  ∃ buf, find_local p s = Done (recipient p s) (set_local buf s).
Proof.
  unfold find_local, recipient. rewrite bind_get. cbv zeta.
  destruct (ports_in_use s !! _) as [pe|]; [by eexists|]. exists (local_buf s). by destruct s.
Qed.

(** The server has the first place of the port table. *)
Lemma recipient_server clients s : ports_are clients s → recipient (htonl_int 5000) s = "240411"%string.
Proof. intros Hp. unfold recipient. by rewrite (ports_in_use_are _ _ Hp). Qed.

Section node.
Context (env : odr_env) (me : string).
Context (Hsend : ∀ evs ev, send_ok env evs ev = true).
Context (Hnode : 1 ≤ node env ≤ 10) (Hme : vm_addr !! Z.to_nat (node env - 1) = Some me).

Lemma payload_frame_run i h l junk s :
  hdr_ok h → ntohl (h_type h) = 2 → payload_ok l →
  handle_frame env i (Some (enc_hdr h ++ enc_payload l ++ junk)) s = handle_payload env l s.
Proof.
  intros Hh Ht Hl. unfold handle_frame. cbv zeta. rewrite dec_enc_hdr by done.
  rewrite drop_app_length' by by rewrite length_enc_hdr. rewrite Ht. cbn [Z.eqb].
  by rewrite dec_enc_payload.
Qed.

Lemma payload_delivered_run l msg s :
  l_dst_addr l = me → dec_str (l_message l) = Some msg →
  ∃ s', handle_payload env l s = Done tt s' ∧
        out s' = out s ++ [SendLocal (payload_line l msg) (recipient (l_dst_port l) s)].
Proof.
  intros Hd Hm. unfold handle_payload.
  rewrite (bind_Done _ _ _ _ _ (my_addr_done env me Hnode Hme s)), Hd, streq_refl, Hm.
  change (of_opt NoTerminator (Some msg)) with (mret (M:=M odr) msg). rewrite bind_ret.
  destruct (find_local_run (l_dst_port l) s) as [buf Hfind]. run_step Hfind. unfold sendto. rewrite bind_get, Hsend.
  eexists. split; [reflexivity|done].
Qed.

Lemma payload_relayed_run l k e i src s :
  table_ok s → l_dst_addr l ≠ me → vm_addr !! k = Some (l_dst_addr l) → routing_table s !! k = Some e →
  outgoing_if e = Z.of_nat i + 3 → if_addr env !! i = Some src →
  ∃ to, handle_payload env l s = Done tt (set_out (out s ++
    [SendFrame i (enc_hdr (mk_hdr (next_hop e) src (htons PROTO) (htonl_int 2)) ++ enc_payload l) to]) s).
Proof.
  intros Ht Hd Hk He Ho Hi. unfold handle_payload.
  rewrite (bind_Done _ _ _ _ _ (my_addr_done env me Hnode Hme s)).
  apply streq_neq in Hd. rewrite Hd. unfold relay. run_step (rt_find_run (l_dst_addr l) s).
  destruct (rt_entry _ _ _ Ht Hk) as (-> & _). rewrite (bind_Done _ _ _ _ _ (rt_at_run k e s He)).
  assert (Hm : if_mac env (outgoing_if e - 3) s = Done src s).
  { unfold if_mac, rd. replace (outgoing_if e - 3) with (Z.of_nat i) by lia. by rewrite arr_at_nat, Hi. }
  run_step Hm. unfold sendto. rewrite bind_get, Hsend. eexists. unfold modify.
  by replace (Z.to_nat (outgoing_if e - 3)) with i by lia.
Qed.
(** The reply of the local server is one payload along the route. *)
Lemma reply_sent_run dst k e i src s :
  table_ok s → o_dst_addr s = dst → vm_addr !! k = Some dst → routing_table s !! k = Some e →
  outgoing_if e = Z.of_nat i + 3 → if_addr env !! i = Some src → (String.length (o_message s) < MESSAGE_LEN)%nat →
  local_reply env s = Done tt (set_out (out s ++ [SendFrame i
    (payload_frame e src (mk_payload me dst (htonl_int 5000) (htonl_int (o_dst_port s)) (htonl_int 0)
       (htonl_int 4096) (enc_str MESSAGE_LEN (o_message s))))
    (unicast (outgoing_if e) (next_hop e))]) s).
Proof.
  intros Ht Hd Hk He Ho Hi Hm. unfold local_reply. rewrite bind_get, Hd. run_step (rt_find_run dst s).
  destruct (rt_entry _ _ _ Ht Hk) as (-> & _). rewrite (bind_Done _ _ _ _ _ (rt_at_run k e s He)).
  assert (Hif : if_mac env (outgoing_if e - 3) s = Done src s).
  { unfold if_mac, rd. replace (outgoing_if e - 3) with (Z.of_nat i) by lia. by rewrite arr_at_nat, Hi. }
  run_step Hif. rewrite (bind_Done _ _ _ _ _ (my_addr_done env me Hnode Hme s)).
  run_step (strcpy_run ADDR_LEN me s (proj1 (vm_addr_ok _ _ Hme))).
  run_step (strcpy_run ADDR_LEN dst s (proj1 (vm_addr_ok _ _ Hk))).
  run_step (strcpy_run MESSAGE_LEN (o_message s) s Hm). cbv zeta. unfold sendto. rewrite bind_get, Hsend.
  by replace (Z.to_nat (outgoing_if e - 3)) with i by lia.
Qed.

(** A datagram of the local server that [scan_request] reads into [s1]. *)
Lemma server_datagram_run data clients s s1 :
  ports_are clients s → arrives MAXLINE data (recvmsg s) →
  reads_path "240411" "240411" s →
  scan_request data (recv_addr "240411" (set_recvmsg (overlay (String.substring 0 MAXLINE data) (recvmsg s)) s))
    = Done tt s1 →
  handle_local env (Some (data, "240411"%string)) s = local_reply env s1.
Proof.
  intros Hp Ha Hread Hscan. unfold handle_local, arrives in *. rewrite !bind_modify, bind_get.
  set (s2 := recv_addr _ _) in *. assert (Hb : until_nul (local_buf s2) = Some "240411"%string) by exact Hread. rewrite Hb.
  change (of_opt NoTerminator (Some ?x)) with (mret (M:=M odr) x). rewrite bind_ret.
  cbn [recvmsg s2 recv_addr set_recvmsg set_local set_un_len]. rewrite Ha.
  change (of_opt NoTerminator (Some ?x)) with (mret (M:=M odr) x). rewrite bind_ret.
  rewrite (bind_Done _ _ _ _ _ Hscan). cbv zeta.
  assert (Hp1 : ports_are clients s2) by by apply (ports_are_keep _ s).
  by rewrite (ports_in_use_are _ _ Hp1).
Qed.
End node.

(** * Payloads in a network *)

Section network.
Context (envs : Z → odr_env) (link : Z → nat → Z → nat → Prop).
Context (inst : installed envs link).
Context (Hsend : ∀ n evs ev, send_ok (envs n) evs ev = true).

(** Every next hop hears its address on the interface of the route. *)
Definition heard (w : net) : Prop :=
  ∀ n e, 1 ≤ n ≤ 10 → e ∈ routing_table (st w n) → outgoing_if e ≠ 0 →
  ∃ i m j, outgoing_if e = Z.of_nat i + 3 ∧ link n i m j ∧ if_of envs m j = Some (next_hop e).

(** The services run and have the routes of [w0]. *)
Definition routes_of (w0 w : net) : Prop :=
  ∀ n, 1 ≤ n ≤ 10 → alive w n = true ∧ routing_table (st w n) = routing_table (st w0 n).

(** A packet with the payload [l], of the text [msg], that interface [i] of [n] takes. *)
Definition carries (n : Z) (i : nat) (l : payload) (msg : string) (p : packet) : Prop :=
  received_by envs link n i p ∧ payload_ok l ∧ dec_str (l_message l) = Some msg ∧
  ∃ h, pk_frame p = enc_hdr h ++ enc_payload l ∧ hdr_ok h ∧ ntohl (h_type h) = 2.

(** A node that is handed such a packet runs [handle_payload]. *)
Lemma carried_step w n i l msg p s' :
  1 ≤ n ≤ 10 → alive w n = true → p ∈ air w → carries n i l msg p →
  handle_payload (envs n) l (set_out [] (st w n)) = Done tt s' →
  step envs link w (mk_net (fupd (st w) n s') (alive w) (air w ++ packets_of n (out s'))).
Proof.
  intros Hn Ha Hp (Hrec & Hl & _ & h & Hf & Hh & Ht) Hrun.
  apply (step_frame envs link w n i p []); try done. unfold run_frame.
  by rewrite Hf, <- app_assoc, (payload_frame_run (envs n) i h l [] _ Hh Ht Hl), Hrun.
Qed.

Lemma fupd_same {A} (f : Z → A) n x : fupd f n x n = x.
Proof. unfold fupd. by rewrite Z.eqb_refl. Qed.

Lemma node_me n : 1 ≤ n ≤ 10 →
  1 ≤ node (envs n) ≤ 10 ∧ ∃ me, addr_of n = Some me ∧ vm_addr !! Z.to_nat (node (envs n) - 1) = Some me.
Proof.
  intros Hn. rewrite (inst_node _ _ inst). split; [done|].
  destruct (lookup_lt_is_Some_2 vm_addr (Z.to_nat (n - 1))) as [me Hme]; [|by exists me].
  change (length vm_addr) with 10%nat. lia.
Qed.

(** A packet sent along the route [e] of [n] is taken by its next hop. *)
Lemma next_takes w B n e i l msg src :
  net_hops envs B w → heard w → 1 ≤ n ≤ 10 → e ∈ routing_table (st w n) → outgoing_if e = Z.of_nat i + 3 →
  payload_ok l → dec_str (l_message l) = Some msg → mac_ok src →
  ∃ m j, 1 ≤ m ≤ 10 ∧ within m (st w m) (dst_addr e) (hop_cnt e - 1) ∧
    carries m j l msg (mk_packet n i
      (enc_hdr (mk_hdr (next_hop e) src (htons PROTO) (htonl_int 2)) ++ enc_payload l)).
Proof.
  intros [Hnodes _] Hheard Hn He Ho Hl Hm Hsrc.
  destruct (Hnodes n Hn) as (_ & Hr & _).
  destruct (Hr e He ltac:(lia)) as (_ & m & j' & Hm10 & Hif & Hw).
  destruct (Hheard n e Hn He ltac:(lia)) as (i' & m' & j & Ho' & Hlink & Hif').
  assert (i' = i) as -> by lia. pose proof (inst_unique _ _ inst _ _ _ _ _ Hif' Hif) as ->.
  destruct (inst_mac _ _ inst _ _ _ Hif) as [Hok _].
  exists m, j. split_and!; [lia..|done|]. unfold carries, received_by. cbn [tx_node tx_if pk_frame].
  split_and!; try done.
  - right. rewrite Hif'. f_equal. unfold enc_hdr. rewrite <- !app_assoc.
    symmetry. apply take_app_length'. by destruct Hok.
  - eexists. split_and!; [done|by apply hdr_intro|apply ntohl_htonl_int].
Qed.

Lemma payload_arrives w n i l msg p :
  1 ≤ n ≤ 10 → alive w n = true → p ∈ air w → carries n i l msg p → addr_of n = Some (l_dst_addr l) →
  ∃ w', step envs link w w' ∧
        out (st w' n) = [SendLocal (payload_line l msg) (recipient (l_dst_port l) (st w n))].
Proof.
  intros Hn Ha Hp Hc Hd. destruct (node_me n Hn) as (Hnode & me & Hme & Hme'). pose proof Hc as (_ & _ & Hm & _).
  destruct (payload_delivered_run (envs n) me (Hsend n) Hnode Hme' l msg (set_out [] (st w n)))
    as (s' & Hrun & Hout); [congruence|done|].
  eexists. split; [exact (carried_step w n i l msg p s' Hn Ha Hp Hc Hrun)|]. cbn [st]. by rewrite fupd_same.
Qed.

(** What a relaying node leaves: the routes, and who a payload is for at each node. *)
Lemma payload_relayed w0 B w n i l msg p e :
  net_hops envs B w0 → heard w0 → routes_of w0 w → 1 ≤ n ≤ 10 → p ∈ air w → carries n i l msg p →
  addr_of n ≠ Some (l_dst_addr l) → e ∈ routing_table (st w0 n) → dst_addr e = l_dst_addr l → outgoing_if e ≠ 0 →
  ∃ w' m j p', step envs link w w' ∧ routes_of w0 w' ∧ (∀ q x, recipient q (st w' x) = recipient q (st w x)) ∧
    1 ≤ m ≤ 10 ∧ within m (st w0 m) (l_dst_addr l) (hop_cnt e - 1) ∧ p' ∈ air w' ∧ carries m j l msg p'.
Proof.
  intros Hh Hheard Hro Hn Hp Hc Hd He Hde Ho.
  destruct (node_me n Hn) as (Hnode & me & Hme & Hme'). destruct (Hro n Hn) as [Hal Hrt].
  pose proof Hc as (_ & Hl & Hm & _). destruct (Hheard n e Hn He Ho) as (i' & m' & j' & Ho' & Hlink & _).
  destruct (proj1 Hh n Hn) as (Ht & _). destruct (inst_link _ _ inst _ _ _ _ Hlink) as (_ & [src Hsrc] & _).
  destruct (next_takes w0 B n e i' l msg src) as (m & j & Hm10 & Hwm & Hcm); try done; [by eapply inst_mac|].
  apply list_elem_of_lookup in He as [k Hk].
  destruct (payload_relayed_run (envs n) me (Hsend n) Hnode Hme' l k e i' src (set_out [] (st w n)))
    as (to & Hrun); try done; [unfold table_ok; simpl; by rewrite Hrt|congruence| |simpl; by rewrite Hrt|].
  { by rewrite <- Ht, list_lookup_fmap, Hk, <- Hde. }
  apply (carried_step w n i l msg p _ Hn Hal Hp Hc) in Hrun. eexists _, m, j, _. split; [exact Hrun|].
  rewrite <- Hde. split_and!; [| |lia..|done| |exact Hcm].
  - intros n' Hn'. destruct (Hro n' Hn') as [Hal' Hrt']. split; [done|]. cbn [st]. unfold fupd.
    by destruct (Z.eqb_spec n' n) as [->|].
  - intros q x. cbn [st]. unfold fupd. by destruct (Z.eqb_spec x n) as [->|].
  - simpl. apply elem_of_app. right. by left.
Qed.

(** A payload at a node within [L] hops of its destination gets there in [L+1] steps. *)
Lemma payload_travels w0 B L w n i l msg p :
  net_hops envs B w0 → heard w0 → routes_of w0 w → 1 ≤ n ≤ 10 → p ∈ air w → carries n i l msg p →
  within n (st w0 n) (l_dst_addr l) (Z.of_nat L) →
  ∃ L' w' x, (L' ≤ S L)%nat ∧ nsteps (step envs link) L' w w' ∧ 1 ≤ x ≤ 10 ∧ addr_of x = Some (l_dst_addr l) ∧
    out (st w' x) = [SendLocal (payload_line l msg) (recipient (l_dst_port l) (st w x))].
Proof.
  intros Hh Hheard. revert w n i p.
  induction L as [|L IH]; intros w n i p Hro Hn Hp Hc Hw;
    (destruct (decide (addr_of n = Some (l_dst_addr l))) as [Hd|Hd];
     [destruct (payload_arrives w n i l msg p Hn (proj1 (Hro n Hn)) Hp Hc Hd) as (w' & Hs & Hout);
      exists 1%nat, w', n; split_and!; [lia|by apply nsteps_once|lia..|done|done]|]);
    (destruct Hw as [[Ha _]|(e & He & Hde & Ho & Hhc)]; [done|]).
  - destruct (proj1 Hh n Hn) as (_ & Hr & _). destruct (Hr e He Ho) as [Hrange _]. lia.
  - destruct (payload_relayed w0 B w n i l msg p e Hh Hheard Hro Hn Hp Hc Hd He Hde Ho)
      as (w1 & m & j & p1 & Hs & Hro1 & Hrec & Hm & Hwm & Hp1 & Hc1).
    destruct (IH w1 m j p1) as (L' & w' & x & HL & Hss & Hx & Hax & Hout); try done.
    { eapply within_le; [exact Hwm|lia]. }
    exists (S L'), w', x. split_and!; [lia|by econstructor|lia..|done|]. by rewrite Hout, Hrec.
Qed.

(** A payload that a service sends along a route gets to its destination. *)
Lemma payload_sent_travels B w n e i l msg src s' to :
  net_hops envs B w → heard w → (∀ m, 1 ≤ m ≤ 10 → alive w m = true) → 1 ≤ n ≤ 10 →
  e ∈ routing_table (st w n) → outgoing_if e = Z.of_nat i + 3 → dst_addr e = l_dst_addr l →
  payload_ok l → dec_str (l_message l) = Some msg → mac_ok src → 1 ≤ hop_cnt e →
  routing_table s' = routing_table (st w n) → out s' = [SendFrame i (payload_frame e src l) to] →
  let w1 := mk_net (fupd (st w) n s') (alive w) (air w ++ packets_of n (out s')) in
  ∃ L w' x, nsteps (step envs link) L w1 w' ∧ Z.of_nat L ≤ hop_cnt e ∧ 1 ≤ x ≤ 10 ∧
    addr_of x = Some (l_dst_addr l) ∧
    out (st w' x) = [SendLocal (payload_line l msg) (recipient (l_dst_port l) (st w1 x))].
Proof.
  intros Hh Hheard Halive Hn He Ho Hde Hl Hm Hsrc Hpos Hrt Hout w1.
  destruct (next_takes w B n e i l msg src Hh Hheard Hn He Ho Hl Hm Hsrc) as (m1 & j1 & Hm1 & Hw1 & Hc).
  set (pk := mk_packet _ _ _) in Hc.
  assert (Hro : routes_of w w1).
  { intros n' Hn'. split; [by apply Halive|]. unfold w1. cbn [st]. unfold fupd.
    by destruct (Z.eqb_spec n' n) as [->|]. }
  assert (Hpk : pk ∈ air w1).
  { unfold w1, pk. cbn [air]. rewrite Hout. apply elem_of_app. right. by apply list_elem_of_singleton. }
  destruct (payload_travels w B (Z.to_nat (hop_cnt e - 1)) w1 m1 j1 l msg pk Hh Hheard Hro Hm1 Hpk Hc)
    as (L & w' & x & HL & Hs & Hx & Hax & Hfin).
  { rewrite Hde in Hw1. by rewrite Z2Nat.id by lia. }
  exists L, w', x. split_and!; [done|lia..|done|done].
Qed.

(** Every service that runs has a well-formed port table. *)
Lemma initial_ports w n : initial w → ports_are [] (st w n).
Proof.
  intros [_ Hst]. destruct (Hst n) as (jr & jp & jd & jo & jm & jf & jb & _ & Hjp & _ & _ & _ & ->).
  destruct jp as [|p0 jp]; [done|]. split; try done; [by exists jp|]. apply NoDup_singleton.
Qed.

Lemma after_ports w n (r : res odr unit) w' x :
  (∀ s', r = Done tt s' → ∃ cl, ports_are cl s') → after w n r = Some w' → alive w' x = true →
  (alive w x = true → ∃ cl, ports_are cl (st w x)) → ∃ cl, ports_are cl (st w' x).
Proof.
  intros Hr Haf Hal Hx. unfold after in Haf. destruct r as [[] s'|c s'|u]; [| |done]; injection Haf as <-;
    cbn [st alive] in *; unfold fupd in *; destruct (Z.eqb_spec x n) as [->|]; auto; done.
Qed.

Lemma services_ports w : reachable envs link w → ∀ n, alive w n = true → ∃ cl, ports_are cl (st w n).
Proof.
  intros (w0 & Hw0 & Hr). induction Hr as [|w w' _ IH Hstep]; intros x Hal; [exists []; by apply initial_ports|].
  destruct Hstep as [n i p junk w' _ Hn _ _ Haf|n data path w' _ Hn Haf]; destruct (IH n Hn) as [cl Hcl].
  - eapply (after_ports _ _ _ _ x); [|exact Haf|done|apply IH]. intros s' Hrun. exists cl.
    pose proof (keeps_ports_frame (envs n) i (Some (pk_frame p ++ junk)) (set_out [] (st w n))) as Hk.
    unfold run_frame in Hrun. rewrite Hrun in Hk. by apply (ports_are_keep _ (st w n)).
  - eapply (after_ports _ _ _ _ x); [|exact Haf|done|apply IH]. intros s' Hrun.
    destruct (client_ports_stable (envs n) (Some (Some (data, path))) [] cl (set_out [] (st w n)) s')
      as (more & _ & Hmore); [by apply (ports_are_keep _ (st w n))| |by eexists].
    unfold odr_iteration. unfold run_local in Hrun. by rewrite (bind_Done _ _ _ _ _ Hrun).
Qed.

(** The payload a node makes of its client's request. *)
Lemma request_payload_ok me dst q msg :
  addr_ok me → addr_ok dst → (String.length msg < MESSAGE_LEN)%nat →
  payload_ok (mk_payload me dst (htonl_int q) (htonl_int 5000) (htonl_int 0) (htonl_int 4096)
    (enc_str MESSAGE_LEN msg)).
Proof.
  intros. split_and!; try done; try apply htonl_int_range. apply length_enc_str. lia.
Qed.

Lemma request_no_nul dst p msg flag path s : request_ok dst p msg flag path s → no_nul msg = true.
Proof.
  intros H%rq_arrives. unfold arrives in H. apply until_nul_no_nul in H. unfold request_line in H.
  cbn [no_nul] in H. rewrite no_nul_app in H. cbn [no_nul] in H. rewrite no_nul_app in H. cbn [no_nul] in H.
  rewrite no_nul_app, !andb_true_iff in H. naive_solver.
Qed.

(** What the server sends for a request of the client with the port [q] at the address
    [dst]: the port as the server was told, and the time. *)
Definition answer_line (dst : string) (q : Z) (ctime : string) : string :=
  request_line dst (htonl_int q) (time_line ctime) 0.

(** Day, month and rest of the text of [ctime]. *)
Definition ctime_of (a b c d : ascii) (rest : string) : string :=
  String a (String b (String c (String " " (String d rest)))).
Definition day (a b c : ascii) : string := String a (String b (String c EmptyString)).

Lemma answer_no_nul dst q a b c d rest junk :
  arrives MAXLINE (answer_line dst q (ctime_of a b c d rest)) junk → no_nul (day a b c) = true.
Proof.
  unfold arrives. intros H%until_nul_no_nul. unfold answer_line, request_line in H. cbn [no_nul] in H.
  rewrite no_nul_app in H. cbn [no_nul] in H. rewrite no_nul_app in H. cbn [no_nul] in H.
  destruct (time_line_weekday a b c d rest) as [r Hr]. unfold ctime_of in H. rewrite Hr, !no_nul_app, !andb_true_iff in H.
  naive_solver.
Qed.

(** C7: Answers get through, but not to who asked.  In the states of
    [request_reaches_server] (all ten services run, everything sent is taken, the path
    of the server is read in full): an answer of the server to another node, to which there
    is a route of [hop_cnt] hops, can be brought in at most [hop_cnt] steps after it is
    sent to that node.  Of the time only the name of the day is left; and as the port has
    been converted twice it matches no entry of the port table: the service there sends it
    to whatever path its variable localaddr holds (that of its last local datagram, or of
    its last delivery to a port it knew, whichever was later), for every port. *)
Theorem answer_misses_port (t kd : nat) (w0 w : net) (n q : Z) (me dst : string) (a b c d : ascii)
    (rest : string) (e : routing_entry)
    (Hw0 : initial w0) (Ht : Z.of_nat t < 2 ^ 31 - 1) (Hrun : nsteps (calm_step envs link) t w0 w)
    (Halive : ∀ m, 1 ≤ m ≤ 10 → alive w m = true) (Hheard : heard w)
    (Hn : 1 ≤ n ≤ 10) (Hme : addr_of n = Some me) (Hother : dst ≠ me)
    (He : routing_table (st w n) !! kd = Some e) (Hde : dst_addr e = dst) (Ho : outgoing_if e ≠ 0)
    (Hq : 1 ≤ q < 65536) (Hday : is_word (day a b c) = true) (Hmonth : letter d = true)
    (Hreads : arrives MAXLINE (answer_line dst q (ctime_of a b c d rest)) (recvmsg (st w n)))
    (Hserver : reads_path "240411" "240411" (st w n)) :
  ∃ L w1 w' x, after w n (run_local envs w n (answer_line dst q (ctime_of a b c d rest)) "240411") = Some w1 ∧
    nsteps (step envs link) L w1 w' ∧ Z.of_nat L ≤ hop_cnt e ∧
    1 ≤ x ≤ 10 ∧ addr_of x = Some dst ∧
    out (st w' x) = [SendLocal (day a b c +:+ " " +:+ me +:+ " " +:+ print_d (htonl_int 5000)) (localaddr (st w x))].
Proof.
  destruct (calm_run envs link inst t w0 w Hw0 Hrun Ht) as (Hreach & Hh & _).
  pose proof (λ m Hm, services_ports w Hreach m (Halive m Hm)) as Hports.
  destruct (proj1 Hh n Hn) as (Htab & Hr & _). assert (He' := list_elem_of_lookup_2 _ _ _ He).
  destruct (Hr e He' Ho) as [Hrange _]. destruct (Hheard n e Hn He' Ho) as (i & m & j & Ho' & Hlink & _).
  destruct (inst_link _ _ inst _ _ _ _ Hlink) as (_ & [src Hsrc] & _).
  assert (Hkd : vm_addr !! kd = Some dst) by by rewrite <- Htab, list_lookup_fmap, He, <- Hde.
  assert (Hqo : int_ok (htonl_int q)) by (pose proof (htonl_int_range q); unfold int_ok; lia).
  destruct (Hports n Hn) as [cl Hcl]. set (s0 := set_out [] (st w n)).
  assert (Hcl0 : ports_are cl s0) by by apply (ports_are_keep _ (st w n)).
  assert (Hscan := server_reply_loses_time dst (htonl_int q) a b c d rest
    (recv_addr "240411" (set_recvmsg (overlay (String.substring 0 MAXLINE (answer_line dst q (ctime_of a b c d rest)))
       (recvmsg s0)) s0)) (list_elem_of_lookup_2 _ _ _ Hkd) Hqo Hday Hmonth).
  destruct (node_me n Hn) as (Hnode & me' & Hme' & Hme2). assert (me' = me) as -> by congruence.
  pose proof (server_datagram_run (envs n) _ cl s0 _ Hcl0 Hreads Hserver Hscan) as Hloc.
  set (s1 := set_message _ _) in Hloc.
  rewrite (reply_sent_run (envs n) me (Hsend n) Hnode Hme2 dst kd e i src s1) in Hloc;
    [|exact Htab|done|done|exact He|done|done|unfold MESSAGE_LEN; simpl; lia].
  set (l := mk_payload me dst _ _ _ _ _) in Hloc.
  set (s' := set_out (out s1 ++ _) s1) in Hloc.
  assert (Hl : payload_ok l).
  { split_and!; try apply htonl_int_range; [by eapply vm_addr_ok|by eapply vm_addr_ok|].
    apply length_enc_str. unfold MESSAGE_LEN. simpl. lia. }
  assert (Hm : dec_str (l_message l) = Some (day a b c)).
  { change (l_message l) with (enc_str MESSAGE_LEN (day a b c)).
    rewrite <- (app_nil_r (enc_str _ _)). apply dec_enc_str; [unfold MESSAGE_LEN; simpl; lia|].
    by eapply answer_no_nul. }
  destruct (payload_sent_travels _ w n e i l (day a b c) src s' (unicast (outgoing_if e) (next_hop e)) Hh Hheard Halive Hn
    He' Ho' Hde Hl Hm ltac:(by eapply inst_mac) ltac:(lia) eq_refl eq_refl) as (L & w' & x & Hs & HL & Hx & Hax & Hfin).
  eexists L, _, w', x. split_and!; [|exact Hs|lia..|done|].
  - unfold run_local. fold s0. by rewrite Hloc.
  - rewrite Hfin. do 2 f_equal. cbn [st].
    assert (x ≠ n) by (intros ->; simpl in Hax; congruence).
    unfold fupd. destruct (Z.eqb_spec x n); [done|]. destruct (Hports x Hx) as [clx Hclx].
    pose proof (find_local_twice clx (st w x) q Hclx Hq) as Htw. destruct (find_local_run (htonl_int (htonl_int q)) (st w x)) as [buf Hf].
    rewrite Hf in Htw. by injection Htw.
Qed.
End network.

(** * The line VM1 - VM2 - VM3 *)

(** [heard], as a function, for a network with listed links. *)
Definition heard_in (envs : Z → odr_env) (links : list (Z * nat * (Z * nat))) (w : net) : bool :=
  forallb (λ n, forallb (λ e, (outgoing_if e =? 0)
    || existsb (λ '(n', i, (m, j)), (n' =? n) && (outgoing_if e =? Z.of_nat i + 3)
                 && bool_decide (if_of envs m j = Some (next_hop e))) links)
    (routing_table (st w n))) (seqZ 1 10).

Lemma heard_in_heard envs links w : heard_in envs links w = true → heard envs (Script.link links) w.
Proof.
  unfold heard_in. rewrite forallb_forall. intros H n e Hn He Ho.
  specialize (H n ltac:(apply list_elem_of_In, elem_of_seqZ; lia)). rewrite forallb_forall in H.
  specialize (H e ltac:(by apply list_elem_of_In)). apply orb_true_iff in H as [H|H]; [lia|].
  apply existsb_exists in H as ([[n' i] [m j]] & Hin%list_elem_of_In & H).
  rewrite !andb_true_iff in H. destruct H as [[H1%Z.eqb_eq H2%Z.eqb_eq] H3%bool_decide_eq_true_1]. subst n'.
  exists i, m, j. by split_and!.
Qed.

Section line.
Import Line.

(** The answer of VM3's server to VM1's first client, the last one to speak. *)
Lemma answer_misses_port_witness :
  ∃ L w1 w' x, after w_disc 3 (run_local envs w_disc 3 (answer_line "130.245.156.21" 6000 ctime_text) "240411") = Some w1 ∧
    nsteps (step envs link) L w1 w' ∧ Z.of_nat L ≤ 2 ∧ 1 ≤ x ≤ 10 ∧ addr_of x = Some "130.245.156.21"%string ∧
    out (st w' x) = [SendLocal ("Wed 130.245.156.23 " +:+ print_d (htonl_int 5000)) (localaddr (st w_disc x))].
Proof.
  apply (answer_misses_port envs link line_installed (λ _ _ _, eq_refl) 5 0 start w_disc 3 6000
           "130.245.156.23" "130.245.156.21" "W" "e" "d" "N" "ov 12 10:11:12 2014"
           (mk_route "130.245.156.21" (mac 2 1) 3 2 1)).
  - exact start_initial.
  - reflexivity.
  - apply (calm_acts_steps start discovery); [intros n; discriminate|]. vm_compute. reflexivity.
  - intros m _. vm_compute. reflexivity.
  - apply heard_in_heard. vm_compute. reflexivity.
  - lia.
  - reflexivity.
  - discriminate.
  - vm_compute. reflexivity.
  - reflexivity.
  - discriminate.
  - lia.
  - reflexivity.
  - reflexivity.
  - vm_compute. reflexivity.
  - vm_compute. reflexivity.
Defined.
End line.

(** * A ring VM1 - VM2 - VM4 - VM5 - VM3 - VM1 *)

Module Ring.
Import Script.
Definition mac (n : Z) (i : nat) : list Z := [2; 0; 0; 0; n; Z.of_nat i].
Definition envs (n : Z) : odr_env :=
  mk_env n (if (1 <=? n) && (n <=? 5) then [mac n 0; mac n 1] else []) (λ _ _, true).
Definition both (m : Z) (j : nat) (n : Z) (i : nat) : list (Z * nat * (Z * nat)) :=
  [(m, j, (n, i)); (n, i, (m, j))].
Definition links : list (Z * nat * (Z * nat)) :=
  both 1 0 2 0 ++ both 2 1 4 0 ++ both 1 1 3 0 ++ both 3 1 5 0 ++ both 5 1 4 1.

(** VM1 looks for VM4: the request arrives over VM2 and the reply is lost.  The
    client asks again, and now the request arrives over VM3 and VM5 first. *)
Definition script : list action :=
  [Local 1 "130.245.156.24 5000 HI 0" "tempA"; Frame 2 0 0; Frame 4 0 2;
   Local 1 "130.245.156.24 5000 HI 0" "tempA"; Frame 3 0 5; Frame 5 0 6; Frame 4 1 7; Frame 5 1 8].
Definition ring : net := run envs links script.

Lemma ring_if_of_mac n i a : if_of envs n i = Some a → a = mac n i ∧ 1 ≤ n ≤ 5 ∧ (i < 2)%nat.
Proof.
  unfold if_of. simpl. destruct (Z.leb_spec 1 n), (Z.leb_spec n 5); simpl; try done.
  destruct i as [|[|i]]; intros [= <-]; split_and!; (done || lia).
Qed.

Lemma ring_installed : installed envs (link links).
Proof.
  split; [done|..].
  - intros n i a (-> & Hn & Hi)%ring_if_of_mac. split; [|intros [=]]. split; [done|].
    unfold mac, is_byte. rewrite !Forall_cons. split_and!; (lia || constructor).
  - intros n i m j a (-> & _)%ring_if_of_mac (Heq & _)%ring_if_of_mac. unfold mac in Heq. congruence.
  - intros m j n i Hl. unfold link in Hl. cbn in Hl. rewrite !elem_of_cons in Hl.
    repeat (destruct Hl as [Hl|Hl]; [injection Hl as -> -> -> ->; split; [lia|split; by eexists]|]).
    unfold both in Hl. rewrite !elem_of_cons in Hl.
    destruct Hl as [Hl|[Hl|Hl%not_elem_of_nil]]; [| |done];
      (injection Hl as -> -> -> ->; split; [lia|split; by eexists]).
Qed.
End Ring.

(** A route that cannot deliver.  VM4 answers the second request on the interface it
    came in on, with the hardware address of the interface of its own route to VM1.
    VM5 makes a route of it whose next hop no interface on the link has: what it sends
    along this route is lost. *)
Theorem reply_with_wrong_address :
  installed Ring.envs (Script.link Ring.links) ∧ reachable Ring.envs (Script.link Ring.links) Ring.ring ∧
  routing_table (st Ring.ring 5) !! 3%nat = Some (mk_route "130.245.156.24" (Ring.mac 4 0) 4 1 0) ∧
  ∀ m j, Script.link Ring.links 5 1 m j → if_of Ring.envs m j ≠ Some (Ring.mac 4 0).
Proof.
  split; [apply Ring.ring_installed|]. split_and!.
  - exists Script.start. split; [apply Script.start_initial|].
    apply (Script.acts_reach Ring.envs Ring.links Script.start Script.start Ring.script); [constructor|].
    apply Script.runs_run. vm_compute. reflexivity.
  - vm_compute. reflexivity.
  - intros m j Hl. unfold Script.link in Hl.
    assert (Hm : (m, j) = (4, 1%nat)); [|injection Hm as -> ->; intros H; vm_compute in H; discriminate H].
    cbn in Hl. unfold Ring.both in Hl. rewrite !elem_of_cons in Hl.
    repeat (destruct Hl as [Hl|Hl]; [try done; by injection Hl as -> -> |]). by apply not_elem_of_nil in Hl.
Qed.
