(* ===== verification/OdrStart.v ===== *)
(** The start of the three programs of Assignment 3 (ODR.c, client.c, server.c), up to
    their loops: the node number, the sockets and their names. *)

From S2P Require Export HwStart.
From S2P Require Export OdrNode.
From S2P Require Import Interfaces.

Definition HTONS_PROTO : Z := htons PROTO.
Definition ODR_PATH : string := "114042".
Definition SRV_PATH : string := "240411".

(** What ODR has set up when its tables are next. *)
Record odr_start := mk_start {
  os_node : Z;
  os_if_addr : list (Z * list Z); (* sll_ifindex and sll_addr of if_addr[0..if_cnt-1] *)
  os_if_fd : list Z;
  os_odrfd : Z
}.

(** What an application has: its node and its socket. *)
Record app_start := mk_app_start {
  as_node : Z;
  as_fd : Z;
  as_path : string
}.

Section start.
Context (ask : trace → call → Z).
(** The six characters [mkstemp] puts in place of the [XXXXXX]. *)
Context (unique : trace → string).
(** The list of [get_hw_addrs]; what the uninitialised [node] holds. *)
Context (hw : M unit (list hwa_info)) (junk : Z).

(** * ODR.c *)

(** The walk over the list of interfaces; [if_addr] and [if_fd] have room for three. *)
Fixpoint open_interfaces (hwa : list hwa_info) (node : Z) (if_addr : list (Z * list Z)) (if_fd : list Z)
    : M trace (Z * list (Z * list Z) * list Z) :=
  match hwa with
  | [] => mret (node, if_addr, if_fd)
  | h :: hwa' =>
      if if_index h =? IF_LO then open_interfaces hwa' node if_addr if_fd
      else if if_index h =? IF_ETH0 then
        node ← vm_node h vm_addr node;
        open_interfaces hwa' node if_addr if_fd
      else if (length if_addr <? 3)%nat then
        fd ← need ask (Socket PF_PACKET SOCK_RAW HTONS_PROTO);
        need ask (Bind fd (Link HTONS_PROTO (if_index h) (if_haddr h)));;
        open_interfaces hwa' node (if_addr ++ [(if_index h, if_haddr h)]) (if_fd ++ [fd])
      else undef OutOfBounds
  end.

(** The datagram socket of a service or program, under a path. *)
Definition open_local (path : string) : M trace Z :=
  fd ← need ask (Socket AF_LOCAL SOCK_DGRAM 0);
  sun ← strcpy SUN_PATH path;
  try ask (Unlink sun);;
  need ask (Bind fd (Local sun));;
  mret fd.

(** The lines of [prhwaddrs] for one interface: its address and its hardware address. *)
Definition hw_line (h : hwa_info) : M trace (string * option (list Z)) :=
  text ← Sock_ntop_host (hwa_ip h) 16;
  mret (text, if forallb (λ b, b =? 0) (take 6 (if_haddr h)) then None else Some (take 6 (if_haddr h))).

Fixpoint prhwaddrs (hwa : list hwa_info) : M trace (list (string * option (list Z))) :=
  match hwa with
  | [] => mret []
  | h :: hwa' => l ← hw_line h; ls ← prhwaddrs hwa'; mret (l :: ls)
  end.

Definition odr_main (argc : Z) : M trace odr_start :=
  if negb (argc =? 2) then exit 1
  else
    hwahead ← lift hw;
    match hwahead with
    | [] => exit 1
    | _ =>
        '(node, if_addr, if_fd) ← open_interfaces hwahead junk [] [];
        prhwaddrs hwahead;;
        odrfd ← open_local ODR_PATH;
        mret (mk_start node if_addr if_fd odrfd)
    end.

(** * client.c and server.c *)

(** [mkstemp] on an array of 15 bytes that ends in XXXXXX. *)
Definition make_name : M trace string :=
  template ← strcpy ADDR_LEN "temp.XXXXXX";
  tr ← get;
  need ask (Mkstemp template);;
  mret (String.substring 0 5 template +:+ unique tr).

Definition client_main : M trace app_start :=
  h ← second_interface hw;
  node ← vm_node h vm_addr junk;
  fd ← need ask (Socket AF_LOCAL SOCK_DGRAM 0);
  filename ← make_name;
  sun ← strcpy SUN_PATH filename;
  try ask (Unlink sun);;
  need ask (Bind fd (Local sun));;
  mret (mk_app_start node fd sun).

Definition server_main : M trace app_start :=
  h ← second_interface hw;
  node ← vm_node h vm_addr junk;
  fd ← open_local SRV_PATH;
  mret (mk_app_start node fd SRV_PATH).
End start.

(** * Lemmas *)

(** The interfaces a service gets a packet socket for. *)
Definition of_interest (h : hwa_info) : bool := negb (if_index h =? IF_LO) && negb (if_index h =? IF_ETH0).
Definition interface (h : hwa_info) : Z * list Z := (if_index h, if_haddr h).

Lemma vm_addr_nodup : NoDup vm_addr.
Proof. apply (bool_decide_unpack _). vm_compute. exact I. Qed.

Section opening.
Context (ask : trace → call → Z) (Hask : ∀ tr c, 0 ≤ ask tr c).
Context (k : nat) (me : string) (Hk : vm_addr !! k = Some me).

(** Every socket is bound to its interface. *)
Definition bound (tr : trace) (if_addr : list (Z * list Z)) (if_fd : list Z) : Prop :=
  Forall2 (λ a fd, ∃ r, (Bind fd (Link HTONS_PROTO a.1 a.2), r) ∈ tr) if_addr if_fd.

Lemma bound_more tr new addrs fds : bound tr addrs fds → bound (tr ++ new) addrs fds.
Proof. intros H. eapply Forall2_impl; [exact H|]. intros a fd [r Hr]. exists r. apply elem_of_app. by left. Qed.

Lemma open_interfaces_run hwa node addrs fds tr :
  Forall (λ h, if_index h = IF_ETH0 → has_text h me) hwa →
  (length addrs + length (List.filter of_interest hwa) ≤ 3)%nat → bound tr addrs fds →
  ∃ fds' new, open_interfaces ask hwa node addrs fds tr
    = Done (if existsb (λ h, if_index h =? IF_ETH0) hwa then Z.of_nat k + 1 else node,
            addrs ++ (interface <$> List.filter of_interest hwa), fds') (tr ++ new) ∧
    bound (tr ++ new) (addrs ++ (interface <$> List.filter of_interest hwa)) fds'.
Proof.
  intros Heth. revert node addrs fds tr.
  induction Heth as [|h hwa Hh _ IH]; intros node addrs fds tr Hlen Hb.
  { exists fds, []. simpl. by rewrite !app_nil_r. }
  cbn [open_interfaces existsb List.filter] in *.
  destruct (of_interest h) eqn:Hi; unfold of_interest in Hi;
    destruct (Z.eqb_spec (if_index h) IF_LO) as [Hlo|Hlo], (Z.eqb_spec (if_index h) IF_ETH0) as [He|He]; try done.
  - cbn [length] in Hlen. destruct (Nat.ltb_spec (length addrs) 3); [|lia].
    set (c1 := Socket _ _ _). rewrite (bind_Done _ _ _ _ _ (need_run ask c1 tr (Hask _ _))).
    set (tr1 := tr ++ _). set (c2 := Bind _ _). rewrite (bind_Done _ _ _ _ _ (need_run ask c2 tr1 (Hask _ _))).
    destruct (IH node (addrs ++ [interface h]) (fds ++ [ask tr c1]) (tr1 ++ [(c2, ask tr1 c2)])) as (fds' & new & Hrun & Hb').
    { rewrite length_app. simpl. lia. }
    { apply Forall2_app; [by do 2 apply bound_more|]. constructor; [|constructor].
      exists (ask tr1 c2). apply elem_of_app. right. by left. }
    exists fds', ([(c1, ask tr c1)] ++ [(c2, ask tr1 c2)] ++ new).
    replace (tr ++ [(c1, ask tr c1)] ++ [(c2, ask tr1 c2)] ++ new) with ((tr1 ++ [(c2, ask tr1 c2)]) ++ new)
      by (unfold tr1; by rewrite <- !app_assoc).
    rewrite <- (app_assoc addrs) in Hrun, Hb'. done.
  - by rewrite Hlo in He.
  - by apply IH.
  - cbn [orb]. rewrite (bind_Done _ _ _ _ _ (vm_node_found h k me vm_addr node tr (Hh He) vm_addr_nodup Hk)).
    destruct (IH (Z.of_nat k + 1) addrs fds tr Hlen Hb) as (fds' & new & -> & Hb'). exists fds', new.
    split; [|done]. by destruct (existsb _ hwa).
Qed.

Lemma open_interfaces_overflow hwa node addrs fds tr :
  Forall (λ h, if_index h = IF_ETH0 → has_text h me) hwa →
  (length addrs ≤ 3)%nat → (3 < length addrs + length (List.filter of_interest hwa))%nat →
  open_interfaces ask hwa node addrs fds tr = Undefined OutOfBounds.
Proof.
  intros Heth. revert node addrs fds tr.
  induction Heth as [|h hwa Hh _ IH]; intros node addrs fds tr Hle Hlen; [simpl in Hlen; lia|].
  cbn [open_interfaces List.filter] in *.
  destruct (of_interest h) eqn:Hi; unfold of_interest in Hi;
    destruct (Z.eqb_spec (if_index h) IF_LO) as [Hlo|Hlo], (Z.eqb_spec (if_index h) IF_ETH0) as [He|He]; try done.
  - destruct (Nat.ltb_spec (length addrs) 3); [|done].
    do 2 rewrite (bind_Done _ _ _ _ _ (need_run ask _ _ (Hask _ _))).
    apply IH; rewrite length_app; simpl in *; lia.
  - by rewrite Hlo in He.
  - by apply IH.
  - rewrite (bind_Done _ _ _ _ _ (vm_node_found h k me vm_addr node tr (Hh He) vm_addr_nodup Hk)). by apply IH.
Qed.

(** The lines of [prhwaddrs] make no calls. *)
Lemma prhwaddrs_run hwa tr :
  Forall (λ h, ∃ text, has_text h text) hwa → ∃ lines, prhwaddrs hwa tr = Done lines tr.
Proof.
  induction 1 as [|h hwa [text Ht] _ [lines IH]]; [by eexists|].
  cbn [prhwaddrs]. unfold hw_line. rewrite <- bind_assoc_M, (bind_Done _ _ _ _ _ (Ht tr)), bind_ret.
  run_step IH. by eexists.
Qed.

Lemma open_local_run path tr :
  (String.length path < SUN_PATH)%nat →
  ∃ fd new r, open_local ask path tr = Done fd (tr ++ new) ∧ (Bind fd (Local path), r) ∈ new.
Proof.
  intros Hp. unfold open_local. rewrite (bind_Done _ _ _ _ _ (need_run ask _ tr (Hask _ _))).
  set (c1 := Socket _ _ _). set (tr1 := tr ++ _). run_step (strcpy_run SUN_PATH path tr1 Hp).
  rewrite (bind_Done _ _ _ _ _ (try_run ask _ tr1)). set (tr2 := tr1 ++ _).
  rewrite (bind_Done _ _ _ _ _ (need_run ask _ tr2 (Hask _ _))).
  eexists _, [_; _; _], _. unfold tr2, tr1. rewrite <- !app_assoc. split; [done|]. right. right. by left.
Qed.
End opening.

(** * Calls that fail *)

Lemma stops_open_interfaces ask hwa node addrs fds : stops (open_interfaces ask hwa node addrs fds).
Proof. revert node addrs fds. induction hwa as [|h hwa IH]; intros node addrs fds; cbn [open_interfaces]; stops_tac. Qed.

Lemma stops_prhwaddrs hwa : stops (prhwaddrs hwa).
Proof. induction hwa as [|h hwa IH]; cbn [prhwaddrs]; unfold hw_line; stops_tac. Qed.

Lemma stops_open_local ask path : stops (open_local ask path).
Proof. unfold open_local. stops_tac. Qed.

Lemma stops_get {A} (k : trace → M trace A) : (∀ tr, stops (k tr)) → stops (tr ← get; k tr).
Proof. intros Hk tr. rewrite bind_get. apply Hk. Qed.
#[export] Hint Resolve stops_open_interfaces stops_prhwaddrs stops_open_local : stops.

Lemma stops_make_name ask unique : stops (make_name ask unique).
Proof. unfold make_name. apply stops_bind; [auto with stops|]. intros t. apply stops_get. intros tr. stops_tac. Qed.
#[export] Hint Resolve stops_make_name : stops.

(** * What the programs start with *)

(** The environment of the handlers, from what the start has set up. *)
Definition started_env (st : odr_start) (send_ok : list event → event → bool) : odr_env :=
  mk_env (os_node st) (snd <$> os_if_addr st) send_ok.

(** The start of ODR.  When the kernel serves every call, eth0 has the address of
    VM[k+1] and the node has at most three more interfaces, ODR starts as node [k+1]
    with exactly those interfaces in the order of the list, a packet socket bound to
    each of them, and a socket bound to its well-known path; a fourth interface is
    written behind the end of [if_addr]. *)
Theorem odr_starts (ask : trace → call → Z) (hwa : list hwa_info) (k : nat) (me : string) (junk : Z)
    (Hask : ∀ tr c, 0 ≤ ask tr c) (Hk : vm_addr !! k = Some me)
    (Heth : ∃ h, h ∈ hwa ∧ if_index h = IF_ETH0)
    (Hme : Forall (λ h, if_index h = IF_ETH0 → has_text h me) hwa)
    (Htext : Forall (λ h, ∃ text, has_text h text) hwa) :
  if (length (List.filter of_interest hwa) <=? 3)%nat then
    ∃ st tr, odr_main ask (mret hwa) junk 2 [] = Done st tr ∧
      os_node st = Z.of_nat k + 1 ∧ os_if_addr st = interface <$> List.filter of_interest hwa ∧
      bound tr (os_if_addr st) (os_if_fd st) ∧ ∃ r, (Bind (os_odrfd st) (Local ODR_PATH), r) ∈ tr
  else odr_main ask (mret hwa) junk 2 [] = Undefined OutOfBounds.
Proof.
  assert (Hcons : ∀ (a b : M trace odr_start), match hwa with [] => a | _ => b end = b).
  { destruct Heth as (h & Hin & _). destruct hwa as [|h' l]; [by apply not_elem_of_nil in Hin|done]. }
  unfold odr_main. change (negb (2 =? 2)) with false. cbv iota.
  rewrite (bind_Done _ _ _ _ _ (lift_ret (St:=trace) hwa [])).
  rewrite !Hcons. clear Hcons.
  destruct (Nat.leb_spec (length (List.filter of_interest hwa)) 3) as [Hle|Hgt].
  - destruct (open_interfaces_run ask Hask k me Hk hwa junk [] [] [] Hme Hle) as (fds & tr1 & Hrun & Hb); [constructor|].
    rewrite (bind_Done _ _ _ _ _ Hrun). cbv iota beta.
    destruct (prhwaddrs_run hwa ([] ++ tr1) Htext) as [lines Hpr]. rewrite (bind_Done _ _ _ _ _ Hpr).
    destruct (open_local_run ask Hask ODR_PATH ([] ++ tr1)) as (fd & new & r & Hop & Hin); [vm_compute; lia|].
    rewrite (bind_Done _ _ _ _ _ Hop). eexists _, _. split; [reflexivity|]. cbn [os_node os_if_addr os_if_fd os_odrfd].
    split_and!; [|done|by apply bound_more|exists r; apply elem_of_app; by right].
    destruct Heth as (h & Hh & He). assert (existsb (λ h, if_index h =? IF_ETH0) hwa = true) as ->; [|done].
    apply existsb_exists. exists h. rewrite He. by rewrite <- list_elem_of_In.
  - unfold mbind, M_bind. rewrite (open_interfaces_overflow ask Hask k me Hk hwa junk [] [] [] Hme); [done|simpl; lia..].
Qed.

(** No program of Assignment 3 goes on after a failed call.  Whatever the kernel
    answers, the start of ODR, of the client and of the server either returns and all
    calls it needs succeeded, or exits with code 1 and at most its last call failed,
    or is undefined; and the client and the server are undefined on a node with a
    single interface. *)
Theorem odr_starts_stop (ask : trace → call → Z) (unique : trace → string) (hwa : list hwa_info) (junk argc : Z) :
  stops (odr_main ask (mret hwa) junk argc) ∧
  stops (client_main ask unique (mret hwa) junk) ∧ stops (server_main ask (mret hwa) junk) ∧
  (length hwa = 1%nat → ∀ tr,
     client_main ask unique (mret hwa) junk tr = Undefined NullDeref ∧
     server_main ask (mret hwa) junk tr = Undefined NullDeref).
Proof.
  split_and!.
  - unfold odr_main. stops_tac.
  - unfold client_main. stops_tac.
  - unfold server_main. stops_tac.
  - intros Hone tr. unfold client_main, server_main, mbind, M_bind. by rewrite lone_interface.
Qed.

(** A client's name fits the tables of ODR.  Whatever six characters [mkstemp]
    finds, the name the client's socket is bound to has fewer than 15 characters, and
    it is not the name of the server. *)
Theorem client_name_fits (ask : trace → call → Z) (unique : trace → string) (hwa : list hwa_info) (junk : Z)
    (st : app_start) (tr tr' : trace)
    (Hsix : ∀ tr, String.length (unique tr) = 6%nat)
    (Hrun : client_main ask unique (mret hwa) junk tr = Done st tr') :
  (String.length (as_path st) < ADDR_LEN)%nat ∧ as_path st ≠ SRV_PATH ∧
  ∃ r, (Bind (as_fd st) (Local (as_path st)), r) ∈ tr'.
Proof.
  unfold client_main in Hrun. apply bind_Done_inv in Hrun as (h & tr0 & _ & Hrun).
  apply bind_Done_inv in Hrun as (node & tr1 & _ & Hrun).
  apply bind_Done_inv in Hrun as (fd & tr2 & _ & Hrun). apply bind_Done_inv in Hrun as (name & tr3 & Hname & Hrun).
  apply bind_Done_inv in Hrun as (sun & tr4 & Hsun & Hrun). apply bind_Done_inv in Hrun as (x & tr5 & _ & Hrun).
  apply bind_Done_inv in Hrun as (r & tr6 & (_ & _ & ->)%need_inv & Hrun). injection Hrun as <- <-.
  unfold strcpy in Hsun. destruct (String.length name <? SUN_PATH)%nat; [|done]. injection Hsun as <- <-.
  cbn [as_path as_fd]. split_and!; [| |exists r; apply elem_of_app; right; by left];
    unfold make_name in Hname; cbn [strcpy] in Hname; apply bind_Done_inv in Hname as (t & tr7 & Ht & Hname);
    injection Ht as <- <-; rewrite bind_get in Hname; apply bind_Done_inv in Hname as (y & tr8 & _ & Hname);
    injection Hname as <- _.
  - rewrite length_str_app, Hsix. simpl. unfold ADDR_LEN. lia.
  - simpl. discriminate.
Qed.

(** * Witnesses *)

Section witnesses.
(** loopback, eth0 of VM3, and two interfaces of interest. *)
Definition vm3_interfaces : list hwa_info := [
  mk_hwa "lo" (replicate 6 0) 1 0 (quad_sa 127 0 0 1);
  mk_hwa "eth0" [0; 12; 41; 0; 0; 3] 2 0 (quad_sa 130 245 156 23);
  mk_hwa "eth1" [0; 12; 41; 0; 1; 3] 3 0 (quad_sa 192 168 1 103);
  mk_hwa "eth2" [0; 12; 41; 0; 2; 3] 4 0 (quad_sa 192 168 2 103)].
Definition six (tr : trace) : string := "Ab12Cd".

Lemma vm3_texts : Forall (λ h, ∃ text, has_text h text) vm3_interfaces.
Proof.
  repeat constructor; eexists; (eapply quad_has_text; [reflexivity|lia|unfold is_byte; lia..]).
Qed.

Lemma vm3_eth0 : ∃ h, h ∈ vm3_interfaces ∧ if_index h = IF_ETH0.
Proof. eexists. split; [right; left|reflexivity]. Qed.

Lemma vm3_me : Forall (λ h, if_index h = IF_ETH0 → has_text h "130.245.156.23") vm3_interfaces.
Proof.
  unfold vm3_interfaces. rewrite !Forall_cons. split_and!; [discriminate| |discriminate..|by apply Forall_nil_2].
  intros _. apply (quad_has_text _ 0 130 245 156 23 (replicate 8 0)); [reflexivity|lia|unfold is_byte; lia..].
Qed.

Lemma odr_starts_witness :
  ∃ st tr, odr_main serving (mret vm3_interfaces) 0 2 [] = Done st tr ∧ os_node st = 3 ∧
    map fst (os_if_addr st) = [3; 4].
Proof.
  destruct (odr_starts serving vm3_interfaces 2 "130.245.156.23" 0 serving_ok eq_refl vm3_eth0 vm3_me vm3_texts)
    as (st & tr & Hrun & Hn & Ha & _).
  exists st, tr. split; [exact Hrun|]. split; [exact Hn|]. rewrite Ha. reflexivity.
Defined.

Lemma client_name_fits_witness :
  ∃ st tr, client_main serving six (mret vm3_interfaces) 0 [] = Done st tr ∧ (String.length (as_path st) < ADDR_LEN)%nat.
Proof.
  eexists _, _. split; [vm_compute; reflexivity|].
  eapply (client_name_fits serving six vm3_interfaces 0 _ []).
  - intros tr. reflexivity.
  - vm_compute. reflexivity.
Defined.
End witnesses.
