(* ===== verification/FileServer.v ===== *)
(** The file server of Assignment 2 (server.c): the parent that accepts requests, the
    handshake of a child with its client, and the child's sender, a go-back window
    protocol with slow start, congestion avoidance and fast retransmit.

    The sender is a state machine: one step handles one datagram or signal and runs up
    to the next blocking call. *)

From S2P Require Export LinkList Rtt CirQueue.

(** * Data *)

(** An interface of the server: [ip_addr], [mask] and [subnet] in host order. *)
Record socket_info := mk_socket {
  ip_addr : Z;
  mask : Z;
  subnet : Z
}.

Definition MAXIMUM_SOCKET : nat := 10.

(** What goes out to the client.  The header's two fields are in network order; its
    window field is never set, and the client does not read it. *)
Inductive datagram :=
  | PortFrom (child : bool) (port : Z) (* from the child's socket or the listening one *)
  | Hdr (hseq hts : Z)
  | Data (bytes : string)
  | LastInt.

(** Where the window probe returns to. *)
Inductive resume_at := AtTop | AfterTimeout | AfterDuplicates.

Inductive phase :=
  | Awaiting (* recv in the ACK loop *)
  | Probing (k : resume_at) (* pselect for a new window size *)
  | Ended.

Record sender := mk_sender {
  s_queue : CirQueue;
  s_rtt : rtt_info;
  s_rest : string; (* bytes of the file not read yet *)
  s_eof : bool; (* feof(file) *)
  s_copy : data; (* localcopy *)
  s_seqno : Z; (* uint32_t sequence_number *)
  s_head : Z; (* uint32_t head *)
  s_cwnd : Z;
  s_ssh : Z;
  s_cac : Z; (* congestion_avoid_count *)
  s_window : Z; (* sending_window *)
  s_recv_window : Z;
  s_received : Z;
  s_measured : Z; (* uint32_t measure_rtt *)
  s_blocked : bool; (* SIGALRM is masked *)
  s_alarm : Z; (* seconds of the running alarm, 0 when off *)
  s_ticks : nat; (* calls of gettimeofday so far *)
  s_phase : phase;
  s_out : list datagram (* what was sent *)
}.

Definition put_queue (x : CirQueue) (s : sender) : sender :=
  mk_sender x (s_rtt s) (s_rest s) (s_eof s) (s_copy s) (s_seqno s) (s_head s) (s_cwnd s) (s_ssh s) (s_cac s) (s_window s) (s_recv_window s) (s_received s) (s_measured s) (s_blocked s) (s_alarm s) (s_ticks s) (s_phase s) (s_out s).
Definition put_rtt (x : rtt_info) (s : sender) : sender :=
  mk_sender (s_queue s) x (s_rest s) (s_eof s) (s_copy s) (s_seqno s) (s_head s) (s_cwnd s) (s_ssh s) (s_cac s) (s_window s) (s_recv_window s) (s_received s) (s_measured s) (s_blocked s) (s_alarm s) (s_ticks s) (s_phase s) (s_out s).
Definition put_rest (x : string) (s : sender) : sender :=
  mk_sender (s_queue s) (s_rtt s) x (s_eof s) (s_copy s) (s_seqno s) (s_head s) (s_cwnd s) (s_ssh s) (s_cac s) (s_window s) (s_recv_window s) (s_received s) (s_measured s) (s_blocked s) (s_alarm s) (s_ticks s) (s_phase s) (s_out s).
Definition put_eof (x : bool) (s : sender) : sender :=
  mk_sender (s_queue s) (s_rtt s) (s_rest s) x (s_copy s) (s_seqno s) (s_head s) (s_cwnd s) (s_ssh s) (s_cac s) (s_window s) (s_recv_window s) (s_received s) (s_measured s) (s_blocked s) (s_alarm s) (s_ticks s) (s_phase s) (s_out s).
Definition put_copy (x : data) (s : sender) : sender :=
  mk_sender (s_queue s) (s_rtt s) (s_rest s) (s_eof s) x (s_seqno s) (s_head s) (s_cwnd s) (s_ssh s) (s_cac s) (s_window s) (s_recv_window s) (s_received s) (s_measured s) (s_blocked s) (s_alarm s) (s_ticks s) (s_phase s) (s_out s).
Definition put_seqno (x : Z) (s : sender) : sender :=
  mk_sender (s_queue s) (s_rtt s) (s_rest s) (s_eof s) (s_copy s) x (s_head s) (s_cwnd s) (s_ssh s) (s_cac s) (s_window s) (s_recv_window s) (s_received s) (s_measured s) (s_blocked s) (s_alarm s) (s_ticks s) (s_phase s) (s_out s).
Definition put_head (x : Z) (s : sender) : sender :=
  mk_sender (s_queue s) (s_rtt s) (s_rest s) (s_eof s) (s_copy s) (s_seqno s) x (s_cwnd s) (s_ssh s) (s_cac s) (s_window s) (s_recv_window s) (s_received s) (s_measured s) (s_blocked s) (s_alarm s) (s_ticks s) (s_phase s) (s_out s).
Definition put_cwnd (x : Z) (s : sender) : sender :=
  mk_sender (s_queue s) (s_rtt s) (s_rest s) (s_eof s) (s_copy s) (s_seqno s) (s_head s) x (s_ssh s) (s_cac s) (s_window s) (s_recv_window s) (s_received s) (s_measured s) (s_blocked s) (s_alarm s) (s_ticks s) (s_phase s) (s_out s).
Definition put_ssh (x : Z) (s : sender) : sender :=
  mk_sender (s_queue s) (s_rtt s) (s_rest s) (s_eof s) (s_copy s) (s_seqno s) (s_head s) (s_cwnd s) x (s_cac s) (s_window s) (s_recv_window s) (s_received s) (s_measured s) (s_blocked s) (s_alarm s) (s_ticks s) (s_phase s) (s_out s).
Definition put_cac (x : Z) (s : sender) : sender :=
  mk_sender (s_queue s) (s_rtt s) (s_rest s) (s_eof s) (s_copy s) (s_seqno s) (s_head s) (s_cwnd s) (s_ssh s) x (s_window s) (s_recv_window s) (s_received s) (s_measured s) (s_blocked s) (s_alarm s) (s_ticks s) (s_phase s) (s_out s).
Definition put_window (x : Z) (s : sender) : sender :=
  mk_sender (s_queue s) (s_rtt s) (s_rest s) (s_eof s) (s_copy s) (s_seqno s) (s_head s) (s_cwnd s) (s_ssh s) (s_cac s) x (s_recv_window s) (s_received s) (s_measured s) (s_blocked s) (s_alarm s) (s_ticks s) (s_phase s) (s_out s).
Definition put_recv_window (x : Z) (s : sender) : sender :=
  mk_sender (s_queue s) (s_rtt s) (s_rest s) (s_eof s) (s_copy s) (s_seqno s) (s_head s) (s_cwnd s) (s_ssh s) (s_cac s) (s_window s) x (s_received s) (s_measured s) (s_blocked s) (s_alarm s) (s_ticks s) (s_phase s) (s_out s).
Definition put_received (x : Z) (s : sender) : sender :=
  mk_sender (s_queue s) (s_rtt s) (s_rest s) (s_eof s) (s_copy s) (s_seqno s) (s_head s) (s_cwnd s) (s_ssh s) (s_cac s) (s_window s) (s_recv_window s) x (s_measured s) (s_blocked s) (s_alarm s) (s_ticks s) (s_phase s) (s_out s).
Definition put_measured (x : Z) (s : sender) : sender :=
  mk_sender (s_queue s) (s_rtt s) (s_rest s) (s_eof s) (s_copy s) (s_seqno s) (s_head s) (s_cwnd s) (s_ssh s) (s_cac s) (s_window s) (s_recv_window s) (s_received s) x (s_blocked s) (s_alarm s) (s_ticks s) (s_phase s) (s_out s).
Definition put_blocked (x : bool) (s : sender) : sender :=
  mk_sender (s_queue s) (s_rtt s) (s_rest s) (s_eof s) (s_copy s) (s_seqno s) (s_head s) (s_cwnd s) (s_ssh s) (s_cac s) (s_window s) (s_recv_window s) (s_received s) (s_measured s) x (s_alarm s) (s_ticks s) (s_phase s) (s_out s).
Definition put_alarm (x : Z) (s : sender) : sender :=
  mk_sender (s_queue s) (s_rtt s) (s_rest s) (s_eof s) (s_copy s) (s_seqno s) (s_head s) (s_cwnd s) (s_ssh s) (s_cac s) (s_window s) (s_recv_window s) (s_received s) (s_measured s) (s_blocked s) x (s_ticks s) (s_phase s) (s_out s).
Definition put_ticks (x : nat) (s : sender) : sender :=
  mk_sender (s_queue s) (s_rtt s) (s_rest s) (s_eof s) (s_copy s) (s_seqno s) (s_head s) (s_cwnd s) (s_ssh s) (s_cac s) (s_window s) (s_recv_window s) (s_received s) (s_measured s) (s_blocked s) (s_alarm s) x (s_phase s) (s_out s).
Definition put_phase (x : phase) (s : sender) : sender :=
  mk_sender (s_queue s) (s_rtt s) (s_rest s) (s_eof s) (s_copy s) (s_seqno s) (s_head s) (s_cwnd s) (s_ssh s) (s_cac s) (s_window s) (s_recv_window s) (s_received s) (s_measured s) (s_blocked s) (s_alarm s) (s_ticks s) x (s_out s).
Definition put_out (x : list datagram) (s : sender) : sender :=
  mk_sender (s_queue s) (s_rtt s) (s_rest s) (s_eof s) (s_copy s) (s_seqno s) (s_head s) (s_cwnd s) (s_ssh s) (s_cac s) (s_window s) (s_recv_window s) (s_received s) (s_measured s) (s_blocked s) (s_alarm s) (s_ticks s) (s_phase s) x.

(** What the child's blocking calls report: a datagram (its three fields as they are in
    the 12 bytes), the signal SIGALRM, or an error. *)
Inductive input :=
  | Ack (rseq rts rwin : Z)
  | Alarm
  | RecvError
  | SelectError.

(** * Helpers *)

Definition three_min (first second third : Z) : Z :=
  let first := if first <? second then first else second in
  let first := if first <? third then first else third in
  first.

(** Run an operation of a part of the state. *)
Definition on {St T A} (get_part : St → T) (put_part : T → St → St) (m : M T A) : M St A := λ s,
  match m (get_part s) with
  | Done a t => Done a (put_part t s)
  | Exited c t => Exited c (put_part t s)
  | Undefined u => Undefined u
  end.

Definition on_queue {A} (m : M CirQueue A) : M sender A := on s_queue put_queue m.
Definition on_rtt {A} (m : M rtt_info A) : M sender A := on s_rtt put_rtt m.

(** (512 - 2 * sizeof(uint32_t) - sizeof(int)) / sizeof(char) *)
Definition packet_capacity : nat := 500.

Fixpoint str_drop (n : nat) (s : string) : string :=
  match n, s with
  | O, _ => s
  | S n', String _ s' => str_drop n' s'
  | S _, EmptyString => EmptyString
  end.

Fixpoint zero_bytes (n : nat) : string :=
  match n with O => EmptyString | S n' => String Ascii.zero (zero_bytes n') end.

(** * The sender *)

Section sender.
(** The clock at each call of [gettimeofday], the size of the send window, and which
    datagrams the kernel takes. *)
Context (clock : nat → Z * Z) (send_window : Z) (send_ok : list datagram → datagram → bool).

Definition send (d : datagram) : M sender unit :=
  s ← get;
  if send_ok (s_out s) d then modify (put_out (s_out s ++ [d])) else exit 1.

Definition time_stamp : M sender Z :=
  s ← get;
  modify (put_ticks (S (s_ticks s)));;
  mret (rtt_ts (clock (s_ticks s)).1 (clock (s_ticks s)).2 (s_rtt s)).

(** The header, then the whole array of the datagram [x]. *)
Definition send_data (x : data) : M sender unit :=
  send (Hdr (htonl (seq x)) (htonl (ts x)));;
  send (Data (sendline x)).

(** Datagram [j] of the window, read at [base[front + j]]. *)
Definition resend (j : nat) : M sender unit :=
  s ← get;
  x ← on_queue (base_at (front (s_queue s) + Z.of_nat j));
  send_data x.

Definition resend_window (sending_window : Z) : M sender unit :=
  e ← on_queue IsEmptyCirQueue;
  when (e =? 0)
    (len ← on_queue CirQueueLength;
     for_ 0 (Z.to_nat (if sending_window <=? len then sending_window else len)) resend).

(** [fread(localcopy.sendline, 1, packet_capacity, file)] *)
Definition read_file : M sender unit :=
  s ← get;
  let chunk := String.substring 0 packet_capacity (s_rest s) in
  let x := s_copy s in
  modify (put_copy (mk_data (seq x) (ts x) (overlay chunk (sendline x)) (ack x)));;
  modify (put_rest (str_drop packet_capacity (s_rest s)));;
  modify (put_eof (s_eof s || (String.length (s_rest s) <? packet_capacity)%nat)).

(** One new datagram: the next number, the next bytes of the file, and a time stamp,
    or 0 at the end of the file. *)
Definition send_one : M sender unit :=
  s ← get;
  let n := u32 (s_seqno s + 1) in
  modify (put_seqno n);;
  modify (λ s, put_copy (mk_data n (ts (s_copy s)) (sendline (s_copy s)) (ack (s_copy s))) s);;
  read_file;;
  s ← get;
  t ← if s_eof s then mret 0 else time_stamp;
  modify (λ s, put_copy (mk_data (seq (s_copy s)) t (sendline (s_copy s)) (ack (s_copy s))) s);;
  s ← get;
  on_queue (EnCirQueue (s_copy s));;
  send_data (s_copy s);;
  modify (put_copy (mk_data (seq (s_copy s)) (ts (s_copy s)) (zero_bytes MAXLINE) (ack (s_copy s)))).

(** [for (j = 0; j < n; j++) { ...; if (feof(file)) break; }] *)
Fixpoint send_new (n : nat) : M sender unit :=
  match n with
  | O => mret tt
  | S n' => send_one;; s ← get; if s_eof s then mret tt else send_new n'
  end.

(** DataAlarmAgain: start the timer, then wait for ACKs. *)
Definition arm : M sender unit :=
  t ← on_rtt rtt_start;
  modify (put_alarm t);;
  modify (put_measured 0);;
  modify (put_received 0);;
  modify (put_phase Awaiting).

(** One round: the unacknowledged datagrams again, then new ones, as many as the
    window allows. *)
Definition send_round : M sender unit :=
  s ← get;
  let w := three_min (s_cwnd s) send_window (s_recv_window s) in
  modify (put_window w);;
  on_rtt rtt_newpack;;
  resend_window w;;
  len ← on_queue CirQueueLength;
  more_to_send ← int_op (w - len);
  send_new (Z.to_nat more_to_send);;
  arm.

(** The client's receive window is full: mask SIGALRM and wait for a new size. *)
Definition probe (k : resume_at) : M sender unit :=
  modify (put_blocked true);;
  modify (put_alarm 3);;
  modify (put_phase (Probing k)).

(** The head of the transmission loop. *)
Definition top : M sender unit :=
  s ← get; if s_recv_window s =? 0 then probe AtTop else send_round.

(** After a timeout: the congestion window shrinks to 1 and the first unacknowledged
    datagram is sent again. *)
Definition timeout_resend : M sender unit :=
  s ← get;
  let half := Z.quot (s_cwnd s) 2 in
  modify (put_ssh (if half >? 1 then half else 1));;
  modify (put_cwnd 1);;
  modify (put_window 1);;
  resend 0;;
  arm.

(** After three duplicate ACKs. *)
Definition fast_retransmit : M sender unit :=
  s ← get;
  let half := Z.quot (s_cwnd s) 2 in
  let cwnd := if half >? 1 then half else 1 in
  modify (put_cwnd cwnd);;
  modify (put_ssh cwnd);;
  resend 0;;
  s ← get;
  when (negb (s_eof s))
    (w ← int_op (three_min (s_cwnd s) send_window (s_recv_window s) * 2);
     modify (put_window w);;
     send_new (Z.to_nat (Z.quot w 2 - 1)));;
  arm.

Definition resume (k : resume_at) : M sender unit :=
  match k with
  | AtTop => send_round
  | AfterTimeout => timeout_resend
  | AfterDuplicates => fast_retransmit
  end.

Definition probe_or_resume (k : resume_at) : M sender unit :=
  s ← get; if s_recv_window s =? 0 then probe k else resume k.

(** [rtt_timeout(..) < 0] gives up. *)
Definition count_timeout : M sender unit :=
  r ← on_rtt rtt_timeout;
  if r <? 0 then exit 1 else mret tt.

Definition on_timeout : M sender unit :=
  count_timeout;;
  probe_or_resume AfterTimeout.

(** Slow start below [ssh], congestion avoidance above. *)
Definition grow_window : M sender unit :=
  s ← get;
  if s_cwnd s <? s_ssh s then
    c ← int_op (s_cwnd s + 1); modify (put_cwnd c)
  else
    n ← int_op (s_cac s + 1);
    modify (put_cac n);;
    when (n =? s_cwnd s)
      (c ← int_op (s_cwnd s + 1); modify (put_cwnd c);; modify (put_cac 0)).

(** [for ( ; head != seq; head++) DeCirQueue(send_buffer);] for [seq > head]. *)
Definition slide (rseq : Z) : M sender unit :=
  s ← get;
  when (rseq >? s_head s)
    (for_ 0 (Z.to_nat (rseq - s_head s)) (λ _,
       on_queue DeCirQueue;; modify (λ s, put_head (u32 (s_head s + 1)) s))).

(** [++(base[front].ack)], and its reset. *)
Definition count_ack : M sender Z :=
  s ← get;
  x ← on_queue (base_at (front (s_queue s)));
  a ← int_op (ack x + 1);
  on_queue (base_set (front (s_queue s)) (mk_data (seq x) (ts x) (sendline x) a));;
  mret a.

Definition clear_ack : M sender unit :=
  s ← get;
  x ← on_queue (base_at (front (s_queue s)));
  on_queue (base_set (front (s_queue s)) (mk_data (seq x) (ts x) (sendline x) 0)).

Definition finish : M sender unit :=
  send LastInt;;
  modify (put_phase Ended).

(** After an ACK that is no third duplicate: on with the loop, or the next round. *)
Definition next_ack : M sender unit :=
  s ← get;
  e ← on_queue IsEmptyCirQueue;
  if negb (s_received s =? s_window s) && (e =? 0) then mret tt
  else
    modify (put_alarm 0);;
    on_rtt (rtt_stop (s_measured s));;
    top.

Definition on_ack (rseq rts rwin : Z) : M sender unit :=
  grow_window;;
  s ← get;
  n ← int_op (s_received s + 1);
  modify (put_received n);;
  when (s_measured s =? 0)
    (t ← time_stamp; modify (put_measured (u32 (t - ntohl rts))));;
  if ntohl rseq =? 0 then finish
  else
    slide (ntohl rseq);;
    modify (put_recv_window (ntohs rwin));;
    a ← count_ack;
    if a =? 3 then
      modify (put_alarm 0);;
      clear_ack;;
      count_timeout;;
      probe_or_resume AfterDuplicates
    else next_ack.

(** One step of the child process.  While it waits in [recv], a masked SIGALRM stays
    pending; [pselect] lets it through. *)
Definition step (i : input) : M sender unit :=
  s ← get;
  match s_phase s, i with
  | Ended, _ => mret tt
  | Awaiting, Ack rseq rts rwin => on_ack rseq rts rwin
  | Awaiting, Alarm => if s_blocked s then mret tt else on_timeout
  | Awaiting, RecvError => exit 1
  | Awaiting, SelectError => mret tt
  | Probing k, Alarm =>
      send (Hdr (htonl 0) (htonl 0));;
      modify (put_alarm 3)
  | Probing k, Ack _ _ rwin =>
      modify (put_recv_window (ntohs rwin));;
      s ← get;
      if s_recv_window s >? 0 then resume k else modify (put_alarm 3)
  | Probing k, (RecvError | SelectError) => exit 1
  end.

Fixpoint steps (l : list input) : M sender unit :=
  match l with [] => mret tt | i :: l' => step i;; steps l' end.

(** The transmission starts once the file is open: the timer is set up and the queue is
    allocated ([mem] is what [malloc] returns). *)
Definition begin_transfer (mem : option (list data)) : M sender unit :=
  on_queue (InitCirQueue mem send_window);;
  modify (λ s, put_window 0 (put_cwnd 1 (put_ssh 65535 (put_cac 0 (put_received 0
                 (put_seqno 0 (put_head 1 s)))))));;
  s ← get;
  modify (put_ticks (S (s_ticks s)));;
  on_rtt (rtt_init (clock (s_ticks s)).1);;
  top.
End sender.

(** * Invariants *)

Lemma preserves_on {T A} (I : sender → Prop) (g : sender → T) (p : T → sender → sender) (m : M T A) :
  (∀ t s, I s → I (p t s)) → preserves I (on g p m).
Proof.
  intros Hp s Hs. unfold wpx, on. by destruct (m (g s)); [apply Hp..|].
Qed.

(** A property of the state that does not depend on the parts the transmission of
    datagrams changes. *)
Definition transparent (I : sender → Prop) : Prop :=
  ∀ s, I s → (∀ x, I (put_queue x s)) ∧ (∀ x, I (put_rtt x s)) ∧ (∀ x, I (put_rest x s)) ∧
    (∀ x, I (put_eof x s)) ∧ (∀ x, I (put_copy x s)) ∧ (∀ x, I (put_seqno x s)) ∧ (∀ x, I (put_ticks x s)) ∧
    (∀ x, I (put_out x s)) ∧ (∀ x, I (put_window x s)) ∧ (∀ x, I (put_alarm x s)) ∧
    (∀ x, I (put_received x s)) ∧ (∀ x, I (put_measured x s)) ∧ (∀ x, I (put_head x s)) ∧
    (∀ x, I (put_recv_window x s)).

Section invariants.
Context (clock : nat → Z * Z) (send_window : Z) (send_ok : list datagram → datagram → bool).
Context (I : sender → Prop) (HI : transparent I).

Lemma transparent_modify f :
  (∀ s, I s → I (f s)) → preserves I (modify f).
Proof. apply preserves_modify. Qed.

Ltac tr := let s := fresh in let H := fresh in
  intros s H; destruct (HI s H) as (?&?&?&?&?&?&?&?&?&?&?&?&?&?); auto.

Lemma preserves_queue {A} (m : M CirQueue A) : preserves I (on_queue m).
Proof. apply preserves_on. intros t. tr. Qed.

Lemma preserves_rtt {A} (m : M rtt_info A) : preserves I (on_rtt m).
Proof. apply preserves_on. intros t. tr. Qed.

Hint Resolve preserves_queue preserves_rtt : preserves.
Hint Extern 1 (preserves I (modify _)) => (apply preserves_modify; tr) : preserves.

Lemma preserves_send d : preserves I (send send_ok d).
Proof.
  apply preserves_read. intros s Hs. destruct (send_ok (s_out s) d); [|done]. by apply HI.
Qed.
Hint Resolve preserves_send : preserves.

Lemma preserves_send_data x : preserves I (send_data send_ok x).
Proof. unfold send_data. auto with preserves. Qed.
Hint Resolve preserves_send_data : preserves.

Lemma preserves_resend j : preserves I (resend send_ok j).
Proof. unfold resend. auto with preserves. Qed.
Hint Resolve preserves_resend : preserves.

Lemma preserves_time_stamp : preserves I (time_stamp clock).
Proof. unfold time_stamp. auto 10 with preserves. Qed.
Hint Resolve preserves_time_stamp : preserves.

Lemma preserves_send_one : preserves I (send_one clock send_ok).
Proof. unfold send_one, read_file. auto 40 with preserves. Qed.
Hint Resolve preserves_send_one : preserves.

Lemma preserves_send_new n : preserves I (send_new clock send_ok n).
Proof. induction n as [|n IH]; simpl; auto 10 with preserves. Qed.
Hint Resolve preserves_send_new : preserves.

Lemma preserves_resend_window w : preserves I (resend_window send_ok w).
Proof. unfold resend_window. auto 10 with preserves. Qed.
Hint Resolve preserves_resend_window : preserves.

Context (Hphase : ∀ s, I s → I (put_phase Awaiting s)).

Lemma preserves_arm : preserves I arm.
Proof.
  unfold arm. do 4 (apply preserves_bind; [auto with preserves|intros ?]). by apply preserves_modify.
Qed.
Hint Resolve preserves_arm : preserves.

Lemma preserves_send_round : preserves I (send_round clock send_window send_ok).
Proof. unfold send_round. auto 20 with preserves. Qed.
Hint Resolve preserves_send_round : preserves.

Context (Hprobe : ∀ k, preserves I (probe k)).
Hint Resolve Hprobe : preserves.

Lemma preserves_top : preserves I (top clock send_window send_ok).
Proof. unfold top. auto 10 with preserves. Qed.
Hint Resolve preserves_top : preserves.

Context (Htimeout : preserves I (timeout_resend send_ok)).
Context (Hfast : preserves I (fast_retransmit clock send_window send_ok)).
Context (Hgrow : preserves I grow_window).
Context (Hfinish : ∀ s, I s → I (put_phase Ended s)).

Lemma preserves_resume k : preserves I (resume clock send_window send_ok k).
Proof. by destruct k; [apply preserves_send_round|..]. Qed.
Hint Resolve preserves_resume : preserves.

Lemma preserves_probe_or_resume k : preserves I (probe_or_resume clock send_window send_ok k).
Proof. unfold probe_or_resume. auto 10 with preserves. Qed.
Hint Resolve preserves_probe_or_resume : preserves.

Lemma preserves_count_timeout : preserves I count_timeout.
Proof. unfold count_timeout. auto 10 with preserves. Qed.
Hint Resolve preserves_count_timeout : preserves.

Lemma preserves_on_ack q t w : preserves I (on_ack clock send_window send_ok q t w).
Proof.
  unfold on_ack, finish, slide, count_ack, clear_ack, next_ack.
  apply preserves_bind; [exact Hgrow|intros _]. apply preserves_bind; [auto with preserves|intros s].
  apply preserves_bind; [auto with preserves|intros n]. apply preserves_bind; [auto with preserves|intros _].
  apply preserves_bind; [auto 10 with preserves|intros _]. apply preserves_if.
  - apply preserves_bind; [auto with preserves|intros _]. by apply preserves_modify.
  - apply preserves_bind; [auto 10 with preserves|intros _]. apply preserves_bind; [auto with preserves|intros _].
    apply preserves_bind; [auto 10 with preserves|intros a]. apply preserves_if; auto 20 with preserves.
Qed.
Hint Resolve preserves_on_ack : preserves.

Lemma preserves_step i : preserves I (step clock send_window send_ok i).
Proof.
  unfold step, on_timeout. apply preserves_bind; [auto with preserves|intros s].
  destruct (s_phase s) as [|k|], i as [q t w| | |]; auto 20 with preserves.
Qed.

Lemma preserves_steps l : preserves I (steps clock send_window send_ok l).
Proof.
  induction l as [|i l IH]; simpl; [auto with preserves|].
  apply preserves_bind; [apply preserves_step|auto].
Qed.
End invariants.

(** * Congestion control *)

Definition cong_ok (s : sender) : Prop := 1 ≤ s_cwnd s ∧ 1 ≤ s_ssh s ∧ 0 ≤ s_cac s.

Lemma cong_transparent : transparent cong_ok.
Proof. intros s Hs. split_and!; intros x; exact Hs. Qed.

Lemma int_op_wlp {St} E x (Q : Z → St → Prop) s : Q x s → wpx (λ _, True) E (int_op x) Q s.
Proof. intros HQ. unfold int_op. by destruct (is_int x). Qed.

Lemma cong_grow : preserves cong_ok grow_window.
Proof.
  apply preserves_read. intros s (Hc & Hs & Ha). destruct (s_cwnd s <? s_ssh s); rewrite wpx_bind; apply int_op_wlp.
  - unfold cong_ok, wpx. simpl. lia.
  - rewrite wpx_bind. unfold wpx at 1. simpl. rewrite wpx_when. split; intros _.
    + rewrite wpx_bind. apply int_op_wlp. unfold wpx, cong_ok. simpl. lia.
    + unfold cong_ok. simpl. lia.
Qed.

Lemma cong_phase p s : cong_ok s → cong_ok (put_phase p s).
Proof. done. Qed.

Lemma cong_probe k : preserves cong_ok (probe k).
Proof.
  unfold probe. do 2 (apply preserves_bind; [by apply preserves_modify|intros _]).
  by apply preserves_modify.
Qed.

Lemma cong_timeout send_ok : preserves cong_ok (timeout_resend send_ok).
Proof.
  unfold timeout_resend. apply preserves_read. intros s (_ & _ & Ha). cbv zeta. rewrite !wpx_bind.
  do 2 (unfold wpx at 1; cbn -[Z.quot Z.gtb]; rewrite wpx_bind). unfold wpx at 1. cbn -[Z.quot Z.gtb].
  apply preserves_bind.
  - apply preserves_resend, cong_transparent.
  - intros _. apply preserves_arm; auto using cong_transparent, cong_phase.
  - unfold cong_ok. cbn -[Z.quot Z.gtb]. destruct (Z.gtb_spec (Z.quot (s_cwnd s) 2) 1); lia.
Qed.

Lemma cong_fast clock w send_ok : preserves cong_ok (fast_retransmit clock w send_ok).
Proof.
  unfold fast_retransmit. apply preserves_read. intros s (_ & _ & Ha). cbv zeta.
  rewrite wpx_bind. unfold wpx at 1. cbn -[Z.quot Z.gtb]. rewrite wpx_bind. unfold wpx at 1. cbn -[Z.quot Z.gtb].
  apply preserves_bind.
  - apply preserves_resend, cong_transparent.
  - intros _. apply preserves_bind; [auto with preserves|intros s2]. apply preserves_bind; [|intros _].
    + apply preserves_when. apply preserves_bind; [auto with preserves|intros x].
      apply preserves_bind; [by apply preserves_modify|intros _]. apply preserves_send_new, cong_transparent.
    + apply preserves_arm; auto using cong_transparent, cong_phase.
  - unfold cong_ok. cbn -[Z.quot Z.gtb]. destruct (Z.gtb_spec (Z.quot (s_cwnd s) 2) 1); lia.
Qed.

(** The congestion window never closes.  From the start of a transmission, whatever
    datagrams and signals arrive, [cwnd] and the slow start threshold stay at least 1
    and the counter of congestion avoidance never gets negative. *)
Theorem congestion_window_positive (clock : nat → Z * Z) (send_window : Z)
    (send_ok : list datagram → datagram → bool) (mem : option (list data)) (l : list input) (s0 s : sender)
    (Hrun : (begin_transfer clock send_window send_ok mem;; steps clock send_window send_ok l) s0 = Done tt s) :
  1 ≤ s_cwnd s ∧ 1 ≤ s_ssh s ∧ 0 ≤ s_cac s.
Proof.
  unfold mbind at 1, M_bind at 1 in Hrun.
  destruct (begin_transfer clock send_window send_ok mem s0) as [[] s1|c s1|u] eqn:Hb; [|done..].
  assert (Hs1 : cong_ok s1).
  { unfold begin_transfer in Hb. unfold mbind at 1, M_bind at 1 in Hb.
    destruct (on_queue (InitCirQueue mem send_window) s0) as [[] s2|c s2|u]; [|done..].
    rewrite bind_modify in Hb. set (s3 := put_window 0 _) in Hb.
    assert (Hs3 : cong_ok s3) by (unfold cong_ok; simpl; lia).
    refine (preserves_Done cong_ok _ s3 tt s1 _ Hs3 Hb).
    apply preserves_bind; [auto with preserves|intros s4].
    apply preserves_bind; [by apply preserves_modify|intros _].
    apply preserves_bind; [apply preserves_rtt, cong_transparent|intros _].
    apply preserves_top; auto using cong_transparent, cong_phase, cong_probe. }
  refine (preserves_Done cong_ok _ s1 tt s _ Hs1 Hrun).
  apply preserves_steps; auto using cong_transparent, cong_grow, cong_phase, cong_probe, cong_timeout, cong_fast.
Qed.

(** Congestion avoidance can get stuck.  A loss does not reset the counter of ACKs.
    When the counter is not below the congestion window, no number of further ACKs
    makes the window grow again. *)
Theorem congestion_avoidance_stuck (n : nat) (s s' : sender)
    (Hss : s_ssh s ≤ s_cwnd s) (Hcac : s_cwnd s ≤ s_cac s)
    (Hrun : for_ 0 n (λ _, grow_window) s = Done tt s') :
  s_cwnd s' = s_cwnd s ∧ s_cac s' = s_cac s + Z.of_nat n.
Proof.
  revert s Hss Hcac Hrun. generalize 0%nat. induction n as [|n IH]; intros i s Hss Hcac Hrun.
  - injection Hrun as <-. split; [done|lia].
  - cbn [for_] in Hrun. unfold mbind at 1, M_bind at 1 in Hrun.
    assert (Hg : grow_window s = Done tt (put_cac (s_cac s + 1) s) ∨ ∀ s1, grow_window s ≠ Done tt s1).
    { unfold grow_window. rewrite bind_get. destruct (Z.ltb_spec (s_cwnd s) (s_ssh s)); [lia|].
      unfold int_op. destruct (is_int (s_cac s + 1)); [left|by right].
      rewrite bind_ret, bind_modify. destruct (Z.eqb_spec (s_cac s + 1) (s_cwnd s)); [lia|done]. }
    destruct Hg as [Hg|Hg]; [|by destruct (grow_window s) as [[] s1| |]; [destruct (Hg s1)|..]].
    rewrite Hg in Hrun. destruct (IH _ (put_cac (s_cac s + 1) s) Hss ltac:(simpl; lia) Hrun) as [H1 H2].
    simpl in H1, H2. split; [done|lia].
Qed.

(** * Window probes *)

Definition probe_blocks (s : sender) : Prop := (∃ k, s_phase s = Probing k) → s_blocked s = true.

Lemma blocks_transparent : transparent probe_blocks.
Proof. intros s Hs. split_and!; intros x; exact Hs. Qed.

Lemma blocked_transparent : transparent (λ s, s_blocked s = true).
Proof. intros s Hs. split_and!; intros x; exact Hs. Qed.

Lemma preserves_cong_timeout (I : sender → Prop) send_ok :
  transparent I → (∀ s x, I s → I (put_cwnd x s)) → (∀ s x, I s → I (put_ssh x s)) →
  (∀ s, I s → I (put_phase Awaiting s)) → preserves I (timeout_resend send_ok).
Proof.
  intros HI Hc Hs Hp. unfold timeout_resend. apply preserves_bind; [auto with preserves|intros s1]. cbv zeta.
  apply preserves_bind; [apply preserves_modify; auto|intros _].
  apply preserves_bind; [apply preserves_modify; auto|intros _].
  apply preserves_bind; [apply preserves_modify; intros s Hs1; by apply HI|intros _].
  apply preserves_bind; [by apply preserves_resend|intros _]. by apply preserves_arm.
Qed.

Lemma preserves_cong_fast (I : sender → Prop) clock w send_ok :
  transparent I → (∀ s x, I s → I (put_cwnd x s)) → (∀ s x, I s → I (put_ssh x s)) →
  (∀ s, I s → I (put_phase Awaiting s)) → preserves I (fast_retransmit clock w send_ok).
Proof.
  intros HI Hc Hs Hp. unfold fast_retransmit. apply preserves_bind; [auto with preserves|intros s1]. cbv zeta.
  apply preserves_bind; [apply preserves_modify; auto|intros _].
  apply preserves_bind; [apply preserves_modify; auto|intros _].
  apply preserves_bind; [by apply preserves_resend|intros _].
  apply preserves_bind; [auto with preserves|intros s2].
  apply preserves_bind; [|intros _; by apply preserves_arm].
  apply preserves_when. apply preserves_bind; [auto with preserves|intros x].
  apply preserves_bind; [apply preserves_modify; intros s Hs1; by apply HI|intros _].
  by apply preserves_send_new.
Qed.

Lemma preserves_cong_grow (I : sender → Prop) :
  (∀ s x, I s → I (put_cwnd x s)) → (∀ s x, I s → I (put_cac x s)) → preserves I grow_window.
Proof.
  intros Hc Ha. unfold grow_window. apply preserves_bind; [auto with preserves|intros s].
  assert (Hmc : ∀ x, preserves I (modify (put_cwnd x))) by (intros x; apply preserves_modify; auto).
  assert (Hma : ∀ x, preserves I (modify (put_cac x))) by (intros x; apply preserves_modify; auto).
  auto 20 with preserves.
Qed.

Lemma steps_preserves (I : sender → Prop) clock w send_ok l :
  transparent I → (∀ s x, I s → I (put_cwnd x s)) → (∀ s x, I s → I (put_ssh x s)) →
  (∀ s x, I s → I (put_cac x s)) → (∀ s, I s → I (put_phase Awaiting s)) →
  (∀ s, I s → I (put_phase Ended s)) → (∀ k, preserves I (probe k)) →
  preserves I (steps clock w send_ok l).
Proof.
  intros HI Hc Hs Ha Hp He Hpr. apply preserves_steps; auto using preserves_cong_timeout, preserves_cong_fast,
    preserves_cong_grow.
Qed.

(** A window probe switches retransmission off.  Once the sender asked for a new
    window size, SIGALRM stays masked for the rest of the transmission: whenever the
    sender waits for an ACK again, a timeout changes nothing and nothing is sent. *)
Theorem probe_disables_timeouts (clock : nat → Z * Z) (send_window : Z)
    (send_ok : list datagram → datagram → bool) (mem : option (list data)) (l1 l2 : list input)
    (k : resume_at) (s0 s1 s2 : sender)
    (Hstart : s_phase s0 = Awaiting)
    (Hrun1 : (begin_transfer clock send_window send_ok mem;; steps clock send_window send_ok l1) s0 = Done tt s1)
    (Hprobing : s_phase s1 = Probing k)
    (Hrun2 : steps clock send_window send_ok l2 s1 = Done tt s2) :
  s_blocked s2 = true ∧
  (s_phase s2 = Awaiting → step clock send_window send_ok Alarm s2 = Done tt s2).
Proof.
  assert (Hpr : ∀ k, preserves probe_blocks (probe k)).
  { intros k' s Hs. unfold probe. rewrite !wpx_bind. unfold wpx. simpl. by intros _. }
  assert (Haw : ∀ s, probe_blocks s → probe_blocks (put_phase Awaiting s)) by (intros s _ [? [=]]).
  assert (Hen : ∀ s, probe_blocks s → probe_blocks (put_phase Ended s)) by (intros s _ [? [=]]).
  assert (H1 : s_blocked s1 = true).
  { enough (H : probe_blocks s1) by (apply H; by exists k).
    refine (preserves_Done probe_blocks _ s0 tt s1 _ _ Hrun1); [|intros [? Hc]; by rewrite Hstart in Hc].
    apply preserves_bind; [|intros _; apply steps_preserves; auto using blocks_transparent].
    unfold begin_transfer. apply preserves_bind; [apply preserves_queue, blocks_transparent|intros _].
    apply preserves_bind; [by apply preserves_modify|intros _]. apply preserves_bind; [auto with preserves|intros s].
    apply preserves_bind; [by apply preserves_modify|intros _].
    apply preserves_bind; [apply preserves_rtt, blocks_transparent|intros _].
    apply preserves_top; auto using blocks_transparent. }
  assert (H2 : s_blocked s2 = true).
  { refine (preserves_Done (λ s, s_blocked s = true) _ s1 tt s2 _ H1 Hrun2).
    apply steps_preserves; auto using blocked_transparent. intros k' s Hs. done. }
  split; [done|]. intros Hp. unfold step. rewrite bind_get, Hp. by rewrite H2.
Qed.

(** * The send window *)

(** The sender's queue holds exactly the datagrams [l], which are numbered without a
    gap from [head] to the last sequence number used. *)
Definition unacked (s : sender) (l : list data) : Prop :=
  q_repr (s_queue s) l ∧ 0 < s_head s ∧ s_head s + Z.of_nat (length l) < 2 ^ 32 ∧
  s_seqno s = s_head s + Z.of_nat (length l) - 1 ∧
  ∀ i x, l !! i = Some x → seq x = s_head s + Z.of_nat i.

(** The two datagrams that carry [x]. *)
Definition frames (x : data) : list datagram := [Hdr (htonl (seq x)) (htonl (ts x)); Data (sendline x)].

(** The lines that [n] new datagrams carry when [rest] is left of the file and the array
    they are read into contains [pad]. *)
Fixpoint new_lines (pad : string) (n : nat) (rest : string) (eof : bool) : list string :=
  match n with
  | O => []
  | S n' =>
      overlay (String.substring 0 packet_capacity rest) pad ::
      (let eof' := eof || (String.length rest <? packet_capacity)%nat in
       if eof' then [] else new_lines (zero_bytes MAXLINE) n' (str_drop packet_capacity rest) eof')
  end.

Section window.
Context (clock : nat → Z * Z) (send_ok : list datagram → datagram → bool).
Context (Hsend : ∀ out d, send_ok out d = true).

Lemma send_run d s : send send_ok d s = Done tt (put_out (s_out s ++ [d]) s).
Proof. unfold send. by rewrite bind_get, Hsend. Qed.

Lemma send_data_run x s : send_data send_ok x s = Done tt (put_out (s_out s ++ frames x) s).
Proof.
  unfold send_data. run_step (send_run _ s). rewrite send_run. cbn [s_out put_out]. by rewrite <- app_assoc.
Qed.

Lemma on_queue_run {A} (m : M CirQueue A) s a q :
  m (s_queue s) = Done a q → on_queue m s = Done a (put_queue q s).
Proof. intros Hm. unfold on_queue, on. by rewrite Hm. Qed.

Lemma put_queue_id s : put_queue (s_queue s) s = s.
Proof. by destruct s. Qed.

(** One new datagram. *)
Lemma send_one_run s l :
  unacked s l → Z.of_nat (length l) + 1 < MAX_QSIZE (s_queue s) → s_seqno s + 1 < 2 ^ 32 - 1 →
  ∃ s' x, send_one clock send_ok s = Done tt s' ∧ unacked s' (l ++ [x]) ∧
    MAX_QSIZE (s_queue s') = MAX_QSIZE (s_queue s) ∧ s_seqno s' = s_seqno s + 1 ∧
    sendline x = overlay (String.substring 0 packet_capacity (s_rest s)) (sendline (s_copy s)) ∧
    s_rest s' = str_drop packet_capacity (s_rest s) ∧
    s_eof s' = s_eof s || (String.length (s_rest s) <? packet_capacity)%nat ∧
    (s_eof s' = true → ts x = 0) ∧
    sendline (s_copy s') = zero_bytes MAXLINE ∧ s_out s' = s_out s ++ frames x ∧
    EnCirQueue x (s_queue s) = Done tt (s_queue s') ∧ ack x = ack (s_copy s) ∧ ack (s_copy s') = ack x ∧
    s_rtt s' = s_rtt s.
Proof.
  intros (Hq & Hh & Hmax & Hn & Hseq) Hroom Hlim.
  assert (Hu : u32 (s_seqno s + 1) = s_head s + Z.of_nat (length l)) by (rewrite u32_small; lia).
  unfold send_one, read_file. rewrite bind_get, !bind_modify. cbv zeta. rewrite Hu.
  rewrite <- bind_assoc_M, bind_get. cbv zeta. rewrite <- bind_assoc_M, bind_modify.
  rewrite <- bind_assoc_M, bind_modify, bind_modify, bind_get.
  set (s1 := put_eof _ _).
  set (line := overlay (String.substring 0 packet_capacity (s_rest s)) (sendline (s_copy s))).
  assert (∃ t k, (if s_eof s1 then mret 0 else time_stamp clock) s1 = Done t (put_ticks k s1) ∧ (s_eof s1 = true → t = 0))
    as (t & k & Ht & Ht0).
  { destruct (s_eof s1); [by exists 0, (s_ticks s1)|]. unfold time_stamp. rewrite bind_get, bind_modify.
    eexists _, _. split; [reflexivity|done]. }
  run_step Ht. rewrite bind_modify, bind_get.
  set (s2 := put_copy _ _). set (x := s_copy s2).
  destruct (q_repr_push (s_queue s2) l x Hq Hroom) as (q' & Hq' & Hrepr & Hsize & _).
  rewrite (bind_Done _ _ _ _ _ (on_queue_run _ _ _ _ Hq')).
  rewrite (bind_Done _ _ _ _ _ (send_data_run _ _)). eexists _, x. split; [reflexivity|].
  split; [|split_and!; try done; simpl; lia].
  split; [exact Hrepr|]. unfold Spec.push. rewrite length_app. cbn -[u32]. split_and!; [done|lia|lia|].
  intros i y Hi. destruct (decide (i < length l)%nat) as [Hlt|Hge].
  - rewrite lookup_app_l in Hi by done. by apply Hseq.
  - rewrite lookup_app_r in Hi by lia. destruct (i - length l)%nat eqn:Hd; [|done]. injection Hi as <-.
    unfold x, s2. cbn. lia.
Qed.

(** C19: The file is sent in order.  When the sends succeed and the queue has room for [n]
    more datagrams and the numbers do not wrap around, the loop that sends new data
    numbers its datagrams on from the last one, fills each with the next 500 bytes of the
    file, stops behind the end of the file, appends them to the unacknowledged ones, and
    sends each of them as a header and the whole array.  Behind the 500 bytes, the first
    carries what the array contained before, the others zeros. *)
Theorem send_new_in_order (n : nat) (s : sender) (l : list data)
    (Hu : unacked s l) (Hroom : Z.of_nat (length l) + Z.of_nat n < MAX_QSIZE (s_queue s))
    (Hlim : s_seqno s + Z.of_nat n < 2 ^ 32 - 1) :
  ∃ s' new, send_new clock send_ok n s = Done tt s' ∧ unacked s' (l ++ new) ∧
    sendline <$> new = new_lines (sendline (s_copy s)) n (s_rest s) (s_eof s) ∧
    s_out s' = s_out s ++ concat (frames <$> new).
Proof.
  revert s l Hu Hroom Hlim. induction n as [|n IH]; intros s l Hu Hroom Hlim.
  - exists s, []. rewrite !app_nil_r. done.
  - cbn [send_new new_lines]. cbv zeta.
    destruct (send_one_run s l Hu ltac:(lia) ltac:(lia))
      as (s1 & x & Hrun & Hu1 & Hsz & Hs1 & Hx & Hrest & Heof & _ & Hz & Hout & _).
    rewrite (bind_Done _ _ _ _ _ Hrun), bind_get, <- Heof, <- Hrest.
    destruct (s_eof s1) eqn:He1.
    + exists s1, [x]. split_and!; [done|done| |by rewrite Hout]. simpl. by rewrite Hx.
    + destruct (IH s1 (l ++ [x]) Hu1) as (s' & new & Hrun' & Hu' & Hlines & Hout').
      { rewrite length_app, Hsz. simpl. lia. }
      { lia. }
      exists s', (x :: new). rewrite Hrun'. split_and!; [done| | |].
      * by rewrite <- (app_assoc l [x] new) in Hu'.
      * rewrite fmap_cons, Hlines, Hx, Hz. by rewrite He1.
      * rewrite Hout', Hout. simpl. by rewrite <- app_assoc.
Qed.

(** A datagram of the window, read behind the front without going round the block. *)
Lemma resend_run s l j x :
  unacked s l → l !! j = Some x → front (s_queue s) + Z.of_nat j < MAX_QSIZE (s_queue s) →
  resend send_ok j s = Done tt (put_out (s_out s ++ frames x) s).
Proof.
  intros ((Hwf & _ & Hnth) & _) Hj Hlt. pose proof Hwf as (b & Hb & Hlb & Hf & _).
  assert (Hat : base_at (front (s_queue s) + Z.of_nat j) (s_queue s) = Done x (s_queue s)).
  { specialize (Hnth j (lookup_lt_Some _ _ _ Hj)). rewrite Hj in Hnth. unfold q_nth in Hnth.
    rewrite Hb in Hnth. simpl in Hnth. rewrite Z.mod_small in Hnth by lia.
    unfold base_at. rewrite bind_get, Hb. change (of_opt NullDeref (Some b)) with (mret (M:=M CirQueue) b).
    rewrite bind_ret. unfold rd, of_opt, arr_at. destruct (Z.ltb_spec (front (s_queue s) + Z.of_nat j) 0); [lia|].
    by rewrite Hnth. }
  unfold resend. rewrite bind_get, (bind_Done _ _ _ _ _ (on_queue_run _ _ _ _ Hat)), put_queue_id.
  apply send_data_run.
Qed.

Lemma unacked_out s l evs : unacked s l → unacked (put_out evs s) l.
Proof. done. Qed.

Lemma put_out_out a b s : put_out a (put_out b s) = put_out a s.
Proof. done. Qed.

Lemma resend_loop s l n i :
  unacked s l → (i + n ≤ length l)%nat →
  front (s_queue s) + Z.of_nat i + Z.of_nat n ≤ MAX_QSIZE (s_queue s) →
  for_ i n (resend send_ok) s
  = Done tt (put_out (s_out s ++ concat (frames <$> take n (drop i l))) s).
Proof.
  revert s i. induction n as [|n IH]; intros s i Hu Hle Hfr; cbn [for_].
  - rewrite take_0. simpl. rewrite app_nil_r. by destruct s.
  - destruct (lookup_lt_is_Some_2 l i) as [x Hx]; [lia|].
    rewrite (bind_Done _ _ _ _ _ (resend_run s l i x Hu Hx ltac:(lia))).
    rewrite (IH (put_out _ s) (S i) (unacked_out _ _ _ Hu)); [|lia|simpl; lia].
    rewrite put_out_out. cbn [s_out put_out]. rewrite <- app_assoc.
    by rewrite (drop_S l x i Hx), firstn_cons, fmap_cons.
Qed.

Lemma queue_length_run s l :
  unacked s l → on_queue CirQueueLength s = Done (Z.of_nat (length l)) s.
Proof.
  intros ((Hwf & Hlen & _) & _).
  rewrite (on_queue_run _ _ _ _ (CirQueueLength_run _ Hwf)), put_queue_id. by rewrite Hlen.
Qed.

Lemma queue_empty_run s l :
  unacked s l → on_queue IsEmptyCirQueue s = Done (if Z.of_nat (length l) =? 0 then 1 else 0) s.
Proof.
  intros ((Hwf & Hlen & _) & _).
  rewrite (on_queue_run _ _ _ _ (IsEmpty_run _ Hwf)), put_queue_id. by rewrite Hlen.
Qed.

(** C39: What a round sends again.  When the sends succeed: while the window lies before the end of the block, the
    sender sends the first [min(sending_window, length)] unacknowledged datagrams again
    in order; as soon as it would go round the end of the block, the index runs out of
    the block instead. *)
Theorem resend_window_spec (s : sender) (l : list data) (w : Z)
    (Hu : unacked s l) (Hw : 0 ≤ w) :
  let n := Z.min w (Z.of_nat (length l)) in
  (front (s_queue s) + n ≤ MAX_QSIZE (s_queue s) →
     resend_window send_ok w s
     = Done tt (put_out (s_out s ++ concat (frames <$> take (Z.to_nat n) l)) s)) ∧
  (MAX_QSIZE (s_queue s) < front (s_queue s) + n →
     resend_window send_ok w s = Undefined OutOfBounds).
Proof.
  cbv zeta. set (n := Z.min w (Z.of_nat (length l))).
  assert (Hn : (if w <=? Z.of_nat (length l) then w else Z.of_nat (length l)) = n)
    by (unfold n; destruct (Z.leb_spec w (Z.of_nat (length l))); lia).
  assert (Hrun : resend_window send_ok w s = if n =? 0 then Done tt s else for_ 0 (Z.to_nat n) (resend send_ok) s).
  { unfold resend_window. rewrite (bind_Done _ _ _ _ _ (queue_empty_run s l Hu)).
    destruct (Z.eqb_spec (Z.of_nat (length l)) 0) as [H0|H0].
    - destruct (Z.eqb_spec n 0) as [|Hn0]; [done|unfold n in *; lia].
    - cbn [Z.eqb when]. rewrite (bind_Done _ _ _ _ _ (queue_length_run s l Hu)), Hn.
      destruct (Z.eqb_spec n 0) as [->|]; [|done]. done. }
  rewrite Hrun. pose proof Hu as ((Hwf & _) & _). pose proof Hwf as (b & Hb & Hlb & Hf & _). split; intros Hfr.
  - destruct (Z.eqb_spec n 0) as [->|Hn0].
    + rewrite take_0. simpl. rewrite app_nil_r. by destruct s.
    + rewrite (resend_loop s l (Z.to_nat n) 0 Hu); [by rewrite drop_0|unfold n; lia|lia].
  - destruct (Z.eqb_spec n 0) as [|Hn0]; [lia|].
    set (k := Z.to_nat (MAX_QSIZE (s_queue s) - front (s_queue s))).
    replace (Z.to_nat n) with (k + S (Z.to_nat n - k - 1))%nat by lia.
    rewrite for_app, (bind_Done _ _ _ _ _ (resend_loop s l k 0 Hu ltac:(unfold n in *; lia) ltac:(lia))).
    cbn [for_]. apply bind_Undefined. unfold resend. rewrite bind_get. apply bind_Undefined.
    unfold on_queue, on, base_at. cbn [s_queue put_out].
    rewrite bind_get, Hb. change (of_opt NullDeref (Some b)) with (mret (M:=M CirQueue) b).
    rewrite bind_ret. unfold rd, of_opt, arr_at.
    destruct (Z.ltb_spec (front (s_queue s) + Z.of_nat (0 + k)) 0); [lia|].
    rewrite lookup_ge_None_2 by lia. done.
Qed.

(** Taking [n] datagrams from the front of the window. *)
Definition taken (n : nat) (s : sender) : sender :=
  put_head (s_head s + Z.of_nat n)
    (put_queue (set_front ((front (s_queue s) + Z.of_nat n) mod MAX_QSIZE (s_queue s)) (s_queue s)) s).

Lemma taken_0 s l : unacked s l → taken 0 s = s.
Proof.
  intros (((b & _ & _ & Hf & _) & _) & _). unfold taken. rewrite !Z.add_0_r, Z.mod_small by lia.
  by destruct s as [[]].
Qed.

Lemma taken_run n i s l :
  unacked s l → (n ≤ length l)%nat →
  for_ i n (λ _, on_queue DeCirQueue;; modify (λ s, put_head (u32 (s_head s + 1)) s)) s = Done tt (taken n s) ∧
  unacked (taken n s) (drop n l).
Proof.
  revert i s l. induction n as [|n IH]; intros i s l Hu Hn; cbn [for_].
  - rewrite (taken_0 s l Hu), drop_0. done.
  - destruct l as [|x l]; [simpl in Hn; lia|]. pose proof Hu as (Hq & Hh & Hmax & Hsn & Hseq).
    pose proof Hq as (Hwf & _). pose proof Hwf as (b & _ & _ & Hf & _).
    destruct (q_repr_pop _ x l Hq) as (q' & Hq' & Hrepr & Hsz & _).
    rewrite (DeCirQueue_run _ Hwf) in Hq'. injection Hq' as Hq'. simpl in Hmax, Hsn, Hn.
    rewrite <- bind_assoc_M, (bind_Done _ _ _ _ _ (on_queue_run _ _ _ _ (DeCirQueue_run _ Hwf))), bind_modify, Hq'.
    set (s1 := put_head _ _). assert (Hh1 : s_head s1 = s_head s + 1) by (simpl; apply u32_small; lia).
    destruct (IH (S i) s1 l) as [Hrun Hu']; [|lia|].
    { split; [exact Hrepr|]. rewrite Hh1. split_and!; [lia|lia|simpl; lia|].
      intros j y Hj. specialize (Hseq (S j) y Hj). lia. }
    assert (Ht : taken n s1 = taken (S n) s).
    { unfold taken. rewrite Hh1. unfold s1. cbn [s_queue put_head put_queue]. rewrite <- Hq'. cbn [front MAX_QSIZE set_front].
      rewrite Zplus_mod_idemp_l. replace (front (s_queue s) + 1 + Z.of_nat n) with (front (s_queue s) + Z.of_nat (S n)) by lia.
      replace (s_head s + 1 + Z.of_nat n) with (s_head s + Z.of_nat (S n)) by lia. done. }
    rewrite <- Ht. done.
Qed.

Lemma slide_run s l rseq :
  unacked s l → 0 ≤ rseq ≤ s_seqno s + 1 →
  slide rseq s = Done tt (taken (Z.to_nat (rseq - s_head s)) s) ∧
  unacked (taken (Z.to_nat (rseq - s_head s)) s) (drop (Z.to_nat (rseq - s_head s)) l).
Proof.
  intros Hu Hle. unfold slide. rewrite bind_get. destruct (Z.gtb_spec rseq (s_head s)) as [Hgt|Hng]; cbn [when].
  - apply taken_run; [done|]. destruct Hu as (_ & _ & _ & Hsn & _). lia.
  - replace (Z.to_nat (rseq - s_head s)) with 0%nat by lia. by rewrite (taken_0 s l Hu), drop_0.
Qed.

(** An acknowledgement is cumulative.  An ACK for a number of the window takes exactly
    the datagrams below it from the front of the queue, and an old one takes none. *)
Theorem slide_cumulative (s : sender) (l : list data) (rseq : Z)
    (Hu : unacked s l) (Hle : 0 ≤ rseq ≤ s_seqno s + 1) :
  ∃ s', slide rseq s = Done tt s' ∧ s_head s' = Z.max (s_head s) rseq ∧
        unacked s' (drop (Z.to_nat (rseq - s_head s)) l) ∧ s_out s' = s_out s.
Proof.
  destruct (slide_run s l rseq Hu Hle) as [Hrun Hu']. eexists. split; [exact Hrun|]. split; [|by split].
  unfold taken. cbn [s_head put_head]. lia.
Qed.
End window.

(** * Timeouts *)

Lemma on_rtt_run {A} (m : M rtt_info A) s a p :
  m (s_rtt s) = Done a p → on_rtt m s = Done a (put_rtt p s).
Proof. intros Hm. unfold on_rtt, on. by rewrite Hm. Qed.

Lemma half_max x : 1 ≤ x → (if Z.quot x 2 >? 1 then Z.quot x 2 else 1) = Z.max 1 (x / 2).
Proof. intros Hx. rewrite Z.quot_div_nonneg by lia. destruct (Z.gtb_spec (x / 2) 1); lia. Qed.

(** A timeout closes the window.  While the sender waits for ACKs, SIGALRM makes it
    send the first unacknowledged datagram again with a congestion window of 1, half of
    the old one as the slow start threshold, and twice the timeout, up to 3 seconds;
    after 12 timeouts of a round it gives up instead. *)
Theorem timeout_resends_first (clock : nat → Z * Z) (send_window : Z) (send_ok : list datagram → datagram → bool)
    (s : sender) (l : list data) (x : data)
    (Hsend : ∀ out d, send_ok out d = true) (Hu : unacked s (x :: l))
    (Hphase : s_phase s = Awaiting) (Hmask : s_blocked s = false) (Hopen : s_recv_window s ≠ 0)
    (Hcwnd : 1 ≤ s_cwnd s) (Hrtt : rtt_ok (s_rtt s)) (Hcount : 0 ≤ rtt_nrexmt (s_rtt s) ≤ 12) :
  if rtt_nrexmt (s_rtt s) =? 12
  then ∃ s', step clock send_window send_ok Alarm s = Exited 1 s' ∧ s_out s' = s_out s
  else ∃ s', step clock send_window send_ok Alarm s = Done tt s' ∧
         s_out s' = s_out s ++ frames x ∧ s_cwnd s' = 1 ∧ s_ssh s' = Z.max 1 (s_cwnd s / 2) ∧
         s_window s' = 1 ∧ s_phase s' = Awaiting ∧
         s_alarm s' = Z.min 3 (2 * rtt_rto (s_rtt s)) ∧
         rtt_nrexmt (s_rtt s') = rtt_nrexmt (s_rtt s) + 1 ∧ unacked s' (x :: l).
Proof.
  unfold step. rewrite bind_get, Hphase, Hmask. unfold on_timeout, count_timeout.
  destruct Hrtt as [Hrto _].
  pose proof (rtt_timeout_run (s_rtt s) Hrto ltac:(unfold INT_MAX; lia)) as Ht.
  destruct (Z.eqb_spec (rtt_nrexmt (s_rtt s)) 12) as [H12|Hlt].
  - rewrite H12 in Ht. eexists. split.
    { apply bind_Exited. rewrite (bind_Done _ _ _ _ _ (on_rtt_run _ _ _ _ Ht)). reflexivity. }
    done.
  - assert ((rtt_nrexmt (s_rtt s) + 1 >? RTT_MAXNREXMT) = false) as Hle.
    { unfold RTT_MAXNREXMT. destruct (Z.gtb_spec (rtt_nrexmt (s_rtt s) + 1) 12); [lia|done]. }
    rewrite Hle in Ht. rewrite <- bind_assoc_M, (bind_Done _ _ _ _ _ (on_rtt_run _ _ _ _ Ht)).
    change (0 <? 0) with false. cbv iota. rewrite bind_ret. unfold probe_or_resume. rewrite bind_get.
    cbn [s_recv_window put_rtt]. destruct (Z.eqb_spec (s_recv_window s) 0); [done|].
    unfold resume, timeout_resend. rewrite bind_get. cbv zeta. rewrite !bind_modify.
    set (s1 := put_window 1 _).
    assert (Hu1 : unacked s1 (x :: l)) by exact Hu.
    assert (Hfr : front (s_queue s1) + Z.of_nat 0 < MAX_QSIZE (s_queue s1)).
    { destruct Hu1 as (((b & _ & _ & Hf & _) & _) & _). lia. }
    rewrite (bind_Done _ _ _ _ _ (resend_run send_ok Hsend s1 (x :: l) 0 x Hu1 eq_refl Hfr)).
    unfold arm. erewrite bind_Done by (apply on_rtt_run; reflexivity). cbv beta. rewrite !bind_modify.
    eexists. split; [reflexivity|]. split; [done|]. split; [done|].
    split; [by apply half_max|]. split_and!; done.
Qed.

(** * The parent process and the handshake *)

(** [sockets[i]] of one interface, from its address and network mask in host order. *)
Definition make_socket (addr netmask : Z) : socket_info :=
  mk_socket addr netmask (Z.land netmask addr).

(** The array of sockets, one per interface; it has ten places. *)
Fixpoint make_sockets (ifis : list (Z * Z)) (acc : list socket_info) : option (list socket_info) :=
  match ifis with
  | [] => Some acc
  | (addr, netmask) :: ifis' =>
      if (length acc <? MAXIMUM_SOCKET)%nat
      then make_sockets ifis' (acc ++ [make_socket addr netmask]) else None
  end.

(** Whether the client is treated as local: always on the first interface. *)
Definition is_local (i : nat) (sock : socket_info) (client : Z) : bool :=
  (i =? 0)%nat || (Z.land (mask sock) client =? subnet sock).

(** The heads of the tables of connected clients, one per socket. *)
Fixpoint make_tables `{Allocator} (n : nat) : M heap (list ptr) :=
  match n with
  | O => mret []
  | S n' => p ← malloc; ps ← make_tables n'; mret (p :: ps)
  end.

(** A request from the client with this port and address: [true] when a child is forked
    for it.  The table is changed in the parent, before the fork. *)
Definition accept_request `{Allocator} (connected : ptr) (port : Z) (ip : string) : M heap bool :=
  d ← DuplicateNode connected port ip;
  if d =? 1 then mret false
  else InsertLinkList connected port ip;; mret true.

Fixpoint accept_requests `{Allocator} (connected : ptr) (reqs : list (Z * string)) : M heap (list bool) :=
  match reqs with
  | [] => mret []
  | (port, ip) :: reqs' =>
      b ← accept_request connected port ip;
      bs ← accept_requests connected reqs';
      mret (b :: bs)
  end.

(** A child during its handshake.  Its heap is a copy of the parent's. *)
Record child := mk_child {
  c_rtt : rtt_info;
  c_heap : heap;
  c_alarm : Z;
  c_window : option Z; (* the client's window, once it is known *)
  c_out : list datagram
}.

Definition child_put_rtt (x : rtt_info) (c : child) : child :=
  mk_child x (c_heap c) (c_alarm c) (c_window c) (c_out c).
Definition child_put_heap (x : heap) (c : child) : child :=
  mk_child (c_rtt c) x (c_alarm c) (c_window c) (c_out c).
Definition child_put_alarm (x : Z) (c : child) : child :=
  mk_child (c_rtt c) (c_heap c) x (c_window c) (c_out c).
Definition child_put_window (x : Z) (c : child) : child :=
  mk_child (c_rtt c) (c_heap c) (c_alarm c) (Some x) (c_out c).
Definition child_put_out (x : list datagram) (c : child) : child :=
  mk_child (c_rtt c) (c_heap c) (c_alarm c) (c_window c) x.

Section handshake.
Context (send_ok : list datagram → datagram → bool) (connected : ptr) (port : Z) (ip : string)
  (ephemeral_port : Z).

Definition child_send (d : datagram) : M child unit :=
  c ← get;
  if send_ok (c_out c) d then modify (child_put_out (c_out c ++ [d])) else exit 1.

(** AckAlarmAgain: start the timer. *)
Definition child_arm : M child unit :=
  t ← on c_rtt child_put_rtt rtt_start;
  modify (child_put_alarm t).

(** [tv_sec] is the clock at [rtt_init]. *)
Definition child_start (tv_sec : Z) : M child unit :=
  on c_rtt child_put_rtt (rtt_init tv_sec);;
  on c_rtt child_put_rtt rtt_newpack;;
  child_send (PortFrom false ephemeral_port);;
  child_arm.

(** What the wait for the client's window ends with: the signal, an error, or the four
    bytes of an [int]. *)
Inductive hs_input := HsAlarm | HsError | HsWindow (raw : Z).

Definition child_step (i : hs_input) : M child unit :=
  match i with
  | HsError => exit 1
  | HsAlarm =>
      r ← on c_rtt child_put_rtt rtt_timeout;
      if r <? 0 then exit 1
      else
        child_send (PortFrom false ephemeral_port);;
        child_send (PortFrom true ephemeral_port);;
        child_arm
  | HsWindow raw =>
      modify (child_put_window (ntohs raw));;
      modify (child_put_alarm 0);;
      on c_heap child_put_heap (DeleteSelectedNode connected port ip)
  end.
End handshake.

(** * Lemmas on the client table *)

Lemma DuplicateNode_run h L l port ip :
  list_at h L l → DuplicateNode L port ip h = Done (if existsb (Pure.matches port ip) l then 1 else 0) h.
Proof.
  intros (a & n & xs & -> & Hseg & <-)%list_at_segment. pose proof (segment_size _ _ _ _ Hseg) as Hsz.
  destruct Hseg as (Ha & Hc & Hnd). unfold DuplicateNode.
  rewrite bind_get, (bind_Done _ _ _ _ _ (deref_run _ _ _ Ha)).
  destruct (find_walk_run (S (size h)) h port ip (Ptr a) _ _ Hc Hsz) as (f' & r & Hrun & Hr).
  rewrite (bind_Done _ _ _ _ _ Hrun). cbv iota beta. rewrite Hr. by destruct (existsb _ _).
Qed.

Lemma existsb_matches port ip l : (port, ip) ∈ l → existsb (Pure.matches port ip) l = true.
Proof.
  intros Hin. apply existsb_exists. exists (port, ip). split; [by apply list_elem_of_In|].
  unfold Pure.matches. simpl. by rewrite Z.eqb_refl, streq_refl.
Qed.

Lemma accept_request_run `{ZeroedAllocator} h L l port ip :
  list_at h L l → (String.length ip < RECVLINE)%nat →
  ∃ h', accept_request L port ip h = Done (negb (existsb (Pure.matches port ip) l)) h' ∧
        list_at h' L (if existsb (Pure.matches port ip) l then l else Pure.insert port ip l).
Proof.
  intros Hl Hip. unfold accept_request. rewrite (bind_Done _ _ _ _ _ (DuplicateNode_run h L l port ip Hl)).
  destruct (existsb (Pure.matches port ip) l); [by exists h|].
  destruct (InsertLinkList_run h L l port ip Hl Hip) as (h' & Hrun & Hl').
  exists h'. change (0 =? 1) with false. cbv iota. by rewrite (bind_Done _ _ _ _ _ Hrun).
Qed.

(** A client is served once.  The first request of a client forks a child, and every
    later request with the same port and address is dropped, whatever other clients
    ask in between and also after its transfer ended: the child that finishes the
    handshake removes the client from its own copy of the table only.  (On an allocator
    whose blocks read as NULL where the code leaves [next] unset.) *)
Theorem client_forked_once `{ZeroedAllocator} (h : heap) (L : ptr) (l : list Pure.entry)
    (port : Z) (ip : string) (reqs : list (Z * string))
    (Hl : list_at h L l) (Hinc : increasing l) (Hnew : port ∉ l.*1)
    (Hlen : Forall (λ q, (String.length q.2 < RECVLINE)%nat) ((port, ip) :: reqs)) :
  ∃ bs h', accept_requests L ((port, ip) :: reqs) h = Done (true :: bs) h' ∧ length bs = length reqs ∧
           ∀ i, reqs !! i = Some (port, ip) → bs !! i = Some false.
Proof.
  assert (Hrest : ∀ reqs h l, list_at h L l → increasing l → (port, ip) ∈ l →
    Forall (λ q, (String.length q.2 < RECVLINE)%nat) reqs →
    ∃ bs h', accept_requests L reqs h = Done bs h' ∧ length bs = length reqs ∧
             ∀ i, reqs !! i = Some (port, ip) → bs !! i = Some false).
  { clear h l Hl Hinc Hnew Hlen reqs. induction reqs as [|[p q] reqs IH]; intros h l Hl Hinc Hin Hlen.
    - by exists [], h.
    - apply Forall_cons in Hlen as [Hq Hlen]. simpl in Hq.
      destruct (accept_request_run h L l p q Hl Hq) as (h1 & Hrun & Hl1).
      destruct (IH h1 _ Hl1) as (bs & h2 & Hrun2 & Hbs & Hall); [| |done|].
      + destruct (existsb _ _); [done|by apply increasing_insert].
      + destruct (existsb _ _); [done|]. apply elem_of_insert; [done|by left].
      + exists (negb (existsb (Pure.matches p q) l) :: bs), h2. cbn [accept_requests].
        rewrite (bind_Done _ _ _ _ _ Hrun), (bind_Done _ _ _ _ _ Hrun2). split; [done|].
        split; [simpl; by rewrite Hbs|]. intros [|i] Hi; simpl in Hi |- *; [|by apply Hall].
        injection Hi as -> ->. by rewrite existsb_matches. }
  apply Forall_cons in Hlen as [Hip Hlen]. simpl in Hip.
  destruct (accept_request_run h L l port ip Hl Hip) as (h1 & Hrun & Hl1).
  assert (existsb (Pure.matches port ip) l = false) as Hno.
  { apply not_true_is_false. intros ((p, q) & Hin & Hm)%existsb_exists. apply Hnew.
    unfold Pure.matches in Hm. apply andb_true_iff in Hm as [Hp%Z.eqb_eq _]. simpl in Hp. subst p.
    apply list_elem_of_In in Hin. by apply (list_elem_of_fmap_2 fst) in Hin. }
  rewrite Hno in Hrun, Hl1.
  destruct (Hrest reqs h1 _ Hl1) as (bs & h2 & Hrun2 & Hbs & Hall); [by apply increasing_insert| |done|].
  { apply elem_of_insert; [done|]. by right. }
  exists bs, h2. cbn [accept_requests]. by rewrite (bind_Done _ _ _ _ _ Hrun), (bind_Done _ _ _ _ _ Hrun2).
Qed.

(** * Witnesses *)

Definition accepting (out : list datagram) (d : datagram) : bool := true.
Definition clock1 (n : nat) : Z * Z := (1000 + Z.of_nat n, 5000).
Definition blank_data : data := mk_data 0 0 EmptyString 0.
Definition short_line (c : string) : data := mk_data 0 0 c 0.

(** A sender that is about to start on a file of 7 bytes. *)
Definition blank : sender :=
  mk_sender (mk_queue None 0 0 0) (mk_rtt 0 0 0 0 0 0) "content" false
    (mk_data 0 0 (zero_bytes MAXLINE) 0) 0 1 1 65535 0 0 10 0 0 false 0 0 Awaiting [].

Definition after_run {A} (s : sender) (r : res sender A) : sender :=
  match r with Done _ s' | Exited _ s' => s' | Undefined _ => s end.

Definition started : sender :=
  after_run blank (begin_transfer clock1 4 accepting (Some (repeat blank_data 4)) blank).

Lemma congestion_window_positive_witness :
  1 ≤ s_cwnd (after_run started (steps clock1 4 accepting [Alarm] started)).
Proof.
  destruct (congestion_window_positive clock1 4 accepting (Some (repeat blank_data 4)) [Alarm] blank
              (after_run started (steps clock1 4 accepting [Alarm] started))) as [H _].
  - vm_compute. reflexivity.
  - exact H.
Defined.

Definition stuck : sender := put_cac 7 (put_ssh 3 (put_cwnd 3 blank)).

Lemma congestion_avoidance_stuck_witness :
  s_cwnd (after_run stuck (for_ 0 5 (λ _, grow_window) stuck)) = 3.
Proof.
  destruct (congestion_avoidance_stuck 5 stuck (after_run stuck (for_ 0 5 (λ _, grow_window) stuck))) as [H _].
  - vm_compute. discriminate.
  - vm_compute. discriminate.
  - vm_compute. reflexivity.
  - exact H.
Defined.

(** The client advertises a window of 0, then one of 3. *)
Definition probing : sender :=
  after_run started (steps clock1 4 accepting [Ack (htonl 2) (htonl 5) 0] started).
Definition probed : sender :=
  after_run probing (steps clock1 4 accepting [Alarm; Ack (htonl 1) 0 (htons 3)] probing).

Lemma probe_disables_timeouts_witness :
  s_phase probed = Awaiting ∧ step clock1 4 accepting Alarm probed = Done tt probed.
Proof.
  destruct (probe_disables_timeouts clock1 4 accepting (Some (repeat blank_data 4))
              [Ack (htonl 2) (htonl 5) 0] [Alarm; Ack (htonl 1) 0 (htons 3)] AtTop blank probing probed)
    as [_ H].
  - reflexivity.
  - vm_compute. reflexivity.
  - vm_compute. reflexivity.
  - vm_compute. reflexivity.
  - assert (Hp : s_phase probed = Awaiting) by (vm_compute; reflexivity).
    split; [exact Hp|exact (H Hp)].
Defined.

(** A window of two datagrams, with the front at [f]. *)
Definition block (f : Z) (b : list data) (r : Z) : sender :=
  put_seqno 6 (put_head 5 (put_queue (mk_queue (Some b) f r (Z.of_nat (length b))) blank)).
Definition d5 : data := mk_data 5 11 "five" 0.
Definition d6 : data := mk_data 6 12 "six" 0.

Lemma block_unacked : unacked (block 0 [d5; d6; blank_data; blank_data] 2) [d5; d6].
Proof.
  split; [|simpl; split_and!; try lia].
  - split; [|split; [reflexivity|]].
    + apply queue_wf_intro; unfold QSIZE_BOUND; simpl; lia.
    + intros [|[|i]] Hi; [reflexivity|reflexivity|simpl in Hi; lia].
  - intros [|[|i]] x Hx; simplify_eq/=; reflexivity.
Qed.

Lemma wrapped_unacked : unacked (block 3 [d6; blank_data; blank_data; d5] 1) [d5; d6].
Proof.
  split; [|simpl; split_and!; try lia].
  - split; [|split; [reflexivity|]].
    + apply queue_wf_intro; unfold QSIZE_BOUND; simpl; lia.
    + intros [|[|i]] Hi; [reflexivity|reflexivity|simpl in Hi; lia].
  - intros [|[|i]] x Hx; simplify_eq/=; reflexivity.
Qed.

Lemma send_new_in_order_witness :
  ∃ s' new, send_new clock1 accepting 1 (block 0 [d5; d6; blank_data; blank_data] 2) = Done tt s' ∧
    sendline <$> new = [overlay "content" (zero_bytes MAXLINE)].
Proof.
  destruct (send_new_in_order clock1 accepting (λ _ _, eq_refl) 1
              (block 0 [d5; d6; blank_data; blank_data] 2) [d5; d6] block_unacked)
    as (s' & new & H1 & _ & H2 & _).
  - simpl. lia.
  - simpl. lia.
  - exists s', new. split; [exact H1|exact H2].
Defined.

Lemma resend_window_spec_witness :
  resend_window accepting 2 (block 3 [d6; blank_data; blank_data; d5] 1) = Undefined OutOfBounds.
Proof.
  apply (resend_window_spec accepting (λ _ _, eq_refl) (block 3 [d6; blank_data; blank_data; d5] 1) [d5; d6] 2
           wrapped_unacked ltac:(lia)).
  simpl. lia.
Defined.

Lemma slide_cumulative_witness :
  ∃ s', slide 7 (block 3 [d6; blank_data; blank_data; d5] 1) = Done tt s' ∧ s_head s' = 7.
Proof.
  destruct (slide_cumulative (block 3 [d6; blank_data; blank_data; d5] 1) [d5; d6] 7 wrapped_unacked ltac:(simpl; lia))
    as (s' & H1 & H2 & _).
  exists s'. split; [exact H1|exact H2].
Defined.

Lemma timeout_resends_first_witness :
  ∃ s', step clock1 4 accepting Alarm (put_rtt (mk_rtt 0 0 6 3 0 0) (block 0 [d5; d6; blank_data; blank_data] 2))
        = Done tt s' ∧ s_out s' = frames d5.
Proof.
  destruct (timeout_resends_first clock1 4 accepting
              (put_rtt (mk_rtt 0 0 6 3 0 0) (block 0 [d5; d6; blank_data; blank_data] 2)) [d6] d5)
    as (s' & H1 & H2 & _).
  - reflexivity.
  - exact block_unacked.
  - reflexivity.
  - reflexivity.
  - discriminate.
  - simpl. lia.
  - vm_compute. split_and!; intros [=].
  - simpl. lia.
  - exists s'. split; [exact H1|exact H2].
Defined.

Lemma client_forked_once_witness :
  ∃ bs h', @accept_requests zero_alloc (Ptr 0)
             [(6000, "10.0.0.7"); (7000, "10.0.0.8"); (6000, "10.0.0.7")]%string heap_clients = Done (true :: bs) h' ∧
           bs !! 1%nat = Some false.
Proof.
  destruct (@client_forked_once zero_alloc zero_alloc_zeroed heap_clients (Ptr 0) _ 6000 "10.0.0.7"
              [(7000, "10.0.0.8"); (6000, "10.0.0.7")]%string heap_clients_list) as (bs & h' & H1 & _ & H2).
  - simpl. split_and!; repeat constructor; simpl; lia.
  - apply (bool_decide_unpack _). vm_compute. exact I.
  - apply (bool_decide_unpack _). vm_compute. exact I.
  - exists bs, h'. split; [exact H1|]. apply H2. reflexivity.
Defined.
