(* ===== verification/FileTypes.v ===== *)
(** The C types of the sender's variables (Assignment 2, server.c): lemmas that every step
    keeps the variables in the range of their types and the arrays at their lengths, which
    the bytes of the datagrams in FileWire rest on. *)

From S2P Require Export FileServer.

Definition uint32 (x : Z) : Prop := 0 ≤ x < 2 ^ 32.
Definition int (x : Z) : Prop := INT_MIN ≤ x ≤ INT_MAX.

Record data_typed (x : data) : Prop := {
  dt_seq : uint32 (CirQueue.seq x);
  dt_ts : uint32 (ts x);
  dt_line : String.length (sendline x) = MAXLINE;
  dt_ack : int (ack x)
}.

Record queue_typed (Q : Z) (q : CirQueue) : Prop := {
  qt_size : MAX_QSIZE q = Q;
  qt_wf : queue_wf q;
  qt_data : ∀ b x, base q = Some b → x ∈ b → data_typed x
}.

Record rtt_typed (p : rtt_info) : Prop := {
  rt_rtt : int (rtt_rtt p);
  rt_srtt : int (rtt_srtt p);
  rt_rttvar : int (rtt_rttvar p);
  rt_rto : int (rtt_rto p);
  rt_nrexmt : int (rtt_nrexmt p);
  rt_base : uint32 (rtt_base p)
}.

(** A message: a header of two 32-bit fields, or an array of MAXLINE bytes. *)
Definition message_typed (d : datagram) : Prop :=
  match d with
  | Hdr q t => uint32 q ∧ uint32 t
  | Data b => String.length b = MAXLINE
  | _ => True
  end.

Section types.
Context (clock : nat → Z * Z) (Q : Z) (send_ok : list datagram → datagram → bool).
Context (HQ : 0 < Q ≤ INT_MAX).

Record sender_typed (s : sender) : Prop := {
  st_queue : queue_typed Q (s_queue s);
  st_rtt : rtt_typed (s_rtt s);
  st_copy : data_typed (s_copy s);
  st_seqno : uint32 (s_seqno s);
  st_head : uint32 (s_head s);
  st_cwnd : int (s_cwnd s);
  st_ssh : int (s_ssh s);
  st_cac : int (s_cac s);
  st_window : int (s_window s);
  st_recv_window : 0 ≤ s_recv_window s < 2 ^ 16;
  st_received : int (s_received s);
  st_measured : uint32 (s_measured s);
  st_out : Forall message_typed (s_out s)
}.

Abbreviation keeps m := (preserves sender_typed m).

(** ** Assignments *)

Lemma keeps_rest x : keeps (modify (put_rest x)).
Proof. apply preserves_modify. intros s []. by split. Qed.
Lemma keeps_eof x : keeps (modify (put_eof x)).
Proof. apply preserves_modify. intros s []. by split. Qed.
Lemma keeps_copy x : data_typed x → keeps (modify (put_copy x)).
Proof. intros Hx. apply preserves_modify. intros s []. by split. Qed.
Lemma keeps_seqno x : uint32 x → keeps (modify (put_seqno x)).
Proof. intros Hx. apply preserves_modify. intros s []. by split. Qed.
Lemma keeps_cwnd x : int x → keeps (modify (put_cwnd x)).
Proof. intros Hx. apply preserves_modify. intros s []. by split. Qed.
Lemma keeps_ssh x : int x → keeps (modify (put_ssh x)).
Proof. intros Hx. apply preserves_modify. intros s []. by split. Qed.
Lemma keeps_cac x : int x → keeps (modify (put_cac x)).
Proof. intros Hx. apply preserves_modify. intros s []. by split. Qed.
Lemma keeps_window x : int x → keeps (modify (put_window x)).
Proof. intros Hx. apply preserves_modify. intros s []. by split. Qed.
Lemma keeps_recv_window x : keeps (modify (put_recv_window (ntohs x))).
Proof. apply preserves_modify. intros s []. split; try done. apply ntohs_range. Qed.
Lemma keeps_received x : int x → keeps (modify (put_received x)).
Proof. intros Hx. apply preserves_modify. intros s []. by split. Qed.
Lemma keeps_measured x : uint32 x → keeps (modify (put_measured x)).
Proof. intros Hx. apply preserves_modify. intros s []. by split. Qed.
Lemma keeps_blocked x : keeps (modify (put_blocked x)).
Proof. apply preserves_modify. intros s []. by split. Qed.
Lemma keeps_alarm x : keeps (modify (put_alarm x)).
Proof. apply preserves_modify. intros s []. by split. Qed.
Lemma keeps_ticks x : keeps (modify (put_ticks x)).
Proof. apply preserves_modify. intros s []. by split. Qed.
Lemma keeps_phase x : keeps (modify (put_phase x)).
Proof. apply preserves_modify. intros s []. by split. Qed.
Lemma keeps_head : keeps (modify (λ s, put_head (u32 (s_head s + 1)) s)).
Proof. apply preserves_modify. intros s []. split; try done. apply u32_range. Qed.

Hint Resolve keeps_rest keeps_eof keeps_copy keeps_seqno keeps_cwnd keeps_ssh keeps_cac keeps_window
  keeps_recv_window keeps_received keeps_measured keeps_blocked keeps_alarm keeps_ticks keeps_phase keeps_head : preserves.

(** What [int_op] returns is an [int]. *)
Lemma keeps_int_op {St B} (I : St → Prop) x (k : Z → M St B) :
  (∀ y, int y → preserves I (k y)) → preserves I (y ← int_op x; k y).
Proof.
  intros Hk s Hs. rewrite wpx_bind. unfold int_op, is_int.
  destruct (Z.leb_spec INT_MIN x), (Z.leb_spec x INT_MAX); try done. by apply Hk.
Qed.

Lemma keeps_read {B} (k : sender → M sender B) :
  (∀ s, sender_typed s → wpx (λ _, True) (λ _, sender_typed) (k s) (λ _, sender_typed) s) → keeps (s ← get; k s).
Proof. intros Hk s Hs. by apply Hk. Qed.

Lemma keeps_rtt {A} (m : M rtt_info A) : preserves rtt_typed m → keeps (on_rtt m).
Proof.
  intros Hm s [] . specialize (Hm (s_rtt s) st_rtt0). unfold wpx, on_rtt, on in *.
  destruct (m (s_rtt s)); [by split..|done].
Qed.

Lemma keeps_queue {A} (m : M CirQueue A) : preserves (queue_typed Q) m → keeps (on_queue m).
Proof.
  intros Hm s []. specialize (Hm (s_queue s) st_queue0). unfold wpx, on_queue, on in *.
  destruct (m (s_queue s)); [by split..|done].
Qed.

(** ** The queue *)

Lemma typed_pop : preserves (queue_typed Q) DeCirQueue.
Proof.
  intros q [Hsz Hwf Hd]. unfold wpx. rewrite (DeCirQueue_run _ Hwf). split; [done| |done].
  destruct Hwf as (b & Hb & Hl & Hf & Hr). exists b.
  split; [done|]. split; [done|]. split; [apply Z.mod_pos_bound; cbn; lia|done].
Qed.

Lemma typed_push x : data_typed x → preserves (queue_typed Q) (EnCirQueue x).
Proof.
  intros Hx q [Hsz Hwf Hd]. pose proof Hwf as (b & Hb & Hl & Hf & Hr). unfold wpx. rewrite (EnCirQueue_run _ b x Hwf Hb).
  split; [done| |].
  - apply queue_wf_intro; [by rewrite length_insert|done|split; [apply Z.mod_pos_bound|]; lia].
  - cbn. intros b' y [= <-] Hy. apply list_elem_of_lookup in Hy as [i Hi].
    apply list_lookup_insert_Some in Hi as [(_ & -> & _)|[_ Hi]]; [done|]. by eapply Hd, list_elem_of_lookup_2.
Qed.

Lemma typed_set i x : data_typed x → preserves (queue_typed Q) (base_set i x).
Proof.
  intros Hx q [Hsz Hwf Hd]. pose proof Hwf as (b & Hb & Hl & Hf & Hr). unfold base_set.
  rewrite wpx_bind, wpx_get, Hb. change (of_opt NullDeref (Some b)) with (mret (M := M CirQueue) b).
  rewrite wpx_bind, wpx_ret, wpx_bind, wpx_of_opt. unfold arr_set.
  destruct ((0 <=? i) && (i <? Z.of_nat (length b))); [|done]. rewrite wpx_modify. split; [done| |].
  - destruct q. cbn in *. apply queue_wf_intro; [by rewrite length_insert|done..].
  - cbn. intros b' y [= <-] Hy. apply list_elem_of_lookup in Hy as [j Hj].
    apply list_lookup_insert_Some in Hj as [(_ & -> & _)|[_ Hj]]; [done|]. by eapply Hd, list_elem_of_lookup_2.
Qed.

Lemma typed_len : preserves (queue_typed Q) CirQueueLength.
Proof. intros q Hq. unfold wpx. by rewrite (CirQueueLength_run _ (qt_wf _ _ Hq)). Qed.

Lemma typed_empty : preserves (queue_typed Q) IsEmptyCirQueue.
Proof. intros q Hq. unfold wpx. by rewrite (IsEmpty_run _ (qt_wf _ _ Hq)). Qed.

Lemma keeps_pop : keeps (on_queue DeCirQueue).
Proof. apply keeps_queue, typed_pop. Qed.
Lemma keeps_push x : data_typed x → keeps (on_queue (EnCirQueue x)).
Proof. intros Hx. by apply keeps_queue, typed_push. Qed.
Lemma keeps_set i x : data_typed x → keeps (on_queue (base_set i x)).
Proof. intros Hx. by apply keeps_queue, typed_set. Qed.
Lemma keeps_len : keeps (on_queue CirQueueLength).
Proof. apply keeps_queue, typed_len. Qed.
Lemma keeps_empty : keeps (on_queue IsEmptyCirQueue).
Proof. apply keeps_queue, typed_empty. Qed.
Hint Resolve keeps_pop keeps_push keeps_set keeps_len keeps_empty : preserves.

(** A datagram read from the block. *)
Lemma keeps_at {B} i (k : data → M sender B) :
  (∀ x, data_typed x → keeps (k x)) → keeps (x ← on_queue (base_at i); k x).
Proof.
  intros Hk s Hs. rewrite wpx_bind. unfold wpx at 1, on_queue, on, base_at. rewrite bind_get.
  destruct (base (s_queue s)) as [b|] eqn:Hb; [|done]. change (of_opt NullDeref (Some b)) with (mret (M := M CirQueue) b).
  rewrite bind_ret. unfold rd, of_opt. destruct (arr_at b i) as [x|] eqn:Hx; [|done]. cbn. rewrite put_queue_id.
  unfold arr_at in Hx. destruct (i <? 0); [done|]. apply Hk; [|done].
  by eapply (qt_data _ _ (st_queue _ Hs) b), list_elem_of_lookup_2.
Qed.

(** ** Sending *)

Lemma keeps_send d : message_typed d → keeps (send send_ok d).
Proof.
  intros Hd. apply keeps_read. intros s Hs. destruct (send_ok (s_out s) d); [|done].
  destruct Hs. split; try done. apply Forall_app. by split; [|apply Forall_singleton].
Qed.

Lemma keeps_send_data x : data_typed x → keeps (send_data send_ok x).
Proof.
  intros []. unfold send_data. apply preserves_bind; [apply keeps_send; split; apply htonl_range|].
  intros _. by apply keeps_send.
Qed.
Hint Resolve keeps_send keeps_send_data : preserves.

Lemma keeps_resend j : keeps (resend send_ok j).
Proof.
  unfold resend. apply preserves_bind; [auto with preserves|]. intros s. apply keeps_at. auto with preserves.
Qed.
Hint Resolve keeps_resend : preserves.

Lemma keeps_resend_window w : keeps (resend_window send_ok w).
Proof. unfold resend_window. auto 10 with preserves. Qed.

Lemma length_overlay msg buf : String.length (overlay msg buf) = String.length buf.
Proof. revert buf. induction msg as [|c msg IH]; intros [|d buf]; try done. simpl. by rewrite IH. Qed.

Lemma length_zero_bytes n : String.length (zero_bytes n) = n.
Proof. induction n as [|n IH]; [done|]. simpl. by rewrite IH. Qed.

Lemma keeps_put_copy (f : data → data) :
  (∀ x, data_typed x → data_typed (f x)) → keeps (modify (λ s, put_copy (f (s_copy s)) s)).
Proof. intros Hf. apply preserves_modify. intros s []. split; try done. by apply Hf. Qed.

Lemma keeps_read_file : keeps read_file.
Proof.
  unfold read_file. apply keeps_read. intros s Hs. cbv zeta.
  refine (preserves_bind _ _ _ _ _ s Hs); [|auto with preserves].
  apply keeps_copy. destruct (st_copy _ Hs). split; try done. cbn. by rewrite length_overlay.
Qed.
Hint Resolve keeps_read_file : preserves.

Lemma keeps_stamp {B} (k : Z → M sender B) :
  (∀ t, uint32 t → keeps (k t)) → keeps (t ← time_stamp clock; k t).
Proof.
  intros Hk. unfold time_stamp. intros s Hs. rewrite wpx_bind. autorewrite with cwp. apply Hk; [apply u32_range|].
  destruct Hs. by split.
Qed.

Lemma keeps_send_one : keeps (send_one clock send_ok).
Proof.
  unfold send_one. apply preserves_bind; [auto with preserves|]. intros s0. cbv zeta.
  apply preserves_bind; [apply keeps_seqno, u32_range|]. intros _.
  apply preserves_bind.
  { apply (keeps_put_copy (λ x, mk_data (u32 (s_seqno s0 + 1)) (ts x) (sendline x) (ack x))). intros x []. split; try done.
    apply u32_range. }
  intros _. apply preserves_bind; [auto with preserves|]. intros _.
  apply preserves_bind; [auto with preserves|]. intros s1.
  assert (Htail : ∀ t, uint32 t → keeps (
    modify (λ s, put_copy (mk_data (CirQueue.seq (s_copy s)) t (sendline (s_copy s)) (ack (s_copy s))) s);;
    s ← get;
    on_queue (EnCirQueue (s_copy s));;
    send_data send_ok (s_copy s);;
    modify (put_copy (mk_data (CirQueue.seq (s_copy s)) (ts (s_copy s)) (zero_bytes MAXLINE) (ack (s_copy s)))))).
  { intros t Ht. apply preserves_bind.
    { apply (keeps_put_copy (λ x, mk_data (CirQueue.seq x) t (sendline x) (ack x))). by intros x []. }
    intros _. apply keeps_read. intros s Hs. pose proof (st_copy _ Hs) as Hx.
    refine (preserves_bind _ _ _ (keeps_push _ Hx) (λ _, preserves_bind _ _ _ (keeps_send_data _ Hx) (λ _, _)) s Hs).
    apply keeps_copy. destruct Hx. split; [done|done|apply length_zero_bytes|done]. }
  destruct (s_eof s1); [|by apply keeps_stamp].
  intros s Hs. rewrite wpx_bind, wpx_ret. apply Htail; [unfold uint32; lia|done].
Qed.
Hint Resolve keeps_send_one keeps_resend_window : preserves.

Lemma keeps_send_new n : keeps (send_new clock send_ok n).
Proof. induction n as [|n IH]; cbn [send_new]; auto 10 with preserves. Qed.
Hint Resolve keeps_send_new : preserves.
(** ** Handlers *)

Lemma typed_rtt_modify f : (∀ p, rtt_typed p → rtt_typed (f p)) → preserves rtt_typed (modify f).
Proof. apply preserves_modify. Qed.

Lemma typed_minmax x : int (rtt_minmax x).
Proof. pose proof (rtt_minmax_range x). unfold int, INT_MIN, INT_MAX, RTT_RXTMIN, RTT_RXTMAX in *. lia. Qed.

Lemma typed_rto_calc {B} (k : Z → M rtt_info B) :
  (∀ x, preserves rtt_typed (k x)) → preserves rtt_typed (r ← RTT_RTOCALC; k r).
Proof.
  intros Hk. apply preserves_bind; [|done]. unfold RTT_RTOCALC. apply preserves_bind; [auto with preserves|]. intros p.
  auto 10 with preserves.
Qed.

Lemma typed_stop ms : preserves rtt_typed (rtt_stop ms).
Proof.
  unfold rtt_stop. apply preserves_bind.
  { apply preserves_modify. intros p []. split; try done. unfold set_rtt. cbn.
    pose proof (measured_range ms). unfold int, INT_MIN, INT_MAX, RTT_MAX in *. lia. }
  intros _. apply preserves_bind; [auto with preserves|]. intros p. apply keeps_int_op. intros d _.
  apply keeps_int_op. intros x Hx. apply preserves_bind; [apply preserves_modify; intros r []; by split|]. intros _. cbv zeta.
  apply keeps_int_op. intros v Hv. apply preserves_bind; [apply preserves_modify; intros r []; by split|]. intros _.
  apply typed_rto_calc. intros r. apply preserves_modify. intros r' []. split; try done. apply typed_minmax.
Qed.

Lemma typed_timeout : preserves rtt_typed rtt_timeout.
Proof.
  unfold rtt_timeout. apply preserves_bind; [auto with preserves|]. intros p. apply keeps_int_op. intros r _.
  apply preserves_bind; [apply preserves_modify; intros q []; split; try done; apply typed_minmax|]. intros _.
  apply keeps_int_op. intros n Hn. apply preserves_bind; [apply preserves_modify; intros q []; by split|].
  intros _. auto with preserves.
Qed.

Lemma typed_init sec : preserves rtt_typed (rtt_init sec).
Proof.
  intros p []. unfold wpx. rewrite rtt_init_run. cbn.
  split; cbn; try done; try apply u32_range; unfold int, INT_MIN, INT_MAX; lia.
Qed.

Lemma typed_newpack : preserves rtt_typed rtt_newpack.
Proof.
  unfold rtt_newpack. apply preserves_modify. intros p []. split; try done.
Qed.

Lemma keeps_arm : keeps arm.
Proof.
  unfold arm. apply preserves_bind; [apply keeps_rtt; unfold rtt_start; by intros p|]. intros t.
  apply preserves_bind; [auto with preserves|]. intros _.
  apply preserves_bind; [apply keeps_measured; unfold uint32; lia|]. intros _.
  apply preserves_bind; [apply keeps_received; unfold int, INT_MIN, INT_MAX; lia|]. auto with preserves.
Qed.

Lemma keeps_probe k : keeps (probe k).
Proof. unfold probe. auto 10 with preserves. Qed.

Lemma int_three_min a b c : int a → int b → int c → int (three_min a b c).
Proof. intros Ha Hb Hc. unfold three_min. by destruct (a <? b); destruct (_ <? c). Qed.

Lemma int_Q : int Q.
Proof. unfold int, INT_MIN, INT_MAX in *. lia. Qed.

Lemma int_window s : sender_typed s → int (s_recv_window s).
Proof. intros []. unfold int, INT_MIN, INT_MAX. lia. Qed.

Lemma int_half x : int x → int (if Z.quot x 2 >? 1 then Z.quot x 2 else 1).
Proof.
  unfold int, INT_MIN, INT_MAX. intros Hx. pose proof (Z.quot_le_upper_bound x 2 (2 ^ 31 - 1) ltac:(lia) ltac:(lia)).
  destruct (Z.gtb_spec (Z.quot x 2) 1); lia.
Qed.
Hint Resolve keeps_arm keeps_probe : preserves.

Lemma keeps_send_round : keeps (send_round clock Q send_ok).
Proof.
  unfold send_round. apply keeps_read. intros s Hs. cbv zeta. refine (preserves_bind _ _ _ _ (λ _, _) s Hs).
  - apply keeps_window, int_three_min; [apply Hs|apply int_Q|by apply int_window].
  - apply preserves_bind; [apply keeps_rtt, typed_newpack|]. auto 20 with preserves.
Qed.

Lemma keeps_timeout_resend : keeps (timeout_resend send_ok).
Proof.
  unfold timeout_resend. apply keeps_read. intros s Hs. cbv zeta. refine (preserves_bind _ _ _ _ (λ _, _) s Hs).
  - apply keeps_ssh, int_half, Hs.
  - assert (H1 : int 1) by (unfold int, INT_MIN, INT_MAX; lia). auto 20 with preserves.
Qed.

Lemma keeps_fast_retransmit : keeps (fast_retransmit clock Q send_ok).
Proof.
  unfold fast_retransmit. apply keeps_read. intros s Hs. cbv zeta. pose proof (int_half _ (st_cwnd _ Hs)) as Hh.
  refine (preserves_bind _ _ _ (keeps_cwnd _ Hh) (λ _, preserves_bind _ _ _ (keeps_ssh _ Hh) (λ _, _)) s Hs).
  apply preserves_bind; [auto with preserves|]. intros _. apply preserves_bind; [auto with preserves|]. intros s1.
  apply preserves_bind; [|auto with preserves]. apply preserves_when, keeps_int_op. auto 10 with preserves.
Qed.

Lemma keeps_count_timeout : keeps count_timeout.
Proof. unfold count_timeout. apply preserves_bind; [apply keeps_rtt, typed_timeout|]. auto with preserves. Qed.
Hint Resolve keeps_send_round keeps_timeout_resend keeps_fast_retransmit keeps_count_timeout : preserves.

Lemma keeps_resume k : keeps (resume clock Q send_ok k).
Proof. destruct k; cbn [resume]; auto with preserves. Qed.
Hint Resolve keeps_resume : preserves.

Lemma keeps_probe_or_resume k : keeps (probe_or_resume clock Q send_ok k).
Proof. unfold probe_or_resume. auto 10 with preserves. Qed.

Lemma keeps_top : keeps (top clock Q send_ok).
Proof. unfold top. auto 10 with preserves. Qed.

Lemma keeps_grow : keeps grow_window.
Proof.
  assert (H0 : int 0) by (unfold int, INT_MIN, INT_MAX; lia).
  unfold grow_window. apply preserves_bind; [auto with preserves|]. intros s.
  apply preserves_if; apply keeps_int_op; intros x Hx; [auto with preserves|].
  apply preserves_bind; [auto with preserves|]. intros _. apply preserves_when, keeps_int_op. auto 10 with preserves.
Qed.

Lemma keeps_slide q : keeps (slide q).
Proof. unfold slide. auto 20 with preserves. Qed.

Lemma keeps_count_ack : keeps count_ack.
Proof.
  unfold count_ack. apply preserves_bind; [auto with preserves|]. intros s. apply keeps_at. intros x [].
  apply keeps_int_op. intros a Ha. apply preserves_bind; [apply keeps_set; by split|]. auto with preserves.
Qed.

Lemma keeps_clear_ack : keeps clear_ack.
Proof.
  unfold clear_ack. apply preserves_bind; [auto with preserves|]. intros s. apply keeps_at. intros x [].
  apply keeps_set. by split.
Qed.
Hint Resolve keeps_probe_or_resume keeps_top keeps_grow keeps_slide keeps_count_ack keeps_clear_ack : preserves.

Lemma keeps_next_ack : keeps (next_ack clock Q send_ok).
Proof.
  unfold next_ack. apply preserves_bind; [auto with preserves|]. intros s.
  apply preserves_bind; [auto with preserves|]. intros e. apply preserves_if; [auto with preserves|].
  apply preserves_bind; [auto with preserves|]. intros _.
  apply preserves_bind; [apply keeps_rtt, typed_stop|]. auto with preserves.
Qed.

Lemma keeps_measure t0 b : keeps (when b (t ← time_stamp clock; modify (put_measured (u32 (t - t0))))).
Proof. apply preserves_when, keeps_stamp. intros t _. apply keeps_measured, u32_range. Qed.
Hint Resolve keeps_next_ack keeps_measure : preserves.

Lemma keeps_on_ack q t w : keeps (on_ack clock Q send_ok q t w).
Proof.
  unfold on_ack, finish. apply preserves_bind; [auto with preserves|]. intros _.
  apply preserves_bind; [auto with preserves|]. intros s. apply keeps_int_op. intros n Hn.
  apply preserves_bind; [auto with preserves|]. intros _. apply preserves_bind; [auto with preserves|]. intros _.
  apply preserves_if; [apply preserves_bind; [by apply keeps_send|auto with preserves]|].
  apply preserves_bind; [auto with preserves|]. intros _. apply preserves_bind; [auto with preserves|]. intros _.
  apply preserves_bind; [auto with preserves|]. intros a. apply preserves_if; auto 20 with preserves.
Qed.
Hint Resolve keeps_on_ack : preserves.

Lemma keeps_step i : keeps (step clock Q send_ok i).
Proof.
  unfold step, on_timeout. apply preserves_bind; [auto with preserves|]. intros s.
  assert (Hpr : message_typed (Hdr (htonl 0) (htonl 0))) by (split; apply htonl_range).
  destruct (s_phase s) as [|k|], i as [q t w| | |]; auto 20 with preserves.
Qed.
End types.

(** From typed variables and a block of [send_window] typed datagrams, the state in which the
    loop is entered is typed. *)
Lemma begin_typed (clock : nat → Z * Z) (Q : Z) (send_ok : list datagram → datagram → bool)
    (mem : list data) (s0 : sender) :
  0 < Q ≤ INT_MAX → sender_typed Q (put_queue (mk_queue (Some mem) 0 0 Q) s0) →
  wpx (λ _, True) (λ _, sender_typed Q) (begin_transfer clock Q send_ok (Some mem)) (λ _, sender_typed Q) s0.
Proof.
  intros HQ Hs0. assert (Hint : ∀ x, 0 ≤ x ≤ 65535 → int x) by (unfold int, INT_MIN, INT_MAX; lia).
  unfold begin_transfer. eapply wpx_run; [apply on_queue_run; reflexivity|].
  rewrite wpx_bind, wpx_modify, wpx_bind, wpx_get.
  change (set_front 0 (set_rear 0 _)) with (mk_queue (Some mem) 0 0 Q).
  set (s1 := put_window 0 _). assert (Hs1 : sender_typed Q s1).
  { destruct Hs0. split; try done; try (apply Hint; lia); unfold uint32; cbn; lia. }
  refine (preserves_bind (sender_typed Q) _ _ _ _ s1 Hs1); [apply keeps_ticks|intros _].
  apply preserves_bind; [apply keeps_rtt, typed_init|intros _]. by apply keeps_top.
Qed.

(** * A sender *)

Definition typed_line : data := mk_data 0 0 (zero_bytes MAXLINE) 0.

Lemma typed_line_ok : data_typed typed_line.
Proof.
  split; cbn [typed_line CirQueue.seq ts sendline ack]; [unfold uint32; lia..|apply length_zero_bytes|].
  unfold int, INT_MIN, INT_MAX. lia.
Qed.

Lemma blank_typed : sender_typed 4 (put_queue (mk_queue (Some (repeat typed_line 4)) 0 0 4) blank).
Proof.
  split; cbn [s_queue s_rtt s_copy s_seqno s_head s_cwnd s_ssh s_cac s_window s_recv_window s_received s_measured s_out
    put_queue blank].
  - split; [done|apply queue_wf_intro; unfold QSIZE_BOUND; (reflexivity || lia)|]. intros b x [= <-] Hx.
    repeat apply elem_of_cons in Hx as [->|Hx]; [apply typed_line_ok..|]. by apply not_elem_of_nil in Hx.
  - split; cbn; unfold int, uint32, INT_MIN, INT_MAX; lia.
  - exact typed_line_ok.
  - unfold uint32. lia.
  - unfold uint32. lia.
  - unfold int, INT_MIN, INT_MAX. lia.
  - unfold int, INT_MIN, INT_MAX. lia.
  - unfold int, INT_MIN, INT_MAX. lia.
  - unfold int, INT_MIN, INT_MAX. lia.
  - lia.
  - unfold int, INT_MIN, INT_MAX. lia.
  - unfold uint32. lia.
  - constructor.
Qed.
