(* ===== verification/FileClient.v ===== *)
(** The file client of Assignment 2 (client.c): the choice of its address, the main
    thread that receives the file over a lossy socket, acknowledges it and advertises
    its free buffer, and the thread that prints it.

    The two threads share the list of received datagrams, the number of the last one
    printed and two flags.  A handler of the main thread, the printing loop and the
    test of the flag behind it are each taken as one atomic step; the steps interleave
    in any order.  A header and its data are one event here; FileDatagrams receives them
    one by one, with the last integer of the server behind the loop. *)

From S2P Require Export LinkList.

(** * The client's address *)

Inductive route := Loopback | OnLink (i : nat) | Remote.

(** [ifis]: address and network mask of each interface, in host order. *)
Fixpoint find_route (server : Z) (ifis : list (Z * Z)) (i : nat) : route :=
  match ifis with
  | [] => Remote
  | (addr, netmask) :: ifis' =>
      if addr =? server then Loopback
      else if Z.land server netmask =? Z.land addr netmask then OnLink i
      else find_route server ifis' (S i)
  end.

Definition loopback_addr : Z := 127 * 2 ^ 24 + 1.

(** The address the client binds to, and whether it sets SO_DONTROUTE.  For a remote
    server it is the second interface's. *)
Definition client_address (server : Z) (ifis : list (Z * Z)) : option (Z * bool) :=
  match find_route server ifis 0 with
  | Loopback => Some (loopback_addr, true)
  | OnLink i => e ← ifis !! i; Some (e.1, true)
  | Remote => e ← ifis !! 1%nat; Some (e.1, false)
  end.

(** * The request loop *)

(** A turn: whether the simulated loss lets the file name through, and what [select]
    reports: interrupted, timed out, failed, or the four bytes of the port. *)
Inductive port_reply := PInterrupted | PTimeout | PError | PPort (raw : Z).

Record asking := mk_asking {
  names_sent : nat;
  new_port : option Z (* in network order, as [srvaddr.sin_port] holds it *)
}.

Definition ask_turn (kept : bool) (r : port_reply) : M asking bool :=
  when kept (modify (λ s : asking, mk_asking (S (names_sent s)) (new_port s)));;
  match r with
  | PInterrupted | PTimeout => mret (M:=M asking) false
  | PError => exit 1
  | PPort raw =>
      modify (λ s : asking, mk_asking (names_sent s) (Some (htons raw)));;
      mret true
  end.

Fixpoint ask (turns : list (bool * port_reply)) : M asking bool :=
  match turns with
  | [] => mret false
  | (kept, r) :: turns' => b ← ask_turn kept r; if (b : bool) then mret true else ask turns'
  end.

(** * The two threads *)

Inductive printer := Sleeping | Checking | Finished.

(** The three fields of an ACK, in network order. *)
Record ack_hdr := mk_ack {
  a_seq : Z;
  a_ts : Z;
  a_window : Z (* uint32_t *)
}.

Record client := mk_client {
  list_heap : heap;
  printed : Z;
  data_flag : Z;
  process_flag : Z;
  stdout : string; (* file data printed so far *)
  acks : list ack_hdr;
  receiving : bool; (* the main thread is in its receive loop *)
  print_state : printer
}.

Definition put_heap (x : heap) (s : client) : client :=
  mk_client x (printed s) (data_flag s) (process_flag s) (stdout s) (acks s) (receiving s) (print_state s).
Definition put_printed (x : Z) (s : client) : client :=
  mk_client (list_heap s) x (data_flag s) (process_flag s) (stdout s) (acks s) (receiving s) (print_state s).
Definition put_data_flag (x : Z) (s : client) : client :=
  mk_client (list_heap s) (printed s) x (process_flag s) (stdout s) (acks s) (receiving s) (print_state s).
Definition put_process_flag (x : Z) (s : client) : client :=
  mk_client (list_heap s) (printed s) (data_flag s) x (stdout s) (acks s) (receiving s) (print_state s).
Definition put_stdout (x : string) (s : client) : client :=
  mk_client (list_heap s) (printed s) (data_flag s) (process_flag s) x (acks s) (receiving s) (print_state s).
Definition put_acks (x : list ack_hdr) (s : client) : client :=
  mk_client (list_heap s) (printed s) (data_flag s) (process_flag s) (stdout s) x (receiving s) (print_state s).
Definition put_receiving (x : bool) (s : client) : client :=
  mk_client (list_heap s) (printed s) (data_flag s) (process_flag s) (stdout s) (acks s) x (print_state s).
Definition put_print_state (x : printer) (s : client) : client :=
  mk_client (list_heap s) (printed s) (data_flag s) (process_flag s) (stdout s) (acks s) (receiving s) x.

Definition on_list {A} (m : M heap A) : M client A := λ s,
  match m (list_heap s) with
  | Done a h => Done a (put_heap h s)
  | Exited c h => Exited c (put_heap h s)
  | Undefined u => Undefined u
  end.

(** The C string at the beginning of the received bytes; the byte behind them is 0. *)
Fixpoint c_str (bytes : string) : string :=
  match bytes with
  | EmptyString => EmptyString
  | String c b => if Ascii.eqb c Ascii.zero then EmptyString else String c (c_str b)
  end.

Section client.
Context `{Allocator} (header : ptr).
(** [recv_window] of the program, in network order, and which ACKs the kernel takes. *)
Context (recv_window : Z) (send_ok : list ack_hdr → ack_hdr → bool).

Definition send_ack (a : ack_hdr) : M client unit :=
  s ← get;
  if send_ok (acks s) a then modify (put_acks (acks s ++ [a])) else exit 1.

(** [recv_window - htons(LinkListLength(header))], as a uint32_t. *)
Definition window_field : M client Z :=
  len ← on_list (LinkListLength header);
  mret (u32 (recv_window - htons len)).

(** A request for the window size; [kept_in] and [kept_out]: the simulated loss lets it
    in and the answer out. *)
Definition on_probe (kept_in kept_out : bool) : M client unit :=
  when (kept_in && kept_out)
    (w ← window_field;
     send_ack (mk_ack (htonl 1) (htonl 0) w)).

(** The number to acknowledge, 0 when the file is complete. *)
Definition ack_number (seq ts : Z) : M client Z :=
  s ← get;
  last ← if ntohl ts =? 0
         then (a ← on_list (NextAck header (printed s)); mret (u32 a =? u32 (ntohl seq + 1)))
         else mret false;
  if (last : bool) then modify (put_data_flag 1);; mret (htonl 0)
  else a ← on_list (NextAck header (printed s)); mret (htonl a).

(** A header with number [seq] and time stamp [ts], and the bytes that follow it. *)
Definition on_data (seq ts : Z) (bytes : string) (kept_in kept_out : bool) : M client unit :=
  when kept_in
    (s ← get;
     when (ntohl seq >? u32 (printed s))
       (on_list (InsertLinkList header (ntohl seq) (c_str bytes)));;
     a ← ack_number seq ts;
     when kept_out
       (w ← window_field;
        send_ack (mk_ack a ts w);;
        s ← get;
        when (data_flag s =? 1) (modify (put_receiving false)))).

(** A datagram is inserted while the block [malloc] has for its node does not read as NULL
    in [next]. *)
Definition stale_block (seq : Z) (kept_in : bool) (s : client) : bool :=
  kept_in && (ntohl seq >? u32 (printed s)) && negb (is_null (next (malloc_at (list_heap s)).2)).

(** [while (header->next != NULL && header->next->seq == printed + 1) ...] *)
Fixpoint print_lines (fuel : nat) : M client unit :=
  match fuel with
  | O => undef Diverges
  | S fuel' =>
      s ← get;
      l ← on_list (deref header);
      if is_null (next l) then mret tt
      else
        n ← on_list (deref (next l));
        p ← int_op (printed s + 1);
        if nseq n =? u32 p then
          modify (put_stdout (stdout s +:+ recvline n));;
          on_list (set_next header (next n));;
          on_list (free (next l));;
          modify (put_printed p);;
          print_lines fuel'
        else mret tt
  end.

Inductive event :=
  | Net (seq ts : Z) (bytes : string) (kept_in kept_out : bool)
  | NetError
  | PrintWakes
  | PrintChecks.

Definition step (e : event) : M client unit :=
  s ← get;
  match e with
  | Net seq ts bytes kept_in kept_out =>
      when (receiving s)
        (if ntohl seq =? 0 then on_probe kept_in kept_out else on_data seq ts bytes kept_in kept_out)
  | NetError => when (receiving s) (exit 1)
  | PrintWakes =>
      match print_state s with
      | Sleeping => print_lines (S (size (list_heap s)));; modify (put_print_state Checking)
      | _ => mret tt
      end
  | PrintChecks =>
      match print_state s with
      | Checking =>
          if data_flag s =? 1 then modify (put_process_flag 1);; modify (put_print_state Finished)
          else modify (put_print_state Sleeping)
      | _ => mret tt
      end
  end.

Fixpoint steps (es : list event) : M client unit :=
  match es with [] => mret tt | e :: es' => step e;; steps es' end.

(** Both threads are through their loops; behind the receive loop the main thread still
    waits for one datagram, which is in [FileDatagrams]. *)
Definition terminated (s : client) : bool := negb (receiving s) && (process_flag s =? 1).
End client.

(** * Lemmas *)

Lemma put_heap_self s : put_heap (list_heap s) s = s.
Proof. by destruct s. Qed.

Lemma on_list_run {A} (m : M heap A) s a h' :
  m (list_heap s) = Done a h' → on_list m s = Done a (put_heap h' s).
Proof. unfold on_list. by intros ->. Qed.

(** An operation that only looks at the list. *)
Lemma on_list_look {A} (m : M heap A) s a :
  m (list_heap s) = Done a (list_heap s) → on_list m s = Done a s.
Proof. intros H. by rewrite (on_list_run _ _ _ _ H), put_heap_self. Qed.

(** What a block contained before does not matter but for that. *)
Lemma on_data_zeroed `{A : Allocator} header W send_ok seq ts bytes i o s :
  stale_block seq i s = false →
  @on_data A header W send_ok seq ts bytes i o s = @on_data (zeroed A) header W send_ok seq ts bytes i o s.
Proof.
  unfold stale_block, on_data. destruct i; [|done]. cbn [when andb]. intros Hs. rewrite !bind_get.
  apply bind_eq. destruct (_ >? _); [|done]. cbn [when andb] in *. unfold on_list.
  rewrite (@InsertLinkList_zeroed A); [done|]. by destruct (next (malloc_at _).2).
Qed.

(** The lines 1 .. n of a file, one behind the other. *)
Fixpoint text (line : Z → string) (n : nat) : string :=
  match n with O => EmptyString | S n' => text line n' +:+ line (Z.of_nat n) end.

(** Number [k] has arrived: it is printed or in the list [l]. *)
Definition has (l : list Pure.entry) (p k : Z) : Prop := k ≤ p ∨ k ∈ l.*1.

Section correctness.
Context `{ZeroedAllocator} (header : ptr) (recv_window : Z).
Context (send_ok : list ack_hdr → ack_hdr → bool).
(** The file: [line k] is the content of datagram [k], the number [last] is the one
    that announces the end, and no number goes beyond [bound]. *)
Context (line : Z → string) (last bound : Z).
Context (Hlast : 1 ≤ last) (Hbound : 0 ≤ bound < INT_MAX).
Context (Hline : ∀ k, 1 ≤ k ≤ bound → (String.length (line k) < RECVLINE)%nat).

(** A datagram such a server sends. *)
Definition honest (e : event) : Prop :=
  match e with
  | Net seq ts bytes _ _ =>
      ntohl seq = 0 ∨
      (1 ≤ ntohl seq ≤ bound ∧ c_str bytes = line (ntohl seq) ∧ (ntohl ts = 0 → last ≤ ntohl seq))
  | _ => True
  end.

Record consistent (l : list Pure.entry) (s : client) : Prop := {
  c_list : list_at (list_heap s) header l;
  c_inc : increasing l;
  c_printed : 0 ≤ printed s ≤ bound;
  c_range : Forall (λ e, printed s < e.1 ≤ bound) l;
  c_line : Forall (λ e, e.2 = line e.1) l;
  c_stdout : stdout s = text line (Z.to_nat (printed s));
  c_ack_range : ∀ a, a ∈ acks s → ntohl (a_seq a) ≤ bound + 1;
  c_acks : ∀ a k, a ∈ acks s → 1 ≤ k < ntohl (a_seq a) → has l (printed s) k;
  c_zero : ∀ a k, a ∈ acks s → ntohl (a_seq a) = 0 → 1 ≤ k ≤ last → has l (printed s) k;
  c_flag : ∀ k, data_flag s = 1 → 1 ≤ k ≤ last → has l (printed s) k
}.

Definition good (s : client) : Prop := ∃ l, consistent l s.

Lemma consistent_ok l s : consistent l s → Forall entry_ok l.
Proof.
  intros C. pose proof (c_range _ _ C) as Hr. pose proof (c_line _ _ C) as Hl.
  rewrite Forall_forall in *. intros e He. specialize (Hr e He). specialize (Hl e He). cbn in Hr, Hl.
  pose proof (c_printed _ _ C). unfold INT_MAX in *. split; [lia|]. rewrite Hl. apply Hline. lia.
Qed.

Lemma consistent_length l s : consistent l s → Z.of_nat (length l) ≤ bound - printed s.
Proof.
  intros C. apply increasing_length; [apply (c_inc _ _ C)|apply (c_range _ _ C)|apply (c_printed _ _ C)].
Qed.

Lemma window_field_run l s :
  consistent l s → ∃ w, window_field header recv_window s = Done w s.
Proof.
  intros C. pose proof (consistent_length _ _ C). pose proof (c_printed _ _ C).
  eexists. unfold window_field.
  run_step (on_list_look _ _ _ (LinkListLength_run _ _ _ (c_list _ _ C) ltac:(lia))). done.
Qed.

Lemma NextAck_here l s :
  consistent l s →
  ∃ a, on_list (NextAck header (printed s)) s = Done a s ∧ printed s < a ≤ bound + 1 ∧
       (∀ k, k < a → has l (printed s) k).
Proof.
  intros C. pose proof (consistent_length _ _ C). pose proof (c_printed _ _ C).
  pose proof (consistent_ok _ _ C) as Hok. pose proof (c_range _ _ C) as Hr. rewrite Forall_forall in Hr.
  destruct (NextAck_run _ _ _ (printed s) (c_list _ _ C) Hok ltac:(lia) ltac:(lia)) as [Hrun Hb].
  destruct (next_ack_gap (printed s) l (c_inc _ _ C)) as (_ & _ & Hgap).
  { intros e He. by apply Hr. }
  exists (Pure.next_ack (printed s) l). split; [by apply on_list_look|]. split; [lia|].
  intros k Hk. destruct (decide (k ≤ printed s)); [by left|]. right. apply Hgap. lia.
Qed.

(** Sending a truthful acknowledgement. *)
Lemma send_ack_good l s a :
  consistent l s → ntohl (a_seq a) ≤ bound + 1 →
  (∀ k, 1 ≤ k < ntohl (a_seq a) → has l (printed s) k) →
  (∀ k, ntohl (a_seq a) = 0 → 1 ≤ k ≤ last → has l (printed s) k) →
  wp (λ _, good) (send_ack send_ok a) (λ _ s', consistent l s' ∧ printed s' = printed s) s.
Proof.
  intros C Hr Ht Hz. unfold send_ack. autorewrite with cwp. destruct (send_ok (acks s) a).
  - autorewrite with cwp. split; [|done]. destruct C. split; try done; cbn.
    2-3: intros b k [Hb|Hb]%elem_of_app; [eauto|apply list_elem_of_singleton in Hb as ->; eauto].
    intros b [Hb|Hb]%elem_of_app; [eauto|by apply list_elem_of_singleton in Hb as ->].
  - by exists l.
Qed.

Lemma on_probe_good l s i o :
  consistent l s → wp (λ _, good) (on_probe header recv_window send_ok i o) (λ _, consistent l) s.
Proof.
  intros C. unfold on_probe. destruct (i && o); [|exact C]. cbn [when].
  destruct (window_field_run _ _ C) as [w Hw]. eapply wpx_run; [exact Hw|].
  apply (wpx_mono _ _ _ (λ _ s', consistent l s' ∧ printed s' = printed s)); [by intros _ s' []|].
  apply send_ack_good; cbn [a_seq]; [done|..]; rewrite ntohl_htonl; change (u32 1) with 1; lia.
Qed.

Lemma ack_number_good l s seq ts :
  consistent l s → 1 ≤ ntohl seq ≤ bound → (ntohl ts = 0 → last ≤ ntohl seq) →
  wp (λ _, good) (ack_number header seq ts) (λ a s', consistent l s' ∧ ntohl a ≤ bound + 1 ∧
    (∀ k, 1 ≤ k < ntohl a → has l (printed s') k) ∧
    (∀ k, ntohl a = 0 → 1 ≤ k ≤ last → has l (printed s') k) ∧ printed s' = printed s) s.
Proof.
  intros C Hseq Hts. destruct (NextAck_here _ _ C) as (a & Ha & Hb & Hgap).
  pose proof (c_printed _ _ C). unfold INT_MAX in *. unfold ack_number. rewrite !wpx_bind, wpx_get.
  assert (Hnum : wp (λ _, good) (a ← on_list (NextAck header (printed s)); mret (htonl a))
    (λ a s', consistent l s' ∧ ntohl a ≤ bound + 1 ∧ (∀ k, 1 ≤ k < ntohl a → has l (printed s') k) ∧
    (∀ k, ntohl a = 0 → 1 ≤ k ≤ last → has l (printed s') k) ∧ printed s' = printed s) s).
  { eapply wpx_run; [exact Ha|]. rewrite wpx_ret, ntohl_htonl, u32_small by lia.
    split; [done|]. split; [lia|]. split; [|split; [lia|done]]. intros k Hk. apply Hgap. lia. }
  destruct (Z.eqb_spec (ntohl ts) 0) as [Hts0|_]; [|exact Hnum].
  rewrite wpx_bind. eapply wpx_run; [exact Ha|]. rewrite wpx_ret, !u32_small by lia.
  destruct (Z.eqb_spec a (ntohl seq + 1)) as [->|_]; [|exact Hnum].
  autorewrite with cwp. specialize (Hts Hts0). split.
  - destruct C. split; try done. cbn. intros k _ Hk. apply Hgap. lia.
  - rewrite ntohl_htonl. change (u32 0) with 0. split; [lia|]. split; [intros k; lia|]. split; [|done]. intros k _ Hk.
    cbn. apply Hgap. lia.
Qed.

Lemma insert_good l s k d :
  consistent l s → printed s < k ≤ bound → d = line k →
  ∃ l' s', on_list (InsertLinkList header k d) s = Done tt s' ∧ consistent l' s' ∧ 
           receiving s' = receiving s ∧ printed s' = printed s ∧ has l' (printed s') k.
Proof.
  intros C Hk ->. pose proof (c_printed _ _ C) as Hp.
  destruct (InsertLinkList_run _ _ _ k (line k) (c_list _ _ C)) as (h' & Hrun & Hl).
  { apply Hline. lia. }
  assert (Hin : ∀ e, e ∈ Pure.insert k (line k) l → e ∈ l ∨ e = (k, line k)).
  { intros e [?|[? _]]%(elem_of_insert _ _ _ _ (c_inc _ _ C)); auto. }
  assert (Hsub : ∀ p x, has l p x → has (Pure.insert k (line k) l) p x).
  { intros p x [?|(e & -> & He)%list_elem_of_fmap]; [by left|right].
    apply list_elem_of_fmap_2. apply elem_of_insert; [apply (c_inc _ _ C)|by left]. }
  exists (Pure.insert k (line k) l), (put_heap h' s).
  split; [by apply on_list_run|]. split; [|split_and!; [done|done|]].
  2:{ destruct (decide (k ∈ l.*1)) as [Hk'|Hk']; [by apply Hsub; right|right].
      apply (list_elem_of_fmap_2 fst _ (k, line k)). apply elem_of_insert; [apply (c_inc _ _ C)|by right]. }
  destruct C as [C1 C2 C3 C4 C5 C6 C10 C7 C8 C9].
  rewrite Forall_forall in C4, C5.
  split; cbn; try done; eauto using increasing_insert; apply Forall_forall; intros e [He| ->]%Hin;
    [by apply C4|done|by apply C5|done].
Qed.

(** A datagram that is let in is printed or in the list afterwards. *)
Lemma on_data_keeps l s seq ts bytes o :
  consistent l s → 1 ≤ ntohl seq ≤ bound → c_str bytes = line (ntohl seq) →
  (ntohl ts = 0 → last ≤ ntohl seq) →
  wp (λ _, good) (on_data header recv_window send_ok seq ts bytes true o)
    (λ _ s', ∃ l', consistent l' s' ∧ has l' (printed s') (ntohl seq)) s.
Proof.
  intros C Hseq Hline' Hts. unfold on_data. cbn [when].
  rewrite wpx_bind, wpx_get. apply (wpx_seq _ _ (λ _ s', ∃ l', consistent l' s' ∧ has l' (printed s') (ntohl seq))).
  { pose proof (c_printed _ _ C) as Hp. unfold INT_MAX in *. rewrite u32_small by lia. rewrite Z.gtb_ltb.
    destruct (Z.ltb_spec (printed s) (ntohl seq)) as [Hlt|Hle]; [|exists l; split; [done|by left]]. cbn [when].
    destruct (insert_good l s (ntohl seq) (c_str bytes) C ltac:(lia) Hline') as (l' & s' & Hrun & C' & _ & _ & Hin).
    unfold wpx. rewrite Hrun. by exists l'. }
  clear l s C. intros [] s (l & C & Hhas).
  eapply wpx_seq; [by apply ack_number_good|]. cbv beta. intros a s' (C' & Hr & Ht & Hz & Hpr). rewrite <- Hpr in Hhas.
  clear s C Hpr. destruct o; [|by exists l]. cbn [when].
  destruct (window_field_run _ _ C') as [w Hw]. eapply wpx_run; [exact Hw|].
  eapply wpx_seq; [by apply (send_ack_good l)|]. cbv beta. clear Hr Ht Hz Hw. intros [] s (C & Hpr). rewrite <- Hpr in Hhas.
  autorewrite with cwp. split; intros _; exists l; [|done]. split; [|exact Hhas]. by destruct C.
Qed.

Lemma on_data_good l s seq ts bytes i o :
  consistent l s → 1 ≤ ntohl seq ≤ bound → c_str bytes = line (ntohl seq) →
  (ntohl ts = 0 → last ≤ ntohl seq) →
  wp (λ _, good) (on_data header recv_window send_ok seq ts bytes i o) (λ _, good) s.
Proof.
  intros C Hseq Hline' Hts. destruct i; [|by exists l].
  eapply wpx_mono; [|by apply (on_data_keeps l)]. intros _ s' (l' & C' & _). by exists l'.
Qed.

Lemma print_one_consistent l s d h :
  consistent ((printed s + 1, d) :: l) s → list_at h header l →
  consistent l (put_printed (printed s + 1) (put_heap h (put_stdout (stdout s +:+ d) s))).
Proof.
  intros [C1 C2 C3 C4 C5 C6 C10 C7 C8 C9] Hl. destruct C2 as [Hall Hinc].
  apply Forall_cons in C4 as [C4a C4]. apply Forall_cons in C5 as [Hd C5]. cbn in C4a, Hd.
  assert (Hhas : ∀ k, has ((printed s + 1, d) :: l) (printed s) k → has l (printed s + 1) k).
  { intros k. unfold has. cbn. rewrite elem_of_cons. intros [?|[->|?]]; [left; lia..|by right]. }
  split; cbn; eauto; try lia.
  - rewrite Forall_forall in *. intros e He. specialize (Hall e He). specialize (C4 e He). cbn in *. lia.
  - rewrite C6, Hd. replace (Z.to_nat (printed s + 1)) with (S (Z.to_nat (printed s))) by lia.
    cbn [text]. do 2 f_equal. lia.
Qed.

(** The printing loop leaves nothing that continues the printed text. *)
Lemma print_lines_good fuel l s :
  consistent l s → (length l < fuel)%nat →
  wp (λ _ _, False) (print_lines header fuel)
     (λ _ s', ∃ l', consistent l' s' ∧ printed s' + 1 ∉ l'.*1 ∧ data_flag s' = data_flag s) s.
Proof.
  revert l s. induction fuel as [|fuel IH]; intros l s C Hf; [lia|].
  cbn [print_lines]. rewrite wpx_bind, wpx_get.
  destruct (first_run _ _ _ (c_list _ _ C)) as (n & Hn & Hl).
  eapply wpx_run; [by apply on_list_look|]. destruct l as [|[k d] l].
  { rewrite Hl. exists []. split_and!; [done|set_solver|done]. }
  destruct Hl as (b & n' & h1 & h2 & Hnext & Hn' & Hk & Hd & Hset & Hfree & Hl). rewrite Hnext. cbn [is_null].
  eapply wpx_run; [by apply on_list_look|].
  pose proof (c_printed _ _ C) as Hp. pose proof (c_range _ _ C) as Hr. pose proof (c_inc _ _ C) as Hinc.
  apply Forall_cons in Hr as [Hkr _]. unfold INT_MAX in *. cbn [fst] in Hkr.
  unfold int_op at 1, is_int, INT_MIN, INT_MAX.
  destruct (Z.leb_spec (- 2 ^ 31) (printed s + 1)), (Z.leb_spec (printed s + 1) (2 ^ 31 - 1)); try lia.
  cbn [andb]. rewrite wpx_bind, wpx_ret, u32_small, Hk by lia. simpl in Hf.
  destruct (Z.eqb_spec k (printed s + 1)) as [Heq|Hne].
  - rewrite Heq, Hd in *. eapply wpx_run; [reflexivity|]. eapply wpx_run; [apply on_list_run; exact Hset|].
    eapply wpx_run; [apply on_list_run; exact Hfree|]. eapply wpx_run; [reflexivity|].
    eapply wpx_mono; [|apply (IH l); [by apply print_one_consistent|lia]]. intros _ s' (l' & ? & ? & Hflag).
    exists l'. split_and!; [done..|]. by rewrite Hflag.
  - exists ((k, d) :: l). split_and!; [done| |done]. intros Hin. destruct Hinc as [Hall _].
    apply elem_of_cons in Hin as [?|Hin]; [done|]. apply (increasing_lt k) in Hin; [lia|done].
Qed.

(** It always returns. *)
Lemma print_lines_ends fuel l s :
  consistent l s → (length l < fuel)%nat →
  ∃ s' l', print_lines header fuel s = Done tt s' ∧ consistent l' s' ∧
           printed s' + 1 ∉ l'.*1 ∧ data_flag s' = data_flag s.
Proof.
  intros C Hf. pose proof (print_lines_good fuel l s C Hf) as Hw. unfold wpx in Hw.
  destruct (print_lines header fuel s) as [[] s'|? ?|?]; [|done..].
  destruct Hw as (l' & ? & ? & ?). by exists s', l'.
Qed.

Lemma step_good e s :
  honest e → good s → wp (λ _, good) (step header recv_window send_ok e) (λ _, good) s.
Proof.
  intros He [l C]. unfold step. rewrite wpx_bind, wpx_get.
  destruct e as [seq ts bytes i o| | |].
  - destruct (receiving s); [|by exists l]. cbn [when]. destruct (Z.eqb_spec (ntohl seq) 0) as [|Hne].
    + eapply wpx_mono; [|by apply (on_probe_good l)]. intros [] s' C'. by exists l.
    + destruct He as [?|(? & ? & ?)]; [done|]. by apply (on_data_good l).
  - destruct (receiving s); by exists l.
  - destruct (print_state s); try by exists l. 
    destruct (print_lines_ends _ l s C (list_at_size _ _ _ (c_list _ _ C))) as (s' & l' & Hrun & C' & _).
    eapply wpx_run; [exact Hrun|]. exists l'. by destruct C'.
  - destruct (print_state s); try by exists l.
    destruct (data_flag s =? 1); exists l; by destruct C.
Qed.

Lemma steps_good es s :
  Forall honest es → good s → wp (λ _, good) (steps header recv_window send_ok es) (λ _, good) s.
Proof.
  intros Hes. revert s. induction Hes as [|e es He Hes IH]; intros s Hs; [done|].
  cbn [steps]. eapply wpx_seq; [by apply step_good|]. intros [] s' Hs'. by apply IH.
Qed.
(** The client before its receive loop, with the receive list [h]. *)
Definition started (h : heap) : client := mk_client h 0 0 0 EmptyString [] true Sleeping.

Lemma started_consistent h : list_at h header [] → consistent [] (started h).
Proof.
  intros Hl. split; cbn; try done; try lia.
  - intros a Ha. by apply not_elem_of_nil in Ha.
  - intros a k Ha. by apply not_elem_of_nil in Ha.
  - intros a k Ha. by apply not_elem_of_nil in Ha.
Qed.

Lemma started_good h : list_at h header [] → good (started h).
Proof. exists []. by apply started_consistent. Qed.

(** Once the client has announced that the file is complete, the next time the
    printing thread wakes up it prints everything that is missing up to the last
    datagram. *)
Theorem wake_prints_the_rest h es s :
  list_at h header [] → Forall honest es →
  steps header recv_window send_ok es (started h) = Done tt s →
  data_flag s = 1 → print_state s = Sleeping →
  ∃ s', step header recv_window send_ok PrintWakes s = Done tt s' ∧
        last ≤ printed s' ∧ stdout s' = text line (Z.to_nat (printed s')).
Proof.
  intros Hl Hes Hrun Hflag Hsl. pose proof (steps_good es _ Hes (started_good h Hl)) as Hg.
  unfold wpx in Hg. rewrite Hrun in Hg. destruct Hg as [l C].
  pose proof (print_lines_ends (S (size (list_heap s))) l s C (list_at_size _ _ _ (c_list _ _ C)))
    as (s' & l' & Hpr & C' & Hnot & Hflag').
  exists (put_print_state Checking s'). unfold step. rewrite bind_get, Hsl. run_step Hpr.
  split; [done|]. cbn. split; [|apply (c_stdout _ _ C')].
  destruct (decide (last ≤ printed s')) as [|Hlt]; [done|]. pose proof (c_printed _ _ C').
  destruct (c_flag _ _ C' (printed s' + 1)) as [?|?]; [congruence|lia|lia|done].
Qed.
End correctness.

(** * A run *)

(** A file of one line of text and the empty datagram that ends it. *)
Definition two_lines (k : Z) : string := if k =? 1 then "ab" else EmptyString.
Definition net (seq ts : Z) (bytes : string) : event := Net (htonl seq) (htonl ts) bytes true true.
Definition run_events : list event := [net 2 0 EmptyString; net 1 7 "ab"; net 2 0 EmptyString].
Definition empty_list : heap := nodes_from 0 [(0, EmptyString)].
Definition runs (es : list event) : res client unit :=
  @steps zero_alloc (Ptr 0) (htons 10) (λ _ _, true) es (started empty_list).

Lemma empty_list_at : list_at empty_list (Ptr 0) [].
Proof.
  exists 0%nat, (mk_node 0 EmptyString Null), [].
  split_and!; [reflexivity..|apply (bool_decide_unpack _); vm_compute; exact I|reflexivity].
Defined.

Lemma run_events_honest : Forall (honest two_lines 2 2) run_events.
Proof.
  repeat apply Forall_cons_2; [..|apply Forall_nil_2]; unfold honest, net; rewrite !ntohl_htonl; right.
  all: split; [vm_compute; split; discriminate|split; [vm_compute; reflexivity|vm_compute; done]].
Qed.

Lemma two_lines_short k : 1 ≤ k ≤ 2 → (String.length (two_lines k) < RECVLINE)%nat.
Proof. intros _. unfold two_lines. destruct (k =? 1); apply (bool_decide_unpack _); vm_compute; exact I. Qed.

Definition run_end : client :=
  match runs run_events with Done _ s => s | _ => started empty_list end.

Lemma wake_prints_the_rest_witness :
  ∃ s', @step zero_alloc (Ptr 0) (htons 10) (λ _ _, true) PrintWakes run_end = Done tt s' ∧ 2 ≤ printed s'.
Proof.
  destruct (@wake_prints_the_rest zero_alloc zero_alloc_zeroed (Ptr 0) (htons 10) (λ _ _, true)
    two_lines 2 2 ltac:(lia) ltac:(vm_compute; split; [discriminate|reflexivity]) two_lines_short empty_list run_events run_end
    empty_list_at run_events_honest) as (s' & H1 & H2 & _); [vm_compute; reflexivity..|].
  exists s'. split; [exact H1|exact H2].
Defined.

(** The flag that ends the printing thread is tested after the printing loop, not
    together with it.  When the last datagram arrives between the two, the thread
    finishes, the client terminates, and the line is never printed. *)
Theorem printer_may_lose_tail :
  ∃ s, runs [PrintWakes; net 1 7 "ab"; net 2 0 EmptyString; PrintChecks] = Done tt s ∧
       terminated s = true ∧ stdout s = EmptyString ∧ printed s = 0 ∧
       map (λ a, ntohl (a_seq a)) (acks s) = [2; 0].
Proof. eexists. split; [vm_compute; reflexivity|]. vm_compute. repeat split; reflexivity. Qed.

(** The window the client advertises, [recv_window - htons(length)] with
    [recv_window] itself already in network order, is read by the server's [ntohs] as
    the free part of the buffer while the window is below 256.  At 256 it is not: one
    buffered datagram makes it 511. *)
Theorem advertised_window `{Allocator} header w (s : client) l :
  list_at (list_heap s) header l → Z.of_nat (length l) ≤ w →
  (w < 256 → ∃ x, window_field header (htons w) s = Done x s ∧ ntohs x = w - Z.of_nat (length l)) ∧
  (w = 256 → length l = 1%nat → ∃ x, window_field header (htons w) s = Done x s ∧ ntohs x = 511).
Proof.
  intros Hl Hlen.
  assert (Hrun : w ≤ INT_MAX →
    window_field header (htons w) s = Done (u32 (htons w - htons (Z.of_nat (length l)))) s).
  { intros Hw. unfold window_field.
    run_step (on_list_look _ _ _ (LinkListLength_run _ _ _ Hl ltac:(lia))). done. }
  unfold INT_MAX in Hrun. split.
  - intros Hw. eexists. split; [apply Hrun; lia|]. rewrite (htons_small w), (htons_small (Z.of_nat (length l))) by lia.
    rewrite u32_small by lia. replace (256 * w - 256 * Z.of_nat (length l)) with (256 * (w - Z.of_nat (length l))) by lia.
    rewrite <- (htons_small (w - Z.of_nat (length l))), ntohs_htons, u16_small by lia. done.
  - intros -> Hone. eexists. split; [apply Hrun; lia|]. rewrite Hone. vm_compute. reflexivity.
Qed.

Lemma advertised_window_witness :
  ∃ x, window_field (Ptr 0) (htons 10) (started heap2) = Done x (started heap2) ∧ ntohs x = 8.
Proof.
  destruct (@advertised_window zero_alloc (Ptr 0) 10 (started heap2) _ heap2_list ltac:(vm_compute; done)) as [Hw _].
  destruct (Hw ltac:(lia)) as (x & H1 & H2). exists x. split; [exact H1|exact H2].
Defined.
