(* ===== verification/FileDatagrams.v ===== *)
(** The receive loop of the file client (Assignment 2, client.c) on single datagrams: a
    [recv] of the header, and for a header that does not ask for the window size a
    second [recv] for the data.  [FileClient] takes both as one event; here every stream of
    datagrams is related to the events it is read as, for any contents of [malloc]ed
    memory, with what the client makes of a header or of data that is lost.  Also: the
    list of received datagrams, which the two threads change without a lock. *)

From S2P Require Export FileClient.

(** * State *)

(** Where the main thread waits: in the loop for a header or for data, behind it for the
    last integer, and in the loop that waits for the printing thread. *)
Inductive recv_phase := AtHeader | AtData | AtEnd | Closing.

Record dclient := mk_dclient {
  inner : client;
  recv_hdr : list Z; (* the 12 bytes of struct hdr *)
  recv_at : recv_phase
}.

Definition put_inner (x : client) (s : dclient) : dclient := mk_dclient x (recv_hdr s) (recv_at s).
Definition put_recv_hdr (x : list Z) (s : dclient) : dclient := mk_dclient (inner s) x (recv_at s).
Definition put_recv_at (x : recv_phase) (s : dclient) : dclient := mk_dclient (inner s) (recv_hdr s) x.

Definition on_client {A} (m : M client A) : M dclient A := λ s,
  match m (inner s) with
  | Done a c => Done a (put_inner c s)
  | Exited e c => Exited e (put_inner c s)
  | Undefined u => Undefined u
  end.

Definition sizeof_hdr : nat := 12.
(** [char recv_data[MAXLINE+1]] *)
Definition RECV_DATA : nat := 4096 + 1.

(** The fields of the header, as they are in memory. *)
Definition hdr_seq (hdr : list Z) : Z := le_combine (take 4 hdr).
Definition hdr_ts (hdr : list Z) : Z := le_combine (take 4 (drop 4 hdr)).

(** [recv(sockfd, &recv_hdr, sizeof(recv_hdr), 0)]: a longer datagram is cut, a shorter one
    leaves the rest as it was. *)
Definition recv_into (hdr d : list Z) : list Z :=
  take sizeof_hdr d ++ drop (length (take sizeof_hdr d)) hdr.

(** The received bytes as characters. *)
Definition text_of (d : list Z) : string := foldr (λ b s, String (byte_char b) s) EmptyString d.

(** A datagram, and what the simulated loss of the client makes of it; a failing [recv];
    the two steps of the printing thread. *)
Inductive dgram_event :=
  | Dgram (d : list Z) (kept_in kept_out : bool)
  | RecvFails
  | Wakes
  | Checks.

Section client.
Context `{Allocator} (header : ptr) (recv_window : Z) (send_ok : list ack_hdr → ack_hdr → bool).

Definition on_header (d : list Z) (kept_in kept_out : bool) : M dclient unit :=
  s ← get;
  let hdr := recv_into (recv_hdr s) d in
  modify (put_recv_hdr hdr);;
  if ntohl (hdr_seq hdr) =? 0 then on_client (on_probe header recv_window send_ok kept_in kept_out)
  else modify (put_recv_at AtData).

(** The second [recv]: [recv_data[read_count]=0], then the datagram is handled, and a
    [break] when the file is complete. *)
Definition on_body (d : list Z) (kept_in kept_out : bool) : M dclient unit :=
  s ← get;
  let read_count := Nat.min (length d) RECV_DATA in
  if (read_count <? RECV_DATA)%nat then
    on_client (on_data header recv_window send_ok (hdr_seq (recv_hdr s)) (hdr_ts (recv_hdr s)) (text_of d)
      kept_in kept_out);;
    s ← get;
    modify (put_recv_at (if receiving (inner s) then AtHeader else AtEnd))
  else undef OutOfBounds.

Definition dgram_step (e : dgram_event) : M dclient unit :=
  s ← get;
  match e with
  | Dgram d kept_in kept_out =>
      match recv_at s with
      | AtHeader => on_header d kept_in kept_out
      | AtData => on_body d kept_in kept_out
      | AtEnd => modify (put_recv_at Closing)
      | Closing => mret tt
      end
  | RecvFails => match recv_at s with Closing => mret tt | _ => exit 1 end
  | Wakes => on_client (step header recv_window send_ok PrintWakes)
  | Checks => on_client (step header recv_window send_ok PrintChecks)
  end.

Fixpoint dgram_steps (es : list dgram_event) : M dclient unit :=
  match es with [] => mret tt | e :: es' => dgram_step e;; dgram_steps es' end.

(** [e] makes the client insert a line while the block [malloc] has for its node does not
    read as NULL in [next] (LinkList.c does not set it). *)
Definition stale_at (e : dgram_event) (s : dclient) : bool :=
  match e, recv_at s with
  | Dgram _ kept_in _, AtData => stale_block (hdr_seq (recv_hdr s)) kept_in (inner s)
  | _, _ => false
  end.
End client.

(** * The events the client makes of a stream of datagrams *)

(** [pending]: the client has read a header, [hdr], and waits for its data. *)
Fixpoint events_of (hdr : list Z) (pending : bool) (es : list dgram_event) : list event :=
  match es with
  | [] => []
  | Dgram d i o :: es' =>
      if pending then Net (hdr_seq hdr) (hdr_ts hdr) (text_of d) i o :: events_of hdr false es'
      else
        let hdr' := recv_into hdr d in
        if ntohl (hdr_seq hdr') =? 0 then Net (hdr_seq hdr') (hdr_ts hdr') EmptyString i o :: events_of hdr' false es'
        else events_of hdr' true es'
  | RecvFails :: es' => NetError :: events_of hdr pending es'
  | Wakes :: es' => PrintWakes :: events_of hdr pending es'
  | Checks :: es' => PrintChecks :: events_of hdr pending es'
  end.

(** A datagram that fits, not a failure. *)
Definition fits (e : dgram_event) : Prop :=
  match e with Dgram d _ _ => (length d ≤ 4096)%nat | RecvFails => False | _ => True end.

(** The state of the loop is that of the translation; behind the loop it does not matter. *)
Definition in_step (hdr : list Z) (pending : bool) (s : dclient) : Prop :=
  if receiving (inner s) then recv_hdr s = hdr ∧ recv_at s = if pending then AtData else AtHeader
  else recv_at s = AtEnd ∨ recv_at s = Closing.

(** The same result, up to what only the one has. *)
Definition same_result (r : res dclient unit) (r' : res client unit) : Prop :=
  match r with
  | Done _ s => r' = Done tt (inner s)
  | Exited c s => r' = Exited c (inner s)
  | Undefined u => r' = Undefined u
  end.

Section refinement.
Context `{Allocator} (header : ptr) (recv_window : Z) (send_ok : list ack_hdr → ack_hdr → bool).
Notation run := (dgram_steps header recv_window send_ok).
Notation runs_as := (steps header recv_window send_ok).

Lemma on_client_cases {A} (m : M client A) s :
  match m (inner s) with
  | Done a c => on_client m s = Done a (mk_dclient c (recv_hdr s) (recv_at s))
  | Exited e c => on_client m s = Exited e (mk_dclient c (recv_hdr s) (recv_at s))
  | Undefined u => on_client m s = Undefined u
  end.
Proof. unfold on_client, put_inner. by destruct (m (inner s)). Qed.

Lemma steps_cons e es c :
  runs_as (e :: es) c = match step header recv_window send_ok e c with
                        | Done _ c' => runs_as es c'
                        | Exited k c' => Exited k c'
                        | Undefined u => Undefined u
                        end.
Proof. done. Qed.

Lemma run_cons e es s :
  run (e :: es) s = match dgram_step header recv_window send_ok e s with
                    | Done _ s' => run es s'
                    | Exited k s' => Exited k s'
                    | Undefined u => Undefined u
                    end.
Proof. done. Qed.

(** Only [on_data] touches [receiving]. *)
Section receiving.
Context (b : bool).
Notation keeps := (preserves (λ c, receiving c = b)).

Lemma stays_on_list {A} (m : M heap A) : keeps (on_list m).
Proof. intros c Hc. unfold wpx, on_list. by destruct (m (list_heap c)). Qed.
Lemma keeps_modify f : (∀ c, receiving (f c) = receiving c) → keeps (modify f).
Proof. intros Hf c Hc. unfold wpx, modify. by rewrite Hf. Qed.
Hint Resolve stays_on_list : preserves.
Hint Extern 1 (preserves _ (modify _)) => (by apply keeps_modify) : preserves.
Hint Unfold int_op : preserves.

Lemma stays_int_op {St} (I : St → Prop) x : preserves I (int_op x).
Proof. unfold int_op. auto with preserves. Qed.
Hint Resolve stays_int_op : preserves.

Lemma stays_probe i o : keeps (on_probe header recv_window send_ok i o).
Proof. unfold on_probe, window_field, send_ack. auto 12 with preserves. Qed.

Lemma stays_print_lines fuel : keeps (print_lines header fuel).
Proof. induction fuel as [|fuel IH]; cbn [print_lines]; auto 20 with preserves. Qed.
Hint Resolve stays_print_lines : preserves.

Lemma stays_print e : e = PrintWakes ∨ e = PrintChecks → keeps (step header recv_window send_ok e).
Proof.
  intros He. unfold step. apply preserves_bind; [auto with preserves|]. intros c.
  destruct He as [-> | ->]; destruct (print_state c); auto 10 with preserves.
Qed.
End receiving.

(** A step of the printing thread is the same step of the client. *)
Lemma print_step_run e e' s :
  (e = Wakes ∧ e' = PrintWakes) ∨ (e = Checks ∧ e' = PrintChecks) →
  match step header recv_window send_ok e' (inner s) with
  | Done _ c => dgram_step header recv_window send_ok e s = Done tt (put_inner c s) ∧ receiving c = receiving (inner s)
  | Exited k c => dgram_step header recv_window send_ok e s = Exited k (put_inner c s)
  | Undefined u => dgram_step header recv_window send_ok e s = Undefined u
  end.
Proof.
  intros He. assert (Hrun : dgram_step header recv_window send_ok e s = on_client (step header recv_window send_ok e') s)
    by (by destruct He as [[-> ->]|[-> ->]]).
  rewrite Hrun. pose proof (on_client_cases (step header recv_window send_ok e') s) as Hc.
  pose proof (stays_print (receiving (inner s)) e' ltac:(destruct He as [[_ ->]|[_ ->]]; auto) (inner s) eq_refl) as Hk.
  unfold wpx in Hk. by destruct (step header recv_window send_ok e' (inner s)) as [[] c|k c|u].
Qed.

Lemma print_steps_agree e e' es es' hdr pending s :
  (e = Wakes ∧ e' = PrintWakes) ∨ (e = Checks ∧ e' = PrintChecks) →
  in_step hdr pending s →
  (∀ s', in_step hdr pending s' → same_result (run es s') (runs_as es' (inner s'))) →
  same_result (run (e :: es) s) (runs_as (e' :: es') (inner s)).
Proof.
  intros He Hin IH. pose proof (print_step_run e e' s He) as Hp. rewrite run_cons, steps_cons.
  destruct (step header recv_window send_ok e' (inner s)) as [[] c|k c|u]; [|by rewrite Hp..].
  destruct Hp as [-> Hr]. apply (IH (put_inner c s)). unfold in_step in *. by rewrite <- Hr in Hin.
Qed.

(** A datagram behind the receive loop. *)
Lemma late_dgram d i o s hdr pending :
  receiving (inner s) = false → in_step hdr pending s →
  ∃ s', dgram_step header recv_window send_ok (Dgram d i o) s = Done tt s' ∧ inner s' = inner s ∧
        ∀ hdr' pending', in_step hdr' pending' s'.
Proof.
  intros Hr Hin. unfold in_step in *. rewrite Hr in Hin. unfold dgram_step. rewrite bind_get.
  destruct Hin as [Hat|Hat]; rewrite Hat.
  - exists (put_recv_at Closing s). split_and!; [done..|]. intros. cbn. rewrite Hr. by right.
  - exists s. split_and!; [done..|]. intros. rewrite Hr. by right.
Qed.

Lemma late_net seq ts bytes i o c :
  receiving c = false → step header recv_window send_ok (Net seq ts bytes i o) c = Done tt c.
Proof. intros Hr. unfold step. rewrite bind_get, Hr. done. Qed.

Lemma late_steps_agree d i o s hdr pending es es' :
  receiving (inner s) = false → in_step hdr pending s →
  (∀ s', (∀ hdr' pending', in_step hdr' pending' s') → same_result (run es s') (runs_as es' (inner s'))) →
  same_result (run (Dgram d i o :: es) s) (runs_as es' (inner s)).
Proof.
  intros Hr Hin IH. destruct (late_dgram d i o s hdr pending Hr Hin) as (s' & Hrun & Hs & Hin').
  rewrite run_cons, Hrun, <- Hs. by apply IH.
Qed.

(** A header while the client receives. *)
Lemma header_run d i o s :
  receiving (inner s) = true → recv_at s = AtHeader →
  let hdr := recv_into (recv_hdr s) d in
  if ntohl (hdr_seq hdr) =? 0 then
    match step header recv_window send_ok (Net (hdr_seq hdr) (hdr_ts hdr) EmptyString i o) (inner s) with
    | Done _ c => dgram_step header recv_window send_ok (Dgram d i o) s = Done tt (mk_dclient c hdr AtHeader) ∧
                  receiving c = true
    | Exited k c => dgram_step header recv_window send_ok (Dgram d i o) s = Exited k (mk_dclient c hdr AtHeader)
    | Undefined u => dgram_step header recv_window send_ok (Dgram d i o) s = Undefined u
    end
  else dgram_step header recv_window send_ok (Dgram d i o) s = Done tt (mk_dclient (inner s) hdr AtData).
Proof.
  intros Hr Hat hdr. unfold dgram_step. rewrite bind_get, Hat. unfold on_header. rewrite bind_get. fold hdr. cbn zeta.
  rewrite bind_modify. destruct (ntohl (hdr_seq hdr) =? 0) eqn:Hz; [|done].
  unfold step. rewrite bind_get, Hr, Hz. cbn [when].
  pose proof (stays_probe true i o (inner s) Hr) as Hk. unfold wpx in Hk.
  pose proof (on_client_cases (on_probe header recv_window send_ok i o) (put_recv_hdr hdr s)) as Hc.
  cbn [inner put_recv_hdr recv_hdr recv_at] in Hc. rewrite Hat in Hc.
  by destruct (on_probe header recv_window send_ok i o (inner s)) as [[] c|k c|u].
Qed.

(** Data while the client receives. *)
Lemma body_run d i o s :
  receiving (inner s) = true → recv_at s = AtData → (ntohl (hdr_seq (recv_hdr s)) =? 0) = false → (length d ≤ 4096)%nat →
  match step header recv_window send_ok (Net (hdr_seq (recv_hdr s)) (hdr_ts (recv_hdr s)) (text_of d) i o) (inner s) with
  | Done _ c => dgram_step header recv_window send_ok (Dgram d i o) s =
                Done tt (mk_dclient c (recv_hdr s) (if receiving c then AtHeader else AtEnd))
  | Exited k c => dgram_step header recv_window send_ok (Dgram d i o) s = Exited k (mk_dclient c (recv_hdr s) AtData)
  | Undefined u => dgram_step header recv_window send_ok (Dgram d i o) s = Undefined u
  end.
Proof.
  intros Hr Hat Hz Hd. unfold step. rewrite bind_get, Hr, Hz. cbn [when].
  unfold dgram_step. rewrite bind_get, Hat. unfold on_body. rewrite bind_get.
  assert (Hlt : (Nat.min (length d) RECV_DATA <? RECV_DATA)%nat = true) by (apply Nat.ltb_lt; unfold RECV_DATA; lia).
  cbn zeta. rewrite Hlt. set (m := on_data _ _ _ _ _ _ _ _). pose proof (on_client_cases m s) as Hc. rewrite Hat in Hc.
  unfold mbind, M_bind. by destruct (m (inner s)) as [[] c|k c|u]; rewrite Hc.
Qed.

Lemma dgram_steps_refine es : ∀ hdr pending s,
  Forall fits es → in_step hdr pending s → (pending = true → (ntohl (hdr_seq hdr) =? 0) = false) →
  same_result (run es s) (runs_as (events_of hdr pending es) (inner s)).
Proof.
  induction es as [|e es IH]; intros hdr pending s Hfit Hin Hp; [by destruct s|].
  apply Forall_cons in Hfit as [Hf Hfit]. destruct e as [d i o| | |]; [|done| |].
  2-3: cbn [events_of]; apply (print_steps_agree _ _ es _ hdr pending); auto.
  destruct (receiving (inner s)) eqn:Hr.
  2:{ cbn [events_of]. destruct pending; [|cbn zeta; destruct (ntohl (hdr_seq (recv_into hdr d)) =? 0) eqn:Hz];
        rewrite ?steps_cons, ?late_net by done; apply (late_steps_agree d i o s hdr _ _ _ Hr Hin);
        intros s' Hin'; by apply IH. }
  unfold in_step in Hin. rewrite Hr in Hin. destruct Hin as [<- Hat]. cbn [events_of]. destruct pending.
  - pose proof (body_run d i o s Hr Hat (Hp eq_refl) Hf) as Hb. rewrite run_cons, steps_cons.
    destruct (step _ _ _ _ (inner s)) as [[] c|k c|u]; rewrite Hb; [|done..].
    apply (IH (recv_hdr s) false (mk_dclient c (recv_hdr s) (if receiving c then AtHeader else AtEnd))); [done| |done].
    unfold in_step. cbn. destruct (receiving c); auto.
  - pose proof (header_run d i o s Hr Hat) as Hb. cbn zeta in Hb |- *. set (hdr := recv_into (recv_hdr s) d) in *.
    destruct (ntohl (hdr_seq hdr) =? 0) eqn:Hz.
    + rewrite run_cons, steps_cons. destruct (step _ _ _ _ (inner s)) as [[] c|k c|u]; [|by rewrite Hb..].
      destruct Hb as [-> Hc]. apply (IH hdr false (mk_dclient c hdr AtHeader)); [done| |done].
      unfold in_step. cbn. by rewrite Hc.
    + rewrite run_cons, Hb. apply (IH hdr true (mk_dclient (inner s) hdr AtData)); [done| |done].
      unfold in_step. cbn. by rewrite Hr.
Qed.
End refinement.

(** * What the server sends *)

(** struct hdr in memory, from fields in network order. *)
Definition enc_hdr (seq ts window : Z) : list Z := le_split 4 seq ++ le_split 4 ts ++ le_split 4 window.

Lemma recv_whole hdr d : length d = sizeof_hdr → length hdr = sizeof_hdr → recv_into hdr d = d.
Proof.
  intros Hd Hh. unfold recv_into. rewrite take_ge by lia. rewrite drop_ge by lia. apply app_nil_r.
Qed.

Lemma length_hdr_bytes seq ts w : length (enc_hdr seq ts w) = sizeof_hdr.
Proof. unfold enc_hdr. by rewrite !length_app, !length_le_split. Qed.

Lemma recv_enc_hdr hdr seq ts w : length hdr = sizeof_hdr → recv_into hdr (enc_hdr seq ts w) = enc_hdr seq ts w.
Proof. apply recv_whole, length_hdr_bytes. Qed.

Lemma hdr_seq_enc seq ts w : 0 ≤ seq < 2 ^ 32 → hdr_seq (enc_hdr seq ts w) = seq.
Proof.
  intros Hs. unfold hdr_seq, enc_hdr. rewrite take_app_length' by (by rewrite length_le_split).
  rewrite le_combine_split. apply Z.mod_small. lia.
Qed.

Lemma hdr_ts_enc seq ts w : 0 ≤ ts < 2 ^ 32 → hdr_ts (enc_hdr seq ts w) = ts.
Proof.
  intros Hs. unfold hdr_ts, enc_hdr. rewrite drop_app_length' by (by rewrite length_le_split).
  rewrite take_app_length' by (by rewrite length_le_split). rewrite le_combine_split. apply Z.mod_small. lia.
Qed.

(** The text of a header whose number is below 2^24: the first byte is 0. *)
Lemma header_text j ts w : 0 ≤ j < 2 ^ 24 → c_str (text_of (enc_hdr (htonl j) ts w)) = EmptyString.
Proof.
  intros Hj. unfold enc_hdr, htonl. rewrite u32_small by lia.
  assert (Hb : bswap 4 j = le_combine (rev (le_split 4 j))).
  { rewrite <- bswap_combine by apply le_split_bytes. rewrite length_le_split, le_combine_split. f_equal.
    symmetry. apply Z.mod_small. lia. }
  assert (Hl : length (rev (le_split 4 j)) = 4%nat) by by rewrite length_rev, length_le_split.
  rewrite Hb, <- Hl at 1. rewrite le_split_combine by apply List.Forall_rev, le_split_bytes.
  change (rev (le_split 4 j)) with [j / 256 / 256 / 256 mod 256; j / 256 / 256 mod 256; j / 256 mod 256; j mod 256].
  assert (H0 : j / 256 / 256 / 256 = 0) by (rewrite !Z.div_div by lia; apply Z.div_small; lia).
  rewrite H0. reflexivity.
Qed.

(** Text that is read as a header has a number. *)
Lemma text_as_header hdr d :
  (4 ≤ length d)%nat → Forall is_byte d → hd 0 d ≠ 0 → (ntohl (hdr_seq (recv_into hdr d)) =? 0) = false.
Proof.
  intros Hd Hb Hd0. destruct d as [|b0 [|b1 [|b2 [|b3 d]]]]; try (simpl in Hd; lia). simpl in Hd0.
  set (bs := [b0; b1; b2; b3]).
  assert (Hseq : hdr_seq (recv_into hdr (b0 :: b1 :: b2 :: b3 :: d)) = le_combine bs) by done.
  assert (Hbs : Forall is_byte bs) by (by apply (Forall_take is_byte 4) in Hb).
  pose proof (le_combine_range bs Hbs) as Hr. change (256 ^ Z.of_nat (length bs)) with (2 ^ 32) in Hr.
  rewrite Hseq. apply Z.eqb_neq. intros Hz. pose proof (ntohl_htonl (le_combine bs)) as Hi.
  change (htonl (le_combine bs)) with (ntohl (le_combine bs)) in Hi. rewrite Hz, u32_small in Hi by done.
  change (ntohl 0) with 0 in Hi. unfold bs in Hi. cbn [le_combine] in Hi.
  repeat (apply Forall_cons in Hb as [? Hb]). unfold is_byte in *. lia.
Qed.

(** * Blocks that read as NULL *)

Section stale.
Context `{A : Allocator} (header : ptr) (recv_window : Z) (send_ok : list ack_hdr → ack_hdr → bool).

(** What a block contained before does not matter but for [stale_at]. *)
Lemma dgram_step_zeroed e s :
  stale_at e s = false →
  @dgram_step A header recv_window send_ok e s = @dgram_step (zeroed A) header recv_window send_ok e s.
Proof.
  intros He. destruct e as [d i o| | |]; [|done..]. unfold dgram_step, stale_at in *. rewrite !bind_get.
  destruct (recv_at s); [done| |done..]. unfold on_body. rewrite !bind_get. cbn zeta.
  destruct (_ <? _)%nat; [|done]. apply bind_eq. unfold on_client. by rewrite (on_data_zeroed header recv_window).
Qed.

Lemma dgram_steps_zeroed es s :
  @dgram_steps A header recv_window send_ok es s = @dgram_steps (zeroed A) header recv_window send_ok es s ∨
  ∃ es1 e es2 s1, es = es1 ++ e :: es2 ∧ @dgram_steps A header recv_window send_ok es1 s = Done tt s1 ∧
                  stale_at e s1 = true.
Proof.
  revert s. induction es as [|e es IH]; intros s; [by left|].
  destruct (stale_at e s) eqn:He; [by right; exists [], e, es, s|].
  pose proof (dgram_step_zeroed e s He) as Hs. rewrite (@run_cons A), (@run_cons (zeroed A)), <- Hs.
  destruct (@dgram_step A header recv_window send_ok e s) as [[] s'|c s'|u] eqn:Hr; [|by left..].
  destruct (IH s') as [?|(es1 & e' & es2 & s1 & -> & Hrun & Hst)]; [by left|right].
  exists (e :: es1), e', es2, s1. split; [done|]. split; [|done]. by rewrite (@run_cons A), Hr.
Qed.
End stale.

(** On an allocator that returns zeros it never happens. *)
Lemma never_stale `{ZeroedAllocator} e s : stale_at e s = false.
Proof.
  destruct e as [d i o| | |]; [|done..]. unfold stale_at. destruct (recv_at s); [done| |done..].
  unfold stale_block. rewrite malloc_zeroed. by rewrite andb_false_r.
Qed.

Definition printing (e : dgram_event) : Prop := e = Wakes ∨ e = Checks.

(** A stream in which a header and its data are lost, delayed, repeated or delivered
    together: requests for the window size, headers with their data, and steps of the
    printing thread anywhere.  The numbers, texts and time stamps are those of a file
    with the lines [line], as in [honest]. *)
Inductive paired (line : Z → string) (last bound : Z) : list dgram_event → Prop :=
  | paired_nil : paired line last bound []
  | paired_print e es : printing e → paired line last bound es → paired line last bound (e :: es)
  | paired_probe h i o es :
      length h = sizeof_hdr → ntohl (hdr_seq h) = 0 → paired line last bound es →
      paired line last bound (Dgram h i o :: es)
  | paired_data h d i' o' i o ps es :
      length h = sizeof_hdr → (length d ≤ 4096)%nat → 1 ≤ ntohl (hdr_seq h) ≤ bound →
      c_str (text_of d) = line (ntohl (hdr_seq h)) → (ntohl (hdr_ts h) = 0 → last ≤ ntohl (hdr_seq h)) →
      Forall printing ps → paired line last bound es →
      paired line last bound (Dgram h i' o' :: ps ++ Dgram d i o :: es).

Lemma events_of_printing hdr pending ps es :
  Forall printing ps →
  ∃ pes, events_of hdr pending (ps ++ es) = pes ++ events_of hdr pending es ∧
         Forall (λ e, e = PrintWakes ∨ e = PrintChecks) pes.
Proof.
  induction 1 as [|e ps He _ (pes & IH & Hall)]; [by exists []|]. cbn [app].
  destruct He as [-> | ->]; cbn [events_of]; rewrite IH;
    [exists (PrintWakes :: pes)|exists (PrintChecks :: pes)]; (split; [done|]); constructor; auto.
Qed.

Lemma paired_honest line last bound es :
  paired line last bound es →
  Forall fits es ∧ ∀ hdr, length hdr = sizeof_hdr → Forall (honest line last bound) (events_of hdr false es).
Proof.
  induction 1 as [|e es He _ [Hf IH]|h i o es Hl Hz _ [Hf IH]|h d i' o' i o ps es Hl Hd Hseq Hline Hts Hps _ [Hf IH]].
  - split; [constructor|]. intros. constructor.
  - split; [constructor; [by destruct He as [-> | ->]|done]|]. intros hdr Hh.
    destruct He as [-> | ->]; cbn [events_of]; (constructor; [done|by apply IH]).
  - split; [constructor; [simpl; unfold sizeof_hdr in Hl; lia|done]|]. intros hdr Hh. cbn [events_of].
    rewrite recv_whole, Hz by done. constructor; [by left|]. by apply IH.
  - split.
    { constructor; [simpl; unfold sizeof_hdr in Hl; lia|]. apply Forall_app. split; [|by constructor].
      eapply Forall_impl; [exact Hps|]. by intros e [-> | ->]. }
    intros hdr Hh. cbn [events_of]. rewrite recv_whole by done. destruct (Z.eqb_spec (ntohl (hdr_seq h)) 0); [lia|].
    destruct (events_of_printing h true ps (Dgram d i o :: es) Hps) as (pes & -> & Hpes). apply Forall_app. split.
    + eapply Forall_impl; [exact Hpes|]. by intros e [-> | ->].
    + cbn [events_of]. constructor; [by right|]. by apply IH.
Qed.

Section theorems.
Context `{A : Allocator} (header : ptr) (recv_window : Z) (send_ok : list ack_hdr → ack_hdr → bool).
Notation run := (dgram_steps header recv_window send_ok).

(** C12: The client on datagrams is the client on events ([FileClient.steps]): for every
    stream of datagrams of at most 4096 bytes in which no [recv] fails, it ends in the same
    result (undefined behaviour and exits included) and the same state as it does on the
    events the stream is read as, whatever [malloc] returns.  A header that asks for the
    window size is an event, any other header only together with the next datagram,
    whatever that is; a datagram that is shorter than a header changes only a part of the
    one before.  (A datagram of 4097 bytes or more writes behind the buffer:
    [full_datagram_overflows].) *)
Theorem datagrams_refine_events (es : list dgram_event) (c : client) (hdr : list Z)
    (Hfits : Forall fits es) (Hrecv : receiving c = true) :
  match run es (mk_dclient c hdr AtHeader) with
  | Done _ s => steps header recv_window send_ok (events_of hdr false es) c = Done tt (inner s)
  | Exited k s => steps header recv_window send_ok (events_of hdr false es) c = Exited k (inner s)
  | Undefined u => steps header recv_window send_ok (events_of hdr false es) c = Undefined u
  end.
Proof.
  apply (dgram_steps_refine header recv_window send_ok es hdr false (mk_dclient c hdr AtHeader)); [done| |done].
  unfold in_step. cbn. by rewrite Hrecv.
Qed.

Context (line : Z → string) (last bound : Z).
Context (Hlast : 1 ≤ last) (Hbound : 0 ≤ bound < INT_MAX).
Context (Hline : ∀ k, 1 ≤ k ≤ bound → (String.length (line k) < RECVLINE)%nat).

End theorems.

Section lost.
Context `{ZeroedAllocator} (header : ptr) (recv_window : Z) (send_ok : list ack_hdr → ack_hdr → bool).
Notation run := (dgram_steps header recv_window send_ok).
Context (line : Z → string) (last bound : Z).
Context (Hlast : 1 ≤ last) (Hbound : 0 ≤ bound < INT_MAX).
Context (Hline : ∀ k, 1 ≤ k ≤ bound → (String.length (line k) < RECVLINE)%nat).

(** So with datagrams that get through in pairs the client prints a prefix of the file. *)
Theorem paired_datagrams_print_prefix (h : heap) (hdr : list Z) (es : list dgram_event) :
  list_at h header [] → length hdr = sizeof_hdr → paired line last bound es →
  wp (λ _ _, True) (run es) (λ _ s, stdout (inner s) = text line (Z.to_nat (printed (inner s))))
    (mk_dclient (started h) hdr AtHeader).
Proof.
  intros Hl Hh Hes. destruct (paired_honest _ _ _ _ Hes) as [Hfit Hhon].
  pose proof (dgram_steps_refine header recv_window send_ok es hdr false (mk_dclient (started h) hdr AtHeader) Hfit
    (conj eq_refl eq_refl) ltac:(done)) as Hr. cbn [inner] in Hr.
  pose proof (steps_good header recv_window send_ok line last bound Hlast Hbound Hline _ _ (Hhon hdr Hh)
    (started_good header line last bound Hbound h Hl)) as Hg. unfold wpx in *.
  destruct (run es _) as [[] s|k s|u]; [|done|].
  - rewrite Hr in Hg. destruct Hg as [l C]. by destruct C.
  - by rewrite Hr in Hg.
Qed.

(** The file with the line [k] made empty. *)
Definition without (k x : Z) : string := if x =? k then EmptyString else line x.

Lemma text_without k n : Z.of_nat n < k → text (without k) n = text line n.
Proof.
  induction n as [|n IH]; intros Hn; [done|]. cbn [text]. rewrite IH by lia. unfold without at 1.
  by destruct (Z.eqb_spec (Z.of_nat (S n)) k); [lia|].
Qed.

Lemma consistent_without k l c :
  consistent header line last bound l c → k ∉ l.*1 → printed c < k → consistent header (without k) last bound l c.
Proof.
  intros C Hk Hp. pose proof (c_printed _ _ _ _ _ _ C). destruct C as [C1 C2 C3 C4 C5 C6 C10 C7 C8 C9]. split; try done.
  - rewrite Forall_forall in *. intros e He. rewrite C5 by done. unfold without.
    destruct (Z.eqb_spec e.1 k) as [<-|]; [|done]. destruct Hk. by apply list_elem_of_fmap_2.
  - rewrite C6, text_without; [done|lia].
Qed.

Lemma without_short k x : 1 ≤ x ≤ bound → (String.length (without k x) < RECVLINE)%nat.
Proof. intros Hx. unfold without. destruct (x =? k); [unfold RECVLINE; simpl; lia|auto]. Qed.

(** Two headers: the second is taken as the data of the first. *)
Lemma two_headers_run c hdr k ts w j ts' w' i' o' o :
  receiving c = true → length hdr = sizeof_hdr → 1 ≤ k < 2 ^ 32 → 0 ≤ ts < 2 ^ 32 →
  run [Dgram (enc_hdr (htonl k) ts w) i' o'; Dgram (enc_hdr (htonl j) ts' w') true o] (mk_dclient c hdr AtHeader) =
  match on_data header recv_window send_ok (htonl k) ts (text_of (enc_hdr (htonl j) ts' w')) true o c with
  | Done _ c' => Done tt (mk_dclient c' (enc_hdr (htonl k) ts w) (if receiving c' then AtHeader else AtEnd))
  | Exited e c' => Exited e (mk_dclient c' (enc_hdr (htonl k) ts w) AtData)
  | Undefined u => Undefined u
  end.
Proof.
  intros Hr Hh Hk Hts. set (h1 := enc_hdr (htonl k) ts w). set (h2 := enc_hdr (htonl j) ts' w').
  assert (Hseq : hdr_seq h1 = htonl k) by (apply hdr_seq_enc; pose proof (htonl_range k); lia).
  assert (Hkz : (ntohl (hdr_seq h1) =? 0) = false).
  { rewrite Hseq, ntohl_htonl, u32_small by lia. apply Z.eqb_neq. lia. }
  pose proof (header_run header recv_window send_ok h1 i' o' (mk_dclient c hdr AtHeader) Hr eq_refl) as Hrun.
  cbn zeta in Hrun. cbn [recv_hdr inner] in Hrun. 
  assert (Hrec : recv_into hdr h1 = h1) by by apply recv_enc_hdr. rewrite Hrec, Hkz in Hrun. rewrite run_cons, Hrun, run_cons.
  pose proof (body_run header recv_window send_ok h2 true o (mk_dclient c h1 AtData) Hr eq_refl Hkz) as Hb.
  cbn [inner recv_hdr] in Hb. specialize (Hb ltac:(unfold h2; rewrite length_hdr_bytes; unfold sizeof_hdr; lia)).
  cbn [inner]. unfold step in Hb. rewrite bind_get, Hr, Hkz, Hseq in Hb. cbn [when] in Hb.
  assert (Ht : hdr_ts h1 = ts) by by apply hdr_ts_enc. rewrite Ht in Hb.
  destruct (on_data _ _ _ _ _ _ _ _ c) as [[] c'|e c'|u]; by rewrite Hb.
Qed.

(** What a lost data datagram does.  The next header is taken as the data of the line
    that was lost: the line counts as received (it is printed or buffered, and will be
    acknowledged), but it is empty, and the client goes on as if the file had been one
    with an empty line there.  From then on it takes data for headers: a line of text
    makes it wait for data, so the next header is the data of that. *)
Theorem lost_data_empties_line (l : list Pure.entry) (c : client) (hdr : list Z) (k ts w j ts' w' : Z) (i' o' o : bool)
    (Hc : consistent header line last bound l c) (Hrecv : receiving c = true) (Hhdr : length hdr = sizeof_hdr)
    (Hnew : k ∉ l.*1) (Hk : printed c < k ≤ bound) (Hts : 0 ≤ ts < 2 ^ 32) (Hts0 : ntohl ts = 0 → last ≤ k)
    (Hj : 0 ≤ j < 2 ^ 24) :
  wp (λ _ _, True)
    (run [Dgram (enc_hdr (htonl k) ts w) i' o'; Dgram (enc_hdr (htonl j) ts' w') true o])
    (λ _ s, (∃ l', consistent header (without k) last bound l' (inner s) ∧ has l' (printed (inner s)) k) ∧
            ∀ d i'' o'', receiving (inner s) = true → (4 ≤ length d)%nat → Forall is_byte d → hd 0 d ≠ 0 →
              ∃ s', run [Dgram d i'' o''] s = Done tt s' ∧ inner s' = inner s ∧ recv_at s' = AtData)
    (mk_dclient c hdr AtHeader).
Proof.
  pose proof (c_printed _ _ _ _ _ _ Hc) as Hp. unfold INT_MAX in *.
  pose proof (on_data_keeps header recv_window send_ok (without k) last bound Hbound (without_short k)
    l c (htonl k) ts (text_of (enc_hdr (htonl j) ts' w')) o (consistent_without k l c Hc Hnew ltac:(lia))) as Hd.
  rewrite ntohl_htonl, u32_small in Hd by lia. specialize (Hd ltac:(lia)).
  unfold wpx in *. rewrite two_headers_run by (done || lia). rewrite header_text in Hd by done.
  unfold without in Hd at 1. rewrite Z.eqb_refl in Hd. specialize (Hd eq_refl Hts0).
  destruct (on_data _ _ _ _ _ _ _ _ c) as [[] c'|e c'|u]; [|done..]. split; [exact Hd|].
  intros d i2 o2 Hr Hd4 Hbytes Hd0. cbn [inner] in Hr. rewrite Hr.
  eexists (mk_dclient c' _ AtData). split; [|by split].
  set (s := mk_dclient c' _ AtHeader). pose proof (header_run header recv_window send_ok d i2 o2 s Hr eq_refl) as Hb.
  cbn zeta in Hb. assert (Hnz : (ntohl (hdr_seq (recv_into (recv_hdr s) d)) =? 0) = false).
  { by apply text_as_header. }
  rewrite Hnz in Hb. rewrite run_cons, Hb. done.
Qed.
End lost.

(** * Two faults of the receive loop *)

(** The buffer is [MAXLINE+1] bytes and [recv] may fill it; the terminator of a datagram
    that does is written behind it. *)
Theorem full_datagram_overflows `{Allocator} header recv_window send_ok (c : client) (hdr d : list Z) (i o : bool) :
  (RECV_DATA ≤ length d)%nat →
  dgram_steps header recv_window send_ok [Dgram d i o] (mk_dclient c hdr AtData) = Undefined OutOfBounds.
Proof.
  intros Hd. rewrite run_cons. unfold dgram_step. rewrite bind_get. cbn [recv_at]. unfold on_body. rewrite bind_get.
  cbn zeta. by rewrite Nat.min_r, Nat.ltb_irrefl by done.
Qed.

Section race.
Context `{Allocator} (header : ptr).

(** A list of one node. *)
Lemma one_node h s d :
  list_at h header [(s, d)] →
  ∃ a b n0, header = Ptr a ∧ a ≠ b ∧ h !! a = Some n0 ∧ next n0 = Ptr b ∧ h !! b = Some (mk_node s d Null).
Proof.
  intros (a & n0 & xs & -> & Ha & Hc & Hnd & Hxs). destruct xs as [|[b [s' d']] [|]]; try done.
  injection Hxs as -> ->. cbn [chain] in Hc. destruct Hc as [Hn (nx & Hb & ->)]. exists a, b, n0. split_and!; try done.
  apply NoDup_cons in Hnd as [Hnot _]. set_solver.
Qed.

Lemma on_list_deref a n (c : client) : list_heap c !! a = Some n → on_list (deref (Ptr a)) c = Done n c.
Proof. intros Ha. apply on_list_look. by apply deref_run. Qed.

(** The printing thread prints the only line and frees its node. *)
Lemma print_one_frees fuel (c : client) a b n0 d :
  header = Ptr a → a ≠ b → list_heap c !! a = Some n0 → next n0 = Ptr b →
  list_heap c !! b = Some (mk_node (printed c + 1) d Null) → 0 ≤ printed c < INT_MAX →
  ∃ c', print_lines header (S (S fuel)) c = Done tt c' ∧ stdout c' = stdout c +:+ d ∧ list_heap c' !! b = None.
Proof.
  intros -> Hab Ha Hn Hb Hp. unfold INT_MAX in Hp. remember (S fuel) as f1 eqn:Hf1. cbn [print_lines]. rewrite bind_get.
  rewrite (bind_Done _ _ _ _ _ (on_list_deref a n0 c Ha)), Hn. cbn [is_null].
  rewrite (bind_Done _ _ _ _ _ (on_list_deref b _ c Hb)). unfold int_op at 1, is_int, INT_MIN, INT_MAX.
  destruct (Z.leb_spec (- 2 ^ 31) (printed c + 1)), (Z.leb_spec (printed c + 1) (2 ^ 31 - 1)); try lia.
  cbn [andb]. rewrite bind_ret, u32_small by lia. cbn [nseq recvline next]. rewrite Z.eqb_refl, bind_modify.
  set (c1 := put_stdout _ c).
  assert (Hset : on_list (set_next (Ptr a) Null) c1 = Done tt (put_heap (<[a := mk_node (nseq n0) (recvline n0) Null]> (list_heap c)) c1)).
  { apply on_list_run. by apply set_next_run. }
  rewrite (bind_Done _ _ _ _ _ Hset). set (h1 := <[a := _]> (list_heap c)) in *.
  assert (Hfree : on_list (free (Ptr b)) (put_heap h1 c1) = Done tt (put_heap (delete b h1) c1)).
  { rewrite (on_list_run _ _ tt (delete b h1)); [done|]. apply (free_run _ _ (mk_node (printed c + 1) d Null)).
    cbn. unfold h1. by rewrite lookup_insert_ne. }
  rewrite (bind_Done _ _ _ _ _ Hfree), bind_modify, Hf1. cbn [print_lines]. rewrite bind_get.
  set (c2 := put_printed _ _). assert (Ha2 : list_heap c2 !! a = Some (mk_node (nseq n0) (recvline n0) Null)).
  { cbn. rewrite lookup_delete_ne by done. unfold h1. apply lookup_insert_eq. }
  rewrite (bind_Done _ _ _ _ _ (on_list_deref a _ c2 Ha2)). cbn [next is_null].
  exists c2. split_and!; [done|done|]. cbn. apply lookup_delete_eq.
Qed.

(** The two threads share the list without a lock.  The main thread looks for the
    place of a new line and stops at the only node; the printing thread prints that node
    and frees it; the main thread goes on with the pointer it has, and reads freed
    memory. *)
Theorem unlocked_insert_uses_freed (c : client) (d line : string) (seq : Z)
    (Hl : list_at (list_heap c) header [(printed c + 1, d)]) (Hp : 0 ≤ printed c < INT_MAX) (Hseq : printed c + 1 < seq) :
  ∃ last c',
    on_list (insert_walk (S (size (list_heap c))) seq header) c = Done last c ∧
    print_lines header (S (size (list_heap c))) c = Done tt c' ∧ stdout c' = stdout c +:+ d ∧
    on_list (insert_after seq line last) c' = Undefined BadPointer.
Proof.
  pose proof (list_at_size _ _ _ Hl) as Hsize. cbn [length] in Hsize.
  destruct (one_node _ _ _ Hl) as (a & b & n0 & Hh & Hab & Ha & Hn & Hb).
  destruct (size (list_heap c)) as [|sz]; [lia|].
  destruct (print_one_frees sz c a b n0 d Hh Hab Ha Hn Hb Hp) as (c' & Hrun & Hout & Hfreed).
  exists (Ptr b), c'. split_and!; [|done|done|].
  - apply on_list_look. rewrite Hh. cbn [insert_walk]. run_step (deref_run _ _ _ Ha). rewrite Hn. cbn [is_null].
    run_step (deref_run _ _ _ Hb). cbn [nseq]. destruct (Z.ltb_spec (printed c + 1) seq); [|lia].
    run_step (deref_run _ _ _ Hb). done.
  - assert (Hbad : deref (Ptr b) (list_heap c') = Undefined BadPointer).
    { unfold deref. by rewrite bind_get, Hfreed. }
    unfold on_list, insert_after. by rewrite (bind_Undefined _ _ _ _ Hbad).
Qed.
End race.

(** * Runs *)

(** A datagram of the server: a number and a time stamp; and a line. *)
Definition hdr_dgram (seq ts : Z) : dgram_event := Dgram (enc_hdr (htonl seq) (htonl ts) 0) true true.
Definition line_dgram (s : string) : dgram_event := Dgram (enc_str 16 s) true true.
Definition fresh_dclient : dclient := mk_dclient (started empty_list) (replicate 12 0) AtHeader.
Definition dgram_runs (es : list dgram_event) : res dclient unit :=
  @dgram_steps zero_alloc (Ptr 0) (htons 10) (λ _ _, true) es fresh_dclient.

(** A request for the window size, a line, the end, and the last integer. *)
Definition whole_stream : list dgram_event :=
  [hdr_dgram 0 0; hdr_dgram 1 7; Wakes; line_dgram "ab"; Checks; hdr_dgram 2 0; line_dgram EmptyString; Wakes;
   Dgram [0; 0; 0; 0] true true; Checks].

Lemma datagrams_refine_events_witness :
  ∃ s, dgram_runs whole_stream = Done tt s ∧ runs (events_of (replicate 12 0) false whole_stream) = Done tt (inner s) ∧
       stdout (inner s) = "ab"%string ∧ map (λ a, ntohl (a_seq a)) (acks (inner s)) = [1; 2; 0] ∧ recv_at s = Closing.
Proof.
  pose proof (@datagrams_refine_events zero_alloc (Ptr 0) (htons 10) (λ _ _, true) whole_stream (started empty_list)
    (replicate 12 0) ltac:(repeat constructor; apply (bool_decide_unpack _); vm_compute; exact I) eq_refl) as Hw.
  fold fresh_dclient in Hw. fold (dgram_runs whole_stream) in Hw.
  destruct (dgram_runs whole_stream) as [[] s|c s|u] eqn:Hr; [|vm_compute in Hr; discriminate Hr..].
  exists s. split; [reflexivity|]. split; [exact Hw|]. vm_compute in Hr. injection Hr as <-. vm_compute. repeat split; reflexivity.
Defined.

Lemma whole_stream_honest : Forall (honest two_lines 2 2) (events_of (replicate 12 0) false whole_stream).
Proof.
  assert (He : events_of (replicate 12 0) false whole_stream =
    [Net 0 0 EmptyString true true; PrintWakes; Net (htonl 1) (htonl 7) (text_of (enc_str 16 "ab")) true true; PrintChecks;
     Net (htonl 2) (htonl 0) (text_of (enc_str 16 EmptyString)) true true; PrintWakes; Net 0 0 EmptyString true true;
     PrintChecks]) by (vm_compute; reflexivity).
  rewrite He. repeat apply Forall_cons_2; [..|apply Forall_nil_2]; try exact I; [by left| | |by left].
  all: right; rewrite !ntohl_htonl; split; [vm_compute; split; discriminate|split; [vm_compute; reflexivity|vm_compute; done]].
Qed.


(** The line "ab" is lost on its way; the client acknowledges it all the same. *)
Lemma lost_data_empties_line_witness :
  wp (λ _ _, True) (@dgram_steps zero_alloc (Ptr 0) (htons 10) (λ _ _, true) [hdr_dgram 1 7; hdr_dgram 2 0])
    (λ _ s, (∃ l', consistent (Ptr 0) (without two_lines 1) 2 2 l' (inner s) ∧ has l' (printed (inner s)) 1) ∧
            map (λ a, ntohl (a_seq a)) (acks (inner s)) = [2])
    fresh_dclient.
Proof.
  assert (C : consistent (Ptr 0) two_lines 2 2 [] (started empty_list)).
  { apply started_consistent; [vm_compute; split; [discriminate|reflexivity]|exact empty_list_at]. }
  pose proof (@lost_data_empties_line zero_alloc zero_alloc_zeroed (Ptr 0) (htons 10) (λ _ _, true) two_lines 2 2
    ltac:(lia) ltac:(vm_compute; split; [discriminate|reflexivity]) two_lines_short [] (started empty_list) (replicate 12 0)
    1 (htonl 7) 0 2 (htonl 0) 0 true true true C eq_refl eq_refl ltac:(set_solver) ltac:(vm_compute; split; [reflexivity|discriminate])
    ltac:(vm_compute; split; [discriminate|reflexivity]) ltac:(vm_compute; discriminate)
    ltac:(vm_compute; split; [discriminate|reflexivity])) as Hw.
  unfold wpx in *. change [Dgram _ _ _; Dgram _ _ _] with [hdr_dgram 1 7; hdr_dgram 2 0] in Hw.
  fold fresh_dclient in Hw. destruct (dgram_steps _ _ _ _ fresh_dclient) as [[] s|e s|u] eqn:Hr; [|vm_compute in Hr; discriminate Hr..].
  destruct Hw as [Hw _]. split; [exact Hw|]. vm_compute in Hr. injection Hr as <-. vm_compute. reflexivity.
Defined.

Lemma unlocked_insert_uses_freed_witness :
  ∃ c c', list_at (list_heap c) (Ptr 0) [(1, "ab"%string)] ∧
    print_lines (Ptr 0) 3 c = Done tt c' ∧ stdout c' = "ab"%string ∧
    on_list (@insert_after zero_alloc 2 "cd" (Ptr 1)) c' = Undefined BadPointer.
Proof.
  set (c := mk_client (nodes_from 0 [(0, EmptyString); (1, "ab"%string)]) 0 0 0 EmptyString [] true Sleeping).
  assert (Hl : list_at (list_heap c) (Ptr 0) [(1, "ab"%string)]).
  { exists 0%nat, (mk_node 0 EmptyString (Ptr 1)), [(1%nat, (1, "ab"%string))].
    split_and!; [reflexivity|reflexivity|split; [reflexivity|exists Null; split; reflexivity]
      |apply (bool_decide_unpack _); vm_compute; exact I|reflexivity]. }
  destruct (@unlocked_insert_uses_freed zero_alloc (Ptr 0) c "ab" "cd" 2 Hl ltac:(vm_compute; split; [discriminate|reflexivity])
    ltac:(vm_compute; reflexivity)) as (last & c' & Hwalk & Hprint & Hout & Hbad).
  exists c, c'. split; [exact Hl|]. split; [exact Hprint|]. split; [exact Hout|].
  vm_compute in Hwalk. injection Hwalk as <-. exact Hbad.
Defined.
