(* ===== verification/FileTransfer.v ===== *)
(** The transfer of a file in Assignment 2: the sender of server.c and the two threads
    of client.c over a network that loses, repeats and reorders messages.

    A step is a step of FileServer or of FileClient.  The server is handed
    acknowledgements the client sent at some time, the client headers and data the
    server sent at some time, one behind the other, and list nodes read as NULL where the
    code does not set [next].  That is how far the programs are right; the lemmas here are
    what FileWire builds on, where every datagram travels on its own, memory contains
    anything, and the theorems name the ways to leave this file's runs.  A run has fewer
    than 2^31 - 1 datagrams. *)

From S2P Require Export FileClient FileServer.

(** * The file in pieces *)

(** The text of datagram [k]. *)
Definition chunk (file : string) (k : Z) : string :=
  String.substring 0 packet_capacity (str_drop (packet_capacity * Z.to_nat (k - 1)) file).

(** The number of the datagram that ends the file. *)
Definition last_chunk (file : string) : Z :=
  Z.of_nat (String.length file / packet_capacity) + 1.

Lemma str_drop_0 s : str_drop 0 s = s.
Proof. by destruct s. Qed.

Lemma substring_drop n s : String.substring 0 n s +:+ str_drop n s = s.
Proof. revert n. induction s as [|c s IH]; intros [|n]; try done. exact (f_equal (String c) (IH n)). Qed.

Lemma str_drop_drop a b s : str_drop a (str_drop b s) = str_drop (b + a) s.
Proof.
  revert s. induction b as [|b IH]; intros s; [by rewrite str_drop_0|].
  destruct s as [|c s]; cbn [str_drop Nat.add]; [by destruct a|apply IH].
Qed.

Lemma length_str_drop n s : String.length (str_drop n s) = (String.length s - n)%nat.
Proof. revert n. induction s as [|c s IH]; intros [|n]; try done. apply IH. Qed.

Lemma length_substring n s : String.length (String.substring 0 n s) = Nat.min n (String.length s).
Proof. revert n. induction s as [|c s IH]; intros [|n]; try done. simpl. by rewrite IH. Qed.

Lemma no_nul_str_app s t : no_nul (s +:+ t) = true → no_nul s = true ∧ no_nul t = true.
Proof. rewrite no_nul_app. apply andb_true_iff. Qed.

Lemma chunk_short file k : (String.length (chunk file k) < RECVLINE)%nat.
Proof.
  unfold chunk. rewrite length_substring. eapply Nat.le_lt_trans; [apply Nat.le_min_l|].
  apply (bool_decide_unpack _). vm_compute. exact I.
Qed.

Lemma chunk_no_nul file k : no_nul file = true → no_nul (chunk file k) = true.
Proof.
  intros H. rewrite <- (substring_drop (packet_capacity * Z.to_nat (k - 1)) file) in H.
  apply no_nul_str_app in H as [_ H].
  unfold chunk. rewrite <- (substring_drop packet_capacity (str_drop _ _)) in H.
  by apply no_nul_str_app in H as [H _].
Qed.

(** The first [n] pieces are the beginning of the file. *)
Lemma text_chunks file n : text (chunk file) n +:+ str_drop (packet_capacity * n) file = file.
Proof.
  induction n as [|n IH]; [by rewrite Nat.mul_0_r, str_drop_0|]. cbn [text].
  rewrite str_app_assoc. unfold chunk. replace (Z.to_nat (Z.of_nat (S n) - 1)) with n by lia.
  replace (packet_capacity * S n)%nat with (packet_capacity * n + packet_capacity)%nat by lia.
  rewrite <- str_drop_drop, substring_drop. exact IH.
Qed.

(** All of it, from the last piece on. *)
Lemma text_all file n : last_chunk file ≤ Z.of_nat n → text (chunk file) n = file.
Proof.
  intros Hn. rewrite <- (text_chunks file n) at 2.
  assert (Hz : str_drop (packet_capacity * n) file = EmptyString).
  { assert (Hl : String.length (str_drop (packet_capacity * n) file) = 0%nat).
    { rewrite length_str_drop. unfold last_chunk in Hn.
      pose proof (Nat.div_mod (String.length file) packet_capacity ltac:(done)).
      pose proof (Nat.mod_upper_bound (String.length file) packet_capacity ltac:(done)). nia. }
    by destruct (str_drop _ _). }
  by rewrite Hz, str_app_nil_r.
Qed.

Lemma c_str_overlay s n : no_nul s = true → c_str (overlay s (zero_bytes n)) = String.substring 0 n s.
Proof.
  revert n. induction s as [|c s IH]; intros n Hs.
  - by destruct n.
  - simpl in Hs. apply andb_true_iff in Hs as [Hc Hs]. destruct n as [|n]; [done|].
    apply negb_true_iff in Hc. simpl. by rewrite Hc, IH.
Qed.

(** What a receiver reads of a datagram with piece [k]. *)
Lemma c_str_chunk file k :
  no_nul file = true → c_str (overlay (chunk file k) (zero_bytes MAXLINE)) = chunk file k.
Proof.
  intros H. rewrite c_str_overlay by by apply chunk_no_nul.
  pose proof (substring_drop MAXLINE (chunk file k)) as Hs.
  assert (Hd : str_drop MAXLINE (chunk file k) = EmptyString).
  { assert (Hl : String.length (str_drop MAXLINE (chunk file k)) = 0%nat); [|by destruct (str_drop _ _)].
    rewrite length_str_drop. unfold chunk. rewrite length_substring.
    pose proof (Nat.le_min_l packet_capacity (String.length (str_drop (packet_capacity * Z.to_nat (k - 1)) file))).
    assert (packet_capacity ≤ MAXLINE)%nat by (apply (bool_decide_unpack _); vm_compute; exact I). lia. }
  by rewrite Hd, str_app_nil_r in Hs.
Qed.

(** The line a receiver makes of datagram [k]: the bytes up to the first NUL of the array,
    which holds a piece of the file and, behind it, what the array held before: [junk] in
    the first datagram (localcopy is not initialised), then zeros. *)
Definition piece (file junk : string) (k : Z) : string :=
  c_str (overlay (chunk file k) (if k =? 1 then junk else zero_bytes MAXLINE)).

Lemma length_overlay_buf m b : String.length (overlay m b) = String.length b.
Proof. revert b. induction m as [|c m IH]; intros [|c' b]; simpl; try done. by rewrite IH. Qed.

Lemma length_c_str s : (String.length (c_str s) ≤ String.length s)%nat.
Proof. induction s as [|c s IH]; simpl; [done|]. destruct (Ascii.eqb c _); simpl; lia. Qed.

Lemma piece_short file junk k : String.length junk = MAXLINE → (String.length (piece file junk k) < RECVLINE)%nat.
Proof.
  intros Hj. unfold piece. eapply Nat.le_lt_trans; [apply length_c_str|]. rewrite length_overlay_buf.
  assert (String.length (if k =? 1 then junk else zero_bytes MAXLINE) = MAXLINE) as ->;
    [|apply (bool_decide_unpack _); vm_compute; exact I].
  destruct (k =? 1); [done|]. vm_compute. reflexivity.
Qed.

(** The array starts with zeros and the file is a text: the line is the piece. *)
Lemma piece_chunk file k : no_nul file = true → piece file (zero_bytes MAXLINE) k = chunk file k.
Proof. intros H. unfold piece. destruct (k =? 1); by apply c_str_chunk. Qed.

Lemma text_ext f g n : (∀ k, f k = g k) → text f n = text g n.
Proof. intros H. induction n as [|n IH]; [done|]. cbn [text]. by rewrite IH, H. Qed.

Lemma text_grows f n m : (n ≤ m)%nat → ∃ rest, text f m = text f n +:+ rest.
Proof.
  induction 1 as [|m Hle [rest IH]]; [exists EmptyString; by rewrite str_app_nil_r|].
  cbn [text]. rewrite IH, str_app_assoc. by eexists.
Qed.

(** * What the sender keeps *)

Section sender_proofs.
(** [lo]: a number of datagrams that has been reached. *)
Context (file junk : string) (last Q epoch lo : Z).
Context (clock : nat → Z * Z) (send_ok : list datagram → datagram → bool).
Context (Hjunk : String.length junk = MAXLINE) (HQ : 0 < Q ≤ QSIZE_BOUND) (Hlast : 1 ≤ last ≤ last_chunk file).
(** Either nothing is claimed of the end of the file, or no time stamp is 0 by accident. *)
Context (Hclock : last = 1 ∨ ∀ n r, rtt_base r = epoch → rtt_ts (clock n).1 (clock n).2 r ≠ 0).

Abbreviation wpt := (wpx (λ _, True) (λ _ _, True)).

(** [x] is datagram [m] of the file. *)
Definition carries (m : Z) (x : data) : Prop :=
  seq x = m ∧ c_str (sendline x) = piece file junk m ∧ (u32 (ts x) = 0 → last ≤ m).

Definition slot (m : Z) : nat := Z.to_nat ((m - 1) mod Q).

(** The block of the queue after [n] datagrams, of which those below [head] are
    acknowledged: the latest [Q] of them are in their slots, and of the slots never
    written, only the one at the front can have been counted up. *)
Definition queue_ok (q : CirQueue) (head n : Z) : Prop :=
  ∃ b, base q = Some b ∧ Z.of_nat (length b) = Q ∧ MAX_QSIZE q = Q ∧
    front q = (head - 1) mod Q ∧ rear q = n mod Q ∧
    (∀ m, n - Q < m ≤ n → 1 ≤ m → ∃ x, b !! slot m = Some x ∧ carries m x) ∧
    (∀ i x, n ≤ Z.of_nat i → Z.of_nat i ≠ head - 1 → b !! i = Some x → ack x = 0).

(** The messages of a header and the data behind it. *)
Fixpoint pairs (out : list datagram) : list (Z * Z * string) :=
  match out with
  | [] => []
  | d :: out' =>
      match d, out' with
      | Hdr q t, Data b :: _ => (q, t, b) :: pairs out'
      | _, _ => pairs out'
      end
  end.

(** What the client may rely on: a message with a number up to [n] has its text. *)
Definition truthful (n : Z) (p : Z * Z * string) : Prop :=
  let '(q, t, b) := p in
  1 ≤ ntohl q ≤ n ∧ c_str b = piece file junk (ntohl q) ∧ (ntohl t = 0 → last ≤ ntohl q).

Record core_of (q : CirQueue) (rest : string) (eof : bool) (copy : data) (n head cwnd rwin ep : Z)
    (out : list datagram) : Prop := {
  co_lo : lo ≤ n;
  co_queue : queue_ok q head n;
  co_rest : rest = str_drop (packet_capacity * Z.to_nat n) file;
  co_eof : eof = true → last_chunk file ≤ n;
  co_copy : sendline copy = if n =? 0 then junk else zero_bytes MAXLINE;
  co_head : 1 ≤ head ≤ n + 1;
  co_cwnd : 1 ≤ cwnd;
  co_rwin : 0 ≤ rwin;
  co_epoch : ep = epoch;
  co_out : Forall (truthful n) (pairs out)
}.

Definition core (s : sender) : Prop :=
  core_of (s_queue s) (s_rest s) (s_eof s) (s_copy s) (s_seqno s) (s_head s) (s_cwnd s)
    (s_recv_window s) (rtt_base (s_rtt s)) (s_out s).

(** The datagram at the front of the queue has been written. *)
Definition written (s : sender) : Prop := s_head s ≤ s_seqno s ∨ Q ≤ s_seqno s.

(** ** Messages *)

Lemma pairs_app out d l :
  (∀ b, d ≠ Data b) → pairs (out ++ d :: l) = pairs out ++ pairs (d :: l).
Proof.
  intros Hd. induction out as [|e out IH]; [done|]. cbn [app].
  change (pairs (e :: out ++ d :: l)) with
    (match e, out ++ d :: l with Hdr q t, Data b :: _ => (q, t, b) :: pairs (out ++ d :: l)
     | _, _ => pairs (out ++ d :: l) end).
  rewrite IH. destruct out as [|e' out]; [|by destruct e, e'].
  cbn [app]. destruct e; [done| |done..]. destruct d as [|? ?|b|]; [done..|by destruct (Hd b)|done].
Qed.

Lemma truthful_mono n n' p : n ≤ n' → truthful n p → truthful n' p.
Proof. destruct p as [[q t] b]. intros Hn (H1 & H2). split; [lia|done]. Qed.

Lemma out_frames n out m x :
  Forall (truthful n) (pairs out) → 1 ≤ m ≤ n → n < 2 ^ 32 → carries m x →
  Forall (truthful n) (pairs (out ++ frames x)).
Proof.
  intros Hout Hm Hn (Hs & Hc & Ht). unfold frames. rewrite pairs_app by done.
  apply Forall_app. split; [done|]. cbn. constructor; [|done].
  unfold truthful. rewrite !ntohl_htonl, Hs, (u32_small m) by lia. done.
Qed.

Lemma out_other n out d :
  Forall (truthful n) (pairs out) → (∀ b, d ≠ Data b) → Forall (truthful n) (pairs (out ++ [d])).
Proof.
  intros Hout Hd. rewrite pairs_app by done. apply Forall_app. split; [done|].
  destruct d as [|? ?|b|]; [done..|by destruct (Hd b)|done].
Qed.

Lemma send_core d s :
  core s → (∀ b, d ≠ Data b) → wpt (send send_ok d) (λ _ s', ∃ o, s' = put_out o s ∧ core s') s.
Proof.
  intros C Hd. unfold send. autorewrite with cwp. destruct (send_ok (s_out s) d); [|done].
  autorewrite with cwp. eexists. split; [done|]. destruct C. split; try done. by apply out_other.
Qed.

Lemma send_data_core m x s :
  core s → 1 ≤ m ≤ s_seqno s → s_seqno s < 2 ^ 32 → carries m x →
  wpt (send_data send_ok x) (λ _ s', ∃ o, s' = put_out o s ∧ core s') s.
Proof.
  intros C Hm Hn Hx. unfold send_data, send. autorewrite with cwp.
  destruct (send_ok (s_out s) _); [|done]. autorewrite with cwp.
  destruct (send_ok _ _); [|done]. autorewrite with cwp.
  eexists. split; [reflexivity|]. destruct C. split; try done. cbn.
  rewrite <- app_assoc. by apply (out_frames _ _ m).
Qed.

(** ** The queue *)

Lemma queue_ok_wf q head n : queue_ok q head n → queue_wf q.
Proof.
  intros (b & Hb & Hl & Hm & Hf & Hr & _). exists b. rewrite Hm, Hf, Hr.
  split; [done|]. split; [done|]. split; [|split; [|lia]]; apply Z.mod_pos_bound; lia.
Qed.

Lemma queue_ok_len q head n : queue_ok q head n → q_len q = (n - head + 1) mod Q.
Proof.
  intros (b & _ & _ & Hm & Hf & Hr & _). unfold q_len. rewrite Hm, Hf, Hr, <- Zminus_mod. f_equal. lia.
Qed.

(** A slot that has been written holds a datagram of the file. *)
Lemma slot_written q head n b i :
  queue_ok q head n → base q = Some b → 0 ≤ i < Q → i < n ∨ Q ≤ n →
  ∃ m x, b !! Z.to_nat i = Some x ∧ 1 ≤ m ≤ n ∧ carries m x.
Proof.
  intros (b' & Hb & Hl & _ & _ & _ & Hslots & _) Hb' Hi Hw. rewrite Hb' in Hb. injection Hb as <-.
  set (m := n - (n - 1 - i) mod Q). pose proof (Z.mod_pos_bound (n - 1 - i) Q ltac:(lia)) as Hmod.
  assert (1 ≤ m).
  { destruct Hw; [|lia]. pose proof (Z.mod_le (n - 1 - i) Q ltac:(lia) ltac:(lia)). lia. }
  destruct (Hslots m) as (x & Hx & Hc); [lia|done|]. exists m, x. split_and!; [|done|lia|done].
  rewrite <- Hx. unfold slot, m. do 2 f_equal.
  replace (n - (n - 1 - i) mod Q - 1) with (n - 1 - (n - 1 - i) mod Q) by lia.
  rewrite Zminus_mod_idemp_r. rewrite Z.mod_small; lia.
Qed.

Lemma resend_core j s :
  core s → s_seqno s < 2 ^ 32 →
  (front (s_queue s) + Z.of_nat j < Q → front (s_queue s) + Z.of_nat j < s_seqno s ∨ Q ≤ s_seqno s) →
  wpt (resend send_ok j) (λ _ s', ∃ o, s' = put_out o s ∧ core s') s.
Proof.
  intros C Hn Hj. pose proof (co_queue _ _ _ _ _ _ _ _ _ _ C) as Hq.
  pose proof Hq as (b & Hb & Hl & Hm & Hf & _). pose proof (Z.mod_pos_bound (s_head s - 1) Q ltac:(lia)).
  unfold resend. rewrite wpx_bind, wpx_get, wpx_bind. unfold wpx at 1, on_queue, on.
  unfold base_at. rewrite bind_get, Hb. change (of_opt NullDeref (Some b)) with (mret (M := M CirQueue) b).
  rewrite bind_ret. unfold rd, of_opt, arr_at. destruct (Z.ltb_spec (front (s_queue s) + Z.of_nat j) 0); [lia|].
  destruct (b !! Z.to_nat (front (s_queue s) + Z.of_nat j)) as [x|] eqn:Hx; [|done].
  pose proof (lookup_lt_Some _ _ _ Hx).
  destruct (slot_written _ _ _ b (front (s_queue s) + Z.of_nat j) Hq Hb) as (m & y & Hy & Hmn & Hc); [lia|apply Hj; lia|].
  rewrite Hy in Hx. injection Hx as ->. cbn. rewrite put_queue_id. by apply (send_data_core m).
Qed.

(** ** Sending again *)

Lemma len_index s j :
  core s → 0 ≤ j < q_len (s_queue s) → front (s_queue s) + j < Q →
  front (s_queue s) + j < s_seqno s ∨ Q ≤ s_seqno s.
Proof.
  intros C Hj Hlt. pose proof (co_queue _ _ _ _ _ _ _ _ _ _ C) as Hq. rewrite (queue_ok_len _ _ _ Hq) in Hj.
  destruct Hq as (b & _ & _ & _ & Hf & _). pose proof (co_head _ _ _ _ _ _ _ _ _ _ C) as Hh.
  destruct (decide (Q ≤ s_seqno s)) as [|Hn]; [by right|left]. rewrite Hf, Z.mod_small in * by lia. lia.
Qed.

Lemma IsEmpty_core {B} (k : Z → M sender B) P s :
  core s → wpt (k (if q_len (s_queue s) =? 0 then 1 else 0)) P s → wpt (e ← on_queue IsEmptyCirQueue; k e) P s.
Proof.
  intros C Hk. eapply wpx_run; [apply on_queue_run, IsEmpty_run|by rewrite put_queue_id].
  eapply queue_ok_wf, (co_queue _ _ _ _ _ _ _ _ _ _ C).
Qed.

Lemma Length_core {B} (k : Z → M sender B) P s :
  core s → wpt (k (q_len (s_queue s))) P s → wpt (e ← on_queue CirQueueLength; k e) P s.
Proof.
  intros C Hk. eapply wpx_run; [apply on_queue_run, CirQueueLength_run|by rewrite put_queue_id].
  eapply queue_ok_wf, (co_queue _ _ _ _ _ _ _ _ _ _ C).
Qed.

Lemma resend_window_core w s :
  core s → s_seqno s < 2 ^ 32 →
  wpt (resend_window send_ok w) (λ _ s', ∃ o, s' = put_out o s ∧ core s') s.
Proof.
  intros C Hn. unfold resend_window. apply IsEmpty_core; [done|]. rewrite wpx_when. split; intros _.
  2:{ exists (s_out s). split; [by destruct s|done]. }
  apply Length_core; [done|].
  apply (wpx_for _ _ (λ _ s', ∃ o, s' = put_out o s ∧ core s')); [exists (s_out s); by destruct s| |done].
  intros j s' Hj (o & -> & C'). eapply wpx_mono; [|apply resend_core; [exact C'|done|]].
  - intros _ s' (o' & -> & ?). by exists o'.
  - intros Hlt. apply len_index; [done| |done]. cbn [put_out s_queue]. destruct (Z.leb_spec w (q_len (s_queue s))); lia.
Qed.

(** ** New datagrams *)

Lemma queue_ok_push q b head n x :
  queue_ok q head n → base q = Some b → 0 ≤ n → 1 ≤ head ≤ n + 1 → carries (n + 1) x →
  queue_ok (mk_queue (Some (<[Z.to_nat (rear q) := x]> b)) (front q) ((rear q + 1) mod MAX_QSIZE q) (MAX_QSIZE q))
    head (n + 1).
Proof.
  intros (b' & Hb' & Hl & Hm & Hf & Hr & Hslots & Hfresh) Hb Hn Hh Hx. rewrite Hb in Hb'. injection Hb' as <-.
  pose proof (Z.mod_pos_bound n Q ltac:(lia)) as Hnq. eexists. split; [reflexivity|]. rewrite length_insert. cbn.
  split_and!; [done|done|done|by rewrite Hm, Hr, Zplus_mod_idemp_l| |].
  - intros m Hmn H1. destruct (decide (m = n + 1)) as [->|Hne].
    + exists x. split; [|done]. unfold slot. replace (n + 1 - 1) with n by lia. rewrite Hr.
      apply list_lookup_insert_eq. lia.
    + destruct (Hslots m) as (y & Hy & Hc); [lia|done|]. exists y. split; [|done].
      rewrite list_lookup_insert_ne; [done|]. unfold slot. rewrite Hr. intros Heq.
      apply Z2Nat.inj in Heq; [|lia|apply Z.mod_pos_bound; lia].
      pose proof (Z.mod_small (n - (m - 1)) Q ltac:(lia)) as Hs. rewrite Zminus_mod, Heq, Z.sub_diag, Z.mod_0_l in Hs; lia.
  - intros i y Hi Hih Hy. pose proof (lookup_lt_Some _ _ _ Hy) as Hlt. rewrite length_insert in Hlt.
    rewrite list_lookup_insert_ne in Hy by (rewrite Hr, Z.mod_small; lia). apply (Hfresh i y); [lia|lia|done].
Qed.

(** The datagram that [send_one] builds. *)
Lemma stamp_core s eof (k : Z → M sender unit) P :
  rtt_base (s_rtt s) = epoch →
  (∀ t n, (u32 t = 0 → eof = true ∨ last = 1) → wpt (k t) P (put_ticks n s)) →
  wpt (t ← if (eof : bool) then mret 0 else time_stamp clock; k t) P s.
Proof.
  intros He Hk. rewrite wpx_bind. destruct eof.
  - rewrite wpx_ret. replace s with (put_ticks (s_ticks s) s) at 1 by by destruct s. apply Hk. by left.
  - unfold time_stamp. autorewrite with cwp. apply Hk. unfold rtt_ts. rewrite u32_idem. intros Hz.
    destruct Hclock as [|Hc]; [by right|]. exfalso. by apply (Hc (s_ticks s) (s_rtt s)).
Qed.

Lemma read_last m :
  1 ≤ m → (String.length (str_drop (packet_capacity * Z.to_nat (m - 1)) file) < packet_capacity)%nat →
  last_chunk file ≤ m.
Proof.
  rewrite length_str_drop. unfold last_chunk. intros Hm Hlt.
  pose proof (Nat.div_mod (String.length file) packet_capacity ltac:(done)).
  pose proof (Nat.mod_upper_bound (String.length file) packet_capacity ltac:(done)).
  assert (String.length file / packet_capacity < S (Z.to_nat (m - 1)))%nat; [|lia].
  assert (0 < packet_capacity)%nat by (unfold packet_capacity; lia).
  apply Nat.div_lt_upper_bound; nia.
Qed.

(** The new datagram is put into the queue and sent, and the copy cleared. *)
Lemma store_core s n :
  queue_ok (s_queue s) (s_head s) n → carries (n + 1) (s_copy s) →
  0 ≤ n → n + 1 < 2 ^ 32 → s_seqno s = n + 1 → 1 ≤ s_head s ≤ n + 1 →
  (∀ q x, queue_ok q (s_head s) (n + 1) → sendline x = zero_bytes MAXLINE →
     core (put_copy x (put_queue q s))) →
  wpt (on_queue (EnCirQueue (s_copy s));;
       send_data send_ok (s_copy s);;
       modify (put_copy (mk_data (CirQueue.seq (s_copy s)) (ts (s_copy s)) (zero_bytes MAXLINE) (ack (s_copy s)))))
    (λ _ s', core s' ∧ s_seqno s' = n + 1 ∧ s_head s' = s_head s) s.
Proof.
  intros Cq Hx Hn Hlim Hseq Hh Hcore. pose proof Cq as (b & Hb & _).
  eapply wpx_run; [apply on_queue_run, (EnCirQueue_run _ _ _ (queue_ok_wf _ _ _ Cq) Hb)|].
  pose proof (queue_ok_push _ _ _ _ _ Cq Hb Hn Hh Hx) as Cq'.
  set (q' := mk_queue _ _ _ _) in *. clearbody q'.
  unfold send_data, send. autorewrite with cwp. destruct (send_ok _ _); [|done]. autorewrite with cwp.
  destruct (send_ok _ _); [|done]. autorewrite with cwp. split; [|done].
  specialize (Hcore q' (mk_data (CirQueue.seq (s_copy s)) (ts (s_copy s)) (zero_bytes MAXLINE) (ack (s_copy s))) Cq'
    eq_refl).
  destruct Hcore. split; try done. cbn in *. rewrite Hseq in *.
  rewrite <- app_assoc. apply (out_frames _ _ (n + 1)); (done || lia).
Qed.

Lemma send_one_core s :
  core s → s_seqno s + 1 < 2 ^ 32 →
  wpt (send_one clock send_ok) (λ _ s', core s' ∧ s_seqno s' = s_seqno s + 1 ∧ s_head s' = s_head s) s.
Proof.
  intros C Hlim. destruct C as [Clo Cq Crest Ceof Cline Chead Ccwnd Crwin Cep Cout].
  pose proof Cq as (b & Hb & _).
  assert (Hu : u32 (s_seqno s + 1) = s_seqno s + 1) by (rewrite u32_small; lia).
  unfold send_one, read_file. rewrite wpx_bind, wpx_get. cbv zeta. rewrite Hu.
  rewrite wpx_bind, wpx_modify, wpx_bind, wpx_modify, !wpx_bind, wpx_get. cbv zeta.
  rewrite wpx_bind, wpx_modify, wpx_bind, wpx_modify, wpx_modify.
  set (s1 := put_eof _ _). rewrite wpx_bind, wpx_get.
  set (line := overlay (chunk file (s_seqno s + 1)) (if s_seqno s =? 0 then junk else zero_bytes MAXLINE)).
  assert (Hcopy : s_copy s1 = mk_data (s_seqno s + 1) (ts (s_copy s)) line (ack (s_copy s))).
  { unfold s1, line, chunk. cbn [s_copy s_rest put_eof put_rest put_copy put_seqno CirQueue.seq ts sendline ack].
    rewrite Cline, Crest. do 3 f_equal. f_equal. f_equal. lia. }
  assert (Heof : s_eof s1 = true → last_chunk file ≤ s_seqno s + 1).
  { unfold s1. cbn [s_eof s_rest put_eof put_rest put_copy put_seqno].
    intros [He|He%Nat.ltb_lt]%orb_true_iff; [specialize (Ceof He); lia|].
    apply read_last; [lia|]. rewrite Crest in He. by replace (s_seqno s + 1 - 1) with (s_seqno s) by lia. }
  assert (Hrest : s_rest s1 = str_drop (packet_capacity * Z.to_nat (s_seqno s + 1)) file).
  { unfold s1. cbn [s_rest put_eof put_rest put_copy put_seqno]. rewrite Crest, str_drop_drop. f_equal.
    rewrite Z2Nat.inj_add, Nat.mul_add_distr_l by lia. change (Z.to_nat 1) with 1%nat. lia. }
  apply (stamp_core s1); [exact Cep|]. intros t k Ht. rewrite wpx_bind, wpx_modify, wpx_bind, wpx_get.
  set (s2 := put_copy _ (put_ticks k s1)).
  assert (Hcopy2 : s_copy s2 = mk_data (s_seqno s + 1) t line (ack (s_copy s))).
  { unfold s2. cbn [s_copy put_copy put_ticks]. by rewrite Hcopy. }
  apply (store_core s2 (s_seqno s)); rewrite ?Hcopy2; try (done || lia).
  - split_and!; [done| |intros [He|He]%Ht; [specialize (Heof He); lia|lia]]. unfold line, piece. cbn [sendline].
    by replace (s_seqno s + 1 =? 1) with (s_seqno s =? 0) by (destruct (Z.eqb_spec (s_seqno s) 0), (Z.eqb_spec (s_seqno s + 1) 1); (done || lia)).
  - intros q x Hq Hx. split; try done; [cbn; lia| |cbn; lia|].
    { change (sendline x = if s_seqno s + 1 =? 0 then junk else zero_bytes MAXLINE). destruct (Z.eqb_spec (s_seqno s + 1) 0); [lia|done]. } eapply Forall_impl; [exact Cout|].
    intros p. apply truthful_mono. cbn. lia.
Qed.

(** After new datagrams the front of the queue has been written. *)
Lemma send_new_core n s :
  core s → s_seqno s + Z.of_nat n < 2 ^ 32 →
  wpt (send_new clock send_ok n) (λ _ s', core s' ∧ ((0 < n)%nat ∨ written s → written s')) s.
Proof.
  revert s. induction n as [|n IH]; intros s C Hn; cbn [send_new].
  { rewrite wpx_ret. split; [done|]. by intros [?|?]; [lia|]. }
  eapply wpx_seq; [apply send_one_core; [done|lia]|]. cbv beta. intros [] s1 (C1 & Hs1 & Hh1).
  assert (Hw : written s1) by (left; pose proof (co_head _ _ _ _ _ _ _ _ _ _ C); lia).
  rewrite wpx_bind, wpx_get. destruct (s_eof s1); [by rewrite wpx_ret|].
  eapply wpx_mono; [|apply IH; [done|lia]]. intros [] s2 [C2 Hw2]. split; [done|auto].
Qed.

(** ** The timer *)

Lemma on_rtt_core {A} (m : M rtt_info A) s :
  preserves (λ r, rtt_base r = epoch) m → core s →
  wpt (on_rtt m) (λ _ s', ∃ r, s' = put_rtt r s ∧ core s') s.
Proof.
  intros Hm C. specialize (Hm (s_rtt s) (co_epoch _ _ _ _ _ _ _ _ _ _ C)). unfold wpx, on_rtt, on in *.
  destruct (m (s_rtt s)) as [a r|c r|u]; [|done..]. exists r. split; [done|]. by destruct C.
Qed.

#[local] Hint Extern 1 (preserves _ (modify _)) => (apply preserves_modify; done) : preserves.

Lemma epoch_rtt_newpack : preserves (λ r, rtt_base r = epoch) rtt_newpack.
Proof. unfold rtt_newpack. auto with preserves. Qed.

Lemma epoch_rtt_stop ms : preserves (λ r, rtt_base r = epoch) (rtt_stop ms).
Proof. unfold rtt_stop, RTT_RTOCALC. cbv zeta. auto 30 with preserves. Qed.

Lemma epoch_rtt_timeout : preserves (λ r, rtt_base r = epoch) rtt_timeout.
Proof. unfold rtt_timeout. auto 30 with preserves. Qed.

(** ** Rounds *)

(** A state between two steps; [fin]: why the sender may have ended. *)
Definition sender_ok (fin : Prop) (s : sender) : Prop :=
  core s ∧ match s_phase s with Probing AtTop => True | Ended => fin | _ => written s end.

Lemma arm_core fin s : core s → written s → wpt arm (λ _, sender_ok fin) s.
Proof.
  intros C W. unfold arm. eapply wpx_run; [apply (on_rtt_run _ _ (rtt_rto (s_rtt s)) (s_rtt s)); reflexivity|].
  autorewrite with cwp. split; [exact C|exact W].
Qed.

Lemma probe_core fin k s : core s → (k = AtTop ∨ written s) → wpt (probe k) (λ _, sender_ok fin) s.
Proof.
  intros C Hk. unfold probe. autorewrite with cwp. split; [exact C|]. cbn. destruct k; [done|..]; by destruct Hk.
Qed.

Lemma three_min_pos a b c : 1 ≤ a → 1 ≤ b → 1 ≤ c → 1 ≤ three_min a b c.
Proof. intros. unfold three_min. destruct (a <? b); [destruct (a <? c)|destruct (b <? c)]; done. Qed.

Lemma int_op_wpt {B} x (k : Z → M sender B) P s :
  (INT_MIN ≤ x ≤ INT_MAX → wpt (k x) P s) → wpt (y ← int_op x; k y) P s.
Proof.
  intros Hk. rewrite wpx_bind. unfold int_op, is_int.
  destruct (Z.leb_spec INT_MIN x), (Z.leb_spec x INT_MAX); try done. apply Hk. lia.
Qed.

Lemma send_round_core fin s :
  core s → s_seqno s < INT_MAX → 0 < s_recv_window s →
  wpt (send_round clock Q send_ok) (λ _, sender_ok fin) s.
Proof.
  intros C Hn Hw. unfold INT_MAX in Hn. unfold send_round. rewrite wpx_bind, wpx_get. cbv zeta. rewrite wpx_bind, wpx_modify.
  pose proof (three_min_pos (s_cwnd s) Q (s_recv_window s) (co_cwnd _ _ _ _ _ _ _ _ _ _ C) ltac:(lia) ltac:(lia)) as Hmin.
  set (w := three_min _ _ _) in *. clearbody w.
  assert (C1 : core (put_window w s)) by exact C.
  eapply wpx_seq; [apply (on_rtt_core rtt_newpack _ epoch_rtt_newpack C1)|]. cbv beta. intros _ s2 (r & -> & C2).
  eapply wpx_seq; [apply resend_window_core; [done|cbn; lia]|]. cbv beta. intros _ s3 (o & -> & C3).
  set (s3 := put_out o _) in *. assert (Hs3 : s_seqno s3 = s_seqno s) by done.
  apply Length_core; [done|]. apply int_op_wpt. unfold INT_MAX. intros Hi.
  pose proof (co_queue _ _ _ _ _ _ _ _ _ _ C3) as Cq. pose proof (co_head _ _ _ _ _ _ _ _ _ _ C3) as Hh.
  pose proof (queue_ok_len _ _ _ Cq) as Hlen.
  eapply wpx_seq; [apply send_new_core; [done|lia]|]. cbv beta. intros [] s4 [C4 W]. apply arm_core; [done|].
  apply W. destruct (decide (written s3)) as [|Hnw]; [by right|left]. unfold written in Hnw.
  rewrite (Z.mod_small _ Q) in Hlen by lia. lia.
Qed.

Lemma top_core fin s :
  core s → s_seqno s < INT_MAX → wpt (top clock Q send_ok) (λ _, sender_ok fin) s.
Proof.
  intros C Hn. unfold top. rewrite wpx_bind, wpx_get. destruct (Z.eqb_spec (s_recv_window s) 0).
  - apply probe_core; auto.
  - apply send_round_core; [done..|]. pose proof (co_rwin _ _ _ _ _ _ _ _ _ _ C). lia.
Qed.

Lemma front_written s :
  core s → written s → front (s_queue s) + Z.of_nat 0 < Q →
  front (s_queue s) + Z.of_nat 0 < s_seqno s ∨ Q ≤ s_seqno s.
Proof.
  intros C [W|W] Hlt; [|by right]. destruct (decide (Q ≤ s_seqno s)) as [|Hn]; [by right|left].
  destruct (co_queue _ _ _ _ _ _ _ _ _ _ C) as (b & _ & _ & _ & Hf & _).
  pose proof (co_head _ _ _ _ _ _ _ _ _ _ C). rewrite Hf, Z.mod_small by lia. lia.
Qed.

Lemma half_pos x : 1 ≤ if Z.quot x 2 >? 1 then Z.quot x 2 else 1.
Proof. destruct (Z.gtb_spec (Z.quot x 2) 1); lia. Qed.

Lemma core_cwnd s c : core s → 1 ≤ c → core (put_cwnd c s).
Proof. intros [] Hc. by split. Qed.

Lemma timeout_resend_core fin s :
  core s → written s → s_seqno s < INT_MAX → wpt (timeout_resend send_ok) (λ _, sender_ok fin) s.
Proof.
  intros C W Hn. unfold INT_MAX in Hn. unfold timeout_resend. rewrite wpx_bind, wpx_get. cbv zeta.
  rewrite wpx_bind, wpx_modify, wpx_bind, wpx_modify, wpx_bind, wpx_modify. set (s1 := put_window 1 _).
  assert (C1 : core s1) by (apply (core_cwnd s 1 C); lia).
  eapply wpx_seq; [apply (resend_core 0 s1 C1); [cbn; lia|by apply front_written]|]. cbv beta.
  intros _ s2 (o & -> & C2). by apply arm_core.
Qed.

Lemma fast_retransmit_core fin s :
  core s → written s → s_seqno s < INT_MAX → wpt (fast_retransmit clock Q send_ok) (λ _, sender_ok fin) s.
Proof.
  intros C W Hn. unfold INT_MAX in Hn. unfold fast_retransmit. rewrite wpx_bind, wpx_get. cbv zeta.
  rewrite wpx_bind, wpx_modify, wpx_bind, wpx_modify. set (s1 := put_ssh _ _).
  assert (C1 : core s1) by apply (core_cwnd s _ C (half_pos _)).
  eapply wpx_seq; [apply (resend_core 0 s1 C1); [cbn; lia|by apply front_written]|]. cbv beta.
  intros _ s2 (o & -> & C2). rewrite wpx_bind, wpx_get. set (s2 := put_out o s1) in *.
  eapply (wpx_seq _ _ (λ _ s', core s' ∧ written s')).
  - rewrite wpx_when. split; intros _; [|done].
    set (x := three_min _ _ _ * 2). apply int_op_wpt. unfold INT_MAX. intros Hi. rewrite wpx_bind, wpx_modify.
    eapply wpx_mono; [|apply send_new_core; [exact C2|]].
    + intros _ s3 [C3 W3]. split; [done|]. apply W3. by right.
    + clearbody x. pose proof (Z.quot_le_upper_bound x 2 (2 ^ 30) ltac:(lia) ltac:(lia)).
      cbn -[Z.quot Z.sub Z.to_nat]. lia.
  - intros _ s3 [C3 W3]. by apply arm_core.
Qed.

Lemma resume_core fin k s :
  core s → (k = AtTop ∨ written s) → s_seqno s < INT_MAX → 0 < s_recv_window s →
  wpt (resume clock Q send_ok k) (λ _, sender_ok fin) s.
Proof.
  intros C Hk Hn Hw. destruct k; cbn [resume].
  - by apply send_round_core.
  - destruct Hk; [done|]. by apply timeout_resend_core.
  - destruct Hk; [done|]. by apply fast_retransmit_core.
Qed.

Lemma probe_or_resume_core fin k s :
  core s → written s → s_seqno s < INT_MAX → wpt (probe_or_resume clock Q send_ok k) (λ _, sender_ok fin) s.
Proof.
  intros C W Hn. unfold probe_or_resume. rewrite wpx_bind, wpx_get. destruct (Z.eqb_spec (s_recv_window s) 0).
  - apply probe_core; auto.
  - apply resume_core; auto. pose proof (co_rwin _ _ _ _ _ _ _ _ _ _ C). lia.
Qed.

Lemma count_timeout_core s :
  core s → wpt count_timeout (λ _ s', ∃ r, s' = put_rtt r s ∧ core s') s.
Proof.
  intros C. unfold count_timeout. eapply wpx_seq; [apply (on_rtt_core _ _ epoch_rtt_timeout C)|]. cbv beta.
  intros r s' (r' & -> & C'). destruct (r <? 0); [done|]. rewrite wpx_ret. by exists r'.
Qed.

(** ** Acknowledgements *)

(** No slot that was never written has been counted up. *)
Definition fresh (s : sender) : Prop :=
  ∀ b i x, base (s_queue s) = Some b → s_seqno s ≤ Z.of_nat i → b !! i = Some x → ack x = 0.

Lemma written_fresh s : core s → written s → fresh s.
Proof.
  intros C W b i x Hb Hi Hx. destruct (co_queue _ _ _ _ _ _ _ _ _ _ C) as (b' & Hb' & Hl & _ & _ & _ & _ & Hf).
  rewrite Hb in Hb'. injection Hb' as <-. apply (Hf i x); [done| |done].
  pose proof (lookup_lt_Some _ _ _ Hx). destruct W; lia.
Qed.

Lemma pop_core s :
  core s → fresh s → s_head s ≤ s_seqno s → s_seqno s < 2 ^ 32 - 1 →
  wpt (on_queue DeCirQueue;; modify (λ s, put_head (u32 (s_head s + 1)) s))
    (λ _ s', ∃ q, s' = put_head (s_head s + 1) (put_queue q s) ∧ core s' ∧ fresh s') s.
Proof.
  intros C F Hh Hn. pose proof (co_queue _ _ _ _ _ _ _ _ _ _ C) as Cq.
  eapply wpx_run; [apply on_queue_run, DeCirQueue_run; by eapply queue_ok_wf|]. rewrite wpx_modify.
  cbn [s_head put_queue]. pose proof (co_head _ _ _ _ _ _ _ _ _ _ C). rewrite u32_small by lia.
  eexists. split; [reflexivity|]. split; [|exact F]. destruct C. split; try done; [|cbn; lia].
  destruct Cq as (b & Hb & Hl & Hm & Hf & Hr & Hs & _). exists b. cbn. split_and!; try done.
  - rewrite Hf, Hm, Zplus_mod_idemp_l. f_equal. lia.
  - intros i x Hi _. by apply F.
Qed.

Lemma slide_core rseq s :
  core s → fresh s → rseq ≤ s_seqno s + 1 → s_seqno s < 2 ^ 32 - 1 →
  wpt (slide rseq) (λ _ s', core s' ∧ fresh s' ∧ s_seqno s' = s_seqno s ∧ s_phase s' = s_phase s) s.
Proof.
  intros C F Hr Hn. unfold slide. rewrite wpx_bind, wpx_get, wpx_when. split; [|done].
  rewrite Z.gtb_lt. intros Hlt. 
  apply (wpx_for _ _ (λ i s', (core s' ∧ fresh s' ∧ s_seqno s' = s_seqno s ∧ s_phase s' = s_phase s) ∧
    s_head s' = s_head s + Z.of_nat i)).
  - split; [done|lia].
  - intros i s' Hi ((C' & F' & Hs' & Hp') & Hh').
    eapply wpx_mono; [|apply pop_core; [done..|lia|lia]]. intros _ s2 (q & -> & C2 & F2).
    split; [done|]. cbn. lia.
  - intros s' [H _]. exact H.
Qed.

(** Changing the counter of the datagram at the front. *)
Lemma set_ack_core s b x a :
  core s → base (s_queue s) = Some b → b !! Z.to_nat (front (s_queue s)) = Some x →
  core (put_queue (set_base (Some (<[Z.to_nat (front (s_queue s)) := mk_data (CirQueue.seq x) (ts x) (sendline x) a]> b))
          (s_queue s)) s).
Proof.
  intros C Hb Hx. destruct (co_queue _ _ _ _ _ _ _ _ _ _ C) as (b' & Hb' & Hl & Hm & Hf & Hr & Hs & Hfr).
  rewrite Hb in Hb'. injection Hb' as <-. pose proof (co_head _ _ _ _ _ _ _ _ _ _ C) as Hh.
  pose proof (lookup_lt_Some _ _ _ Hx) as Hlt. pose proof (Z.mod_pos_bound (s_head s - 1) Q ltac:(lia)) as Hmod.
  destruct C. split; try done. eexists. split; [reflexivity|]. rewrite length_insert. cbn. split_and!; try done.
  - intros m Hm1 Hm2. destruct (Hs m Hm1 Hm2) as (y & Hy & Hc).
    destruct (decide (slot m = Z.to_nat (front (s_queue s)))) as [Heq|Hne].
    + rewrite Heq in *. rewrite Hx in Hy. injection Hy as <-. eexists. split; [by apply list_lookup_insert_eq|done].
    + exists y. by rewrite list_lookup_insert_ne.
  - intros i y Hi Hih Hy. pose proof (lookup_lt_Some _ _ _ Hy) as Hli. rewrite length_insert in Hli.
    rewrite list_lookup_insert_ne in Hy; [by apply (Hfr i y)|]. rewrite Hf, Z.mod_small by lia. lia.
Qed.

Lemma front_run {B} (k : data → M sender B) P s :
  core s →
  (∀ b x, base (s_queue s) = Some b → b !! Z.to_nat (front (s_queue s)) = Some x → wpt (k x) P s) →
  wpt (x ← on_queue (base_at (front (s_queue s))); k x) P s.
Proof.
  intros C Hk. destruct (co_queue _ _ _ _ _ _ _ _ _ _ C) as (b & Hb & Hl & Hm & Hf & _).
  pose proof (Z.mod_pos_bound (s_head s - 1) Q ltac:(lia)).
  destruct (lookup_lt_is_Some_2 b (Z.to_nat (front (s_queue s)))) as [x Hx]; [lia|].
  eapply wpx_run; [apply (on_queue_run _ _ x (s_queue s))|rewrite put_queue_id; by eapply Hk].
  unfold base_at. rewrite bind_get, Hb. change (of_opt NullDeref (Some b)) with (mret (M := M CirQueue) b).
  rewrite bind_ret. unfold rd, of_opt, arr_at. destruct (Z.ltb_spec (front (s_queue s)) 0); [lia|]. by rewrite Hx.
Qed.

Lemma set_front_run s b x y :
  base (s_queue s) = Some b → b !! Z.to_nat (front (s_queue s)) = Some x → 0 ≤ front (s_queue s) →
  on_queue (base_set (front (s_queue s)) y) s =
  Done tt (put_queue (set_base (Some (<[Z.to_nat (front (s_queue s)) := y]> b)) (s_queue s)) s).
Proof.
  clear Hjunk. intros Hb Hx Hf. pose proof (lookup_lt_Some _ _ _ Hx). apply on_queue_run. unfold base_set.
  rewrite bind_get, Hb. change (of_opt NullDeref (Some b)) with (mret (M := M CirQueue) b).
  rewrite bind_ret. unfold arr_set.
  destruct (Z.leb_spec 0 (front (s_queue s))), (Z.ltb_spec (front (s_queue s)) (Z.of_nat (length b))); try lia. done.
Qed.

Lemma front_range s : core s → 0 ≤ front (s_queue s) < Q.
Proof.
  intros C. destruct (co_queue _ _ _ _ _ _ _ _ _ _ C) as (b & _ & _ & _ & -> & _). apply Z.mod_pos_bound. lia.
Qed.

Lemma count_ack_core s :
  core s → fresh s →
  wpt count_ack (λ a s', ∃ q, s' = put_queue q s ∧ core s' ∧ (a = 3 → written s')) s.
Proof.
  intros C F. pose proof (front_range _ C) as Hf. unfold count_ack. rewrite wpx_bind, wpx_get. apply front_run; [done|].
  intros b x Hb Hx. apply int_op_wpt. intros _. eapply wpx_run; [apply (set_front_run _ b x); [done..|lia]|].
  rewrite wpx_ret. eexists. split; [reflexivity|]. split; [by apply set_ack_core|]. intros H3.
  destruct (decide (written s)) as [|Hn]; [done|]. unfold written in Hn.
  pose proof (co_head _ _ _ _ _ _ _ _ _ _ C). rewrite (F b (Z.to_nat (front (s_queue s))) x Hb) in H3; [lia| |done].
  destruct (co_queue _ _ _ _ _ _ _ _ _ _ C) as (_ & _ & _ & _ & -> & _). rewrite Z.mod_small; lia.
Qed.

Lemma clear_ack_core s : core s → wpt clear_ack (λ _ s', ∃ q, s' = put_queue q s ∧ core s') s.
Proof.
  intros C. pose proof (front_range _ C) as Hf. unfold clear_ack. rewrite wpx_bind, wpx_get. apply front_run; [done|].
  intros b x Hb Hx. unfold wpx. rewrite (set_front_run _ b x) by (done || lia).
  eexists. split; [reflexivity|by apply set_ack_core].
Qed.

Lemma grow_window_core s :
  core s → wpt grow_window (λ _ s', ∃ c a, s' = put_cac a (put_cwnd c s) ∧ core s') s.
Proof.
  intros C. pose proof (co_cwnd _ _ _ _ _ _ _ _ _ _ C) as Hc.
  assert (Hcore : ∀ c a, 1 ≤ c → core (put_cac a (put_cwnd c s))) by (intros c a H; apply (core_cwnd s c C H)).
  unfold grow_window. rewrite wpx_bind, wpx_get. destruct (s_cwnd s <? s_ssh s); apply int_op_wpt; intros _.
  - rewrite wpx_modify. exists (s_cwnd s + 1), (s_cac s). split; [by destruct s|]. exact (Hcore (s_cwnd s + 1) (s_cac s) ltac:(lia)).
  - rewrite wpx_bind, wpx_modify, wpx_when. split; intros _.
    + apply int_op_wpt. intros _. autorewrite with cwp. exists (s_cwnd s + 1), 0. split; [by destruct s|]. apply (Hcore (s_cwnd s + 1) 0). lia.
    + exists (s_cwnd s), (s_cac s + 1). split; [by destruct s|]. by apply (Hcore (s_cwnd s) (s_cac s + 1)).
Qed.

Lemma next_ack_core fin s :
  core s → s_seqno s < INT_MAX → s_phase s = Awaiting →
  wpt (next_ack clock Q send_ok) (λ _, sender_ok fin) s.
Proof.
  intros C Hn Hp. unfold next_ack. rewrite wpx_bind, wpx_get. apply IsEmpty_core; [done|].
  destruct (negb _ && _) eqn:Hstay.
  - rewrite wpx_ret. split; [done|]. rewrite Hp. apply andb_true_iff in Hstay as [_ He].
    destruct (Z.eqb_spec (q_len (s_queue s)) 0) as [|Hne]; [done|].
    rewrite (queue_ok_len _ _ _ (co_queue _ _ _ _ _ _ _ _ _ _ C)) in Hne.
    pose proof (co_head _ _ _ _ _ _ _ _ _ _ C). left.
    destruct (decide (s_head s = s_seqno s + 1)) as [Heq|]; [|lia]. exfalso. apply Hne. rewrite Heq.
    rewrite <- (Z.mod_0_l Q) by lia. f_equal. lia.
  - rewrite wpx_bind, wpx_modify. eapply wpx_seq; [by apply on_rtt_core; [apply epoch_rtt_stop|]|]. cbv beta.
    intros _ s2 (r & -> & C2). by apply top_core.
Qed.

Lemma on_ack_core (fin : Prop) q t w s :
  core s → written s → s_phase s = Awaiting → s_seqno s < INT_MAX → ntohl q ≤ s_seqno s + 1 → (ntohl q = 0 → fin) →
  wpt (on_ack clock Q send_ok q t w) (λ _, sender_ok fin) s.
Proof.
  intros C W Hp Hn Hq Hfin. unfold INT_MAX in Hn. unfold on_ack.
  eapply wpx_seq; [by apply grow_window_core|]. cbv beta. intros _ s1 (c & a & -> & C1). rewrite wpx_bind, wpx_get.
  apply int_op_wpt. intros _. rewrite wpx_bind, wpx_modify.
  set (s1 := put_cac a (put_cwnd c s)) in *.
  assert (W1 : written s1) by exact W. assert (F1 : fresh s1) by by apply written_fresh.
  eapply (wpx_seq _ _ (λ _ s', core s' ∧ fresh s' ∧ s_seqno s' = s_seqno s ∧ s_phase s' = Awaiting)).
  { rewrite wpx_when. split; intros _; [|done]. unfold time_stamp. autorewrite with cwp. done. }
  intros _ s2 (C2 & F2 & Hs2 & Hp2). destruct (Z.eqb_spec (ntohl q) 0) as [Hz|Hz].
  { unfold finish. eapply wpx_seq; [by apply send_core|]. cbv beta. intros _ s3 (o & -> & C3).
    rewrite wpx_modify. split; [exact C3|by apply Hfin]. }
  eapply wpx_seq; [apply slide_core; [done|done|lia|lia]|]. cbv beta. intros _ s3 (C3 & F3 & Hs3 & Hp3).
  rewrite wpx_bind, wpx_modify. set (s4 := put_recv_window (ntohs w) s3).
  assert (C4 : core s4) by (destruct C3; split; try done; apply ntohs_range).
  eapply wpx_seq; [by apply count_ack_core|]. cbv beta. intros n s5 (r & -> & C5 & W5).
  assert (Hn5 : s_seqno (put_queue r s4) < 2 ^ 31 - 1) by (cbn; lia).
  destruct (Z.eqb_spec n 3) as [->|].
  - specialize (W5 eq_refl). rewrite wpx_bind, wpx_modify. set (s6 := put_alarm 0 _).
    eapply wpx_seq; [by apply (clear_ack_core s6)|]. cbv beta. intros _ s7 (r' & -> & C7).
    eapply wpx_seq; [by apply count_timeout_core|]. cbv beta. intros _ s8 (p & -> & C8).
    by apply probe_or_resume_core.
  - apply next_ack_core; [done..|]. by rewrite <- Hp2, <- Hp3.
Qed.

(** What may be handed to the sender: acknowledgements that do not run ahead of it. *)
Definition admissible (fin : Prop) (n : Z) (i : input) : Prop :=
  match i with Ack q _ _ => ntohl q ≤ n + 1 ∧ (ntohl q = 0 → fin) | _ => True end.

(** Every step of the sender keeps its window, its queue and its messages right. *)
Lemma step_core (fin : Prop) i s :
  sender_ok fin s → admissible fin (s_seqno s) i → s_seqno s < INT_MAX →
  wpt (step clock Q send_ok i) (λ _, sender_ok fin) s.
Proof.
  intros [C P] Hi Hn. unfold step. rewrite wpx_bind, wpx_get.
  destruct (s_phase s) as [|k|] eqn:Hp; [| |by split; [|rewrite Hp]].
  - destruct i as [q t w| | |]; [by destruct Hi; apply on_ack_core| |done|by split; [|rewrite Hp]].
    destruct (s_blocked s); [by split; [|rewrite Hp]|]. unfold on_timeout.
    eapply wpx_seq; [by apply count_timeout_core|]. cbv beta. intros _ s1 (r & -> & C1). by apply probe_or_resume_core.
  - assert (Hk : k = AtTop ∨ written s) by (destruct k; auto). destruct i as [q t w| | |]; [| |done..].
    + rewrite wpx_bind, wpx_modify, wpx_bind, wpx_get. set (s1 := put_recv_window (ntohs w) s).
      assert (C1 : core s1) by (destruct C; split; try done; apply ntohs_range).
      destruct (Z.gtb_spec (s_recv_window s1) 0); [apply resume_core; (done || lia)|].
      rewrite wpx_modify. split; [exact C1|]. cbn. by rewrite Hp.
    + eapply wpx_seq; [by apply send_core|]. cbv beta. intros _ s1 (o & -> & C1). rewrite wpx_modify.
      split; [exact C1|]. cbn. by rewrite Hp.
Qed.

(** The sender before [begin_transfer], with the file open, [junk] in localcopy and nothing
    sent. *)
Record ready (s : sender) : Prop := {
  r_rest : s_rest s = file;
  r_eof : s_eof s = false;
  r_copy : sendline (s_copy s) = junk;
  r_rwin : 0 ≤ s_recv_window s;
  r_out : pairs (s_out s) = [];
  r_epoch : u32 (clock (s_ticks s)).1 = epoch
}.

Lemma epoch_rtt_init sec r :
  u32 sec = epoch → wpx (λ _, True) (λ _ r', rtt_base r' = epoch) (rtt_init sec) (λ _ r', rtt_base r' = epoch) r.
Proof.
  intros Hs. unfold rtt_init, RTT_RTOCALC. rewrite wpx_bind, wpx_modify.
  refine ((_ : preserves (λ r, rtt_base r = epoch) _) _ _); [auto 30 with preserves|done].
Qed.

Lemma begin_core fin mem s :
  lo ≤ 0 → ready s → (∀ b, mem = Some b → Z.of_nat (length b) = Q ∧ Forall (λ x, ack x = 0) b) →
  wpt (begin_transfer clock Q send_ok mem) (λ _, sender_ok fin) s.
Proof.
  intros Hlo [H1 H2 H3 H4 H5 H6] Hmem. unfold begin_transfer. destruct mem as [b|]; [|done].
  destruct (Hmem b eq_refl) as [Hl Hb]. eapply wpx_run; [apply on_queue_run; reflexivity|].
  rewrite wpx_bind, wpx_modify, wpx_bind, wpx_get, wpx_bind, wpx_modify. set (s1 := put_ticks _ _).
  assert (C : ∀ r, rtt_base r = epoch → core (put_rtt r s1)).
  { intros r Hr. split; try done; try lia.
    - exists b. cbn. split_and!; try done; [by rewrite Z.mod_0_l by lia..|lia|].
      intros i x _ _ Hx. rewrite Forall_forall in Hb. apply Hb. by eapply list_elem_of_lookup_2.
    - cbn. by rewrite H2.
    - cbn. by rewrite H5. }
  eapply (wpx_seq _ _ (λ _ s', ∃ r, s' = put_rtt r s1 ∧ core s')).
  - pose proof (epoch_rtt_init (clock (s_ticks s)).1 (s_rtt s1) H6) as Hinit. unfold wpx, on_rtt, on in *.
    change (s_ticks (put_window 0 _)) with (s_ticks s) in *.
    destruct (rtt_init _ _) as [[] r|c r|u]; [|done..]. exists r. auto.
  - intros _ s2 (r & -> & C2). by apply top_core.
Qed.
End sender_proofs.

(** * The transfer *)

Section transfer.
Context `{Allocator} (header : ptr).
Context (clock : nat → Z * Z) (Q recv_window : Z).
Context (srv_send : list datagram → datagram → bool) (cli_send : list ack_hdr → ack_hdr → bool).

(** What reaches the client: a header and its data sent one behind the other, or a probe
    for the window size. *)
Definition reaches_client (out : list datagram) (e : event) : Prop :=
  match e with
  | Net q t b _ _ => (q, t, b) ∈ pairs out ∨ (ntohl q = 0 ∧ Hdr q t ∈ out)
  | _ => True
  end.

(** What reaches the server: an acknowledgement the client sent. *)
Definition reaches_server (sent : list ack_hdr) (i : input) : Prop :=
  match i with Ack q t w => mk_ack q t w ∈ sent | _ => True end.

Inductive transfer_step (w : sender * client) : sender * client → Prop :=
  | server_moves i s' :
      reaches_server (acks w.2) i →
      step clock Q srv_send i w.1 = Done tt s' → s_seqno s' < INT_MAX →
      transfer_step w (s', w.2)
  | client_moves e c' :
      reaches_client (s_out w.1) e →
      FileClient.step header recv_window cli_send e w.2 = Done tt c' →
      transfer_step w (w.1, c').
End transfer.

Section transfer_proofs.
Context `{ZeroedAllocator} (header : ptr).
Context (clock : nat → Z * Z) (Q recv_window : Z).
Context (srv_send : list datagram → datagram → bool) (cli_send : list ack_hdr → ack_hdr → bool).
Context (file junk : string) (last : Z) (Hjunk : String.length junk = MAXLINE) (HQ : 0 < Q ≤ QSIZE_BOUND).
Context (Hlast : 1 ≤ last ≤ last_chunk file).

Abbreviation tstep := (transfer_step header clock Q recv_window srv_send cli_send).

(** The client has announced that it has the whole file. *)
Definition announced (c : client) : Prop := ∃ a, a ∈ acks c ∧ ntohl (a_seq a) = 0.

Definition world_ok (epoch : Z) (w : sender * client) : Prop :=
  sender_ok file junk last Q epoch 0 (announced w.2) w.1 ∧ s_seqno w.1 < INT_MAX ∧
  good header (piece file junk) last (s_seqno w.1) w.2.

Lemma good_mono n n' c :
  n ≤ n' → good header (piece file junk) last n c → good header (piece file junk) last n' c.
Proof.
  intros Hn [l C]. exists l. destruct C as [C1 C2 C3 C4 C5 C6 Ca C7 C8 C9]. split; try done; [lia| |].
  - eapply Forall_impl; [exact C4|]. intros e He. cbn in *. lia.
  - intros a Ha. pose proof (Ca a Ha). lia.
Qed.

Lemma sender_ok_mono epoch lo lo' (P P' : Prop) s :
  (P → P') → lo' ≤ s_seqno s → sender_ok file junk last Q epoch lo P s → sender_ok file junk last Q epoch lo' P' s.
Proof. intros HP Hlo [C Hp]. split; [by destruct C|]. destruct (s_phase s); auto. Qed.

(** A client never takes back an acknowledgement. *)
Definition keeps_acks (l : list ack_hdr) (c : client) : Prop := ∀ a, a ∈ l → a ∈ acks c.

Lemma keeps_on_list l {B} (m : M heap B) : preserves (keeps_acks l) (on_list m).
Proof. intros s Hs. unfold wpx, on_list. by destruct (m (list_heap s)). Qed.

Lemma keeps_send_ack l a : preserves (keeps_acks l) (send_ack cli_send a).
Proof.
  apply preserves_read. intros s Hs. destruct (cli_send (acks s) a); [|exact Hs].
  intros b Hb. cbn. apply elem_of_app. left. by apply Hs.
Qed.

#[local] Hint Resolve keeps_on_list keeps_send_ack : preserves.
#[local] Hint Extern 1 (preserves _ (modify _)) => (apply preserves_modify; done) : preserves.

Lemma keeps_print l fuel : preserves (keeps_acks l) (print_lines header fuel).
Proof. induction fuel as [|fuel IH]; cbn [print_lines]; auto 30 with preserves. Qed.
#[local] Hint Resolve keeps_print : preserves.

Lemma step_keeps_acks e c c' :
  FileClient.step header recv_window cli_send e c = Done tt c' → ∀ a, a ∈ acks c → a ∈ acks c'.
Proof.
  intros Hrun. refine (preserves_Done (keeps_acks (acks c)) _ c tt c' _ _ Hrun); [|by intros a].
  unfold FileClient.step, on_probe, on_data, ack_number, window_field.
  apply preserves_bind; [auto with preserves|]. intros s. destruct e; [|auto 10 with preserves..].
  2-3: destruct (print_state s); auto 10 with preserves.
  apply preserves_when, preserves_if; [auto 20 with preserves|]. auto 40 with preserves.
Qed.

(** What reaches the client is what such a server sends. *)
Lemma reaches_honest epoch s e :
  reaches_client (s_out s) e → core file junk last Q epoch 0 s → honest (piece file junk) last (s_seqno s) e.
Proof.
  intros He C. destruct e as [q t b i o| | |]; [|done..]. destruct He as [He|[Hz _]]; [|by left].
  pose proof (co_out _ _ _ _ _ _ _ _ _ _ _ _ _ _ _ _ C) as Hout. rewrite Forall_forall in Hout.
  destruct (Hout _ He) as (H1 & H2 & H3). by right.
Qed.

Lemma step_world epoch w w' :
  (last = 1 ∨ ∀ n r, rtt_base r = epoch → rtt_ts (clock n).1 (clock n).2 r ≠ 0) →
  world_ok epoch w → tstep w w' → world_ok epoch w'.
Proof.
  intros Hclock (Hs & Hn & Hg) Hstep. destruct Hstep as [i s' Hi Hrun Hn'|e c' He Hrun]; cbn [fst snd] in *.
  - assert (Hadm : admissible (announced w.2) (s_seqno w.1) i).
    { destruct i as [q t u| | |]; [|done..]. destruct Hg as [l Cl]. split; [apply (c_ack_range _ _ _ _ _ _ Cl _ Hi)|].
      intros Hz. by exists (mk_ack q t u). }
    apply (sender_ok_mono _ _ (s_seqno w.1) _ (announced w.2)) in Hs; [|done..].
    pose proof (wpx_Done _ _ _ _ _ _ _ (step_core file junk last Q epoch (s_seqno w.1) clock srv_send Hjunk HQ Hlast Hclock
      _ i w.1 Hs Hadm Hn) Hrun) as Hs'. cbv beta in Hs'.
    pose proof (co_lo _ _ _ _ _ _ _ _ _ _ _ _ _ _ _ _ (proj1 Hs')) as Hmono.
    pose proof (co_head _ _ _ _ _ _ _ _ _ _ _ _ _ _ _ _ (proj1 Hs')) as Hh.
    split; [|split; [done|by eapply good_mono]]. 
    apply (sender_ok_mono _ (s_seqno w.1) _ (announced w.2)); [done|cbn; lia|exact Hs'].
  - pose proof Hs as [C _]. pose proof (co_head _ _ _ _ _ _ _ _ _ _ _ _ _ _ _ _ C) as Hh. split; [|split; [done|]].
    + eapply sender_ok_mono; [| |exact Hs]; [|cbn; lia]. intros (a & Ha & Hz). exists a. split; [|done].
      by eapply step_keeps_acks.
    + pose proof (reaches_honest _ _ _ He C) as Hhon.
      refine (wpx_Done _ _ _ _ _ _ _ (step_good header recv_window cli_send (piece file junk) last (s_seqno w.1) _ _ _ e w.2 Hhon Hg) Hrun);
        [lia|unfold INT_MAX in *; lia|]. intros k _. by apply piece_short.
Qed.
End transfer_proofs.

(** * Consequences *)

Section transfer_theorems.
Context `{ZeroedAllocator} (header : ptr).
Context (clock : nat → Z * Z) (Q recv_window : Z).
Context (srv_send : list datagram → datagram → bool) (cli_send : list ack_hdr → ack_hdr → bool).

Abbreviation tstep := (transfer_step header clock Q recv_window srv_send cli_send).

(** The state in which both programs enter their loops; [junk] is what localcopy contains,
    [b] the block the server's [malloc] returns for the queue. *)
Record begins (file junk : string) (b : list data) (epoch : Z) (w : sender * client) : Prop := {
  b_junk : String.length junk = MAXLINE;
  b_window : 0 < Q ≤ QSIZE_BOUND;
  b_block : Z.of_nat (length b) = Q;
  b_server : ∃ s0, ready file junk epoch clock s0 ∧ begin_transfer clock Q srv_send (Some b) s0 = Done tt w.1;
  b_seqno : s_seqno w.1 < INT_MAX;
  b_client : ∃ h, list_at h header [] ∧ w.2 = FileClient.started h
}.

(** No counter of the block is set. *)
Definition counters_zero (b : list data) : Prop := Forall (λ x, ack x = 0) b.

Lemma last_chunk_pos file : 1 ≤ last_chunk file.
Proof. unfold last_chunk. lia. Qed.

Lemma reach_world file junk b epoch last w0 w :
  begins file junk b epoch w0 → counters_zero b → 1 ≤ last ≤ last_chunk file →
  (last = 1 ∨ ∀ n r, rtt_base r = epoch → rtt_ts (clock n).1 (clock n).2 r ≠ 0) →
  reach tstep w0 w → world_ok header Q file junk last epoch w.
Proof.
  intros [Hjunk HQ Hl (s0 & Hready & Hrun) Hseq (h & Hh & Hc)] Hb Hlast Hclock.
  apply reach_invariant; [|intros x y; by apply step_world].
  assert (Hw : ∀ fin, sender_ok file junk last Q epoch 0 fin w0.1).
  { intros fin. refine (wpx_Done _ _ _ _ _ _ _ (begin_core file junk last Q epoch 0 clock srv_send Hjunk HQ Hlast Hclock _
      (Some b) s0 _ Hready _) Hrun); [lia|]. by intros ? [= <-]. }
  split; [apply Hw|split; [done|]].
  pose proof (co_lo _ _ _ _ _ _ _ _ _ _ _ _ _ _ _ _ (proj1 (Hw True))). rewrite Hc.
  apply started_good; [unfold INT_MAX in *; lia|done].
Qed.

(** What is printed are the first lines of the transfer, and nothing that can reach the
    client drives it into undefined behaviour. *)
Lemma events_prefix file junk b epoch w0 w :
  begins file junk b epoch w0 → counters_zero b → reach tstep w0 w →
  stdout w.2 = text (piece file junk) (Z.to_nat (printed w.2)) ∧ 0 ≤ printed w.2 ≤ s_seqno w.1 ∧
  ∀ e u, reaches_client (s_out w.1) e → FileClient.step header recv_window cli_send e w.2 ≠ Undefined u.
Proof.
  intros Hb Hz Hr. pose proof (last_chunk_pos file). pose proof (b_junk _ _ _ _ _ Hb) as Hj.
  destruct (reach_world file junk b epoch 1 w0 w Hb Hz ltac:(lia) ltac:(by left) Hr) as ([C _] & Hn & Hg).
  pose proof (co_head _ _ _ _ _ _ _ _ _ _ _ _ _ _ _ _ C). pose proof Hg as [l Cl].
  split; [apply (c_stdout _ _ _ _ _ _ Cl)|]. split; [apply (c_printed _ _ _ _ _ _ Cl)|].
  intros e u He. eapply wp_not_undefined.
  refine (step_good header recv_window cli_send (piece file junk) 1 (s_seqno w.1) _ _ _ e w.2 _ Hg).
  - lia.
  - unfold INT_MAX in *. lia.
  - intros k _. by apply piece_short.
  - by eapply reaches_honest.
Qed.

(** The sender ends only when the client has announced the end, and then the client has
    everything: when its printing thread wakes up next, all lines are printed. *)
Lemma events_complete file junk b epoch w0 w :
  begins file junk b epoch w0 → counters_zero b → (∀ n r, rtt_base r = epoch → rtt_ts (clock n).1 (clock n).2 r ≠ 0) →
  reach tstep w0 w → s_phase w.1 = Ended →
  announced w.2 ∧
  (print_state w.2 = Sleeping →
   ∃ c' n, FileClient.step header recv_window cli_send PrintWakes w.2 = Done tt c' ∧
           stdout c' = text (piece file junk) n ∧ last_chunk file ≤ Z.of_nat n).
Proof.
  intros Hb Hz Hclock Hr Hend. pose proof (last_chunk_pos file). pose proof (b_junk _ _ _ _ _ Hb) as Hj.
  destruct (reach_world file junk b epoch (last_chunk file) w0 w Hb Hz ltac:(lia) ltac:(by right) Hr) as ([C Hp] & Hn & [l Cl]).
  pose proof (co_head _ _ _ _ _ _ _ _ _ _ _ _ _ _ _ _ C). rewrite Hend in Hp. split; [done|]. intros Hsl.
  destruct Hp as (a & Ha & Hza). unfold INT_MAX in *.
  assert (Hbound : 0 ≤ s_seqno w.1 < INT_MAX) by (unfold INT_MAX; lia).
  destruct (print_lines_ends header (piece file junk) (last_chunk file) (s_seqno w.1) H0 Hbound (λ k _, piece_short file junk k Hj)
    _ l w.2 Cl (list_at_size _ _ _ (c_list _ _ _ _ _ _ Cl))) as (c' & l' & Hrun & C' & Hnot & _).
  exists (put_print_state Checking c'), (Z.to_nat (printed c')). unfold FileClient.step. rewrite bind_get, Hsl. run_step Hrun.
  split; [done|]. split; [apply (c_stdout _ _ _ _ _ _ C')|]. pose proof (c_printed _ _ _ _ _ _ C').
  destruct (decide (last_chunk file ≤ printed c')) as [|Hlt]; [lia|]. exfalso.
  assert (Ha' : a ∈ acks c').
  { refine (preserves_Done (keeps_acks (acks w.2)) _ w.2 tt c' (keeps_print header _ _) _ Hrun a Ha). by intros b'. }
  destruct (c_zero _ _ _ _ _ _ C' a (printed c' + 1) Ha' Hza ltac:(lia)); [lia|done].
Qed.
End transfer_theorems.

(** * A file of two pieces *)

Definition two_pieces : string := String.string_of_list_ascii (replicate 501 "x"%char).

Definition file_open : sender := put_rest two_pieces blank.
Definition server_begins : sender :=
  after_run file_open (begin_transfer clock1 4 accepting (Some (repeat blank_data 4)) file_open).

Definition all_sent (l : list ack_hdr) (a : ack_hdr) : bool := true.

Definition run0 : sender * client := (server_begins, FileClient.started empty_list).

Lemma run_begins : begins (Ptr 0) clock1 4 accepting two_pieces (zero_bytes MAXLINE) (repeat blank_data 4) 1000 run0.
Proof.
  split; [vm_compute; reflexivity|unfold QSIZE_BOUND; lia|reflexivity| |vm_compute; reflexivity|].
  - exists file_open. split; [|vm_compute; reflexivity]. split; try reflexivity. vm_compute. discriminate.
  - exists empty_list. split; [exact empty_list_at|reflexivity].
Qed.

Lemma clock1_stamps n r : rtt_base r = 1000 → rtt_ts (clock1 n).1 (clock1 n).2 r ≠ 0.
Proof.
  intros Hb. unfold rtt_ts, clock1. cbn [fst snd]. rewrite Hb. change (Z.quot 5000 1000) with 5. unfold u32.
  intros Hz%Z.mod_divide; [|done]. destruct Hz as [k Hk]. lia.
Qed.
