(* ===== verification/FileProgress.v ===== *)
(** Progress of the file transfer of Assignment 2: over a network that loses nothing, with
    a client whose buffer is not larger than the send window, every file gets through.

    The schedule is lock step: all datagrams of a round reach the client, which prints
    each of them before the next one arrives, and the last acknowledgement of the round
    reaches the sender. *)

From S2P Require Export FileTransfer.

(** * Rounds of the sender *)

Section rounds.
Context (file : string) (clock : nat → Z * Z) (Q : Z) (send_ok : list datagram → datagram → bool).
Context (Hsend : ∀ out d, send_ok out d = true).

(** No datagram in the block, or none but the one that the next push overwrites, has been
    counted up. *)
Definition clean (s : sender) : Prop := ∀ b x, base (s_queue s) = Some b → x ∈ b → ack x = 0.
Definition nearly_clean (s : sender) : Prop :=
  ∀ b i x, base (s_queue s) = Some b → b !! i = Some x → Z.of_nat i ≠ rear (s_queue s) → ack x = 0.

Definition pair_of (x : data) : Z * Z * string := (htonl (CirQueue.seq x), htonl (ts x), sendline x).

(** The parts of the state that new datagrams are made of. *)
Record fed (s : sender) : Prop := {
  fe_size : MAX_QSIZE (s_queue s) = Q;
  fe_copy : sendline (s_copy s) = zero_bytes MAXLINE ∧ ack (s_copy s) = 0;
  fe_rest : s_rest s = str_drop (packet_capacity * Z.to_nat (s_seqno s)) file
}.

(** The datagrams [l] are under way. *)
Record sent (s : sender) (l : list data) : Prop := {
  se_end : ∀ x, x ∈ l → last_chunk file ≤ CirQueue.seq x → ts x = 0;
  se_pairs : ∀ x, x ∈ l → pair_of x ∈ pairs (s_out s)
}.

Lemma rest_short m :
  last_chunk file ≤ m + 1 →
  (String.length (str_drop (packet_capacity * Z.to_nat m) file) < packet_capacity)%nat.
Proof.
  rewrite length_str_drop. unfold last_chunk. intros Hm.
  pose proof (Nat.div_mod (String.length file) packet_capacity ltac:(done)).
  pose proof (Nat.mod_upper_bound (String.length file) packet_capacity ltac:(done)). nia.
Qed.

Lemma pairs_frames out x p : p ∈ pairs (out ++ frames x) ↔ p ∈ pairs out ∨ p = pair_of x.
Proof.
  unfold frames. rewrite pairs_app by done. rewrite elem_of_app. cbn. rewrite list_elem_of_singleton. done.
Qed.

Lemma push_clean s q' x :
  queue_wf (s_queue s) → nearly_clean s → EnCirQueue x (s_queue s) = Done tt q' → ack x = 0 →
  ∀ b y, base q' = Some b → y ∈ b → ack y = 0.
Proof.
  intros Hwf Hc Hq Hx b y Hb Hy. pose proof Hwf as (b0 & Hb0 & Hl & Hf & Hr).
  rewrite (EnCirQueue_run _ b0 x Hwf Hb0) in Hq. injection Hq as <-. cbn in Hb. injection Hb as <-.
  apply list_elem_of_lookup in Hy as [i Hi].
  destruct (decide (i = Z.to_nat (rear (s_queue s)))) as [->|Hne].
  - rewrite list_lookup_insert_eq in Hi by lia. by injection Hi as <-.
  - rewrite list_lookup_insert_ne in Hi by done. apply (Hc b0 i y Hb0 Hi). lia.
Qed.

Lemma send_one_fed s l :
  unacked s l → fed s → nearly_clean s → Z.of_nat (length l) + 1 < Q → s_seqno s + 1 < 2 ^ 32 - 1 →
  ∃ s' x, send_one clock send_ok s = Done tt s' ∧ unacked s' (l ++ [x]) ∧ fed s' ∧ clean s' ∧
    s_seqno s' = s_seqno s + 1 ∧ s_rtt s' = s_rtt s ∧ s_out s' = s_out s ++ frames x ∧
    (last_chunk file ≤ CirQueue.seq x → ts x = 0).
Proof.
  intros Hu [Hsz [Hline Hack] Hrest] Hc Hroom Hlim.
  destruct (send_one_run clock send_ok Hsend s l Hu ltac:(lia) Hlim)
    as (s' & x & Hrun & Hu' & Hsz' & Hn & Hx & Hrest' & Heof & Hts & Hz & Hout & Hpush & Hax & Has & Hrtt).
  exists s', x. pose proof Hu' as (_ & _ & _ & Hn' & Hseq'). pose proof Hu as ((Hwf & _) & Hh & _ & Hn0 & _).
  assert (Hsx : CirQueue.seq x = s_seqno s + 1).
  { specialize (Hseq' (length l) x). rewrite length_app in Hn'. cbn in Hn'.
    rewrite Hseq'; [lia|]. by rewrite lookup_app_r, Nat.sub_diag by lia. }
  split_and!; try done.
  - split; [by rewrite Hsz'|split; [done|congruence]|].
    rewrite Hrest', Hrest, str_drop_drop, Hn. f_equal.
    rewrite Z2Nat.inj_add, Nat.mul_add_distr_l by lia. change (Z.to_nat 1) with 1%nat. lia.
  - intros b y. eapply push_clean; [exact Hwf|done|exact Hpush|congruence].
  - rewrite Hsx. intros Hl. apply Hts. rewrite Heof, Hrest. apply orb_true_iff. right.
    apply Nat.ltb_lt. by apply rest_short.
Qed.

Lemma sent_grow s s' l :
  sent s l → (∀ p, p ∈ pairs (s_out s) → p ∈ pairs (s_out s')) → sent s' l.
Proof. intros [H1 H2] Hp. split; auto. Qed.

(** The loop that sends new datagrams. *)
Lemma send_new_fed n s l :
  unacked s l → sent s l → fed s → nearly_clean s → (l ≠ [] → clean s) →
  Z.of_nat (length l) + Z.of_nat n < Q → s_seqno s + Z.of_nat n < 2 ^ 32 - 1 →
  ∃ s' l', send_new clock send_ok n s = Done tt s' ∧ unacked s' l' ∧ sent s' l' ∧ fed s' ∧
    ((0 < n)%nat ∨ l ≠ [] → l' ≠ [] ∧ clean s') ∧ s_rtt s' = s_rtt s ∧
    s_head s' = s_head s ∧ (length l' ≤ length l + n)%nat.
Proof.
  revert s l. induction n as [|n IH]; intros s l Hu Hse Hf Hc Hcl Hroom Hlim; cbn [send_new].
  { exists s, l. split_and!; try done; [|lia]. intros [?|?]; [lia|auto]. }
  destruct (send_one_fed s l Hu Hf Hc ltac:(lia) ltac:(lia)) as (s1 & x & Hrun & Hu1 & Hf1 & Hc1 & Hn1 & Hr1 & Ho1 & Hts).
  assert (Hse1 : sent s1 (l ++ [x])).
  { split; intros y [Hy|Hy]%elem_of_app; rewrite ?Ho1, ?pairs_frames.
    - by apply Hse.
    - apply list_elem_of_singleton in Hy as ->. done.
    - left. by apply Hse.
    - apply list_elem_of_singleton in Hy as ->. by right. }
  assert (Hne : l ++ [x] ≠ []) by (by destruct l).
  assert (Hh1 : s_head s1 = s_head s).
  { destruct Hu1 as (_ & _ & _ & H1 & _). destruct Hu as (_ & _ & _ & H2 & _). rewrite length_app in H1. cbn in H1. lia. }
  run_step Hrun. rewrite bind_get. destruct (s_eof s1).
  { exists s1, (l ++ [x]). rewrite length_app. cbn. split_and!; try done. lia. }
  destruct (IH s1 (l ++ [x])) as (s' & l' & Hrun' & Hu' & Hse' & Hf' & Hne' & Hr' & Hh' & Hlen'); try done.
  - intros b i y Hb Hy _. by eapply Hc1, list_elem_of_lookup_2.
  - rewrite length_app. cbn. lia.
  - lia.
  - rewrite length_app in Hlen'. cbn in Hlen'. exists s', l'. split_and!; try done; [auto|congruence|congruence|lia].
Qed.
(** The rest of the state between two rounds. *)
Record calm (s : sender) : Prop := {
  ca_cwnd : 1 ≤ s_cwnd s ≤ s_seqno s + 1;
  ca_ssh : 0 ≤ s_cac s ≤ s_seqno s + 1;
  ca_rtt : rtt_ok (s_rtt s)
}.

(** The sender waits for the acknowledgement of the datagrams [l]. *)
Record round (s : sender) (l : list data) : Prop := {
  ro_window : unacked s l;
  ro_some : l ≠ [];
  ro_sent : sent s l;
  ro_fed : fed s;
  ro_clean : clean s;
  ro_calm : calm s;
  ro_wait : s_phase s = Awaiting ∧ s_received s = 0
}.

Lemma calm_transparent cwnd ssh cac :
  transparent (λ s, s_cwnd s = cwnd ∧ s_ssh s = ssh ∧ s_cac s = cac).
Proof. intros s Hs. split_and!; intros x; exact Hs. Qed.

Lemma three_min_le a b c : three_min a b c ≤ a ∧ three_min a b c ≤ c.
Proof.
  unfold three_min. destruct (Z.ltb_spec a b).
  - destruct (Z.ltb_spec a c); lia.
  - destruct (Z.ltb_spec b c); lia.
Qed.

Lemma arm_run s :
  ∃ s', arm s = Done tt s' ∧
    s' = put_phase Awaiting (put_received 0 (put_measured 0 (put_alarm (rtt_rto (s_rtt s)) s))).
Proof.
  unfold arm. rewrite (bind_Done _ _ _ _ _ (on_rtt_run rtt_start s (rtt_rto (s_rtt s)) (s_rtt s) eq_refl)).
  rewrite !bind_modify. eexists. split; [reflexivity|]. by destruct s.
Qed.

(** A round that starts with an empty window. *)
Lemma send_round_run s :
  unacked s [] → fed s → nearly_clean s →
  1 ≤ s_cwnd s ≤ s_seqno s + 2 → 0 ≤ s_cac s ≤ s_seqno s + 2 → rtt_ok (s_rtt s) → 0 < Q → 0 < s_recv_window s →
  s_cwnd s < Q ∨ s_recv_window s < Q → s_seqno s + Q < INT_MAX →
  ∃ s' l, send_round clock Q send_ok s = Done tt s' ∧ round s' l ∧ s_head s' = s_head s ∧
          Z.of_nat (length l) ≤ Q.
Proof.
  intros Hu Hf Hc Hcw Hca Hrtt HQ Hw Hsmall Hlim. unfold INT_MAX in Hlim. unfold send_round. rewrite bind_get. cbv zeta.
  pose proof (three_min_pos (s_cwnd s) Q (s_recv_window s) ltac:(lia) ltac:(lia) ltac:(lia)) as Hpos.
  pose proof (three_min_le (s_cwnd s) Q (s_recv_window s)) as [Hle1 Hle2].
  set (w := three_min _ _ _) in *. clearbody w. rewrite bind_modify.
  rewrite (bind_Done _ _ _ _ _ (on_rtt_run rtt_newpack (put_window w s) tt (set_nrexmt 0 (s_rtt s)) eq_refl)). set (s1 := put_rtt _ _).
  assert (Hu1 : unacked s1 []) by exact Hu. assert (Hf1 : fed s1) by by destruct Hf.
  assert (Hre : resend_window send_ok w s1 = Done tt s1).
  { unfold resend_window. by rewrite (bind_Done _ _ _ _ _ (queue_empty_run s1 [] Hu1)). }
  run_step Hre. run_step (queue_length_run s1 [] Hu1).
  assert (Hint : int_op (w - Z.of_nat (length (@nil data))) s1 = Done w s1).
  { cbn. rewrite Z.sub_0_r. apply int_op_ok. unfold INT_MIN, INT_MAX. lia. }
  run_step Hint.
  destruct (send_new_fed (Z.to_nat w) s1 [] Hu1) as (s2 & l & Hrun & Hu2 & Hs2 & Hf2 & Hne & Hr2 & Hh2 & Hlen); try done.
  { split; intros x Hx; by apply not_elem_of_nil in Hx. }
  { cbn. lia. }
  { cbn. lia. }
  destruct (Hne ltac:(left; lia)) as [Hsome Hc2]. run_step Hrun. destruct (arm_run s2) as (s3 & Harm & ->).
  rewrite Harm. eexists _, l. split; [reflexivity|].
  assert (Hcong : s_cwnd s2 = s_cwnd s ∧ s_ssh s2 = s_ssh s ∧ s_cac s2 = s_cac s).
  { exact (preserves_Done _ _ s1 tt s2 (preserves_send_new clock send_ok _ (calm_transparent _ _ _) _)
      (conj eq_refl (conj eq_refl eq_refl)) Hrun). }
  destruct Hcong as (E1 & _ & E2). cbn in Hlen. 
  assert (Hn2 : s_seqno s < s_seqno s2).
  { destruct Hu2 as (_ & _ & _ & H1 & _). destruct Hu1 as (_ & _ & _ & H2 & _). cbn in H2. destruct l; [done|]. cbn in H1.
    change (s_head s1) with (s_head s) in *. change (s_seqno s1) with (s_seqno s) in *. lia. }
  split; [|split; [exact Hh2|lia]]. split; try done; [by destruct Hs2|by destruct Hf2|].
  split; cbn; [lia|lia|]. rewrite Hr2. exact Hrtt.
Qed.

(** ** An acknowledgement of the whole window *)

Lemma sender_grow_run s :
  calm s → s_seqno s + 2 < INT_MAX →
  ∃ c a, grow_window s = Done tt (put_cac a (put_cwnd c s)) ∧ 1 ≤ c ≤ s_seqno s + 2 ∧ 0 ≤ a ≤ s_seqno s + 2.
Proof.
  intros [Hc Ha _] Hn. unfold INT_MAX in Hn. unfold grow_window. rewrite bind_get. destruct (s_cwnd s <? s_ssh s).
  - run_step (int_op_ok (s_cwnd s + 1) s ltac:(unfold INT_MIN, INT_MAX; lia)).
    exists (s_cwnd s + 1), (s_cac s). split; [by destruct s|lia].
  - run_step (int_op_ok (s_cac s + 1) s ltac:(unfold INT_MIN, INT_MAX; lia)). rewrite bind_modify.
    destruct (s_cac s + 1 =? s_cwnd s); cbn [when].
    + run_step (int_op_ok (s_cwnd s + 1) (put_cac (s_cac s + 1) s) ltac:(unfold INT_MIN, INT_MAX; lia)).
      exists (s_cwnd s + 1), 0. split; [by destruct s|lia].
    + exists (s_cwnd s), (s_cac s + 1). split; [by destruct s|lia].
Qed.

Lemma measure_run rts s :
  ∃ m k, when (s_measured s =? 0) (t ← time_stamp clock; modify (put_measured (u32 (t - ntohl rts)))) s =
         Done tt (put_measured m (put_ticks k s)).
Proof.
  destruct (s_measured s =? 0); cbn [when].
  - unfold time_stamp. rewrite <- bind_assoc_M, bind_get, <- bind_assoc_M, bind_modify, bind_ret. by eexists _, _.
  - exists (s_measured s), (s_ticks s). by destruct s.
Qed.

(** The counter at the front of an empty window goes from 0 to 1. *)
Lemma count_ack_run s :
  unacked s [] → clean s →
  ∃ q, count_ack s = Done 1 (put_queue q s) ∧ unacked (put_queue q s) [] ∧ nearly_clean (put_queue q s) ∧
       MAX_QSIZE q = MAX_QSIZE (s_queue s).
Proof.
  intros Hu Hc. pose proof Hu as ((Hwf & Hlen & Hnth) & Hrest). pose proof Hwf as (b & Hb & Hl & Hf & Hr).
  destruct (lookup_lt_is_Some_2 b (Z.to_nat (front (s_queue s)))) as [x Hx]; [lia|].
  assert (Hx0 : ack x = 0) by by eapply Hc, list_elem_of_lookup_2.
  assert (Hfr : front (s_queue s) = rear (s_queue s)).
  { unfold q_len in Hlen. cbn in Hlen. rewrite sub_mod_cases in Hlen by lia.
    destruct (Z.leb_spec (front (s_queue s)) (rear (s_queue s))); lia. }
  unfold count_ack. rewrite bind_get.
  assert (Hat : on_queue (base_at (front (s_queue s))) s = Done x s).
  { rewrite (on_queue_run _ s x (s_queue s)), put_queue_id; [done|]. unfold base_at. rewrite bind_get, Hb.
    change (of_opt NullDeref (Some b)) with (mret (M := M CirQueue) b). rewrite bind_ret.
    unfold rd, of_opt, arr_at. destruct (Z.ltb_spec (front (s_queue s)) 0); [lia|]. by rewrite Hx. }
  run_step Hat. rewrite Hx0. run_step (int_op_ok (0 + 1) s ltac:(unfold INT_MIN, INT_MAX; lia)).
  run_step (set_front_run s b x _ Hb Hx (proj1 Hf)).
  eexists. split; [reflexivity|]. split; [|split; [|done]].
  - split; [|exact Hrest]. split; [|split; [exact Hlen|]].
    + destruct (s_queue s). cbn in *. apply queue_wf_intro; rewrite ?length_insert; done.
    + intros i Hi. cbn in Hi. lia.
  - intros b' i y Hb' Hi Hne. cbn in Hb', Hne. injection Hb' as <-.
    rewrite list_lookup_insert_ne in Hi by lia. by eapply Hc, list_elem_of_lookup_2.
Qed.

Lemma taken_base n s : base (s_queue (taken n s)) = base (s_queue s).
Proof. done. Qed.

(** What [on_ack] has done when it gets to [next_ack]: the window is empty. *)
Lemma ack_front_run s l rts rwin :
  round s l → s_seqno s + 2 < INT_MAX →
  ∃ s1, on_ack clock Q send_ok (htonl (s_seqno s + 1)) rts rwin s = next_ack clock Q send_ok s1 ∧
    unacked s1 [] ∧ fed s1 ∧ nearly_clean s1 ∧ s_seqno s1 = s_seqno s ∧ s_head s1 = s_seqno s + 1 ∧
    1 ≤ s_cwnd s1 ≤ s_seqno s + 2 ∧ 0 ≤ s_cac s1 ≤ s_seqno s + 2 ∧ rtt_ok (s_rtt s1) ∧
    s_recv_window s1 = ntohs rwin.
Proof.
  intros [Hu Hsome _ Hf Hc Hca [_ Hrec]] Hn. unfold on_ack.
  destruct (sender_grow_run s Hca Hn) as (c & a & Hgrow & Hcr & Har). run_step Hgrow. rewrite bind_get.
  cbn [s_received put_cac put_cwnd]. rewrite Hrec. unfold INT_MAX in Hn.
  run_step (int_op_ok (0 + 1) (put_cac a (put_cwnd c s)) ltac:(unfold INT_MIN, INT_MAX; lia)). rewrite bind_modify.
  set (s1 := put_received _ _). change (s_measured (put_cac a (put_cwnd c s))) with (s_measured s1).
  destruct (measure_run rts s1) as (m & k & Hm). run_step Hm. set (s2 := put_measured m _).
  assert (Hu2 : unacked s2 l) by exact Hu. pose proof Hu as (_ & Hh & Hmax & Hsn & _).
  rewrite ntohl_htonl, u32_small by (destruct l; cbn in *; lia).
  destruct (Z.eqb_spec (s_seqno s + 1) 0); [destruct l; cbn in *; lia|].
  destruct (slide_run s2 l (s_seqno s + 1) Hu2) as [Hslide Hu3]; [destruct l; cbn in *; lia|].
  run_step Hslide. set (s3 := taken _ s2) in *. rewrite drop_ge in Hu3 by (cbn; lia). rewrite bind_modify.
  set (s4 := put_recv_window _ s3). assert (Hu4 : unacked s4 []) by exact Hu3.
  destruct (count_ack_run s4 Hu4 Hc) as (q & Hcount & Hu5 & Hc5 & Hsz). run_step Hcount.
  change (1 =? 3) with false. cbv iota. exists (put_queue q s4). split; [reflexivity|].
  split; [done|]. split; [|split; [done|]].
  - destruct Hf. split; [by rewrite <- fe_size0, <- (eq_refl : MAX_QSIZE (s_queue s4) = MAX_QSIZE (s_queue s))|done..].
  - assert (Hh5 : s_head (put_queue q s4) = s_seqno s + 1).
    { destruct Hu5 as (_ & _ & _ & H5 & _). cbn in H5 |- *. lia. }
    split; [done|]. split; [done|]. split; [exact Hcr|]. split; [exact Har|]. by destruct Hca.
Qed.

(** The next round. *)
Lemma ack_run s l rts rwin :
  round s l → 1 ≤ ntohs rwin < Q → s_seqno s + Q + 2 < INT_MAX →
  ∃ s' l', step clock Q send_ok (Ack (htonl (s_seqno s + 1)) rts rwin) s = Done tt s' ∧ round s' l' ∧
           s_head s' = s_seqno s + 1 ∧ Z.of_nat (length l') ≤ Q.
Proof.
  intros Hro Hw Hlim. destruct (ack_front_run s l rts rwin Hro ltac:(lia))
    as (s1 & Hrun & Hu & Hf & Hc & Hn & Hh & Hcw & Hca & Hrtt & Hrw).
  unfold step. rewrite bind_get, (proj1 (ro_wait _ _ Hro)), Hrun. unfold next_ack. rewrite bind_get.
  run_step (queue_empty_run s1 [] Hu). cbn [length]. rewrite andb_false_r. rewrite bind_modify.
  pose proof (rtt_stop_run (s_rtt s1) (s_measured s1) Hrtt) as Hstop. cbv zeta in Hstop.
  match type of Hstop with _ = Done _ ?p => set (r := p) in * end.
  assert (Hr : rtt_ok r).
  { destruct Hrtt as (H1 & H2 & H3). pose proof (measured_range (s_measured s1)).
    split; [apply rtt_minmax_range|]. split; [by apply next_srtt_range|by apply next_rttvar_range]. }
  run_step (on_rtt_run (rtt_stop (s_measured s1)) (put_alarm 0 s1) tt r Hstop).
  set (s2 := put_rtt r _). unfold top. rewrite bind_get.
  change (s_recv_window s2) with (s_recv_window s1). rewrite Hrw. destruct (Z.eqb_spec (ntohs rwin) 0); [lia|].
  destruct (send_round_run s2) as (s' & l' & Hgo & Hro' & Hh' & Hlen); try done.
  - by destruct Hf.
  - change (1 ≤ s_cwnd s1 ≤ s_seqno s1 + 2). lia.
  - change (0 ≤ s_cac s1 ≤ s_seqno s1 + 2). lia.
  - lia.
  - change (0 < s_recv_window s1). lia.
  - right. change (s_recv_window s1 < Q). lia.
  - change (s_seqno s1 + Q < INT_MAX). lia.
  - exists s', l'. split; [done|]. split; [done|]. split; [rewrite Hh'; exact Hh|done].
Qed.

(** ** The first round and the last acknowledgement *)

Lemma begin_run b epoch s0 :
  ready file (zero_bytes MAXLINE) epoch clock s0 → ack (s_copy s0) = 0 → Z.of_nat (length b) = Q → counters_zero b →
  2 ≤ Q ≤ QSIZE_BOUND → 1 ≤ s_recv_window s0 →
  ∃ s l, begin_transfer clock Q send_ok (Some b) s0 = Done tt s ∧ round s l ∧ s_head s = 1 ∧
         Z.of_nat (length l) ≤ Q.
Proof.
  intros [H1 H2 H3 _ _ _] Hca Hb Hack HQ Hw. unfold QSIZE_BOUND in HQ. unfold begin_transfer.
  destruct (q_repr_init b Q ltac:(unfold QSIZE_BOUND; lia) Hb (s_queue s0)) as (q & Hq & Hrepr & Hsz).
  assert (Hbase : base q = Some b) by (unfold InitCirQueue in Hq; by injection Hq as <-).
  run_step (on_queue_run _ _ _ _ Hq). rewrite bind_modify, bind_get, bind_modify.
  set (s1 := put_ticks _ _). run_step (on_rtt_run _ s1 _ _ (rtt_init_run _ (s_rtt s1))).
  set (s2 := put_rtt _ s1). unfold top. rewrite bind_get.
  change (s_recv_window s2) with (s_recv_window s0). destruct (Z.eqb_spec (s_recv_window s0) 0); [lia|].
  destruct (send_round_run s2) as (s & l & Hgo & Hro & Hh & Hlen); try done.
  - intros b' i x Hb' Hx _. cbn in Hb'. rewrite Hbase in Hb'. injection Hb' as <-.
    unfold counters_zero in Hack. rewrite Forall_forall in Hack. by eapply Hack, list_elem_of_lookup_2.
  - lia.
  - change (0 < s_recv_window s0). lia.
  - left. change (1 < Q). lia.
  - change (0 + Q < INT_MAX). unfold INT_MAX. lia.
  - by exists s, l.
Qed.

Lemma end_run s l q t w :
  round s l → s_seqno s + 2 < INT_MAX → ntohl q = 0 →
  ∃ s', step clock Q send_ok (Ack q t w) s = Done tt s' ∧ s_phase s' = Ended ∧ s_seqno s' = s_seqno s ∧
        LastInt ∈ s_out s'.
Proof.
  intros [_ _ _ _ _ Hca [Hp Hrec]] Hn Hz. unfold step. rewrite bind_get, Hp. unfold on_ack.
  destruct (sender_grow_run s Hca Hn) as (c & a & Hgrow & _). run_step Hgrow. rewrite bind_get.
  cbn [s_received put_cac put_cwnd]. rewrite Hrec.
  run_step (int_op_ok (0 + 1) (put_cac a (put_cwnd c s)) ltac:(unfold INT_MIN, INT_MAX; lia)). rewrite bind_modify.
  set (s1 := put_received _ _). change (s_measured (put_cac a (put_cwnd c s))) with (s_measured s1).
  destruct (measure_run t s1) as (m & k & Hm). run_step Hm. rewrite Hz. cbn [Z.eqb]. unfold finish.
  run_step (send_run send_ok Hsend LastInt (put_measured m (put_ticks k s1))). eexists. split_and!; [done..|].
  cbn. apply elem_of_app. right. by apply list_elem_of_singleton.
Qed.
End rounds.

(** * A datagram at the client *)

Section at_client.
Context `{ZeroedAllocator} (header : ptr) (W : Z).
Context (send_ok : list ack_hdr → ack_hdr → bool).
Context (Hsend : ∀ l a, send_ok l a = true) (HW : 2 ≤ W < 256).

(** The client has printed the first [p] datagrams and has no others. *)
Record idle (c : client) (p : Z) : Prop := {
  id_list : list_at (list_heap c) header [];
  id_printed : printed c = p;
  id_flag : data_flag c = 0;
  id_states : receiving c = true ∧ print_state c = Sleeping
}.

Lemma print_one fuel c k d :
  list_at (list_heap c) header [(k, d)] → k = printed c + 1 → 0 ≤ printed c → k < INT_MAX →
  ∃ c', print_lines header (S (S fuel)) c = Done tt c' ∧ list_at (list_heap c') header [] ∧
    printed c' = k ∧ acks c' = acks c ∧ data_flag c' = data_flag c ∧ receiving c' = receiving c.
Proof.
  intros Hl Hk Hp Hlim. unfold INT_MAX in Hlim.
  destruct (first_run _ _ _ Hl) as (n & Hn & b & n' & h1 & h2 & Hnext & Hn' & Hseq & Hd & Hset & Hfree & Hl2).
  cbn [print_lines]. rewrite bind_get. run_step (on_list_look _ _ _ Hn). rewrite Hnext. cbn [is_null].
  run_step (on_list_look _ _ _ Hn'). run_step (int_op_ok (printed c + 1) c ltac:(unfold INT_MIN, INT_MAX; lia)).
  rewrite Hseq, u32_small, Hk, Z.eqb_refl by lia. rewrite bind_modify.
  run_step (on_list_run _ (put_stdout _ c) tt h1 Hset). run_step (on_list_run _ (put_heap h1 _) tt h2 Hfree).
  rewrite bind_modify. set (c2 := put_printed _ _). rewrite bind_get.
  destruct (first_run h2 _ _ Hl2) as (n2 & Hn2 & Hnil). run_step (on_list_look (deref header) c2 _ Hn2).
  rewrite Hnil. by exists c2.
Qed.

(** What the main thread does with the next datagram. *)
Lemma receive_run c p q t b :
  idle c p → 0 ≤ p → p + 2 ≤ INT_MAX → ntohl q = p + 1 → (String.length (c_str b) < RECVLINE)%nat →
  ∃ c' w, FileClient.step header (htons W) send_ok (Net q t b true true) c = Done tt c' ∧
    acks c' = acks c ++ [mk_ack (if ntohl t =? 0 then htonl 0 else htonl (p + 2)) t w] ∧ ntohs w = W - 1 ∧
    list_at (list_heap c') header [(p + 1, c_str b)] ∧ printed c' = p ∧ print_state c' = Sleeping ∧
    (if ntohl t =? 0 then data_flag c' = 1 ∧ receiving c' = false else data_flag c' = 0 ∧ receiving c' = true).
Proof.
  intros [Hl Hpr Hfl [Hrec Hsl]] Hp Hlim Hq Hd. unfold INT_MAX in Hlim. unfold FileClient.step.
  rewrite bind_get, Hrec. cbn [when]. rewrite Hq. destruct (Z.eqb_spec (p + 1) 0); [lia|].
  unfold on_data. cbn [when]. rewrite bind_get, Hpr, Hq, u32_small, Z.gtb_ltb, (proj2 (Z.ltb_lt p (p + 1))) by lia. cbn [when].
  destruct (InsertLinkList_run _ _ _ (p + 1) (c_str b) Hl Hd) as (h1 & Hins & Hl1). cbn in Hl1.
  run_step (on_list_run _ c tt h1 Hins). set (c1 := put_heap h1 c).
  assert (Hok : Forall entry_ok [(p + 1, c_str b)]) by (apply Forall_cons_2; [split; [cbn; lia|done]|apply Forall_nil_2]).
  assert (Hnext : on_list (NextAck header p) c1 = Done (p + 2) c1).
  { apply on_list_look. change (list_heap c1) with h1. destruct (NextAck_run h1 header _ p Hl1 Hok Hp) as [Hn _]; [cbn; unfold INT_MAX; lia|].
    cbn [Pure.next_ack] in Hn. rewrite Z.eqb_refl in Hn. rewrite Hn. f_equal. lia. }
  assert (Hack : ∃ f, ack_number header q t c1 = Done (if ntohl t =? 0 then htonl 0 else htonl (p + 2)) (put_data_flag f c1) ∧
    f = if ntohl t =? 0 then 1 else 0).
  { unfold ack_number. rewrite bind_get. change (printed c1) with (printed c). rewrite Hpr.
    destruct (ntohl t =? 0).
    - rewrite <- bind_assoc_M, (bind_Done _ _ _ _ _ Hnext), bind_ret, Hq.
      replace (p + 1 + 1) with (p + 2) by lia. rewrite Z.eqb_refl, bind_modify. by eexists.
    - rewrite bind_ret, (bind_Done _ _ _ _ _ Hnext). exists 0. split; [|done]. rewrite <- Hfl. by destruct c. }
  destruct Hack as (f & Hack & Hf). run_step Hack. set (c2 := put_data_flag f c1).
  destruct (advertised_window header W c2 [(p + 1, c_str b)] Hl1 ltac:(cbn; lia)) as [Hw _].
  destruct (Hw ltac:(lia)) as (w & Hwf & Hww). run_step Hwf.
  unfold send_ack. rewrite <- bind_assoc_M, bind_get, Hsend, bind_modify, bind_get. cbn [data_flag put_acks c2 put_data_flag].
  destruct (ntohl t =? 0); subst f; cbn [Z.eqb when]; eexists _, w; (split; [reflexivity|]); by split_and!.
Qed.
End at_client.

(** * Progress *)

Section progress.
Context `{ZeroedAllocator} (header : ptr) (clock : nat → Z * Z) (Q W : Z).
Context (srv_send : list datagram → datagram → bool) (cli_send : list ack_hdr → ack_hdr → bool).
Context (Hsrv : ∀ out d, srv_send out d = true) (Hcli : ∀ l a, cli_send l a = true).
Context (HW : 2 ≤ W ≤ Q) (HW' : W < 256) (HQ : Q ≤ QSIZE_BOUND).
Context (file : string) (epoch : Z) (b0 : list data) (Hb0 : counters_zero b0).
Context (Hclock : ∀ n r, rtt_base r = epoch → rtt_ts (clock n).1 (clock n).2 r ≠ 0).
Context (Hfit : last_chunk file + Q + 2 < INT_MAX).

Abbreviation tstep := (transfer_step header clock Q (htons W) srv_send cli_send).

(** The client takes a datagram, prints it and looks at the flag. *)
Lemma take_steps w p q t b :
  idle header w.2 p → 0 ≤ p → p + 2 ≤ INT_MAX → ntohl q = p + 1 → (q, t, b) ∈ pairs (s_out w.1) →
  (String.length (c_str b) < RECVLINE)%nat →
  ∃ c' u, reach tstep w (w.1, c') ∧ printed c' = p + 1 ∧ ntohs u = W - 1 ∧
    mk_ack (if ntohl t =? 0 then htonl 0 else htonl (p + 2)) t u ∈ acks c' ∧
    (if ntohl t =? 0 then terminated c' = true else idle header c' (p + 1)).
Proof.
  intros Hid Hp Hlim Hq Hin Hlen.
  destruct (receive_run header W cli_send Hcli ltac:(lia) w.2 p q t b Hid Hp Hlim Hq Hlen)
    as (c1 & u & Hnet & Hacks & Hu & Hl1 & Hp1 & Hs1 & Hflag).
  pose proof (list_at_size _ _ _ Hl1) as Hsz. destruct (size (list_heap c1)) as [|fuel] eqn:Hsize; [cbn in Hsz; lia|].
  destruct (print_one header fuel c1 (p + 1) (c_str b) Hl1) as (c2 & Hpr & Hl2 & Hp2 & Ha2 & Hf2 & Hr2); [by rewrite Hp1|lia|lia|].
  set (c2' := put_print_state Checking c2).
  set (c3 := if data_flag c2 =? 1 then put_print_state Finished (put_process_flag 1 c2') else put_print_state Sleeping c2').
  assert (R1 : tstep w (w.1, c1)) by (apply (client_moves _ _ _ _ _ _ w (Net q t b true true)); [by left|done]).
  assert (R2 : tstep (w.1, c1) (w.1, c2')).
  { apply (client_moves _ _ _ _ _ _ (w.1, c1) PrintWakes); [done|]. cbn [snd]. unfold FileClient.step.
    rewrite bind_get, Hs1, Hsize. by run_step Hpr. }
  assert (R3 : tstep (w.1, c2') (w.1, c3)).
  { apply (client_moves _ _ _ _ _ _ (w.1, c2') PrintChecks); [done|]. unfold FileClient.step, c3. cbn. rewrite bind_get. cbn.
    by destruct (data_flag c2 =? 1). }
  exists c3, u. split.
  { eapply reach_step; [eapply reach_step; [eapply reach_step; [constructor|exact R1]|exact R2]|exact R3]. }
  assert (Hin3 : acks c3 = acks c1) by (unfold c3; destruct (data_flag c2 =? 1); exact Ha2).
  assert (Hp3 : printed c3 = p + 1) by (unfold c3; destruct (data_flag c2 =? 1); exact Hp2).
  split; [done|]. split; [done|]. rewrite Hin3, Hacks. split; [apply elem_of_app; right; by apply list_elem_of_singleton|].
  unfold c3. destruct (ntohl t =? 0); destruct Hflag as [Hfl Hrc]; rewrite Hf2, Hfl; cbn.
  - unfold terminated. cbn. by rewrite Hr2, Hrc.
  - split; cbn; [done|done|by rewrite Hf2|by rewrite Hr2].
Qed.

(** How a round ends: the whole file is there and acknowledged, or all its datagrams
    are printed and the last of them is acknowledged. *)
Definition round_over (s : sender) (c : client) : Prop :=
  (announced c ∧ terminated c = true ∧ last_chunk file ≤ printed c) ∨
  (idle header c (s_seqno s) ∧ s_seqno s < last_chunk file ∧
   ∃ t u, ntohs u = W - 1 ∧ mk_ack (htonl (s_seqno s + 1)) t u ∈ acks c).

Lemma deliver_round w0 s l1 l2 c :
  begins header clock Q srv_send file (zero_bytes MAXLINE) b0 epoch w0 → reach tstep w0 (s, c) → round file Q s (l1 ++ l2) → l2 ≠ [] →
  idle header c (s_head s - 1 + Z.of_nat (length l1)) →
  ∃ c', reach tstep w0 (s, c') ∧ round_over s c'.
Proof.
  intros Hb. revert l1 c. induction l2 as [|x l2 IH]; intros l1 c Hr Hro Hne Hid; [done|].
  pose proof (ro_window _ _ _ _ Hro) as (_ & Hh & _ & Hn & Hseq). rewrite length_app in Hn. cbn in Hn.
  pose proof (last_chunk_pos file).
  destruct (reach_world header clock Q (htons W) srv_send cli_send file (zero_bytes MAXLINE) b0 epoch (last_chunk file) w0 (s, c) Hb
    Hb0 ltac:(lia) ltac:(by right) Hr) as ([C _] & Hlim & _). cbn [fst snd] in *. unfold INT_MAX in Hlim.
  assert (Hx : CirQueue.seq x = s_head s + Z.of_nat (length l1)).
  { apply Hseq. by rewrite lookup_app_r, Nat.sub_diag by lia. }
  pose proof (se_pairs _ _ _ (ro_sent _ _ _ _ Hro) x ltac:(apply elem_of_app; right; by left)) as Hin.
  pose proof (co_out _ _ _ _ _ _ _ _ _ _ _ _ _ _ _ _ C) as Hout. rewrite Forall_forall in Hout.
  destruct (Hout _ Hin) as (_ & Hc & Hts).
  rewrite (ntohl_htonl (CirQueue.seq x)), (u32_small (CirQueue.seq x)) in Hc, Hts by lia.
  destruct (take_steps (s, c) _ (htonl (CirQueue.seq x)) (htonl (ts x)) (sendline x) Hid)
    as (c' & u & Hreach & Hp & Hu & Hack & Hend); [lia|unfold INT_MAX; lia|rewrite ntohl_htonl, u32_small; lia|done| |].
  { rewrite Hc. by apply piece_short. }
  pose proof (reach_trans _ _ _ _ Hr Hreach) as Hr'. destruct (Z.eqb_spec (ntohl (htonl (ts x))) 0) as [Hz|Hnz].
  - exists c'. split; [done|]. left. specialize (Hts Hz). split; [|split; [done|lia]].
    eexists. split; [exact Hack|]. cbn [a_seq]. by rewrite ntohl_htonl.
  - destruct l2 as [|y l2].
    + exists c'. split; [done|]. right. cbn in Hn.
      replace (s_head s - 1 + Z.of_nat (length l1) + 1) with (s_seqno s) in Hend by lia.
      replace (s_head s - 1 + Z.of_nat (length l1) + 2) with (s_seqno s + 1) in Hack by lia.
      split; [done|]. split; [|by eexists _, _].
      destruct (decide (last_chunk file ≤ CirQueue.seq x)) as [Hl|]; [|lia]. exfalso. apply Hnz.
      rewrite (se_end _ _ _ (ro_sent _ _ _ _ Hro) x ltac:(apply elem_of_app; right; by left) Hl), ntohl_htonl. done.
    + apply (IH (l1 ++ [x]) c'); [done|by rewrite <- (app_assoc l1 [x])|done|].
      rewrite length_app. cbn [length]. replace (s_head s - 1 + Z.of_nat (length l1 + 1)) with
        (s_head s - 1 + Z.of_nat (length l1) + 1) by lia. done.
Qed.

(** From the beginning of a round, the transfer can be completed. *)
Lemma rounds_complete n w0 s l c :
  begins header clock Q srv_send file (zero_bytes MAXLINE) b0 epoch w0 → reach tstep w0 (s, c) → round file Q s l →
  idle header c (s_head s - 1) → last_chunk file - s_head s < Z.of_nat n → s_head s ≤ last_chunk file →
  ∃ w, reach tstep w0 w ∧ s_phase w.1 = Ended ∧ LastInt ∈ s_out w.1 ∧ terminated w.2 = true ∧
       last_chunk file ≤ printed w.2.
Proof.
  intros Hb. revert s l c. induction n as [|n IH]; intros s l c Hr Hro Hid Hn Hhead; [lia|].
  pose proof (ro_window _ _ _ _ Hro) as ((Hwf & Hlen & _) & Hh & _ & Hsn & _).
  pose proof (q_len_range _ Hwf) as Hq. rewrite (fe_size _ _ _ (ro_fed _ _ _ _ Hro)) in Hq.
  destruct (deliver_round w0 s [] l c Hb Hr Hro (ro_some _ _ _ _ Hro)) as (c' & Hr' & Hover).
  { cbn. by rewrite Z.add_0_r. }
  destruct Hover as [((a & Ha & Hz) & Hterm & Hp)|(Hid' & Hlt & t & u & Hu & Ha)].
  - destruct (end_run file clock Q srv_send Hsrv s l (a_seq a) (a_ts a) (a_window a) Hro ltac:(lia) Hz)
      as (s' & Hrun & Hend & Hn' & Hlast).
    exists (s', c'). split; [|done]. eapply reach_step; [exact Hr'|].
    apply (server_moves _ _ _ _ _ _ (s, c') (Ack (a_seq a) (a_ts a) (a_window a))); [by destruct a|done|lia].
  - destruct (ack_run file clock Q srv_send Hsrv s l t u Hro ltac:(lia) ltac:(lia)) as (s' & l' & Hrun & Hro' & Hh' & Hlen').
    pose proof (ro_window _ _ _ _ Hro') as (_ & _ & _ & Hsn' & _). pose proof (ro_some _ _ _ _ Hro') as Hne'.
    assert (0 < length l')%nat by (destruct l'; [done|cbn; lia]).
    assert (0 < length l)%nat by (pose proof (ro_some _ _ _ _ Hro); destruct l; [done|cbn; lia]).
    apply (IH s' l' c'); [|done| |lia|lia].
    + eapply reach_step; [exact Hr'|].
      apply (server_moves _ _ _ _ _ _ (s, c') (Ack (htonl (s_seqno s + 1)) t u)); [done|done|lia].
    + replace (s_head s' - 1) with (s_seqno s) by lia. done.
Qed.

(** From the start of a transfer with a receive buffer of 2 to 255 datagrams that is not
    larger than the send window, over a network that loses nothing, there is a run after
    which the sender has ended, both threads of the client are through and the file is
    printed. *)
Lemma events_progress s0 h :
  ready file (zero_bytes MAXLINE) epoch clock s0 → ack (s_copy s0) = 0 → 1 ≤ s_recv_window s0 →
  Z.of_nat (length b0) = Q → list_at h header [] →
  ∃ s1 w n, begin_transfer clock Q srv_send (Some b0) s0 = Done tt s1 ∧
    begins header clock Q srv_send file (zero_bytes MAXLINE) b0 epoch (s1, FileClient.started h) ∧
    reach tstep (s1, FileClient.started h) w ∧
    s_phase w.1 = Ended ∧ LastInt ∈ s_out w.1 ∧ terminated w.2 = true ∧
    stdout w.2 = text (piece file (zero_bytes MAXLINE)) n ∧ last_chunk file ≤ Z.of_nat n.
Proof.
  intros Hready Hca Hw Hlen Hh. pose proof (last_chunk_pos file). pose proof HQ as HQ'. unfold QSIZE_BOUND in HQ'.
  destruct (begin_run file clock Q srv_send Hsrv b0 epoch s0 Hready Hca Hlen Hb0 ltac:(lia) Hw)
    as (s1 & l & Hrun & Hro & Hhd & Hll).
  pose proof (ro_window _ _ _ _ Hro) as (_ & _ & _ & Hsn & _).
  assert (Hb : begins header clock Q srv_send file (zero_bytes MAXLINE) b0 epoch (s1, FileClient.started h)).
  { split; [vm_compute; reflexivity|lia|done|by exists s0|unfold INT_MAX; cbn; lia|by exists h]. }
  destruct (rounds_complete (Z.to_nat (last_chunk file)) (s1, FileClient.started h) s1 l (FileClient.started h) Hb)
    as (w & Hr & Hend & Hlast & Hterm & Hp); [constructor|done| |lia|lia|].
  { rewrite Hhd. by split. }
  exists s1, w, (Z.to_nat (printed w.2)). split_and!; [done..| |].
  - by apply (events_prefix header clock Q (htons W) srv_send cli_send file (zero_bytes MAXLINE) b0 epoch _ w Hb Hb0 Hr).
  - lia.
Qed.
End progress.
