(* ===== verification/FileWire.v ===== *)
(** The transfer of a file in Assignment 2 on single datagrams: server.c and the two
    threads of client.c over a network that loses, repeats, delays and reorders each
    datagram on its own, with memory that contains anything.

    A step is a step of FileServer or of FileDatagrams.  The two ways in which it can go
    wrong are named here ([goes_wrong]: header and data get out of step, a list node with
    garbage in [next]).  Up to there every run is one of FileTransfer, which takes a header
    and its data at once and has [malloc] return zeros, and the other way round; what is
    shown there carries over. *)

From S2P Require Export FileTypes FileDatagrams FileProgress.

(** * The network *)

(** The bytes of a message.  The third field of a header of the server is not used. *)
Definition on_wire (d : datagram) (bytes : list Z) : Prop :=
  match d with
  | Hdr q t => ∃ w, bytes = enc_hdr q t w
  | Data b => bytes = str_bytes b
  | PortFrom _ _ | LastInt => length bytes = 4%nat
  end.

(** [e] is a step of the printing thread, or the arrival of a message [x] that was sent. *)
Definition delivers (out : list datagram) (x : option datagram) (e : dgram_event) : Prop :=
  match x, e with
  | Some d, Dgram bytes _ _ => d ∈ out ∧ on_wire d bytes
  | None, Wakes | None, Checks => True
  | _, _ => False
  end.

Section wire.
Context `{Allocator} (header : ptr).
Context (clock : nat → Z * Z) (Q recv_window : Z).
Context (srv_send : list datagram → datagram → bool) (cli_send : list ack_hdr → ack_hdr → bool).

Abbreviation client_step := (dgram_step header recv_window cli_send).

(** The client waits for a header and gets something else, or it waits for the data of a
    header and gets something else. *)
Definition misread (out : list datagram) (x : option datagram) (c : dclient) : bool :=
  match x, recv_at c with
  | Some (Hdr _ _), AtHeader => false
  | Some _, AtHeader => true
  | Some (Data b), AtData => negb (bool_decide ((hdr_seq (recv_hdr c), hdr_ts (recv_hdr c), b) ∈ pairs out))
  | Some _, AtData => true
  | _, _ => false
  end.

(** The two ways in which a step of the client goes wrong. *)
Definition goes_wrong (out : list datagram) (x : option datagram) (e : dgram_event) (c : dclient) : bool :=
  misread out x c || stale_at e c.

(** A step of the transfer that does not go wrong. *)
Inductive wire_step (w : sender * dclient) : sender * dclient → Prop :=
  | wire_server i s' :
      reaches_server (acks (inner w.2)) i →
      FileServer.step clock Q srv_send i w.1 = Done tt s' → s_seqno s' < INT_MAX →
      wire_step w (s', w.2)
  | wire_client x e c' :
      delivers (s_out w.1) x e → goes_wrong (s_out w.1) x e w.2 = false →
      client_step e w.2 = Done tt c' →
      wire_step w (w.1, c').

(** The programs enter their loops: the header of the client has any contents, the
    variables of the server any of their types. *)
Record wire_begins (file junk : string) (b : list data) (epoch : Z) (w : sender * dclient) : Prop := {
  wb_begins : begins header clock Q srv_send file junk b epoch (w.1, inner w.2);
  wb_typed : sender_typed Q w.1;
  wb_header : length (recv_hdr w.2) = sizeof_hdr;
  wb_at : recv_at w.2 = AtHeader
}.
End wire.

(** * Messages and their bytes *)

Lemma text_of_bytes s : text_of (str_bytes s) = s.
Proof. induction s as [|c s IH]; [done|]. unfold text_of in *. cbn. by rewrite byte_char_byte, IH. Qed.

Lemma pairs_in out q t b : (q, t, b) ∈ pairs out → Hdr q t ∈ out ∧ Data b ∈ out.
Proof.
  induction out as [|d out IH]; [by intros ?%not_elem_of_nil|]. cbn [pairs]. intros Hin.
  assert (Hrest : (q, t, b) ∈ pairs out → Hdr q t ∈ d :: out ∧ Data b ∈ d :: out).
  { intros Hp. destruct (IH Hp). split; by right. }
  destruct d as [|q' t'|b'|]; try by apply Hrest. destruct out as [|[|? ?|b'|] out]; try by apply Hrest.
  apply elem_of_cons in Hin as [[= -> -> ->]|Hin]; [|by apply Hrest]. split; [by left|right; by left].
Qed.

Lemma sent_hdr Q s q t : sender_typed Q s → Hdr q t ∈ s_out s → 0 ≤ q < 2 ^ 32 ∧ 0 ≤ t < 2 ^ 32.
Proof. intros Hty Hin. pose proof (st_out _ _ Hty) as Hout. rewrite Forall_forall in Hout. exact (Hout _ Hin). Qed.

Lemma sent_data Q s b : sender_typed Q s → Data b ∈ s_out s → length (str_bytes b) = 4096%nat.
Proof.
  intros Hty Hin. pose proof (st_out _ _ Hty) as Hout. rewrite Forall_forall in Hout.
  rewrite length_str_bytes. exact (Hout _ Hin).
Qed.

(** * The client's loop *)

(** Where the client is, and what it has read. *)
Definition in_phase (c : dclient) : Prop :=
  length (recv_hdr c) = sizeof_hdr ∧
  match recv_at c with
  | AtHeader => receiving (inner c) = true
  | AtData => receiving (inner c) = true ∧ (ntohl (hdr_seq (recv_hdr c)) =? 0) = false
  | AtEnd | Closing => receiving (inner c) = false
  end.

Section phases.
Context `{Allocator} (header : ptr).
Context (clock : nat → Z * Z) (Q recv_window : Z).
Context (srv_send : list datagram → datagram → bool) (cli_send : list ack_hdr → ack_hdr → bool).

Abbreviation client_step := (dgram_step header recv_window cli_send).
Abbreviation event_step := (FileClient.step header recv_window cli_send).
Abbreviation tstep := (transfer_step header clock Q recv_window srv_send cli_send).

(** A step of the client on datagrams is none or one on events that can arrive. *)
Definition as_event (s : sender) (c : dclient) (r : res dclient unit) : Prop :=
  match r with
  | Done _ c' => in_phase c' ∧ reach tstep (s, inner c) (s, inner c')
  | Exited _ _ => True
  | Undefined u => ∃ ev, reaches_client (s_out s) ev ∧ event_step ev (inner c) = Undefined u
  end.

Lemma one_event s c ev c1 :
  reaches_client (s_out s) ev → event_step ev c = Done tt c1 → reach tstep (s, c) (s, c1).
Proof.
  intros He Hrun. eapply reach_step; [apply reach_refl|]. by apply (client_moves _ _ _ _ _ _ (s, c) ev).
Qed.

Lemma print_as_event s c e :
  e = Wakes ∨ e = Checks → in_phase c → as_event s c (client_step e c).
Proof.
  intros He [Hh Hat].
  assert (Hev : ∃ ev, ((e = Wakes ∧ ev = PrintWakes) ∨ (e = Checks ∧ ev = PrintChecks)) ∧ reaches_client (s_out s) ev).
  { destruct He as [-> | ->]; [exists PrintWakes|exists PrintChecks]; (split; [auto|done]). }
  destruct Hev as (ev & Hpair & Hreach).
  pose proof (print_step_run header recv_window cli_send e ev c Hpair) as Hrun.
  destruct (event_step ev (inner c)) as [[] c1|k c1|u] eqn:Hstep; [|by rewrite Hrun|rewrite Hrun; by exists ev].
  destruct Hrun as [-> Hrec]. cbn [as_event]. split; [|by eapply one_event].
  split; [done|]. cbn. rewrite Hrec. exact Hat.
Qed.

Lemma header_as_event s c q t w i o :
  sender_typed Q s → Hdr q t ∈ s_out s → in_phase c → recv_at c = AtHeader →
  as_event s c (client_step (Dgram (enc_hdr q t w) i o) c).
Proof.
  intros Hty Hin [Hh Hrec] Hat. rewrite Hat in Hrec. destruct (sent_hdr _ _ _ _ Hty Hin) as [Hq Ht].
  pose proof (header_run header recv_window cli_send (enc_hdr q t w) i o c Hrec Hat) as Hrun. cbn zeta in Hrun.
  rewrite recv_enc_hdr, hdr_seq_enc, hdr_ts_enc in Hrun by done.
  destruct (Z.eqb_spec (ntohl q) 0) as [Hz|Hz].
  - assert (Hev : reaches_client (s_out s) (Net q t EmptyString i o)) by (by right).
    destruct (event_step _ (inner c)) as [[] c1|k c1|u] eqn:Hstep; [|by rewrite Hrun|rewrite Hrun; by eexists].
    destruct Hrun as [-> Hrc]. cbn [as_event]. split; [|by eapply one_event].
    split; [apply length_hdr_bytes|exact Hrc].
  - rewrite Hrun. cbn [as_event]. split; [|apply reach_refl]. split; [apply length_hdr_bytes|]. cbn [recv_at recv_hdr inner].
    rewrite hdr_seq_enc by done. split; [done|]. by apply Z.eqb_neq.
Qed.

Lemma data_as_event s c b i o :
  sender_typed Q s → (hdr_seq (recv_hdr c), hdr_ts (recv_hdr c), b) ∈ pairs (s_out s) → in_phase c → recv_at c = AtData →
  as_event s c (client_step (Dgram (str_bytes b) i o) c).
Proof.
  intros Hty Hin [Hh Hrec] Hat. rewrite Hat in Hrec. destruct Hrec as [Hrec Hz].
  pose proof (sent_data Q s b Hty (proj2 (pairs_in _ _ _ _ Hin))) as Hlen.
  pose proof (body_run header recv_window cli_send (str_bytes b) i o c Hrec Hat Hz ltac:(rewrite Hlen; done)) as Hrun.
  rewrite text_of_bytes in Hrun.
  assert (Hev : reaches_client (s_out s) (Net (hdr_seq (recv_hdr c)) (hdr_ts (recv_hdr c)) b i o)) by (by left).
  destruct (event_step _ (inner c)) as [[] c1|k c1|u] eqn:Hstep; [|by rewrite Hrun|rewrite Hrun; by eexists].
  rewrite Hrun. cbn [as_event]. split; [|by eapply one_event].
  split; [exact Hh|]. cbn. by destruct (receiving c1) eqn:Hr.
Qed.

Lemma client_as_event s c x e :
  sender_typed Q s → delivers (s_out s) x e → misread (s_out s) x c = false → in_phase c →
  as_event s c (client_step e c).
Proof.
  intros Hty He Hm Hin. destruct x as [d|].
  2:{ apply print_as_event; [|done]. destruct e; try done; auto. }
  destruct e as [bytes i o| | |]; [|done..]. destruct He as [Hout Hw]. pose proof Hin as [Hh Hat].
  unfold misread in Hm. destruct (recv_at c) eqn:Hc.
  - destruct d; try done. destruct Hw as [w ->]. by apply header_as_event.
  - destruct d as [|? ?|b|]; try done. rewrite Hw. apply negb_false_iff, bool_decide_eq_true in Hm.
    by apply data_as_event.
  - unfold dgram_step. rewrite bind_get, Hc. cbn [as_event]. split; [by split|apply reach_refl].
  - unfold dgram_step. rewrite bind_get, Hc. cbn [as_event]. split; [split; [done|by rewrite Hc]|apply reach_refl].
Qed.
End phases.

(** * Runs *)

Section runs.
Context `{A : Allocator} (header : ptr).
Context (clock : nat → Z * Z) (Q recv_window : Z).
Context (srv_send : list datagram → datagram → bool) (cli_send : list ack_hdr → ack_hdr → bool).

Abbreviation wstep := (wire_step header clock Q recv_window srv_send cli_send).
Abbreviation begun := (wire_begins header clock Q srv_send).
Abbreviation zstep := (@transfer_step (zeroed A) header clock Q recv_window srv_send cli_send).

(** What a run on datagrams has in common with one on events. *)
Definition follows (w0 w : sender * dclient) : Prop :=
  in_phase w.2 ∧ sender_typed Q w.1 ∧ reach zstep (w0.1, inner w0.2) (w.1, inner w.2).

Lemma begun_window file junk b epoch w0 : begun file junk b epoch w0 → 0 < Q ≤ INT_MAX.
Proof. intros [[_ HQ _ _ _ _] _ _ _]. unfold QSIZE_BOUND, INT_MAX in *. lia. Qed.

Lemma begun_follows file junk b epoch w0 : begun file junk b epoch w0 → follows w0 w0.
Proof.
  intros [[_ _ _ _ _ (h & _ & Hc)] Hty Hh Hat]. cbn in Hc. split; [|split; [done|apply reach_refl]].
  split; [done|]. by rewrite Hat, Hc.
Qed.

(** A client step that does not go wrong is one of an allocator that returns zeros. *)
Lemma client_follows s c x e :
  sender_typed Q s → in_phase c → delivers (s_out s) x e → goes_wrong (s_out s) x e c = false →
  @as_event (zeroed A) header clock Q recv_window srv_send cli_send s c (dgram_step header recv_window cli_send e c).
Proof.
  intros Hty Hin He [Hm Hs]%orb_false_iff. rewrite (dgram_step_zeroed header recv_window cli_send e c Hs).
  by apply (client_as_event (H := zeroed A) _ _ _ _ _ _ _ _ x).
Qed.

Lemma step_follows w0 w w' : 0 < Q ≤ INT_MAX → follows w0 w → wstep w w' → follows w0 w'.
Proof.
  intros HQ (Hin & Hty & Hz) Hstep. destruct Hstep as [i s' Hi Hrun Hn|x e c' He Hg Hrun]; cbn [fst snd] in *.
  - split; [done|]. split; [exact (preserves_Done _ _ _ tt s' (keeps_step clock Q srv_send HQ i) Hty Hrun)|].
    eapply reach_step; [exact Hz|]. by apply (server_moves _ _ _ _ _ _ (w.1, inner w.2) i).
  - pose proof (client_follows w.1 w.2 x e Hty Hin He Hg) as Hev. rewrite Hrun in Hev. destruct Hev as [Hin' Hz'].
    split; [done|]. split; [done|]. by eapply reach_trans.
Qed.

Lemma run_follows file junk b epoch w0 w : begun file junk b epoch w0 → reach wstep w0 w → follows w0 w.
Proof.
  intros Hb. apply reach_invariant; [by eapply begun_follows|]. intros x y. apply step_follows.
  by eapply begun_window.
Qed.


End runs.

(** * Events as datagrams *)

Section lifting.
Context `{ZeroedAllocator} (header : ptr).
Context (clock : nat → Z * Z) (Q recv_window : Z).
Context (srv_send : list datagram → datagram → bool) (cli_send : list ack_hdr → ack_hdr → bool).
Context (HQ : 0 < Q ≤ INT_MAX).

Abbreviation client_step := (dgram_step header recv_window cli_send).
Abbreviation event_step := (FileClient.step header recv_window cli_send).
Abbreviation tstep := (transfer_step header clock Q recv_window srv_send cli_send).
Abbreviation wstep := (wire_step header clock Q recv_window srv_send cli_send).

(** The client is not between a header and its data. *)
Definition between (c : dclient) : Prop := in_phase c ∧ recv_at c ≠ AtData.

Lemma between_receiving c : between c → receiving (inner c) = true → recv_at c = AtHeader.
Proof. intros [[_ Hat] Hne] Hr. destruct (recv_at c); congruence. Qed.

Lemma reach_one s c x e c' :
  delivers (s_out s) x e → misread (s_out s) x c = false → client_step e c = Done tt c' →
  reach wstep (s, c) (s, c').
Proof.
  intros He Hm Hrun. eapply reach_step; [apply reach_refl|]. apply (wire_client _ _ _ _ _ _ (s, c) x e); [done| |done].
  unfold goes_wrong. cbn [fst snd]. by rewrite Hm, never_stale.
Qed.

Lemma hdr_delivers out q t w i o : Hdr q t ∈ out → delivers out (Some (Hdr q t)) (Dgram (enc_hdr q t w) i o).
Proof. intros Hin. split; [done|]. by exists w. Qed.

Lemma header_read out q t c : recv_at c = AtHeader → misread out (Some (Hdr q t)) c = false.
Proof. unfold misread. by intros ->. Qed.

(** A header alone. *)
Lemma probe_lifts s c q t b i o c1 :
  sender_typed Q s → between c → Hdr q t ∈ s_out s → receiving (inner c) = true → ntohl q = 0 →
  event_step (Net q t b i o) (inner c) = Done tt c1 →
  ∃ c', reach wstep (s, c) (s, c') ∧ inner c' = c1 ∧ between c'.
Proof.
  intros Hty Hb Hin Hr Hz Hrun. pose proof (between_receiving c Hb Hr) as Hat. destruct Hb as [[Hh _] _].
  destruct (sent_hdr _ _ _ _ Hty Hin) as [Hq Ht].
  pose proof (header_run header recv_window cli_send (enc_hdr q t 0) i o c Hr Hat) as Hd. cbn zeta in Hd.
  rewrite recv_enc_hdr, hdr_seq_enc, hdr_ts_enc, Hz in Hd by done. cbn [Z.eqb] in Hd.
  assert (Hsame : event_step (Net q t EmptyString i o) (inner c) = Done tt c1).
  { rewrite <- Hrun. unfold FileClient.step. by rewrite !bind_get, Hr, Hz. }
  rewrite Hsame in Hd. destruct Hd as [Hd Hr']. exists (mk_dclient c1 (enc_hdr q t 0) AtHeader). split; [|split; [reflexivity|]].
  - apply (reach_one _ _ (Some (Hdr q t)) _ _ (hdr_delivers _ _ _ _ _ _ ltac:(eassumption)) (header_read _ _ _ _ Hat) Hd).
  - split; [|done]. split; [apply length_hdr_bytes|exact Hr'].
Qed.

(** A header and its data. *)
Lemma pair_lifts s c q t b i o c1 :
  sender_typed Q s → between c → (q, t, b) ∈ pairs (s_out s) → receiving (inner c) = true → ntohl q ≠ 0 →
  event_step (Net q t b i o) (inner c) = Done tt c1 →
  ∃ c', reach wstep (s, c) (s, c') ∧ inner c' = c1 ∧ between c'.
Proof.
  intros Hty Hb Hin Hr Hz%Z.eqb_neq Hrun. pose proof (between_receiving c Hb Hr) as Hat. destruct Hb as [[Hh _] _].
  destruct (pairs_in _ _ _ _ Hin) as [Hhdr Hdata]. destruct (sent_hdr _ _ _ _ Hty Hhdr) as [Hq Ht].
  pose proof (sent_data _ _ _ Hty Hdata) as Hlen.
  pose proof (header_run header recv_window cli_send (enc_hdr q t 0) i o c Hr Hat) as Hd. cbn zeta in Hd.
  rewrite recv_enc_hdr, hdr_seq_enc, Hz in Hd by done.
  set (c2 := mk_dclient (inner c) (enc_hdr q t 0) AtData) in Hd.
  pose proof (body_run header recv_window cli_send (str_bytes b) i o c2 Hr eq_refl) as Hd2.
  cbn [recv_hdr inner c2] in Hd2. rewrite hdr_seq_enc, hdr_ts_enc, text_of_bytes, Hrun in Hd2 by done.
  specialize (Hd2 Hz ltac:(rewrite Hlen; done)).
  assert (Hread : misread (s_out s) (Some (Data b)) c2 = false).
  { unfold misread, c2. cbn [recv_at recv_hdr]. rewrite hdr_seq_enc, hdr_ts_enc by done.
    apply negb_false_iff, bool_decide_eq_true. exact Hin. }
  exists (mk_dclient c1 (enc_hdr q t 0) (if receiving c1 then AtHeader else AtEnd)). split; [|split; [reflexivity|]].
  - eapply reach_trans.
    + apply (reach_one _ _ (Some (Hdr q t)) _ _ (hdr_delivers _ _ _ _ _ _ ltac:(eassumption)) (header_read _ _ _ _ Hat) Hd).
    + apply (reach_one _ _ (Some (Data b)) (Dgram (str_bytes b) i o) _ (conj Hdata eq_refl) Hread Hd2).
  - split; [split; [apply length_hdr_bytes|]|]; cbn; by destruct (receiving c1).
Qed.

Lemma event_lifts s c e c1 :
  sender_typed Q s → between c → reaches_client (s_out s) e → event_step e (inner c) = Done tt c1 →
  ∃ c', reach wstep (s, c) (s, c') ∧ inner c' = c1 ∧ between c'.
Proof.
  intros Hty Hb He Hrun.
  assert (Hprint : ∀ p, ((p = Wakes ∧ e = PrintWakes) ∨ (p = Checks ∧ e = PrintChecks)) →
    ∃ c', reach wstep (s, c) (s, c') ∧ inner c' = c1 ∧ between c').
  { intros p Hp. pose proof (print_step_run header recv_window cli_send p e c Hp) as Hd. rewrite Hrun in Hd.
    destruct Hd as [Hd Hr]. assert (Hdel : delivers (s_out s) None p) by (by destruct Hp as [[-> _]|[-> _]]).
    exists (put_inner c1 c). split; [|split; [done|]].
    - apply (reach_one s c None p _ Hdel eq_refl Hd).
    - destruct Hb as [[Hh Hat] Hne]. split; [|done]. split; [done|]. cbn. by rewrite Hr. }
  destruct e as [q t b i o| | |]; [|destruct (receiving (inner c)) eqn:Hr|by apply (Hprint Wakes); auto|by apply (Hprint Checks); auto].
  - destruct (receiving (inner c)) eqn:Hr.
    2:{ rewrite late_net in Hrun by done. injection Hrun as <-. exists c. split; [apply reach_refl|done]. }
    destruct (decide (ntohl q = 0)) as [Hz|Hz].
    + apply (probe_lifts s c q t b i o); try done. by destruct He as [Hp%pairs_in|[_ ?]]; [destruct Hp|].
    + apply (pair_lifts s c q t b i o); try done. by destruct He as [?|[? _]].
  - unfold FileClient.step in Hrun. rewrite bind_get, Hr in Hrun. done.
  - unfold FileClient.step in Hrun. rewrite bind_get, Hr in Hrun. injection Hrun as <-. exists c. split; [apply reach_refl|done].
Qed.

(** Every run on events is one on datagrams. *)
Lemma run_lifts s0 c0 v :
  sender_typed Q s0 → between c0 → reach tstep (s0, inner c0) v →
  ∃ c, reach wstep (s0, c0) (v.1, c) ∧ inner c = v.2 ∧ between c ∧ sender_typed Q v.1.
Proof.
  intros Hty Hb Hr. induction Hr as [|v v' _ (c & Hw & Hc & Hbc & Htv) Hstep].
  - exists c0. split_and!; [apply reach_refl|done..].
  - destruct Hstep as [i s' Hi Hrun Hn|e c1 He Hrun].
    + exists c. split; [|split; [done|split; [done|]]].
      * eapply reach_step; [exact Hw|]. apply (wire_server _ _ _ _ _ _ (v.1, c) i); [by rewrite <- Hc in Hi|done..].
      * exact (preserves_Done _ _ _ tt s' (keeps_step clock Q srv_send HQ i) Htv Hrun).
    + rewrite <- Hc in Hrun. destruct (event_lifts v.1 c e c1 Htv Hbc He Hrun) as (c' & Hr' & Hc' & Hb').
      exists c'. split; [by eapply reach_trans|done].
Qed.

(** The last datagram lets the main thread out of its loop. *)
Lemma last_int_lifts s c :
  between c → receiving (inner c) = false → LastInt ∈ s_out s →
  ∃ c', reach wstep (s, c) (s, c') ∧ inner c' = inner c ∧ recv_at c' = Closing.
Proof.
  intros [[_ Hat] Hne] Hr Hin. exists (put_recv_at Closing c). split; [|done].
  apply (reach_one s c (Some LastInt) (Dgram [0; 0; 0; 0] true true) _ (conj Hin eq_refl)).
  { unfold misread. destruct (recv_at c); [congruence|done..]. }
  unfold dgram_step. rewrite bind_get. destruct (recv_at c) eqn:Hc; [congruence|done|done|].
  f_equal. destruct c. cbn in *. by subst.
Qed.
End lifting.

(** Both threads of the client are through their last loops. *)
Definition client_over (c : dclient) : bool :=
  match recv_at c with Closing => process_flag (inner c) =? 1 | _ => false end.

(** C3: Every file without NUL bytes gets through, on single datagrams.  From any state
    before the transmission starts, with memory that reads as zeros where the code relies on
    it (localcopy, the counters of the queue block and the nodes of the receive list), a
    receive buffer of 2 to 255 datagrams that is not larger than the send window, successful
    sends and time stamps that are not 0 by accident, there is a run of the transfer (a
    schedule over a network that loses nothing) after which the sender has ended, both
    threads of the client are through, the last integer of the server included, and
    exactly the file is printed.  No step of it is undefined, gives up or goes wrong. *)
Theorem every_file_gets_through (header : ptr) (h : heap) (hdr : list Z)
    (clock : nat → Z * Z) (Q W : Z) (srv_send : list datagram → datagram → bool) (cli_send : list ack_hdr → ack_hdr → bool)
    (file : string) (epoch : Z) (b : list data) (s0 : sender)
    (Hsrv : ∀ out d, srv_send out d = true) (Hcli : ∀ l a, cli_send l a = true)
    (HW : 2 ≤ W ≤ Q) (HW' : W < 256) (HQ : Q ≤ QSIZE_BOUND)
    (Hfile : no_nul file = true) (Hfit : last_chunk file + Q + 2 < INT_MAX)
    (Hclock : ∀ n r, rtt_base r = epoch → rtt_ts (clock n).1 (clock n).2 r ≠ 0)
    (Hblock : Z.of_nat (length b) = Q) (Hcounters : counters_zero b)
    (Hready : ready file (zero_bytes MAXLINE) epoch clock s0) (Hcopy : ack (s_copy s0) = 0) (Hopen : 1 ≤ s_recv_window s0)
    (Htyped : sender_typed Q (put_queue (mk_queue (Some b) 0 0 Q) s0))
    (Hlist : list_at h header []) (Hhdr : length hdr = sizeof_hdr) :
  ∃ s1 w, begin_transfer clock Q srv_send (Some b) s0 = Done tt s1 ∧
    reach (@wire_step zero_alloc header clock Q (htons W) srv_send cli_send)
      (s1, mk_dclient (FileClient.started h) hdr AtHeader) w ∧
    s_phase w.1 = Ended ∧ client_over w.2 = true ∧ stdout (inner w.2) = file.
Proof.
  destruct (@events_progress zero_alloc _ header clock Q W srv_send cli_send Hsrv Hcli HW HW' HQ file epoch b Hcounters
    Hclock Hfit s0 h Hready Hcopy Hopen Hblock Hlist) as (s1 & v & n & Hrun & _ & Hr & Hend & Hlast & Hterm & Hout & Hn).
  assert (HQ' : 0 < Q ≤ INT_MAX) by (unfold QSIZE_BOUND, INT_MAX in *; lia).
  pose proof (wpx_Done _ _ _ _ _ _ _ (begin_typed clock Q srv_send b s0 HQ' Htyped) Hrun) as Hty. cbv beta in Hty.
  set (c0 := mk_dclient (FileClient.started h) hdr AtHeader) in *.
  assert (Hb0 : between c0) by (by split; [split|]).
  destruct (@run_lifts zero_alloc _ header clock Q (htons W) srv_send cli_send HQ' s1 c0 v Hty Hb0 Hr)
    as (c & Hw & Hc & Hb & _).
  unfold terminated in Hterm. apply andb_true_iff in Hterm as [Hrecv%negb_true_iff Hflag].
  rewrite <- Hc in Hrecv, Hflag, Hout.
  destruct (@last_int_lifts zero_alloc _ header clock Q (htons W) srv_send cli_send v.1 c Hb Hrecv Hlast)
    as (c' & Hw' & Hc' & Hat).
  exists s1, (v.1, c'). split; [done|]. split; [by eapply reach_trans|]. split; [done|]. cbn. unfold client_over.
  rewrite Hat, Hc'. split; [done|]. rewrite Hout, (text_ext _ (chunk file)) by (intros k; by apply piece_chunk).
  by apply text_all.
Qed.

(** * A run *)

Definition bytes_of (d : datagram) : list Z :=
  match d with Hdr q t => enc_hdr q t 0 | Data b => str_bytes b | PortFrom _ _ | LastInt => [0; 0; 0; 0] end.

(** The acknowledgement [n] reaches the server; the message [n] of the server reaches the
    client; the printing thread takes a step. *)
Inductive move := Acked (n : nat) | Taken (n : nat) | Prints (checks : bool).

Section moves.
Context `{Allocator} (header : ptr).
Context (clock : nat → Z * Z) (Q recv_window : Z).
Context (srv_send : list datagram → datagram → bool) (cli_send : list ack_hdr → ack_hdr → bool).
Abbreviation wstep := (wire_step header clock Q recv_window srv_send cli_send).

Definition client_move (x : option datagram) (e : dgram_event) (w : sender * dclient) : option (sender * dclient) :=
  if goes_wrong (s_out w.1) x e w.2 then None
  else match dgram_step header recv_window cli_send e w.2 with Done _ c => Some (w.1, c) | _ => None end.

Definition move_run (m : move) (w : sender * dclient) : option (sender * dclient) :=
  match m with
  | Acked n =>
      a ← acks (inner w.2) !! n;
      match FileServer.step clock Q srv_send (Ack (a_seq a) (a_ts a) (a_window a)) w.1 with
      | Done _ s => if s_seqno s <? INT_MAX then Some (s, w.2) else None
      | _ => None
      end
  | Taken n => d ← s_out w.1 !! n; client_move (Some d) (Dgram (bytes_of d) true true) w
  | Prints checks => client_move None (if checks then Checks else Wakes) w
  end.

Fixpoint moves_run (ms : list move) (w : sender * dclient) : option (sender * dclient) :=
  match ms with [] => Some w | m :: ms' => w' ← move_run m w; moves_run ms' w' end.

Lemma client_move_step x e w w' : delivers (s_out w.1) x e → client_move x e w = Some w' → wstep w w'.
Proof.
  unfold client_move. intros He Hrun. destruct (goes_wrong (s_out w.1) x e w.2) eqn:Hg; [done|].
  destruct (dgram_step _ _ _ _ _) as [[] c| |] eqn:Hs; [|done..]. injection Hrun as <-. by eapply wire_client.
Qed.

Lemma move_run_step m w w' : move_run m w = Some w' → wstep w w'.
Proof.
  destruct m as [n|n|checks]; cbn [move_run]; [..|apply client_move_step; by destruct checks].
  - destruct (acks (inner w.2) !! n) as [a|] eqn:Ha; [|done]. cbn [mbind option_bind].
    destruct (FileServer.step _ _ _ _ _) as [[] s| |] eqn:Hs; [|done..]. destruct (Z.ltb_spec (s_seqno s) INT_MAX); [|done].
    intros [= <-]. eapply wire_server; [|exact Hs|done]. destruct a. by eapply list_elem_of_lookup_2.
  - destruct (s_out w.1 !! n) as [d|] eqn:Hd; [|done]. apply client_move_step. split; [by eapply list_elem_of_lookup_2|].
    destruct d; try done. by exists 0.
Qed.

Lemma moves_reach ms : ∀ w w', moves_run ms w = Some w' → reach wstep w w'.
Proof.
  induction ms as [|m ms IH]; intros w w'; cbn [moves_run]; [intros [= <-]; apply reach_refl|].
  destruct (move_run m w) as [w1|] eqn:Hm; [|done]. cbn [mbind option_bind]. intros Hr.
  eapply reach_trans; [|by apply IH]. eapply reach_step; [apply reach_refl|]. by apply (move_run_step m).
Qed.
End moves.

(** A file of two pieces, a send window of 4, memory of zeros. *)
Definition typed_begins : sender :=
  after_run file_open (begin_transfer clock1 4 accepting (Some (repeat typed_line 4)) file_open).
Definition world0 : sender * dclient := (typed_begins, fresh_dclient).

Lemma file_open_typed : sender_typed 4 (put_queue (mk_queue (Some (repeat typed_line 4)) 0 0 4) file_open).
Proof. destruct blank_typed. by split. Qed.

Lemma file_open_ready : ready two_pieces (zero_bytes MAXLINE) 1000 clock1 file_open.
Proof. split; try reflexivity. vm_compute. discriminate. Qed.

Lemma world0_begins : wire_begins (Ptr 0) clock1 4 accepting two_pieces (zero_bytes MAXLINE) (repeat typed_line 4) 1000 world0.
Proof.
  assert (Hrun : begin_transfer clock1 4 accepting (Some (repeat typed_line 4)) file_open = Done tt typed_begins)
    by (vm_compute; reflexivity).
  split; [|exact (wpx_Done _ _ _ _ _ _ _ (begin_typed clock1 4 accepting _ file_open
    ltac:(unfold INT_MAX; lia) file_open_typed) Hrun)|reflexivity..].
  split; [vm_compute; reflexivity|unfold QSIZE_BOUND; lia|reflexivity| |vm_compute; reflexivity|].
  - exists file_open. split; [exact file_open_ready|exact Hrun].
  - exists empty_list. split; [exact empty_list_at|reflexivity].
Qed.

Lemma counters0 : counters_zero (repeat typed_line 4).
Proof. repeat constructor. Qed.

Definition moves_from (ms : list move) : sender * dclient :=
  default world0 (@moves_run zero_alloc (Ptr 0) clock1 4 (htons 10) accepting all_sent ms world0).

(** The first piece is printed and acknowledged; both are there and acknowledged, nothing is
    printed. *)
Definition half_way : list move := [Taken 0; Taken 1; Prints false; Acked 0].
Definition all_there : list move := [Taken 0; Taken 1; Acked 0; Taken 2; Taken 3; Acked 1].

Lemma moves_from_reach ms :
  @moves_run zero_alloc (Ptr 0) clock1 4 (htons 10) accepting all_sent ms world0 ≠ None →
  reach (@wire_step zero_alloc (Ptr 0) clock1 4 (htons 10) accepting all_sent) world0 (moves_from ms).
Proof.
  unfold moves_from. destruct (moves_run _ _ _ _ _ _ ms world0) as [w|] eqn:Hr; [|done]. intros _. by apply (moves_reach _ _ _ _ _ _ ms).
Qed.



Lemma every_file_gets_through_witness :
  ∃ s1 w, reach (@wire_step zero_alloc (Ptr 0) clock1 4 (htons 3) accepting all_sent) (s1, fresh_dclient) w ∧
    s_phase w.1 = Ended ∧ client_over w.2 = true ∧ stdout (inner w.2) = two_pieces.
Proof.
  destruct (every_file_gets_through (Ptr 0) empty_list (replicate 12 0) clock1 4 3 accepting all_sent two_pieces 1000
    (repeat typed_line 4) file_open (λ _ _, eq_refl) (λ _ _, eq_refl) ltac:(lia) ltac:(lia) ltac:(unfold QSIZE_BOUND; lia)
    ltac:(vm_compute; reflexivity) ltac:(vm_compute; reflexivity) clock1_stamps eq_refl counters0 file_open_ready
    ltac:(vm_compute; reflexivity) ltac:(vm_compute; discriminate) file_open_typed empty_list_at eq_refl)
    as (s1 & w & _ & Hr & Hend & Hover & Hout).
  exists s1, w. split; [exact Hr|]. split; [exact Hend|]. split; [exact Hover|exact Hout].
Defined.
