(* ===== verification/FileStart.v ===== *)
(** The start of the programs of Assignment 2 (client.c, server.c): the parameter files,
    the sockets of client, server and child, and how the client finds the child's
    port.  Every call is logged, so the theorems say which calls are made, on which
    addresses and in which order. *)

From S2P Require Export HwStart.
From S2P Require Import FileServer FileClient Kernel Interfaces.
From Stdlib Require Import DecimalString DecimalZ DecimalPos DecimalFacts.

(** * Parameter files *)

(** A decimal floating constant of %lf (no hexadecimal, no "inf", no "nan"):
    the mantissa and the exponent of 10, and the input left. *)
Definition scan_sign (t : string) : bool * string :=
  match t with
  | String c t1 => if Ascii.eqb c "-" then (true, t1) else if Ascii.eqb c "+" then (false, t1) else (false, t)
  | EmptyString => (false, t)
  end.

Definition scan_exponent (r : string) : option (Z * string) :=
  match r with
  | String c r1 =>
      if Ascii.eqb c "e" || Ascii.eqb c "E" then
        let '(neg, r2) := scan_sign r1 in
        match span_uint r2 with
        | (Decimal.Nil, _) => None
        | (d, r3) => Some (if neg then - Z.of_uint d else Z.of_uint d, r3)
        end
      else Some (0, r)
  | EmptyString => Some (0, r)
  end.

Definition scan_lf (s : string) : option ((Z * Z) * string) :=
  let '(neg, t) := scan_sign (skip_space s) in
  let '(whole, r) := span_uint t in
  let '(frac, r) := match r with
                    | String c r1 => if Ascii.eqb c "." then span_uint r1 else (Decimal.Nil, r)
                    | EmptyString => (Decimal.Nil, r)
                    end in
  match whole, frac with
  | Decimal.Nil, Decimal.Nil => None
  | _, _ =>
      let digits := Decimal.app whole frac in
      '(e, r) ← scan_exponent r;
      Some ((if neg then - Z.of_uint digits else Z.of_uint digits, e - Z.of_nat (Decimal.nb_digits frac)), r)
  end.

(** The variables of the client that client.in sets. *)
Record client_in := mk_client_in {
  ci_srv_ipaddr : string;
  ci_port_number : Z;
  ci_filename : string;
  ci_recv_window : Z;
  ci_seed : Z;
  ci_loss_rate : Z * Z;
  ci_read_rate : Z
}.

(** [fscanf(fp, "%s %d %s %d %d %lf %d", ...) < 0] only at the end of an empty file; the
    conversions behind a failed one leave their variables as they were. *)
Definition scan_client_in (text : string) : M client_in unit :=
  match scan_s text with
  | None => exit 1
  | Some (w, r) =>
      w ← strcpy 50 w;
      modify (λ c, mk_client_in w (ci_port_number c) (ci_filename c) (ci_recv_window c) (ci_seed c) (ci_loss_rate c) (ci_read_rate c));;
      match scan_d r with
      | None => mret tt
      | Some (p, r) =>
          p ← int_op p;
          modify (λ c, mk_client_in (ci_srv_ipaddr c) p (ci_filename c) (ci_recv_window c) (ci_seed c) (ci_loss_rate c) (ci_read_rate c));;
          match scan_s r with
          | None => mret tt
          | Some (f, r) =>
              f ← strcpy MAXLINE f;
              modify (λ c, mk_client_in (ci_srv_ipaddr c) (ci_port_number c) f (ci_recv_window c) (ci_seed c) (ci_loss_rate c) (ci_read_rate c));;
              match scan_d r with
              | None => mret tt
              | Some (w, r) =>
                  w ← int_op w;
                  modify (λ c, mk_client_in (ci_srv_ipaddr c) (ci_port_number c) (ci_filename c) w (ci_seed c) (ci_loss_rate c) (ci_read_rate c));;
                  match scan_d r with
                  | None => mret tt
                  | Some (x, r) =>
                      x ← int_op x;
                      modify (λ c, mk_client_in (ci_srv_ipaddr c) (ci_port_number c) (ci_filename c) (ci_recv_window c) x (ci_loss_rate c) (ci_read_rate c));;
                      match scan_lf r with
                      | None => mret tt
                      | Some (l, r) =>
                          modify (λ c, mk_client_in (ci_srv_ipaddr c) (ci_port_number c) (ci_filename c) (ci_recv_window c) (ci_seed c) l (ci_read_rate c));;
                          match scan_d r with
                          | None => mret tt
                          | Some (m, _) =>
                              m ← int_op m;
                              modify (λ c, mk_client_in (ci_srv_ipaddr c) (ci_port_number c) (ci_filename c) (ci_recv_window c) (ci_seed c) (ci_loss_rate c) m)
                          end
                      end
                  end
              end
          end
      end
  end.

(** [fscanf(fp, "%d %d", &port_number, &send_window) < 0]: the state is the two variables. *)
Definition scan_server_in (text : string) : M (Z * Z) unit :=
  if streq (skip_space text) EmptyString then exit 1
  else
    match scan_d text with
    | None => mret tt
    | Some (p, r) =>
        p ← int_op p;
        modify (λ s, (p, s.2));;
        match scan_d r with
        | None => mret tt
        | Some (w, _) => w ← int_op w; modify (λ s, (s.1, w))
        end
    end.

(** * The interfaces *)


(** [ntohl(sa->sin_addr.s_addr)] of the address at [sa]. *)
Definition host_addr (sa : list Z) : M trace Z :=
  a ← SockAddr.sin_addr sa;
  mret (ntohl (le_combine a)).

Section start.
Context (ask : trace → call → Z).
(** The port, in network order, that [getsockname] reports for a socket. *)
Context (port_of : trace → Z).
(** [inet_addr] of the C library: the address in network order. *)
Context (inet_addr : string → Z).

(** * client.c *)

(** The array of addresses and masks; it has ten places. *)
Fixpoint client_interfaces (ifis : list ifi_info) (sockets : list (Z * Z)) : M trace (list (Z * Z)) :=
  match ifis with
  | [] => mret sockets
  | ifi :: ifis' =>
      if (length sockets <? MAXIMUM_SOCKET)%nat then
        addr ← host_addr (ifi_addr ifi);
        Sock_ntop_host (ifi_addr ifi) 16;;
        netmask ← host_addr (ifi_ntmaddr ifi);
        Sock_ntop_host (ifi_ntmaddr ifi) 16;;
        client_interfaces ifis' (sockets ++ [(addr, netmask)])
      else undef OutOfBounds
  end.

(** The server's address in host order; [srv_ipaddr], which is overwritten when the
    server runs on this host; the client's address, 0 until it is chosen; and
    [max_mask]. *)
Definition locate (srv_ipaddr : string) (sockets : list (Z * Z)) : string * Z * Z * nat :=
  let server := ntohl (inet_addr srv_ipaddr) in
  match find_route server sockets 0 with
  | Loopback => ("127.0.0.1"%string, loopback_addr, loopback_addr, O)
  | OnLink i => (srv_ipaddr, server, 0, S i)
  | Remote => (srv_ipaddr, server, 0, O)
  end.

(** The socket, bound and connected; the address of the server. *)
Definition client_socket (srv_ipaddr : string) (port_number : Z) (sockets : list (Z * Z)) : M trace (Z * Z) :=
  let '(text, server, cli, max_mask) := locate srv_ipaddr sockets in
  sockfd ← need ask (Socket InetAddr.AF_INET SOCK_DGRAM 0);
  cli ← (if streq text "127.0.0.1" || negb (max_mask =? 0)%nat then
           need ask (Setsockopt sockfd SOL_SOCKET SO_DONTROUTE ON);;
           if streq text "127.0.0.1" then mret cli
           else e ← rd sockets (Z.of_nat max_mask - 1); mret e.1
         else e ← rd sockets 1; mret e.1);
  need ask (Bind sockfd (Inet (htons 0) (htonl cli)));;
  need ask (Getsockname sockfd);;
  need ask (Connect sockfd (Inet (htons port_number) (htonl server)));;
  need ask (Getpeername sockfd);;
  mret (sockfd, server).

(** [port_number] holds the four bytes the server sent. *)
Definition reconnect (sockfd server port_number recv_window read_rate : Z) : M trace Z :=
  need ask (Connect sockfd (Inet (htons port_number) (htonl server)));;
  let recv_window := htons recv_window in
  need ask (Send sockfd (le_split 4 (u32 recv_window)));;
  need ask (ThreadCreate "print_out" read_rate);;
  mret recv_window.

Definition client_main (file : option string) (junk : client_in) (ifis : M unit (list ifi_info))
    : M trace (client_in * (Z * Z)) :=
  text ← (match file with None => exit 1 | Some text => mret text end);
  c ← lift (λ u, match scan_client_in text junk with
                 | Done _ c => Done c u
                 | Exited x _ => Exited x u
                 | Undefined x => Undefined x
                 end);
  l ← lift ifis;
  match l with
  | [] => exit 1
  | _ =>
      sockets ← client_interfaces l [];
      s ← client_socket (ci_srv_ipaddr c) (ci_port_number c) sockets;
      mret (c, s)
  end.

(** * server.c *)

(** A socket per interface, with the port of server.in; the array has ten places, and
    the socket of an eleventh interface is opened before it is overrun. *)
Fixpoint server_interfaces (port_number : Z) (ifis : list ifi_info) (sockets : list (Z * socket_info))
    : M trace (list (Z * socket_info)) :=
  match ifis with
  | [] => mret sockets
  | ifi :: ifis' =>
      sockfd ← need ask (Socket InetAddr.AF_INET SOCK_DGRAM 0);
      if (length sockets <? MAXIMUM_SOCKET)%nat then
        need ask (Setsockopt sockfd SOL_SOCKET SO_REUSEADDR ON);;
        addr ← host_addr (ifi_addr ifi);
        need ask (Bind sockfd (Inet (htons port_number) (htonl addr)));;
        netmask ← host_addr (ifi_ntmaddr ifi);
        server_interfaces port_number ifis' (sockets ++ [(sockfd, make_socket addr netmask)])
      else undef OutOfBounds
  end.

Definition server_main (file : option string) (junk : Z * Z) (ifis : M unit (list ifi_info))
    : M trace (Z * Z * list (Z * socket_info)) :=
  text ← (match file with None => exit 1 | Some text => mret text end);
  c ← lift (λ u, match scan_server_in text junk with
                 | Done _ c => Done c u
                 | Exited x _ => Exited x u
                 | Undefined x => Undefined x
                 end);
  l ← lift ifis;
  match l with
  | [] => exit 1
  | _ =>
      sockets ← server_interfaces c.1 l [];
      need ask (Signal 17);;
      mret (c, sockets)
  end.

(** The child closes the sockets of the other interfaces. *)
Fixpoint close_others (i j : nat) (sockets : list (Z * socket_info)) : M trace unit :=
  match sockets with
  | [] => mret tt
  | (sockfd, _) :: sockets' =>
      when (negb (j =? i)%nat) (need ask (Close sockfd);; mret tt);;
      close_others i (S j) sockets'
  end.

(** The child for a request on socket [i] from the client with this port and address, in
    network order: its socket and the port number it tells the client. *)
Definition child_socket (i : nat) (sockets : list (Z * socket_info)) (cli_port cli_addr : Z) : M trace (Z * Z) :=
  '(listenfd, sock) ← rd sockets (Z.of_nat i);
  close_others i 0 sockets;;
  childfd ← (if is_local i sock (ntohl cli_addr) then
               need ask (Setsockopt listenfd SOL_SOCKET SO_DONTROUTE ON);;
               childfd ← need ask (Socket InetAddr.AF_INET SOCK_DGRAM 0);
               need ask (Setsockopt childfd SOL_SOCKET SO_DONTROUTE ON);;
               mret childfd
             else need ask (Socket InetAddr.AF_INET SOCK_DGRAM 0));
  need ask (Bind childfd (Inet (htons 0) (htonl (ip_addr sock))));;
  need ask (Getsockname childfd);;
  tr ← get;
  need ask (Connect childfd (Inet cli_port cli_addr));;
  mret (childfd, htons (port_of tr)).

(** [pid = fork()] for a new client: the parent goes on, the child sets up its socket. *)
Definition serve_client (i : nat) (sockets : list (Z * socket_info)) (cli_port cli_addr : Z)
    : M trace (option (Z * Z)) :=
  pid ← need ask Fork;
  if pid =? 0 then c ← child_socket i sockets cli_port cli_addr; mret (Some c) else mret None.

(** End: the last datagram, the variable [i], and the end of the process. *)
Definition child_end (childfd i : Z) : M trace unit :=
  need ask (Send childfd (le_split 4 (u32 i)));;
  need ask (Close childfd);;
  mret tt.
End start.

(** * Lemmas *)

(** Interfaces with these addresses and masks, in host order. *)
Definition addressed (ifis : list ifi_info) (addrs : list (Z * Z)) : Prop :=
  Forall2 (λ i a, ∀ tr, host_addr (ifi_addr i) tr = Done a.1 tr ∧ host_addr (ifi_ntmaddr i) tr = Done a.2 tr ∧
             (∃ text, Sock_ntop_host (ifi_addr i) 16 tr = Done text tr) ∧
             (∃ text, Sock_ntop_host (ifi_ntmaddr i) 16 tr = Done text tr)) ifis addrs.

(** The value of the four bytes of an address in host order. *)
Definition quad (q : list Z) : Z := le_combine (rev q).

Lemma ntohl_quad q : Forall is_byte q → length q = 4%nat → ntohl (le_combine q) = quad q.
Proof.
  intros Hb Hl. pose proof (le_combine_range q Hb) as Hr. rewrite Hl in Hr.
  unfold ntohl, quad. rewrite u32_small by exact Hr. rewrite <- Hl. by apply bswap_combine.
Qed.

Lemma quad_addressed (i : ifi_info) a b c d m1 m2 m3 m4 rest rest' :
  ifi_addr i = sockaddr_in 0 [a; b; c; d] rest → ifi_ntmaddr i = sockaddr_in 0 [m1; m2; m3; m4] rest' →
  Forall is_byte [a; b; c; d; m1; m2; m3; m4] →
  addressed [i] [(quad [a; b; c; d], quad [m1; m2; m3; m4])].
Proof.
  intros Ha Hm Hb. rewrite !Forall_cons in Hb. destruct Hb as (Ba & Bb & Bc & Bd & B1 & B2 & B3 & B4 & _).
  constructor; [|constructor]. intros tr. rewrite Ha, Hm. unfold host_addr, Sock_ntop_host.
  destruct (sock_ntop_ipv4 _ 0 a b c d rest 16 tr ltac:(lia) Ba Bb Bc Bd) as [_ H1].
  destruct (sock_ntop_ipv4 _ 0 m1 m2 m3 m4 rest' 16 tr ltac:(lia) B1 B2 B3 B4) as [_ H2].
  split_and!.
  - rewrite (bind_Done _ _ _ _ _ (in_addr 0 [a; b; c; d] rest eq_refl tr)), ntohl_quad; [done| |done].
    repeat (apply Forall_cons; split; [done|]). apply Forall_nil_2.
  - rewrite (bind_Done _ _ _ _ _ (in_addr 0 [m1; m2; m3; m4] rest' eq_refl tr)), ntohl_quad; [done| |done].
    repeat (apply Forall_cons; split; [done|]). apply Forall_nil_2.
  - eexists. by rewrite (bind_Done _ _ _ _ _ H1).
  - eexists. by rewrite (bind_Done _ _ _ _ _ H2).
Qed.

Lemma ends_number_space r : starts_space r = true → ends_number r = true.
Proof. destruct r as [|c r]; [done|]. simpl. by destruct c as [[][][][][][][][]]. Qed.

Lemma scan_lf_decimal d1 d2 r :
  d1 ≠ Decimal.Nil → starts_space r = true →
  scan_lf (NilEmpty.string_of_uint d1 +:+ String "." (NilEmpty.string_of_uint d2 +:+ r))
  = Some ((Z.of_uint (Decimal.app d1 d2), - Z.of_nat (Decimal.nb_digits d2)), r).
Proof.
  intros Hd Hr. destruct (print_d_head d1 Hd) as (c & s & Hs & H1 & H2 & H3).
  unfold scan_lf. rewrite Hs. simpl. rewrite H1. simpl. rewrite H2, H3.
  change (String c (s +:+ ?x)) with (String c s +:+ x). rewrite <- Hs, span_uint_app by done. simpl.
  rewrite span_uint_app by by apply ends_number_space.
  assert (He : scan_exponent r = Some (0, r)).
  { destruct r as [|c' r]; [done|]. simpl in *. by destruct c' as [[][][][][][][][]]. }
  rewrite He. by destruct d1.
Qed.

(** The calls of a trace, without what they returned. *)
Definition calls (tr : trace) : list call := fst <$> tr.

Section serving.
Context (ask : trace → call → Z) (Hask : ∀ tr c, 0 ≤ ask tr c).
Context (port_of : trace → Z) (inet_addr : string → Z).

Lemma client_interfaces_run ifis addrs sockets tr :
  addressed ifis addrs →
  client_interfaces ifis sockets tr
  = if (length sockets + length ifis <=? MAXIMUM_SOCKET)%nat || (length ifis =? 0)%nat then Done (sockets ++ addrs) tr
    else Undefined OutOfBounds.
Proof.
  intros Ha. revert sockets. induction Ha as [|i [a m] ifis addrs Hi _ IH]; intros sockets.
  { rewrite List.app_nil_r, orb_true_r. done. }
  cbn [client_interfaces length]. rewrite orb_false_r.
  destruct (Hi tr) as (H1 & H2 & [t1 H3] & [t2 H4]).
  destruct (Nat.ltb_spec (length sockets) MAXIMUM_SOCKET).
  - rewrite (bind_Done _ _ _ _ _ H1), (bind_Done _ _ _ _ _ H3), (bind_Done _ _ _ _ _ H2), (bind_Done _ _ _ _ _ H4).
    rewrite IH, length_app, <- List.app_assoc. cbn [length Nat.add].
    replace (length sockets + 1 + length ifis)%nat with (length sockets + S (length ifis))%nat by lia.
    destruct (Nat.eqb_spec (length ifis) 0) as [->|]; [|by rewrite orb_false_r].
    rewrite orb_true_r. by destruct (Nat.leb_spec (length sockets + 1) MAXIMUM_SOCKET); [|lia].
  - by destruct (Nat.leb_spec (length sockets + S (length ifis)) MAXIMUM_SOCKET); [lia|].
Qed.

(** The calls for one interface of the server. *)
Definition listening (port_number : Z) (s : Z * socket_info) : list call :=
  [Socket InetAddr.AF_INET SOCK_DGRAM 0; Setsockopt s.1 SOL_SOCKET SO_REUSEADDR ON;
   Bind s.1 (Inet (htons port_number) (htonl (ip_addr s.2)))].

Lemma server_interfaces_run port_number ifis addrs sockets tr :
  addressed ifis addrs → (length sockets + length ifis ≤ MAXIMUM_SOCKET)%nat →
  ∃ more new, server_interfaces ask port_number ifis sockets tr = Done (sockets ++ more) (tr ++ new) ∧
    snd <$> more = (λ a, make_socket a.1 a.2) <$> addrs ∧ Forall good new ∧
    calls new = more ≫= listening port_number.
Proof.
  intros Ha. revert sockets tr. induction Ha as [|i [a m] ifis addrs Hi _ IH]; intros sockets tr Hlen.
  { exists [], []. rewrite !List.app_nil_r. split_and!; [done|done|constructor|done]. }
  cbn [server_interfaces length] in *. serve Hask. destruct (Nat.ltb_spec (length sockets) MAXIMUM_SOCKET); [|lia].
  serve Hask. match goal with |- context [(host_addr _ ≫= _) ?t] => destruct (Hi t) as (H1 & _) end.
  rewrite (bind_Done _ _ _ _ _ H1). serve Hask.
  match goal with |- context [(host_addr _ ≫= _) ?t] => destruct (Hi t) as (_ & H2 & _) end.
  rewrite (bind_Done _ _ _ _ _ H2). match goal with |- context [server_interfaces _ _ _ ?s ?t] =>
    destruct (IH s t) as (more & new & Hrun & Hs & Hg & Hc) end; [rewrite length_app; simpl; lia|].
  rewrite Hrun. eexists ((r, make_socket a m) :: more), _. rewrite <- !List.app_assoc. split; [reflexivity|].
  split_and!; [by rewrite !fmap_cons, Hs|goods; done|]. unfold calls in *. rewrite !fmap_app, Hc. done.
Qed.

Lemma server_interfaces_overflow port_number ifis addrs sockets tr :
  addressed ifis addrs → (length sockets ≤ MAXIMUM_SOCKET)%nat → (MAXIMUM_SOCKET < length sockets + length ifis)%nat →
  server_interfaces ask port_number ifis sockets tr = Undefined OutOfBounds.
Proof.
  intros Ha. revert sockets tr. induction Ha as [|i [a m] ifis addrs Hi _ IH]; intros sockets tr Hle Hlen;
    [simpl in Hlen; lia|].
  cbn [server_interfaces length] in *. serve Hask. destruct (Nat.ltb_spec (length sockets) MAXIMUM_SOCKET); [|done].
  serve Hask. match goal with |- context [(host_addr _ ≫= _) ?t] => destruct (Hi t) as (H1 & _) end.
  rewrite (bind_Done _ _ _ _ _ H1). serve Hask.
  match goal with |- context [(host_addr _ ≫= _) ?t] => destruct (Hi t) as (_ & H2 & _) end.
  rewrite (bind_Done _ _ _ _ _ H2). apply IH; rewrite length_app; simpl; lia.
Qed.

Lemma close_others_run i j sockets tr :
  ∃ new, close_others ask i j sockets tr = Done tt (tr ++ new) ∧ Forall good new ∧
    calls new = Close <$> (fst <$> (if (i <? j)%nat then sockets else delete (i - j)%nat sockets)).
Proof.
  revert j tr. induction sockets as [|[fd x] sockets IH]; intros j tr.
  { exists []. rewrite List.app_nil_r. split_and!; [done|constructor|]. by destruct (i <? j)%nat, (i - j)%nat. }
  cbn [close_others]. destruct (Nat.eqb_spec j i) as [->|Hne].
  - destruct (IH (S i) tr) as (new & Hrun & Hg & Hc). exists new. cbn [negb when]. rewrite bind_ret, Hrun.
    split_and!; [done|done|]. rewrite Hc. destruct (Nat.ltb_spec i (S i)); [|lia].
    destruct (Nat.ltb_spec i i); [lia|]. by rewrite Nat.sub_diag.
  - cbn [negb when]. rewrite <- bind_assoc_M. serve Hask. rewrite bind_ret.
    match goal with |- context [close_others _ _ _ _ ?t] => destruct (IH (S j) t) as (new & Hrun & Hg & Hc) end.
    rewrite Hrun. eexists. rewrite <- List.app_assoc. split; [reflexivity|]. split; [goods; done|].
    unfold calls in *. rewrite fmap_app, Hc.
    destruct (Nat.ltb_spec i j), (Nat.ltb_spec i (S j)); try lia; [done|].
    replace (i - j)%nat with (S (i - S j)) by lia. done.
Qed.

(** What a child does to its sockets. *)
Definition child_calls (i : nat) (sockets : list (Z * socket_info)) (listenfd childfd : Z) (sock : socket_info)
    (cli_port cli_addr : Z) : list call :=
  (Close <$> (fst <$> delete i sockets)) ++
  (if is_local i sock (ntohl cli_addr)
   then [Setsockopt listenfd SOL_SOCKET SO_DONTROUTE ON; Socket InetAddr.AF_INET SOCK_DGRAM 0;
         Setsockopt childfd SOL_SOCKET SO_DONTROUTE ON]
   else [Socket InetAddr.AF_INET SOCK_DGRAM 0]) ++
  [Bind childfd (Inet (htons 0) (htonl (ip_addr sock))); Getsockname childfd; Connect childfd (Inet cli_port cli_addr)].

Lemma child_socket_run (i : nat) (sockets : list (Z * socket_info)) (listenfd : Z) (sock : socket_info)
    (cli_port cli_addr : Z) (tr : trace) (Hi : sockets !! i = Some (listenfd, sock)) :
  ∃ childfd before last, child_socket ask port_of i sockets cli_port cli_addr tr
      = Done (childfd, htons (port_of (tr ++ before))) (tr ++ before ++ [last]) ∧
    Forall good (before ++ [last]) ∧
    calls (before ++ [last]) = child_calls i sockets listenfd childfd sock cli_port cli_addr.
Proof.
  unfold child_socket.
  assert (Hrd : rd sockets (Z.of_nat i) tr = Done (listenfd, sock) tr) by (unfold rd; by rewrite arr_at_nat, Hi).
  rewrite (bind_Done _ _ _ _ _ Hrd). cbv beta iota.
  destruct (close_others_run i 0 sockets tr) as (closed & Hrun & Hg & Hc). rewrite (bind_Done _ _ _ _ _ Hrun).
  assert (Hc' : calls closed = Close <$> (fst <$> delete i sockets)) by by rewrite Hc, Nat.sub_0_r.
  unfold child_calls, calls in *.
  destruct (is_local i sock (ntohl cli_addr)).
  - rewrite <- !bind_assoc_M. serve Hask. rewrite <- !bind_assoc_M. serve Hask. rewrite <- !bind_assoc_M. serve Hask.
    rewrite bind_ret. do 2 serve Hask. rewrite bind_get. serve Hask. rewrite <- !List.app_assoc.
    eexists r0, (closed ++ [_; _; _; _; _]), _. rewrite <- !List.app_assoc. split; [reflexivity|]. cbn [app].
    split; [apply Forall_app; split; [done|goods]|]. by rewrite fmap_app, Hc'.
  - do 3 serve Hask. rewrite bind_get. serve Hask. rewrite <- !List.app_assoc.
    eexists r, (closed ++ [_; _; _]), _. rewrite <- !List.app_assoc. split; [reflexivity|]. cbn [app].
    split; [apply Forall_app; split; [done|goods]|]. by rewrite fmap_app, Hc'.
Qed.

Lemma child_calls_last i sockets listenfd childfd sock cli_port cli_addr (pre : trace) (last : call * Z) :
  calls (pre ++ [last]) = child_calls i sockets listenfd childfd sock cli_port cli_addr →
  (∃ opened, calls pre = opened ++ [Bind childfd (Inet (htons 0) (htonl (ip_addr sock))); Getsockname childfd]) ∧
  last.1 = Connect childfd (Inet cli_port cli_addr).
Proof.
  unfold calls, child_calls. rewrite fmap_app, List.app_assoc.
  change [Bind ?a ?b; Getsockname ?c; Connect ?d ?e] with ([Bind a b; Getsockname c] ++ [Connect d e]).
  rewrite List.app_assoc. intros [Hpre Hlast]%app_inj_tail. eauto.
Qed.

(** The address of the server as the client uses it, and the calls for its socket. *)
Definition server_addr (server : Z) (sockets : list (Z * Z)) : Z :=
  match find_route server sockets 0 with Loopback => loopback_addr | _ => server end.

Definition client_calls (sockfd addr : Z) (local : bool) (port_number server : Z) : list call :=
  [Socket InetAddr.AF_INET SOCK_DGRAM 0] ++
  (if local then [Setsockopt sockfd SOL_SOCKET SO_DONTROUTE ON] else []) ++
  [Bind sockfd (Inet (htons 0) (htonl addr)); Getsockname sockfd;
   Connect sockfd (Inet (htons port_number) (htonl server)); Getpeername sockfd].

Lemma find_route_lookup server ifis k i :
  find_route server ifis k = OnLink i → ∃ e, (k ≤ i)%nat ∧ ifis !! (i - k)%nat = Some e.
Proof.
  revert k. induction ifis as [|[a m] ifis IH]; intros k; [done|]. cbn [find_route].
  destruct (a =? server); [done|]. destruct (_ =? _).
  - intros [= ->]. exists (a, m). by rewrite Nat.sub_diag.
  - intros (e & Hle & He)%IH. exists e. split; [lia|]. by replace (i - k)%nat with (S (i - S k)) by lia.
Qed.

(** The client's socket.  It is bound to the address [client_address] chooses: the
    loopback address, the interface on the server's network, or else the second
    interface; routing is bypassed exactly for a server that is not remote, and it is
    connected to the server's port.  Without a second interface a remote server is
    undefined. *)
Theorem client_binds (srv_ipaddr : string) (port_number : Z) (sockets : list (Z * Z)) (tr : trace)
    (Htext : srv_ipaddr ≠ "127.0.0.1"%string) :
  let server := ntohl (inet_addr srv_ipaddr) in
  match client_address server sockets with
  | Some (addr, local) =>
      ∃ sockfd new, client_socket ask inet_addr srv_ipaddr port_number sockets tr
          = Done (sockfd, server_addr server sockets) (tr ++ new) ∧ Forall good new ∧
        calls new = client_calls sockfd addr local port_number (server_addr server sockets)
  | None => client_socket ask inet_addr srv_ipaddr port_number sockets tr = Undefined OutOfBounds
  end.
Proof.
  intros server. apply streq_neq in Htext. unfold client_address, client_socket, locate, server_addr, client_calls, calls.
  fold server. destruct (find_route server sockets 0) as [|i|] eqn:Hr.
  - change (streq "127.0.0.1" "127.0.0.1") with true. cbn [orb]. serve Hask. rewrite <- bind_assoc_M. serve Hask.
    rewrite bind_ret. do 4 serve Hask. rewrite <- !List.app_assoc. eexists _, _. split; [reflexivity|]. by split; [goods|].
  - destruct (find_route_lookup _ _ _ _ Hr) as (e & _ & He). rewrite Nat.sub_0_r in He. rewrite He, Htext.
    cbn [orb negb Nat.eqb mbind option_bind]. serve Hask. rewrite <- bind_assoc_M. serve Hask.
    replace (Z.of_nat (S i) - 1) with (Z.of_nat i) by lia. rewrite <- bind_assoc_M.
    match goal with |- context [(rd sockets (Z.of_nat i) ≫= _) ?t] =>
      assert (Hrd : rd sockets (Z.of_nat i) t = Done e t) by (unfold rd; by rewrite arr_at_nat, He) end.
    rewrite (bind_Done _ _ _ _ _ Hrd), bind_ret.
    do 4 serve Hask. rewrite <- !List.app_assoc. eexists _, _. split; [reflexivity|]. by split; [goods|].
  - rewrite Htext. cbn [orb negb Nat.eqb]. destruct (sockets !! 1%nat) as [e|] eqn:He; cbn [mbind option_bind].
    + serve Hask. rewrite <- bind_assoc_M.
      match goal with |- context [(rd sockets 1 ≫= _) ?t] =>
        assert (Hrd : rd sockets 1 t = Done e t) by (change 1 with (Z.of_nat 1); unfold rd; by rewrite arr_at_nat, He) end.
      rewrite (bind_Done _ _ _ _ _ Hrd), bind_ret.
      do 4 serve Hask. rewrite <- !List.app_assoc. eexists _, _. split; [reflexivity|]. by split; [goods|].
    + serve Hask. rewrite <- bind_assoc_M. unfold mbind at 1, M_bind at 1.
      change (rd sockets 1) with (rd (St:=trace) sockets (Z.of_nat 1)). unfold rd. by rewrite arr_at_nat, He.
Qed.

(** An [int] with a 16-bit value survives its four bytes. *)
Lemma int_bytes x : 0 ≤ x < 65536 → s32 (le_combine (le_split 4 (u32 x))) = x.
Proof.
  intros Hx. rewrite le_combine_split, u32_small by lia. rewrite Z.mod_small by (simpl; lia).
  apply s32_int. unfold INT_MIN, INT_MAX. lia.
Qed.

Lemma htons_twice x : 0 ≤ x < 65536 → htons (htons x) = x.
Proof. intros Hx. change (htons (htons x)) with (ntohs (htons x)). rewrite ntohs_htons. by apply u16_small. Qed.

(** The window the client announces, as it stands in the datagram. *)
Lemma reconnect_run sockfd server number window read_rate (tr : trace) :
  ∃ new, reconnect ask sockfd server number window read_rate tr = Done (htons window) (tr ++ new) ∧ Forall good new ∧
    calls new = [Connect sockfd (Inet (htons number) (htonl server));
                 Send sockfd (le_split 4 (u32 (htons window))); ThreadCreate "print_out" read_rate].
Proof.
  unfold reconnect. do 3 serve Hask. rewrite <- !List.app_assoc. eexists. split; [reflexivity|]. by split; [goods|].
Qed.

Lemma scan_server_in_run p w rest junk :
  INT_MIN ≤ p ≤ INT_MAX → INT_MIN ≤ w ≤ INT_MAX → starts_space rest = true →
  scan_server_in (print_d p +:+ String " " (print_d w +:+ rest)) junk = Done tt (p, w).
Proof.
  intros Hp Hw Hr. unfold scan_server_in.
  assert (Hne : streq (skip_space (print_d p +:+ String " " (print_d w +:+ rest))) EmptyString = false).
  { rewrite skip_space_word by apply print_d_word. unfold print_d. destruct (Z.to_int p) as [d|d] eqn:Hd; [|done].
    pose proof (to_int_nonnil p) as Hn. rewrite Hd in Hn. by destruct (print_d_head d Hn) as (c & s & -> & _). }
  rewrite Hne, scan_d_print by done. run_step (int_op_ok p junk Hp). rewrite bind_modify.
  rewrite scan_d_space, scan_d_print by by apply ends_number_space. run_step (int_op_ok w (p, junk.2) Hw). done.
Qed.

(** The start of the server.  From a file with a port and a window it opens one
    socket per interface, all on that port, each bound to its interface's address, and
    computes the subnets; an eleventh interface is written behind the array. *)
Theorem server_opens (port_number send_window : Z) (rest : string) (junk : Z * Z) (ifis : list ifi_info)
    (addrs : list (Z * Z)) (tr : trace)
    (Hp : INT_MIN ≤ port_number ≤ INT_MAX) (Hw : INT_MIN ≤ send_window ≤ INT_MAX) (Hrest : starts_space rest = true)
    (Hne : ifis ≠ []) (Haddrs : addressed ifis addrs) :
  let file := Some (print_d port_number +:+ String " " (print_d send_window +:+ rest)) in
  if (length ifis <=? MAXIMUM_SOCKET)%nat then
    ∃ sockets new, server_main ask file junk (mret ifis) tr = Done (port_number, send_window, sockets) (tr ++ new) ∧
      snd <$> sockets = (λ a, make_socket a.1 a.2) <$> addrs ∧ Forall good new ∧
      calls new = (sockets ≫= listening port_number) ++ [Signal 17]
  else server_main ask file junk (mret ifis) tr = Undefined OutOfBounds.
Proof.
  intros file. unfold server_main, file. rewrite bind_ret.
  assert (Hin : ∀ (k : Z * Z → M trace (Z * Z * list (Z * socket_info))) t,
    (lift (λ u, match scan_server_in (print_d port_number +:+ String " " (print_d send_window +:+ rest)) junk with
                | Done _ c => Done c u | Exited x _ => Exited x u | Undefined x => Undefined x end) ≫= k) t
    = k (port_number, send_window) t).
  { intros k t. unfold lift, mbind, M_bind. by rewrite scan_server_in_run. }
  rewrite Hin, (bind_Done _ _ _ _ _ (lift_ret ifis tr)).
  assert (Hcons : ∀ (a b : M trace (Z * Z * list (Z * socket_info))), match ifis with [] => a | _ => b end = b)
    by by destruct ifis.
  rewrite !Hcons. cbn [fst]. destruct (Nat.leb_spec (length ifis) MAXIMUM_SOCKET).
  - destruct (server_interfaces_run port_number ifis addrs [] tr Haddrs) as (more & new & Hrun & Hs & Hg & Hc); [done|].
    rewrite (bind_Done _ _ _ _ _ Hrun). serve Hask. rewrite <- List.app_assoc. eexists more, _. split; [reflexivity|].
    split_and!; [done|goods; done|]. unfold calls in *. by rewrite fmap_app, Hc.
  - unfold mbind, M_bind. by rewrite (server_interfaces_overflow port_number ifis addrs [] tr Haddrs) by (simpl; lia).
Qed.
(** The child's sockets.  It closes the sockets of all other interfaces and no
    others, opens one of its own, bound to the address the request came in on and
    connected to the client; routing is bypassed on both of its sockets exactly for
    a local client; and the number it tells the client is that of its port. *)
Theorem child_sets_up (i : nat) (sockets : list (Z * socket_info)) (listenfd : Z) (sock : socket_info)
    (cli_port cli_addr : Z) (tr : trace) (Hi : sockets !! i = Some (listenfd, sock)) :
  ∃ childfd before last, child_socket ask port_of i sockets cli_port cli_addr tr
      = Done (childfd, htons (port_of (tr ++ before))) (tr ++ before ++ [last]) ∧
    Forall good (before ++ [last]) ∧
    calls (before ++ [last]) = child_calls i sockets listenfd childfd sock cli_port cli_addr.
Proof. exact (child_socket_run i sockets listenfd sock cli_port cli_addr tr Hi). Qed.
End serving.

(** * Client and child *)

Section handshake.
Context (connected : ptr) (port : Z) (ip : string) (p : Z).

(** A child whose sends succeed. *)
Definition sends (out : list datagram) (d : datagram) : bool := true.

(** The child waits for its client; its timer goes off [n] times. *)
Fixpoint child_waits (n : nat) : M child unit :=
  match n with
  | O => mret tt
  | S n' => child_step sends connected port ip p HsAlarm;; child_waits n'
  end.

Lemma child_alarm_run (c : child) : RTT_RXTMIN ≤ rtt_rto (c_rtt c) ≤ RTT_RXTMAX → 0 ≤ rtt_nrexmt (c_rtt c) < 12 →
  ∃ c', child_step sends connected port ip p HsAlarm c = Done tt c' ∧ c_heap c' = c_heap c ∧
    RTT_RXTMIN ≤ rtt_rto (c_rtt c') ≤ RTT_RXTMAX ∧ rtt_nrexmt (c_rtt c') = rtt_nrexmt (c_rtt c) + 1 ∧
    c_out c' = c_out c ++ [PortFrom false p; PortFrom true p].
Proof.
  intros Hr Hn. cbn [child_step].
  assert (Ht : on c_rtt child_put_rtt rtt_timeout c
    = Done 0 (child_put_rtt (set_nrexmt (rtt_nrexmt (c_rtt c) + 1) (set_rto (Z.min 3 (2 * rtt_rto (c_rtt c))) (c_rtt c))) c)).
  { unfold on. rewrite rtt_timeout_run by (done || (unfold INT_MAX; lia)). unfold RTT_MAXNREXMT.
    by destruct (Z.gtb_spec (rtt_nrexmt (c_rtt c) + 1) 12); [lia|]. }
  rewrite (bind_Done _ _ _ _ _ Ht). eexists. split; [reflexivity|]. cbn. rewrite <- List.app_assoc.
  unfold RTT_RXTMIN, RTT_RXTMAX in *. split_and!; (done || lia).
Qed.

Lemma child_waits_run n (c : child) :
  RTT_RXTMIN ≤ rtt_rto (c_rtt c) ≤ RTT_RXTMAX → 0 ≤ rtt_nrexmt (c_rtt c) → rtt_nrexmt (c_rtt c) + Z.of_nat n ≤ 12 →
  ∃ c', child_waits n c = Done tt c' ∧ c_heap c' = c_heap c ∧
    c_out c' = c_out c ++ concat (replicate n [PortFrom false p; PortFrom true p]).
Proof.
  revert c. induction n as [|n IH]; intros c Hr H0 Hn; cbn [child_waits replicate concat].
  { exists c. by rewrite List.app_nil_r. }
  destruct (child_alarm_run c Hr ltac:(lia)) as (c1 & H1 & Hh & Hr1 & Hn1 & Ho1).
  destruct (IH c1 Hr1 ltac:(lia) ltac:(lia)) as (c2 & H2 & Hh2 & Ho2). exists c2.
  rewrite (bind_Done _ _ _ _ _ H1). split_and!; [done|congruence|]. by rewrite Ho2, Ho1, <- List.app_assoc.
Qed.
End handshake.

(** C23: The client finds the child.  The child of the server binds a socket to the
    address the request came in on, asks the kernel for its port, and sends the client
    a number for it, again after each of up to 12 timeouts.  The client, which reads
    that number from any of these datagrams, connects to that address and to exactly the
    port the kernel gave; and the four bytes it announces its window in become the very
    window in the child, which stops its timer.  All calls succeed, the port is one of
    16 bits, and so is the window. *)
Theorem client_finds_child (ask cli : trace → call → Z) (port_of : trace → Z)
    (Hask : ∀ tr c, 0 ≤ ask tr c) (Hcli : ∀ tr c, 0 ≤ cli tr c) (Hport : ∀ tr, 0 ≤ port_of tr < 65536)
    (i : nat) (sockets : list (Z * socket_info)) (listenfd : Z) (sock : socket_info) (cli_port cli_addr : Z)
    (c0 : child) (connected : ptr) (l : list Pure.entry) (port : Z) (ip : string) (tv_sec : Z) (n : nat)
    (sockfd window read_rate : Z) (trs trc : trace)
    (Hi : sockets !! i = Some (listenfd, sock)) (Htable : list_at (c_heap c0) connected l)
    (Hn : (n ≤ 12)%nat) (Hw : 0 ≤ window < 65536) :
  ∃ childfd p pre last, child_socket ask port_of i sockets cli_port cli_addr trs = Done (childfd, p) (trs ++ pre ++ [last]) ∧
    (∃ opened, calls pre = opened ++ [Bind childfd (Inet (htons 0) (htonl (ip_addr sock))); Getsockname childfd]) ∧
    last.1 = Connect childfd (Inet cli_port cli_addr) ∧
  ∃ c1, (child_start sends p tv_sec;; child_waits connected port ip p n) c0 = Done tt c1 ∧
    c_out c1 = c_out c0 ++ PortFrom false p :: concat (replicate n [PortFrom false p; PortFrom true p]) ∧
  ∃ announced new, reconnect cli sockfd (ip_addr sock) (s32 (le_combine (le_split 4 (u32 p)))) window read_rate trc
      = Done (htons window) (trc ++ new) ∧
    calls new = [Connect sockfd (Inet (port_of (trs ++ pre)) (htonl (ip_addr sock))); Send sockfd announced;
                 ThreadCreate "print_out" read_rate] ∧
  ∃ c2, child_step sends connected port ip p (HsWindow (s32 (le_combine announced))) c1 = Done tt c2 ∧
    c_window c2 = Some window ∧ c_alarm c2 = 0.
Proof.
  destruct (child_socket_run ask Hask port_of i sockets listenfd sock cli_port cli_addr trs Hi)
    as (childfd & pre & last & Hs & _ & Hc).
  exists childfd, (htons (port_of (trs ++ pre))), pre, last. set (p := htons _). split; [exact Hs|].
  destruct (child_calls_last _ _ _ _ _ _ _ _ _ Hc) as [Hpre Hlast]. split; [exact Hpre|]. split; [exact Hlast|].
  assert (Hst : ∃ c, child_start sends p tv_sec c0 = Done tt c ∧ rtt_rto (c_rtt c) = 3 ∧ rtt_nrexmt (c_rtt c) = 0 ∧
    c_heap c = c_heap c0 ∧ c_out c = c_out c0 ++ [PortFrom false p]) by (eexists; split; [reflexivity|done]).
  destruct Hst as (c & Hst & Hr & H0 & Hh & Ho).
  destruct (child_waits_run connected port ip p n c) as (c1 & H1 & Hh1 & Ho1);
    [unfold RTT_RXTMIN, RTT_RXTMAX; lia|lia|lia|].
  exists c1. rewrite (bind_Done _ _ _ _ _ Hst). split; [exact H1|]. split; [by rewrite Ho1, Ho, <- List.app_assoc|].
  destruct (reconnect_run cli Hcli sockfd (ip_addr sock) (s32 (le_combine (le_split 4 (u32 p)))) window read_rate trc)
    as (new & Hrec & _ & Hcalls).
  unfold p in Hcalls at 1. rewrite int_bytes, htons_twice in Hcalls by (apply htons_range || apply Hport).
  eexists _, new. split; [exact Hrec|]. split; [exact Hcalls|]. rewrite int_bytes by apply htons_range.
  cbn [child_step]. rewrite !bind_modify. rewrite ntohs_htons, u16_small by done.
  rewrite <- Hh, <- Hh1 in Htable. destruct (DeleteSelectedNode_run _ _ _ port ip Htable) as (h' & Hd & _).
  unfold on. cbn [c_heap child_put_alarm child_put_window]. rewrite Hd. eexists. by split.
Qed.

(** * client.in *)

(** The line of the parameters; the loss rate is written with a decimal point. *)
Definition client_line (addr : string) (port_number : Z) (filename : string) (recv_window seed : Z)
    (whole frac : Decimal.uint) (read_rate : Z) (rest : string) : string :=
  addr +:+ String " " (print_d port_number +:+ String " " (filename +:+ String " " (print_d recv_window +:+
    String " " (print_d seed +:+ String " " (NilEmpty.string_of_uint whole +:+ String "." (NilEmpty.string_of_uint frac +:+
    String " " (print_d read_rate +:+ rest))))))).

Lemma scan_lf_space s : scan_lf (String " " s) = scan_lf s.
Proof. done. Qed.

(** The client's parameters.  The seven items of a line are read back as they were
    written; an address of 50 or more characters overruns its array. *)
Theorem client_in_reads (addr filename rest : string) (port_number recv_window seed read_rate : Z)
    (whole frac : Decimal.uint) (junk : client_in)
    (Haddr : is_word addr = true) (Hfile : is_word filename = true ∧ (String.length filename < MAXLINE)%nat)
    (Hp : INT_MIN ≤ port_number ≤ INT_MAX) (Hw : INT_MIN ≤ recv_window ≤ INT_MAX)
    (Hs : INT_MIN ≤ seed ≤ INT_MAX) (Hr : INT_MIN ≤ read_rate ≤ INT_MAX)
    (Hwhole : whole ≠ Decimal.Nil) (Hrest : starts_space rest = true) :
  scan_client_in (client_line addr port_number filename recv_window seed whole frac read_rate rest) junk
  = if (String.length addr <? 50)%nat then
      Done tt (mk_client_in addr port_number filename recv_window seed
                 (Z.of_uint (Decimal.app whole frac), - Z.of_nat (Decimal.nb_digits frac)) read_rate)
    else Undefined BufferOverflow.
Proof.
  unfold scan_client_in, client_line. destruct Hfile as [Hf Hlen].
  rewrite scan_s_word by done. destruct (Nat.ltb_spec (String.length addr) 50) as [Ha|Ha].
  2:{ assert (Hover : strcpy 50 addr junk = Undefined BufferOverflow).
      { unfold strcpy. by destruct (Nat.ltb_spec (String.length addr) 50); [lia|]. }
      unfold mbind at 1, M_bind at 1. by rewrite Hover. }
  rewrite (bind_Done _ _ _ _ _ (strcpy_run 50 addr _ Ha)), bind_modify, scan_d_space, scan_d_print by done.
  rewrite (bind_Done _ _ _ _ _ (int_op_ok port_number _ Hp)), bind_modify, scan_s_space, scan_s_word by done.
  rewrite (bind_Done _ _ _ _ _ (strcpy_run MAXLINE filename _ Hlen)), bind_modify, scan_d_space, scan_d_print by done.
  rewrite (bind_Done _ _ _ _ _ (int_op_ok recv_window _ Hw)), bind_modify, scan_d_space, scan_d_print by done.
  rewrite (bind_Done _ _ _ _ _ (int_op_ok seed _ Hs)), bind_modify, scan_lf_space, scan_lf_decimal by done.
  rewrite bind_modify, scan_d_space, scan_d_print by by apply ends_number_space.
  by rewrite (bind_Done _ _ _ _ _ (int_op_ok read_rate _ Hr)).
Qed.

(** * Calls that fail *)

(** Code that gives up only with [exit(1)]. *)
Definition exits_1 {St A} (m : M St A) : Prop := ∀ s, match m s with Exited c _ => c = 1 | _ => True end.

Lemma exits_1_bind {St A B} (m : M St A) (k : A → M St B) : exits_1 m → (∀ a, exits_1 (k a)) → exits_1 (m ≫= k).
Proof.
  intros Hm Hk s. unfold mbind, M_bind. specialize (Hm s). destruct (m s) as [a s'|c s'|u]; [apply Hk|done..].
Qed.

Lemma exits_1_run {St A} (m : M St A) s c s' : exits_1 m → m s = Exited c s' → c = 1.
Proof. intros Hm H. specialize (Hm s). by rewrite H in Hm. Qed.

Ltac exits_tac := repeat (intros; lazymatch goal with
  | |- exits_1 (_ ≫= _) => apply exits_1_bind
  | |- exits_1 (match ?o with _ => _ end) => destruct o
  | |- exits_1 (int_op ?x) => unfold int_op; destruct (is_int x)
  | |- exits_1 (strcpy ?n ?x) => unfold strcpy; destruct (String.length x <? n)%nat
  | |- exits_1 _ => done
  end).

Lemma client_in_exits text : exits_1 (scan_client_in text).
Proof. unfold scan_client_in. exits_tac. Qed.

Lemma server_in_exits text : exits_1 (scan_server_in text).
Proof. unfold scan_server_in. exits_tac. Qed.

Section failures.
Context (ask : trace → call → Z) (port_of : trace → Z) (inet_addr : string → Z).

Lemma stops_host_addr sa : stops (host_addr sa).
Proof. unfold host_addr, SockAddr.sin_addr, field. stops_tac. Qed.
Hint Resolve stops_host_addr : stops.

Lemma stops_client_interfaces ifis sockets : stops (client_interfaces ifis sockets).
Proof. revert sockets. induction ifis as [|i ifis IH]; intros sockets; cbn [client_interfaces]; stops_tac. Qed.

Lemma stops_client_socket srv port sockets : stops (client_socket ask inet_addr srv port sockets).
Proof. unfold client_socket. destruct (locate inet_addr srv sockets) as [[[t s] c] m]. stops_tac. Qed.

Lemma stops_server_interfaces port ifis sockets : stops (server_interfaces ask port ifis sockets).
Proof. revert sockets. induction ifis as [|i ifis IH]; intros sockets; cbn [server_interfaces]; stops_tac. Qed.

Lemma stops_close_others i j sockets : stops (close_others ask i j sockets).
Proof. revert j. induction sockets as [|[fd x] sockets IH]; intros j; cbn [close_others]; unfold when; stops_tac. Qed.
Hint Resolve stops_client_interfaces stops_client_socket stops_server_interfaces stops_close_others : stops.

Lemma stops_scan {A} (m : M A unit) junk : exits_1 m →
  stops (lift (λ u, match m junk with Done _ c => Done c u | Exited x _ => Exited x u | Undefined x => Undefined x end)).
Proof. intros Hm. apply stops_lift. intros c s s' H. specialize (Hm junk). by destruct (m junk); simplify_eq. Qed.

(** Failing calls.  Whatever the parameter files hold and whatever the kernel
    answers, client, server and child go on only while their calls succeed; the
    first failure is the last call and ends the program with 1. *)
Theorem file_starts_stop (file : option string) (cj : client_in) (sj : Z * Z) (ifis : M unit (list ifi_info))
    (i : nat) (sockets : list (Z * socket_info)) (port addr : Z) (Hifis : exits_1 ifis) :
  stops (client_main ask inet_addr file cj ifis) ∧ stops (server_main ask file sj ifis) ∧
  stops (serve_client ask port_of i sockets port addr).
Proof.
  assert (Hl : stops (lift ifis)) by (apply stops_lift; intros c s s'; by apply exits_1_run).
  pose proof client_in_exits as Hc. pose proof server_in_exits as Hs.
  split_and!.
  - unfold client_main. apply stops_bind; [stops_tac|]. intros text. apply stops_bind; [by apply stops_scan|]. stops_tac.
  - unfold server_main. apply stops_bind; [stops_tac|]. intros text. apply stops_bind; [by apply stops_scan|]. stops_tac.
  - unfold serve_client, child_socket. stops_tac. by apply stops_pure.
Qed.
End failures.

(** * SIGCHLD *)

(** The children of the server that have ended and have not been waited for, and
    whether their signal is pending: signals do not queue. *)
Record children := mk_children { zombies : nat; chld_pending : bool }.

(** [sig_chld]: one [wait].  [false]: it blocks the server. *)
Definition sig_chld : M children bool :=
  c ← get;
  match zombies c with
  | O => mret false
  | S n => modify (λ c, mk_children n (chld_pending c));; mret true
  end.

Inductive chld_event := ChildEnds | SignalDelivered.

Definition chld_step (e : chld_event) : M children bool :=
  match e with
  | ChildEnds => modify (λ c, mk_children (S (zombies c)) true);; mret true
  | SignalDelivered =>
      c ← get;
      if chld_pending c then modify (λ c, mk_children (zombies c) false);; sig_chld else mret true
  end.

(** [false]: [wait] blocked at some point. *)
Fixpoint chld_run (es : list chld_event) : M children bool :=
  match es with
  | [] => mret true
  | e :: es' => ok ← chld_step e; if (ok : bool) then chld_run es' else mret false
  end.

(** Turns of [es] that find the signal pending when a child ends. *)
Fixpoint merged (pending : bool) (es : list chld_event) : nat :=
  match es with
  | [] => 0
  | ChildEnds :: es' => (if pending then 1 else 0) + merged true es'
  | SignalDelivered :: es' => merged false es'
  end.

Lemma chld_run_from es : ∀ c, (chld_pending c = true → (0 < zombies c)%nat) →
  ∃ p : bool, chld_run es c = Done true (mk_children (zombies c + merged (chld_pending c) es
         - (if p then 0 else if chld_pending c then 1 else 0) + (if chld_pending c then 0 else if p then 1 else 0)) p).
Proof.
  induction es as [|e es IH]; intros [z p] Hc; cbn [chld_run merged zombies chld_pending] in *.
  { exists p. replace (z + 0 - (if p then 0 else if p then 1 else 0) + (if p then 0 else if p then 1 else 0))%nat with z
      by (destruct p; lia). done. }
  destruct e; cbn [chld_step].
  - rewrite <- bind_assoc_M, bind_modify. rewrite bind_ret. cbn [zombies chld_pending].
    destruct (IH (mk_children (S z) true) ltac:(simpl; lia)) as [p' ->]. exists p'. cbn [zombies chld_pending].
    do 2 f_equal. destruct p, p'; lia.
  - rewrite <- bind_assoc_M, bind_get. cbn [zombies chld_pending]. destruct p.
    + rewrite <- bind_assoc_M, bind_modify. cbn [zombies chld_pending]. unfold sig_chld. rewrite <- bind_assoc_M, bind_get.
      cbn [zombies chld_pending]. specialize (Hc eq_refl). destruct z as [|z]; [lia|].
      rewrite <- bind_assoc_M, bind_modify, bind_ret. cbn [zombies chld_pending].
      destruct (IH (mk_children z false) ltac:(done)) as [p' ->]. exists p'. cbn [zombies chld_pending].
      do 2 f_equal. destruct p'; lia.
    + rewrite bind_ret. destruct (IH (mk_children z false) ltac:(done)) as [p' ->]. exists p'.
      cbn [zombies chld_pending]. done.
Qed.

(** Children that end.  The handler never blocks the server; but it reaps one child
    per signal, and signals do not queue: a child that ends while the signal of
    another is pending is left for good. *)
Theorem children_left (es : list chld_event) :
  ∃ p : bool, chld_run es (mk_children 0 false) = Done true (mk_children (merged false es + (if p then 1 else 0)) p).
Proof.
  destruct (chld_run_from es (mk_children 0 false) ltac:(done)) as [p ->]. exists p. cbn [zombies chld_pending].
  do 2 f_equal. destruct p; lia.
Qed.

(** * Examples *)

Definition example_ifi (name : string) (addr mask : list Z) : ifi_info := mk_ifi name IFF_UP 1500 0 addr None None mask.
Definition lo_ifi : ifi_info := example_ifi "lo" (quad_sa 127 0 0 1) (quad_sa 255 0 0 0).
Definition eth_ifi : ifi_info := example_ifi "eth0" (quad_sa 130 245 1 100) (quad_sa 255 255 255 0).

Definition sockets_of_two : list (Z * socket_info) :=
  [(3, make_socket (quad [127; 0; 0; 1]) (quad [255; 0; 0; 0]));
   (6, make_socket (quad [130; 245; 1; 100]) (quad [255; 255; 255; 0]))].

(** [inet_addr] for the server of the examples, 130.245.1.114. *)
Definition remote_addr (text : string) : Z := le_combine [130; 245; 1; 114].

Lemma child_sets_up_witness : ∃ childfd before last,
  child_socket serving (λ _, 40000) 1 sockets_of_two 12345 (remote_addr EmptyString) []
    = Done (childfd, htons 40000) ([] ++ before ++ [last]) ∧
  Forall good (before ++ [last]) ∧
  calls (before ++ [last]) = child_calls 1 sockets_of_two 6 childfd
    (make_socket (quad [130; 245; 1; 100]) (quad [255; 255; 255; 0])) 12345 (remote_addr EmptyString).
Proof.
  exact (child_sets_up serving serving_ok (λ _, 40000) 1 sockets_of_two 6
    (make_socket (quad [130; 245; 1; 100]) (quad [255; 255; 255; 0])) 12345 (remote_addr EmptyString) [] eq_refl).
Defined.

Lemma client_binds_witness : ∃ sockfd new,
  client_socket serving remote_addr "130.245.1.114" 12345
    [(quad [127; 0; 0; 1], quad [255; 0; 0; 0]); (quad [130; 245; 1; 100], quad [255; 255; 255; 0])] []
    = Done (sockfd, quad [130; 245; 1; 114]) ([] ++ new) ∧ Forall good new ∧
  calls new = client_calls sockfd (quad [130; 245; 1; 100]) true 12345 (quad [130; 245; 1; 114]).
Proof.
  exact (client_binds serving serving_ok remote_addr "130.245.1.114" 12345
    [(quad [127; 0; 0; 1], quad [255; 0; 0; 0]); (quad [130; 245; 1; 100], quad [255; 255; 255; 0])] []
    ltac:(discriminate)).
Defined.

Definition waiting_child : child := mk_child (mk_rtt 0 0 0 0 0 0) heap_clients 0 None [].

Lemma client_finds_child_witness :
  ∃ childfd p pre last, child_socket serving (λ _, 40000) 1 sockets_of_two 12345 (remote_addr EmptyString) []
      = Done (childfd, p) ([] ++ pre ++ [last]) ∧
    (∃ opened, calls pre = opened ++ [Bind childfd (Inet (htons 0) (htonl (quad [130; 245; 1; 100]))); Getsockname childfd]) ∧
    last.1 = Connect childfd (Inet 12345 (remote_addr EmptyString)) ∧
  ∃ c1, (child_start sends p 1000;; child_waits (Ptr 0) 4000 "10.0.0.1" p 2) waiting_child = Done tt c1 ∧
    c_out c1 = [] ++ PortFrom false p :: concat (replicate 2 [PortFrom false p; PortFrom true p]) ∧
  ∃ announced new, reconnect serving 5 (quad [130; 245; 1; 100]) (s32 (le_combine (le_split 4 (u32 p)))) 20 100 []
      = Done (htons 20) ([] ++ new) ∧
    calls new = [Connect 5 (Inet 40000 (htonl (quad [130; 245; 1; 100]))); Send 5 announced;
                 ThreadCreate "print_out" 100] ∧
  ∃ c2, child_step sends (Ptr 0) 4000 "10.0.0.1" p (HsWindow (s32 (le_combine announced))) c1 = Done tt c2 ∧
    c_window c2 = Some 20 ∧ c_alarm c2 = 0.
Proof.
  exact (client_finds_child serving serving (λ _, 40000) serving_ok serving_ok (λ _, ltac:(lia)) 1 sockets_of_two 6
    (make_socket (quad [130; 245; 1; 100]) (quad [255; 255; 255; 0])) 12345 (remote_addr EmptyString) waiting_child
    (Ptr 0) _ 4000 "10.0.0.1" 1000 2 5 20 100 [] [] eq_refl heap_clients_list ltac:(lia) ltac:(lia)).
Defined.

Lemma two_addressed :
  addressed [lo_ifi; eth_ifi]
    [(quad [127; 0; 0; 1], quad [255; 0; 0; 0]); (quad [130; 245; 1; 100], quad [255; 255; 255; 0])].
Proof.
  apply (Forall2_app (l1:=[lo_ifi]) (l1':=[_]) (l2:=[eth_ifi]) (l2':=[_])); eapply quad_addressed; try reflexivity;
    repeat (apply Forall_cons; split; [unfold is_byte; lia|]); apply Forall_nil_2.
Qed.

Lemma server_opens_witness : ∃ sockets new,
  server_main serving (Some (print_d 12345 +:+ String " " (print_d 20 +:+ EmptyString))) (0, 0)
    (mret [lo_ifi; eth_ifi]) [] = Done (12345, 20, sockets) ([] ++ new) ∧
  snd <$> sockets = snd <$> sockets_of_two ∧ Forall good new ∧
  calls new = (sockets ≫= listening 12345) ++ [Signal 17].
Proof.
  exact (server_opens serving serving_ok 12345 20 EmptyString (0, 0) [lo_ifi; eth_ifi] _ []
    ltac:(unfold INT_MIN, INT_MAX; lia) ltac:(unfold INT_MIN, INT_MAX; lia) eq_refl ltac:(discriminate) two_addressed).
Defined.

Lemma client_in_reads_witness :
  scan_client_in "127.0.0.1 12345 data.txt 20 7 0.25 100"
    (mk_client_in EmptyString 0 EmptyString 0 0 (0, 0) 0)
  = Done tt (mk_client_in "127.0.0.1" 12345 "data.txt" 20 7 (25, -2) 100).
Proof.
  exact (client_in_reads "127.0.0.1" "data.txt" EmptyString 12345 20 7 100
    (Decimal.D0 Decimal.Nil) (Decimal.D2 (Decimal.D5 Decimal.Nil)) _ eq_refl (conj eq_refl (proj1 (Nat.ltb_lt (String.length "data.txt") MAXLINE) eq_refl))
    ltac:(unfold INT_MIN, INT_MAX; lia) ltac:(unfold INT_MIN, INT_MAX; lia)
    ltac:(unfold INT_MIN, INT_MAX; lia) ltac:(unfold INT_MIN, INT_MAX; lia) ltac:(discriminate) eq_refl).
Defined.

Lemma file_starts_stop_witness :
  stops (client_main serving remote_addr None (mk_client_in EmptyString 0 EmptyString 0 0 (0, 0) 0) (mret [])) ∧
  stops (server_main serving (Some "12345 20"%string) (0, 0) (mret [lo_ifi; eth_ifi])) ∧
  stops (serve_client serving (λ _, 40000) 1 sockets_of_two 12345 0).
Proof.
  assert (H : ∀ l : list ifi_info, exits_1 (St:=unit) (mret l)) by done.
  split; [apply (file_starts_stop serving (λ _, 40000) remote_addr None
    (mk_client_in EmptyString 0 EmptyString 0 0 (0, 0) 0) (0, 0) (mret []) 1 sockets_of_two 12345 0 (H []))|].
  apply (file_starts_stop serving (λ _, 40000) remote_addr (Some "12345 20"%string)
    (mk_client_in EmptyString 0 EmptyString 0 0 (0, 0) 0) (0, 0) _ 1 sockets_of_two 12345 0 (H _)).
Defined.
