(* ===== verification/Arp.v ===== *)
(** The ARP service of Assignment 4 (arp.c): the ARP message and its layout, the cache,
    the handlers of the event loop, and a network of such services on one Ethernet.

    A descriptor is open or closed; writing to a closed one fails.  The table of open
    descriptors is part of the state, because the service keeps the number of a
    connection after it has closed it. *)

From S2P Require Export OdrWire.

(** * Data *)

Definition vm_addr : list string := [
  "130.245.156.21"; "130.245.156.22"; "130.245.156.23"; "130.245.156.24"; "130.245.156.25";
  "130.245.156.26"; "130.245.156.27"; "130.245.156.28"; "130.245.156.29"; "130.245.156.20"
]%string.

Definition ARP_PROTO : Z := 9220. (* PROTO, 0x2404 *)

(** struct hdr *)
Record arp_hdr := mk_arp_hdr {
  ah_dst_mac : list Z;
  ah_src_mac : list Z;
  ah_proto : Z (* network order *)
}.

(** struct arp; the 16-bit fields hold values in network order. *)
Record arp := mk_arp {
  hard_type : Z;
  prot_type : Z;
  hard_size : Z;
  prot_size : Z;
  op : Z;
  src_mac : list Z;
  src_ip : string;
  dst_mac : list Z;
  dst_ip : string
}.

Record cache_entry := mk_cache {
  c_ip_addr : string;
  c_mac_addr : list Z;
  c_sockfd : Z
}.

(** What the service hands to the kernel. *)
Inductive arp_event :=
  | ToWire (sll_addr : list Z) (frame : list Z) (* sendto on interface 2 *)
  | ToTour (fd : Z) (mac : list Z)
  | Close (fd : Z).

Record arp_state := mk_arp_state {
  cache : list cache_entry;
  open_fds : list Z;
  arp_out : list arp_event
}.

Definition put_cache (x : list cache_entry) (s : arp_state) : arp_state :=
  mk_arp_state x (open_fds s) (arp_out s).
Definition put_fds (x : list Z) (s : arp_state) : arp_state :=
  mk_arp_state (cache s) x (arp_out s).
Definition put_arp_out (x : list arp_event) (s : arp_state) : arp_state :=
  mk_arp_state (cache s) (open_fds s) x.

(** * Layout *)

Definition sizeof_arp_hdr : nat := 14.
Definition sizeof_arp : nat := 50.

Definition enc_arp_hdr (h : arp_hdr) : list Z := ah_dst_mac h ++ ah_src_mac h ++ st16 (ah_proto h).

Definition enc_arp (a : arp) : list Z :=
  st16 (hard_type a) ++ st16 (prot_type a) ++ [hard_size a; prot_size a] ++ st16 (op a) ++
  src_mac a ++ enc_str ADDR_LEN (src_ip a) ++ dst_mac a ++ enc_str ADDR_LEN (dst_ip a).

Definition dec_arp_hdr (bs : list Z) : arp_hdr :=
  mk_arp_hdr (ldn bs 0 ETH_ALEN) (ldn bs 6 ETH_ALEN) (ld16 bs 12).

(** [None]: an address field without terminator. *)
Definition dec_arp (bs : list Z) : option arp :=
  s ← dec_str (ldn bs 14 ADDR_LEN);
  d ← dec_str (ldn bs 35 ADDR_LEN);
  Some (mk_arp (ld16 bs 0) (ld16 bs 2) (nth 4 bs 0) (nth 5 bs 0) (ld16 bs 6)
          (ldn bs 8 ETH_ALEN) s (ldn bs 29 ETH_ALEN) d).

Definition broadcast_mac : list Z := [255; 255; 255; 255; 255; 255].

(** * Start-up *)

(** The address and hardware address of eth0, the second interface of the list; the
    buffer [ip_addr] stays unassigned when the address is none of the ten. *)
Definition own_address (hwa : list (string * list Z)) : M unit (string * list Z) :=
  '(sa, haddr) ← of_opt NullDeref (hwa !! 1%nat);
  let index := first_index (streq sa) vm_addr in
  ip_addr ← of_opt NoTerminator (vm_addr !! index);
  mret (ip_addr, take 6 haddr).

(** [bzero(cache, ...)]; the sockets of the service are open. *)
Definition arp_init (fds : list Z) : arp_state :=
  mk_arp_state (replicate 10 (mk_cache EmptyString [0; 0; 0; 0; 0; 0] 0)) fds [].

(** * Handlers *)

Section handlers.
(** The node's own addresses, and which calls of the kernel fail for other reasons. *)
Context (ip_addr : string) (mac_addr : list Z) (kernel_ok : list arp_event → arp_event → bool).

Definition emit (e : arp_event) : M arp_state unit :=
  s ← get;
  if kernel_ok (arp_out s) e then modify (put_arp_out (arp_out s ++ [e])) else exit 1.

(** [write(fd, mac, 6)] fails on a closed descriptor. *)
Definition write_tour (fd : Z) (mac : list Z) : M arp_state unit :=
  s ← get;
  if bool_decide (fd ∈ open_fds s) then emit (ToTour fd mac) else exit 1.

Definition close (fd : Z) : M arp_state unit :=
  modify (λ s, put_arp_out (arp_out s ++ [Close fd])
                 (put_fds (filter (λ x, x ≠ fd) (open_fds s)) s)).

Definition cache_at (i : nat) : M arp_state cache_entry :=
  s ← get; rd (cache s) (Z.of_nat i).
Definition cache_set (i : nat) (e : cache_entry) : M arp_state unit :=
  s ← get;
  c ← of_opt OutOfBounds (arr_set (cache s) (Z.of_nat i) e);
  modify (put_cache c).

(** A request for this node is turned around into the reply. *)
Definition answer (h : arp_hdr) (a : arp) : M arp_state unit :=
  let h' := mk_arp_hdr (ah_src_mac h) mac_addr (ah_proto h) in
  let a' := mk_arp (hard_type a) (prot_type a) (hard_size a) (prot_size a) (htons 2)
              (src_mac a) (src_ip a) mac_addr (dst_ip a) in
  emit (ToWire (ah_dst_mac h') (enc_arp_hdr h' ++ enc_arp a')).

(** A reply goes into the cache and to the connection that asked for it. *)
Definition learn_reply (a : arp) : M arp_state unit :=
  let index := first_index (streq (dst_ip a)) vm_addr in
  e ← cache_at index;
  ip ← strcpy 15 (dst_ip a);
  cache_set index (mk_cache ip (dst_mac a) (c_sockfd e));;
  write_tour (c_sockfd e) (dst_mac a);;
  close (c_sockfd e).

(** A frame from the PF_PACKET socket; [frame] is the whole buffer. *)
Definition handle_packet (frame : list Z) : M arp_state unit :=
  let h := dec_arp_hdr frame in
  a ← of_opt NoTerminator (dec_arp (drop sizeof_arp_hdr frame));
  if ntohs (op a) =? 1 then when (streq (dst_ip a) ip_addr) (answer h a)
  else learn_reply a.

(** The request for [ip] that goes to every node. *)
Definition request_frame (ip : string) : list Z :=
  enc_arp_hdr (mk_arp_hdr broadcast_mac mac_addr (htons ARP_PROTO)) ++
  enc_arp (mk_arp (htons 1) (htons 2048) 6 4 (htons 1) mac_addr ip_addr broadcast_mac ip).

(** A connection [connfd] of the tour program and the 15 bytes it wrote. *)
Definition handle_tour (connfd : Z) (buf : list Z) : M arp_state unit :=
  modify (λ s, put_fds (connfd :: open_fds s) s);;
  ip ← of_opt NoTerminator (dec_str buf);
  let index := first_index (streq ip) vm_addr in
  e ← cache_at index;
  vm ← rd vm_addr (Z.of_nat index);
  if streq (c_ip_addr e) vm then
    write_tour connfd (c_mac_addr e);;
    close connfd
  else
    cache_set index (mk_cache (c_ip_addr e) (c_mac_addr e) connfd);;
    _ ← strcpy (St:=arp_state) 15 ip_addr;
    ip' ← strcpy 15 ip;
    emit (ToWire broadcast_mac (request_frame ip')).

Inductive arp_input := Packet (frame : list Z) | Tour (connfd : Z) (buf : list Z).

Definition arp_step (i : arp_input) : M arp_state unit :=
  match i with
  | Packet frame => handle_packet frame
  | Tour connfd buf => handle_tour connfd buf
  end.

(** One turn of the event loop: the packet socket first, then the other. *)
Definition arp_turn (packet : option (list Z)) (conn : option (Z * list Z)) : M arp_state unit :=
  match packet with Some f => arp_step (Packet f) | None => mret tt end;;
  match conn with Some (fd, buf) => arp_step (Tour fd buf) | None => mret tt end.
End handlers.

(** * Lemmas: layout *)

Definition u16_ok (x : Z) : Prop := 0 ≤ x < 2 ^ 16.
Definition arp_ok (a : arp) : Prop :=
  u16_ok (hard_type a) ∧ u16_ok (prot_type a) ∧ u16_ok (op a) ∧
  mac_ok (src_mac a) ∧ addr_ok (src_ip a) ∧ mac_ok (dst_mac a) ∧ addr_ok (dst_ip a).
Definition arp_hdr_ok (h : arp_hdr) : Prop :=
  mac_ok (ah_dst_mac h) ∧ mac_ok (ah_src_mac h) ∧ u16_ok (ah_proto h).

Ltac peel_short x := peel (st16 x) 2%nat ltac:(apply length_st16).

Lemma dec_enc_arp_hdr h rest : arp_hdr_ok h → dec_arp_hdr (enc_arp_hdr h ++ rest) = h.
Proof.
  intros ([Hd _] & [Hs _] & Hp). unfold dec_arp_hdr, enc_arp_hdr, ld16, ldn.
  rewrite <- !app_assoc. peel (ah_dst_mac h) 6%nat idtac. peel (ah_src_mac h) 6%nat idtac.
  rewrite ld_st16 by done.
  rewrite (take_app_length' (ah_dst_mac h)), (take_app_length' (ah_src_mac h)) by done. by destruct h.
Qed.

Lemma length_enc_arp_hdr h : arp_hdr_ok h → length (enc_arp_hdr h) = sizeof_arp_hdr.
Proof.
  intros ([Hd _] & [Hs _] & _). unfold enc_arp_hdr. by rewrite !length_app, Hd, Hs, length_st16.
Qed.

Lemma dec_enc_arp a rest : arp_ok a → dec_arp (enc_arp a ++ rest) = Some a.
Proof.
  intros (? & ? & ? & [Hs _] & ? & [Hd _] & ?). unfold dec_arp.
  change (nth 4 (enc_arp a ++ rest) 0) with (hard_size a).
  change (nth 5 (enc_arp a ++ rest) 0) with (prot_size a). unfold enc_arp, ld16, ldn.
  rewrite <- !app_assoc. peel_short (hard_type a). peel_short (prot_type a).
  peel [hard_size a; prot_size a] 2%nat idtac. peel_short (op a). peel (src_mac a) 6%nat idtac.
  peel_addr (src_ip a). peel (dst_mac a) 6%nat idtac.
  rewrite !dec_addr by done. cbn [mbind option_bind]. rewrite !ld_st16 by done.
  rewrite (take_app_length' (src_mac a)), (take_app_length' (dst_mac a)) by done. by destruct a.
Qed.

Lemma dec_packet h a rest :
  arp_hdr_ok h → arp_ok a →
  dec_arp_hdr ((enc_arp_hdr h ++ enc_arp a) ++ rest) = h ∧
  dec_arp (drop sizeof_arp_hdr ((enc_arp_hdr h ++ enc_arp a) ++ rest)) = Some a.
Proof.
  intros Hh Ha. rewrite <- app_assoc. split; [by apply dec_enc_arp_hdr|].
  rewrite drop_app_length' by by rewrite length_enc_arp_hdr. by apply dec_enc_arp.
Qed.

Lemma vm_ip_ok i s : vm_addr !! i = Some s → addr_ok s ∧ (i < 10)%nat.
Proof.
  intros H. pose proof (lookup_lt_Some _ _ _ H) as Hi. split; [|exact Hi].
  assert (Forall addr_ok vm_addr) as Hall by (apply (bool_decide_unpack _); vm_compute; exact I).
  rewrite Forall_forall in Hall. apply Hall. by eapply list_elem_of_lookup_2.
Qed.

Lemma vm_addr_index i s : vm_addr !! i = Some s → first_index (streq s) vm_addr = i.
Proof.
  intros H. eapply first_index_unique; [exact H|apply streq_refl|].
  intros k y Hk ->%streq_eq. assert (NoDup vm_addr) as Hnd by (apply (bool_decide_unpack _); vm_compute; exact I).
  by eapply NoDup_lookup.
Qed.

Lemma broadcast_mac_ok : mac_ok broadcast_mac.
Proof. split; [done|]. repeat constructor; vm_compute; (discriminate || done). Qed.

Lemma htons_ok x : u16_ok (htons x).
Proof. apply htons_range. Qed.

(** * Lemmas: handlers *)

Section runs.
Context (ip_addr : string) (mac_addr : list Z) (kernel_ok : list arp_event → arp_event → bool).
Abbreviation packet_in := (handle_packet ip_addr mac_addr kernel_ok).
Abbreviation tour_in := (handle_tour ip_addr mac_addr kernel_ok).

Lemma handle_packet_run h a rest s :
  arp_hdr_ok h → arp_ok a →
  packet_in ((enc_arp_hdr h ++ enc_arp a) ++ rest) s =
  (if ntohs (op a) =? 1 then when (streq (dst_ip a) ip_addr) (answer mac_addr kernel_ok h a)
   else learn_reply kernel_ok a) s.
Proof.
  intros Hh Ha. destruct (dec_packet h a rest Hh Ha) as [Hdh Hda].
  unfold handle_packet. rewrite Hdh, Hda. done.
Qed.

Lemma arr_at_lookup {A} (l : list A) i x : l !! i = Some x → arr_at l (Z.of_nat i) = Some x.
Proof. by rewrite arr_at_nat. Qed.

Lemma cache_at_run i e s : cache s !! i = Some e → cache_at i s = Done e s.
Proof. intros H. unfold cache_at. rewrite bind_get. unfold rd. by rewrite (arr_at_lookup _ _ _ H). Qed.

Lemma cache_set_run i e s :
  (i < length (cache s))%nat → cache_set i e s = Done tt (put_cache (<[i := e]> (cache s)) s).
Proof. intros H. unfold cache_set. rewrite bind_get. by rewrite arr_set_nat. Qed.

Lemma vm_short i ip : vm_addr !! i = Some ip → (String.length ip < 15)%nat.
Proof. by intros [[H _] _]%vm_ip_ok. Qed.

Context (Hk : ∀ l e, kernel_ok l e = true).

Lemma emit_run e s : emit kernel_ok e s = Done tt (put_arp_out (arp_out s ++ [e]) s).
Proof. unfold emit. rewrite bind_get. by rewrite Hk. Qed.

(** The state after a descriptor was answered and closed. *)
Definition replied (fd : Z) (mac : list Z) (s : arp_state) : arp_state :=
  mk_arp_state (cache s) (filter (λ x, x ≠ fd) (open_fds s)) (arp_out s ++ [ToTour fd mac; Close fd]).

Lemma reply_run fd mac s :
  fd ∈ open_fds s → (write_tour kernel_ok fd mac;; close fd) s = Done tt (replied fd mac s).
Proof.
  intros Hfd. unfold write_tour. rewrite <- bind_assoc_M, bind_get. rewrite bool_decide_true by done.
  run_step (emit_run (ToTour fd mac) s). unfold close, modify, replied. simpl. by rewrite <- app_assoc.
Qed.

Lemma learn_reply_run a i e s :
  vm_addr !! i = Some (dst_ip a) → cache s !! i = Some e → c_sockfd e ∈ open_fds s →
  learn_reply kernel_ok a s =
  Done tt (replied (c_sockfd e) (dst_mac a)
    (put_cache (<[i := mk_cache (dst_ip a) (dst_mac a) (c_sockfd e)]> (cache s)) s)).
Proof.
  intros Hi He Hfd. unfold learn_reply. rewrite (vm_addr_index _ _ Hi).
  run_step (cache_at_run _ _ _ He).
  erewrite bind_Done; [|unfold strcpy; destruct (Nat.ltb_spec (String.length (dst_ip a)) 15);
    [reflexivity|apply vm_short in Hi; lia]].
  run_step (cache_set_run i _ _ (lookup_lt_Some _ _ _ He)). by rewrite reply_run.
Qed.

Lemma learn_reply_closed a i e s :
  vm_addr !! i = Some (dst_ip a) → cache s !! i = Some e → c_sockfd e ∉ open_fds s →
  ∃ s', learn_reply kernel_ok a s = Exited 1 s'.
Proof.
  intros Hi He Hfd. unfold learn_reply. rewrite (vm_addr_index _ _ Hi).
  run_step (cache_at_run _ _ _ He).
  erewrite bind_Done; [|unfold strcpy; destruct (Nat.ltb_spec (String.length (dst_ip a)) 15);
    [reflexivity|apply vm_short in Hi; lia]].
  run_step (cache_set_run i _ _ (lookup_lt_Some _ _ _ He)).
  eexists. apply bind_Exited. unfold write_tour. rewrite bind_get. by rewrite bool_decide_false.
Qed.

(** The request of the tour program reaches the service with its terminator. *)
Lemma tour_start i ip connfd rest e s :
  vm_addr !! i = Some ip → cache s !! i = Some e →
  let s' := put_fds (connfd :: open_fds s) s in
  tour_in connfd (enc_str 15 ip ++ rest) s =
  (if streq (c_ip_addr e) ip
   then write_tour kernel_ok connfd (c_mac_addr e);; close connfd
   else cache_set i (mk_cache (c_ip_addr e) (c_mac_addr e) connfd);;
        _ ← strcpy (St:=arp_state) 15 ip_addr; ip' ← strcpy 15 ip;
        emit kernel_ok (ToWire broadcast_mac (request_frame ip_addr mac_addr ip'))) s'.
Proof.
  intros Hi He s'. destruct (vm_ip_ok _ _ Hi) as [[Hl Hn] _]. unfold handle_tour.
  rewrite bind_modify. rewrite dec_enc_str by done.
  erewrite bind_Done by done. rewrite (vm_addr_index _ _ Hi).
  assert (He' : cache s' !! i = Some e) by done. run_step (cache_at_run _ _ _ He').
  unfold rd. rewrite (arr_at_lookup _ _ _ Hi). done.
Qed.

(** Not in the cache: the connection is noted and the request broadcast. *)
Definition asked (i : nat) (ip : string) (connfd : Z) (e : cache_entry) (s : arp_state) : arp_state :=
  mk_arp_state (<[i := mk_cache (c_ip_addr e) (c_mac_addr e) connfd]> (cache s)) (connfd :: open_fds s)
    (arp_out s ++ [ToWire broadcast_mac (request_frame ip_addr mac_addr ip)]).

Lemma tour_miss i ip connfd rest e s :
  (String.length ip_addr < 15)%nat → vm_addr !! i = Some ip → cache s !! i = Some e → c_ip_addr e ≠ ip →
  tour_in connfd (enc_str 15 ip ++ rest) s = Done tt (asked i ip connfd e s).
Proof.
  intros Hip Hi He Hne. rewrite (tour_start i ip connfd rest e) by done.
  rewrite (proj2 (streq_neq _ _)) by done.
  run_step (cache_set_run i (mk_cache (c_ip_addr e) (c_mac_addr e) connfd)
    (put_fds (connfd :: open_fds s) s) (lookup_lt_Some _ _ _ He)).
  pose proof (vm_short _ _ Hi). unfold strcpy.
  destruct (Nat.ltb_spec (String.length ip_addr) 15), (Nat.ltb_spec (String.length ip) 15); try lia.
  rewrite !bind_ret. by rewrite emit_run.
Qed.

Lemma tour_hit i ip connfd rest e s :
  vm_addr !! i = Some ip → cache s !! i = Some e → c_ip_addr e = ip →
  tour_in connfd (enc_str 15 ip ++ rest) s =
  Done tt (replied connfd (c_mac_addr e) (put_fds (connfd :: open_fds s) s)).
Proof.
  intros Hi He Heq. rewrite (tour_start i ip connfd rest e) by done.
  rewrite (proj2 (streq_eq _ _)) by done. apply reply_run. by left.
Qed.
End runs.

(** * A network of ARP services *)

Section network.
(** The node with the address [vm_addr[n]] has the hardware address [macs n]. *)
Context (macs : nat → list Z) (Hmac : ∀ n, mac_ok (macs n)).
Context (kernel_ok : nat → list arp_event → arp_event → bool).

Definition ip_of (n : nat) : string := nth n vm_addr EmptyString.
Definition node_step (n : nat) : arp_input → M arp_state unit :=
  arp_step (ip_of n) (macs n) (kernel_ok n).

Record arp_net := mk_arp_net {
  a_st : nat → arp_state;
  a_alive : nat → bool
}.

(** A frame some node has sent. *)
Definition sent (w : arp_net) (f : list Z) : Prop := ∃ m a, ToWire a f ∈ arp_out (a_st w m).

(** What can happen at a node: any frame ever sent may arrive, any number of times and
    in any order, with anything in the buffer behind it; and the tour program may ask
    for one of the ten addresses. *)
Definition arrives (w : arp_net) (i : arp_input) : Prop :=
  match i with
  | Packet f => ∃ g junk, sent w g ∧ f = g ++ junk
  | Tour _ buf => ∃ j ip rest, vm_addr !! j = Some ip ∧ buf = enc_str 15 ip ++ rest
  end.

Definition upd {A} (f : nat → A) (n : nat) (x : A) : nat → A := λ m, if decide (m = n) then x else f m.

Inductive net_step (w : arp_net) : arp_net → Prop :=
  | net_done n i s :
      (n < 10)%nat → a_alive w n = true → arrives w i → node_step n i (a_st w n) = Done tt s →
      net_step w (mk_arp_net (upd (a_st w) n s) (a_alive w))
  | net_exit n i c s :
      (n < 10)%nat → a_alive w n = true → arrives w i → node_step n i (a_st w n) = Exited c s →
      net_step w (mk_arp_net (upd (a_st w) n s) (upd (a_alive w) n false)).

Definition net_initial (w : arp_net) : Prop := ∀ n, ∃ fds, a_st w n = arp_init fds.

(** A frame that tells no lies: a reply carries the hardware address of its node. *)
Definition honest_frame (f : list Z) : Prop :=
  ∃ h a, f = enc_arp_hdr h ++ enc_arp a ∧ arp_hdr_ok h ∧ arp_ok a ∧
    ∃ j, vm_addr !! j = Some (dst_ip a) ∧ (ntohs (op a) ≠ 1 → dst_mac a = macs j).

Definition entry_sound (i : nat) (e : cache_entry) : Prop :=
  c_ip_addr e = EmptyString ∨ (vm_addr !! i = Some (c_ip_addr e) ∧ c_mac_addr e = macs i).

Definition event_sound (ev : arp_event) : Prop :=
  match ev with
  | ToWire _ f => honest_frame f
  | ToTour _ m => ∃ i, (i < 10)%nat ∧ m = macs i
  | Close _ => True
  end.

Record state_sound (s : arp_state) : Prop := {
  ss_len : length (cache s) = 10%nat;
  ss_cache : ∀ i e, cache s !! i = Some e → entry_sound i e;
  ss_out : ∀ ev, ev ∈ arp_out s → event_sound ev
}.

Definition input_ok (i : arp_input) : Prop :=
  match i with
  | Packet f => ∃ g junk, honest_frame g ∧ f = g ++ junk
  | Tour _ buf => ∃ j ip rest, vm_addr !! j = Some ip ∧ buf = enc_str 15 ip ++ rest
  end.

Abbreviation keeps m s := (wp (λ _, state_sound) m (λ _, state_sound) s).

Lemma vm_addr_nonempty i : vm_addr !! i ≠ Some EmptyString.
Proof.
  intros H%list_elem_of_lookup_2. assert (Forall (λ s, s ≠ EmptyString) vm_addr) as Hall
    by (apply (bool_decide_unpack _); vm_compute; exact I).
  rewrite Forall_forall in Hall. by apply (Hall _ H).
Qed.

Lemma wpx_strcpy {St B} U E (d : string) (k : string → M St B) Q s :
  (String.length d < ADDR_LEN)%nat → wpx U E (k d) Q s → wpx U E (strcpy 15 d ≫= k) Q s.
Proof.
  intros H Hk. eapply wpx_run; [|exact Hk]. unfold strcpy.
  destruct (Nat.ltb_spec (String.length d) 15); [done|unfold ADDR_LEN in H; lia].
Qed.

Lemma ip_of_lookup n : (n < 10)%nat → vm_addr !! n = Some (ip_of n).
Proof. intros Hn. unfold ip_of. rewrite nth_lookup. by destruct (lookup_lt_is_Some_2 vm_addr n Hn) as [x ->].
Qed.

Lemma emit_sound k ev s : state_sound s → event_sound ev → keeps (emit k ev) s.
Proof.
  intros [H1 H2 H3] Hev. unfold emit. autorewrite with cwp. destruct (k (arp_out s) ev); [|done].
  split; [done..|]. cbn. intros x [?| ->%list_elem_of_singleton]%elem_of_app; auto.
Qed.

Lemma reply_sound k fd i s :
  state_sound s → (i < 10)%nat → keeps (write_tour k fd (macs i);; close fd) s.
Proof.
  intros Hs Hi. eapply wpx_seq with (P := λ _, state_sound).
  - unfold write_tour. rewrite wpx_bind, wpx_get. case_bool_decide; [|done].
    apply emit_sound; [done|]. by exists i.
  - intros [] s' [H1 H2 H3]. split; [done..|]. cbn.
    intros x [?| ->%list_elem_of_singleton]%elem_of_app; [auto|done].
Qed.

Lemma cache_sound_set s i e :
  state_sound s → (i < 10)%nat → entry_sound i e → state_sound (put_cache (<[i := e]> (cache s)) s).
Proof.
  intros [H1 H2 H3] Hi He. split; cbn; [by rewrite length_insert| |done].
  intros j e' Hj. destruct (decide (j = i)) as [->|Hne].
  - rewrite list_lookup_insert_eq in Hj by lia. by injection Hj as <-.
  - rewrite list_lookup_insert_ne in Hj by done. by apply H2.
Qed.

Lemma cache_lookup s i : state_sound s → (i < 10)%nat → is_Some (cache s !! i).
Proof. intros [H _ _] Hi. apply lookup_lt_is_Some. lia. Qed.

Lemma answer_sound n h a s :
  state_sound s → (n < 10)%nat → arp_hdr_ok h → arp_ok a → dst_ip a = ip_of n →
  keeps (answer (macs n) (kernel_ok n) h a) s.
Proof.
  intros Hs Hn Hh Ha Hip. unfold answer. apply emit_sound; [done|]. cbn [event_sound].
  destruct Hh as (? & ? & ?), Ha as (? & ? & ? & ? & ? & ? & ?).
  eexists _, _. split; [reflexivity|].
  split; [unfold arp_hdr_ok; cbn; auto|]. split; [unfold arp_ok; cbn; split_and!; auto; apply htons_ok|].
  exists n. cbn. split; [by rewrite Hip; apply ip_of_lookup|]. done.
Qed.

Lemma learn_sound n j a s :
  state_sound s → vm_addr !! j = Some (dst_ip a) → dst_mac a = macs j →
  keeps (learn_reply (kernel_ok n) a) s.
Proof.
  intros Hs Hj Hm. destruct (vm_ip_ok _ _ Hj) as [[Hl _] Hj10]. unfold learn_reply.
  rewrite (vm_addr_index _ _ Hj). destruct (cache_lookup s j Hs Hj10) as [e He].
  eapply wpx_run; [by apply cache_at_run|]. 
  apply wpx_strcpy; [done|].
  eapply wpx_run; [apply cache_set_run; by eapply lookup_lt_Some|]. rewrite Hm.
  apply reply_sound; [|done]. apply cache_sound_set; [done..|]. right. by split.
Qed.

Lemma request_honest n j ip :
  (n < 10)%nat → vm_addr !! j = Some ip → honest_frame (request_frame (ip_of n) (macs n) ip).
Proof.
  intros Hn Hj. destruct (vm_ip_ok _ _ Hj) as [Hip _].
  destruct (vm_ip_ok _ _ (ip_of_lookup n Hn)) as [Hown _]. pose proof broadcast_mac_ok.
  eexists _, _. split; [reflexivity|].
  split; [unfold arp_hdr_ok; cbn; split_and!; auto; apply htons_ok|].
  split; [unfold arp_ok; cbn; split_and!; auto; apply htons_ok|]. by exists j.
Qed.

Lemma node_step_sound n i s :
  (n < 10)%nat → state_sound s → input_ok i → keeps (node_step n i) s.
Proof.
  intros Hn Hs Hi. unfold node_step. destruct i as [f|fd buf]; cbn [arp_step].
  - destruct Hi as (g & junk & (h & a & -> & Hh & Ha & j & Hj & Hm) & ->).
    unfold wpx. rewrite handle_packet_run by done. destruct (Z.eqb_spec (ntohs (op a)) 1).
    + destruct (streq (dst_ip a) (ip_of n)) eqn:He; [|done]. apply streq_eq in He. by apply answer_sound.
    + apply (learn_sound n j); auto.
  - destruct Hi as (j & ip & rest & Hj & ->). destruct (vm_ip_ok _ _ Hj) as [[Hl _] Hj10].
    destruct (cache_lookup s j Hs Hj10) as [e He].
    assert (Hs' : state_sound (put_fds (fd :: open_fds s) s)) by (by destruct Hs).
    pose proof (ss_cache _ Hs _ _ He) as Hsound. unfold wpx. rewrite (tour_start _ _ _ j ip fd rest e) by done.
    destruct (streq (c_ip_addr e) ip) eqn:Hc.
    + apply streq_eq in Hc. destruct Hsound as [Hnil|[_ ->]]; [|by apply reply_sound].
      rewrite Hnil in Hc. rewrite <- Hc in Hj. by apply vm_addr_nonempty in Hj.
    + eapply wpx_run; [apply cache_set_run; rewrite (ss_len _ Hs'); done|].
      assert (Hs2 : state_sound (put_cache (<[j := mk_cache (c_ip_addr e) (c_mac_addr e) fd]>
        (cache (put_fds (fd :: open_fds s) s))) (put_fds (fd :: open_fds s) s))).
      { by apply cache_sound_set. }
      destruct (vm_ip_ok _ _ (ip_of_lookup n Hn)) as [[Ho _] _].
      do 2 (apply wpx_strcpy; [done|]). apply emit_sound; [done|]. by apply (request_honest n j).
Qed.

Lemma net_step_sound w w' :
  (∀ n, state_sound (a_st w n)) → net_step w w' → ∀ n, state_sound (a_st w' n).
Proof.
  intros Hw Hstep. assert (Hin : ∀ i, arrives w i → input_ok i).
  { intros [f|fd buf]; [|done]. intros (g & junk & (m & a & Hg) & ->).
    exists g, junk. split; [|done]. exact (ss_out _ (Hw m) _ Hg). }
  assert (Hupd : ∀ n s x, state_sound s → state_sound (upd (a_st w) n s x)).
  { intros n s x Hs. unfold upd. by destruct (decide (x = n)). }
  destruct Hstep as [n i s Hn _ Hi Hrun|n i c s Hn _ Hi Hrun]; intros x; apply Hupd;
    pose proof (node_step_sound n i _ Hn (Hw n) (Hin i Hi)) as Hk; unfold wpx in Hk; by rewrite Hrun in Hk.
Qed.

Lemma init_sound fds : state_sound (arp_init fds).
Proof.
  split; [done| |intros ev Hev; by apply not_elem_of_nil in Hev].
  intros i e He. left. apply lookup_replicate in He as [-> _]. done.
Qed.

(** C14: whatever is lost, repeated, delayed or overheard on the Ethernet, every cache
    entry of every service names an address together with the hardware address of the
    node that owns it, every connection is answered with the hardware address of a
    node, and no frame that is on its way and no request of a tour program leads a
    service into undefined behaviour. *)
Theorem arp_caches_sound w0 w :
  net_initial w0 → reach net_step w0 w →
  (∀ n i e, cache (a_st w n) !! i = Some e → c_ip_addr e = EmptyString ∨
     (vm_addr !! i = Some (c_ip_addr e) ∧ c_mac_addr e = macs i)) ∧
  (∀ n fd m, ToTour fd m ∈ arp_out (a_st w n) → ∃ i, (i < 10)%nat ∧ m = macs i) ∧
  (∀ n i u, (n < 10)%nat → arrives w i → node_step n i (a_st w n) ≠ Undefined u).
Proof.
  intros H0 Hr. assert (Hs : ∀ n, state_sound (a_st w n)).
  { eapply (reach_invariant _ (λ w, ∀ n, state_sound (a_st w n))); [|exact net_step_sound|exact Hr].
    intros n. destruct (H0 n) as [fds ->]. apply init_sound. }
  split_and!.
  - intros n i e He. by apply (ss_cache _ (Hs n)).
  - intros n fd m Hm. apply (ss_out _ (Hs n) _ Hm).
  - intros n i u Hn Hi. eapply wp_not_undefined. apply node_step_sound; [done..|].
    destruct i as [f|fd buf]; [|done]. destruct Hi as (g & junk & (m & a & Hg) & ->).
    exists g, junk. split; [|done]. exact (ss_out _ (Hs m) _ Hg).
Qed.
End network.

(** * One exchange *)

(** The reply of the node [ipB] with [macB] to a request of the node [ipA]. *)
Definition reply_frame (ipA : string) (macA : list Z) (ipB : string) (macB : list Z) : list Z :=
  enc_arp_hdr (mk_arp_hdr macA macB (htons ARP_PROTO)) ++
  enc_arp (mk_arp (htons 1) (htons 2048) 6 4 (htons 2) macA ipA macB ipB).

Section exchange.
Context (kernel_ok : list arp_event → arp_event → bool) (Hk : ∀ l e, kernel_ok l e = true).
Context (i j : nat) (ipA ipB : string) (macA macB : list Z).
Context (HiA : vm_addr !! i = Some ipA) (HiB : vm_addr !! j = Some ipB).
Context (HmA : mac_ok macA) (HmB : mac_ok macB).

Lemma request_ok :
  arp_hdr_ok (mk_arp_hdr broadcast_mac macA (htons ARP_PROTO)) ∧
  arp_ok (mk_arp (htons 1) (htons 2048) 6 4 (htons 1) macA ipA broadcast_mac ipB).
Proof.
  destruct (vm_ip_ok _ _ HiA) as [? _], (vm_ip_ok _ _ HiB) as [? _]. pose proof broadcast_mac_ok.
  unfold arp_hdr_ok, arp_ok. cbn. split_and!; auto; apply htons_ok.
Qed.

Lemma reply_ok :
  arp_hdr_ok (mk_arp_hdr macA macB (htons ARP_PROTO)) ∧
  arp_ok (mk_arp (htons 1) (htons 2048) 6 4 (htons 2) macA ipA macB ipB).
Proof.
  destruct (vm_ip_ok _ _ HiA) as [? _], (vm_ip_ok _ _ HiB) as [? _].
  unfold arp_hdr_ok, arp_ok. cbn. split_and!; auto; apply htons_ok.
Qed.

Lemma ntohs_one : ntohs (htons 1) = 1.
Proof. vm_compute. reflexivity. Qed.
Lemma ntohs_two : ntohs (htons 2) = 2.
Proof. vm_compute. reflexivity. Qed.

(** The request at a node with the address [ip]. *)
Lemma request_arrives ip mac junk s :
  handle_packet ip mac kernel_ok (request_frame ipA macA ipB ++ junk) s =
  when (streq ipB ip) (emit kernel_ok (ToWire macA
    (enc_arp_hdr (mk_arp_hdr macA mac (htons ARP_PROTO)) ++
     enc_arp (mk_arp (htons 1) (htons 2048) 6 4 (htons 2) macA ipA mac ipB)))) s.
Proof.
  destruct request_ok as [Hh Ha]. unfold request_frame. rewrite handle_packet_run by done.
  cbn [op dst_ip]. by rewrite ntohs_one.
Qed.

Lemma reply_arrives junk s e :
  cache s !! j = Some e → c_sockfd e ∈ open_fds s →
  handle_packet ipA macA kernel_ok (reply_frame ipA macA ipB macB ++ junk) s =
  Done tt (replied (c_sockfd e) macB (put_cache (<[j := mk_cache ipB macB (c_sockfd e)]> (cache s)) s)).
Proof.
  intros He Hfd. destruct reply_ok as [Hh Ha]. unfold reply_frame. rewrite handle_packet_run by done.
  cbn [op]. rewrite ntohs_two. change (2 =? 1) with false. cbv iota. by rewrite (learn_reply_run _ Hk _ j e).
Qed.

(** Later inputs of the service: any connection of a tour program, and any frame that is
    not a reply giving [ipB] to another node. *)
Definition truthful (x : arp_input) : Prop :=
  match x with
  | Packet f => ∀ a, dec_arp (drop sizeof_arp_hdr f) = Some a → ntohs (op a) ≠ 1 → dst_ip a = ipB → dst_mac a = macB
  | Tour _ _ => True
  end.

Fixpoint arp_steps (xs : list arp_input) : M arp_state unit :=
  match xs with
  | [] => mret tt
  | x :: xs' => arp_step ipA macA kernel_ok x;; arp_steps xs'
  end.

(** The cache knows the node; the connection noted with it may change. *)
Definition knows (s : arp_state) : Prop := ∃ fd, cache s !! j = Some (mk_cache ipB macB fd).

Lemma emit_knows ev : preserves knows (emit kernel_ok ev).
Proof. apply preserves_read. intros s Hs. by destruct (kernel_ok _ _). Qed.

Lemma reply_knows fd mac : preserves knows (write_tour kernel_ok fd mac;; close fd).
Proof.
  apply preserves_bind; [|intros _; by apply preserves_modify]. unfold write_tour. apply preserves_read. intros s Hs.
  destruct (bool_decide _); [by apply emit_knows|done].
Qed.

Lemma cache_set_knows k e : (k = j → c_ip_addr e = ipB ∧ c_mac_addr e = macB) → preserves knows (cache_set k e).
Proof.
  intros He. apply preserves_read. intros s [fd Hs]. destruct (decide (k < length (cache s))%nat) as [Hlt|Hge].
  - rewrite arr_set_nat by done. exists (if decide (k = j) then c_sockfd e else fd). destruct (decide (k = j)) as [->|Hne].
    + cbn. rewrite list_lookup_insert_eq by done. destruct (He eq_refl) as [<- <-]. by destruct e.
    + cbn. by rewrite list_lookup_insert_ne.
  - unfold arr_set. destruct (Z.leb_spec 0 (Z.of_nat k)), (Z.ltb_spec (Z.of_nat k) (Z.of_nat (length (cache s)))); (lia || done).
Qed.

Lemma index_is_B ip : first_index (streq ip) vm_addr = j → ip = ipB.
Proof.
  intros Hj. pose proof (lookup_lt_Some _ _ _ HiB) as Hlt. rewrite <- Hj in Hlt.
  destruct (first_index_lookup _ _ Hlt) as (x & Hx & ->%streq_eq). rewrite Hj in Hx. congruence.
Qed.

Lemma strcpy_knows n ip : preserves knows (strcpy n ip).
Proof. unfold strcpy. destruct (_ <? _)%nat; [apply preserves_ret|apply preserves_undef]. Qed.

Lemma learn_knows a : (dst_ip a = ipB → dst_mac a = macB) → preserves knows (learn_reply kernel_ok a).
Proof.
  intros Ha. unfold learn_reply. cbv zeta. apply preserves_bind; [apply preserves_read; intros s; apply preserves_rd|].
  intros e. unfold strcpy. destruct (String.length (dst_ip a) <? 15)%nat; [|intros s Hs; exact I].
  intros s Hs. rewrite wpx_bind, wpx_ret. revert s Hs. apply preserves_bind; [|intros _; apply reply_knows].
  apply cache_set_knows. cbn [c_ip_addr c_mac_addr]. intros Hidx%index_is_B. auto.
Qed.

Lemma tour_knows fd buf : preserves knows (handle_tour ipA macA kernel_ok fd buf).
Proof.
  unfold handle_tour. apply preserves_bind; [by apply preserves_modify|]. intros _.
  apply preserves_bind; [apply preserves_of_opt|]. intros ip. cbv zeta. set (k := first_index _ _).
  intros s Hs. unfold cache_at. rewrite !wpx_bind, wpx_get. unfold rd. rewrite arr_at_nat.
  destruct (cache s !! k) as [e|] eqn:He; [|exact I]. cbn [of_opt]. rewrite wpx_ret.
  assert (Hset : k = j → c_ip_addr e = ipB ∧ c_mac_addr e = macB).
  { intros Hkj. destruct Hs as [fd' Hs]. rewrite Hkj, Hs in He. by injection He as <-. }
  clear He. revert s Hs.
  apply preserves_bind; [apply preserves_of_opt|]. intros vm. destruct (streq (c_ip_addr e) vm).
  { apply reply_knows. }
  apply preserves_bind; [by apply cache_set_knows|]. intros _.
  apply preserves_bind; [apply strcpy_knows|]. intros _. apply preserves_bind; [apply strcpy_knows|]. intros ip'. apply emit_knows.
Qed.

Lemma step_knows x : truthful x → preserves knows (arp_step ipA macA kernel_ok x).
Proof.
  intros Hx. destruct x as [f|fd buf]; cbn [arp_step]; [|apply tour_knows].
  unfold handle_packet. cbv zeta. destruct (dec_arp _) as [a|] eqn:Ha; [|intros s Hs; exact I].
  cbn [of_opt]. intros s Hs. rewrite wpx_bind, wpx_ret. revert s Hs.
  destruct (Z.eqb_spec (ntohs (op a)) 1) as [|Hop]; [apply preserves_when; unfold answer; apply emit_knows|].
  apply learn_knows. intros Hip. by apply (Hx a).
Qed.

Lemma steps_know xs : Forall truthful xs → preserves knows (arp_steps xs).
Proof.
  induction 1 as [|x xs Hx _ IH]; cbn [arp_steps]; [apply preserves_ret|].
  apply preserves_bind; [by apply step_knows|]. by intros _.
Qed.

(** C24: A tour program that asks for an address that is not in the cache gets it: the
    service broadcasts a request; the node with the address, and no other, answers it;
    the answer is written to the connection that asked, which is closed; and from then on,
    whatever other requests, answers and repeated answers of that node come in, as long
    as the service runs, a request for the address is answered from the cache at once.
    No call fails for a reason of the kernel.  (An answer that nobody waits for may end
    the service, or reach another connection: see [repeated_reply_misdirected].) *)
Theorem arp_exchange connfd e sA :
  cache sA !! j = Some e → c_ip_addr e ≠ ipB →
  ∃ sA1 sA2,
    handle_tour ipA macA kernel_ok connfd (enc_str 15 ipB) sA = Done tt sA1 ∧
    arp_out sA1 = arp_out sA ++ [ToWire broadcast_mac (request_frame ipA macA ipB)] ∧
    (∀ junk sB, handle_packet ipB macB kernel_ok (request_frame ipA macA ipB ++ junk) sB =
       Done tt (put_arp_out (arp_out sB ++ [ToWire macA (reply_frame ipA macA ipB macB)]) sB)) ∧
    (∀ junk ipC macC sC, ipC ≠ ipB →
       handle_packet ipC macC kernel_ok (request_frame ipA macA ipB ++ junk) sC = Done tt sC) ∧
    (∀ junk, handle_packet ipA macA kernel_ok (reply_frame ipA macA ipB macB ++ junk) sA1 = Done tt sA2) ∧
    arp_out sA2 = arp_out sA1 ++ [ToTour connfd macB; Close connfd] ∧
    ∀ xs sA3, Forall truthful xs → arp_steps xs sA2 = Done tt sA3 →
    ∀ fd, ∃ sA4, handle_tour ipA macA kernel_ok fd (enc_str 15 ipB) sA3 = Done tt sA4 ∧
                 arp_out sA4 = arp_out sA3 ++ [ToTour fd macB; Close fd].
Proof.
  intros He Hne. pose proof (vm_short _ _ HiA) as HlA.
  rewrite <- (app_nil_r (enc_str 15 ipB)).
  assert (Hlk : cache (asked ipA macA j ipB connfd e sA) !! j = Some (mk_cache (c_ip_addr e) (c_mac_addr e) connfd)).
  { cbn. apply list_lookup_insert_eq. by eapply lookup_lt_Some. }
  eexists (asked ipA macA j ipB connfd e sA), _. split; [by apply (tour_miss _ _ _ Hk)|]. split; [done|]. split.
  { intros junk sB. rewrite request_arrives, streq_refl. by apply (emit_run _ Hk). }
  split; [intros junk ipC macC sC HC; rewrite request_arrives; by rewrite (proj2 (streq_neq _ _))|].
  split; [intros junk; apply (reply_arrives junk _ _ Hlk); by left|].
  split; [done|]. intros xs sA3 Hxs Hrun fd.
  assert (Hknown : knows sA3).
  { refine (preserves_Done _ _ _ _ _ (steps_know xs Hxs) _ Hrun). exists connfd. cbn.
    rewrite list_lookup_insert_eq; [reflexivity|]. rewrite length_insert. by eapply lookup_lt_Some. }
  destruct Hknown as [fd' Hknown]. eexists. split; [by eapply (tour_hit _ _ _ Hk j ipB fd [] (mk_cache ipB macB fd'))|done].
Qed.
End exchange.

(** * A run *)

Definition mac_of (n : nat) : list Z := [2; 0; 0; 0; 0; Z.of_nat (Nat.min n 9)].
Definition all_ok (l : list arp_event) (e : arp_event) : bool := true.
Definition quiet : arp_net := mk_arp_net (λ _, arp_init [0]) (λ _, true).
Definition node1 (i : arp_input) (s : arp_state) : arp_state :=
  match node_step mac_of (λ _, all_ok) 0 i s with Done _ s' => s' | _ => s end.
Definition ask_for (fd : Z) (n : nat) : arp_input := Tour fd (enc_str 15 (ip_of n)).
Definition reply_from (n : nat) : arp_input :=
  Packet (reply_frame (ip_of 0) (mac_of 0) (ip_of n) (mac_of n)).

Lemma mac_of_ok n : mac_ok (mac_of n).
Proof. split; [done|]. unfold mac_of. repeat constructor; unfold is_byte; lia. Qed.

Lemma arp_exchange_witness :
  ∃ sA1 sA2, handle_tour (ip_of 0) (mac_of 0) all_ok 5 (enc_str 15 (ip_of 1)) (arp_init [0]) = Done tt sA1 ∧
    handle_packet (ip_of 0) (mac_of 0) all_ok (reply_frame (ip_of 0) (mac_of 0) (ip_of 1) (mac_of 1)) sA1
      = Done tt sA2 ∧
    arp_out sA2 = arp_out sA1 ++ [ToTour 5 (mac_of 1); Close 5].
Proof.
  destruct (arp_exchange all_ok (λ _ _, eq_refl) 0 1 (ip_of 0) (ip_of 1) (mac_of 0) (mac_of 1) eq_refl eq_refl
    (mac_of_ok 0) (mac_of_ok 1) 5 (mk_cache EmptyString [0; 0; 0; 0; 0; 0] 0) (arp_init [0]) eq_refl
    ltac:(discriminate)) as (s1 & s2 & H1 & _ & _ & _ & H2 & H3 & _).
  exists s1, s2. split; [exact H1|]. split; [|exact H3]. specialize (H2 []). rewrite app_nil_r in H2. exact H2.
Defined.

Definition asked_net : arp_net :=
  mk_arp_net (upd (a_st quiet) 0 (node1 (ask_for 5 1) (arp_init [0]))) (a_alive quiet).

Lemma asked_net_step : net_step mac_of (λ _, all_ok) quiet asked_net.
Proof.
  apply (net_done _ _ quiet 0 (ask_for 5 1)); [lia|reflexivity| |vm_compute; reflexivity].
  exists 1%nat, (ip_of 1), []. split; [reflexivity|]. by rewrite app_nil_r.
Qed.

Lemma arp_caches_sound_witness :
  (cache (a_st asked_net 0) !! 1%nat = Some (mk_cache EmptyString [0; 0; 0; 0; 0; 0] 5)) ∧
  (c_ip_addr (mk_cache EmptyString [0; 0; 0; 0; 0; 0] 5) = EmptyString ∨
   vm_addr !! 1%nat = Some EmptyString ∧ [0; 0; 0; 0; 0; 0] = mac_of 1) ∧
  node_step mac_of (λ _, all_ok) 0 (ask_for 6 2) (a_st asked_net 0) ≠ Undefined OutOfBounds.
Proof.
  destruct (arp_caches_sound mac_of mac_of_ok (λ _, all_ok) quiet asked_net
    (λ n, ex_intro _ [0] eq_refl) (reach_step _ _ _ _ (reach_refl _ _) asked_net_step)) as (H1 & _ & H3).
  split; [vm_compute; reflexivity|]. split; [exact (H1 0%nat 1%nat _ ltac:(vm_compute; reflexivity))|].
  apply (H3 0%nat); [lia|]. exists 2%nat, (ip_of 2), []. split; [reflexivity|]. by rewrite app_nil_r.
Defined.

(** A cache entry keeps the number of a connection that was closed.  When the next
    connection gets the same number and asks for another node, a repeated reply of the
    first node is written to it: it is told a wrong hardware address, and closed.  A
    reply nobody asked for is written to descriptor 0, and when the number is not in
    use a repeated reply ends the service. *)
Theorem repeated_reply_misdirected :
  arp_out (node1 (reply_from 1) (node1 (ask_for 5 2) (node1 (reply_from 1) (node1 (ask_for 5 1) (arp_init [0])))))
    !! 4%nat = Some (ToTour 5 (mac_of 1)) ∧
  arp_out (node1 (reply_from 1) (arp_init [0])) = [ToTour 0 (mac_of 1); Close 0] ∧
  ∃ s, node_step mac_of (λ _, all_ok) 0 (reply_from 1) (node1 (reply_from 1) (arp_init [0])) = Exited 1 s.
Proof. split; [vm_compute; reflexivity|]. split; [vm_compute; reflexivity|]. eexists. vm_compute. reflexivity. Qed.
