(* ===== verification/Tour.v ===== *)
(** The tour program of Assignment 4 (tour.c): the source-route packet of a tour and
    how every node forwards it, the pinging of the previous node, the multicast
    messages that end the tour, and the client side of the ARP service.

    A handler of the event loop and the handler of SIGALRM each run to completion; a
    run is any sequence of them.  The table [vm_addr] is the one of arp.c. *)

From S2P Require Export Arp.

(** * Data *)

Definition TOUR_PROTO : Z := 64. (* PROTO, 0x40 *)
Definition TOUR_ID : Z := 9220. (* ID, 0x2404 *)
Definition multicast_ip : string := "224.1.1.1".
Definition IPVERSION : Z := 4.

(** struct ip and what follows it.  16-bit fields hold values in network order,
    addresses are the four bytes as they are in memory; the kernel fills in the
    checksum. *)
Record ip_packet := mk_packet {
  ip_hl : Z;
  ip_v : Z;
  ip_tos : Z;
  ip_len : Z;
  ip_id : Z;
  ip_off : Z;
  ip_ttl : Z;
  ip_p : Z;
  ip_src : list Z;
  ip_dst : list Z;
  ip_body : list Z
}.

Definition sizeof_ip : Z := 20.

(** What the program hands to the kernel, and the lines of a ping. *)
Inductive tour_event :=
  | Join (* mcast_join and mcast_set_ttl *)
  | Route (p : ip_packet)
  | AskArp (line : list Z)
  | Multicast (msg : string)
  | Ping (addr : string) (seq : Z).

Record tour := mk_tour {
  visited : Z;
  option_ : Z; (* option *)
  last_node : Z;
  ping_addr : list string;
  ping_cnt : list Z;
  ping_no : Z;
  t_alarm : Z; (* seconds of the running alarm, 0 when off *)
  t_out : list tour_event
}.

Definition put_visited (x : Z) (s : tour) : tour :=
  mk_tour x (option_ s) (last_node s) (ping_addr s) (ping_cnt s) (ping_no s) (t_alarm s) (t_out s).
Definition put_option (x : Z) (s : tour) : tour :=
  mk_tour (visited s) x (last_node s) (ping_addr s) (ping_cnt s) (ping_no s) (t_alarm s) (t_out s).
Definition put_last (x : Z) (s : tour) : tour :=
  mk_tour (visited s) (option_ s) x (ping_addr s) (ping_cnt s) (ping_no s) (t_alarm s) (t_out s).
Definition put_ping (a : list string) (c : list Z) (n : Z) (s : tour) : tour :=
  mk_tour (visited s) (option_ s) (last_node s) a c n (t_alarm s) (t_out s).
Definition put_t_alarm (x : Z) (s : tour) : tour :=
  mk_tour (visited s) (option_ s) (last_node s) (ping_addr s) (ping_cnt s) (ping_no s) x (t_out s).
Definition put_t_out (x : list tour_event) (s : tour) : tour :=
  mk_tour (visited s) (option_ s) (last_node s) (ping_addr s) (ping_cnt s) (ping_no s) (t_alarm s) x.

(** The globals before [main]. *)
Definition tour_init : tour :=
  mk_tour 0 0 0 (replicate 10 EmptyString) (replicate 10 0) 0 0 [].

(** * Addresses: [inet_pton], [inet_ntop] and [atoi] of the C library *)

Definition inet_ntop (bs : list Z) : string :=
  match bs with
  | [a; b; c; d] => print_d a +:+ "." +:+ print_d b +:+ "." +:+ print_d c +:+ "." +:+ print_d d
  | _ => EmptyString
  end.

(** One number of 0 to 255 without leading zeros. *)
Definition octet (s : string) : option (Z * string) :=
  let '(d, r) := span_uint s in
  let v := Z.of_uint d in
  if (0 <=? v) && (v <=? 255) && streq (print_d v +:+ r) s then Some (v, r) else None.

Definition dot (s : string) : option string :=
  match s with String c r => if Ascii.eqb c "." then Some r else None | EmptyString => None end.

Definition inet_pton (s : string) : option (list Z) :=
  '(a, r) ← octet s; r ← dot r; '(b, r) ← octet r; r ← dot r;
  '(c, r) ← octet r; r ← dot r; '(d, r) ← octet r;
  if streq r EmptyString then Some [a; b; c; d] else None.

(** [atoi] of a string of at most one character. *)
Definition atoi1 (s : string) : Z := Z.of_uint (span_uint s).1.

(** * The program *)

Section tour.
(** The node number, the two bytes at the pointer [multicast_port], and which datagrams
    the kernel takes. *)
Context (node : Z) (port_bytes : list Z) (send_ok : list tour_event → tour_event → bool).

Definition emit_tour (e : tour_event) : M tour unit :=
  s ← get;
  if send_ok (t_out s) e then modify (put_t_out (t_out s ++ [e])) else exit 1.

(** An entry of [source_route[index]] for the argument [arg]. *)
Definition route_entry (arg : string) : M tour string :=
  if (String.length arg =? 3)%nat
  then rd vm_addr (atoi1 (String.substring 2 1 arg) - 1)
  else rd vm_addr 9.

Fixpoint source_route (args : list string) : M tour (list string) :=
  match args with
  | [] => mret []
  | a :: args' => x ← route_entry a; l ← source_route args'; mret (x :: l)
  end.

(** The source-route data: group address, two bytes for its port, place in the route,
    length of the route, the route. *)
Definition route_body (offset total : Z) (route : list string) : list Z :=
  enc_str 10 multicast_ip ++ port_bytes ++ st32 offset ++ st32 total ++
  mjoin (enc_str 15 <$> route).

(** The header both at the source and at every other node. *)
Definition route_packet (len : Z) (src dst body : list Z) : ip_packet :=
  mk_packet 5 IPVERSION 0 (htons len) (htons TOUR_ID) (htons 0) 1 TOUR_PROTO src dst body.

Definition pton_or_exit (s : string) : M tour (list Z) :=
  match inet_pton s with Some a => mret a | None => exit 1 end.

(** The start of a tour; [args] are the arguments behind the program's name.  The route
    has room for 20 entries. *)
Definition start_tour (args : list string) : M tour unit :=
  match args with
  | [] => mret tt
  | _ =>
      modify (put_visited 1);;
      emit_tour Join;;
      if (20 <=? length args)%nat then undef OutOfBounds
      else
        first ← rd vm_addr (node - 1);
        others ← source_route args;
        let route := first :: others in
        let body := route_body 2 (Z.of_nat (length route)) route in
        src ← pton_or_exit first;
        second ← of_opt OutOfBounds (route !! 1%nat);
        dst ← pton_or_exit second;
        emit_tour (Route (route_packet (sizeof_ip + Z.of_nat (length body)) src dst body))
  end.

(** SIGALRM: ping every node of the table once, or end the tour. *)
Definition ping_one (index : nat) : M tour unit :=
  s ← get;
  a ← rd (ping_addr s) (Z.of_nat index);
  n ← rd (ping_cnt s) (Z.of_nat index);
  n' ← int_op (n + 1);
  c ← of_opt OutOfBounds (arr_set (ping_cnt s) (Z.of_nat index) n');
  modify (put_ping (ping_addr s) c (ping_no s));;
  modify (λ s, put_t_out (t_out s ++ [Ping a n]) s).

Definition end_message : string :=
  "<<<<<This is node VM" +:+ print_d node +:+
  ". Tour has ended. Group members please identify yourselves>>>>>".
Definition member_message : string :=
  "<<<<<Node VM" +:+ print_d node +:+ ": I am a member of the group>>>>>".

Definition sig_alrm : M tour unit :=
  s ← get;
  if option_ s =? 0 then
    c ← rd (ping_cnt s) 0;
    if (c =? 5) && (last_node s =? 1) then emit_tour (Multicast end_message)
    else
      for_ 0 (Z.to_nat (ping_no s)) ping_one;;
      modify (put_t_alarm 1)
  else exit 0.

(** [areq]: ask the ARP service; [reply] is what [read] reports. *)
Definition areq (addr : list Z) (reply : option (list Z)) : M tour (list Z) :=
  ip ← strcpy 15 (inet_ntop addr);
  emit_tour (AskArp (enc_str 15 ip));;
  match reply with Some mac => mret mac | None => exit 1 end.

(** The next node of the route, and the packet on to it.  [payload] is the 1000 bytes
    allocated for the data, [len] its length. *)
Definition forward (payload : list Z) (offset : Z) (len : nat) : M tour unit :=
  offset' ← int_op (offset + 1);
  let payload' := take 12 payload ++ st32 offset' ++ drop 16 payload in
  let at_ := offset' * 15 + 5 in
  if (at_ <? 0) || (1000 <? at_ + 15) then undef OutOfBounds
  else
    dst_ip ← of_opt NoTerminator (dec_str (ldn payload' (Z.to_nat at_) 15));
    me ← rd vm_addr (node - 1);
    src ← pton_or_exit me;
    dst ← pton_or_exit dst_ip;
    emit_tour (Route (route_packet (sizeof_ip + Z.of_nat len) src dst (take len payload'))).

(** Start to ping [src_ip], unless it is pinged already. *)
Definition start_ping (src_ip : string) : M tour unit :=
  s ← get;
  let index := first_index (streq src_ip) (take (Z.to_nat (ping_no s)) (ping_addr s)) in
  when (Z.of_nat index =? ping_no s)
    (a ← of_opt OutOfBounds (arr_set (ping_addr s) (ping_no s) src_ip);
     c ← of_opt OutOfBounds (arr_set (ping_cnt s) (ping_no s) 0);
     modify (put_ping a c (ping_no s + 1));;
     sig_alrm).

(** A packet on the raw socket; [junk] is what [malloc] leaves in the payload. *)
Definition handle_route (p : ip_packet) (junk : list Z) (reply : option (list Z)) : M tour unit :=
  when (ntohs (ip_id p) =? TOUR_ID)
    (let src_ip := inet_ntop (ip_src p) in
     (if (15 <=? String.length src_ip)%nat then exit 1 else mret tt);;
     s ← get;
     when (visited s =? 0) (modify (put_visited 1);; emit_tour Join);;
     let len := length (ip_body p) in
     (if (1000 <? len)%nat then undef BufferOverflow else mret tt);;
     let payload := ip_body p ++ drop len junk in
     let offset := ld32 payload 12 in
     let total := ld32 payload 16 in
     (if offset =? total then modify (put_last 1) else forward payload offset len);;
     addr ← pton_or_exit src_ip;
     areq addr reply;;
     start_ping src_ip).

(** The same in two parts, because [areq] waits for the ARP service: until it reads
    (the address to ping and the 15 bytes written to the service; [None] for a packet
    of someone else), and when it has its answer. *)
Definition route_arrives (p : ip_packet) (junk : list Z) : M tour (option (string * list Z)) :=
  if ntohs (ip_id p) =? TOUR_ID then
    let src_ip := inet_ntop (ip_src p) in
    (if (15 <=? String.length src_ip)%nat then exit 1 else mret tt);;
    s ← get;
    when (visited s =? 0) (modify (put_visited 1);; emit_tour Join);;
    let len := length (ip_body p) in
    (if (1000 <? len)%nat then undef BufferOverflow else mret tt);;
    let payload := ip_body p ++ drop len junk in
    let offset := ld32 payload 12 in
    let total := ld32 payload 16 in
    (if offset =? total then modify (put_last 1) else forward payload offset len);;
    addr ← pton_or_exit src_ip;
    ip ← strcpy 15 (inet_ntop addr);
    emit_tour (AskArp (enc_str 15 ip));;
    mret (Some (src_ip, enc_str 15 ip))
  else mret None.

Definition route_answered (src_ip : string) (reply : option (list Z)) : M tour unit :=
  match reply with Some mac => start_ping src_ip | None => exit 1 end.

(** A multicast message: the first one is answered and stops the pinging. *)
Definition handle_multicast (msg : string) : M tour unit :=
  s ← get;
  when (option_ s =? 0)
    (modify (put_option 1);;
     emit_tour (Multicast member_message);;
     modify (put_t_alarm 5)).

Inductive tour_input :=
  | RoutePacket (p : ip_packet) (junk : list Z) (reply : option (list Z))
  | Message (msg : string)
  | AlarmRings.

Definition tour_step (i : tour_input) : M tour unit :=
  match i with
  | RoutePacket p junk reply => handle_route p junk reply
  | Message msg => handle_multicast msg
  | AlarmRings =>
      s ← get;
      when (negb (t_alarm s =? 0)) (modify (put_t_alarm 0);; sig_alrm)
  end.

Fixpoint tour_steps (l : list tour_input) : M tour unit :=
  match l with [] => mret tt | i :: l' => tour_step i;; tour_steps l' end.
End tour.

(** * Lemmas: addresses and the packet *)

Lemma vm_addr_inet i s :
  vm_addr !! i = Some s → ∃ b, inet_pton s = Some b ∧ inet_ntop b = s.
Proof.
  intros H%list_elem_of_lookup_2.
  assert (Forall (λ s, ∃ b, inet_pton s = Some b ∧ inet_ntop b = s) vm_addr) as Hall.
  { repeat (apply Forall_cons_2; [eexists; split; vm_compute; reflexivity|]). apply Forall_nil_2. }
  rewrite Forall_forall in Hall. by apply Hall.
Qed.

(** The four bytes of an address. *)
Definition addr_bytes (s : string) : list Z := default [] (inet_pton s).

Lemma vm_addr_bytes i s : vm_addr !! i = Some s → inet_pton s = Some (addr_bytes s) ∧ inet_ntop (addr_bytes s) = s.
Proof. intros (b & Hb & Hs)%vm_addr_inet. unfold addr_bytes. by rewrite Hb. Qed.

Section packet.
Context (port_bytes : list Z) (Hport : length port_bytes = 2%nat).

(** A route: every stop is one of the ten addresses. *)
Definition stops (route : list string) : Prop := Forall (λ s, s ∈ vm_addr) route.

Lemma stops_addr route i s : stops route → route !! i = Some s → ∃ j, vm_addr !! j = Some s.
Proof.
  unfold stops. rewrite Forall_forall. intros H Hi%list_elem_of_lookup_2.
  by apply list_elem_of_lookup_1, H.
Qed.

Lemma length_stop s : s ∈ vm_addr → length (enc_str 15 s) = 15%nat.
Proof. intros [i Hi]%list_elem_of_lookup_1. apply vm_ip_ok in Hi as [Hs _]. by apply length_enc_addr. Qed.

Lemma join_stop s route :
  mjoin (enc_str 15 <$> s :: route) = enc_str 15 s ++ mjoin (enc_str 15 <$> route).
Proof. done. Qed.

Lemma length_stops route : stops route → length (mjoin (enc_str 15 <$> route)) = (15 * length route)%nat.
Proof.
  induction 1 as [|s route Hs _ IH]; [done|]. rewrite join_stop. cbn [length]. rewrite length_app, length_stop, IH by done. lia.
Qed.

Lemma length_group : length (enc_str 10 multicast_ip) = 10%nat.
Proof. reflexivity. Qed.

Lemma length_route_body o t route :
  stops route → length (route_body port_bytes o t route) = (20 + 15 * length route)%nat.
Proof.
  intros Hr. unfold route_body. rewrite !length_app, length_group, Hport, !length_st32, length_stops by done. lia.
Qed.

Ltac peel_group := peel (enc_str 10 multicast_ip) 10%nat ltac:(reflexivity).
Ltac peel_port := peel port_bytes 2%nat ltac:(exact Hport).

Lemma read_offset o t route rest : int_ok o → ld32 (route_body port_bytes o t route ++ rest) 12 = o.
Proof.
  intros Ho. unfold ld32, route_body. rewrite <- !app_assoc. peel_group. peel_port. by apply ld_st32.
Qed.

Lemma read_total o t route rest : int_ok t → ld32 (route_body port_bytes o t route ++ rest) 16 = t.
Proof.
  intros Ho. unfold ld32, route_body. rewrite <- !app_assoc. peel_group. peel_port. peel_int o. by apply ld_st32.
Qed.

Lemma set_offset o o' t route rest :
  take 12 (route_body port_bytes o t route ++ rest) ++ st32 o' ++ drop 16 (route_body port_bytes o t route ++ rest) =
  route_body port_bytes o' t route ++ rest.
Proof.
  unfold route_body. rewrite <- !app_assoc.
  rewrite (take_app_add' (enc_str 10 multicast_ip) _ 10 2) by done.
  rewrite (take_app_length' port_bytes) by done. rewrite <- !app_assoc. do 3 f_equal.
  peel_group. peel_port. peel_int o. done.
Qed.

Lemma drop_stops route k rest :
  stops route → (k ≤ length route)%nat →
  drop (15 * k) (mjoin (enc_str 15 <$> route) ++ rest) = mjoin (enc_str 15 <$> drop k route) ++ rest.
Proof.
  intros Hr. revert k. induction Hr as [|s route Hs Hr IH]; intros k Hk; simpl in Hk.
  - by replace k with 0%nat by lia.
  - destruct k as [|k]; [done|]. rewrite join_stop. cbn [drop]. rewrite <- app_assoc.
    rewrite (drop_app_plus _ _ _ 15) by (by apply length_stop || lia).
    replace (15 * S k - 15)%nat with (15 * k)%nat by lia. apply IH. lia.
Qed.

Lemma read_stop o t route k s rest :
  stops route → route !! k = Some s →
  dec_str (ldn (route_body port_bytes o t route ++ rest) (15 * k + 20) 15) = Some s.
Proof.
  intros Hr Hk. pose proof (lookup_lt_Some _ _ _ Hk). unfold ldn, route_body. rewrite <- !app_assoc.
  peel_group. peel_port. peel_int o. peel_int t.
  replace (15 * k + 20 - 10 - 2 - 4 - 4)%nat with (15 * k)%nat by lia.
  rewrite drop_stops by (done || lia). rewrite (drop_S _ _ _ Hk).
  rewrite join_stop, <- app_assoc. destruct (stops_addr _ _ _ Hr Hk) as [j Hj].
  apply vm_ip_ok in Hj as [Hs _]. by apply dec_addr.
Qed.
End packet.

(** * Lemmas: the ping table *)

Definition routes_of (l : list tour_event) : list ip_packet :=
  omap (λ e, match e with Route p => Some p | _ => None end) l.

Lemma routes_of_app l l' : routes_of (l ++ l') = routes_of l ++ routes_of l'.
Proof. apply omap_app. Qed.

Definition messages_of (l : list tour_event) : list string :=
  omap (λ e, match e with Multicast m => Some m | _ => None end) l.

Lemma messages_of_app l l' : messages_of (l ++ l') = messages_of l ++ messages_of l'.
Proof. apply omap_app. Qed.

(** At most [t] pings of every node, and ten different nodes. *)
Record table_ok (t : Z) (s : tour) : Prop := {
  tb_addr : length (ping_addr s) = 10%nat;
  tb_cnt : length (ping_cnt s) = 10%nat;
  tb_no : 0 ≤ ping_no s ≤ 10;
  tb_nodup : NoDup (take (Z.to_nat (ping_no s)) (ping_addr s));
  tb_known : ∀ x, x ∈ take (Z.to_nat (ping_no s)) (ping_addr s) → x ∈ vm_addr;
  tb_count : ∀ i c, ping_cnt s !! i = Some c → 0 ≤ c ≤ t
}.

(** What pinging leaves alone. *)
Definition same_travel (s s' : tour) : Prop :=
  routes_of (t_out s') = routes_of (t_out s) ∧ last_node s' = last_node s ∧
  option_ s' = option_ s ∧ visited s' = visited s.

Lemma table_ok_le t t' s : table_ok t s → t ≤ t' → table_ok t' s.
Proof. intros [] Hle. split; try done. intros i c Hc. specialize (tb_count0 i c Hc). lia. Qed.

Lemma tour_init_table : table_ok 0 tour_init.
Proof.
  split; cbn; try done.
  - apply NoDup_nil. done.
  - by intros x ?%not_elem_of_nil.
  - intros i x Hi. change (replicate 10 0 !! i = Some x) in Hi. apply lookup_replicate in Hi as [-> _]. lia.
Qed.

Section pings.
Context (node : Z) (send_ok : list tour_event → tour_event → bool).
(** What holds when the program exits. *)
Context (E : Prop) (HE : (∃ l e, send_ok l e = false) → E).
Abbreviation wpE m := (wp (λ _ _, E) m).

Lemma emit_tour_spec e (Q : unit → tour → Prop) s :
  Q tt (put_t_out (t_out s ++ [e]) s) → wpE (emit_tour send_ok e) Q s.
Proof.
  intros HQ. unfold emit_tour. autorewrite with cwp. destruct (send_ok (t_out s) e) eqn:Hok; [done|].
  apply HE. by eexists _, _.
Qed.

(** The first [k] nodes of the table have been pinged once more. *)
Definition pinged (k : nat) (s s' : tour) : Prop :=
  length (ping_cnt s') = 10%nat ∧ ping_addr s' = ping_addr s ∧ ping_no s' = ping_no s ∧
  (∀ i c, ping_cnt s !! i = Some c → ping_cnt s' !! i = Some (if decide (i < k)%nat then c + 1 else c)) ∧
  messages_of (t_out s') = messages_of (t_out s) ∧ same_travel s s'.

Lemma ping_one_spec t k s s' :
  table_ok t s → t + 1 ≤ INT_MAX → (k < Z.to_nat (ping_no s))%nat → pinged k s s' →
  wpE (ping_one k) (λ _, pinged (S k) s) s'.
Proof.
  intros [Ha Hc Hno _ _ Hbound] Ht Hk (Hlen & Had & Hn & Hcnt & Hm & Hr & Hrest). unfold ping_one.
  rewrite wpx_bind, wpx_get.
  destruct (lookup_lt_is_Some_2 (ping_addr s') k) as [a Hla]; [rewrite Had; lia|].
  destruct (lookup_lt_is_Some_2 (ping_cnt s) k) as [n Hn0]; [lia|].
  pose proof (Hcnt k n Hn0) as Hln. rewrite decide_False in Hln by lia. specialize (Hbound k n Hn0).
  eapply wpx_rd; [exact Hla|]. eapply wpx_rd; [exact Hln|].
  apply wpx_int_op; [unfold INT_MIN, INT_MAX in *; lia|].
  apply wpx_arr_set; [lia|]. rewrite wpx_bind, !wpx_modify.
  unfold pinged, same_travel. cbn. split; [by rewrite length_insert|]. split; [done|]. split; [done|].
  split; [|by rewrite messages_of_app, routes_of_app, Hr, Hm, !app_nil_r]. intros i c Hi.
  destruct (decide (i = k)) as [->|Hne].
  - rewrite list_lookup_insert_eq by lia. rewrite decide_True by lia. congruence.
  - rewrite list_lookup_insert_ne, (Hcnt i c Hi) by done. f_equal.
    destruct (decide (i < k)%nat), (decide (i < S k)%nat); (done || lia).
Qed.

(** SIGALRM either ends the tour or pings everyone once. *)
Lemma sig_alrm_cases t s c :
  table_ok t s → t + 1 ≤ INT_MAX → (option_ s ≠ 0 → E) → ping_cnt s !! 0%nat = Some c →
  wpE (sig_alrm node send_ok) (λ _ s',
    if (c =? 5) && (last_node s =? 1)
    then s' = put_t_out (t_out s ++ [Multicast (end_message node)]) s
    else ∃ s1, pinged (Z.to_nat (ping_no s)) s s1 ∧ s' = put_t_alarm 1 s1) s.
Proof.
  intros Hs Ht Ho Hn. pose proof Hs as [Ha Hc Hno Hnd Hk Hcnt]. unfold sig_alrm. rewrite wpx_bind, wpx_get.
  destruct (Z.eqb_spec (option_ s) 0) as [Ho0|Hne]; [|by apply Ho].
  apply (wpx_rd _ _ _ 0%nat c); [exact Hn|]. destruct ((c =? 5) && (last_node s =? 1)).
  - by apply emit_tour_spec.
  - rewrite wpx_bind. apply (wpx_for _ _ (λ k, pinged k s)).
    + by split_and!.
    + intros k s' Hki. apply (ping_one_spec t); [done..|lia].
    + intros s' Hp. rewrite wpx_modify. by exists s'.
Qed.

Lemma pinged_table t s s1 :
  table_ok t s → pinged (Z.to_nat (ping_no s)) s s1 → table_ok (t + 1) (put_t_alarm 1 s1).
Proof.
  intros [Ha Hc Hno Hnd Hk Hcnt] (H1 & H2 & H3 & H4 & _).
  split; cbn; rewrite ?H2, ?H3; try done. intros i c Hi.
  destruct (lookup_lt_is_Some_2 (ping_cnt s) i) as [c0 Hc0].
  { apply lookup_lt_Some in Hi. lia. }
  specialize (Hcnt i c0 Hc0). rewrite (H4 i c0 Hc0) in Hi. injection Hi as <-. destruct (decide _); lia.
Qed.

Lemma sig_alrm_spec t s :
  table_ok t s → t + 1 ≤ INT_MAX → (option_ s ≠ 0 → E) →
  wpE (sig_alrm node send_ok) (λ _ s', table_ok (t + 1) s' ∧ same_travel s s') s.
Proof.
  intros Hs Ht Ho. destruct (lookup_lt_is_Some_2 (ping_cnt s) 0) as [c Hc]; [rewrite (tb_cnt _ _ Hs); lia|].
  eapply wpx_mono; [|by apply (sig_alrm_cases t s c)]. cbv beta. intros _ s'.
  destruct ((c =? 5) && (last_node s =? 1)).
  - intros ->. split; [apply (table_ok_le t); [by destruct Hs|lia]|].
    unfold same_travel. cbn. by rewrite routes_of_app, app_nil_r.
  - intros (s1 & Hp & ->). split; [by apply (pinged_table t s)|]. by destruct Hp as (_ & _ & _ & _ & _ & ?).
Qed.

Lemma known_length l : NoDup l → (∀ x : string, x ∈ l → x ∈ vm_addr) → (length l ≤ 10)%nat.
Proof. intros Hnd Hin. apply (submseteq_length l vm_addr). by apply NoDup_submseteq. Qed.

Lemma take_set {A} (l : list A) n x : (n < length l)%nat → take (S n) (<[n := x]> l) = take n l ++ [x].
Proof.
  intros Hn. rewrite (take_S_r _ _ x) by by apply list_lookup_insert_eq. by rewrite take_insert_ge by lia.
Qed.

(** The table with one more node. *)
Definition added (src : string) (s : tour) : tour :=
  put_ping (<[Z.to_nat (ping_no s) := src]> (ping_addr s)) (<[Z.to_nat (ping_no s) := 0]> (ping_cnt s))
    (ping_no s + 1) s.

Lemma added_table t s src :
  table_ok t s → 0 ≤ t → src ∈ vm_addr → src ∉ take (Z.to_nat (ping_no s)) (ping_addr s) →
  (Z.to_nat (ping_no s) < 10)%nat ∧ table_ok t (added src s).
Proof.
  intros [Ha Hc Hno Hnd Hk Hcnt] Ht0 Hsrc Hnew. set (l := take (Z.to_nat (ping_no s)) (ping_addr s)) in *.
  assert (Hl : Z.of_nat (length l) = ping_no s) by (unfold l; rewrite length_take; lia).
  assert (Hnd' : NoDup (l ++ [src])).
  { apply NoDup_app. split_and!; [done| |by apply NoDup_singleton]. by intros x Hx ->%list_elem_of_singleton. }
  assert (Hk' : ∀ x, x ∈ l ++ [src] → x ∈ vm_addr) by (intros x [?| ->%list_elem_of_singleton]%elem_of_app; auto).
  pose proof (known_length _ Hnd' Hk') as Hlen. rewrite length_app in Hlen. cbn [length] in Hlen.
  split; [lia|]. assert (Z.to_nat (ping_no s + 1) = S (Z.to_nat (ping_no s))) as Hnat by lia.
  split; cbn; rewrite ?length_insert, ?Hnat, ?take_set by lia; try done; try lia.
  intros i c Hi. destruct (decide (i = Z.to_nat (ping_no s))) as [->|Hni].
  - rewrite list_lookup_insert_eq in Hi by lia. injection Hi as <-. lia.
  - rewrite list_lookup_insert_ne in Hi by done. by apply (Hcnt i).
Qed.

Lemma start_ping_new t s src :
  table_ok t s → 0 ≤ t → src ∈ vm_addr → src ∉ take (Z.to_nat (ping_no s)) (ping_addr s) →
  start_ping node send_ok src s = sig_alrm node send_ok (added src s).
Proof.
  intros Hs Ht0 Hsrc Hnew. destruct (added_table t s src Hs Ht0 Hsrc Hnew) as [Hlt _].
  pose proof Hs as [Ha Hc Hno _ _ _]. unfold start_ping. rewrite bind_get.
  assert (Hf : first_index (streq src) (take (Z.to_nat (ping_no s)) (ping_addr s)) = Z.to_nat (ping_no s)).
  { rewrite (proj2 (first_index_not _ _)); [rewrite length_take; lia|].
    intros x Hx. apply streq_neq. by intros ->. }
  rewrite Hf, Z2Nat.id, Z.eqb_refl by lia. cbn [when]. rewrite <- (Z2Nat.id (ping_no s)) by lia.
  rewrite !arr_set_nat by lia. rewrite !Z2Nat.id by lia. cbn [of_opt]. by rewrite !bind_ret, bind_modify.
Qed.

Lemma start_ping_spec t s src :
  table_ok t s → 0 ≤ t → t + 1 ≤ INT_MAX → (option_ s ≠ 0 → E) → src ∈ vm_addr →
  wpE (start_ping node send_ok src) (λ _ s', table_ok (t + 1) s' ∧ same_travel s s') s.
Proof.
  intros Hs Ht0 Ht Ho Hsrc. destruct (decide (src ∈ take (Z.to_nat (ping_no s)) (ping_addr s))) as [Hin|Hnew].
  - unfold start_ping. rewrite wpx_bind, wpx_get.
    pose proof (first_index_lt (streq src) _ _ Hin (streq_refl src)) as Hlt. rewrite length_take in Hlt.
    destruct (Z.eqb_spec (Z.of_nat (first_index (streq src) (take (Z.to_nat (ping_no s)) (ping_addr s)))) (ping_no s)); [lia|].
    split; [apply (table_ok_le t); [done|lia]|done].
  - destruct (added_table t s src Hs Ht0 Hsrc Hnew) as [_ Hadd].
    eapply wpx_mono; [|unfold wpx; rewrite (start_ping_new t) by done; by apply (sig_alrm_spec t (added src s))].
    cbv beta. intros _ s' [H1 H2]. by split.
Qed.
End pings.

(** * Lemmas: one leg of a tour *)

Section legs.
Context (port_bytes : list Z) (Hport : length port_bytes = 2%nat).
Context (route : list string) (Hstops : stops route) (Hroom : (length route ≤ 20)%nat).

Definition addr_at (k : nat) : list Z := addr_bytes (nth k route EmptyString).

(** The packet from stop [k] to the next one. *)
Definition leg (k : nat) : ip_packet :=
  route_packet (sizeof_ip + Z.of_nat (20 + 15 * length route)) (addr_at k) (addr_at (S k))
    (route_body port_bytes (Z.of_nat k + 2) (Z.of_nat (length route)) route).

Lemma addr_at_lookup k s : route !! k = Some s → inet_pton s = Some (addr_at k) ∧ inet_ntop (addr_at k) = s.
Proof.
  intros Hk. destruct (stops_addr _ _ _ Hstops Hk) as [j Hj].
  unfold addr_at. rewrite nth_lookup, Hk. by apply (vm_addr_bytes j).
Qed.

Lemma leg_is_route k : ntohs (ip_id (leg k)) = TOUR_ID.
Proof. unfold leg, route_packet. cbn [ip_id]. vm_compute. reflexivity. Qed.

Lemma stop_length s : s ∈ vm_addr → String.length s = 14%nat.
Proof.
  assert (Forall (λ s, String.length s = 14%nat) vm_addr) as H by (apply (bool_decide_unpack _); vm_compute; exact I).
  rewrite Forall_forall in H. apply H.
Qed.

Section node.
Context (node : Z) (n : nat) (me : string) (Hnode : node = Z.of_nat n + 1) (Hme : vm_addr !! n = Some me).
Context (send_ok : list tour_event → tour_event → bool).
Context (E : Prop) (HE : (∃ l e, send_ok l e = false) → E).
Abbreviation wpE m := (wp (λ _ _, E) m).

Lemma wpx_my_addr {B} U F (k : string → M tour B) Q s :
  wpx U F (k me) Q s → wpx U F (rd vm_addr (node - 1) ≫= k) Q s.
Proof. intros Hk. replace (node - 1) with (Z.of_nat n) by lia. by apply (wpx_rd _ _ _ n me). Qed.

Lemma wpx_pton {B} U F a b (k : list Z → M tour B) Q s :
  inet_pton a = Some b → wpx U F (k b) Q s → wpx U F (pton_or_exit a ≫= k) Q s.
Proof. intros Ha Hk. rewrite wpx_bind. unfold pton_or_exit. by rewrite Ha. Qed.

Lemma forward_spec k rest (Q : unit → tour → Prop) s :
  route !! S k = Some me → (k + 2 < length route)%nat →
  Q tt (put_t_out (t_out s ++ [Route (leg (S k))]) s) →
  wpE (forward node send_ok
         (route_body port_bytes (Z.of_nat k + 2) (Z.of_nat (length route)) route ++ rest)
         (Z.of_nat k + 2) (20 + 15 * length route)) Q s.
Proof.
  intros Hk Hlt HQ. destruct (lookup_lt_is_Some_2 route (k + 2) Hlt) as [next Hnext].
  pose proof (addr_at_lookup _ _ Hk) as [Hpme _]. pose proof (addr_at_lookup _ _ Hnext) as [Hpn _].
  unfold forward. apply wpx_int_op; [unfold INT_MIN, INT_MAX; lia|].
  destruct (Z.ltb_spec ((Z.of_nat k + 2 + 1) * 15 + 5) 0); [lia|].
  destruct (Z.ltb_spec 1000 ((Z.of_nat k + 2 + 1) * 15 + 5 + 15)); [lia|]. cbn [orb].
  rewrite set_offset by done.
  replace (Z.to_nat ((Z.of_nat k + 2 + 1) * 15 + 5)) with (15 * (k + 2) + 20)%nat by lia.
  rewrite (read_stop _ Hport _ _ _ _ _ _ Hstops Hnext). unfold of_opt. rewrite wpx_bind, wpx_ret.
  apply wpx_my_addr. apply (wpx_pton _ _ _ _ _ _ _ Hpme). apply (wpx_pton _ _ _ _ _ _ _ Hpn).
  apply emit_tour_spec; [done|].
  rewrite take_app_length' by (symmetry; by apply length_route_body).
  replace (Z.of_nat k + 2 + 1) with (Z.of_nat (S k) + 2) by lia.
  replace (k + 2)%nat with (S (S k)) by lia. exact HQ.
Qed.

(** The state after the packet was sent on, or after the last stop. *)
Definition leg_done (t : Z) (k : nat) (s s' : tour) : Prop :=
  table_ok t s' ∧ option_ s' = option_ s ∧
  routes_of (t_out s') = routes_of (t_out s) ++ (if decide (k + 2 < length route)%nat then [leg (S k)] else []) ∧
  last_node s' = (if decide (k + 2 < length route)%nat then last_node s else 1) ∧ visited s' ≠ 0.

Lemma visit_spec t s :
  table_ok t s →
  wpE (when (visited s =? 0) (modify (put_visited 1);; emit_tour send_ok Join))
      (λ _ s', table_ok t s' ∧ option_ s' = option_ s ∧ routes_of (t_out s') = routes_of (t_out s) ∧
               last_node s' = last_node s ∧ visited s' ≠ 0) s.
Proof.
  intros []. rewrite wpx_when. split; intros Hv; [|by apply Z.eqb_neq in Hv]. rewrite wpx_bind, wpx_modify.
  apply emit_tour_spec; [done|]. cbn. rewrite routes_of_app, app_nil_r. by split_and!.
Qed.

Lemma handle_route_parts p junk reply s :
  handle_route node send_ok p junk reply s =
  (o ← route_arrives node send_ok p junk;
   match o with
   | Some (src, _) => route_answered node send_ok src reply
   | None => mret tt
   end) s.
Proof.
  unfold handle_route, route_arrives, route_answered, areq.
  destruct (ntohs (ip_id p) =? TOUR_ID); cbn [when]; [|done]. cbv zeta.
  repeat (rewrite <- bind_assoc_M; apply bind_cong; intros ? ?).
  rewrite <- !bind_assoc_M. apply bind_cong. intros ip s1. rewrite <- !bind_assoc_M.
  apply bind_cong. intros [] s2. by destruct reply.
Qed.

(** A packet of a tour is sent on, and the hardware address of the node it came from
    is asked for. *)
Lemma route_arrives_leg t s k src junk :
  route !! k = Some src → route !! S k = Some me → table_ok t s →
  wpE (route_arrives node send_ok (leg k) junk)
      (λ o s', o = Some (src, enc_str 15 src) ∧ leg_done t k s s') s.
Proof.
  intros Hsrc Hk Hs. pose proof (lookup_lt_Some _ _ _ Hk) as Hlt.
  destruct (addr_at_lookup _ _ Hsrc) as [Hp Hn].
  pose proof Hstops as Hall. unfold stops in Hall. rewrite Forall_forall in Hall.
  assert (Hin : src ∈ vm_addr) by (apply Hall; by eapply list_elem_of_lookup_2).
  unfold route_arrives. rewrite leg_is_route, Z.eqb_refl. cbv zeta.
  change (ip_src (leg k)) with (addr_at k).
  change (ip_body (leg k)) with (route_body port_bytes (Z.of_nat k + 2) (Z.of_nat (length route)) route).
  rewrite Hn, (stop_length _ Hin). cbn [Nat.leb]. rewrite wpx_bind, wpx_ret, wpx_bind, wpx_get.
  eapply wpx_seq; [by apply (visit_spec t)|]. cbv beta. intros _ s1 (Hs1 & Ho1 & Hr1 & Hl1 & Hv1).
  rewrite length_route_body by done.
  destruct (Nat.ltb_spec 1000 (20 + 15 * length route)); [lia|]. rewrite wpx_bind, wpx_ret.
  rewrite read_offset, read_total by (done || (unfold int_ok, INT_MIN, INT_MAX; lia)).
  apply wpx_seq with (P := λ _, leg_done t k s).
  - destruct (Z.eqb_spec (Z.of_nat k + 2) (Z.of_nat (length route))).
    + rewrite wpx_modify. unfold leg_done. rewrite !decide_False by lia.
      split; [by destruct Hs1|]. cbn. by rewrite app_nil_r.
    + apply forward_spec; [done|lia|]. unfold leg_done. rewrite !decide_True by lia.
      split; [by destruct Hs1|]. cbn. rewrite routes_of_app. cbn. by rewrite Hr1.
  - intros _ s2 (Hs2 & Ho2 & Hr2 & Hl2 & Hv2). apply (wpx_pton _ _ _ _ _ _ _ Hp).
    rewrite Hn. apply wpx_strcpy; [by rewrite (stop_length _ Hin); unfold ADDR_LEN; lia|].
    rewrite wpx_bind. apply emit_tour_spec; [done|]. rewrite wpx_ret. split; [done|].
    unfold leg_done. cbn. rewrite routes_of_app, app_nil_r. split; [by destruct Hs2|done].
Qed.

(** The answer starts the pinging and leaves the rest of the tour alone. *)
Lemma route_answered_spec t s src reply :
  src ∈ vm_addr → table_ok t s → 0 ≤ t → t + 1 ≤ INT_MAX → (option_ s ≠ 0 → E) → (reply = None → E) →
  wpE (route_answered node send_ok src reply) (λ _ s', table_ok (t + 1) s' ∧ same_travel s s') s.
Proof.
  intros Hsrc Hs Ht0 Ht Ho Hr. unfold route_answered. destruct reply as [mac|]; [|by apply Hr].
  by apply (start_ping_spec _ _ E HE t).
Qed.

Lemma handle_leg t s k src junk reply :
  route !! k = Some src → route !! S k = Some me →
  table_ok t s → 0 ≤ t → t + 1 ≤ INT_MAX → (option_ s ≠ 0 → E) → (reply = None → E) →
  wpE (handle_route node send_ok (leg k) junk reply) (λ _, leg_done (t + 1) k s) s.
Proof.
  intros Hsrc Hk Hs Ht0 Ht Ho Hr. eapply wpx_eq; [apply handle_route_parts|].
  eapply wpx_seq; [by apply (route_arrives_leg t)|]. cbv beta. intros o s2 (-> & Hs2 & Ho2 & Hr2 & Hl2 & Hv2).
  assert (Hin : src ∈ vm_addr).
  { pose proof Hstops as Hall. unfold stops in Hall. rewrite Forall_forall in Hall.
    apply Hall. by eapply list_elem_of_lookup_2. }
  eapply wpx_mono; [|apply (route_answered_spec t); [done|done|done|done|by rewrite Ho2|done]].
  cbv beta. intros _ s3 (Hs3 & H1 & H2 & H3 & H4). unfold leg_done. by rewrite H1, H2, H3, H4.
Qed.
End node.
End legs.

(** * Properties *)

Definition number_of (arg : string) : Z :=
  if (String.length arg =? 3)%nat then atoi1 (String.substring 2 1 arg) else 10.
Definition stop_of (arg : string) : string := nth (Z.to_nat (number_of arg - 1)) vm_addr EmptyString.
Definition names_vm (arg : string) : Prop := 1 ≤ number_of arg ≤ 10.

Lemma stop_of_lookup arg : names_vm arg → vm_addr !! Z.to_nat (number_of arg - 1) = Some (stop_of arg).
Proof.
  intros H. unfold names_vm in H. unfold stop_of. rewrite nth_lookup.
  destruct (lookup_lt_is_Some_2 vm_addr (Z.to_nat (number_of arg - 1))) as [x ->]; [|done].
  change (length vm_addr) with 10%nat. lia.
Qed.

Lemma route_entry_run arg s : names_vm arg → route_entry arg s = Done (stop_of arg) s.
Proof.
  intros H. pose proof (stop_of_lookup arg H) as Hl. unfold route_entry, rd, names_vm, number_of in *.
  destruct (String.length arg =? 3)%nat.
  - rewrite <- (Z2Nat.id (atoi1 _ - 1)) by lia. by rewrite arr_at_nat, Hl.
  - change 9 with (Z.of_nat 9). rewrite arr_at_nat. change (Z.to_nat (10 - 1)) with 9%nat in Hl. by rewrite Hl.
Qed.

Lemma source_route_run args s : Forall names_vm args → source_route args s = Done (map stop_of args) s.
Proof.
  induction 1 as [|a args Ha _ IH]; [done|]. cbn [source_route map].
  run_step (route_entry_run a s Ha). by run_step IH.
Qed.

(** The kernel takes every datagram. *)
Definition all_sent (ok : list tour_event → tour_event → bool) : Prop := ∀ l e, ok l e = true.

Lemma emit_tour_run ok e s :
  all_sent ok → emit_tour ok e s = Done tt (put_t_out (t_out s ++ [e]) s).
Proof. intros H. unfold emit_tour. rewrite bind_get. by rewrite H. Qed.

Lemma emit_tour_Done ok e s a s' : emit_tour ok e s = Done a s' → s' = put_t_out (t_out s ++ [e]) s.
Proof. unfold emit_tour. rewrite bind_get. destruct (ok (t_out s) e); [by injection 1|done]. Qed.

Lemma pton_run a b s : inet_pton a = Some b → pton_or_exit a s = Done b s.
Proof. unfold pton_or_exit. by intros ->. Qed.

Lemma wp_False_Done {St A} (m : M St A) (Q : A → St → Prop) s :
  wp (λ _ _, False) m Q s → ∃ a s', m s = Done a s' ∧ Q a s'.
Proof. unfold wpx. destruct (m s) as [a s'|? ?|?]; [|done..]. intros H. by exists a, s'. Qed.

Lemma never_fails ok : all_sent ok → (∃ (l : list tour_event) e, ok l e = false) → False.
Proof. intros H (l & e & He). by rewrite H in He. Qed.

(** The first node a program pings has been pinged once. *)
Lemma start_ping_first nd ok t s src :
  all_sent ok → table_ok t s → 0 ≤ t → t + 1 ≤ INT_MAX → option_ s = 0 → ping_no s = 0 → src ∈ vm_addr →
  ∃ s', start_ping nd ok src s = Done tt s' ∧ ping_no s' = 1 ∧ ping_cnt s' !! 0%nat = Some 1 ∧ t_alarm s' ≠ 0.
Proof.
  intros Hok Hs Ht0 Ht Ho Hno Hsrc. assert (Hnew : src ∉ take (Z.to_nat (ping_no s)) (ping_addr s)).
  { rewrite Hno. by apply not_elem_of_nil. }
  destruct (added_table t s src Hs Ht0 Hsrc Hnew) as [_ Hadd]. rewrite (start_ping_new nd ok t) by done.
  assert (Hc : ping_cnt (added src s) !! 0%nat = Some 0).
  { cbn. rewrite Hno. apply list_lookup_insert_eq. rewrite (tb_cnt _ _ Hs). lia. }
  destruct (wp_False_Done _ _ _ (sig_alrm_cases nd ok False (never_fails ok Hok) t (added src s) 0 Hadd Ht
    ltac:(done) Hc)) as ([] & s' & Hrun & s1 & (_ & _ & Hno1 & Hcnt & _) & ->).
  exists (put_t_alarm 1 s1). split; [done|]. cbn in *. rewrite Hno in *. split; [done|]. split; [|done].
  exact (Hcnt 0%nat 0 Hc).
Qed.

Lemma route_stops n0 first args :
  vm_addr !! n0 = Some first → Forall names_vm args → stops (first :: map stop_of args).
Proof.
  intros Hn0 Hnames. apply Forall_cons_2; [by eapply list_elem_of_lookup_2|]. apply Forall_map.
  eapply Forall_impl; [exact Hnames|]. intros a Ha. eapply list_elem_of_lookup_2. by apply stop_of_lookup.
Qed.

(** The start of a tour: the group is joined and the first leg sent. *)
Lemma start_tour_eq port_bytes ok n0 first args :
  length port_bytes = 2%nat → vm_addr !! n0 = Some first →
  args ≠ [] → (length args < 20)%nat → Forall names_vm args →
  start_tour (Z.of_nat n0 + 1) port_bytes ok args tour_init =
  (emit_tour ok Join;; emit_tour ok (Route (leg port_bytes (first :: map stop_of args) 0))) (put_visited 1 tour_init).
Proof.
  intros Hport Hn0 Hne Hlen Hnames. set (route := first :: map stop_of args).
  assert (Hstops : stops route) by by eapply route_stops.
  destruct args as [|a args]; [done|]. unfold start_tour. rewrite bind_modify. apply bind_cong. intros _ s.
  destruct (Nat.leb_spec 20 (length (a :: args))); [lia|].
  assert (Hme : ∀ s, rd vm_addr (Z.of_nat n0 + 1 - 1) s = Done first (s : tour)).
  { intros s'. unfold rd. replace (Z.of_nat n0 + 1 - 1) with (Z.of_nat n0) by lia. by rewrite arr_at_nat, Hn0. }
  run_step Hme. run_step (source_route_run (a :: args) _ Hnames). fold route.
  destruct (addr_at_lookup route Hstops 0 first eq_refl) as [Hp0 _].
  destruct (addr_at_lookup route Hstops 1 (stop_of a) eq_refl) as [Hp1 _].
  cbv zeta. run_step (pton_run _ _ _ Hp0). change (route !! 1%nat) with (Some (stop_of a)).
  unfold of_opt. rewrite bind_ret. run_step (pton_run _ _ _ Hp1). unfold leg. by rewrite length_route_body.
Qed.

(** C15: a tour visits the nodes in the order of the arguments.  The source sends the
    first leg; the node a leg arrives at, however often it was visited before, sends
    exactly the next leg, and at the last stop no packet is sent and the node knows
    that it is the last one. *)
Theorem tour_follows_route port_bytes ok n0 first args :
  length port_bytes = 2%nat → all_sent ok → vm_addr !! n0 = Some first →
  args ≠ [] → (length args < 20)%nat → Forall names_vm args →
  let route := first :: map stop_of args in
  (∃ s0, start_tour (Z.of_nat n0 + 1) port_bytes ok args tour_init = Done tt s0 ∧
         t_out s0 = [Join; Route (leg port_bytes route 0)] ∧ visited s0 = 1) ∧
  ∀ k n me t s junk mac,
    route !! S k = Some me → vm_addr !! n = Some me →
    table_ok t s → 0 ≤ t → t + 1 ≤ INT_MAX → option_ s = 0 →
    ∃ s', handle_route (Z.of_nat n + 1) ok (leg port_bytes route k) junk (Some mac) s = Done tt s' ∧
          routes_of (t_out s') = routes_of (t_out s) ++
            (if decide (k + 2 < length route)%nat then [leg port_bytes route (S k)] else []) ∧
          last_node s' = (if decide (k + 2 < length route)%nat then last_node s else 1).
Proof.
  intros Hport Hok Hn0 Hne Hlen Hnames route.
  assert (Hstops : stops route) by by eapply route_stops.
  assert (Hroom : (length route ≤ 20)%nat) by (cbn; rewrite length_map; lia).
  split.
  - rewrite (start_tour_eq port_bytes ok n0 first args) by done.
    run_step (emit_tour_run ok Join (put_visited 1 tour_init) Hok). rewrite (emit_tour_run ok _ _ Hok).
    by eexists.
  - intros k n me t s junk mac Hk Hn Ht Ht0 Htm Hopt.
    destruct (lookup_lt_is_Some_2 route k) as [src Hsrc]; [apply lookup_lt_Some in Hk; lia|].
    destruct (wp_False_Done _ _ _ (handle_leg port_bytes Hport route Hstops Hroom (Z.of_nat n + 1) n me eq_refl Hn
      ok False (never_fails ok Hok) t s k src junk (Some mac) Hsrc Hk Ht Ht0 Htm ltac:(done) ltac:(done)))
      as ([] & s' & Hrun & _ & _ & H1 & H2 & _).
    by exists s'.
Qed.

(** A packet for this node: of another protocol, or a leg of some tour that ends here. *)
Definition tour_honest (me : string) (i : tour_input) : Prop :=
  match i with
  | RoutePacket p _ _ =>
      ntohs (ip_id p) ≠ TOUR_ID ∨
      ∃ port_bytes route k, length port_bytes = 2%nat ∧ stops route ∧ (length route ≤ 20)%nat ∧
        route !! S k = Some me ∧ p = leg port_bytes route k
  | _ => True
  end.

Section runs.
Context (n : nat) (me : string) (Hme : vm_addr !! n = Some me).
Context (ok : list tour_event → tour_event → bool).
Abbreviation step_here := (tour_step (Z.of_nat n + 1) ok).
Abbreviation steps_here := (tour_steps (Z.of_nat n + 1) ok).

Lemma tour_step_table t s i :
  table_ok t s → 0 ≤ t → t + 1 ≤ INT_MAX → tour_honest me i →
  wp (λ _ _, True) (step_here i) (λ _, table_ok (t + 1)) s.
Proof.
  intros Hs Ht0 Ht Hi. assert (Hle : table_ok (t + 1) s) by (apply (table_ok_le t); [done|lia]).
  destruct i as [p junk reply|msg|]; cbn [tour_step].
  - destruct Hi as [Hid|(pb & route & k & Hpb & Hst & Hroom & Hk & ->)].
    + unfold handle_route. destruct (Z.eqb_spec (ntohs (ip_id p)) TOUR_ID); [done|exact Hle].
    + destruct (lookup_lt_is_Some_2 route k) as [src Hsrc]; [apply lookup_lt_Some in Hk; lia|].
      eapply wpx_mono; [|by apply (handle_leg pb Hpb route Hst Hroom _ n me eq_refl Hme ok True ltac:(done) t s k src)].
      by intros _ s' [? _].
  - unfold handle_multicast. rewrite wpx_bind, wpx_get, wpx_when. split; intros _; [|done].
    rewrite wpx_bind, wpx_modify, wpx_bind. apply emit_tour_spec; [done|]. rewrite wpx_modify. by destruct Hle.
  - rewrite wpx_bind, wpx_get, wpx_when. split; intros _; [|done]. rewrite wpx_bind, wpx_modify.
    eapply wpx_mono; [|apply (sig_alrm_spec _ ok True ltac:(done) t); [by destruct Hs|done|done]]. by intros _ s' [? _].
Qed.

(** Whatever packets of tours, messages and alarms come, in whatever order, and
    however often tours visit the node, the program never leaves its arrays and
    overflows no counter (for less than 2^31 events). *)
Theorem tour_never_undefined es u :
  Forall (tour_honest me) es → Z.of_nat (length es) ≤ INT_MAX → steps_here es tour_init ≠ Undefined u.
Proof.
  intros Hes Hlen. apply (wp_not_undefined (λ _ _, True) _ (λ _ _, True)).
  assert (H : ∀ t s, table_ok t s → 0 ≤ t → t + Z.of_nat (length es) ≤ INT_MAX →
    wp (λ _ _, True) (steps_here es) (λ _ _, True) s).
  { clear Hlen. induction Hes as [|i es Hi Hes IH]; intros t s Hs Ht0 Ht; [done|]. cbn [tour_steps length] in *.
    eapply wpx_seq; [apply (tour_step_table t); [done|done|lia|done]|]. intros [] s' Hs'.
    apply (IH (t + 1)); [done|lia..]. }
  apply (H 0); [|lia..]. split; try done; cbn; [by apply NoDup_nil|by intros x ?%not_elem_of_nil|].
  intros i c Hc. change (replicate 10 0 !! i = Some c) in Hc. apply lookup_replicate in Hc as [-> _]. lia.
Qed.

(** The alarm of a node that is the last one and has pinged its first node [c] times. *)
Lemma alarm_run t s c :
  all_sent ok → table_ok t s → t + 1 ≤ INT_MAX → option_ s = 0 → last_node s = 1 →
  t_alarm s ≠ 0 → 1 ≤ ping_no s → ping_cnt s !! 0%nat = Some c →
  ∃ s', step_here AlarmRings s = Done tt s' ∧ visited s' = visited s ∧ option_ s' = 0 ∧
    if c =? 5
    then t_alarm s' = 0 ∧ messages_of (t_out s') = messages_of (t_out s) ++ [end_message (Z.of_nat n + 1)]
    else table_ok (t + 1) s' ∧ last_node s' = 1 ∧ t_alarm s' ≠ 0 ∧ 1 ≤ ping_no s' ∧
         ping_cnt s' !! 0%nat = Some (c + 1) ∧ messages_of (t_out s') = messages_of (t_out s).
Proof.
  intros Hok Hs Ht Ho Hl Ha Hno Hc. cbn [tour_step]. rewrite bind_get.
  destruct (Z.eqb_spec (t_alarm s) 0); [done|]. cbn [negb when]. rewrite bind_modify.
  set (s0 := put_t_alarm 0 s). assert (Hs0 : table_ok t s0) by (by destruct Hs).
  destruct (wp_False_Done _ _ _ (sig_alrm_cases (Z.of_nat n + 1) ok False (never_fails ok Hok) t s0 c
    Hs0 Ht ltac:(done) Hc)) as ([] & s' & Hrun & Hcase).
  exists s'. split; [done|]. change (last_node s0) with (last_node s) in Hcase. rewrite Hl, andb_true_r in Hcase.
  destruct (c =? 5).
  - subst s'. cbn. by rewrite messages_of_app.
  - destruct Hcase as (s1 & Hp & ->). pose proof (pinged_table t s0 s1 Hs0 Hp).
    destruct Hp as (_ & _ & Hno1 & Hcnt & Hm & _ & Hl1 & Ho1 & Hv1). specialize (Hcnt 0%nat c Hc).
    rewrite decide_True in Hcnt by (cbn; lia). cbn in *. split_and!; try done; congruence || lia.
Qed.


(** The test is for exactly five pings.  A node that becomes the last one when it
    has pinged its first node more often, because the tour visits it a second time,
    never ends the tour: however many alarms ring, it pings on and sends no message. *)
Theorem late_last_node_never_ends t s c k :
  all_sent ok → table_ok t s → t + Z.of_nat k ≤ INT_MAX → option_ s = 0 → last_node s = 1 →
  t_alarm s ≠ 0 → 1 ≤ ping_no s → ping_cnt s !! 0%nat = Some c → 5 < c →
  ∃ s', steps_here (replicate k AlarmRings) s = Done tt s' ∧ messages_of (t_out s') = messages_of (t_out s) ∧
        t_alarm s' ≠ 0.
Proof.
  intros Hok. revert t s c. induction k as [|k IH]; intros t s c Hs Ht Ho Hl Ha Hno Hc Hc5; [by exists s|].
  destruct (alarm_run t s c Hok Hs ltac:(lia) Ho Hl Ha Hno Hc) as (s1 & Hrun & _ & H2 & Hcase).
  destruct (Z.eqb_spec c 5); [lia|]. destruct Hcase as (H1 & H3 & H4 & H5 & H6 & H7).
  destruct (IH (t + 1) s1 (c + 1)) as (s' & Hrun' & Hm' & Ha'); try done; try lia.
  exists s'. split; [|split; [by rewrite Hm', H7|done]]. cbn [replicate tour_steps]. run_step Hrun. exact Hrun'.
Qed.

(** A member of the group answers the first message with one message of its own,
    ignores all further ones, and exits with code 0 when its alarm of five seconds
    rings. *)
Theorem member_answers_once s msg msgs :
  all_sent ok → option_ s = 0 →
  ∃ s1, step_here (Message msg) s = Done tt s1 ∧
        t_out s1 = t_out s ++ [Multicast (member_message (Z.of_nat n + 1))] ∧ t_alarm s1 = 5 ∧
        steps_here (map Message msgs) s1 = Done tt s1 ∧
        ∃ s2, step_here AlarmRings s1 = Exited 0 s2.
Proof.
  intros Hok Ho.
  exists (put_t_alarm 5 (put_t_out (t_out s ++ [Multicast (member_message (Z.of_nat n + 1))]) (put_option 1 s))).
  split; [|split; [done|split; [done|split]]].
  - cbn [tour_step]. unfold handle_multicast. rewrite bind_get, Ho. cbn [Z.eqb when].
    rewrite bind_modify. by run_step (emit_tour_run ok _ (put_option 1 s) Hok).
  - induction msgs as [|m msgs IH]; [done|]. cbn [map tour_steps]. exact IH.
  - eexists. cbn [tour_step]. rewrite bind_get. reflexivity.
Qed.
End runs.

(** * A tour *)

Definition always (l : list tour_event) (e : tour_event) : bool := true.
Definition tour_args : list string := ["vm2"; "vm3"; "vm2"]%string.
Definition port2 : list Z := [16; 32].
Definition my_tour : list string :=
  ["130.245.156.21"; "130.245.156.22"; "130.245.156.23"; "130.245.156.22"]%string.
(** A node that pings VM1, [c] times so far, and is the last one. *)
Definition pinging (c : Z) : tour :=
  mk_tour 1 0 1 (<[0%nat := "130.245.156.21"%string]> (replicate 10 EmptyString))
    (<[0%nat := c]> (replicate 10 0)) 1 1 [].

Lemma pinging_table c : 0 ≤ c → table_ok c (pinging c).
Proof.
  intros Hc. split; cbn; try done.
  - apply NoDup_singleton.
  - intros x ->%list_elem_of_singleton. left.
  - intros i x Hi. destruct i as [|i]; cbn in Hi; [injection Hi as <-; lia|].
    change (replicate 9 0 !! i = Some x) in Hi. apply lookup_replicate in Hi as [-> _]. lia.
Qed.

Lemma tour_args_names : Forall names_vm tour_args.
Proof. repeat apply Forall_cons_2; [..|apply Forall_nil_2]; vm_compute; split; discriminate. Qed.

Lemma tour_follows_route_witness :
  (∃ s0, start_tour 1 port2 always tour_args tour_init = Done tt s0) ∧
  ∃ s', handle_route 2 always (leg port2 my_tour 0) [] (Some [1; 2; 3; 4; 5; 6]) tour_init = Done tt s' ∧
        routes_of (t_out s') = [leg port2 my_tour 1].
Proof.
  destruct (tour_follows_route port2 always 0 "130.245.156.21" tour_args eq_refl (λ _ _, eq_refl) eq_refl
    ltac:(discriminate) ltac:(vm_compute; lia) tour_args_names) as [(s0 & H0 & _) Hlegs].
  split; [exists s0; exact H0|].
  destruct (Hlegs 0%nat 1%nat "130.245.156.22"%string 0 tour_init [] [1; 2; 3; 4; 5; 6] eq_refl eq_refl
    tour_init_table ltac:(lia) ltac:(vm_compute; discriminate) eq_refl) as (s' & H1 & H2 & _).
  exists s'. split; [exact H1|exact H2].
Defined.

Definition visits : list tour_input :=
  [RoutePacket (leg port2 my_tour 0) [] (Some [1; 2; 3; 4; 5; 6]); AlarmRings;
   RoutePacket (leg port2 my_tour 2) [] (Some [1; 2; 3; 4; 5; 6]); Message "bye"; AlarmRings].

Lemma my_tour_stops : stops my_tour.
Proof. apply (bool_decide_unpack _). vm_compute. exact I. Qed.

Lemma visits_honest : Forall (tour_honest "130.245.156.22") visits.
Proof.
  repeat apply Forall_cons_2; try exact I; [right..|apply Forall_nil_2].
  - exists port2, my_tour, 0%nat. split; [done|]. split; [exact my_tour_stops|].
    split; [cbn; lia|]. split; reflexivity.
  - exists port2, my_tour, 2%nat. split; [done|]. split; [exact my_tour_stops|].
    split; [cbn; lia|]. split; reflexivity.
Qed.

Lemma tour_never_undefined_witness : tour_steps 2 always visits tour_init ≠ Undefined OutOfBounds.
Proof.
  exact (tour_never_undefined 1 "130.245.156.22" eq_refl always visits OutOfBounds visits_honest
    ltac:(vm_compute; discriminate)).
Defined.


Lemma late_last_node_never_ends_witness :
  ∃ s', tour_steps 2 always (replicate 4 AlarmRings) (pinging 6) = Done tt s' ∧ messages_of (t_out s') = [].
Proof.
  destruct (late_last_node_never_ends 1 always 6 (pinging 6) 6 4 (λ _ _, eq_refl) (pinging_table 6 ltac:(lia))
    ltac:(vm_compute; discriminate) eq_refl eq_refl ltac:(discriminate) ltac:(vm_compute; discriminate)
    eq_refl ltac:(lia)) as (s' & H1 & H2 & _).
  exists s'. split; [exact H1|exact H2].
Defined.

Lemma member_answers_once_witness :
  ∃ s1, tour_step 2 always (Message "end") (pinging 5) = Done tt s1 ∧ t_alarm s1 = 5.
Proof.
  destruct (member_answers_once 1 always (pinging 5) "end" ["again"%string] (λ _ _, eq_refl) eq_refl)
    as (s1 & H1 & _ & H2 & _).
  exists s1. split; [exact H1|exact H2].
Defined.
