(* ===== verification/TourHosts.v ===== *)
(** The whole of Assignment 4: ten hosts, each with a tour program (tour.c) and an ARP
    service (arp.c), on one Ethernet.

    A tour program that has received a packet of a tour connects to the service of its
    host, writes the address of the preceding node and waits in [read] for the hardware
    address; meanwhile only SIGALRM reaches it.  The services exchange frames.  The
    Ethernet delays, reorders and loses frames, but does not repeat them; the raw IP
    packets and the multicast messages may also be repeated.  Any system call may fail
    at any time, which ends the program that made it. *)

From S2P Require Export Tour.

(** * Data *)

(** A call of [areq] that waits: for which address, the 15 bytes written to the service,
    and, once the service has accepted the connection, the number the service has for it
    and how much the service had written before. *)
Record waiting := mk_waiting {
  w_src : string;
  w_line : list Z;
  w_conn : option (Z * nat)
}.

Record host := mk_host {
  h_tour : tour;
  h_tour_up : bool;
  h_wait : option waiting;
  h_arp : arp_state;
  h_arp_up : bool
}.

(** The hosts, and the frames on the Ethernet, each with the host it is about to reach. *)
Record hosts := mk_hosts {
  host_at : nat → host;
  air : list (nat * list Z)
}.

Inductive event :=
  | RouteArrives (n : nat) (p : ip_packet) (junk : list Z)
  | Accepted (n : nat) (fd : Z)
  | FrameArrives (i : nat) (junk : list Z)
  | Answered (n : nat) (reply : option (list Z))
  | MessageArrives (n : nat) (msg : string)
  | Rings (n : nat) (interrupts : bool)
  | Lost (i : nat).

Section system.
(** The hardware addresses, and which system calls succeed. *)
Context (macs : nat → list Z).
Context (arp_ok_at : nat → list arp_event → arp_event → bool).
Context (tour_ok_at : nat → list tour_event → tour_event → bool).

Abbreviation node n := (Z.of_nat n + 1).

(** * Steps *)

(** The hosts that see a frame [n] sends to the hardware address [a]. *)
Definition receivers (n : nat) (a : list Z) : list nat :=
  filter (λ m, m ≠ n ∧ (a = broadcast_mac ∨ macs m = a)) (seq 0 10).

Definition on_air (n : nat) (es : list arp_event) : list (nat * list Z) :=
  es ≫= λ e, match e with ToWire a f => (λ m, (m, f)) <$> receivers n a | _ => [] end.

Definition set_host (w : hosts) (n : nat) (h : host) : hosts :=
  mk_hosts (upd (host_at w) n h) (air w).

(** The tour program of [n] has run a handler; [wait] is what it waits for then. *)
Definition tour_did {A} (w : hosts) (n : nat) (r : res tour A) (wait : A → option waiting) : ub + hosts :=
  let h := host_at w n in
  match r with
  | Done a s => inr (set_host w n (mk_host s true (wait a) (h_arp h) (h_arp_up h)))
  | Exited _ s => inr (set_host w n (mk_host s false (h_wait h) (h_arp h) (h_arp_up h)))
  | Undefined u => inl u
  end.

(** The service of [n] has run a handler; [rest] is on the air besides what it sent. *)
Definition arp_did (w : hosts) (n : nat) (rest : list (nat * list Z)) (wait : option waiting)
    (r : res arp_state unit) : ub + hosts :=
  let h := host_at w n in
  let after s up := inr (mk_hosts (upd (host_at w) n (mk_host (h_tour h) (h_tour_up h) wait s up))
                           (rest ++ on_air n (drop (length (arp_out (h_arp h))) (arp_out s)))) in
  match r with
  | Done _ s => after s true
  | Exited _ s => after s false
  | Undefined u => inl u
  end.

Definition service (n : nat) : arp_input → M arp_state unit := arp_step (ip_of n) (macs n) (arp_ok_at n).

Definition occur (w : hosts) (e : event) : ub + hosts :=
  match e with
  | RouteArrives n p junk =>
      tour_did w n (route_arrives (node n) (tour_ok_at n) p junk (h_tour (host_at w n)))
        (λ o, '(src, line) ← o; Some (mk_waiting src line None))
  | Accepted n fd =>
      match h_wait (host_at w n) with
      | Some wt =>
          arp_did w n (air w)
            (Some (mk_waiting (w_src wt) (w_line wt) (Some (fd, length (arp_out (h_arp (host_at w n)))))))
            (service n (Arp.Tour fd (w_line wt)) (h_arp (host_at w n)))
      | None => inr w
      end
  | FrameArrives i junk =>
      match air w !! i with
      | Some (n, f) =>
          arp_did w n (delete i (air w)) (h_wait (host_at w n))
            (service n (Packet (f ++ junk)) (h_arp (host_at w n)))
      | None => inr w
      end
  | Answered n reply =>
      match h_wait (host_at w n) with
      | Some wt =>
          tour_did w n (route_answered (node n) (tour_ok_at n) (w_src wt) reply (h_tour (host_at w n)))
            (λ _, None)
      | None => inr w
      end
  | MessageArrives n msg =>
      tour_did w n (tour_step (node n) (tour_ok_at n) (Message msg) (h_tour (host_at w n))) (λ _, None)
  | Rings n interrupts =>
      (* SIGALRM does not restart [read]: an interrupted [areq] exits *)
      tour_did w n
        ((tour_step (node n) (tour_ok_at n) AlarmRings;;
          when (interrupts && bool_decide (is_Some (h_wait (host_at w n)))) (exit 1))
           (h_tour (host_at w n)))
        (λ _, h_wait (host_at w n))
  | Lost i => inr (mk_hosts (host_at w) (delete i (air w)))
  end.

(** What [read] in [areq] can report: what the service wrote to the connection; anything
    when the service is gone, because the end of the stream is not checked; or an error. *)
Definition can_read (h : host) (wt : waiting) (reply : option (list Z)) : Prop :=
  match reply, w_conn wt with
  | Some mac, Some (fd, seen) => ToTour fd mac ∈ drop seen (arp_out (h_arp h)) ∨ h_arp_up h = false
  | Some mac, None => h_arp_up h = false
  | None, _ => True
  end.

Definition enabled (w : hosts) (e : event) : Prop :=
  match e with
  | RouteArrives n p junk =>
      (n < 10)%nat ∧ h_tour_up (host_at w n) = true ∧ h_wait (host_at w n) = None ∧
      (ntohs (ip_id p) ≠ TOUR_ID ∨
       ip_dst p = addr_bytes (ip_of n) ∧ ∃ m, p ∈ routes_of (t_out (h_tour (host_at w m))))
  | Accepted n fd =>
      (n < 10)%nat ∧ h_arp_up (host_at w n) = true ∧ fd ∉ open_fds (h_arp (host_at w n)) ∧
      ∃ wt, h_wait (host_at w n) = Some wt ∧ w_conn wt = None
  | FrameArrives i junk => ∃ n f, air w !! i = Some (n, f) ∧ h_arp_up (host_at w n) = true
  | Answered n reply =>
      (n < 10)%nat ∧ h_tour_up (host_at w n) = true ∧
      ∃ wt, h_wait (host_at w n) = Some wt ∧ can_read (host_at w n) wt reply
  | MessageArrives n msg =>
      (n < 10)%nat ∧ h_tour_up (host_at w n) = true ∧ h_wait (host_at w n) = None ∧
      visited (h_tour (host_at w n)) ≠ 0 ∧ (* a member of the group *)
      ∃ m, msg ∈ messages_of (t_out (h_tour (host_at w m)))
  | Rings n _ => (n < 10)%nat ∧ h_tour_up (host_at w n) = true
  | Lost i => (i < length (air w))%nat
  end.

(** A host at the start: the tour program with up to 19 nodes to visit, or none. *)
Definition starts (n : nat) (h : host) : Prop :=
  (∃ fds, h_arp h = arp_init fds) ∧ h_wait h = None ∧
  ∃ port_bytes args, length port_bytes = 2%nat ∧ (length args < 20)%nat ∧ Forall names_vm args ∧
    start_tour (node n) port_bytes (tour_ok_at n) args tour_init = Done tt (h_tour h).

Definition hosts_initial (w : hosts) : Prop :=
  air w = [] ∧ ∀ n, if decide (n < 10)%nat then starts n (host_at w n) ∧ h_arp_up (host_at w n) = true
                    else host_at w n = mk_host tour_init false None (arp_init []) false.

(** [reaches w0 k w]: [k] events lead from [w0] to [w]. *)
Inductive reaches (w0 : hosts) : nat → hosts → Prop :=
  | reaches_start : reaches w0 0 w0
  | reaches_next k w e w' :
      reaches w0 k w → enabled w e → occur w e = inr w' → reaches w0 (S k) w'.

(** * Lemmas: the handlers of a service when a call may fail *)

Section outcomes.
Context (ip_addr : string) (mac_addr : list Z) (kernel_ok : list arp_event → arp_event → bool).

(** A service exits only when a call fails, and has sent nothing in the handler that
    ends it. *)
Definition outcome (r : res arp_state unit) (s s' : arp_state) : Prop :=
  r = Done tt s' ∨ ∃ s1, r = Exited 1 s1 ∧ arp_out s1 = arp_out s ∧ ∃ l ev, kernel_ok l ev = false.

Lemma outcome_from r s0 s s' : arp_out s0 = arp_out s → outcome r s0 s' → outcome r s s'.
Proof. unfold outcome. by intros ->. Qed.

Lemma emit_or ev s :
  emit kernel_ok ev s = Done tt (put_arp_out (arp_out s ++ [ev]) s) ∨
  emit kernel_ok ev s = Exited 1 s ∧ ∃ l ev, kernel_ok l ev = false.
Proof.
  unfold emit. rewrite bind_get. destruct (kernel_ok (arp_out s) ev) eqn:H; [by left|right]. eauto.
Qed.

Lemma emit_outcome ev s : outcome (emit kernel_ok ev s) s (put_arp_out (arp_out s ++ [ev]) s).
Proof. destruct (emit_or ev s) as [->|[-> ?]]; [by left|right]. by eexists. Qed.

Lemma reply_or fd mac s :
  fd ∈ open_fds s →
  outcome ((write_tour kernel_ok fd mac;; close fd) s) s (replied fd mac s).
Proof.
  intros Hfd. unfold write_tour. rewrite <- bind_assoc_M, bind_get. rewrite bool_decide_true by done.
  destruct (emit_or (ToTour fd mac) s) as [H|[H Hk]];
    [left|right; exists s; split; [by apply bind_Exited|done]].
  rewrite (bind_Done _ _ _ _ _ H). unfold close, modify, replied. cbn. by rewrite <- app_assoc.
Qed.

Lemma learn_outcome a i e s :
  vm_addr !! i = Some (dst_ip a) → cache s !! i = Some e → c_sockfd e ∈ open_fds s →
  outcome (learn_reply kernel_ok a s) s
    (replied (c_sockfd e) (dst_mac a) (put_cache (<[i := mk_cache (dst_ip a) (dst_mac a) (c_sockfd e)]> (cache s)) s)).
Proof.
  intros Hi He Hfd. unfold learn_reply. rewrite (vm_addr_index _ _ Hi).
  run_step (cache_at_run _ _ _ He).
  erewrite bind_Done; [|unfold strcpy; destruct (Nat.ltb_spec (String.length (dst_ip a)) 15);
    [reflexivity|apply vm_short in Hi; lia]].
  run_step (cache_set_run i _ _ (lookup_lt_Some _ _ _ He)).
  eapply outcome_from; [|by apply (reply_or (c_sockfd e) (dst_mac a))]. done.
Qed.

Lemma tour_outcome i ip connfd e s :
  (String.length ip_addr < 15)%nat → vm_addr !! i = Some ip → cache s !! i = Some e →
  outcome (handle_tour ip_addr mac_addr kernel_ok connfd (enc_str 15 ip) s) s
    (if streq (c_ip_addr e) ip then replied connfd (c_mac_addr e) (put_fds (connfd :: open_fds s) s)
     else asked ip_addr mac_addr i ip connfd e s).
Proof.
  intros Hip Hi He. rewrite <- (app_nil_r (enc_str 15 ip)), (tour_start _ _ _ i ip connfd [] e) by done.
  destruct (streq (c_ip_addr e) ip).
  - eapply outcome_from; [|apply (reply_or connfd (c_mac_addr e)); by left]. done.
  - run_step (cache_set_run i (mk_cache (c_ip_addr e) (c_mac_addr e) connfd)
      (put_fds (connfd :: open_fds s) s) (lookup_lt_Some _ _ _ He)).
    pose proof (vm_short _ _ Hi). unfold strcpy.
    destruct (Nat.ltb_spec (String.length ip_addr) 15), (Nat.ltb_spec (String.length ip) 15); try lia.
    rewrite !bind_ret. eapply outcome_from; [|apply emit_outcome]. done.
Qed.
End outcomes.

(** * Lemmas: the frames of an exchange *)

Context (Hmac : ∀ n, mac_ok (macs n)).
Context (Hdistinct : ∀ n m, (n < 10)%nat → (m < 10)%nat → macs n = macs m → n = m).
Context (Hunicast : ∀ n, macs n ≠ broadcast_mac).

(** Host [n] asks for the address of host [j]; and host [j] answers. *)
Definition req (n j : nat) : list Z := request_frame (ip_of n) (macs n) (ip_of j).
Definition rep (n j : nat) : list Z := reply_frame (ip_of n) (macs n) (ip_of j) (macs j).

(** What a frame is about: who asks, for whom, and is it a request. *)
Definition about (f : list Z) : option (string * string * Z) :=
  a ← dec_arp (drop sizeof_arp_hdr f); Some (src_ip a, dst_ip a, ntohs (op a)).

Lemma about_frame h a : arp_hdr_ok h → arp_ok a → about (enc_arp_hdr h ++ enc_arp a) = Some (src_ip a, dst_ip a, ntohs (op a)).
Proof.
  intros Hh Ha. unfold about. destruct (dec_packet h a [] Hh Ha) as [_ H].
  rewrite app_nil_r in H. by rewrite H.
Qed.

Lemma ip_of_inj n m : (n < 10)%nat → (m < 10)%nat → ip_of n = ip_of m → n = m.
Proof.
  intros Hn%ip_of_lookup Hm%ip_of_lookup H. rewrite <- H in Hm.
  apply vm_addr_index in Hn, Hm. congruence.
Qed.

Lemma about_req n j : (n < 10)%nat → (j < 10)%nat → about (req n j) = Some (ip_of n, ip_of j, 1).
Proof.
  intros Hn%ip_of_lookup Hj%ip_of_lookup.
  destruct (request_ok n j (ip_of n) (ip_of j) (macs n) Hn Hj (Hmac n)) as [Hh Ha].
  unfold req, request_frame. rewrite about_frame by done. cbn. by rewrite ntohs_one.
Qed.

Lemma about_rep n j : (n < 10)%nat → (j < 10)%nat → about (rep n j) = Some (ip_of n, ip_of j, 2).
Proof.
  intros Hn%ip_of_lookup Hj%ip_of_lookup.
  destruct (reply_ok n j (ip_of n) (ip_of j) (macs n) (macs j) Hn Hj (Hmac n) (Hmac j)) as [Hh Ha].
  unfold rep, reply_frame. rewrite about_frame by done. cbn. by rewrite ntohs_two.
Qed.

(** A frame that leads to an answer for [n], which asks for [j]: the request on its way
    to [j], or the reply on its way to [n]. *)
Definition useful (n j : nat) (x : nat * list Z) : Prop := x = (j, req n j) ∨ x = (n, rep n j).

Definition item_ok (x : nat * list Z) : Prop :=
  ∃ n j, (n < 10)%nat ∧ (j < 10)%nat ∧ ((∃ m, (m < 10)%nat ∧ m ≠ n ∧ x = (m, req n j)) ∨ x = (n, rep n j)).

Ltac about_tac :=
  repeat match goal with
  | H : ?f = ?g |- _ =>
      match type of f with list Z => apply (f_equal about) in H; rewrite ?about_req, ?about_rep in H by done end
  end; simplify_eq.

#[local] Opaque req rep.

Lemma useful_inj n j n' j' x :
  (n < 10)%nat → (j < 10)%nat → (n' < 10)%nat → (j' < 10)%nat →
  useful n j x → useful n' j' x → n = n' ∧ j = j'.
Proof.
  intros ???? [->| ->] [H|H]; apply pair_equal_spec in H as [? ?]; about_tac; split; by apply ip_of_inj.
Qed.

Lemma useless n j m n' j' :
  (n < 10)%nat → (j < 10)%nat → (n' < 10)%nat → (j' < 10)%nat → m ≠ j → ¬ useful n' j' (m, req n j).
Proof.
  intros ????? [H|H]; apply pair_equal_spec in H as [? ?]; about_tac.
  match goal with H : ip_of j = ip_of _ |- _ => apply ip_of_inj in H; [|done..] end. congruence.
Qed.

(** No frame on the air is useful for [n]; exactly one is. *)
Definition quiet_for (n : nat) (l : list (nat * list Z)) : Prop :=
  ∀ j x, (j < 10)%nat → x ∈ l → ¬ useful n j x.
Definition one_for (n j : nat) (l : list (nat * list Z)) : Prop :=
  ∃ x l', l ≡ₚ x :: l' ∧ useful n j x ∧ quiet_for n l'.

#[local] Instance quiet_for_proper n : Proper ((≡ₚ) ==> iff) (quiet_for n).
Proof. intros l l' H. unfold quiet_for. by setoid_rewrite H. Qed.
#[local] Instance one_for_proper n j : Proper ((≡ₚ) ==> iff) (one_for n j).
Proof. intros l l' H. unfold one_for. by setoid_rewrite H. Qed.

Lemma quiet_cons n x l : quiet_for n (x :: l) ↔ (∀ j, (j < 10)%nat → ¬ useful n j x) ∧ quiet_for n l.
Proof. unfold quiet_for. set_solver. Qed.

Lemma quiet_app n l l' : quiet_for n (l ++ l') ↔ quiet_for n l ∧ quiet_for n l'.
Proof. unfold quiet_for. set_solver. Qed.

Lemma one_add n j l l' : one_for n j l → quiet_for n l' → one_for n j (l ++ l').
Proof.
  intros (x & l1 & -> & Hx & Hq) Hq'. exists x, (l1 ++ l'). split; [done|]. split; [done|].
  by apply quiet_app.
Qed.

(** A frame leaves the air: it was the useful one, or it was not. *)
Lemma one_remove n j x l :
  (j < 10)%nat → one_for n j (x :: l) →
  (useful n j x ∧ quiet_for n l) ∨ ((∀ j', (j' < 10)%nat → ¬ useful n j' x) ∧ one_for n j l).
Proof.
  intros Hj (y & l1 & Hp & Hy & Hq). assert (Hx : x ∈ y :: l1) by (rewrite <- Hp; left).
  apply elem_of_cons in Hx as [->|Hx].
  - left. split; [done|]. apply Permutation_cons_inv in Hp. by rewrite Hp.
  - right. split; [intros j' Hj'; by apply Hq|].
    apply elem_of_Permutation in Hx as [l2 H2]. rewrite H2 in Hp, Hq.
    exists y, l2. split; [|split; [done|by apply quiet_cons in Hq as [_ ?]]].
    rewrite perm_swap in Hp. by apply Permutation_cons_inv in Hp.
Qed.

(** What is sent. *)
Lemma receivers_spec n a m :
  m ∈ receivers n a ↔ (m < 10)%nat ∧ m ≠ n ∧ (a = broadcast_mac ∨ macs m = a).
Proof. unfold receivers. rewrite list_elem_of_filter, elem_of_seq. split; intros; split_and!; (tauto || lia). Qed.

Lemma on_air_one n a f : on_air n [ToWire a f] = (λ m, (m, f)) <$> receivers n a.
Proof. unfold on_air. cbn. by rewrite app_nil_r. Qed.

Lemma receivers_unicast n m : (n < 10)%nat → n ≠ m → receivers m (macs n) = [n].
Proof.
  intros Hn Hne. assert (Hnd : NoDup (receivers m (macs n))) by (apply NoDup_filter, NoDup_seq).
  assert (Hin : ∀ k, k ∈ receivers m (macs n) ↔ k = n).
  { intros k. rewrite receivers_spec. split; [|intros ->; by auto].
    intros (Hk & _ & [H|H]); [by apply Hunicast in H|by apply Hdistinct]. }
  apply Permutation_singleton_r. apply NoDup_Permutation; [done|by apply NoDup_singleton|].
  intros k. by rewrite Hin, list_elem_of_singleton.
Qed.

(** * Lemmas: the packets of the tour programs *)

(** A packet on its way from one stop of a tour to the next. *)
Definition is_leg (p : ip_packet) : Prop :=
  ∃ port_bytes route k, length port_bytes = 2%nat ∧ stops route ∧ (length route ≤ 20)%nat ∧
    (S k < length route)%nat ∧ p = leg port_bytes route k.

Definition legs_only (s : tour) : Prop := Forall is_leg (routes_of (t_out s)).

Lemma emit_legs ok e : routes_of [e] = [] → preserves legs_only (emit_tour ok e).
Proof.
  intros He. apply preserves_read. intros s Hs. destruct (ok (t_out s) e); [|done].
  unfold wpx, modify, legs_only in *. cbn. by rewrite routes_of_app, He, app_nil_r.
Qed.

Lemma ping_legs a n : preserves legs_only (modify (λ s, put_t_out (t_out s ++ [Ping a n]) s)).
Proof.
  apply preserves_modify. intros s Hs. unfold legs_only in *. cbn. by rewrite routes_of_app, app_nil_r.
Qed.

Ltac keep_legs :=
  repeat lazymatch goal with
  | |- preserves _ (emit_tour _ _) => apply emit_legs; reflexivity
  | |- preserves _ (when _ _) => apply preserves_when
  | |- preserves _ (if _ then _ else _) => apply preserves_if
  | |- preserves _ (for_ _ _ _) => apply preserves_for; intros ?
  | |- preserves _ (modify _) => first [apply ping_legs | by apply preserves_modify]
  | |- preserves _ (_ ≫= _) => apply preserves_bind; [|intros ?]
  | |- preserves _ (sig_alrm _ _) => fail
  | |- preserves _ _ => solve [auto with preserves]
  end.

Lemma sig_alrm_legs nd ok : preserves legs_only (sig_alrm nd ok).
Proof. unfold sig_alrm, ping_one. keep_legs. Qed.

Lemma answered_legs nd ok src reply : preserves legs_only (route_answered nd ok src reply).
Proof. unfold route_answered, start_ping. destruct reply; keep_legs; try apply sig_alrm_legs. Qed.

Lemma handlers_legs nd ok i :
  match i with RoutePacket _ _ _ => False | _ => True end → preserves legs_only (tour_step nd ok i).
Proof.
  destruct i as [| |]; [done| |]; intros _; cbn [tour_step]; unfold handle_multicast; keep_legs; try apply sig_alrm_legs.
Qed.

Lemma strcpy_legs d : preserves legs_only (strcpy 15 d).
Proof. unfold strcpy. keep_legs. Qed.

(** Nothing is sent by a [forward] that exits. *)
Lemma forward_exit nd ok payload o len s c s' : forward nd ok payload o len s = Exited c s' → s' = s.
Proof.
  unfold forward, int_op, rd, of_opt, pton_or_exit, emit_tour, mbind, M_bind, mret, M_ret, exit, undef.
  intros H. repeat (case_match; simplify_eq/=; try done).
Qed.

(** The packet sent on is the next leg of its tour, also when the program exits. *)
Lemma arrives_legs nd n me ok port_bytes route k src junk s :
  nd = node n → vm_addr !! n = Some me → length port_bytes = 2%nat → stops route → (length route ≤ 20)%nat →
  route !! k = Some src → route !! S k = Some me → legs_only s →
  wpx (λ _, True) (λ _, legs_only) (route_arrives nd ok (leg port_bytes route k) junk) (λ _, legs_only) s.
Proof.
  intros Hnd Hme Hpb Hstops Hroom Hsrc Hk Hs. pose proof (lookup_lt_Some _ _ _ Hk) as Hlt.
  unfold route_arrives. rewrite leg_is_route, Z.eqb_refl. cbv zeta.
  change (ip_body (leg port_bytes route k)) with
    (route_body port_bytes (Z.of_nat k + 2) (Z.of_nat (length route)) route).
  assert (Hseq : ∀ {A B} (m : M tour A) (g : A → M tour B) s, preserves legs_only m → legs_only s →
    (∀ a s', legs_only s' → wpx (λ _, True) (λ _, legs_only) (g a) (λ _, legs_only) s') →
    wpx (λ _, True) (λ _, legs_only) (m ≫= g) (λ _, legs_only) s).
  { intros A B m g s0 Hm Hs0 Hg. rewrite wpx_bind. eapply wpx_mono; [|by apply Hm]. auto. }
  apply Hseq; [keep_legs|done|]. intros _ s1 Hs1. rewrite wpx_bind, wpx_get.
  apply Hseq; [keep_legs|done|]. intros _ s2 Hs2.
  apply Hseq; [keep_legs|done|]. intros _ s3 Hs3.
  rewrite length_route_body, read_offset, read_total by (done || (unfold int_ok, INT_MIN, INT_MAX; lia)).
  eapply wpx_seq with (P := λ _, legs_only).
  - destruct (Z.eqb_spec (Z.of_nat k + 2) (Z.of_nat (length route))); [done|].
    assert (Hf : wp (λ _ _, True) (forward nd ok
      (route_body port_bytes (Z.of_nat k + 2) (Z.of_nat (length route)) route ++ drop (20 + 15 * length route) junk)
      (Z.of_nat k + 2) (20 + 15 * length route)) (λ _, legs_only) s3).
    { eapply (forward_spec port_bytes Hpb route Hstops Hroom nd n me); [done..|lia|].
      unfold legs_only. cbn. rewrite routes_of_app. apply Forall_app_2; [done|]. apply Forall_singleton.
      exists port_bytes, route, (S k). split_and!; (done || lia). }
    unfold wpx in *. destruct (forward _ _ _ _ _ s3) eqn:Hr; [done| |done].
    by apply forward_exit in Hr as ->.
  - intros _ s4 Hs4. apply Hseq; [unfold pton_or_exit; destruct (inet_pton _); keep_legs|done|]. intros addr s5 Hs5.
    apply Hseq; [apply strcpy_legs|done|]. intros ip s6 Hs6. by apply Hseq; [keep_legs| |].
Qed.

(** * The invariant *)

(** A connection [fd] that waits for the reply of [j]: it is open, it is the one the
    cache has for [j], and nothing was written to it. *)
Definition pending (j : nat) (fd : Z) (seen : nat) (s : arp_state) : Prop :=
  fd ∈ open_fds s ∧ (∃ e, cache s !! j = Some e ∧ c_sockfd e = fd) ∧
  ∀ mac, ToTour fd mac ∉ drop seen (arp_out s).

(** What the service has written to a waiting connection is the address asked for. *)
Definition wait_ok (o : option waiting) (s : arp_state) : Prop :=
  ∀ wt, o = Some wt → ∃ j, (j < 10)%nat ∧ w_src wt = ip_of j ∧ w_line wt = enc_str 15 (ip_of j) ∧
    ∀ fd seen, w_conn wt = Some (fd, seen) →
      (seen ≤ length (arp_out s))%nat ∧ ∀ mac, ToTour fd mac ∈ drop seen (arp_out s) → mac = macs j.

Definition asking (n : nat) (l : list (nat * list Z)) (o : option waiting) (s : arp_state) : Prop :=
  ∃ j line fd seen, (j < 10)%nat ∧ o = Some (mk_waiting (ip_of j) line (Some (fd, seen))) ∧
    pending j fd seen s ∧ one_for n j l.

(** [t] bounds the pings. *)
Record host_ok (t : Z) (l : list (nat * list Z)) (n : nat) (h : host) : Prop := {
  ho_arp : state_sound macs (h_arp h);
  ho_table : h_tour_up h = true → table_ok t (h_tour h);
  ho_legs : legs_only (h_tour h);
  ho_wait : wait_ok (h_wait h) (h_arp h);
  ho_air : (n < 10)%nat → h_arp_up h = true → quiet_for n l ∨ asking n l (h_wait h) (h_arp h);
  ho_up : (n < 10)%nat → (∀ s ev, arp_ok_at n s ev = true) → h_arp_up h = true
}.

Record hosts_ok (t : Z) (w : hosts) : Prop := {
  hs_air : Forall item_ok (air w);
  hs_host : ∀ n, host_ok t (air w) n (host_at w n)
}.

Abbreviation stays_ok t r := (match r with inl _ => False | inr w' => hosts_ok t w' end).

Lemma host_ok_air t t' l l' n h :
  host_ok t l n h → t ≤ t' → ((n < 10)%nat → quiet_for n l → quiet_for n l') →
  (∀ j, (n < 10)%nat → (j < 10)%nat → one_for n j l → quiet_for n l' ∨ one_for n j l') → host_ok t' l' n h.
Proof.
  intros [] Ht Hq Ho. split; [done| |done|done| |done].
  - intros Hup. by apply (table_ok_le t); auto.
  - intros Hn Hup. destruct (ho_air0 Hn Hup) as [?|(j & line & fd & seen & Hj & Hw & Hp & H1)]; [by left; auto|].
    destruct (Ho j Hn Hj H1) as [?|?]; [by left|right]. by exists j, line, fd, seen.
Qed.

(** A frame leaves the air without effect. *)
Lemma drop_item t x l n h : host_ok t (x :: l) n h → host_ok t l n h.
Proof.
  intros H. apply (host_ok_air t t _ _ _ _ H); [lia|intros _ [_ ?]%quiet_cons; done|].
  intros j _ Hj [[_ ?]|[_ ?]]%one_remove; auto.
Qed.

#[local] Instance host_ok_proper t : Proper ((≡ₚ) ==> eq ==> eq ==> iff) (host_ok t).
Proof.
  intros l l' Hl ? n -> ? h ->.
  split; intros H; (eapply host_ok_air; [exact H|lia|by rewrite Hl|intros j _ Hj; rewrite Hl; by right]).
Qed.

(** ** Steps of the tour programs *)

Lemma tour_did_ok {A} t w n r (wait : A → option waiting) :
  hosts_ok t w → (n < 10)%nat →
  wpx (λ _, False) (λ _, legs_only) (λ _, r)
    (λ a s, table_ok (t + 1) s ∧ legs_only s ∧ wait_ok (wait a) (h_arp (host_at w n)) ∧
      (h_arp_up (host_at w n) = true → quiet_for n (air w) ∨ asking n (air w) (wait a) (h_arp (host_at w n))))
    (h_tour (host_at w n)) →
  stays_ok (t + 1) (tour_did w n r wait).
Proof.
  intros [Hair Hh] Hn Hr. unfold wpx in Hr. unfold tour_did.
  assert (Hset : ∀ h, host_ok (t + 1) (air w) n h → hosts_ok (t + 1) (set_host w n h)).
  { intros h Hok. split; cbn; [done|]. intros m. unfold upd; destruct (decide (m = n)) as [->|]; [done|].
    eapply host_ok_air; [apply Hh|lia|done|auto]. }
  destruct (Hh n) as [Ha Ht Hl Hw Hq Hup]. destruct r as [a s|c s|u]; [| |done]; apply Hset.
  - destruct Hr as (H1 & H2 & H3 & H4). by split.
  - by split.
Qed.

(** A handler during which the program does not start or stop to wait. *)
Lemma tour_did_plain t w n (m : M tour unit) o :
  hosts_ok t w → (n < 10)%nat → o = h_wait (host_at w n) ∨ o = None ∧ h_wait (host_at w n) = None →
  wp (λ _ _, True) m (λ _, table_ok (t + 1)) (h_tour (host_at w n)) → preserves legs_only m →
  stays_ok (t + 1) (tour_did w n (m (h_tour (host_at w n))) (λ _, o)).
Proof.
  intros Hw Hn Ho Hm Hlegs. pose proof (hs_host _ _ Hw n) as [Ha Ht Hl Hwt Hq Hup].
  assert (o = h_wait (host_at w n)) as -> by (destruct Ho as [->|[-> ->]]; done).
  apply tour_did_ok; [done..|]. specialize (Hlegs _ Hl). unfold wpx in *.
  destruct (m _); [|done..]. split_and!; auto.
Qed.

(** ** Steps of the services *)

Lemma wait_ok_out o s s' : arp_out s' = arp_out s → wait_ok o s → wait_ok o s'.
Proof. unfold wait_ok. by intros ->. Qed.

(** Writing something else to the kernel changes nothing for who waits. *)
Lemma wait_ok_more o s s' es :
  arp_out s' = arp_out s ++ es → (∀ fd mac, ToTour fd mac ∉ es) → wait_ok o s → wait_ok o s'.
Proof.
  intros Hout Hes Hw wt Ho. destruct (Hw wt Ho) as (j & Hj & Hsrc & Hline & Hc).
  exists j. split; [done|]. split; [done|]. split; [done|]. intros fd seen Hconn.
  destruct (Hc fd seen Hconn) as [Hle Hm]. rewrite Hout, length_app. split; [lia|].
  intros mac. rewrite drop_app_le by done. intros [?|Hin]%elem_of_app; [by apply Hm|by apply Hes in Hin].
Qed.

Lemma arp_did_ok t w n i rest o s' es :
  let s := h_arp (host_at w n) in
  hosts_ok t w → (n < 10)%nat → input_ok macs i →
  outcome (arp_ok_at n) (service n i s) s s' → arp_out s' = arp_out s ++ es →
  Forall item_ok (rest ++ on_air n es) → wait_ok o s → wait_ok o s' →
  (∀ m, m ≠ n → host_ok t (rest ++ on_air n es) m (host_at w m)) →
  (∀ m, m ≠ n → host_ok t rest m (host_at w m)) →
  (quiet_for n (rest ++ on_air n es) ∨ asking n (rest ++ on_air n es) o s') →
  stays_ok (t + 1) (arp_did w n rest o (service n i s)).
Proof.
  intros s [Hair Hh] Hn Hi Hout Hes Hitems Hws Hws' Hothers Hothers' Hq.
  pose proof (Hh n) as [Ha Ht Hl _ _ Hup].
  pose proof (node_step_sound macs Hmac arp_ok_at n i s Hn Ha Hi) as Hsound.
  assert (Hgo : ∀ l h, Forall item_ok l → host_ok (t + 1) l n h →
    (∀ m, m ≠ n → host_ok t l m (host_at w m)) → hosts_ok (t + 1) (mk_hosts (upd (host_at w) n h) l)).
  { intros l h Hf Hok Hm. split; cbn; [done|]. intros m. unfold upd. destruct (decide (m = n)) as [->|]; [done|].
    eapply host_ok_air; [by apply Hm|lia|done|auto]. }
  assert (Htable : h_tour_up (host_at w n) = true → table_ok (t + 1) (h_tour (host_at w n))).
  { intros Hu. apply (table_ok_le t); [by apply Ht|lia]. }
  unfold service, outcome in *. unfold arp_did. fold s. unfold wpx in Hsound. destruct Hout as [Hr|(s1 & Hr & Hout & ls & ev & Hfail)].
  - unfold node_step in Hsound. rewrite Hr in *. rewrite Hes, drop_app_length. apply Hgo; [done| |done]. by split.
  - unfold node_step in Hsound. rewrite Hr in *. rewrite Hout, drop_all. cbn. rewrite app_nil_r.
    apply Hgo; [by apply Forall_app in Hitems as [? _]| |done]. split; cbn; [done..| |done|].
    + by eapply wait_ok_out.
    + intros _ Hall. by rewrite Hall in Hfail.
Qed.

(** The request of [n] on its way to everyone else: useful for [n] only, and only once. *)
Definition broadcast (n j : nat) : list (nat * list Z) := (λ m, (m, req n j)) <$> receivers n broadcast_mac.

Lemma broadcast_items n j : (n < 10)%nat → (j < 10)%nat → Forall item_ok (broadcast n j).
Proof.
  intros Hn Hj. apply Forall_forall. intros x Hx. unfold broadcast in Hx. 
  apply list_elem_of_fmap in Hx as (m & -> & (Hm & Hne & _)%receivers_spec).
  exists n, j. split; [done|]. split; [done|]. left. by exists m.
Qed.

Lemma broadcast_quiet n j n' :
  (n < 10)%nat → (j < 10)%nat → (n' < 10)%nat → n' ≠ n → quiet_for n' (broadcast n j).
Proof.
  intros Hn Hj Hn' Hne j' x Hj' (m & -> & _)%list_elem_of_fmap Hu.
  destruct (decide (m = j)) as [->|Hm].
  - assert (Huse : useful n j (j, req n j)) by by left.
    by destruct (useful_inj n j n' j' _ Hn Hj Hn' Hj' Huse Hu) as [<- _].
  - by apply (useless n j m n' j') in Hu.
Qed.

Lemma broadcast_one n j l :
  (n < 10)%nat → (j < 10)%nat → quiet_for n l → quiet_for n (l ++ broadcast n j) ∨ one_for n j (l ++ broadcast n j).
Proof.
  intros Hn Hj Hl.
  assert (Hrest : ∀ ms, j ∉ ms → quiet_for n ((λ m, (m, req n j)) <$> ms)).
  { intros ms Hnot j' x Hj' (m & -> & Hm)%list_elem_of_fmap. apply useless; congruence. }
  destruct (decide (j = n)) as [->|Hne].
  - left. apply quiet_app. split; [done|]. apply Hrest. rewrite receivers_spec. tauto.
  - right. assert (Hj' : j ∈ receivers n broadcast_mac) by (apply receivers_spec; auto).
    assert (Hnd : NoDup (receivers n broadcast_mac)) by (apply NoDup_filter, NoDup_seq).
    apply elem_of_Permutation in Hj' as [ms Hms]. rewrite Hms in Hnd. apply NoDup_cons in Hnd as [Hnot _].
    exists (j, req n j), (l ++ ((λ m, (m, req n j)) <$> ms)). split; [|split; [by left|]].
    + unfold broadcast. rewrite Hms. cbn. by rewrite <- Permutation_middle.
    + apply quiet_app. split; [done|by apply Hrest].
Qed.

(** The service takes the connection of a waiting tour program. *)
Lemma accepted_ok t w n fd : hosts_ok t w → enabled w (Accepted n fd) → stays_ok (t + 1) (occur w (Accepted n fd)).
Proof.
  intros Hw (Hn & Hup & Hfd & wt & Hwait & Hconn). cbn [occur]. rewrite Hwait.
  pose proof Hw as [Hair Hh]. pose proof (Hh n) as [Ha _ _ Hwt Hq _]. set (s := h_arp (host_at w n)) in *.
  destruct (Hwt wt Hwait) as (j & Hj & Hsrc & Hline & _).
  assert (Hquiet : quiet_for n (air w)).
  { destruct (Hq Hn Hup) as [?|(? & ? & ? & ? & _ & Hs & _)]; [done|].
    rewrite Hwait in Hs. injection Hs as ->. cbn in Hconn. discriminate Hconn. }
  destruct (cache_lookup macs s j Ha Hj) as [e He]. pose proof (ip_of_lookup j Hj) as Hipj.
  assert (Hipn : (String.length (ip_of n) < 15)%nat) by (eapply vm_short, ip_of_lookup; done).
  pose proof (tour_outcome (ip_of n) (macs n) (arp_ok_at n) j (ip_of j) fd e s Hipn Hipj He) as Hout.
  assert (Hi : input_ok macs (Arp.Tour fd (w_line wt))).
  { exists j, (ip_of j), []. split; [done|]. by rewrite app_nil_r. }
  set (o := Some (mk_waiting (w_src wt) (w_line wt) (Some (fd, length (arp_out s))))).
  assert (Ho : ∀ s' es, arp_out s' = arp_out s ++ es → (∀ mac, ToTour fd mac ∈ es → mac = macs j) → wait_ok o s').
  { intros s' es Hs' Hes wt' [= <-]. exists j. split; [done|]. split; [done|]. split; [done|].
    intros fd' seen [= <- <-]. rewrite Hs', length_app, drop_app_length. split; [lia|done]. }
  assert (Hos : wait_ok o s) by (apply (Ho s []); [by rewrite app_nil_r|by intros ? ?%not_elem_of_nil]).
  rewrite Hline. destruct (streq (c_ip_addr e) (ip_of j)) eqn:Hhit.
  - apply streq_eq in Hhit. destruct (ss_cache _ _ Ha _ _ He) as [Hnil|[_ Hmac']].
    { rewrite Hnil in Hhit. rewrite <- Hhit in Hipj. by apply vm_addr_nonempty in Hipj. }
    rewrite Hmac' in Hout. eapply (arp_did_ok _ _ _ _ _ _ _ [ToTour fd (macs j); Close fd]);
      [done|done|by rewrite <- Hline|exact Hout|done| |done| | | |]; cbn [on_air mbind list_bind app].
    + by rewrite app_nil_r.
    + apply (Ho _ [ToTour fd (macs j); Close fd]); [done|]. set_solver.
    + intros m _. rewrite app_nil_r. apply Hh.
    + intros m _. apply Hh.
    + left. by rewrite app_nil_r.
  - set (b := broadcast n j).
    assert (Hon : on_air n [ToWire broadcast_mac (req n j)] = b) by apply on_air_one.
    eapply (arp_did_ok _ _ _ _ _ _ _ [ToWire broadcast_mac (req n j)]);
      [done|done|by rewrite <- Hline|exact Hout|done| |done| | | |]; rewrite ?Hon.
    + apply Forall_app_2; [done|by apply broadcast_items].
    + apply (Ho _ [ToWire broadcast_mac (req n j)]); [done|]. set_solver.
    + intros m Hm. eapply host_ok_air; [apply Hh|lia|..].
      * intros Hm10 Hl. apply quiet_app. split; [done|by apply broadcast_quiet].
      * intros j' Hm10 Hj' H1. right. apply one_add; [done|by apply broadcast_quiet].
    + intros m _. apply Hh.
    + destruct (broadcast_one n j (air w) Hn Hj Hquiet) as [?|Hone]; [by left|right].
      exists j, (enc_str 15 (ip_of j)), fd, (length (arp_out s)). unfold o. rewrite Hsrc, Hline.
      split; [done|]. split; [done|]. split; [|done]. split; [by left|]. split.
      * eexists. split; [cbn; apply list_lookup_insert_eq; by eapply lookup_lt_Some|done].
      * intros mac. cbn. rewrite drop_app_length. set_solver.
Qed.

#[local] Transparent req rep.

Lemma request_outcome n j m junk s :
  (n < 10)%nat → (j < 10)%nat → (m < 10)%nat → m ≠ n →
  ∃ s' es, outcome (arp_ok_at m) (service m (Packet (req n j ++ junk)) s) s s' ∧ arp_out s' = arp_out s ++ es ∧
    cache s' = cache s ∧ open_fds s' = open_fds s ∧ (∀ fd mac, ToTour fd mac ∉ es) ∧
    on_air m es = if decide (m = j) then [(n, rep n j)] else [].
Proof.
  intros Hn Hj Hm Hmn. unfold service, arp_step, req.
  rewrite (request_arrives (arp_ok_at m) n j) by (done || by apply ip_of_lookup).
  destruct (decide (m = j)) as [->|Hne].
  - rewrite streq_refl. cbn [when]. exists (put_arp_out (arp_out s ++ [ToWire (macs n) (rep n j)]) s), [ToWire (macs n) (rep n j)].
    split; [apply emit_outcome|]. split; [done|split; [done|split; [done|split; [set_solver|]]]].
    by rewrite on_air_one, receivers_unicast by auto.
  - rewrite (proj2 (streq_neq _ _)) by (intros H; apply ip_of_inj in H; congruence).
    exists s, []. split; [by left|]. rewrite app_nil_r. split_and!; (done || set_solver).
Qed.

Lemma req_honest n j : (n < 10)%nat → (j < 10)%nat → honest_frame macs (req n j).
Proof. intros Hn Hj%ip_of_lookup. by apply (request_honest macs Hmac n j). Qed.

Lemma rep_honest n j : (n < 10)%nat → (j < 10)%nat → honest_frame macs (rep n j).
Proof.
  intros Hn%ip_of_lookup Hj%ip_of_lookup.
  destruct (reply_ok n j _ _ (macs n) (macs j) Hn Hj (Hmac n) (Hmac j)) as [Hh Ha].
  eexists _, _. split; [reflexivity|]. split; [exact Hh|]. split; [exact Ha|]. by exists j.
Qed.

Lemma reply_outcome n j junk s e :
  (n < 10)%nat → (j < 10)%nat → cache s !! j = Some e → c_sockfd e ∈ open_fds s →
  outcome (arp_ok_at n) (service n (Packet (rep n j ++ junk)) s) s
    (replied (c_sockfd e) (macs j) (put_cache (<[j := mk_cache (ip_of j) (macs j) (c_sockfd e)]> (cache s)) s)).
Proof.
  intros Hn Hj He Hfd. pose proof (ip_of_lookup n Hn) as Hin. pose proof (ip_of_lookup j Hj) as Hij.
  destruct (reply_ok n j _ _ (macs n) (macs j) Hin Hij (Hmac n) (Hmac j)) as [Hh Ha].
  unfold service, arp_step, rep, reply_frame. rewrite handle_packet_run by done.
  cbn [op]. rewrite ntohs_two. change (2 =? 1) with false. cbv iota.
  by apply (learn_outcome (arp_ok_at n) (mk_arp (htons 1) (htons 2048) 6 4 (htons 2) (macs n) (ip_of n) (macs j) (ip_of j))).
Qed.

#[local] Opaque req rep.

(** One useful frame takes the place of another. *)
Lemma swap_item t n j x y l k h :
  (n < 10)%nat → (j < 10)%nat → useful n j x → useful n j y → host_ok t (x :: l) k h → host_ok t (l ++ [y]) k h.
Proof.
  intros Hn Hj Hx Hy Hk. rewrite Permutation_app_comm. cbn [app].
  assert (Hswap : ∀ j', (k < 10)%nat → (j' < 10)%nat → useful k j' y → k = n ∧ useful k j' x).
  { intros j' Hk10 Hj' Hu. by destruct (useful_inj n j k j' y Hn Hj Hk10 Hj' Hy Hu) as [<- <-]. }
  eapply host_ok_air; [exact Hk|lia|..].
  - intros Hk10 [Hu Hq]%quiet_cons. apply quiet_cons. split; [|done].
    intros j' Hj' H. apply (Hu j' Hj'). by apply Hswap.
  - intros j' Hk10 Hj' [[Hu Hq]|[Hu (z & l' & Hl & Hz & Hq)]]%one_remove; [..|done]; right.
    + destruct (useful_inj n j k j' x Hn Hj Hk10 Hj' Hx Hu) as [<- <-]. by exists y, l.
    + exists z, (y :: l'). split; [rewrite Hl; apply perm_swap|]. split; [done|]. apply quiet_cons. split; [|done].
      intros j2 Hj2 H. apply (Hu j2 Hj2). by apply Hswap.
Qed.

(** More output, but none for the tour program, leaves a waiting connection waiting. *)
Lemma asking_more n l o s s' es :
  wait_ok o s → arp_out s' = arp_out s ++ es → cache s' = cache s → open_fds s' = open_fds s →
  (∀ fd mac, ToTour fd mac ∉ es) → asking n l o s → asking n l o s'.
Proof.
  intros Hw Hout Hc Hf Hes (j & line & fd & seen & Hj & Ho & (H1 & H2 & H3) & Hone).
  exists j, line, fd, seen. split; [done|]. split; [done|]. split; [|done]. unfold pending. rewrite Hc, Hf, Hout.
  split; [done|]. split; [done|]. destruct (Hw _ Ho) as (j' & _ & _ & _ & Hseen).
  destruct (Hseen fd seen eq_refl) as [Hle _]. intros mac. rewrite drop_app_le by done.
  intros [?|?]%elem_of_app; [by eapply H3|by eapply Hes].
Qed.

(** A request arrives: the host it is for sends the reply, the others nothing. *)
Lemma request_arrives_ok t w n j m junk rest :
  (n < 10)%nat → (j < 10)%nat → (m < 10)%nat → m ≠ n →
  hosts_ok t w → h_arp_up (host_at w m) = true → air w ≡ₚ (m, req n j) :: rest →
  stays_ok (t + 1) (arp_did w m rest (h_wait (host_at w m)) (service m (Packet (req n j ++ junk)) (h_arp (host_at w m)))).
Proof.
  intros Hn Hj Hm Hmn Hw Hup Hair. pose proof Hw as [Hitems Hh]. setoid_rewrite Hair in Hh.
  rewrite Hair in Hitems. apply Forall_cons in Hitems as [_ Hrest].
  destruct (request_outcome n j m junk (h_arp (host_at w m)) Hn Hj Hm Hmn)
    as (s' & es & Hout & Hes & Hcache & Hfds & Hno & Hon).
  assert (Hh' : ∀ k, host_ok t rest k (host_at w k)) by (intros k; by eapply drop_item).
  assert (Hall : ∀ k, host_ok t (rest ++ on_air m es) k (host_at w k)).
  { intros k. rewrite Hon. destruct (decide (m = j)) as [->|]; [|by rewrite app_nil_r].
    apply (swap_item t n j (j, req n j)); [done|done|by left|by right|done]. }
  assert (Hi : input_ok macs (Packet (req n j ++ junk))).
  { exists (req n j), junk. split; [by apply req_honest|done]. }
  destruct (Hall m) as [_ _ _ Hwt Hq _].
  eapply arp_did_ok; [done|done|exact Hi|exact Hout|exact Hes| |done|by eapply wait_ok_more|auto|auto|].
  - apply Forall_app_2; [done|]. rewrite Hon. destruct (decide (m = j)); [|by apply Forall_nil_2].
    apply Forall_singleton. exists n, j. split; [done|]. split; [done|by right].
  - destruct (Hq Hm Hup) as [?|?]; [by left|right; by eapply asking_more].
Qed.

(** The reply arrives: the connection that waits for it gets it. *)
Lemma reply_arrives_ok t w n j junk rest :
  (n < 10)%nat → (j < 10)%nat → hosts_ok t w → h_arp_up (host_at w n) = true → air w ≡ₚ (n, rep n j) :: rest →
  stays_ok (t + 1) (arp_did w n rest (h_wait (host_at w n)) (service n (Packet (rep n j ++ junk)) (h_arp (host_at w n)))).
Proof.
  intros Hn Hj Hw Hup Hair. pose proof Hw as [Hitems Hh]. setoid_rewrite Hair in Hh.
  rewrite Hair in Hitems. apply Forall_cons in Hitems as [_ Hrest].
  assert (Hh' : ∀ k, host_ok t rest k (host_at w k)) by (intros k; by eapply drop_item).
  assert (Huse : useful n j (n, rep n j)) by by right.
  destruct (Hh n) as [_ _ _ Hwt Hq _].
  destruct (Hq Hn Hup) as [[Hquiet _]%quiet_cons|(j' & line & fd & seen & Hj' & Hwait & (Hfd & (e & He & <-) & Hseen) & Hone)];
    [by apply (Hquiet j) in Huse|].
  apply one_remove in Hone as [[Hu Hquiet]|[Hu _]]; [|by apply (Hu j) in Huse|done].
  destruct (useful_inj n j n j' _ Hn Hj Hn Hj' Huse Hu) as [_ <-].
  pose proof (reply_outcome n j junk _ e Hn Hj He Hfd) as Hout.
  assert (Hi : input_ok macs (Packet (rep n j ++ junk))).
  { exists (rep n j), junk. split; [by apply rep_honest|done]. }
  set (es := [ToTour (c_sockfd e) (macs j); Close (c_sockfd e)]).
  assert (Hon : rest ++ on_air n es = rest) by (unfold es, on_air; cbn; by rewrite app_nil_r).
  eapply (arp_did_ok _ _ _ _ _ _ _ es); [done|done|exact Hi|exact Hout|done| |done| | | |]; rewrite ?Hon;
    [done| |auto|auto|by left].
  rewrite Hwait in *. intros wt [= <-]. destruct (Hwt _ eq_refl) as (j2 & Hj2 & Hsrc & Hline & Hc).
  cbn in Hsrc. apply ip_of_inj in Hsrc as <-; [|done..].
  exists j. split; [done|]. split; [done|]. split; [done|]. intros fd seen' [= <- <-].
  destruct (Hc _ _ eq_refl) as [Hle _]. cbn. rewrite length_app. split; [lia|].
  intros mac. rewrite drop_app_le by done. intros [H|H]%elem_of_app; [by apply Hseen in H|]. set_solver.
Qed.

Lemma frame_arrives_ok t w i junk :
  hosts_ok t w → enabled w (FrameArrives i junk) → stays_ok (t + 1) (occur w (FrameArrives i junk)).
Proof.
  intros Hw (n & f & Hi & Hup). cbn [occur]. rewrite Hi.
  pose proof (delete_Permutation _ _ _ Hi) as Hp. pose proof (hs_air _ _ Hw) as Hitems.
  rewrite Forall_forall in Hitems. destruct (Hitems (n, f)) as (a & j & Ha & Hj & Hf); [by eapply list_elem_of_lookup_2|].
  destruct Hf as [(m & Hm & Hne & [= <- ->])|[= -> ->]].
  - by apply (request_arrives_ok t w a j n).
  - by apply (reply_arrives_ok t w a j).
Qed.

(** ** All events *)

Lemma ip_of_stop n : (n < 10)%nat → ip_of n ∈ vm_addr.
Proof. intros Hn%ip_of_lookup. by eapply list_elem_of_lookup_2. Qed.

Lemma stop_ip_of s : s ∈ vm_addr → ∃ j, (j < 10)%nat ∧ s = ip_of j.
Proof.
  intros [j Hj]%list_elem_of_lookup. exists j. pose proof (proj2 (vm_ip_ok _ _ Hj)) as Hlt.
  split; [done|]. rewrite ip_of_lookup in Hj by done. congruence.
Qed.

(** A leg addressed to host [n] ends at a stop that is host [n]. *)
Lemma leg_here p n :
  is_leg p → (n < 10)%nat → ip_dst p = addr_bytes (ip_of n) →
  ∃ port_bytes route k src, length port_bytes = 2%nat ∧ stops route ∧ (length route ≤ 20)%nat ∧
    route !! k = Some src ∧ route !! S k = Some (ip_of n) ∧ p = leg port_bytes route k.
Proof.
  intros (pb & route & k & Hpb & Hst & Hroom & Hk & ->) Hn Hdst.
  destruct (lookup_lt_is_Some_2 route k) as [src Hsrc]; [lia|].
  destruct (lookup_lt_is_Some_2 route (S k) Hk) as [me Hme].
  exists pb, route, k, src. split; [done|]. split; [done|]. split; [done|]. split; [done|]. split; [|done].
  destruct (addr_at_lookup route Hst _ _ Hme) as [_ Hntop].
  change (addr_at route (S k) = addr_bytes (ip_of n)) in Hdst. rewrite Hdst in Hntop.
  destruct (vm_addr_bytes n (ip_of n) (ip_of_lookup n Hn)) as [_ H]. congruence.
Qed.

Lemma route_arrives_ok t w n p junk :
  hosts_ok t w → enabled w (RouteArrives n p junk) → 0 ≤ t → t + 1 ≤ INT_MAX →
  stays_ok (t + 1) (occur w (RouteArrives n p junk)).
Proof.
  intros Hw (Hn & Hup & Hwait & Hp) Ht0 Ht. cbn [occur]. pose proof (hs_host _ _ Hw n) as [Ha Htab Hl Hwt Hq _].
  specialize (Htab Hup). assert (Hair : h_arp_up (host_at w n) = true → quiet_for n (air w)).
  { intros Hu. destruct (Hq Hn Hu) as [?|(? & ? & ? & ? & _ & H & _)]; [done|congruence]. }
  apply tour_did_ok; [done..|]. destruct (decide (ntohs (ip_id p) = TOUR_ID)) as [Hid|Hid].
  - destruct Hp as [?|[Hdst [m Hm]]]; [done|].
    pose proof (ho_legs _ _ _ _ (hs_host _ _ Hw m)) as Hlegs. unfold legs_only in Hlegs.
    rewrite Forall_forall in Hlegs. destruct (leg_here p n (Hlegs p Hm) Hn Hdst)
      as (pb & route & k & src & Hpb & Hst & Hroom & Hsrc & Hk & ->).
    pose proof (arrives_legs (node n) n (ip_of n) (tour_ok_at n) pb route k src junk _ eq_refl
      (ip_of_lookup n Hn) Hpb Hst Hroom Hsrc Hk Hl) as H1.
    pose proof (route_arrives_leg pb Hpb route Hst Hroom (node n) n (ip_of n) eq_refl (ip_of_lookup n Hn)
      (tour_ok_at n) True ltac:(done) t _ k src junk Hsrc Hk Htab) as H2.
    assert (Hin : src ∈ vm_addr).
    { unfold stops in Hst. rewrite Forall_forall in Hst. apply Hst. by eapply list_elem_of_lookup_2. }
    unfold wpx in *. destruct (route_arrives _ _ _ _ _) as [o s|c s|u]; [|done|done].
    destruct H2 as (-> & Htab' & _). split; [apply (table_ok_le t); [done|lia]|]. split; [done|].
    cbn. destruct (stop_ip_of src Hin) as (j & Hj & ->). split; [|by left; auto].
    intros wt [= <-]. exists j. split; [done|]. split; [done|]. split; [done|]. intros ? ? [=].
  - unfold route_arrives. destruct (Z.eqb_spec (ntohs (ip_id p)) TOUR_ID); [done|]. cbn.
    split; [apply (table_ok_le t); [done|lia]|]. split; [done|]. split; [by intros ? [=]|by left; auto].
Qed.

Lemma answered_ok t w n reply :
  hosts_ok t w → enabled w (Answered n reply) → 0 ≤ t → t + 1 ≤ INT_MAX →
  stays_ok (t + 1) (occur w (Answered n reply)).
Proof.
  intros Hw (Hn & Hup & wt & Hwait & Hread) Ht0 Ht. cbn [occur]. rewrite Hwait.
  pose proof (hs_host _ _ Hw n) as [Ha Htab Hl Hwt Hq _]. destruct (Hwt wt Hwait) as (j & Hj & Hsrc & _ & _).
  apply tour_did_ok; [done..|].
  pose proof (route_answered_spec (node n) (tour_ok_at n) True ltac:(done) t (h_tour (host_at w n)) (w_src wt) reply) as H1.
  rewrite Hsrc in *. specialize (H1 (ip_of_stop j Hj) (Htab Hup) Ht0 Ht ltac:(done) ltac:(done)).
  pose proof (answered_legs (node n) (tour_ok_at n) (ip_of j) reply _ Hl) as H2. unfold wpx in *.
  destruct reply as [mac|]; [|done]. destruct (route_answered _ _ _ _ _) as [[] s|c s|u]; [|done..].
  destruct H1 as [H1 _]. split; [done|]. split; [done|]. split; [by intros ? [=]|]. intros Hu.
  destruct (Hq Hn Hu) as [?|(j' & line & fd & seen & _ & Ho & (_ & _ & Hno) & _)]; [by left|].
  rewrite Hwait in Ho. injection Ho as ->. cbn in Hread. destruct Hread as [H|H]; [by apply Hno in H|congruence].
Qed.

Lemma handlers_table t n s i o :
  table_ok t s → 0 ≤ t → t + 1 ≤ INT_MAX → (n < 10)%nat → match i with RoutePacket _ _ _ => False | _ => True end →
  wp (λ _ _, True) (tour_step (node n) o i) (λ _, table_ok (t + 1)) s.
Proof.
  intros Hs Ht0 Ht Hn Hi. apply (tour_step_table n (ip_of n) (ip_of_lookup n Hn) o t); [done..|]. by destruct i.
Qed.

Lemma occur_ok t w e :
  hosts_ok t w → enabled w e → 0 ≤ t → t + 1 ≤ INT_MAX → stays_ok (t + 1) (occur w e).
Proof.
  intros Hw He Ht0 Ht. destruct e as [n p junk|n fd|i junk|n reply|n msg|n b|i].
  - by apply route_arrives_ok.
  - by apply accepted_ok.
  - by apply frame_arrives_ok.
  - by apply answered_ok.
  - destruct He as (Hn & Hup & Hwait & _). cbn [occur].
    apply (tour_did_plain _ _ _ (tour_step (node n) (tour_ok_at n) (Message msg))); [done|done|by right| |by apply handlers_legs].
    apply handlers_table; try done. by apply (hs_host _ _ Hw n).
  - destruct He as [Hn Hup]. cbn [occur].
    set (fin := when (b && bool_decide (is_Some (h_wait (host_at w n)))) (exit 1)).
    apply (tour_did_plain _ _ _ (tour_step (node n) (tour_ok_at n) AlarmRings;; fin)); [done|done|by left| |].
    + eapply wpx_seq; [apply (handlers_table t); [|done..]; by apply (hs_host _ _ Hw n)|].
      intros [] s Hs. unfold fin. by destruct (b && _).
    + apply preserves_bind; [by apply handlers_legs|]. intros []. unfold fin. keep_legs.
  - apply lookup_lt_is_Some_2 in He as [x Hx]. cbn [occur].
    pose proof (delete_Permutation _ _ _ Hx) as Hp. destruct Hw as [Hair Hh]. rewrite Hp in Hair. split; cbn.
    + by apply Forall_cons in Hair as [_ ?].
    + intros n. eapply drop_item. rewrite <- Hp. eapply host_ok_air; [apply Hh|lia|done|auto].
Qed.

(** ** From the start *)

Lemma starts_ok n h : (n < 10)%nat → starts n h → h_arp_up h = true → host_ok 0 [] n h.
Proof.
  intros Hn ((fds & Ha) & Hw & pb & args & Hpb & Hlen & Hargs & Hrun) Hup.
  assert (Ht : table_ok 0 (h_tour h) ∧ legs_only (h_tour h)).
  { pose proof tour_init_table. pose proof (ip_of_lookup n Hn) as Hip. destruct args as [|a args].
    - cbn in Hrun. injection Hrun as <-. split; [done|by apply Forall_nil_2].
    - rewrite (start_tour_eq pb _ n (ip_of n)) in Hrun by done.
      apply bind_Done_inv in Hrun as ([] & s1 & H1%emit_tour_Done & ->%emit_tour_Done). subst s1.
      split; [by destruct H|].
      apply Forall_singleton. exists pb, (ip_of n :: map stop_of (a :: args)), 0%nat.
      split; [done|]. split; [by eapply route_stops|]. cbn in *. rewrite length_map. split_and!; (done || lia). }
  destruct Ht. split; [rewrite Ha; apply init_sound|done|done|by rewrite Hw|..].
  - intros _ _. left. by intros ? ? ? ?%not_elem_of_nil.
  - done.
Qed.

Lemma hosts_initial_ok w : hosts_initial w → hosts_ok 0 w.
Proof.
  intros [Hair Hw]. split; [by rewrite Hair; apply Forall_nil_2|]. intros n. rewrite Hair. specialize (Hw n).
  destruct (decide (n < 10)%nat) as [Hn|Hn].
  - destruct Hw as [Hs Hup]. by apply starts_ok.
  - rewrite Hw. split; cbn; try done. apply init_sound. by apply Forall_nil_2.
Qed.

Lemma reaches_ok w0 k w : hosts_initial w0 → reaches w0 k w → Z.of_nat k ≤ INT_MAX → hosts_ok (Z.of_nat k) w.
Proof.
  intros H0 Hr Hk. induction Hr as [|k w e w' Hr IH He Hocc]; [by apply hosts_initial_ok|].
  specialize (IH ltac:(lia)). pose proof (occur_ok _ _ _ IH He ltac:(lia) ltac:(lia)) as H.
  rewrite Hocc in H. by replace (Z.of_nat (S k)) with (Z.of_nat k + 1) by lia.
Qed.

(** C9: the programs of Assignment 4 together.  Whatever tours are started, whatever is
    lost, delayed or reordered and whichever calls fail: no event that can happen at a
    host leads a program into undefined behaviour (for less than 2^31 events), every
    packet sent is a leg of a tour, [areq] reads from a living service only the hardware
    address of the very host it asked for, and a service ends only when a call fails. *)
Theorem hosts_sound w0 k w :
  hosts_initial w0 → reaches w0 k w → Z.of_nat k < INT_MAX →
  (∀ e u, enabled w e → occur w e ≠ inl u) ∧
  (∀ n p, p ∈ routes_of (t_out (h_tour (host_at w n))) → is_leg p) ∧
  (∀ n wt mac, h_wait (host_at w n) = Some wt → h_arp_up (host_at w n) = true →
     can_read (host_at w n) wt (Some mac) → ∃ j, vm_addr !! j = Some (w_src wt) ∧ mac = macs j) ∧
  (∀ n, (n < 10)%nat → (∀ l ev, arp_ok_at n l ev = true) → h_arp_up (host_at w n) = true).
Proof.
  intros H0 Hr Hk. pose proof (reaches_ok w0 k w H0 Hr ltac:(lia)) as Hw. split_and!.
  - intros e u He Hu. pose proof (occur_ok _ _ _ Hw He ltac:(lia) ltac:(lia)) as H. by rewrite Hu in H.
  - intros n p. pose proof (ho_legs _ _ _ _ (hs_host _ _ Hw n)) as H. unfold legs_only in H.
    rewrite Forall_forall in H. apply H.
  - intros n wt mac Hwait Hup Hread. destruct (ho_wait _ _ _ _ (hs_host _ _ Hw n) wt Hwait) as (j & Hj & Hsrc & _ & Hc).
    exists j. rewrite Hsrc. split; [by apply ip_of_lookup|]. cbn in Hread.
    destruct (w_conn wt) as [[fd seen]|]; [|congruence]. destruct (Hc _ _ eq_refl) as [_ Hm].
    destruct Hread as [?|?]; [by apply Hm|congruence].
  - intros n Hn Hall. by apply (ho_up _ _ _ _ (hs_host _ _ Hw n)).
Qed.
End system.

(** * A run *)

(** VM1 starts a tour to VM2, VM3 and VM2; all calls succeed. *)
Definition here : hosts → event → ub + hosts := occur mac_of (λ _, all_ok) (λ _, always).

Definition idle (n : nat) : host := mk_host tour_init true None (arp_init [0; 1; 2]) true.
Definition source_state : tour :=
  match start_tour 1 port2 always tour_args tour_init with Done _ s => s | _ => tour_init end.
Definition first_hosts : hosts :=
  mk_hosts (λ n, if decide (n < 10)%nat
                 then if decide (n = 0)%nat then mk_host source_state true None (arp_init [0; 1; 2]) true else idle n
                 else mk_host tour_init false None (arp_init []) false) [].

Fixpoint run (w : hosts) (l : list event) : ub + hosts :=
  match l with [] => inr w | e :: l' => match here w e with inr w' => run w' l' | inl u => inl u end end.
Definition at_end (l : list event) : hosts := match run first_hosts l with inr w => w | inl _ => first_hosts end.

(** The first leg reaches VM2, which asks VM1 for its hardware address. *)
Definition first_leg : list event :=
  [RouteArrives 1 (leg port2 my_tour 0) []; Accepted 1 5; FrameArrives 0 []; FrameArrives 8 []].


Lemma first_hosts_initial : hosts_initial (λ _, always) first_hosts.
Proof.
  split; [done|]. intros n. cbn. destruct (decide (n < 10)%nat) as [Hn|Hn]; [|done].
  destruct (decide (n = 0)%nat) as [->|Hne]; (split; [|done]).
  - split; [by exists [0; 1; 2]|]. split; [done|]. exists port2, tour_args. split; [done|].
    split; [vm_compute; lia|]. split; [exact tour_args_names|vm_compute; reflexivity].
  - split; [by exists [0; 1; 2]|]. split; [done|]. exists port2, []. split; [done|].
    split; [cbn; lia|]. by split.
Qed.

Lemma run_app w l l' :
  run w (l ++ l') = match run w l with inr w' => run w' l' | inl u => inl u end.
Proof. revert w. induction l as [|e l IH]; intros w; cbn; [done|]. destruct (here w e); [done|apply IH]. Qed.

Lemma run_reaches l :
  (∀ i e, l !! i = Some e → enabled (at_end (take i l)) e) →
  match run first_hosts l with inr _ => true | inl _ => false end = true →
  reaches mac_of (λ _, all_ok) (λ _, always) first_hosts (length l) (at_end l).
Proof.
  induction l as [|e l IH] using rev_ind; intros He Hw; [apply reaches_start|].
  rewrite run_app in Hw. destruct (run first_hosts l) as [|w1] eqn:H1; [done|]. cbn in Hw.
  destruct (here w1 e) as [|w2] eqn:H2; [done|].
  assert (Hat : at_end l = w1) by (unfold at_end; by rewrite H1).
  rewrite length_app, Nat.add_1_r. apply (reaches_next _ _ _ _ _ (at_end l) e).
  - apply IH; [|done]. intros i e' Hi. pose proof (lookup_lt_Some _ _ _ Hi).
    specialize (He i e'). rewrite take_app_le in He by lia. apply He. by apply lookup_app_l_Some.
  - specialize (He (length l) e). rewrite take_app_length in He. apply He. by rewrite lookup_app_r, Nat.sub_diag by lia.
  - rewrite Hat. unfold at_end. rewrite run_app, H1. cbn. by rewrite H2.
Qed.

Ltac route_enabled m :=
  split; [lia|]; split; [vm_compute; reflexivity|]; split; [vm_compute; reflexivity|]; right;
  split; [vm_compute; reflexivity|]; exists m; vm_compute; left.
Ltac accept_enabled :=
  split; [lia|]; split; [vm_compute; reflexivity|]; split; [vm_compute; set_solver|];
  eexists; split; vm_compute; reflexivity.
Ltac frame_enabled := eexists _, _; split; vm_compute; reflexivity.
Ltac answer_enabled :=
  split; [lia|]; split; [vm_compute; reflexivity|]; eexists; split; [vm_compute; reflexivity|];
  left; vm_compute; right; left.

Lemma first_leg_reached :
  reaches mac_of (λ _, all_ok) (λ _, always) first_hosts 4 (at_end first_leg).
Proof.
  apply (run_reaches first_leg); [|vm_compute; reflexivity]. intros [|[|[|[|i]]]] e [= <-].
  - route_enabled 0%nat.
  - accept_enabled.
  - frame_enabled.
  - frame_enabled.
Qed.

Lemma mac_of_distinct n m : (n < 10)%nat → (m < 10)%nat → mac_of n = mac_of m → n = m.
Proof. unfold mac_of. intros Hn Hm H. injection H. lia. Qed.

Lemma mac_of_unicast n : mac_of n ≠ broadcast_mac.
Proof. discriminate. Qed.

Lemma hosts_sound_witness :
  Forall is_leg (routes_of (t_out (h_tour (host_at (at_end first_leg) 1)))) ∧
  ∃ j, vm_addr !! j = Some "130.245.156.21"%string ∧ mac_of 0 = mac_of j.
Proof.
  destruct (hosts_sound mac_of (λ _, all_ok) (λ _, always) mac_of_ok mac_of_distinct mac_of_unicast
    first_hosts 4 (at_end first_leg) first_hosts_initial first_leg_reached ltac:(vm_compute; reflexivity))
    as (_ & Hlegs & Hanswer & _).
  split; [apply Forall_forall; intros p; apply (Hlegs 1%nat)|].
  apply (Hanswer 1%nat (mk_waiting "130.245.156.21" (enc_str 15 "130.245.156.21") (Some (5, 0%nat))) (mac_of 0)).
  - vm_compute. reflexivity.
  - vm_compute. reflexivity.
  - left. vm_compute. right. left.
Defined.

(** The tour goes on to VM3 and back to VM2, whose alarm rings while it asks for VM3. *)
Definition second_visit : list event :=
  first_leg ++
  [Answered 1 (Some (mac_of 0)); RouteArrives 2 (leg port2 my_tour 1) []; Accepted 2 5; FrameArrives 9 [];
   FrameArrives 16 []; Answered 2 (Some (mac_of 1)); RouteArrives 1 (leg port2 my_tour 2) []; Rings 1 true].

Lemma second_visit_reached :
  reaches mac_of (λ _, all_ok) (λ _, always) first_hosts 12 (at_end second_visit).
Proof.
  apply (run_reaches second_visit); [|vm_compute; reflexivity].
  intros [|[|[|[|[|[|[|[|[|[|[|[|i]]]]]]]]]]]] e [= <-].
  - route_enabled 0%nat.
  - accept_enabled.
  - frame_enabled.
  - frame_enabled.
  - answer_enabled.
  - route_enabled 1%nat.
  - accept_enabled.
  - frame_enabled.
  - frame_enabled.
  - answer_enabled.
  - route_enabled 2%nat.
  - split; [lia|vm_compute; reflexivity].
Qed.

(** SIGALRM does not restart a system call.  VM2 pings VM1 every second; when the tour
    comes to it a second time and its alarm rings while it waits for the address of VM3,
    [areq] fails and the program exits: it knew that it was the last node, and the tour
    is never ended. *)
Theorem alarm_ends_areq :
  ∃ k w, reaches mac_of (λ _, all_ok) (λ _, always) first_hosts k w ∧
    h_tour_up (host_at w 1) = false ∧ last_node (h_tour (host_at w 1)) = 1 ∧
    ∀ n, (n < 10)%nat → messages_of (t_out (h_tour (host_at w n))) = [].
Proof.
  exists 12%nat, (at_end second_visit). split; [apply second_visit_reached|].
  split; [vm_compute; reflexivity|]. split; [vm_compute; reflexivity|].
  intros n Hn. do 10 (destruct n as [|n]; [vm_compute; reflexivity|]). lia.
Qed.
