(* ===== verification/TourRun.v ===== *)
(** A whole tour of Assignment 4 when nothing goes wrong: the events of [TourHosts] can
    take a tour from its first packet to the exit of every program of its group.

    One hop is: the packet arrives and is sent on, the service of the host finds the
    hardware address of the preceding host in its cache or asks for it on the Ethernet,
    and the tour program reads it and starts to ping.  The last stop pings until it has
    counted five, multicasts the end of the tour, and every member of the group answers
    and exits. *)

From S2P Require Export TourHosts.

Section completes.
Context (macs : nat → list Z) (Hmac : ∀ n, mac_ok (macs n)).
Context (Hdistinct : ∀ n m, (n < 10)%nat → (m < 10)%nat → macs n = macs m → n = m).
Context (Hunicast : ∀ n, macs n ≠ broadcast_mac).
Context (arp_ok_at : nat → list arp_event → arp_event → bool) (Harp : ∀ n l e, arp_ok_at n l e = true).
Context (tour_ok_at : nat → list tour_event → tour_event → bool) (Htour : ∀ n, all_sent (tour_ok_at n)).

Abbreviation node n := (Z.of_nat n + 1).
Abbreviation happens := (reaches macs arp_ok_at tour_ok_at).
Abbreviation goes := (occur macs arp_ok_at tour_ok_at).
Abbreviation sound := (hosts_ok macs arp_ok_at).

(** * Sequences of events *)

Lemma happens_trans w k1 w1 k2 w2 : happens w k1 w1 → happens w1 k2 w2 → happens w (k1 + k2) w2.
Proof.
  intros H1. induction 1 as [|k2 w2 e w3 _ IH He Ho]; [by rewrite Nat.add_0_r|].
  rewrite Nat.add_succ_r. by eapply reaches_next.
Qed.

Lemma happens_one w e w' : enabled w e → goes w e = inr w' → happens w 1 w'.
Proof. intros He Ho. eapply reaches_next; [apply reaches_start|done|done]. Qed.

Lemma sound_on t w k w' :
  sound t w → happens w k w' → 0 ≤ t → t + Z.of_nat k ≤ INT_MAX → sound (t + Z.of_nat k) w'.
Proof.
  intros Hw Hr Ht0 Ht. induction Hr as [|k w' e w2 Hr IH He Ho]; [by rewrite Z.add_0_r|].
  specialize (IH ltac:(lia)).
  pose proof (occur_ok macs arp_ok_at tour_ok_at Hmac Hdistinct Hunicast _ _ _ IH He ltac:(lia) ltac:(lia)) as H.
  rewrite Ho in H. by replace (t + Z.of_nat (S k)) with (t + Z.of_nat k + 1) by lia.
Qed.

(** Everyone is up and nobody waits. *)
Definition all_up (w : hosts) : Prop := ∀ n, (n < 10)%nat → h_arp_up (host_at w n) = true.

(** The tour programs are as they were, but [n] may wait for something else. *)
Definition same_tours (n : nat) (w w' : hosts) : Prop :=
  ∀ m, h_tour (host_at w' m) = h_tour (host_at w m) ∧ h_tour_up (host_at w' m) = h_tour_up (host_at w m) ∧
       (m ≠ n → h_wait (host_at w' m) = h_wait (host_at w m)).

Lemma same_tours_trans n w1 w2 w3 : same_tours n w1 w2 → same_tours n w2 w3 → same_tours n w1 w3.
Proof.
  intros H1 H2 m. destruct (H1 m) as (A & B & C), (H2 m) as (D & E & F).
  rewrite D, E. split; [done|]. split; [done|]. intros Hm. by rewrite F, C.
Qed.

(** * One exchange *)

Lemma outcome_done k r s s' : outcome k r s s' → (∀ l e, k l e = true) → r = Done tt s'.
Proof. intros [?|(? & _ & _ & l & e & H)] Hk; [done|]. by rewrite Hk in H. Qed.

(** What is on the air may get lost. *)
Lemma drain w : happens w (length (air w)) (mk_hosts (host_at w) []).
Proof.
  destruct w as [h l]. cbn. induction l as [|x l IH]; [apply reaches_start|].
  apply (happens_trans _ 1 (mk_hosts h l)); [|exact IH]. apply (happens_one _ (Lost 0)); [cbn; lia|done].
Qed.

(** A service runs a handler that succeeds. *)
Definition after_arp (w : hosts) (n : nat) (rest : list (nat * list Z)) (o : option waiting) (s : arp_state) : hosts :=
  let h := host_at w n in
  mk_hosts (upd (host_at w) n (mk_host (h_tour h) (h_tour_up h) o s true))
    (rest ++ on_air macs n (drop (length (arp_out (h_arp h))) (arp_out s))).

Lemma arp_did_done w n rest o r s' :
  outcome (arp_ok_at n) r (h_arp (host_at w n)) s' → arp_did macs w n rest o r = inr (after_arp w n rest o s').
Proof. intros H. by rewrite (outcome_done _ _ _ _ H (Harp n)). Qed.

Lemma after_arp_same w n rest o s : same_tours n w (after_arp w n rest o s).
Proof.
  intros m. cbn. unfold upd. destruct (decide (m = n)) as [->|Hne]; cbn; (split; [done|split; [done|]]); by intros.
Qed.

Lemma after_arp_up w n rest o s : all_up w → all_up (after_arp w n rest o s).
Proof. intros Hup m Hm. cbn. unfold upd. destruct (decide (m = n)); [done|by apply Hup]. Qed.

Lemma after_arp_quiet n w m rest s : same_tours n w (after_arp w m rest (h_wait (host_at w m)) s).
Proof.
  intros k. cbn. unfold upd. destruct (decide (k = m)) as [->|Hne]; cbn; (split; [done|split; [done|]]); by intros.
Qed.

Lemma after_arp_here w n rest o s : host_at (after_arp w n rest o s) n = mk_host (h_tour (host_at w n)) (h_tour_up (host_at w n)) o s true.
Proof. cbn. unfold upd. by rewrite decide_True. Qed.

Lemma after_arp_there w n rest o s m : m ≠ n → host_at (after_arp w n rest o s) m = host_at w m.
Proof. intros Hm. cbn. unfold upd. by rewrite decide_False. Qed.

Lemma after_arp_air w n rest o s es :
  arp_out s = arp_out (h_arp (host_at w n)) ++ es → air (after_arp w n rest o s) = rest ++ on_air macs n es.
Proof. intros H. cbn. by rewrite H, drop_app_length. Qed.

Lemma length_receivers n a : (length (receivers macs n a) ≤ 10)%nat.
Proof. unfold receivers. etrans; [apply length_filter|]. by rewrite length_seq. Qed.

(** The request was broadcast; it is answered, and the rest is lost. *)
Lemma exchange w n j fd seen e line :
  (n < 10)%nat → (j < 10)%nat → j ≠ n → all_up w → air w = broadcast macs n j →
  h_wait (host_at w n) = Some (mk_waiting (ip_of j) line (Some (fd, seen))) →
  cache (h_arp (host_at w n)) !! j = Some e → c_sockfd e = fd → fd ∈ open_fds (h_arp (host_at w n)) →
  (seen ≤ length (arp_out (h_arp (host_at w n))))%nat →
  ∃ k w', (k ≤ 12)%nat ∧ happens w k w' ∧ all_up w' ∧ air w' = [] ∧ same_tours n w w' ∧
    h_wait (host_at w' n) = h_wait (host_at w n) ∧
    ToTour fd (macs j) ∈ drop seen (arp_out (h_arp (host_at w' n))).
Proof.
  intros Hn Hj Hne Hup Hair Hwait He Hfd Hopen Hseen.
  assert (Hin : (j, req macs n j) ∈ air w).
  { rewrite Hair. unfold broadcast. apply list_elem_of_fmap. exists j. split; [done|]. rewrite (receivers_spec macs arp_ok_at tour_ok_at). split; [done|]. split; [done|by left]. }
  apply list_elem_of_lookup in Hin as [i Hi]. set (rest := delete i (air w)).
  destruct (request_outcome macs arp_ok_at tour_ok_at Hmac Hdistinct Hunicast n j j [] (h_arp (host_at w j)) Hn Hj Hj Hne)
    as (s1 & es & Hout1 & Hes & _ & _ & _ & Hon).
  rewrite decide_True in Hon by done.
  set (w1 := after_arp w j rest (h_wait (host_at w j)) s1).
  assert (H1 : happens w 1 w1).
  { apply (happens_one w (FrameArrives i [])); [exists j, (req macs n j); auto|].
    cbn [occur]. rewrite Hi. by apply arp_did_done. }
  assert (Hair1 : air w1 = rest ++ [(n, rep macs n j)]) by (unfold w1; by rewrite (after_arp_air _ _ _ _ _ es), Hon).
  assert (Hn1 : host_at w1 n = host_at w n) by (apply after_arp_there; done).
  pose proof (reply_outcome macs arp_ok_at Hmac n j [] (h_arp (host_at w n)) e Hn Hj He
    ltac:(by rewrite Hfd)) as Hout2.
  set (s2 := replied _ _ _) in Hout2. set (w2 := after_arp w1 n rest (h_wait (host_at w1 n)) s2).
  assert (H2 : happens w1 1 w2).
  { apply (happens_one w1 (FrameArrives (length rest) [])).
    - exists n, (rep macs n j). rewrite Hair1, lookup_app_r, Nat.sub_diag by lia. split; [done|]. rewrite Hn1. auto.
    - cbn [occur]. rewrite Hair1, lookup_app_r, Nat.sub_diag by lia. cbn [lookup list_lookup].
      assert (Hdel : delete (length rest) (rest ++ [(n, rep macs n j)]) = rest).
      { rewrite delete_take_drop, take_app_length, drop_ge; [apply app_nil_r|rewrite length_app; cbn; lia]. }
      rewrite Hdel. apply arp_did_done. by rewrite Hn1. }
  exists (1 + 1 + length (air w2))%nat, (mk_hosts (host_at w2) []). split.
  { unfold w2. rewrite (after_arp_air _ _ _ _ _ [ToTour (c_sockfd e) (macs j); Close (c_sockfd e)]) by by rewrite Hn1.
    cbn. rewrite app_nil_r. unfold rest. pose proof (delete_Permutation _ _ _ Hi) as Hp. apply Permutation_length in Hp.
    pose proof (length_receivers n broadcast_mac) as Hle.
    rewrite <- (length_fmap (λ m, (m, req macs n j))) in Hle. fold (broadcast macs n j) in Hle.
    rewrite <- Hair in Hle. cbn [length] in Hp. lia. }
  split; [eapply happens_trans; [by eapply happens_trans|apply drain]|].
  split; [change (all_up w2); by apply after_arp_up, after_arp_up|]. split; [done|].
  split; [change (same_tours n w w2); eapply (same_tours_trans _ _ w1); apply after_arp_quiet|].
  cbn [host_at]. unfold w2. rewrite after_arp_here. cbn [h_wait h_arp]. rewrite Hn1. split; [done|].
  unfold s2. cbn. rewrite Hfd, drop_app_le by done. apply elem_of_app. right. left.
Qed.

(** [areq] of [n] for [j] gets the hardware address of [j], from the cache of the
    service or from [j] itself. *)
Lemma resolve t w n j :
  sound t w → (n < 10)%nat → (j < 10)%nat → j ≠ n → all_up w → air w = [] →
  h_wait (host_at w n) = Some (mk_waiting (ip_of j) (enc_str 15 (ip_of j)) None) →
  ∃ k w' wt, (k ≤ 13)%nat ∧ happens w k w' ∧ all_up w' ∧ air w' = [] ∧ same_tours n w w' ∧
    h_wait (host_at w' n) = Some wt ∧ w_src wt = ip_of j ∧ can_read (host_at w' n) wt (Some (macs j)).
Proof.
  intros Hw Hn Hj Hne Hup Hair Hwait. set (s := h_arp (host_at w n)). set (fd := fresh (open_fds s)).
  pose proof (ho_arp _ _ _ _ _ _ (hs_host _ _ _ _ Hw n)) as Ha. fold s in Ha.
  destruct (cache_lookup macs s j Ha Hj) as [e He]. pose proof (ip_of_lookup j Hj) as Hipj.
  assert (Hipn : (String.length (ip_of n) < 15)%nat) by (eapply vm_short, ip_of_lookup; done).
  pose proof (tour_outcome (ip_of n) (macs n) (arp_ok_at n) j (ip_of j) fd e s Hipn Hipj He) as Hout.
  set (wt := mk_waiting (ip_of j) (enc_str 15 (ip_of j)) (Some (fd, length (arp_out s)))).
  set (s1 := if streq _ _ then _ else _) in Hout. set (w1 := after_arp w n [] (Some wt) s1).
  assert (H1 : happens w 1 w1).
  { apply (happens_one w (Accepted n fd)).
    - split; [done|]. split; [by apply Hup|]. split; [apply infinite_is_fresh|]. by eexists.
    - cbn [occur]. rewrite Hwait, Hair. by apply arp_did_done. }
  assert (Hw1 : host_at w1 n = mk_host (h_tour (host_at w n)) (h_tour_up (host_at w n)) (Some wt) s1 true)
    by apply after_arp_here.
  destruct (streq (c_ip_addr e) (ip_of j)) eqn:Hhit.
  - apply streq_eq in Hhit. destruct (ss_cache _ _ Ha _ _ He) as [Hnil|[_ Hm]].
    { rewrite Hnil in Hhit. rewrite <- Hhit in Hipj. by apply vm_addr_nonempty in Hipj. }
    exists 1%nat, w1, wt. split; [lia|]. split; [done|]. split; [by apply after_arp_up|].
    split; [unfold w1, s1; by rewrite (after_arp_air _ _ _ _ _ [ToTour fd (c_mac_addr e); Close fd])|].
    split; [apply after_arp_same|]. rewrite Hw1. split; [done|]. split; [done|]. left. cbn.
    rewrite drop_app_length, Hm. left.
  - destruct (exchange w1 n j fd (length (arp_out s)) (mk_cache (c_ip_addr e) (c_mac_addr e) fd) (enc_str 15 (ip_of j)))
      as (k & w' & Hk & Hrun & Hup' & Hair' & Hsame & Hwait' & Hread); try done.
    + by apply after_arp_up.
    + unfold w1, s1. rewrite (after_arp_air _ _ _ _ _ [ToWire broadcast_mac (req macs n j)]) by done.
      apply on_air_one.
    + by rewrite Hw1.
    + rewrite Hw1. cbn. apply list_lookup_insert_eq. by eapply lookup_lt_Some.
    + rewrite Hw1. cbn. left.
    + rewrite Hw1. cbn. rewrite length_app. lia.
    + exists (1 + k)%nat, w', wt. split; [lia|]. split; [by eapply happens_trans|]. split; [done|]. split; [done|].
      split; [eapply same_tours_trans; [apply after_arp_same|done]|]. rewrite Hwait', Hw1. split; [done|]. split; [done|].
      by left.
Qed.

(** * One hop *)

Lemma arrives_ping_no nd ok p junk c : preserves (λ s, ping_no s = c) (route_arrives nd ok p junk).
Proof.
  unfold route_arrives, forward, emit_tour, pton_or_exit, strcpy.
  repeat first
    [ lazymatch goal with
      | |- preserves _ (modify _) => by apply preserves_modify
      | |- preserves _ (_ ≫= _) => apply preserves_bind; [|intros ?]
      | |- preserves _ (when _ _) => apply preserves_when
      | |- preserves _ (if _ then _ else _) => apply preserves_if
      | |- preserves _ (match ?o with _ => _ end) => destruct o
      end
    | solve [auto with preserves] ].
Qed.

(** Everyone is up, nobody waits, nothing was multicast, and nothing is on the air. *)
Record calm (w : hosts) : Prop := {
  ca_up : all_up w;
  ca_air : air w = [];
  ca_tour : ∀ n, (n < 10)%nat → h_tour_up (host_at w n) = true ∧ h_wait (host_at w n) = None ∧
    option_ (h_tour (host_at w n)) = 0
}.

Definition after_tour (w : hosts) (n : nat) (o : option waiting) (s : tour) : hosts :=
  set_host w n (mk_host s true o (h_arp (host_at w n)) (h_arp_up (host_at w n))).

Lemma after_tour_up w n o s : all_up w → all_up (after_tour w n o s).
Proof. intros H m Hm. cbn. unfold upd. destruct (decide (m = n)) as [->|]; by apply H. Qed.

Lemma after_tour_here w n o s :
  host_at (after_tour w n o s) n = mk_host s true o (h_arp (host_at w n)) (h_arp_up (host_at w n)).
Proof. cbn. unfold upd. by rewrite decide_True. Qed.

Lemma after_tour_there w n o s m : m ≠ n → host_at (after_tour w n o s) m = host_at w m.
Proof. intros Hm. cbn. unfold upd. by rewrite decide_False. Qed.

Section route.
Context (port_bytes : list Z) (Hport : length port_bytes = 2%nat).
Context (route : list string) (Hstops : stops route) (Hroom : (length route ≤ 20)%nat).
Abbreviation leg_ k := (leg port_bytes route k).

(** What a hop does to the program it reaches. *)
Definition hopped (k : nat) (s s' : tour) : Prop :=
  routes_of (t_out s') = routes_of (t_out s) ++ (if decide (k + 2 < length route)%nat then [leg_ (S k)] else []) ∧
  last_node s' = (if decide (k + 2 < length route)%nat then last_node s else 1) ∧ visited s' ≠ 0 ∧
  (ping_no s = 0 → ping_no s' = 1 ∧ ping_cnt s' !! 0%nat = Some 1 ∧ t_alarm s' ≠ 0).

(** The packet arrives, is sent on, and the preceding stop is asked for. *)
Lemma hop_asks t w n k j m0 :
  sound t w → calm w → (n < 10)%nat →
  route !! k = Some (ip_of j) → route !! S k = Some (ip_of n) →
  leg_ k ∈ routes_of (t_out (h_tour (host_at w m0))) →
  ∃ s1, happens w 1 (after_tour w n (Some (mk_waiting (ip_of j) (enc_str 15 (ip_of j)) None)) s1) ∧
    leg_done port_bytes route t k (h_tour (host_at w n)) s1 ∧ ping_no s1 = ping_no (h_tour (host_at w n)).
Proof.
  intros Hw [Hup Hair Hc] Hn Hsrc Hk Hleg. destruct (Hc n Hn) as (Htup & Hwait & Hopt).
  set (s := h_tour (host_at w n)) in *.
  pose proof (hs_host _ _ _ _ Hw n) as [_ Htab _ _ _ _]. specialize (Htab Htup).
  destruct (wp_False_Done _ _ _ (route_arrives_leg port_bytes Hport route Hstops Hroom (node n) n (ip_of n) eq_refl
    (ip_of_lookup n Hn) (tour_ok_at n) False (never_fails _ (Htour n)) t s k (ip_of j) [] Hsrc Hk Htab))
    as (o & s1 & Hrun1 & -> & Hdone).
  exists s1. split; [|split; [exact Hdone|]].
  - apply (happens_one w (RouteArrives n (leg_ k) [])).
    + split; [done|]. split; [done|]. split; [done|]. right. split; [|by exists m0].
      change (addr_at route (S k) = addr_bytes (ip_of n)). unfold addr_at. by rewrite nth_lookup, Hk.
    + cbn [occur]. fold s. by rewrite Hrun1.
  - exact (preserves_Done _ _ s _ _ (arrives_ping_no (node n) (tour_ok_at n) (leg_ k) [] (ping_no s)) eq_refl Hrun1).
Qed.

(** The hardware address is read, and the pinging starts. *)
Lemma hop_answers t w n j wt mac s1 :
  (n < 10)%nat → (j < 10)%nat → h_tour (host_at w n) = s1 → h_tour_up (host_at w n) = true →
  h_wait (host_at w n) = Some wt → w_src wt = ip_of j → can_read (host_at w n) wt (Some mac) →
  table_ok t s1 → 0 ≤ t → t + 1 ≤ INT_MAX → option_ s1 = 0 →
  ∃ s2, happens w 1 (after_tour w n None s2) ∧ same_travel s1 s2 ∧
    (ping_no s1 = 0 → ping_no s2 = 1 ∧ ping_cnt s2 !! 0%nat = Some 1 ∧ t_alarm s2 ≠ 0).
Proof.
  intros Hn Hj Hs Hup Hwait Hsrc Hread Htab Ht0 Ht Ho. pose proof (ip_of_stop j Hj) as Hin.
  destruct (wp_False_Done _ _ _ (route_answered_spec (node n) (tour_ok_at n) False (never_fails _ (Htour n)) t s1 (ip_of j)
    (Some mac) Hin Htab Ht0 Ht ltac:(congruence) ltac:(done))) as ([] & s2 & Hrun & _ & Hsame).
  exists s2. split; [|split; [done|]].
  - apply (happens_one w (Answered n (Some mac))).
    + split; [done|]. split; [done|]. by exists wt.
    + cbn [occur]. rewrite Hwait, Hs, Hsrc. by rewrite Hrun.
  - intros Hzero. destruct (start_ping_first (node n) (tour_ok_at n) t s1 (ip_of j) (Htour n) Htab Ht0 Ht Ho Hzero Hin)
      as (s3 & Hrun' & H). unfold route_answered in Hrun. rewrite Hrun in Hrun'. by injection Hrun' as ->.
Qed.

Lemma hop t w n k j m0 :
  sound t w → 0 ≤ t → t + 15 ≤ INT_MAX → calm w → (n < 10)%nat → (j < 10)%nat → j ≠ n →
  route !! k = Some (ip_of j) → route !! S k = Some (ip_of n) →
  leg_ k ∈ routes_of (t_out (h_tour (host_at w m0))) →
  ∃ c w', (c ≤ 15)%nat ∧ happens w c w' ∧ calm w' ∧
    (∀ m, m ≠ n → h_tour (host_at w' m) = h_tour (host_at w m)) ∧
    hopped k (h_tour (host_at w n)) (h_tour (host_at w' n)).
Proof.
  intros Hw Ht0 Ht Hcalm Hn Hj Hne Hsrc Hk Hleg.
  destruct (hop_asks t w n k j m0 Hw Hcalm Hn Hsrc Hk Hleg) as (s1 & H1 & (Htab1 & Ho1 & Hr1 & Hl1 & Hv1) & Hno1).
  set (w1 := after_tour w n _ s1) in H1. destruct Hcalm as [Hup Hair Hc]. destruct (Hc n Hn) as (_ & _ & Hopt).
  assert (Hw1 : sound (t + Z.of_nat 1) w1) by (eapply sound_on; [done|done|done|lia]).
  destruct (resolve _ w1 n j Hw1 Hn Hj Hne) as (c & w2 & wt & Hcle & H2 & Hup2 & Hair2 & Hsame & Hwait2 & Hwsrc & Hread).
  { by apply after_tour_up. } { done. } { unfold w1. by rewrite after_tour_here. }
  destruct (Hsame n) as (Htour2 & Htup2 & _). unfold w1 in Htour2, Htup2. rewrite after_tour_here in Htour2, Htup2.
  destruct (hop_answers t w2 n j wt (macs j) s1) as (s2 & H3 & (Hr2 & Hl2 & Ho2 & Hv2) & Hping);
    [done|done|done|done|done|done|done|done|done|lia|congruence|].
  set (w3 := after_tour w2 n None s2) in H3.
  assert (Hothers : ∀ m, m ≠ n → h_tour (host_at w3 m) = h_tour (host_at w m)).
  { intros m Hm. unfold w3. rewrite after_tour_there by done. destruct (Hsame m) as (-> & _). unfold w1. by rewrite after_tour_there. }
  exists (1 + c + 1)%nat, w3. split; [lia|]. split; [eapply happens_trans; [by eapply happens_trans|done]|].
  assert (Hw3 : host_at w3 n = mk_host s2 true None (h_arp (host_at w2 n)) (h_arp_up (host_at w2 n))) by apply after_tour_here.
  split; [|split; [exact Hothers|]].
  - split; [by apply after_tour_up|done|]. intros m Hm. destruct (decide (m = n)) as [->|Hmn].
    + rewrite Hw3. cbn. split; [done|]. split; [done|]. congruence.
    + rewrite Hothers by done. unfold w3. rewrite after_tour_there by done. destruct (Hsame m) as (_ & -> & ->); [|done].
      unfold w1. rewrite after_tour_there by done. by apply Hc.
  - rewrite Hw3. cbn. unfold hopped. rewrite Hr2, Hl2, Hv2, Hr1, Hl1. do 3 (split; [done|]).
    intros Hzero. apply Hping. congruence.
Qed.

(** * From the first packet to the last stop *)

Context (Hmoves : ∀ k a, route !! k = Some a → route !! S k ≠ Some a).

(** The tour has come as far as stop [k]. *)
Record travelled (k : nat) (w w' : hosts) : Prop := {
  tr_calm : calm w';
  tr_visited : ∀ n, visited (h_tour (host_at w n)) ≠ 0 → visited (h_tour (host_at w' n)) ≠ 0;
  tr_sent : ∀ n p, p ∈ routes_of (t_out (h_tour (host_at w n))) → p ∈ routes_of (t_out (h_tour (host_at w' n)));
  tr_stops : ∀ i n, (n < 10)%nat → (1 ≤ i ≤ k)%nat → route !! i = Some (ip_of n) →
    visited (h_tour (host_at w' n)) ≠ 0 ∧
    ((S i < length route)%nat → leg_ i ∈ routes_of (t_out (h_tour (host_at w' n))));
  tr_others : ∀ n, (n < 10)%nat → (∀ i, (1 ≤ i ≤ k)%nat → route !! i ≠ Some (ip_of n)) →
    h_tour (host_at w' n) = h_tour (host_at w n)
}.

Lemma stop_here k : (k < length route)%nat → ∃ n, (n < 10)%nat ∧ route !! k = Some (ip_of n).
Proof.
  intros [s Hs]%lookup_lt_is_Some_2. pose proof Hstops as Hall. unfold stops in Hall. rewrite Forall_forall in Hall.
  destruct (stop_ip_of s) as (n & Hn & ->); [apply Hall; by eapply list_elem_of_lookup_2|]. eauto.
Qed.

Lemma hop_travelled k w w1 w2 n :
  (n < 10)%nat → route !! S k = Some (ip_of n) → travelled k w w1 → calm w2 →
  (∀ m, m ≠ n → h_tour (host_at w2 m) = h_tour (host_at w1 m)) →
  hopped k (h_tour (host_at w1 n)) (h_tour (host_at w2 n)) → travelled (S k) w w2.
Proof.
  intros Hn Hk [Hcalm Hvis Hsent Hst Hoth] Hcalm2 Hm (Hr & _ & Hv & _).
  assert (Hmono : ∀ m p, p ∈ routes_of (t_out (h_tour (host_at w1 m))) → p ∈ routes_of (t_out (h_tour (host_at w2 m)))).
  { intros m p Hp. destruct (decide (m = n)) as [->|Hmn]; [|by rewrite Hm].
    rewrite Hr. apply elem_of_app. by left. }
  assert (Hvmono : ∀ m, visited (h_tour (host_at w1 m)) ≠ 0 → visited (h_tour (host_at w2 m)) ≠ 0).
  { intros m Hm1. destruct (decide (m = n)) as [->|Hmn]; [done|by rewrite Hm]. }
  split; [done|auto|auto|..].
  - intros i m Hm10 Hi Him. destruct (decide (i = S k)) as [->|Hne].
    + rewrite Hk in Him. injection Him as Him. apply ip_of_inj in Him as <-; [|done..].
      split; [done|]. intros Hlt. rewrite Hr, decide_True by lia. apply elem_of_app. right. left.
    + destruct (Hst i m Hm10 ltac:(lia) Him) as [H1 H2]. split; auto.
  - intros m Hm10 Hnot. rewrite Hm; [apply Hoth; [done|]|].
    + intros i Hi. apply Hnot. lia.
    + intros ->. by apply (Hnot (S k)); [lia|].
Qed.

Lemma next_hop t w w1 m0 k n :
  sound t w1 → 0 ≤ t → t + 15 ≤ INT_MAX → leg_ 0 ∈ routes_of (t_out (h_tour (host_at w m0))) → travelled k w w1 →
  (n < 10)%nat → route !! S k = Some (ip_of n) →
  ∃ c w2, (c ≤ 15)%nat ∧ happens w1 c w2 ∧ travelled (S k) w w2 ∧
    hopped k (h_tour (host_at w1 n)) (h_tour (host_at w2 n)).
Proof.
  intros Hw1 Ht0 Ht Hleg Htr Hn Hkn. pose proof (lookup_lt_Some _ _ _ Hkn) as Hk.
  destruct (stop_here k ltac:(lia)) as (j & Hj & Hkj).
  assert (Hl : ∃ m, leg_ k ∈ routes_of (t_out (h_tour (host_at w1 m)))).
  { destruct k as [|k]; [exists m0; by apply (tr_sent _ _ _ Htr)|].
    exists j. apply (tr_stops _ _ _ Htr (S k) j); [done|lia|done|lia]. }
  destruct Hl as [m Hm]. destruct (hop t w1 n k j m) as (c & w2 & Hc & Hrun & Hcalm & Hoth & Hhop);
    [done|done|done|by destruct Htr|done|done| |done|done|done|].
  { intros ->. by apply Hmoves in Hkj. }
  exists c, w2. split; [done|]. split; [done|]. split; [|done]. by apply (hop_travelled k w w1 w2 n).
Qed.

Lemma travel t w m0 k :
  sound t w → 0 ≤ t → t + 15 * Z.of_nat k ≤ INT_MAX → calm w → leg_ 0 ∈ routes_of (t_out (h_tour (host_at w m0))) →
  (k < length route)%nat → ∃ c w', (c ≤ 15 * k)%nat ∧ happens w c w' ∧ travelled k w w'.
Proof.
  intros Hw Ht0 Ht Hcalm Hleg. induction k as [|k IH]; intros Hk.
  - exists 0%nat, w. split; [lia|]. split; [apply reaches_start|]. split; [done|done|done| |done]. intros i n _ Hi. lia.
  - destruct (IH ltac:(lia) ltac:(lia)) as (c & w1 & Hc & Hrun & Htr).
    destruct (stop_here (S k) Hk) as (n & Hn & Hkn).
    assert (Hw1 : sound (t + Z.of_nat c) w1) by (eapply sound_on; [done|done|done|lia]).
    destruct (next_hop (t + Z.of_nat c) w w1 m0 k n) as (c' & w2 & Hc' & Hrun' & Htr' & _); [done|lia|lia|done..|].
    exists (c + c')%nat, w2. split; [lia|]. split; [by eapply happens_trans|done].
Qed.

(** The last stop, when the tour comes to it for the first time. *)
Lemma travel_last t w m0 n :
  let k := (length route - 2)%nat in
  sound t w → 0 ≤ t → t + 300 ≤ INT_MAX → calm w → leg_ 0 ∈ routes_of (t_out (h_tour (host_at w m0))) →
  (2 ≤ length route)%nat → (n < 10)%nat → route !! S k = Some (ip_of n) →
  (∀ i, (i ≤ k)%nat → route !! i ≠ Some (ip_of n)) → ping_no (h_tour (host_at w n)) = 0 →
  ∃ c w', (c ≤ 285)%nat ∧ happens w c w' ∧ travelled (S k) w w' ∧
    let s := h_tour (host_at w' n) in
    last_node s = 1 ∧ ping_no s = 1 ∧ ping_cnt s !! 0%nat = Some 1 ∧ t_alarm s ≠ 0.
Proof.
  intros k Hw Ht0 Ht Hcalm Hleg Hlen Hn Hkn Hfresh Hno.
  destruct (travel t w m0 k) as (c & w1 & Hc & Hrun & Htr); [done|done|lia|done|done|lia|].
  assert (Hw1 : sound (t + Z.of_nat c) w1) by (eapply sound_on; [done|done|done|lia]).
  destruct (next_hop (t + Z.of_nat c) w w1 m0 k n) as (c' & w2 & Hc' & Hrun' & Htr' & _ & Hl & _ & Hp);
    [done|lia|lia|done..|].
  exists (c + c')%nat, w2. split; [lia|]. split; [by eapply happens_trans|]. split; [done|].
  rewrite decide_False in Hl by lia. cbv zeta. rewrite Hl. split; [done|]. apply Hp.
  rewrite (tr_others _ _ _ Htr); [done|done|]. intros i Hi. apply Hfresh. lia.
Qed.
End route.

(** * The end of the tour *)

Lemma alarm_event w n s' :
  (n < 10)%nat → h_tour_up (host_at w n) = true →
  tour_step (node n) (tour_ok_at n) AlarmRings (h_tour (host_at w n)) = Done tt s' →
  happens w 1 (after_tour w n (h_wait (host_at w n)) s').
Proof.
  intros Hn Hup Hrun. apply (happens_one w (Rings n false)); [done|]. cbn [occur andb when].
  by rewrite (bind_Done _ _ _ _ _ Hrun).
Qed.

Definition gone (w : hosts) (n : nat) (s : tour) : hosts :=
  let h := host_at w n in set_host w n (mk_host s false (h_wait h) (h_arp h) (h_arp_up h)).

Lemma alarm_exit w n c s' :
  (n < 10)%nat → h_tour_up (host_at w n) = true →
  tour_step (node n) (tour_ok_at n) AlarmRings (h_tour (host_at w n)) = Exited c s' →
  happens w 1 (gone w n s').
Proof.
  intros Hn Hup Hrun. apply (happens_one w (Rings n false)); [done|]. cbn [occur andb when].
  by rewrite (bind_Exited _ _ _ _ _ Hrun).
Qed.

(** The last node counts to five and multicasts the end. *)
Lemma pings_out w n t c :
  (n < 10)%nat → calm w → let s := h_tour (host_at w n) in
  table_ok t s → t + 6 - c ≤ INT_MAX → last_node s = 1 → t_alarm s ≠ 0 → 1 ≤ ping_no s →
  ping_cnt s !! 0%nat = Some c → c ≤ 5 →
  ∃ w', happens w (S (Z.to_nat (5 - c))) w' ∧ calm w' ∧ (∀ m, m ≠ n → host_at w' m = host_at w m) ∧
    end_message (node n) ∈ messages_of (t_out (h_tour (host_at w' n))) ∧
    visited (h_tour (host_at w' n)) = visited s.
Proof.
  intros Hn. remember (Z.to_nat (5 - c)) as d eqn:Hd. revert w t c Hd.
  induction d as [|d IH]; intros w t c Hd Hcalm s Hs Ht Hl Ha Hno Hc Hc5;
    destruct (ca_tour _ Hcalm n Hn) as (Hup & Hwait & Ho);
    destruct (alarm_run n (tour_ok_at n) t s c (Htour n) Hs ltac:(lia) Ho Hl Ha Hno Hc) as (s1 & Hrun & Hv & Ho1 & Hcase);
    pose proof (alarm_event w n s1 Hn Hup Hrun) as H1; set (w1 := after_tour _ _ _ _) in H1;
    assert (Hw1 : host_at w1 n = mk_host s1 true (h_wait (host_at w n)) (h_arp (host_at w n)) (h_arp_up (host_at w n)))
      by apply after_tour_here;
    assert (Hoth : ∀ m, m ≠ n → host_at w1 m = host_at w m) by (intros m Hm; by apply after_tour_there);
    assert (Hcalm1 : calm w1) by
      (split; [by apply after_tour_up, Hcalm|apply Hcalm|intros m Hm; destruct (decide (m = n)) as [->|];
        [by rewrite Hw1|rewrite Hoth by done; by apply Hcalm]]).
  - assert (c = 5) as -> by lia. destruct Hcase as [_ Hm]. exists w1. split; [done|]. split; [done|]. split; [done|].
    rewrite Hw1. cbn. rewrite Hm. split; [apply elem_of_app; right; left|done].
  - destruct (Z.eqb_spec c 5); [lia|]. destruct Hcase as (H2 & H3 & H4 & H5 & H6 & H7).
    destruct (IH w1 (t + 1) (c + 1)) as (w2 & Hrun2 & Hcalm2 & Hoth2 & Hend & Hv2);
      [lia|done|rewrite ?Hw1; cbn; done || lia..|].
    exists w2. split; [by apply (happens_trans _ 1 w1)|]. split; [done|].
    split; [intros m Hm; by rewrite Hoth2, Hoth|]. split; [done|]. rewrite Hv2, Hw1. exact Hv.
Qed.

(** A member of the group answers a message and exits five seconds later. *)
Lemma leave w n msg m0 :
  (n < 10)%nat → h_tour_up (host_at w n) = true → h_wait (host_at w n) = None → option_ (h_tour (host_at w n)) = 0 →
  visited (h_tour (host_at w n)) ≠ 0 → msg ∈ messages_of (t_out (h_tour (host_at w m0))) →
  ∃ w', happens w 2 w' ∧ air w' = air w ∧ (∀ m, m ≠ n → host_at w' m = host_at w m) ∧ h_tour_up (host_at w' n) = false ∧
    t_out (h_tour (host_at w' n)) = t_out (h_tour (host_at w n)) ++ [Multicast (member_message (node n))].
Proof.
  intros Hn Hup Hwait Ho Hv Hmsg. set (s := h_tour (host_at w n)) in *.
  set (s1 := put_t_alarm 5 (put_t_out (t_out s ++ [Multicast (member_message (node n))]) (put_option 1 s))).
  assert (Hrun : tour_step (node n) (tour_ok_at n) (Message msg) s = Done tt s1).
  { cbn [tour_step]. unfold handle_multicast. rewrite bind_get, Ho. cbn [Z.eqb when].
    rewrite bind_modify. by run_step (emit_tour_run (tour_ok_at n) _ (put_option 1 s) (Htour n)). }
  set (w1 := after_tour w n None s1).
  assert (H1 : happens w 1 w1).
  { apply (happens_one w (MessageArrives n msg)).
    - split; [done|]. split; [done|]. split; [done|]. split; [done|]. by exists m0.
    - cbn [occur]. fold s. by rewrite Hrun. }
  assert (Hw1 : host_at w1 n = mk_host s1 true None (h_arp (host_at w n)) (h_arp_up (host_at w n)))
    by apply after_tour_here.
  exists (gone w1 n (put_t_alarm 0 s1)). split; [|split; [done|split]].
  - apply (happens_trans _ 1 w1 1); [done|]. by apply (alarm_exit w1 n 0); [done|rewrite Hw1..].
  - intros m Hm. cbn. unfold upd. by rewrite !decide_False.
  - cbn. unfold upd. by rewrite !decide_True.
Qed.

Lemma leave_all w msg m0 l :
  NoDup l → msg ∈ messages_of (t_out (h_tour (host_at w m0))) →
  (∀ n, n ∈ l → (n < 10)%nat ∧ h_tour_up (host_at w n) = true ∧ h_wait (host_at w n) = None ∧
     option_ (h_tour (host_at w n)) = 0 ∧ visited (h_tour (host_at w n)) ≠ 0) →
  ∃ w', happens w (2 * length l) w' ∧ air w' = air w ∧ (∀ n, n ∉ l → host_at w' n = host_at w n) ∧
    ∀ n, n ∈ l → h_tour_up (host_at w' n) = false ∧
      t_out (h_tour (host_at w' n)) = t_out (h_tour (host_at w n)) ++ [Multicast (member_message (node n))].
Proof.
  intros Hnd. revert w. induction Hnd as [|n l Hnot Hnd IH]; intros w Hmsg Hl.
  - exists w. split; [apply reaches_start|]. split; [done|]. split; [done|]. by intros n ?%not_elem_of_nil.
  - destruct (Hl n) as (Hn & Hup & Hwait & Ho & Hv); [left|].
    destruct (leave w n msg m0) as (w1 & Hrun1 & Hair1 & Hoth1 & Hup1 & Hout1); [done..|].
    destruct (IH w1) as (w2 & Hrun2 & Hair2 & Hoth2 & Hin2).
    + destruct (decide (m0 = n)) as [->|Hm]; [|by rewrite Hoth1].
      rewrite Hout1, messages_of_app. apply elem_of_app. by left.
    + intros m Hm. rewrite Hoth1 by (intros ->; done). apply Hl. by right.
    + exists w2. cbn [length]. replace (2 * S (length l))%nat with (2 + 2 * length l)%nat by lia.
      split; [by eapply happens_trans|]. split; [congruence|]. split.
      * intros m Hm. apply not_elem_of_cons in Hm as [Hmn Hml]. by rewrite Hoth2, Hoth1.
      * intros m Hm. destruct (decide (m = n)) as [->|Hmn]; [by rewrite Hoth2|].
        apply elem_of_cons in Hm as [?|Hm]; [done|]. rewrite <- (Hoth1 m Hmn). by apply Hin2.
Qed.

(** * The whole tour *)

(** The hosts before a tour of [args] from [n0]: all programs run, [n0] has started. *)
Record tour_begins (w : hosts) (n0 : nat) (port_bytes : list Z) (args : list string) : Prop := {
  tb_initial : hosts_initial tour_ok_at w;
  tb_up : ∀ n, (n < 10)%nat → h_tour_up (host_at w n) = true;
  tb_source : start_tour (node n0) port_bytes (tour_ok_at n0) args tour_init = Done tt (h_tour (host_at w n0));
  tb_rest : ∀ n, n ≠ n0 → h_tour (host_at w n) = tour_init
}.

Lemma begins_source w n0 port_bytes args :
  length port_bytes = 2%nat → (n0 < 10)%nat → args ≠ [] → (length args < 20)%nat → Forall names_vm args →
  tour_begins w n0 port_bytes args →
  h_tour (host_at w n0) = put_t_out [Join; Route (leg port_bytes (ip_of n0 :: map stop_of args) 0)] (put_visited 1 tour_init).
Proof.
  intros Hpb Hn0 Hne Hlen Hargs [_ _ Hrun _].
  rewrite (start_tour_eq port_bytes _ n0 (ip_of n0)) in Hrun by (done || by apply ip_of_lookup).
  apply bind_Done_inv in Hrun as ([] & s1 & ->%emit_tour_Done & ->%emit_tour_Done). done.
Qed.

Lemma begins_calm w n0 port_bytes args :
  length port_bytes = 2%nat → (n0 < 10)%nat → args ≠ [] → (length args < 20)%nat → Forall names_vm args →
  tour_begins w n0 port_bytes args → calm w.
Proof.
  intros Hpb Hn0 Hne Hlen Hargs Hb. pose proof (begins_source w n0 port_bytes args Hpb Hn0 Hne Hlen Hargs Hb) as Hsrc.
  destruct Hb as [[Hair Hw] Hup _ Hrest].
  assert (Hstart : ∀ n, (n < 10)%nat → starts tour_ok_at n (host_at w n) ∧ h_arp_up (host_at w n) = true).
  { intros n Hn. specialize (Hw n). by rewrite decide_True in Hw. }
  split; [|done|].
  - intros n Hn. by apply Hstart.
  - intros n Hn. destruct (Hstart n Hn) as [(_ & Hwait & _) _]. split; [by apply Hup|]. split; [done|].
    destruct (decide (n = n0)) as [->|Hne0]; [by rewrite Hsrc|by rewrite Hrest].
Qed.

Section whole.
Context (w0 : hosts) (n0 : nat) (port_bytes : list Z) (args : list string).
Abbreviation route := (ip_of n0 :: map stop_of args).
Context (Hport : length port_bytes = 2%nat) (Hn0 : (n0 < 10)%nat) (Hargs : args ≠ []) (Hlen : (length args < 20)%nat).
Context (Hnames : Forall names_vm args) (Hbegin : tour_begins w0 n0 port_bytes args).
Context (Hmoves : ∀ k a, route !! k = Some a → route !! S k ≠ Some a).
Context (Hfresh : ∀ k a, route !! k = Some a → (S k < length route)%nat → last route ≠ Some a).

Lemma whole_route : stops route ∧ (2 ≤ length route ≤ 20)%nat.
Proof.
  split; [eapply route_stops; [by apply ip_of_lookup|done]|]. cbn. rewrite length_map.
  destruct args; [done|]. cbn in *. lia.
Qed.

(** The tour is over, and nobody has left. *)
Record over (w : hosts) : Prop := {
  ov_calm : calm w;
  ov_end : ∀ k n, (n < 10)%nat → S k = length route → route !! k = Some (ip_of n) →
    end_message (node n) ∈ messages_of (t_out (h_tour (host_at w n)));
  ov_stops : ∀ k n, (n < 10)%nat → route !! k = Some (ip_of n) → visited (h_tour (host_at w n)) ≠ 0 ∧
    ((S k < length route)%nat → leg port_bytes route k ∈ routes_of (t_out (h_tour (host_at w n))));
  ov_others : ∀ n, (n < 10)%nat → ip_of n ∉ route → h_tour (host_at w n) = tour_init
}.

Lemma whole_over : ∃ c w, (c ≤ 290)%nat ∧ happens w0 c w ∧ over w.
Proof.
  destruct whole_route as [Hstops [Hlo Hhi]]. set (k := (length route - 2)%nat).
  pose proof (hosts_initial_ok macs arp_ok_at tour_ok_at w0 (tb_initial _ _ _ _ Hbegin)) as H0.
  pose proof (begins_calm w0 n0 port_bytes args Hport Hn0 Hargs Hlen Hnames Hbegin) as Hcalm.
  pose proof (begins_source w0 n0 port_bytes args Hport Hn0 Hargs Hlen Hnames Hbegin) as Hsrc.
  destruct (stop_here route Hstops (S k)) as (n & Hn & Hk); [lia|].
  assert (Hlast : last route = Some (ip_of n)).
  { rewrite last_lookup. replace (pred (length route)) with (S k) by lia. done. }
  assert (Hnew : ∀ i, (i ≤ k)%nat → route !! i ≠ Some (ip_of n)).
  { intros i Hi H. apply (Hfresh i _ H); [lia|done]. }
  assert (Hnn : n ≠ n0) by (intros ->; by apply (Hnew 0%nat); [lia|]).
  destruct (travel_last port_bytes Hport route Hstops Hhi Hmoves 0 w0 n0 n H0)
    as (c & w1 & Hc & Hrun1 & Htr & Hl & Hno & Hcnt & Ha); try done; try (unfold INT_MAX; lia).
  { rewrite Hsrc. left. } { by rewrite (tb_rest _ _ _ _ Hbegin). }
  pose proof (sound_on _ _ _ _ H0 Hrun1 ltac:(lia) ltac:(unfold INT_MAX; lia)) as H1.
  destruct (ca_tour _ (tr_calm _ _ _ _ _ Htr) n Hn) as (Hup1 & _).
  pose proof (ho_table _ _ _ _ _ _ (hs_host _ _ _ _ H1 n) Hup1) as Htab.
  destruct (pings_out w1 n _ 1 Hn (tr_calm _ _ _ _ _ Htr) Htab) as (w2 & Hrun2 & Hcalm2 & Hoth2 & Hend & Hv2);
    try done; try (unfold INT_MAX; lia).
  exists (c + S (Z.to_nat (5 - 1)))%nat, w2. split; [lia|]. split; [by eapply happens_trans|].
  assert (Hstop1 : ∀ i m, (m < 10)%nat → route !! i = Some (ip_of m) → visited (h_tour (host_at w1 m)) ≠ 0 ∧
    ((S i < length route)%nat → leg port_bytes route i ∈ routes_of (t_out (h_tour (host_at w1 m))))).
  { intros i m Hm Hi. pose proof (lookup_lt_Some _ _ _ Hi). destruct (decide (i = 0)%nat) as [->|Hi0].
    - injection Hi as Hi. apply ip_of_inj in Hi as <-; [|done..].
      split; [apply (tr_visited _ _ _ _ _ Htr); by rewrite Hsrc|].
      intros _. apply (tr_sent _ _ _ _ _ Htr). rewrite Hsrc. left.
    - apply (tr_stops _ _ _ _ _ Htr i m); [done|lia|done]. }
  split; [done|..].
  - intros i m Hm Hi Him. assert (i = S k) as -> by lia. rewrite Hk in Him. injection Him as Him.
    by apply ip_of_inj in Him as <-.
  - intros i m Hm Him. destruct (Hstop1 i m Hm Him) as [Hv Hs]. destruct (decide (m = n)) as [->|Hmn].
    + split; [by rewrite Hv2|]. intros Hlt. by apply (Hnew i) in Him; [|lia].
    + by rewrite Hoth2.
  - intros m Hm Hnot. assert (Hni : ∀ i, route !! i ≠ Some (ip_of m)).
    { intros i H. apply Hnot. by eapply list_elem_of_lookup_2. }
    rewrite Hoth2 by (intros ->; by apply (Hni (S k))). rewrite (tr_others _ _ _ _ _ Htr) by auto.
    apply (tb_rest _ _ _ _ Hbegin). intros ->. by apply (Hni 0%nat).
Qed.
End whole.

(** C8: a tour whose last stop is a host it has not visited before, and that never stays
    where it is, can always be completed, in at most 310 events: every stop sends the
    packet on to the next, all hardware addresses are found, the last stop pings until it
    has counted five and multicasts the end of the tour, every host of the tour answers
    that it is a member and exits, and the programs of all other hosts are where they
    began. *)
Theorem tour_completes w0 n0 port_bytes args :
  let route := ip_of n0 :: map stop_of args in
  length port_bytes = 2%nat → (n0 < 10)%nat → args ≠ [] → (length args < 20)%nat → Forall names_vm args →
  (∀ k a, route !! k = Some a → route !! S k ≠ Some a) →
  (∀ k a, route !! k = Some a → (S k < length route)%nat → last route ≠ Some a) →
  tour_begins w0 n0 port_bytes args →
  ∃ c w, (c ≤ 310)%nat ∧ happens w0 c w ∧ air w = [] ∧
    (∀ k n, (n < 10)%nat → route !! k = Some (ip_of n) →
       h_tour_up (host_at w n) = false ∧
       member_message (node n) ∈ messages_of (t_out (h_tour (host_at w n))) ∧
       if decide (S k < length route)%nat
       then leg port_bytes route k ∈ routes_of (t_out (h_tour (host_at w n)))
       else end_message (node n) ∈ messages_of (t_out (h_tour (host_at w n)))) ∧
    (∀ n, (n < 10)%nat → ip_of n ∉ route → h_tour_up (host_at w n) = true ∧ h_tour (host_at w n) = tour_init).
Proof.
  intros route Hport Hn0 Hargs Hlen Hnames Hmoves Hfresh Hbegin.
  destruct (whole_over w0 n0 port_bytes args Hport Hn0 Hargs Hlen Hnames Hbegin Hmoves Hfresh)
    as (c & w1 & Hc & Hrun1 & [Hcalm Hend Hst Hoth]). fold route in Hend, Hst, Hoth.
  assert (Hstops : stops route) by (eapply route_stops; [by apply ip_of_lookup|done]).
  destruct (stop_here route Hstops (length route - 1)) as (l & Hl & Hlast); [cbn; lia|].
  set (members := filter (λ n, ip_of n ∈ route) (seq 0 10)).
  assert (Hmem : ∀ n, n ∈ members ↔ ip_of n ∈ route ∧ (n < 10)%nat).
  { intros n. unfold members. rewrite list_elem_of_filter, elem_of_seq. split; intros []; (split; [done|lia]). }
  destruct (leave_all w1 (end_message (node l)) l members) as (w2 & Hrun2 & Hair2 & Hout & Hin).
  { apply NoDup_filter, NoDup_seq. } { apply (Hend (length route - 1)%nat); [done|cbn; lia|done]. }
  { intros n [Hr Hn]%Hmem. destruct (ca_tour _ Hcalm n Hn) as (H1 & H2 & H3).
    apply list_elem_of_lookup in Hr as [i Hi]. destruct (Hst i n Hn Hi) as [Hv _]. by split_and!. }
  assert (Hten : (length members ≤ 10)%nat).
  { unfold members. etrans; [apply length_filter|]. by rewrite length_seq. }
  exists (c + 2 * length members)%nat, w2. split; [lia|]. split; [by eapply happens_trans|].
  split; [rewrite Hair2; apply Hcalm|]. split.
  - intros k n Hn Hk. assert (Hr : n ∈ members) by (apply Hmem; split; [by eapply list_elem_of_lookup_2|done]).
    destruct (Hin n Hr) as [Hup Ht]. rewrite Ht, messages_of_app, routes_of_app. pose proof (lookup_lt_Some _ _ _ Hk).
    split; [done|]. split; [apply elem_of_app; right; left|].
    destruct (decide _); apply elem_of_app; left; [by apply Hst|apply (Hend k); [done|lia|done]].
  - intros n Hn Hr. assert (n ∉ members) as Hnot by by intros [? _]%Hmem.
    rewrite Hout by done. split; [by apply Hcalm|by apply Hoth].
Qed.
End completes.

(** * A tour from VM1 to VM2 and VM3 *)

Definition short_args : list string := ["vm2"; "vm3"]%string.
Definition short_source : tour :=
  match start_tour 1 port2 always short_args tour_init with Done _ s => s | _ => tour_init end.
Definition short_start : hosts :=
  mk_hosts (λ n, if decide (n < 10)%nat
                 then if decide (n = 0)%nat then mk_host short_source true None (arp_init [0; 1; 2]) true else idle n
                 else mk_host tour_init false None (arp_init []) false) [].

Lemma short_names : Forall names_vm short_args.
Proof. repeat apply Forall_cons_2; [..|apply Forall_nil_2]; vm_compute; split; discriminate. Qed.

Lemma short_begins : tour_begins (λ _, always) short_start 0 port2 short_args.
Proof.
  split.
  - split; [done|]. intros n. cbn. destruct (decide (n < 10)%nat) as [Hn|Hn]; [|done].
    destruct (decide (n = 0)%nat) as [->|Hne]; (split; [|done]); (split; [by exists [0; 1; 2]|]); (split; [done|]).
    + exists port2, short_args. split; [done|]. split; [vm_compute; lia|]. split; [exact short_names|].
      vm_compute. reflexivity.
    + exists port2, []. split; [done|]. split; [cbn; lia|]. by split.
  - intros n Hn. cbn. rewrite decide_True by done. by destruct (decide (n = 0)%nat).
  - vm_compute. reflexivity.
  - intros n Hn. cbn. destruct (decide (n < 10)%nat); [|done]. by rewrite decide_False.
Qed.

Lemma tour_completes_witness :
  ∃ c w, reaches mac_of (λ _, all_ok) (λ _, always) short_start c w ∧
    h_tour_up (host_at w 2) = false ∧
    end_message 3 ∈ messages_of (t_out (h_tour (host_at w 2))) ∧
    h_tour (host_at w 3) = tour_init.
Proof.
  destruct (tour_completes mac_of mac_of_ok mac_of_distinct mac_of_unicast (λ _, all_ok) (λ _ _ _, eq_refl)
    (λ _, always) (λ _ _ _, eq_refl) short_start 0 port2 short_args eq_refl ltac:(lia) ltac:(discriminate)
    ltac:(vm_compute; lia) short_names) as (c & w & _ & Hrun & _ & Hon & Hoff).
  - intros [|[|[|k]]] a H; vm_compute in H |- *; congruence.
  - intros [|[|k]] a H Hlt; vm_compute in H |- *; [congruence..|]. vm_compute in Hlt. lia.
  - exact short_begins.
  - exists c, w. destruct (Hon 2%nat 2%nat ltac:(lia) eq_refl) as (H1 & _ & H2). split; [exact Hrun|].
    split; [exact H1|]. split; [exact H2|]. apply (Hoff 3%nat); [lia|]. intros H.
    revert H. apply (bool_decide_unpack _). vm_compute. exact I.
Defined.
