(* ===== verification/TourStart.v ===== *)
(** The start of the two programs of Assignment 4 (arp.c, tour.c), up to their loops,
    which tour.c makes with functions of [UnpSock]. *)

From S2P Require Export HwStart.
From S2P Require Export Tour.
From S2P Require Import UnpSock Interfaces.

(** Constants of the platform (Linux). *)
Definition IPPROTO_ICMP : Z := 1.
Definition IP_HDRINCL : Z := 3.
Definition ETH_P_IP : Z := 2048.

Definition ARP_PATH : string := "114042".
Definition multicast_port : string := "50000".

Record arp_start := mk_arp_start {
  ar_ip : string;
  ar_mac : list Z;
  ar_packetfd : Z;
  ar_unixfd : Z
}.

Record tour_start := mk_tour_start {
  ts_node : Z;
  ts_routefd : Z;
  ts_replyfd : Z;
  ts_requestfd : Z;
  ts_sendfd : Z;
  ts_recvfd : Z;
  ts_sasend : list Z
}.

Section start.
Context (ask : trace → call → Z).
Context (hw : M unit (list hwa_info)).
(** [getaddrinfo]; [None] is an error. *)
Context (getaddrinfo : string → string → hints → option (list addrinfo)).
(** The family [getsockname] reports, and what the parts of a structure hold that are not
    assigned. *)
Context (name_family : trace → Z) (if_nametoindex : string → Z) (padding group_tail : list Z).

(** * arp.c *)

(** A [node] that is not found leaves [ip_addr] unassigned, and the array is printed. *)
Definition arp_main : M trace arp_start :=
  h ← second_interface hw;
  r ← vm_find (hwa_ip h) 0 Arp.vm_addr;
  ip_addr ← of_opt NoTerminator (snd <$> r);
  ip_addr ← strcpy 15 ip_addr;
  packetfd ← need ask (Socket PF_PACKET SOCK_RAW (htons ARP_PROTO));
  unixfd ← need ask (Socket AF_LOCAL SOCK_STREAM 0);
  sun ← strcpy SUN_PATH ARP_PATH;
  try ask (Unlink sun);;
  need ask (Bind unixfd (Local sun));;
  need ask (Listen unixfd LISTENQ);;
  mret (mk_arp_start ip_addr (take 6 (if_haddr h)) packetfd unixfd).

(** * tour.c *)

Definition tour_main : M trace tour_start :=
  h ← second_interface hw;
  node ← vm_node h Arp.vm_addr 0;
  routefd ← need ask (Socket InetAddr.AF_INET SOCK_RAW TOUR_PROTO);
  need ask (Setsockopt routefd IPPROTO_IP IP_HDRINCL ON);;
  replyfd ← need ask (Socket InetAddr.AF_INET SOCK_RAW (htons IPPROTO_ICMP));
  requestfd ← need ask (Socket PF_PACKET SOCK_RAW (htons ETH_P_IP));
  '(sendfd, sasend) ← udp_client ask getaddrinfo multicast_ip multicast_port;
  family ← SockAddr.sa_family sasend;
  recvfd ← need ask (Socket family SOCK_DGRAM 0);
  need ask (Setsockopt recvfd SOL_SOCKET SO_REUSEADDR ON);;
  need ask (Bind recvfd (Raw sasend));;
  mret (mk_tour_start node routefd replyfd requestfd sendfd recvfd sasend).

(** [mcast_join(recvfd, sasend, ...) < 0 || mcast_set_ttl(sendfd, 1) < 0]: what the
    event [Join] of the source of a tour stands for. *)
Definition join_group (st : tour_start) : M trace unit :=
  r ← mcast_join ask if_nametoindex padding group_tail (ts_recvfd st) (ts_sasend st) None 0;
  if r <? 0 then exit 1
  else
    r ← mcast_set_ttl ask name_family (ts_sendfd st) 1;
    if r <? 0 then exit 1 else mret tt.
End start.

(** * Calls that fail *)

Lemma stops_join_call ask fd level opt v (k : Z → M trace unit) :
  (∀ r, 0 ≤ r → stops (k r)) → stops (r ← try ask (Setsockopt fd level opt v); if r <? 0 then exit 1 else k r).
Proof.
  intros Hk tr. rewrite (bind_Done _ _ _ _ _ (try_run ask _ tr)). set (c := Setsockopt _ _ _ _).
  destruct (Z.ltb_spec (ask tr c) 0) as [Hneg|Hpos].
  - split; [done|]. exists [], [(c, ask tr c)]. simpl. split_and!; [done|constructor|right; by eexists].
  - pose proof (Hk _ Hpos (tr ++ [(c, ask tr c)])) as H. destruct (k _ _) as [a tr'|x tr'|u]; [| |done].
    + destruct H as (new & -> & Hn). exists ((c, ask tr c) :: new). rewrite <- app_assoc. split; [done|].
      constructor; [by left|done].
    + destruct H as (Hx & new & last & -> & Hn & Hl). split; [done|]. exists ((c, ask tr c) :: new), last.
      rewrite <- app_assoc. split_and!; [done|constructor; [by left|done]|done].
Qed.

Lemma arp_addr_nodup : NoDup Arp.vm_addr.
Proof. apply (bool_decide_unpack _). vm_compute. exact I. Qed.

Section serving.
Context (ask : trace → call → Z) (Hask : ∀ tr c, 0 ≤ ask tr c).
Context (h0 h : hwa_info) (rest : list hwa_info).
Abbreviation hw := (mret (M:=M unit) (h0 :: h :: rest)).

Lemma second_run tr : second_interface hw tr = Done h tr.
Proof. done. Qed.

(** The start of the ARP service.  When the kernel serves every call, it starts with
    the address and the hardware address of the second interface, and a stream socket
    that listens under its path; an address that is none of the ten leaves the buffer
    it prints unassigned. *)
Theorem arp_starts (text : string) (tr : trace) (Ht : has_text h text) :
  if decide (text ∈ Arp.vm_addr) then
    ∃ st new, arp_main ask hw tr = Done st (tr ++ new) ∧ ar_ip st = text ∧ ar_mac st = take 6 (if_haddr h) ∧
      Forall good new ∧
      (∃ r, (Bind (ar_unixfd st) (Local ARP_PATH), r) ∈ new) ∧ (∃ r, (Listen (ar_unixfd st) LISTENQ, r) ∈ new)
  else arp_main ask hw tr = Undefined NoTerminator.
Proof.
  unfold arp_main. destruct (decide (text ∈ Arp.vm_addr)) as [Hin|Hno].
  - apply list_elem_of_lookup in Hin as [k Hk].
    rewrite (bind_Done _ _ _ _ _ (second_run tr)).
    rewrite (bind_Done _ _ _ _ _ (vm_find_found h k text Arp.vm_addr tr Ht arp_addr_nodup Hk)).
    assert (Hlen : (String.length text < 15)%nat) by by eapply vm_short.
    change (of_opt NoTerminator (snd <$> Some (Z.of_nat k + 1, text))) with (mret (M:=M trace) text). rewrite bind_ret.
    run_step (strcpy_run 15 text tr Hlen). do 2 serve Hask.
    match goal with |- context [(strcpy _ _ ≫= _) ?tr] => run_step (strcpy_run SUN_PATH ARP_PATH tr ltac:(vm_compute; lia)) end.
    do 3 serve Hask. rewrite <- !app_assoc.
    eexists _, _. split; [reflexivity|]. cbn [ar_ip ar_mac ar_unixfd].
    split_and!; [done|done|goods|in_trace..].
  - rewrite (bind_Done _ _ _ _ _ (second_run tr)), (bind_Done _ _ _ _ _ (vm_find_run h text 0 Arp.vm_addr tr Ht)).
    assert (Hi : first_index (streq text) Arp.vm_addr = length Arp.vm_addr).
    { apply first_index_not. intros x Hx. apply streq_neq. by intros ->. }
    by rewrite (lookup_ge_None_2 Arp.vm_addr) by by rewrite Hi.
Qed.

(** The addresses of a multicast group: [getaddrinfo] of a numeric address has one. *)
Context (gai : string → string → hints → option (list addrinfo)) (group more : list Z).
Context (Hgai : gai multicast_ip multicast_port (mk_hints 0 AF_UNSPEC SOCK_DGRAM) =
                Some [mk_ai InetAddr.AF_INET SOCK_DGRAM 17 group]).
Context (Hgroup : group = sockaddr_in 50000 [224; 1; 1; 1] more).

Lemma group_family (tr : trace) : SockAddr.sa_family group tr = Done InetAddr.AF_INET tr.
Proof. by rewrite Hgroup. Qed.

Lemma udp_client_run tr : ∃ fd new,
  udp_client ask gai multicast_ip multicast_port tr = Done (fd, group) (tr ++ new) ∧ Forall good new.
Proof.
  unfold udp_client, sock_of. rewrite Hgai. cbn [try_addrs]. unfold socket_attempt, new_socket.
  rewrite <- !bind_assoc_M. serve Hask. destruct (Z.leb_spec 0 r); [|lia].
  eexists r, _. split; [reflexivity|goods].
Qed.

(** The group socket is of IPv4 and the kernel says so. *)
Context (name_family : trace → Z) (Hfamily : ∀ tr, name_family tr = InetAddr.AF_INET).
Context (if_nametoindex : string → Z) (padding group_tail : list Z).
Abbreviation join := (join_group ask name_family if_nametoindex padding group_tail).

Lemma join_run st tr :
  ts_sasend st = group → (length more ≤ 100)%nat → ∃ joined, join st tr = Done tt (tr ++ joined).
Proof.
  intros Hs Hm. unfold join_group, mcast_join. rewrite Hs. cbn [req_interface Z.ltb Z.compare].
  assert (Hlen : fits_storage group = true).
  { apply Nat.leb_le. unfold sizeof_storage. rewrite Hgroup. unfold sockaddr_in. rewrite !length_app, length_le_split.
    change (length [2; 0]) with 2%nat. change (length [224; 1; 1; 1]) with 4%nat. lia. }
  unfold set_group. rewrite Hlen. rewrite <- bind_assoc_M, (bind_Done _ _ _ _ _ (group_family tr)). serve Hask.
  destruct (Z.ltb_spec r 0); [lia|].
  unfold mcast_set_ttl, by_family, sockfd_to_family. rewrite <- !bind_assoc_M. serve Hask.
  destruct (Z.ltb_spec r0 0); [lia|]. rewrite <- !bind_assoc_M, bind_get, bind_ret, Hfamily.
  change (InetAddr.AF_INET =? InetAddr.AF_INET) with true. cbv iota. serve Hask.
  destruct (Z.ltb_spec r1 0); [lia|]. rewrite <- !app_assoc. by eexists.
Qed.

(** The start of the tour program.  When the kernel serves every call, it knows its
    node number, its socket for the end of a tour is bound to the group address, and
    it can join the group; its socket for ICMP asks for protocol 256 and not for ICMP. *)
Theorem tour_starts (k : nat) (text : string) (tr : trace) (Ht : has_text h text) (Hk : Arp.vm_addr !! k = Some text)
    (Hmore : (length more ≤ 100)%nat) :
  ∃ st new, tour_main ask hw gai tr = Done st (tr ++ new) ∧ ts_node st = Z.of_nat k + 1 ∧ Forall good new ∧
    ts_sasend st = group ∧ (∃ r, (Bind (ts_recvfd st) (Raw group), r) ∈ new) ∧
    (∃ r, (Socket InetAddr.AF_INET SOCK_RAW 256, r) ∈ new) ∧ IPPROTO_ICMP ≠ 256 ∧
    ∃ joined, join st (tr ++ new) = Done tt (tr ++ new ++ joined).
Proof.
  unfold tour_main. rewrite (bind_Done _ _ _ _ _ (second_run tr)).
  rewrite (bind_Done _ _ _ _ _ (vm_node_found h k text Arp.vm_addr 0 tr Ht arp_addr_nodup Hk)).
  do 4 serve Hask. match goal with |- context [(udp_client _ _ _ _ ≫= _) ?tr] =>
    destruct (udp_client_run tr) as (fd & new & Hu & Hgood) end.
  rewrite (bind_Done _ _ _ _ _ Hu). cbv beta iota. rewrite (bind_Done _ _ _ _ _ (group_family _)).
  do 3 serve Hask. rewrite <- !app_assoc.
  eexists _, _. split; [reflexivity|]. cbn [ts_node ts_sasend ts_recvfd].
  split_and!; [done|goods; done|done|in_trace|in_trace|done|].
  match goal with |- context [join_group _ _ _ _ _ ?st ?tr] => destruct (join_run st tr eq_refl Hmore) as [joined ->] end.
  exists joined. by rewrite <- !app_assoc.
Qed.
End serving.

(** * Failures *)

Lemma stops_first_socket ask gai host serv ai :
  gai host serv (mk_hints 0 AF_UNSPEC SOCK_DGRAM) = Some [ai] → stops (udp_client ask gai host serv).
Proof.
  intros Hg tr. unfold udp_client, sock_of. rewrite Hg. cbn [try_addrs]. unfold socket_attempt, new_socket.
  rewrite <- !bind_assoc_M, (bind_Done _ _ _ _ _ (try_run ask _ tr)). set (c := Socket _ _ _). cbv beta.
  destruct (Z.leb_spec 0 (ask tr c)).
  - exists [(c, ask tr c)]. split; [done|]. constructor; [by left|constructor].
  - split; [done|]. exists [], [(c, ask tr c)]. simpl.
    split_and!; [done|constructor|right; by eexists].
Qed.

Lemma stops_family (sa : list Z) : stops (SockAddr.sa_family sa).
Proof. unfold SockAddr.sa_family, field. stops_tac. Qed.
#[export] Hint Resolve stops_family : stops.

(** No program of Assignment 4 goes on after a failed call.  Whatever the kernel
    answers, the start of the ARP service and, when the group has one address, of the
    tour program either returns and all calls it needs succeeded, or exits with code 1
    and at most its last call failed, or is undefined; both are undefined on a node
    with a single interface. *)
Theorem tour_starts_stop (ask : trace → call → Z) (gai : string → string → hints → option (list addrinfo))
    (hwa : list hwa_info) (ai : addrinfo)
    (Hgai : gai multicast_ip multicast_port (mk_hints 0 AF_UNSPEC SOCK_DGRAM) = Some [ai]) :
  stops (arp_main ask (mret hwa)) ∧ stops (tour_main ask (mret hwa) gai) ∧
  (length hwa = 1%nat → ∀ tr,
     arp_main ask (mret hwa) tr = Undefined NullDeref ∧ tour_main ask (mret hwa) gai tr = Undefined NullDeref).
Proof.
  pose proof (stops_first_socket ask gai _ _ ai Hgai) as Hu. split_and!.
  - unfold arp_main. stops_tac.
  - unfold tour_main. stops_tac.
  - intros Hone tr. unfold arp_main, tour_main, mbind, M_bind. by rewrite lone_interface.
Qed.

(** * Witnesses *)

Section witnesses.
Definition lo : hwa_info := mk_hwa "lo" (replicate 6 0) 1 0 (quad_sa 127 0 0 1).
Definition eth0 : hwa_info := mk_hwa "eth0" [0; 12; 41; 0; 0; 3] 2 0 (quad_sa 130 245 156 23).
Definition group : list Z := sockaddr_in 50000 [224; 1; 1; 1] (replicate 8 0).
Definition resolver (host serv : string) (h : hints) : option (list addrinfo) :=
  if streq host multicast_ip then Some [mk_ai InetAddr.AF_INET SOCK_DGRAM 17 group] else None.

Lemma eth0_text : has_text eth0 "130.245.156.23".
Proof. apply (quad_has_text _ 0 130 245 156 23 (replicate 8 0)); [reflexivity|lia|unfold is_byte; lia..]. Qed.

Lemma arp_starts_witness :
  ∃ st tr, arp_main serving (mret [lo; eth0]) [] = Done st tr ∧ ar_ip st = "130.245.156.23"%string.
Proof.
  destruct (arp_starts serving serving_ok lo eth0 [] "130.245.156.23" [] eth0_text) as (st & new & Hrun & Hip & _).
  exists st, ([] ++ new). split; [exact Hrun|exact Hip].
Defined.

Lemma tour_starts_witness :
  ∃ st tr, tour_main serving (mret [lo; eth0]) resolver [] = Done st tr ∧ ts_node st = 3.
Proof.
  destruct (tour_starts serving serving_ok lo eth0 [] resolver group (replicate 8 0) eq_refl eq_refl
              (λ _, InetAddr.AF_INET) (λ _, eq_refl) (λ _, 0) (replicate 4 0) (replicate 128 0)
              2 "130.245.156.23" [] eth0_text eq_refl) as (st & new & Hrun & Hn & _).
  - simpl. lia.
  - exists st, ([] ++ new). split; [exact Hrun|exact Hn].
Defined.

Lemma tour_starts_stop_witness :
  stops (tour_main serving (mret [lo; eth0]) resolver).
Proof.
  exact (proj1 (proj2 (tour_starts_stop serving resolver [lo; eth0] (mk_ai InetAddr.AF_INET SOCK_DGRAM 17 group) eq_refl))).
Defined.
End witnesses.
