(* ===== verification/Echo.v ===== *)
(** The echo and time services of Assignment 1: the server (tcpechotimesrv.c), its two
    clients (echo_cli.c, time_cli.c), the menu that starts them and shows their status
    (tcpechotimecli.c), and an echo session over a connection.

    A connection is a stream of bytes in each direction; a read takes any non-empty
    part from its beginning. *)

From S2P Require Export CStr.

Definition MAXLINE : nat := 4096.
Definition SIZE : nat := 1024.

(** The part of the bytes [s] in front of the first NUL. *)
Fixpoint before_nul (s : string) : string :=
  match s with
  | EmptyString => EmptyString
  | String c r => if Ascii.eqb c Ascii.zero then EmptyString else String c (before_nul r)
  end.

(** * The server *)

Inductive service := EchoService | TimeService.

(** The two listening sockets; threads started so far, the latest first. *)
Record server := mk_server { threads : list (service * Z) }.

(** What [accept] reports; its wrapper ends the process on any error but an aborted
    connection. *)
Inductive accepted := Conn (fd : Z) | WouldBlock.

Definition accept_one (k : service) (r : accepted) : M server unit :=
  match r with
  | Conn fd => modify (λ s, mk_server ((k, fd) :: threads s))
  | WouldBlock => exit 1
  end.

(** One turn of the loop: which sockets are ready, the echo socket first. *)
Definition server_turn (echo time : option accepted) : M server unit :=
  match echo with Some r => accept_one EchoService r | None => mret tt end;;
  match time with Some r => accept_one TimeService r | None => mret tt end.

(** What [read] reports to a thread. *)
Inductive read_result := Bytes (s : string) | Eof | Interrupted | ReadError.

Section threads.
(** Whether [write] takes the bytes; the wrapper ends the process when it does not. *)
Context (write_ok : string → string → bool).

(** The state of a thread: what it has written to its connection. *)
Definition write_conn (x : string) : M string unit :=
  s ← get; if write_ok s x then modify (λ s, s +:+ x) else exit 1.

(** [true]: the function returns. *)
Definition echo_read (r : read_result) : M string bool :=
  match r with
  | Bytes x => write_conn x;; mret false
  | Interrupted => mret false
  | ReadError | Eof => mret true
  end.

Fixpoint str_echo (reads : list read_result) : M string bool :=
  match reads with
  | [] => mret false
  | r :: reads' => done ← echo_read r; if (done : bool) then mret true else str_echo reads'
  end.

(** The first 24 characters of [ctime] and the end of the line. *)
Definition CRLF : string := String (ascii_of_nat 13) (String (ascii_of_nat 10) EmptyString).
Definition time_text (ctime : string) : string := String.substring 0 24 ctime +:+ CRLF.

(** [Readable_timeo(sockfd, 5)]: no input for five seconds, then the text of the clock
    at that moment, or input (or the end of it). *)
Inductive poll := Quiet (ctime : string) | Readable.

Fixpoint time_serv (polls : list poll) : M string bool :=
  match polls with
  | [] => mret false
  | Quiet t :: polls' => write_conn (time_text t);; time_serv polls'
  | Readable :: _ => mret true
  end.
End threads.

(** * The clients *)

Section clients.
(** What lies in memory behind a string literal: the status messages are written with
    a length that exceeds the literal. *)
Context (behind : string → string).

Definition NUL : string := String Ascii.zero EmptyString.

(** [Write(pipe_port, lit, n)] *)
Definition status_bytes (lit : string) (n : nat) : string :=
  String.substring 0 n (lit +:+ NUL +:+ behind lit).

Record echo_client := mk_echo_client {
  echo_flag : Z;
  c_stdout : string;
  c_sent : string; (* written to the server *)
  c_shut : bool; (* the sending direction is shut down *)
  c_pipe : string (* written to the pipe *)
}.

(** What the client writes to; which bytes the kernel takes, after those it took before.
    The wrappers end the process when it does not (a signal may do it first). *)
Inductive channel := ToServer | ToStdout | ToPipe | ShutsDown.
Context (takes : channel → string → string → bool).

Definition put_stdout (x : string) : M echo_client unit :=
  s ← get;
  if takes ToStdout (c_stdout s) x
  then modify (λ s, mk_echo_client (echo_flag s) (c_stdout s +:+ x) (c_sent s) (c_shut s) (c_pipe s))
  else exit 1.

Definition put_server (x : string) : M echo_client unit :=
  s ← get;
  if takes ToServer (c_sent s) x
  then modify (λ s, mk_echo_client (echo_flag s) (c_stdout s) (c_sent s +:+ x) (c_shut s) (c_pipe s))
  else exit 1.

Definition status (lit : string) (n : nat) : M echo_client unit :=
  s ← get;
  if takes ToPipe (c_pipe s) (status_bytes lit n)
  then modify (λ s, mk_echo_client (echo_flag s) (c_stdout s) (c_sent s) (c_shut s)
                      (c_pipe s +:+ status_bytes lit n))
  else exit 1.

Definition shut_down : M echo_client unit :=
  s ← get;
  if takes ShutsDown (c_sent s) EmptyString
  then modify (λ s, mk_echo_client (echo_flag s) (c_stdout s) (c_sent s) true (c_pipe s))
  else exit 1.

(** What [Read] reports: [None] is an error, and the wrapper ends the process; empty bytes
    are the end. *)
Notation bytes_read := (option string) (only parsing).

(** The socket is ready. *)
Definition from_server (r : bytes_read) : M echo_client bool :=
  match r with
  | None => exit 1
  | Some x =>
      if streq x EmptyString then
        s ← get;
        (if echo_flag s =? 1 then status "Server terminated" 20 else status "Server terminated prematurely" 30);;
        mret true
      else
        put_stdout x;;
        status "User input is echoed back" 30;;
        mret false
  end.

(** Standard input is ready. *)
Definition from_user (r : bytes_read) : M echo_client unit :=
  match r with
  | None => exit 1
  | Some x =>
      if streq x EmptyString then
        modify (λ s, mk_echo_client 1 (c_stdout s) (c_sent s) (c_shut s) (c_pipe s));;
        status "No more user input" 20;;
        shut_down
      else
        put_server x;;
        status "User input is forwarded to server" 30
  end.

(** One turn of [echo_cli]; standard input is only watched before its end. *)
Definition echo_turn (sock user : option bytes_read) : M echo_client bool :=
  s ← get;
  let user := if echo_flag s =? 0 then user else None in
  done ← match sock with Some r => from_server r | None => mret false end;
  if (done : bool) then mret true
  else
    match user with Some r => from_user r | None => mret tt end;;
    mret false.

Definition echo_start : echo_client := mk_echo_client 0 EmptyString EmptyString false EmptyString.

(** The time client: what it printed. *)
Record time_client := mk_time_client { t_stdout : string; t_pipe : string }.

Definition time_status (lit : string) (n : nat) : M time_client unit :=
  modify (λ s, mk_time_client (t_stdout s) (t_pipe s +:+ status_bytes lit n)).

(** [recvline[read_count] = 0], in an array of MAXLINE characters. *)
Definition time_read (r : read_result) : M time_client unit :=
  match r with
  | Bytes x =>
      if (String.length x <? MAXLINE)%nat then
        modify (λ s, mk_time_client (t_stdout s +:+ before_nul x) (t_pipe s));;
        time_status "Received current time from server" 40
      else undef OutOfBounds
  | Eof => time_status "Server teminated" 20;; exit 0
  | Interrupted | ReadError => time_status "Server crashed" 20;; exit 1
  end.

Fixpoint time_reads (rs : list read_result) : M time_client unit :=
  match rs with [] => mret tt | r :: rs' => time_read r;; time_reads rs' end.

(** * The menu *)

(** [scanf("%s", choice)] into an array of four characters, until a known word. *)
Fixpoint choose (words : list string) : M unit (option string) :=
  match words with
  | [] => mret None
  | w :: words' =>
      c ← strcpy 4 w;
      if streq c "echo" || streq c "time" then mret (Some c)
      else if streq c "quit" then exit 0
      else choose words'
  end.

(** While a child runs: its buffer of SIZE bytes and the status lines shown. *)
Record menu := mk_menu { m_buf : string; m_shown : list string }.

Inductive child_says := Says (x : string) | ClosesPipe | SaysNothing (* EINTR *) | PipeError.

(** A turn: a line typed into the wrong window is thrown away (read with MAXLINE into
    the buffer of SIZE bytes); else the pipe is read.  [true]: back to the menu. *)
Definition menu_turn (typed : option string) (child : option child_says) : M menu bool :=
  match typed, child with
  | Some x, _ =>
      if (SIZE <? String.length x)%nat then undef BufferOverflow
      else modify (λ s, mk_menu (overlay x (m_buf s)) (m_shown s));; mret false
  | None, Some (Says x) =>
      modify (λ s, mk_menu (overlay x (m_buf s)) (m_shown s));;
      s ← get;
      line ← of_opt NoTerminator (until_nul (m_buf s));
      modify (λ s, mk_menu (m_buf s) (m_shown s ++ [line]));;
      mret false
  | None, Some SaysNothing => mret false
  | None, Some (ClosesPipe | PipeError) => mret true
  | None, None => mret false
  end.
End clients.
Notation bytes_read := (option string) (only parsing).

(** * An echo session *)

(** The client and the thread of the server; each side has the bytes it wrote
    ([c_sent], [srv_out]) and those it has read from the other.  [cli_done], [srv_done]:
    the function has returned or, for the server, its end of the connection is closed;
    [cli_failed], [srv_failed]: the process ended early (an error the wrappers do not
    survive, a signal), or the thread after an error of [read]. *)
Record session := mk_session {
  typed : string; (* what the client read of what the user typed *)
  user_done : bool;
  cli : echo_client;
  cli_done : bool;
  cli_failed : bool;
  cli_got : string;
  srv_out : string;
  srv_done : bool;
  srv_failed : bool;
  srv_got : string
}.

Definition bytes_of (r : option bytes_read) : string := match r with Some (Some x) => x | _ => EmptyString end.

Section session.
Context (behind : string → string) (takes : channel → string → string → bool) (write_ok : string → string → bool).
(** Whether reads can fail and processes be killed. *)
Context (faults : bool).

(** What a read may report to a side that has read [got] of the bytes [sent]: a
    non-empty beginning of the others, or the end of the stream, reported as empty
    bytes, when there are no others and the writer is through; or an error. *)
Definition may_read (sent got : string) (closed : bool) (x : string) : Prop :=
  ∃ rest, sent = got +:+ x +:+ rest ∧ (x = EmptyString → rest = EmptyString ∧ closed = true).
Definition may_get (sent got : string) (closed : bool) (r : bytes_read) : Prop :=
  match r with Some x => may_read sent got closed x | None => faults = true end.

(** What a turn of the client may find. *)
Definition may_find (s : session) (sock user : option bytes_read) : Prop :=
  cli_done s = false ∧ cli_failed s = false ∧
  match sock with Some r => may_get (srv_out s) (cli_got s) (srv_done s) r | None => True end ∧
  (user_done s = true → user = None) ∧ (user = Some None → faults = true).

Inductive session_step (s : session) : session → Prop :=
  | client_turn sock user c' (ret : bool) :
      may_find s sock user →
      echo_turn behind takes sock user (cli s) = Done ret c' →
      session_step s
        (mk_session
           (if ret then typed s else typed s +:+ bytes_of user)
           (if ret then user_done s else user_done s || bool_decide (user = Some (Some EmptyString)))
           c' ret false (cli_got s +:+ bytes_of sock) (srv_out s) (srv_done s) (srv_failed s) (srv_got s))
  | client_exits sock user code c' :
      may_find s sock user →
      echo_turn behind takes sock user (cli s) = Exited code c' →
      session_step s
        (mk_session (typed s +:+ bytes_of user) (user_done s) c' false true (cli_got s +:+ bytes_of sock)
           (srv_out s) (srv_done s) (srv_failed s) (srv_got s))
  | client_killed :
      faults = true → cli_done s = false →
      session_step s
        (mk_session (typed s) (user_done s) (cli s) false true (cli_got s) (srv_out s) (srv_done s) (srv_failed s) (srv_got s))
  | server_read x out' (ret : bool) :
      srv_done s = false →
      may_read (c_sent (cli s)) (srv_got s) (c_shut (cli s) || cli_failed s) x →
      echo_read write_ok (if streq x EmptyString then Eof else Bytes x) (srv_out s) = Done ret out' →
      session_step s
        (mk_session (typed s) (user_done s) (cli s) (cli_done s) (cli_failed s) (cli_got s) out' ret (srv_failed s)
           (srv_got s +:+ x))
  | server_exits x code out' :
      srv_done s = false →
      may_read (c_sent (cli s)) (srv_got s) (c_shut (cli s) || cli_failed s) x →
      echo_read write_ok (Bytes x) (srv_out s) = Exited code out' →
      session_step s
        (mk_session (typed s) (user_done s) (cli s) (cli_done s) (cli_failed s) (cli_got s) out' true true (srv_got s +:+ x))
  | server_error out' :
      faults = true → srv_done s = false →
      echo_read write_ok ReadError (srv_out s) = Done true out' →
      session_step s
        (mk_session (typed s) (user_done s) (cli s) (cli_done s) (cli_failed s) (cli_got s) out' true true (srv_got s))
  | server_killed :
      faults = true → srv_done s = false →
      session_step s
        (mk_session (typed s) (user_done s) (cli s) (cli_done s) (cli_failed s) (cli_got s) (srv_out s) true true (srv_got s)).

Definition session_start : session :=
  mk_session EmptyString false echo_start false false EmptyString EmptyString false false EmptyString.
End session.

(** * Lemmas *)

Fixpoint concat_str (l : list string) : string :=
  match l with [] => EmptyString | x :: l' => x +:+ concat_str l' end.

Definition all_written (ok : string → string → bool) : Prop := ∀ s x, ok s x = true.

Lemma write_conn_run ok x s : all_written ok → write_conn ok x s = Done tt (s +:+ x).
Proof. intros H. unfold write_conn. rewrite bind_get. by rewrite H. Qed.

Lemma str_app_empty s t : s +:+ t = EmptyString → s = EmptyString ∧ t = EmptyString.
Proof. destruct s; [done|discriminate]. Qed.

(** The client's line about how it ended. *)
Definition last_status (behind : string → string) (user_done : bool) : string :=
  if user_done then status_bytes behind "Server terminated" 20
  else status_bytes behind "Server terminated prematurely" 30.

(** The state of a session is consistent: the bytes of each side are a beginning of
    those the other side wrote. *)
Record session_ok (behind : string → string) (s : session) : Prop := {
  so_typed : ∃ t, typed s = c_sent (cli s) +:+ t ∧ (cli_failed s = false → t = EmptyString);
  so_srv : ∃ r, c_sent (cli s) = srv_got s +:+ r ∧
    (srv_done s = true → srv_failed s = false → cli_failed s = false → user_done s = true ∧ r = EmptyString);
  so_out : ∃ t, srv_got s = srv_out s +:+ t ∧ (srv_failed s = false → t = EmptyString);
  so_cli : ∃ r, srv_out s = cli_got s +:+ r ∧ (cli_done s = true → srv_done s = true ∧ r = EmptyString);
  so_stdout : ∃ t, cli_got s = c_stdout (cli s) +:+ t ∧ (cli_failed s = false → t = EmptyString);
  so_flag : cli_failed s = false → echo_flag (cli s) = if user_done s then 1 else 0;
  so_shut : cli_failed s = false → c_shut (cli s) = user_done s;
  so_fail : srv_failed s = true → srv_done s = true;
  so_end : cli_done s = true → cli_failed s = false ∧ ∃ p, c_pipe (cli s) = p +:+ last_status behind (user_done s)
}.

Section turn.
Context (behind : string → string) (takes : channel → string → string → bool).

(** How a handler of the client can end: [Q] holds of its result, or the process has
    ended after it printed and sent some of [out] and [sent]. *)
Definition ends (out sent : string) (c : echo_client) {A} (r : res echo_client A) (Q : A → echo_client → Prop) : Prop :=
  match r with
  | Done a c' => Q a c'
  | Exited _ c' => ∃ o o' t t', out = o +:+ o' ∧ sent = t +:+ t' ∧ c_stdout c' = c_stdout c +:+ o ∧ c_sent c' = c_sent c +:+ t
  | Undefined _ => False
  end.

Lemma ends_exit out sent c {A} code (Q : A → echo_client → Prop) : ends out sent c (Exited code c) Q.
Proof. exists EmptyString, out, EmptyString, sent. by rewrite !str_app_nil_r. Qed.

Lemma from_server_run r c sent :
  ends (bytes_of (Some r)) sent c (from_server behind takes r c) (λ ret c',
    ret = bool_decide (r = Some EmptyString) ∧
    echo_flag c' = echo_flag c ∧ c_stdout c' = c_stdout c +:+ bytes_of (Some r) ∧ c_sent c' = c_sent c ∧
    c_shut c' = c_shut c ∧ (ret = true → ∃ p, c_pipe c' = p +:+ last_status behind (echo_flag c =? 1))).
Proof.
  unfold from_server. destruct r as [x|]; [|apply ends_exit]. cbn [bytes_of]. destruct (streq x EmptyString) eqn:He.
  - apply streq_eq in He as ->. rewrite bind_get. unfold status, last_status. destruct (echo_flag c =? 1).
    all: rewrite <- bind_assoc_M, bind_get; destruct (takes _ _ _); [|apply ends_exit]; rewrite bind_modify; cbn.
    all: rewrite str_app_nil_r; split_and!; try done; intros _; by eexists.
  - unfold put_stdout, status. rewrite <- bind_assoc_M, bind_get. destruct (takes ToStdout _ _); [|apply ends_exit].
    rewrite bind_modify, <- bind_assoc_M, bind_get. destruct (takes ToPipe _ _).
    + rewrite bind_modify. cbn. split_and!; try done. symmetry. apply bool_decide_false. intros [= ->]. done.
    + exists x, EmptyString, EmptyString, sent. cbn. by rewrite !str_app_nil_r.
Qed.

Lemma from_user_run r c out :
  ends out (bytes_of (Some r)) c (from_user behind takes r c) (λ _ c',
    echo_flag c' = (if bool_decide (r = Some EmptyString) then 1 else echo_flag c) ∧ c_stdout c' = c_stdout c ∧
    c_sent c' = c_sent c +:+ bytes_of (Some r) ∧ c_shut c' = c_shut c || bool_decide (r = Some EmptyString)).
Proof.
  unfold from_user. destruct r as [x|]; [|apply ends_exit]. cbn [bytes_of]. destruct (streq x EmptyString) eqn:He.
  - apply streq_eq in He as ->. rewrite bind_modify. unfold status, shut_down. rewrite <- bind_assoc_M, bind_get.
    destruct (takes ToPipe _ _).
    2: { exists EmptyString, out, EmptyString, EmptyString. cbn. by rewrite !str_app_nil_r. }
    rewrite bind_modify, bind_get. destruct (takes ShutsDown _ _).
    2: { exists EmptyString, out, EmptyString, EmptyString. cbn. by rewrite !str_app_nil_r. }
    cbn. by rewrite str_app_nil_r, orb_true_r.
  - assert (Hne : bool_decide (Some x = Some EmptyString) = false) by (apply bool_decide_false; intros [= ->]; done).
    rewrite Hne. unfold put_server, status. rewrite <- bind_assoc_M, bind_get. destruct (takes ToServer _ _); [|apply ends_exit].
    rewrite bind_modify, bind_get. destruct (takes ToPipe _ _).
    + cbn. by rewrite orb_false_r.
    + exists EmptyString, out, x, EmptyString. cbn. by rewrite !str_app_nil_r.
Qed.

(** A turn: what comes from the server is printed, what comes from the user is sent, and
    the end of the input is noted. *)
Lemma echo_turn_run sock user c :
  let u := if echo_flag c =? 0 then user else None in
  ends (bytes_of sock) (bytes_of u) c (echo_turn behind takes sock user c) (λ ret c',
    ret = bool_decide (sock = Some (Some EmptyString)) ∧ c_stdout c' = c_stdout c +:+ bytes_of sock ∧
    if ret then echo_flag c' = echo_flag c ∧ c_shut c' = c_shut c ∧ c_sent c' = c_sent c ∧
                ∃ p, c_pipe c' = p +:+ last_status behind (echo_flag c =? 1)
    else echo_flag c' = (if bool_decide (u = Some (Some EmptyString)) then 1 else echo_flag c) ∧
         c_shut c' = c_shut c || bool_decide (u = Some (Some EmptyString)) ∧ c_sent c' = c_sent c +:+ bytes_of u).
Proof.
  intros u. unfold echo_turn. rewrite bind_get. cbv zeta. fold u.
  assert (Hs : ends (bytes_of sock) (bytes_of u) c
    ((match sock with Some r => from_server behind takes r | None => mret false end) c) (λ ret c',
    ret = bool_decide (sock = Some (Some EmptyString)) ∧
    echo_flag c' = echo_flag c ∧ c_stdout c' = c_stdout c +:+ bytes_of sock ∧ c_sent c' = c_sent c ∧
    c_shut c' = c_shut c ∧ (ret = true → ∃ p, c_pipe c' = p +:+ last_status behind (echo_flag c =? 1)))).
  { destruct sock as [r|].
    - pose proof (from_server_run r c (bytes_of u)) as H. unfold ends in *.
      destruct (from_server behind takes r c) as [ret c'|code c'|]; [|done..].
      destruct H as (-> & H). split; [|exact H]. apply bool_decide_ext. split; [by intros ->|by intros [= ->]].
    - cbn. by rewrite str_app_nil_r. }
  match type of Hs with ends _ _ _ (?f c) _ => set (m := f) in * end.
  unfold mbind, M_bind. destruct (m c) as [ret c1|code c1|]; [|exact Hs|done].
  destruct Hs as (-> & Hf & Ho & Hse & Hsh & Hp). destruct (bool_decide (sock = _)) eqn:Hend.
  { cbn. split_and!; try done. by apply Hp. }
  destruct u as [r|].
  - pose proof (from_user_run r c1 EmptyString) as H. destruct (from_user behind takes r c1) as [a c2|code c2|]; [| |done].
    + destruct H as (H1 & H2 & H3 & H4). cbn. split_and!; [done|congruence|..].
      * rewrite H1, Hf. by destruct r as [[|? ?]|].
      * rewrite H4, Hsh. by destruct r as [[|? ?]|].
      * by rewrite H3, Hse.
    + destruct H as (o & o' & t & t' & Hoo & Htt & H2 & H3). symmetry in Hoo. apply str_app_empty in Hoo as [-> ->].
      exists (bytes_of sock), EmptyString, t, t'. rewrite str_app_nil_r in *. split_and!; [done|exact Htt|congruence|congruence].
  - cbn. rewrite Ho, Hf, Hsh, Hse, orb_false_r, str_app_nil_r. done.
Qed.
End turn.

Section session_proofs.
Context (behind : string → string) (takes : channel → string → string → bool) (write_ok : string → string → bool).
Context (faults : bool).

(** Standard input is looked at as long as it has not ended. *)
Lemma watched s (sock user : option bytes_read) :
  session_ok behind s → cli_failed s = false → (user_done s = true → user = None) →
  (if echo_flag (cli s) =? 0 then user else None) = user.
Proof. intros Hs Hf Hu. rewrite (so_flag _ _ Hs Hf). destruct (user_done s); [by rewrite Hu|done]. Qed.

(** What the client has read, after a turn in which it is offered [sock]. *)
Lemma offered s (sock : option bytes_read) :
  match sock with Some r => may_get faults (srv_out s) (cli_got s) (srv_done s) r | None => True end →
  (∃ r, srv_out s = cli_got s +:+ r) →
  ∃ rest, srv_out s = (cli_got s +:+ bytes_of sock) +:+ rest ∧
          (sock = Some (Some EmptyString) → srv_done s = true ∧ rest = EmptyString).
Proof.
  intros Hsock [r Hr]. destruct sock as [[x|]|].
  - destruct Hsock as (rest & Heq & Hend). exists rest. rewrite str_app_assoc. split; [exact Heq|].
    intros [= ->]. destruct (Hend eq_refl). done.
  - exists r. cbn. by rewrite str_app_nil_r.
  - exists r. cbn. by rewrite str_app_nil_r.
Qed.

Lemma client_turn_ok s sock user c' ret :
  session_ok behind s → may_find faults s sock user → echo_turn behind takes sock user (cli s) = Done ret c' →
  session_ok behind (mk_session (if ret then typed s else typed s +:+ bytes_of user)
    (if ret then user_done s else user_done s || bool_decide (user = Some (Some EmptyString)))
    c' ret false (cli_got s +:+ bytes_of sock) (srv_out s) (srv_done s) (srv_failed s) (srv_got s)).
Proof.
  intros Hs (Hcd & Hcf & Hsock & Huser & _) Hrun. pose proof (echo_turn_run behind takes sock user (cli s)) as Ht.
  cbv zeta in Ht. rewrite (watched s sock user Hs Hcf Huser), Hrun in Ht. cbn [ends] in Ht.
  destruct Hs as [(t1 & H1 & H1') (r & Hr & Hsd) (t3 & H3 & H3') (rc & Hrc & Hcd') (t5 & H5 & H5') H6 H7 H8 H9].
  rewrite (H1' Hcf), str_app_nil_r in H1. rewrite (H5' Hcf), str_app_nil_r in H5. specialize (H6 Hcf). specialize (H7 Hcf).
  destruct (offered s sock Hsock ltac:(by exists rc)) as (rest & Hrest & Hend). destruct Ht as (Hret & Hout & Hcase).
  destruct ret.
  - destruct Hcase as (Hf & Hsh & Hse & p & Hp). symmetry in Hret. apply bool_decide_eq_true in Hret.
    destruct (Hend Hret) as [Hd ->]. split; cbn; rewrite ?Hf, ?Hsh, ?Hse; try done.
    + exists EmptyString. by rewrite str_app_nil_r.
    + exists r. split; [done|]. auto.
    + by exists t3.
    + by exists EmptyString.
    + exists EmptyString. by rewrite str_app_nil_r, Hout, H5.
    + split; [done|]. exists p. rewrite Hp, H6. by destruct (user_done s).
  - destruct Hcase as (Hf & Hsh & Hse). split; cbn; rewrite ?Hf, ?Hsh, ?Hse; try done.
    + exists EmptyString. by rewrite str_app_nil_r, H1.
    + exists (r +:+ bytes_of user). rewrite Hr, str_app_assoc. split; [done|]. intros Hd Hsf _.
      destruct (Hsd Hd Hsf Hcf) as [Hu ->]. rewrite Hu, (Huser Hu). done.
    + by exists t3.
    + by exists rest.
    + exists EmptyString. by rewrite str_app_nil_r, Hout, H5.
    + intros _. rewrite H6. destruct (bool_decide (user = _)), (user_done s); reflexivity.
    + intros _. by rewrite H7.
Qed.

Lemma client_exits_ok s sock user code c' :
  session_ok behind s → may_find faults s sock user → echo_turn behind takes sock user (cli s) = Exited code c' →
  session_ok behind (mk_session (typed s +:+ bytes_of user) (user_done s) c' false true (cli_got s +:+ bytes_of sock)
    (srv_out s) (srv_done s) (srv_failed s) (srv_got s)).
Proof.
  intros Hs (Hcd & Hcf & Hsock & Huser & _) Hrun. pose proof (echo_turn_run behind takes sock user (cli s)) as Ht.
  cbv zeta in Ht. rewrite (watched s sock user Hs Hcf Huser), Hrun in Ht. cbn [ends] in Ht.
  destruct Hs as [(t1 & H1 & H1') (r & Hr & Hsd) (t3 & H3 & H3') (rc & Hrc & Hcd') (t5 & H5 & H5') H6 H7 H8 H9].
  rewrite (H1' Hcf), str_app_nil_r in H1. rewrite (H5' Hcf), str_app_nil_r in H5.
  destruct (offered s sock Hsock ltac:(by exists rc)) as (rest & Hrest & _).
  destruct Ht as (o & o' & t & t' & Ho & Hu & Hout & Hsent). split; cbn; try done.
  - exists t'. split; [|done]. by rewrite Hsent, H1, Hu, str_app_assoc.
  - exists (r +:+ t). rewrite Hsent, Hr, str_app_assoc. done.
  - by exists t3.
  - by exists rest.
  - exists o'. split; [|done]. by rewrite Hout, H5, Ho, str_app_assoc.
Qed.

Lemma echo_read_run x out :
  match echo_read write_ok (if streq x EmptyString then Eof else Bytes x) out with
  | Done ret out' => ret = streq x EmptyString ∧ out' = out +:+ x
  | Exited _ out' => out' = out
  | Undefined _ => False
  end.
Proof.
  destruct (streq x EmptyString) eqn:He.
  - apply streq_eq in He as ->. cbn. by rewrite str_app_nil_r.
  - unfold echo_read, write_conn. rewrite <- bind_assoc_M, bind_get. destruct (write_ok out x); [|done].
    by rewrite bind_modify.
Qed.

Lemma server_read_ok s x out' ret :
  session_ok behind s → srv_done s = false →
  may_read (c_sent (cli s)) (srv_got s) (c_shut (cli s) || cli_failed s) x →
  echo_read write_ok (if streq x EmptyString then Eof else Bytes x) (srv_out s) = Done ret out' →
  session_ok behind (mk_session (typed s) (user_done s) (cli s) (cli_done s) (cli_failed s) (cli_got s) out' ret (srv_failed s)
    (srv_got s +:+ x)).
Proof.
  intros [H1 (r & Hr & _) (t3 & H3 & H3') (rc & Hrc & Hcd) H5 H6 H7 H8 H9] Hsd (rest & Hsent & Hend) Hrun.
  pose proof (echo_read_run x (srv_out s)) as He. rewrite Hrun in He. destruct He as [-> ->].
  assert (Hsf : srv_failed s = false) by (destruct (srv_failed s); [by rewrite H8 in Hsd|done]).
  split; cbn; try done.
  - exists rest. rewrite str_app_assoc. split; [done|]. intros ->%streq_eq _ Hcf. destruct (Hend eq_refl) as [-> Hcl].
    rewrite H7, Hcf, orb_false_r in Hcl by done. done.
  - exists EmptyString. rewrite H3, (H3' Hsf), !str_app_nil_r. done.
  - exists (rc +:+ x). rewrite Hrc, str_app_assoc. split; [done|]. intros Hc. destruct (Hcd Hc). congruence.
  - by rewrite Hsf.
Qed.

(** The server's end is closed early; what it had read last may be lost. *)
Lemma server_fails_ok s x rest :
  session_ok behind s → srv_done s = false → c_sent (cli s) = srv_got s +:+ x +:+ rest →
  session_ok behind (mk_session (typed s) (user_done s) (cli s) (cli_done s) (cli_failed s) (cli_got s) (srv_out s) true true
    (srv_got s +:+ x)).
Proof.
  intros [H1 _ (t3 & H3 & _) (rc & Hrc & Hcd) H5 H6 H7 H8 H9] Hsd Hsent. split; cbn; try done.
  - exists rest. by rewrite str_app_assoc.
  - exists (t3 +:+ x). split; [|done]. by rewrite H3, str_app_assoc.
  - exists rc. split; [done|]. intros Hc. by destruct (Hcd Hc).
Qed.

Lemma session_step_ok s s' : session_ok behind s → session_step behind takes write_ok faults s s' → session_ok behind s'.
Proof.
  intros Hs Hstep.
  destruct Hstep as [sock user c' ret Hfind Hrun|sock user code c' Hfind Hrun|_ Hcd|x out' ret Hsd Hread Hrun
    |x code out' Hsd (rest & Hread & _) Hrun|out' _ Hsd Hrun|_ Hsd].
  - by apply client_turn_ok.
  - by eapply client_exits_ok.
  - destruct Hs as [(t1 & H1 & _) (r & Hr & _) H3 (rc & Hrc & _) (t5 & H5 & _) H6 H7 H8 H9]. split; cbn; try done.
    + by exists t1.
    + by exists r.
    + by exists rc.
    + by exists t5.
  - by apply server_read_ok.
  - unfold echo_read, write_conn in Hrun. rewrite <- bind_assoc_M, bind_get in Hrun.
    destruct (write_ok (srv_out s) x); [by rewrite bind_modify in Hrun|]. injection Hrun as _ <-.
    by apply (server_fails_ok s x rest).
  - injection Hrun as <-. destruct (so_srv _ _ Hs) as (r & Hr & _).
    rewrite <- (str_app_nil_r (srv_got s)). by apply (server_fails_ok s EmptyString r).
  - destruct (so_srv _ _ Hs) as (r & Hr & _).
    rewrite <- (str_app_nil_r (srv_got s)). by apply (server_fails_ok s EmptyString r).
Qed.
End session_proofs.

(** * Properties *)

Section session_theorems.
Context (behind : string → string) (takes : channel → string → string → bool) (write_ok : string → string → bool).

Lemma session_start_ok : session_ok behind session_start.
Proof. split; cbn; try done; by exists EmptyString. Qed.

Lemma session_reach_ok faults s :
  reach (session_step behind takes write_ok faults) session_start s → session_ok behind s.
Proof.
  intros Hr. eapply (reach_invariant _ (session_ok behind)); [exact session_start_ok| |exact Hr].
  intros x y. apply session_step_ok.
Qed.

Lemma session_ok_done s :
  session_ok behind s → cli_done s = true → srv_failed s = false →
  user_done s = true ∧ c_stdout (cli s) = typed s.
Proof.
  intros [(t1 & H1 & H1') (r & Hr & Hsd) (t3 & H3 & H3') (rc & Hrc & Hcd) (t5 & H5 & H5') H6 H7 H8 H9] Hc Hsf.
  destruct (H9 Hc) as [Hcf _]. destruct (Hcd Hc) as [Hs ->]. destruct (Hsd Hs Hsf Hcf) as [Hu ->].
  rewrite (H1' Hcf) in H1. rewrite (H3' Hsf) in H3. rewrite (H5' Hcf) in H5. rewrite !str_app_nil_r in *.
  split; [done|]. congruence.
Qed.

(** C20: at every moment of an echo session, however the streams are cut into reads, in
    whatever order the two sides run, and with errors of reads and writes and the death of
    either process at any time: what the server wrote is a beginning of the text typed and
    what the client printed is a beginning of that.  When [echo_cli] returns, it has
    printed all that the server wrote, and its last status is that the server terminated,
    prematurely if the user had not ended the input.  If the server did not fail, the user
    has ended the input and all of it has been echoed; so it terminates prematurely only
    when it failed. *)
Theorem echo_session_faithful (faults : bool) (s : session) :
  reach (session_step behind takes write_ok faults) session_start s →
  (∃ to_cli to_srv, srv_out s = c_stdout (cli s) +:+ to_cli ∧ typed s = srv_out s +:+ to_srv) ∧
  (cli_done s = true →
     c_stdout (cli s) = srv_out s ∧
     (∃ p, c_pipe (cli s) = p +:+ last_status behind (user_done s)) ∧
     (srv_failed s = false → user_done s = true ∧ c_stdout (cli s) = typed s)).
Proof.
  intros Hs%session_reach_ok. split.
  - destruct Hs as [(t1 & H1 & _) (r & Hr & _) (t3 & H3 & _) (rc & Hrc & _) (t5 & H5 & _) _ _ _ _].
    exists (t5 +:+ rc), (t3 +:+ r +:+ t1). rewrite Hrc, H5, str_app_assoc. split; [done|].
    rewrite H1, Hr, H3, Hrc, H5, !str_app_assoc. done.
  - intros Hc. split; [|split; [by apply (so_end _ _ Hs)|by apply session_ok_done]].
    destruct Hs as [_ _ _ (rc & Hrc & Hcd) (t5 & H5 & H5') _ _ _ H9]. destruct (H9 Hc) as [Hcf _].
    destruct (Hcd Hc) as [_ ->]. rewrite (H5' Hcf) in H5. rewrite !str_app_nil_r in *. congruence.
Qed.

(** When nothing fails. *)
Abbreviation sstep := (session_step behind takes write_ok false).

Definition calm (s : session) : Prop := cli_failed s = false ∧ srv_failed s = false.
Definition all_taken : Prop := ∀ ch s x, takes ch s x = true.

Definition returns {A} (m : M echo_client A) : Prop := ∀ c, ∃ a c', m c = Done a c'.

Lemma returns_bind {A B} (m : M echo_client A) (k : A → M echo_client B) :
  returns m → (∀ a, returns (k a)) → returns (m ≫= k).
Proof. intros Hm Hk c. destruct (Hm c) as (a & c' & Hc). rewrite (bind_Done _ _ _ _ _ Hc). apply Hk. Qed.

Lemma returns_ret {A} (a : A) : returns (mret a).
Proof. intros c. by eexists _, _. Qed.

Lemma returns_get : returns get.
Proof. intros c. by eexists _, _. Qed.

Lemma returns_modify f : returns (modify f).
Proof. intros c. by eexists _, _. Qed.

Hint Resolve returns_bind returns_ret returns_get returns_modify : core.

Lemma returns_writes :
  all_taken → (∀ x, returns (put_stdout takes x)) ∧ (∀ x, returns (put_server takes x)) ∧
              (∀ lit n, returns (status behind takes lit n)) ∧ returns (shut_down takes).
Proof.
  intros Hall. split_and!; intros; unfold put_stdout, put_server, status, shut_down;
    (apply returns_bind; [auto|intros c; rewrite Hall; auto]).
Qed.

Lemma echo_turn_taken sock user c code c' :
  all_taken → sock ≠ Some None → user ≠ Some None → echo_turn behind takes sock user c ≠ Exited code c'.
Proof.
  intros Hall Hs Hu Hrun. destruct (returns_writes Hall) as (H1 & H2 & H3 & H4).
  assert (Hr : returns (echo_turn behind takes sock user)).
  { unfold echo_turn. apply returns_bind; [auto|intros s]. apply returns_bind.
    - destruct sock as [[x|]|]; [|done|auto]. unfold from_server. destruct (streq x EmptyString); [|auto 10].
      apply returns_bind; [auto|intros s']. apply returns_bind; [|auto]. destruct (_ =? 1); auto.
    - intros [|]; [auto|]. apply returns_bind; [|auto]. destruct (_ =? 0); [|auto].
      destruct user as [[x|]|]; [|done|auto]. unfold from_user. destruct (streq x EmptyString); auto 10. }
  destruct (Hr c) as (a & c1 & Hc). by rewrite Hc in Hrun.
Qed.

Lemma calm_step s s' :
  all_taken → all_written write_ok → calm s → sstep s s' → calm s'.
Proof.
  intros Hall Hok [Hcf Hsf] Hstep.
  destruct Hstep as [sock user c' ret Hfind Hrun|sock user code c' Hfind Hrun|? _|x out' ret _ _ _
    |x code out' _ _ Hrun|out' ? _ _|? _]; try done.
  - destruct Hfind as (_ & _ & Hsock & _ & Huser). destruct (echo_turn_taken sock user (cli s) code c' Hall); [| |done].
    + intros ->. done.
    + intros ->. by specialize (Huser eq_refl).
  - unfold echo_read in Hrun. unfold mbind, M_bind in Hrun. by rewrite (write_conn_run _ _ _ Hok) in Hrun.
Qed.

Lemma calm_reach s : all_taken → all_written write_ok → reach sstep session_start s → calm s.
Proof. intros Hall Hok. apply reach_invariant; [done|]. intros x y. by apply calm_step. Qed.

Lemma server_step s x :
  all_written write_ok → srv_done s = false → may_read (c_sent (cli s)) (srv_got s) (c_shut (cli s) || cli_failed s) x →
  sstep s (mk_session (typed s) (user_done s) (cli s) (cli_done s) (cli_failed s) (cli_got s) (srv_out s +:+ x)
             (streq x EmptyString) (srv_failed s) (srv_got s +:+ x)).
Proof.
  intros Hok Hd Hr. apply server_read; [done..|]. destruct (streq x EmptyString) eqn:He.
  - apply streq_eq in He as ->. by rewrite str_app_nil_r.
  - unfold echo_read. by run_step (write_conn_run write_ok x (srv_out s) Hok).
Qed.

Lemma client_step s x :
  all_taken → cli_done s = false → cli_failed s = false → may_read (srv_out s) (cli_got s) (srv_done s) x →
  ∃ s', sstep s s' ∧ cli_done s' = streq x EmptyString ∧ typed s' = typed s ∧ cli_failed s' = false ∧
        cli_got s' = cli_got s +:+ x ∧ srv_done s' = srv_done s ∧ srv_out s' = srv_out s.
Proof.
  intros Hall Hc Hcf Hr. pose proof (echo_turn_run behind takes (Some (Some x)) None (cli s)) as Ht.
  assert (Hnone : (if echo_flag (cli s) =? 0 then @None bytes_read else None) = None) by (by destruct (_ =? 0)).
  cbv zeta in Ht. rewrite Hnone in Ht.
  destruct (echo_turn behind takes (Some (Some x)) None (cli s)) as [ret c'|code c'|] eqn:Hrun; [| |done].
  2: { by destruct (echo_turn_taken (Some (Some x)) None (cli s) code c' Hall). }
  destruct Ht as (Hret & _). assert (Hx : ret = streq x EmptyString).
  { rewrite Hret. destruct x; [done|]. by apply bool_decide_false. }
  eexists. split.
  - apply (client_turn _ _ _ _ s (Some (Some x)) None c' ret); [|exact Hrun]. by split_and!.
  - cbn. destruct ret; rewrite ?str_app_nil_r; done.
Qed.

Lemma may_read_all got x closed : x ≠ EmptyString → may_read (got +:+ x) got closed x.
Proof. intros H. exists EmptyString. by rewrite str_app_nil_r. Qed.

Lemma may_read_end sent closed : closed = true → may_read sent sent closed EmptyString.
Proof. intros ->. exists EmptyString. by rewrite !str_app_nil_r. Qed.

(** A side reads what is left and then the end of the stream: one lemma for the server,
    one for the client. *)
Lemma server_finishes s :
  all_written write_ok → session_ok behind s → calm s → user_done s = true → cli_done s = false →
  ∃ s', reach sstep s s' ∧ srv_done s' = true ∧ cli_done s' = false ∧ typed s' = typed s.
Proof.
  intros Hok Hs [Hcf Hsf] Hu Hc. destruct (srv_done s) eqn:Hd; [exists s; split; [constructor|done]|].
  destruct (so_srv _ _ Hs) as (r & Hr & _).
  assert (Hshut : c_shut (cli s) || cli_failed s = true) by (by rewrite (so_shut _ _ Hs Hcf), Hu).
  assert (Hlast : ∀ s1, reach sstep s s1 → srv_done s1 = false → srv_got s1 = c_sent (cli s) → cli s1 = cli s →
    cli_failed s1 = cli_failed s → cli_done s1 = false → typed s1 = typed s →
    ∃ s', reach sstep s s' ∧ srv_done s' = true ∧ cli_done s' = false ∧ typed s' = typed s).
  { intros s1 R1 Hd1 Hg Hcl Hf1 Hc1 Ht. eexists. split; [eapply reach_step; [exact R1|]|].
    - apply (server_step s1 EmptyString Hok Hd1). rewrite Hcl, Hg, Hf1. by apply may_read_end.
    - by split_and!. }
  destruct (decide (r = EmptyString)) as [->|Hne].
  - apply (Hlast s); try done; [constructor|]. by rewrite Hr, str_app_nil_r.
  - eapply Hlast; [eapply reach_step; [constructor|apply (server_step s r Hok Hd)]|..]; cbn; try done.
    + rewrite Hr. by apply may_read_all.
    + by apply streq_neq.
Qed.

Lemma client_finishes s :
  all_taken → session_ok behind s → calm s → srv_done s = true → cli_done s = false →
  ∃ s', reach sstep s s' ∧ cli_done s' = true ∧ typed s' = typed s.
Proof.
  intros Hall Hs [Hcf _] Hd Hc. destruct (so_cli _ _ Hs) as (r & Hr & _).
  assert (Hlast : ∀ s1, reach sstep s s1 → cli_got s1 = srv_out s1 → srv_done s1 = true → cli_done s1 = false →
    cli_failed s1 = false → typed s1 = typed s → ∃ s', reach sstep s s' ∧ cli_done s' = true ∧ typed s' = typed s).
  { intros s1 R1 Hg Hd1 Hc1 Hf1 Ht. destruct (client_step s1 EmptyString Hall Hc1 Hf1) as (s' & Hst & Hcd & Ht' & _).
    { rewrite Hg, Hd1. by apply may_read_end. }
    exists s'. split; [by eapply reach_step|]. split; [done|congruence]. }
  destruct (decide (r = EmptyString)) as [->|Hne].
  - apply (Hlast s); try done; [constructor|]. by rewrite Hr, str_app_nil_r.
  - destruct (client_step s r Hall Hc Hcf) as (s1 & Hst & Hcd & Ht & Hf & Hg & Hd1 & Ho); [rewrite Hr; by apply may_read_all|].
    apply (Hlast s1); try congruence; [eapply reach_step; [constructor|done]|]. rewrite Hcd. by apply streq_neq.
Qed.

(** C34: an echo session in which nothing fails can always be finished: once the user has
    ended the input, the bytes under way and the two ends of the streams are enough for the
    client to return, with everything echoed. *)
Theorem echo_session_completes s :
  all_taken → all_written write_ok → reach sstep session_start s → user_done s = true →
  ∃ s', reach sstep s s' ∧ cli_done s' = true ∧ typed s' = typed s ∧ c_stdout (cli s') = typed s.
Proof.
  intros Hall Hok Hr Hu. pose proof (session_reach_ok false s Hr) as Hs. pose proof (calm_reach s Hall Hok Hr) as Hcalm.
  assert (Hfin : ∀ s', reach sstep s s' → cli_done s' = true → typed s' = typed s →
    ∃ s', reach sstep s s' ∧ cli_done s' = true ∧ typed s' = typed s ∧ c_stdout (cli s') = typed s).
  { intros s' Hs' Hc Ht. exists s'. split_and!; [done..|]. rewrite <- Ht.
    assert (Hr' : reach sstep session_start s') by by eapply reach_trans.
    apply session_ok_done; [by apply (session_reach_ok false)|done|by apply calm_reach]. }
  destruct (cli_done s) eqn:Hc; [by apply (Hfin s); [constructor|..]|].
  destruct (server_finishes s Hok Hs Hcalm Hu Hc) as (s1 & R1 & Hd1 & Hc1 & Ht1).
  assert (Hr1 : reach sstep session_start s1) by by eapply reach_trans.
  destruct (client_finishes s1 Hall) as (s2 & R2 & Hc2 & Ht2);
    [by apply (session_reach_ok false)|by apply calm_reach|done..|].
  apply (Hfin s2); [by eapply reach_trans|done|congruence].
Qed.
End session_theorems.

(** The thread of the server writes back every byte it reads, in order, until the
    end of the stream, and then returns; a signal changes nothing. *)
Theorem str_echo_echoes ok xs :
  all_written ok → 
  str_echo ok (map Bytes xs ++ [Interrupted; Eof]) EmptyString = Done true (concat_str xs).
Proof.
  intros Hok. change (concat_str xs) with (EmptyString +:+ concat_str xs). generalize EmptyString as out.
  induction xs as [|x xs IH]; intros out; cbn [map str_echo concat_str app].
  - by rewrite str_app_nil_r.
  - unfold echo_read. rewrite <- bind_assoc_M. run_step (write_conn_run ok x out Hok).
    rewrite bind_ret, IH, str_app_assoc. done.
Qed.

Lemma before_nul_no_nul s : no_nul s = true → before_nul s = s.
Proof.
  induction s as [|c s IH]; simpl; [done|]. intros [Hc%negb_true_iff Hs]%andb_true_iff. by rewrite Hc, IH.
Qed.

Lemma time_serv_run ok ts s :
  all_written ok → time_serv ok (map Quiet ts ++ [Readable]) s = Done true (s +:+ concat_str (map time_text ts)).
Proof.
  intros Hok. revert s. induction ts as [|t ts IH]; intros s; cbn [map time_serv concat_str app].
  - by rewrite str_app_nil_r.
  - run_step (write_conn_run ok (time_text t) s Hok). by rewrite IH, str_app_assoc.
Qed.

Lemma time_reads_run behind xs s :
  Forall (λ x, no_nul x = true ∧ (String.length x < MAXLINE)%nat) xs →
  ∃ p, time_reads behind (map Bytes xs) s = Done tt (mk_time_client (t_stdout s +:+ concat_str xs) p).
Proof.
  intros Hxs. revert s. induction Hxs as [|x xs [Hn Hl] _ IH]; intros s; cbn [map time_reads concat_str].
  - exists (t_pipe s). rewrite str_app_nil_r. by destruct s.
  - unfold time_read. destruct (Nat.ltb_spec (String.length x) MAXLINE); [|lia].
    unfold time_status. rewrite <- bind_assoc_M, bind_modify, bind_modify.
    match goal with |- context [time_reads _ _ ?st] => destruct (IH st) as [p Hp] end.
    exists p. rewrite Hp. cbn.
    by rewrite before_nul_no_nul, str_app_assoc.
Qed.

(** The time client prints exactly the lines the server sends, one for every five
    seconds without input, however the stream is cut into reads. *)
Theorem time_service_delivers ok behind ts xs :
  all_written ok → Forall (λ x, no_nul x = true ∧ (String.length x < MAXLINE)%nat) xs →
  concat_str xs = concat_str (map time_text ts) →
  ∃ sent p, time_serv ok (map Quiet ts ++ [Readable]) EmptyString = Done true sent ∧ sent = concat_str xs ∧
            time_reads behind (map Bytes xs) (mk_time_client EmptyString EmptyString) =
              Done tt (mk_time_client sent p).
Proof.
  intros Hok Hxs Heq. destruct (time_reads_run behind xs (mk_time_client EmptyString EmptyString) Hxs) as [p Hp].
  exists (concat_str xs), p. split; [|split; [done|exact Hp]]. by rewrite time_serv_run, <- Heq.
Qed.

(** A read that fills the whole array of the time client makes it write the
    terminator behind the array. *)
Theorem time_client_overflows behind x s :
  (MAXLINE ≤ String.length x)%nat → time_read behind (Bytes x) s = Undefined OutOfBounds.
Proof. intros H. unfold time_read. destruct (Nat.ltb_spec (String.length x) MAXLINE); [lia|done]. Qed.

(** The array for the choice has room for three characters and every valid choice
    has four: whatever the user types, the menu never gets to know a valid choice, it
    overflows the array or keeps asking. *)
Theorem no_choice_fits words :
  choose words tt = Done None tt ∨ choose words tt = Undefined BufferOverflow.
Proof.
  induction words as [|w words IH]; [by left|]. cbn [choose]. unfold strcpy.
  destruct (Nat.ltb_spec (String.length w) 4) as [Hl|Hl]; [|by right].
  rewrite bind_ret. assert (Hne : ∀ x, String.length x = 4%nat → streq w x = false).
  { intros x Hx. apply streq_neq. intros ->. lia. }
  by rewrite !Hne.
Qed.

Lemma substring_app n a b :
  (String.length a ≤ n)%nat → String.substring 0 n (a +:+ b) = a +:+ String.substring 0 (n - String.length a) b.
Proof.
  revert n. induction a as [|c a IH]; intros n H.
  - change (EmptyString +:+ b) with b. simpl. by rewrite Nat.sub_0_r.
  - destruct n as [|n]; simpl in H; [lia|]. change (String c a +:+ b) with (String c (a +:+ b)). simpl.
    rewrite IH by lia. done.
Qed.

Lemma overlay_app a b buf :
  (String.length a ≤ String.length buf)%nat →
  ∃ rest, overlay (a +:+ b) buf = a +:+ overlay b rest ∧ 
          String.length rest = (String.length buf - String.length a)%nat.
Proof.
  revert buf. induction a as [|c a IH]; intros buf H.
  - exists buf. simpl. split; [done|lia].
  - destruct buf as [|d buf]; simpl in H; [lia|]. destruct (IH buf ltac:(lia)) as (rest & Heq & Hl).
    exists rest. change (String c a +:+ b) with (String c (a +:+ b)). simpl. rewrite Heq. by split.
Qed.

(** The menu shows a status line without the bytes that were read from behind the
    literal; when a second line arrives with the same read, it is lost. *)
Theorem menu_shows_first_status behind lit n more s :
  no_nul lit = true → (String.length lit < n)%nat → (String.length lit < String.length (m_buf s))%nat →
  ∃ buf, menu_turn None (Some (Says (status_bytes behind lit n +:+ more))) s =
         Done false (mk_menu buf (m_shown s ++ [lit])).
Proof.
  intros Hn Hl Hb. unfold status_bytes. rewrite substring_app by lia.
  destruct (n - String.length lit)%nat as [|k] eqn:Hk; [lia|].
  rewrite str_app_assoc. destruct (overlay_app lit (String.substring 0 (S k) (NUL +:+ behind lit) +:+ more) (m_buf s))
    as (rest & Heq & Hrest); [lia|].
  assert (∃ r, overlay (String.substring 0 (S k) (NUL +:+ behind lit) +:+ more) rest = String Ascii.zero r) as [r Hr].
  { destruct rest as [|c rest]; simpl in Hrest; [lia|]. simpl. by eexists. }
  eexists. unfold menu_turn. rewrite bind_modify, bind_get. cbn [m_buf]. rewrite Heq, Hr, until_nul_nul by done.
  unfold of_opt. rewrite bind_ret, bind_modify. reflexivity.
Qed.

(** The listening sockets are non-blocking so that [accept] cannot block when a
    client gives up between [select] and [accept]; in exactly this case [accept]
    reports EWOULDBLOCK and its wrapper ends the whole server. *)
Theorem aborted_connection_ends_server time s :
  ∃ s', server_turn (Some WouldBlock) time s = Exited 1 s'.
Proof. by eexists. Qed.

(** * Runs *)

Definition ok_all (s x : string) : bool := true.
Definition no_bytes (s : string) : string := EmptyString.

Definition takes_all (ch : channel) (s x : string) : bool := true.

Definition after_turn (sock user : option bytes_read) (c : echo_client) : echo_client :=
  match echo_turn no_bytes takes_all sock user c with Done _ c' => c' | _ => c end.

Definition after_line : echo_client := after_turn None (Some (Some "hi"%string)) echo_start.
Definition line_typed : session :=
  mk_session "hi" false after_line false false EmptyString EmptyString false false EmptyString.

(** The user has typed a line and ended the input; nothing has been read yet. *)
Definition user_through : session :=
  mk_session "hi" true (after_turn None (Some (Some EmptyString)) after_line) false false EmptyString EmptyString false false
    EmptyString.

Lemma line_typed_reachable faults : reach (session_step no_bytes takes_all ok_all faults) session_start line_typed.
Proof.
  eapply reach_step; [constructor|].
  exact (client_turn no_bytes takes_all ok_all faults session_start None (Some (Some "hi"%string)) after_line false
    ltac:(by split_and!) ltac:(vm_compute; reflexivity) : session_step _ _ _ _ _ line_typed).
Qed.

Lemma user_through_reachable : reach (session_step no_bytes takes_all ok_all false) session_start user_through.
Proof.
  eapply reach_step; [apply line_typed_reachable|].
  exact (client_turn no_bytes takes_all ok_all false line_typed None (Some (Some EmptyString))
    (after_turn None (Some (Some EmptyString)) after_line) false ltac:(by split_and!) ltac:(vm_compute; reflexivity)).
Qed.

(** The server is killed while the line is on its way to it; the client returns. *)
Definition server_dead : session :=
  mk_session "hi" false after_line false false EmptyString EmptyString true true EmptyString.
Definition ended_early : session :=
  mk_session "hi" false (after_turn (Some (Some EmptyString)) None after_line) true false EmptyString EmptyString true true
    EmptyString.

Lemma ended_early_reachable : reach (session_step no_bytes takes_all ok_all true) session_start ended_early.
Proof.
  eapply reach_step; [eapply reach_step; [apply line_typed_reachable|]|].
  - exact (server_killed no_bytes takes_all ok_all true line_typed eq_refl eq_refl : session_step _ _ _ _ _ server_dead).
  - refine (client_turn no_bytes takes_all ok_all true server_dead (Some (Some EmptyString)) None
      (after_turn (Some (Some EmptyString)) None after_line) true _ _); [|vm_compute; reflexivity].
    split_and!; try done. by exists EmptyString.
Qed.

Lemma echo_session_faithful_witness :
  (∃ to_cli to_srv, srv_out user_through = c_stdout (cli user_through) +:+ to_cli ∧
                    typed user_through = srv_out user_through +:+ to_srv) ∧
  (∃ p, c_pipe (cli ended_early) = p +:+ status_bytes no_bytes "Server terminated prematurely" 30).
Proof.
  split; [exact (proj1 (echo_session_faithful no_bytes takes_all ok_all false user_through user_through_reachable))|].
  exact (proj1 (proj2 (proj2 (echo_session_faithful no_bytes takes_all ok_all true ended_early ended_early_reachable) eq_refl))).
Defined.

Lemma echo_session_completes_witness :
  ∃ s', reach (session_step no_bytes takes_all ok_all false) user_through s' ∧ cli_done s' = true ∧
        c_stdout (cli s') = "hi"%string.
Proof.
  destruct (echo_session_completes no_bytes takes_all ok_all user_through (λ _ _ _, eq_refl) (λ _ _, eq_refl)
    user_through_reachable eq_refl) as (s' & H1 & H2 & _ & H3).
  exists s'. split; [exact H1|]. split; [exact H2|exact H3].
Defined.

Lemma str_echo_echoes_witness :
  str_echo ok_all (map Bytes ["ab"; "c"]%string ++ [Interrupted; Eof]) EmptyString = Done true "abc"%string.
Proof. exact (str_echo_echoes ok_all ["ab"; "c"]%string (λ _ _, eq_refl)). Defined.

Lemma time_service_delivers_witness :
  ∃ p, time_reads no_bytes (map Bytes ["Mon"; CRLF]%string) (mk_time_client EmptyString EmptyString) =
       Done tt (mk_time_client (time_text "Mon") p).
Proof.
  destruct (time_service_delivers ok_all no_bytes ["Mon"%string] ["Mon"; CRLF]%string (λ _ _, eq_refl)
    ltac:(repeat apply Forall_cons_2; [..|apply Forall_nil_2]; (split; [reflexivity|apply (bool_decide_unpack _); vm_compute; exact I]))
    eq_refl) as (sent & p & _ & Hs & Hp).
  exists p. rewrite Hp, Hs. reflexivity.
Defined.

Definition long_text : string := String.string_of_list_ascii (replicate 4096 "x"%char).

Lemma time_client_overflows_witness :
  time_read no_bytes (Bytes long_text) (mk_time_client EmptyString EmptyString) = Undefined OutOfBounds.
Proof.
  exact (time_client_overflows no_bytes long_text (mk_time_client EmptyString EmptyString)
    ltac:(apply (bool_decide_unpack _); vm_compute; exact I)).
Defined.

Lemma menu_shows_first_status_witness :
  ∃ buf, menu_turn None (Some (Says (status_bytes no_bytes "No more user input" 20 +:+ "lost")))
           (mk_menu (String.string_of_list_ascii (replicate 30 "."%char)) []) =
         Done false (mk_menu buf ["No more user input"%string]).
Proof.
  exact (menu_shows_first_status no_bytes "No more user input" 20 "lost"
    (mk_menu (String.string_of_list_ascii (replicate 30 "."%char)) []) eq_refl
    ltac:(apply (bool_decide_unpack _); vm_compute; exact I) ltac:(apply (bool_decide_unpack _); vm_compute; exact I)).
Defined.
