(* ===== verification/EchoStart.v ===== *)
(** The start of the programs of Assignment 1 (tcpechotimesrv.c, tcpechotimecli.c,
    echo_cli.c, time_cli.c): the listening sockets and their flags, the address the
    user asks for, the pipe and the child process, and how the child is told where to
    connect and where to report. *)

From S2P Require Import InetAddr Kernel Echo.

(** Constants of the platform (Linux) and of unp.h. *)
Definition F_GETFL : Z := 3.
Definition F_SETFL : Z := 4.
Definition O_NONBLOCK : Z := 2048.
Definition INADDR_ANY : Z := 0.
Definition SIGCHLD : Z := 17.

(** What [fork] makes of the menu: a process that runs another program, or the parent,
    with the end of the pipe it reads. *)
Inductive forked := Runs (args : list string) | Reads (fd : Z).

Section start.
Context (ask : trace → call → Z).
(** The two descriptors [pipe] returns. *)
Context (pfd : trace → Z * Z).
(** The resolver: the official name of an address; the official name and the addresses
    of a name. *)
Context (gethostbyaddr : list Z → option string).
Context (gethostbyname : string → option (string * list (list Z))).
(** What lies in memory behind a string literal. *)
Context (behind : string → string).

(** * tcpechotimesrv.c *)

(** A listening socket and the flags it has been given. *)
Definition listening_socket (port : Z) : M trace (Z * Z) :=
  fd ← need ask (Socket InetAddr.AF_INET SOCK_STREAM 0);
  flag ← need ask (Fcntl fd F_GETFL 0);
  let flag := Z.lor flag O_NONBLOCK in
  need ask (Fcntl fd F_SETFL flag);;
  need ask (Setsockopt fd SOL_SOCKET SO_REUSEADDR ON);;
  need ask (Bind fd (Inet (htons port) (htonl INADDR_ANY)));;
  need ask (Listen fd LISTENQ);;
  mret (fd, flag).

Definition server_sockets : M trace ((Z * Z) * (Z * Z)) :=
  echo ← listening_socket 55000;
  time ← listening_socket 50000;
  mret (echo, time).

(** A connection on a listening socket: it is made blocking and handed to a thread.
    The flags stay cleared in the variable. *)
Definition start_service (k : service) (lstnfd flag : Z) : M trace Z :=
  connfd ← need ask (Accept lstnfd);
  let flag := Z.land flag (Z.lnot O_NONBLOCK) in
  need ask (Fcntl connfd F_SETFL flag);;
  need ask (ThreadCreate (match k with EchoService => "echo_serv" | TimeService => "time_serv" end) connfd);;
  mret flag.

(** * tcpechotimecli.c *)

(** The address of the server as text, in an array of 16 characters; [junk] is what
    [IPaddress_in] holds before. *)
Definition find_server (argc : Z) (arg : string) (junk : list Z) : M trace string :=
  if negb (argc =? 2) then exit 1
  else
    '(ok, addr) ← inet_pton InetAddr.AF_INET arg junk;
    addr ← (if negb (ok =? 0) then
              match gethostbyaddr addr with Some _ => mret addr | None => exit 1 end
            else match gethostbyname arg with
                 | Some (_, addr :: _) => mret addr
                 | Some (_, []) => undef NullDeref
                 | None => exit 1
                 end);
    str ← inet_ntop InetAddr.AF_INET addr 16;
    of_opt NullDeref str.

(** After the choice of a service: [pipe_port] has four characters. *)
Definition run_service (k : service) (str : string) : M trace forked :=
  need ask (Signal SIGCHLD);;
  need ask Pipe;;
  tr ← get;
  let '(rd_end, wr_end) := pfd tr in
  pid ← need ask Fork;
  if pid =? 0 then
    try ask (Close rd_end);;
    pipe_port ← strcpy 4 (print_d wr_end);
    let args := ["xterm"; "-e"; match k with EchoService => "./echo_cli" | TimeService => "./time_cli" end;
                 str; pipe_port]%string in
    need ask (Exec "xterm" args);;
    mret (Runs args)
  else
    try ask (Close wr_end);;
    mret (Reads rd_end).

(** * echo_cli.c and time_cli.c *)

(** [sscanf(argv[2], "%d", &pipe_port)] *)
Definition pipe_arg (arg : string) (junk : Z) : M trace Z :=
  match scan_d arg with None => mret junk | Some (p, _) => int_op p end.

(** A report before the end of the program. *)
Definition report_exit {A} (pipe_port : Z) (lit : string) (n : nat) : M trace A :=
  try ask (Put pipe_port (status_bytes behind lit n));; exit 1.

Definition echo_cli_main (argv1 argv2 : string) (junk : Z) : M trace (Z * Z) :=
  pipe_port ← pipe_arg argv2 junk;
  sockfd ← need ask (Socket InetAddr.AF_INET SOCK_STREAM 0);
  '(ok, addr) ← inet_pton InetAddr.AF_INET argv1 [0; 0; 0; 0];
  if ok <=? 0 then exit 1
  else
    r ← try ask (Connect sockfd (Inet (htons 55000) (le_combine addr)));
    if r <? 0 then report_exit pipe_port "Server is not ready or is not reachable" 50
    else mret (sockfd, pipe_port).

Definition time_cli_main (argv1 argv2 : string) (junk : Z) : M trace (Z * Z) :=
  pipe_port ← pipe_arg argv2 junk;
  sockfd ← try ask (Socket InetAddr.AF_INET SOCK_STREAM 0);
  if sockfd <? 0 then report_exit pipe_port "TIME_CLI: socket failed to open" 40
  else
    '(ok, addr) ← inet_pton InetAddr.AF_INET argv1 [0; 0; 0; 0];
    if ok <? 0 then report_exit pipe_port "TIME_CLI: inet_pton error" 40
    else
      r ← try ask (Connect sockfd (Inet (htons 50000) (le_combine addr)));
      if r <? 0 then report_exit pipe_port "Server is not working or is not reachable" 50
      else mret (sockfd, pipe_port).

(** [execlp] of the child: the program of a service with its two arguments. *)
Definition service_main (k : service) : string → string → Z → M trace (Z * Z) :=
  match k with EchoService => echo_cli_main | TimeService => time_cli_main end.
End start.

(** * Lemmas *)

(** The flag O_NONBLOCK is bit 11. *)
Lemma blocking_flags flag i : 0 ≤ i →
  Z.testbit (Z.land flag (Z.lnot O_NONBLOCK)) i = Z.testbit flag i && negb (i =? 11).
Proof.
  intros Hi. rewrite Z.land_spec, Z.lnot_spec by done. f_equal. f_equal.
  change O_NONBLOCK with (2 ^ 11). rewrite Z.pow2_bits_eqb by lia. by rewrite Z.eqb_sym.
Qed.

(** The calls for a listening socket. *)
Definition listening (port : Z) (fd flag : Z) : list call :=
  [Socket InetAddr.AF_INET SOCK_STREAM 0; Fcntl fd F_GETFL 0; Fcntl fd F_SETFL (Z.lor flag O_NONBLOCK);
   Setsockopt fd SOL_SOCKET SO_REUSEADDR ON; Bind fd (Inet (htons port) (htonl INADDR_ANY)); Listen fd LISTENQ].

Definition service_port (k : service) : Z := match k with EchoService => 55000 | TimeService => 50000 end.

(** The sockets that are bound, in order, with their addresses. *)
Definition binds (cs : list call) : list (Z * address) :=
  omap (λ c, match c with Bind fd sa => Some (fd, sa) | _ => None end) cs.

Lemma inet_pton_quad {St} a b c d dst (s : St) :
  is_byte a → is_byte b → is_byte c → is_byte d → length dst = 4%nat →
  inet_pton InetAddr.AF_INET (quad_text a b c d) dst s = Done (1, [a; b; c; d]) s.
Proof.
  intros Ha Hb Hc Hd Hl. unfold inet_pton. cbn [Z.eqb Pos.eqb InetAddr.AF_INET].
  rewrite (bind_Done _ _ _ _ _ (pton4_spec _ s)), dotted_quad_text by done. unfold stored.
  by rewrite drop_ge by (simpl; lia).
Qed.

Lemma inet_ntop_quad {St} a b c d (s : St) :
  is_byte a → is_byte b → is_byte c → is_byte d →
  inet_ntop InetAddr.AF_INET [a; b; c; d] 16 s = Done (Some (quad_text a b c d)) s.
Proof.
  intros Ha Hb Hc Hd. unfold inet_ntop. cbn [Z.eqb Pos.eqb InetAddr.AF_INET]. rewrite ntop4_run by done.
  pose proof (length_quad_text a b c d Ha Hb Hc Hd).
  by destruct (Nat.ltb_spec 16 (String.length (quad_text a b c d))),
    (Nat.eqb_spec 16 (String.length (quad_text a b c d))); try lia.
Qed.

(** A dotted quad is four bytes. *)
Lemma dotted_quad_bytes text addr :
  dotted_quad text = Some addr → ∃ a b c d, addr = [a; b; c; d] ∧ is_byte a ∧ is_byte b ∧ is_byte c ∧ is_byte d.
Proof.
  unfold dotted_quad. destruct (mapM octet_value (split_dots text)) as [os|] eqn:Hm; [|done]. cbn.
  destruct (Nat.eqb_spec (length os) 4) as [Hl|]; [|done]. intros [= <-].
  assert (Hb : Forall is_byte os).
  { clear Hl. apply mapM_Some_1 in Hm. induction Hm as [|p v ps vs Hv _ IH]; [constructor|]. constructor.
    - destruct p as [|ch p]; [done|]. unfold octet_value, at_most_255 in Hv.
      destruct (dec_value _ 0) as [x|] eqn:Hx; [|done]. apply dec_value_ge in Hx; [|done]. cbn in Hv.
      destruct (Z.leb_spec x 255); [|done]. injection Hv as <-. unfold is_byte. lia.
    - apply IH. }
  do 5 (destruct os as [|? os]; try done). rewrite !Forall_cons in Hb. destruct Hb as (? & ? & ? & ? & _). eauto 10.
Qed.

(** Descriptors of a process with fewer than 1000 files fit into [pipe_port]. *)
Lemma pipe_port_fits fd : 0 ≤ fd < 1000 → (String.length (print_d fd) < 4)%nat.
Proof.
  intros Hfd.
  assert (H : forallb (λ n, String.length (print_d (Z.of_nat n)) <? 4)%nat (seq 0 1000) = true) by by vm_compute.
  rewrite forallb_forall in H. apply Nat.ltb_lt. rewrite <- (Z2Nat.id fd) by lia. apply H, in_seq. lia.
Qed.

Section serving.
Context (ask : trace → call → Z) (Hask : ∀ tr c, 0 ≤ ask tr c).

Lemma listening_socket_run port (tr : trace) :
  ∃ fd flag new, listening_socket ask port tr = Done (fd, Z.lor flag O_NONBLOCK) (tr ++ new) ∧ Forall good new ∧
    new.*1 = listening port fd flag ∧ (Fcntl fd F_GETFL 0, flag) ∈ new.
Proof.
  unfold listening_socket. do 6 serve Hask. rewrite <- !app_assoc. eexists r, r0, _. split; [reflexivity|].
  split; [goods|]. split; [done|]. cbn [app]. rewrite !elem_of_cons. auto.
Qed.

Lemma server_sockets_run (tr : trace) :
  ∃ echofd echoflag timefd timeflag new,
    server_sockets ask tr
    = Done ((echofd, Z.lor echoflag O_NONBLOCK), (timefd, Z.lor timeflag O_NONBLOCK)) (tr ++ new) ∧
    Forall good new ∧
    new.*1 = listening (service_port EchoService) echofd echoflag ++ listening (service_port TimeService) timefd timeflag ∧
    (Fcntl echofd F_GETFL 0, echoflag) ∈ new ∧ (Fcntl timefd F_GETFL 0, timeflag) ∈ new.
Proof.
  unfold server_sockets.
  destruct (listening_socket_run 55000 tr) as (fd1 & f1 & new1 & H1 & Hg1 & Hc1 & Hi1).
  rewrite (bind_Done _ _ _ _ _ H1).
  destruct (listening_socket_run 50000 (tr ++ new1)) as (fd2 & f2 & new2 & H2 & Hg2 & Hc2 & Hi2).
  rewrite (bind_Done _ _ _ _ _ H2), <- app_assoc. eexists fd1, f1, fd2, f2, (new1 ++ new2). split; [reflexivity|].
  rewrite Forall_app, fmap_app, Hc1, Hc2, !elem_of_app. auto.
Qed.
End serving.

Section serving.
Context (ask : trace → call → Z) (Hask : ∀ tr c, 0 ≤ ask tr c).
Context (pfd : trace → Z * Z) (behind : string → string).
Context (gethostbyaddr : list Z → option string) (gethostbyname : string → option (string * list (list Z))).

(** The server listens.  The echo and the time service each get a socket of their
    own that is non-blocking with its other flags kept, may be bound again at once, is
    bound to the service's port on every address and turned into a listening socket. *)
Theorem server_listens (tr : trace) :
  ∃ echofd echoflag timefd timeflag new,
    server_sockets ask tr
    = Done ((echofd, Z.lor echoflag O_NONBLOCK), (timefd, Z.lor timeflag O_NONBLOCK)) (tr ++ new) ∧
    Forall good new ∧
    new.*1 = listening (service_port EchoService) echofd echoflag ++ listening (service_port TimeService) timefd timeflag ∧
    (Fcntl echofd F_GETFL 0, echoflag) ∈ new ∧ (Fcntl timefd F_GETFL 0, timeflag) ∈ new.
Proof. exact (server_sockets_run ask Hask tr). Qed.

(** A connection of the server is blocking.  Whatever flags the listening socket
    has, the connection it hands to a thread has O_NONBLOCK cleared and no other flag
    changed. *)
Theorem connection_blocks (k : service) (lstnfd flag : Z) (tr : trace) :
  ∃ connfd flag' new, start_service ask k lstnfd flag tr = Done flag' (tr ++ new) ∧
    new.*1 = [Accept lstnfd; Fcntl connfd F_SETFL flag';
              ThreadCreate (match k with EchoService => "echo_serv" | TimeService => "time_serv" end) connfd] ∧
    ∀ i, 0 ≤ i → Z.testbit flag' i = Z.testbit flag i && negb (i =? 11).
Proof.
  unfold start_service. do 3 serve Hask. rewrite <- !app_assoc. eexists r, _, _. split; [reflexivity|].
  split; [done|]. intros i. apply blocking_flags.
Qed.

(** What [find_server] makes of an address that was found: its canonical text. *)
Definition text_of (addr : list Z) : string :=
  match addr with [a; b; c; d] => quad_text a b c d | _ => EmptyString end.

(** The server's address.  A dotted quad that has a name stands for itself, one
    that has none is refused; a host name stands for the first of its addresses, and
    a name that is unknown is refused. *)
Theorem find_server_finds (arg : string) (junk : list Z) (tr : trace) (Hjunk : length junk = 4%nat)
    (Hnames : ∀ name addrs, gethostbyname arg = Some (name, addrs) →
       ∃ a b c d rest, addrs = [a; b; c; d] :: rest ∧ is_byte a ∧ is_byte b ∧ is_byte c ∧ is_byte d) :
  find_server gethostbyaddr gethostbyname 2 arg junk tr
  = match dotted_quad arg with
    | Some addr => if gethostbyaddr addr then Done (text_of addr) tr else Exited 1 tr
    | None =>
        match gethostbyname arg with
        | Some (_, addrs) => Done (text_of (hd [] addrs)) tr
        | None => Exited 1 tr
        end
    end.
Proof.
  unfold find_server. cbn [negb Z.eqb Pos.eqb]. unfold inet_pton at 1. cbn [Z.eqb Pos.eqb InetAddr.AF_INET].
  rewrite <- bind_assoc_M. rewrite (bind_Done _ _ _ _ _ (pton4_spec arg tr)), bind_ret. unfold stored.
  destruct (dotted_quad arg) as [addr|] eqn:Hq.
  - destruct (dotted_quad_bytes _ _ Hq) as (a & b & c & d & -> & Ha & Hb & Hc & Hd). cbn [negb Z.eqb].
    rewrite drop_ge, app_nil_r by (rewrite Hjunk; simpl; lia).
    destruct (gethostbyaddr [a; b; c; d]); [|done]. rewrite bind_ret.
    by rewrite (bind_Done _ _ _ _ _ (inet_ntop_quad a b c d tr Ha Hb Hc Hd)).
  - cbn [negb Z.eqb]. destruct (gethostbyname arg) as [[name addrs]|]; [|done].
    destruct (Hnames name addrs eq_refl) as (a & b & c & d & rest & -> & Ha & Hb & Hc & Hd). rewrite bind_ret.
    by rewrite (bind_Done _ _ _ _ _ (inet_ntop_quad a b c d tr Ha Hb Hc Hd)).
Qed.

(** The arguments of the program for a service. *)
Definition service_args (k : service) (str : string) (pipe_end : Z) : list string :=
  ["xterm"; "-e"; match k with EchoService => "./echo_cli" | TimeService => "./time_cli" end; str; print_d pipe_end]%string.

Lemma run_service_run k str (tr : trace) :
  (∀ tr, 0 ≤ (pfd tr).2 < 1000) →
  ∃ pid rd_end wr_end new, pfd (tr ++ take 2 new) = (rd_end, wr_end) ∧ Forall good new ∧
    run_service ask pfd k str tr
    = Done (if pid =? 0 then Runs (service_args k str wr_end) else Reads rd_end) (tr ++ new) ∧
    new.*1 = [Signal SIGCHLD; Pipe; Fork] ++
             (if pid =? 0 then [Close rd_end; Exec "xterm" (service_args k str wr_end)] else [Close wr_end]).
Proof.
  intros Hp. unfold run_service. do 2 serve Hask. rewrite bind_get. cbv beta.
  match goal with |- context [pfd ?t] => destruct (pfd t) as [rd_end wr_end] eqn:Hpfd; specialize (Hp t) end.
  rewrite Hpfd in Hp. cbn [snd] in Hp. serve Hask. exists r1, rd_end, wr_end. destruct (Z.eqb_spec r1 0) as [->|].
  - serve Hask. match goal with |- context [(strcpy 4 ?x ≫= ?k) ?t] =>
      rewrite (bind_Done _ _ _ _ _ (strcpy_run 4 x t (pipe_port_fits _ Hp))) end.
    serve Hask. rewrite <- !app_assoc. eexists. split; [|split; [|split; [reflexivity|done]]].
    + cbn [app take]. by rewrite <- app_assoc in Hpfd.
    + goods.
  - serve Hask. rewrite <- !app_assoc. eexists. split; [|split; [|split; [reflexivity|done]]].
    + cbn [app take]. by rewrite <- app_assoc in Hpfd.
    + goods.
Qed.

Lemma service_main_run k a b c d wr_end junk (tr : trace) :
  is_byte a → is_byte b → is_byte c → is_byte d → 0 ≤ wr_end < 1000 →
  ∃ sockfd new, service_main ask behind k (quad_text a b c d) (print_d wr_end) junk tr
      = Done (sockfd, wr_end) (tr ++ new) ∧ Forall good new ∧
    new.*1 = [Socket InetAddr.AF_INET SOCK_STREAM 0;
              Connect sockfd (Inet (htons (service_port k)) (le_combine [a; b; c; d]))].
Proof.
  intros Ha Hb Hc Hd Hw.
  assert (Harg : pipe_arg (print_d wr_end) junk tr = Done wr_end tr).
  { unfold pipe_arg. rewrite scan_d_print_end. apply int_op_ok. unfold INT_MIN, INT_MAX. lia. }
  assert (Hneg : ∀ r, 0 ≤ r → (r <? 0) = false) by (intros; by apply Z.ltb_ge).
  destruct k; cbn [service_main service_port]; [unfold echo_cli_main|unfold time_cli_main];
    rewrite (bind_Done _ _ _ _ _ Harg); serve Hask; rewrite ?Hneg by done;
    match goal with |- context [(inet_pton _ _ ?l ≫= _) ?t] =>
      rewrite (bind_Done _ _ _ _ _ (inet_pton_quad a b c d l t Ha Hb Hc Hd eq_refl)) end;
    cbn [Z.leb Z.ltb Z.compare]; serve Hask; rewrite Hneg by done; rewrite <- app_assoc; eexists r, _;
    (split; [reflexivity|]; split; [goods|done]).
Qed.

(** C22: The child and the server agree.  For an address that has a name, typed in
    dotted form, the child process that serves a choice executes the program of the
    service with two arguments from which that program recovers the address and the end
    of the pipe: it connects to the address at the very port to which the server binds
    the socket it hands to the threads of this service, and reports on the pipe the
    parent reads.  The calls of both programs succeed, and the parent has fewer than
    1000 open files.  Reading the choice comes before: the four characters it is read
    into are too few for any valid one. *)
Theorem child_reaches_service (srv : trace → call → Z) (Hsrv : ∀ tr c, 0 ≤ srv tr c)
    (k : service) (a b c d : Z) (name : string) (junk : list Z) (junkport : Z) (strv tr tr2 : trace)
    (Ha : is_byte a) (Hb : is_byte b) (Hc : is_byte c) (Hd : is_byte d) (Hjunk : length junk = 4%nat)
    (rd_end wr_end : Z) (Hpipe : ∀ tr, pfd tr = (rd_end, wr_end)) (Hfiles : 0 ≤ wr_end < 1000)
    (Hname : gethostbyaddr [a; b; c; d] = Some name) :
  let typed := quad_text a b c d in
  ∃ echofd echoflag timefd timeflag echoport timeport news,
    server_sockets srv strv = Done ((echofd, echoflag), (timefd, timeflag)) (strv ++ news) ∧
    binds news.*1 = [(echofd, Inet echoport (htonl INADDR_ANY)); (timefd, Inet timeport (htonl INADDR_ANY))] ∧
    find_server gethostbyaddr gethostbyname 2 typed junk tr = Done typed tr ∧
  ∃ pid tr', run_service ask pfd k typed tr
      = Done (if pid =? 0 then Runs (service_args k typed wr_end) else Reads rd_end) tr' ∧
  ∃ sockfd new, service_main ask behind k typed (print_d wr_end) junkport tr2 = Done (sockfd, wr_end) (tr2 ++ new) ∧
    new.*1 = [Socket InetAddr.AF_INET SOCK_STREAM 0;
              Connect sockfd (Inet (match k with EchoService => echoport | TimeService => timeport end)
                                   (le_combine [a; b; c; d]))].
Proof.
  intros typed. destruct (server_sockets_run srv Hsrv strv) as (efd & ef & tfd & tf & news & Hs & _ & Hcalls & _).
  eexists efd, _, tfd, _, (htons 55000), (htons 50000), news. split; [exact Hs|]. split; [by rewrite Hcalls|]. split.
  - unfold find_server. cbn [negb Z.eqb Pos.eqb].
    rewrite (bind_Done _ _ _ _ _ (inet_pton_quad a b c d junk tr Ha Hb Hc Hd Hjunk)). cbn [negb Z.eqb].
    rewrite Hname, bind_ret. by rewrite (bind_Done _ _ _ _ _ (inet_ntop_quad a b c d tr Ha Hb Hc Hd)).
  - destruct (run_service_run k typed tr) as (pid & r & w & new & Hp & _ & Hrun & _); [intros t; by rewrite Hpipe|].
    rewrite Hpipe in Hp. injection Hp as <- <-. exists pid, (tr ++ new). split; [done|].
    destruct (service_main_run k a b c d wr_end junkport tr2 Ha Hb Hc Hd Hfiles) as (sockfd & new2 & H2 & _ & Hc2).
    exists sockfd, new2. split; [exact H2|]. rewrite Hc2. by destruct k.
Qed.
End serving.

(** A server that cannot be reached.  When the connection is refused, both clients
    end with 1, and the last thing they do is to write a report to the pipe; its
    length exceeds the literal. *)
Theorem refused_is_reported (ask : trace → call → Z) (behind : string → string) (k : service) (a b c d : Z)
    (wr_end junk : Z) (tr : trace)
    (Hask : ∀ tr c, (∀ fd sa, c ≠ Connect fd sa) → 0 ≤ ask tr c) (Hrefused : ∀ tr fd sa, ask tr (Connect fd sa) < 0)
    (Ha : is_byte a) (Hb : is_byte b) (Hc : is_byte c) (Hd : is_byte d) (Hw : 0 ≤ wr_end < 1000) :
  let lit := match k with EchoService => "Server is not ready or is not reachable"
                        | TimeService => "Server is not working or is not reachable" end%string in
  ∃ new r, service_main ask behind k (quad_text a b c d) (print_d wr_end) junk tr
    = Exited 1 (tr ++ new ++ [(Put wr_end (status_bytes behind lit 50), r)]) ∧ (String.length lit < 50)%nat.
Proof.
  intros lit.
  assert (Harg : pipe_arg (print_d wr_end) junk tr = Done wr_end tr).
  { unfold pipe_arg. rewrite scan_d_print_end. apply int_op_ok. unfold INT_MIN, INT_MAX. lia. }
  assert (Hs : (ask tr (Socket InetAddr.AF_INET SOCK_STREAM 0) <? 0) = false) by (apply Z.ltb_ge, Hask; by intros ? ?).
  assert (Hr : ∀ t fd sa, (ask t (Connect fd sa) <? 0) = true) by (intros; apply Z.ltb_lt, Hrefused).
  destruct k; cbn [service_main]; [unfold echo_cli_main|unfold time_cli_main]; rewrite (bind_Done _ _ _ _ _ Harg).
  - rewrite (bind_Done _ _ _ _ _ (need_run ask _ tr (proj1 (Z.ltb_ge _ 0) Hs))).
    rewrite (bind_Done _ _ _ _ _ (inet_pton_quad a b c d [0; 0; 0; 0] _ Ha Hb Hc Hd eq_refl)). cbn [Z.leb Z.compare].
    rewrite (bind_Done _ _ _ _ _ (try_run ask _ _)), Hr. unfold report_exit. rewrite (bind_Done _ _ _ _ _ (try_run ask _ _)).
    rewrite <- !app_assoc. eexists [_; _], _. split; [reflexivity|simpl; lia].
  - rewrite (bind_Done _ _ _ _ _ (try_run ask _ tr)), Hs.
    rewrite (bind_Done _ _ _ _ _ (inet_pton_quad a b c d [0; 0; 0; 0] _ Ha Hb Hc Hd eq_refl)). cbn [Z.ltb Z.compare].
    rewrite (bind_Done _ _ _ _ _ (try_run ask _ _)), Hr. unfold report_exit. rewrite (bind_Done _ _ _ _ _ (try_run ask _ _)).
    rewrite <- !app_assoc. eexists [_; _], _. split; [reflexivity|simpl; lia].
Qed.

(** * Calls that fail *)

Lemma stops_pton4_loop src saw octets tmp : stops (pton4_loop src saw octets tmp).
Proof.
  revert saw octets tmp. induction src as [|ch src IH]; intros saw octets tmp; cbn [pton4_loop]; cbv zeta; stops_tac.
Qed.

(** Failing calls.  Whatever the kernel and the resolver answer, the server and the
    choice of its address go on only while their calls succeed; the first failure is
    the last call and ends the program with 1. *)
Theorem echo_starts_stop (ask : trace → call → Z) (gethostbyaddr : list Z → option string)
    (gethostbyname : string → option (string * list (list Z))) (k : service) (fd flag argc : Z) (arg : string)
    (junk : list Z) :
  stops (server_sockets ask) ∧ stops (start_service ask k fd flag) ∧
  stops (find_server gethostbyaddr gethostbyname argc arg junk).
Proof.
  split_and!.
  - unfold server_sockets, listening_socket. stops_tac.
  - unfold start_service. stops_tac.
  - unfold find_server, inet_pton, inet_ntop, inet_pton4. cbn [Z.eqb Pos.eqb InetAddr.AF_INET].
    pose proof stops_pton4_loop. stops_tac.
Qed.

(** * Examples *)

Definition named (addr : list Z) : option string := Some "compserv1"%string.
Definition hosts (name : string) : option (string * list (list Z)) := Some (name, [[130; 245; 1; 44]]).
Definition a_pipe (tr : trace) : Z * Z := (5, 6).

(** A kernel whose server is down. *)
Definition refusing (tr : trace) (c : call) : Z := match c with Connect _ _ => -1 | _ => 3 end.

Lemma server_listens_witness :
  ∃ echofd echoflag timefd timeflag new,
    server_sockets serving [] = Done ((echofd, Z.lor echoflag O_NONBLOCK), (timefd, Z.lor timeflag O_NONBLOCK)) ([] ++ new) ∧
    Forall good new ∧
    new.*1 = listening 55000 echofd echoflag ++ listening 50000 timefd timeflag ∧
    (Fcntl echofd F_GETFL 0, echoflag) ∈ new ∧ (Fcntl timefd F_GETFL 0, timeflag) ∈ new.
Proof. exact (server_listens serving serving_ok []). Defined.

Lemma connection_blocks_witness :
  ∃ connfd flag' new, start_service serving TimeService 4 2050 [] = Done flag' ([] ++ new) ∧
    new.*1 = [Accept 4; Fcntl connfd F_SETFL flag'; ThreadCreate "time_serv" connfd] ∧
    ∀ i, 0 ≤ i → Z.testbit flag' i = Z.testbit 2050 i && negb (i =? 11).
Proof. exact (connection_blocks serving serving_ok TimeService 4 2050 []). Defined.

Lemma find_server_finds_witness :
  find_server named hosts 2 "compserv1" [0; 0; 0; 0] [] = Done "130.245.1.44"%string [].
Proof.
  refine (find_server_finds named hosts "compserv1" [0; 0; 0; 0] [] eq_refl _).
  intros name addrs [= _ <-]. exists 130, 245, 1, 44, []. unfold is_byte. split; [done|lia].
Defined.

Lemma child_reaches_service_witness :
  ∃ echofd echoflag timefd timeflag echoport timeport news,
    server_sockets serving [] = Done ((echofd, echoflag), (timefd, timeflag)) ([] ++ news) ∧
    binds news.*1 = [(echofd, Inet echoport (htonl INADDR_ANY)); (timefd, Inet timeport (htonl INADDR_ANY))] ∧
    find_server named hosts 2 "130.245.1.44" [0; 0; 0; 0] [] = Done "130.245.1.44"%string [] ∧
  ∃ pid tr', run_service serving a_pipe EchoService "130.245.1.44" []
      = Done (if pid =? 0 then Runs (service_args EchoService "130.245.1.44" 6) else Reads 5) tr' ∧
  ∃ sockfd new, service_main serving (λ _, EmptyString) EchoService "130.245.1.44" "6" 0 [] = Done (sockfd, 6) ([] ++ new) ∧
    new.*1 = [Socket InetAddr.AF_INET SOCK_STREAM 0; Connect sockfd (Inet echoport (le_combine [130; 245; 1; 44]))].
Proof.
  refine (child_reaches_service serving serving_ok a_pipe (λ _, EmptyString) named hosts serving serving_ok EchoService
    130 245 1 44 "compserv1" [0; 0; 0; 0] 0 [] [] [] _ _ _ _ eq_refl 5 6 (λ _, eq_refl) _ eq_refl); unfold is_byte; lia.
Defined.

Lemma refused_is_reported_witness : ∃ new r,
  service_main refusing (λ _, EmptyString) TimeService "130.245.1.44" "6" 0 []
  = Exited 1 ([] ++ new ++ [(Put 6 (status_bytes (λ _, EmptyString) "Server is not working or is not reachable" 50), r)]) ∧
  (String.length "Server is not working or is not reachable" < 50)%nat.
Proof.
  refine (refused_is_reported refusing (λ _, EmptyString) TimeService 130 245 1 44 6 0 [] _ _ _ _ _ _ _);
    [|done|unfold is_byte; lia..].
  intros tr c Hc. destruct c; try done. by destruct (Hc fd a).
Defined.
